(* ===== verification/_CoqProject ===== *)
-Q . S2P
Prelude.v
SafeInt.v
Uint128.v
Uint128Facts.v
Asset.v
AssetFacts.v
UndoDatabase.v
UndoFacts.v
Authority.v
AuthorityFacts.v
ForkDatabase.v
ForkFacts.v
State.v
Sample.v
Balance.v
BalanceFacts.v
AssetEval.v
AssetEvalFacts.v
Votes.v
VotesFacts.v
Social.v
SocialFacts.v
Vesting.v
VestingFacts.v
Delegations.v
DelegationFacts.v
Invariants.v
InvariantFacts.v
Market.v
MarketFacts.v
Streaming.v
Rewards.v
RewardFacts.v
CashoutFacts.v
FundsFacts.v
Blocks.v
BlockFacts.v
Accounts.v
AccountFacts.v
RecoveryFacts.v
CreationFacts.v
Content.v
ContentFacts.v
BlockDatabase.v
BlockDatabaseFacts.v
Operations.v
Proposals.v
Transactions.v
Frames.v
SteadyFacts.v
BlockSteady.v
TransactionFacts.v
ProposalFacts.v
ConservationFacts.v
ChainConservation.v
Node.v
Genesis.v
GenesisFacts.v
NodeFacts.v
Secondary.v
SecondaryFacts.v
