(* ===== verification/Prelude.v ===== *)
(** * BitcoinMusic core: a verification library (root file)

    The consensus core of the node, the libraries [fc] (integers), [db] (object
    database) and [chain] under src/libraries, embedded as Rocq functions with the
    theorems that make it correct.  A C++ function that may throw returns
    [result]; one that changes the database is a function of [st database], a
    state and error monad (below); code that catches exceptions and goes on keeps
    its state with every outcome ([stx]).  An object of the database is a record
    named after its class, a [Module] with the type [t]; a table is a [gmap] from
    instance numbers with a counter for the next one; a reference to an object is
    its number, looked up again when it is read.  Amounts are signed 64-bit
    integers checked as [fc::safe] does; raw unsigned integers wrap where C++ does
    ([u16], [u32], [u64]).

    ** Files, from the integers to the node

    - [SafeInt], [Uint128] / [Uint128Facts]: fc/safe.hpp and fc/uint128.cpp, operator
      by operator.  Checked arithmetic is exact or throws; the limbs compute modulo
      2^128; decimal printing round-trips.  Division of uint128 is boost's, a
      parameter ([BoostMP]) with its documented behaviour as law.
    - [Asset] / [AssetFacts]: protocol/asset.cpp and compound.hpp.  Conversion at a
      price is the exact truncated quotient; prices are strictly ordered.
    - [UndoDatabase] / [UndoFacts]: db/undo_database.cpp on generic tables.  The undo
      states refine a stack of snapshots of the database.
    - [Authority] / [AuthorityFacts]: names, authorities, sign_state.cpp,
      verify_authority and the search for the signatures a transaction needs.  Key
      recovery has happened when these functions run: the signature set is a set of
      keys.  What passes has every approval; the search returns available keys, among
      which those that manage contents are missing.
    - [ForkDatabase] / [ForkFacts]: chain/fork_database.cpp on a heap of shared items
      with weak links.  Which blocks are taken, the head, the window, the branches.
    - [State]: the object types, unique indexes and accessors of database.cpp, one
      table per type, with [Sample] a small state the witnesses run on.
    - [Balance] / [BalanceFacts]: adjust_balance, adjust_supply, interest on XUSD,
      pay_fee, create_mbd, transfer.  The measure [gap] is the recorded supply of an
      asset less all its holdings; each operation's effect on it is exact.
    - [AssetEval] / [AssetEvalFacts]: asset_evaluator.cpp and asset_ops.cpp.
    - [Votes] / [VotesFacts]: votes for witnesses and platforms, proxies four levels
      deep; the tallies equal the weights of the voters.
    - [Social] / [SocialFacts]: friendship and scores; a refinement of the abstract
      graph of friends and requests.
    - [Vesting] / [VestingFacts]: vesting shares, their price, powering down.
    - [Delegations] / [DelegationFacts]: delegated shares and redelegations.
    - [Invariants] / [InvariantFacts]: validate_invariants, a share split, the
      recount of votes; what a passed audit means.
    - [Market] / [MarketFacts]: the order book, feeds, conversions and their queue.
    - [Streaming]: platforms, reporting requests, reports of what was played and the
      32-bit counters of listening time.
    - [Rewards] / [RewardFacts], [CashoutFacts], [FundsFacts]: the payout of reports,
      the funds of a block, the conversions that fall due.  What a block pays out is
      what it adds to the supply.
    - [Blocks] / [BlockFacts]: slots, the header of a block, the witness schedule,
      irreversibility, feeds and hardforks.
    - [Accounts] / [AccountFacts], [RecoveryFacts], [CreationFacts]: the account
      operations and the recovery of owners, with the runs of the chain as a step
      relation; creating an account conserves every asset.
    - [Content] / [ContentFacts]: contents, their approvals and votes, and the claims
      on genesis balances.
    - [Secondary] / [SecondaryFacts]: the indexes of accounts and contents that
      [primary_index] keeps besides the tables; they list exactly what they should.
      The consensus does not read them.
    - [BlockDatabase] / [BlockDatabaseFacts]: block_database.cpp on two files; a map
      from numbers to blocks.
    - [Operations]: the union of all operations, what validation asks of each and
      the authorities each requires (operations.cpp, base_operations.cpp,
      btcm_operations.cpp, proposal.cpp).
    - [Proposals] / [ProposalFacts]: proposal_evaluator.cpp, the dispatch of an
      operation to its evaluator, push_proposal and the expiry of proposals.
      Proposals refer back only, so their execution ends.
    - [Transactions] / [TransactionFacts]: _apply_transaction, _apply_block, the
      table of recent transactions, block summaries, the Merkle root.  In a run of
      blocks no transaction is applied twice.
    - [Frames], [SteadyFacts], [BlockSteady]: what code leaves alone ([keeps]): no
      evaluator moves the clock of the chain, and each keeps the state [sound].
    - [ConservationFacts], [ChainConservation]: no operation, transaction or proposal
      creates or destroys units of any asset, but for the reservation of core assets;
      a block does only where it pays more than [FundsFacts] and [VestingFacts] bound.
    - [Node] / [NodeFacts]: what database.cpp does around blocks: pushing, popping,
      switching forks, pending transactions, producing blocks, checkpoints, rebuilding
      from stored blocks.  A block that fails leaves the chain as it was.
    - [Genesis] / [GenesisFacts]: init_genesis; whatever is imported, the first state
      has every supply held by someone, and transactions keep it so.

    A file and its [Facts] file are split so that the definitions of a component
    can be required without its proofs.  The components call each other as the code
    does: evaluators call [Balance]; [Vesting] calls [Votes] and [Social] to carry
    new shares into tallies and scores; [Delegations], [Streaming], [Accounts],
    [Content] and [Rewards] call [Vesting]; [Proposals] dispatches to all evaluators;
    [Transactions] runs operations through it and ends a block with [Blocks],
    [Rewards], [Market] and the expiry loops; [Node] drives [Transactions] under
    [ForkDatabase] and [BlockDatabase].  What one component leaves alone for another
    is stated by relations shared across files: [quiet] (balances and supplies
    untouched), [gap] (conservation), [ids_below] and [ids_ok] (fresh instance numbers
    are fresh), [steady] (clock and soundness).

    ** Parameters

    Code outside the modelled files is a class of operations: [BoostMP] (division of
    128-bit integers), [TextChecks] (UTF-8 and JSON), [Addresses] (addresses of keys),
    [Wire] (sizes, hashes and keys recovered from signatures), [Packed] (fc::raw),
    [Producer] (signing) and [GenesisText] (keys and addresses in a genesis file).  A law is assumed of one only where a theorem
    names it; the witnesses instantiate them with concrete functions.

    ** Loops and fuel

    A C++ loop whose end is not structural has fuel that the caller computes from
    the state (the number of orders, reports, proposals, accounts with a proxy, ...);
    running out is [undefined_behaviour].  The theorems on each loop show that the
    fuel is enough: the result has no such error, or more fuel gives the same result.

    ** Not modelled

    - net, p2p, wallet, app, plugins, programs, utilities, egenesis: I/O, network
      and user interface around the core; no consensus state.
    - fc other than its integers: cryptography, threads, serialization, JSON.
    - opening and closing the files of a node, and what a reindex that fails leaves.
    - the lifetime of C++ objects: a reference is read as the value it was bound to.
    - escrow and liquidity rewards: their operations are disabled by the code.
    - notifications to plugins: the consensus state does not depend on them.
    - the limit of undo states that push_proposal raises until the next block: it
      only keeps older states longer.
*)

From stdpp Require Export base option list gmap strings sorting.
From Stdlib Require Export ZArith Lia.
From Stdlib Require Export Ascii.
From Stdlib Require String.

#[global] Open Scope Z_scope.

(** ** Outcomes of C++ code

    A C++ function of the model either returns a value or throws.  [exn] names
    the exception types the modelled code throws.  [std_overflow_error],
    [std_domain_error] and [std_ios_failure] are the exceptions of the C++ library
    and of Boost that are not [fc::exception]s; [undefined_behaviour] is the outcome of code the
    language gives no meaning to (signed overflow of a raw integer, an index
    out of range, a null dereference). *)

Inductive exn :=
  | assert_exception
  | overflow_exception
  | underflow_exception
  | divide_by_zero_exception
  | parse_error_exception
  | unlinkable_block_exception
  | unknown_hardfork_exception
  | undo_database_exception
  | pop_empty_chain
  | key_not_found_exception
  | std_exception
  | tx_missing_active_auth
  | tx_missing_owner_auth
  | tx_missing_basic_auth
  | tx_missing_other_auth
  | tx_irrelevant_sig
  | tx_duplicate_sig
  | std_overflow_error
  | std_domain_error
  | std_ios_failure
  | undefined_behaviour.

#[export] Instance exn_eq_dec : EqDecision exn.
Proof. solve_decision. Defined.

(** [fc::exception]s are the ones the chain code catches. *)
Definition is_fc_exception (e : exn) : bool :=
  match e with
  | std_overflow_error | std_domain_error | std_ios_failure | undefined_behaviour => false
  | _ => true
  end.

Inductive result (A : Type) :=
  | Ok (a : A)
  | Throw (e : exn).
Arguments Ok {A} a.
Arguments Throw {A} e.

#[export] Instance result_ret : MRet result := fun A a => Ok a.
#[export] Instance result_bind : MBind result := fun A B f m =>
  match m with Ok a => f a | Throw e => Throw e end.
#[export] Instance result_fmap : FMap result := fun A B f m =>
  match m with Ok a => Ok (f a) | Throw e => Throw e end.

(** [FC_ASSERT( b )] *)
Definition fc_assert (b : bool) : result unit :=
  if b then Ok tt else Throw assert_exception.

(** [assert( b )] of <cassert>: the release builds drop it, the debug builds abort. *)
Definition of_option {A} (e : exn) (o : option A) : result A :=
  match o with Some a => Ok a | None => Throw e end.

Definition is_ok {A} (m : result A) : bool :=
  match m with Ok _ => true | Throw _ => false end.

(** ** Stateful code

    A member function that changes a state [S] is a function from the state
    before to the value returned and the state after.  An exception carries no
    state: the callers of the modelled code that catch one restore the state
    from an undo session (file [UndoDatabase]). *)

Definition st (S A : Type) : Type := S -> result (A * S).

#[export] Instance st_ret {S} : MRet (st S) := fun A a s => Ok (a, s).
#[export] Instance st_bind {S} : MBind (st S) := fun A B f m s =>
  match m s with Ok (a, s') => f a s' | Throw e => Throw e end.
#[export] Instance st_fmap {S} : FMap (st S) := fun A B f m s =>
  match m s with Ok (a, s') => Ok (f a, s') | Throw e => Throw e end.

Definition lift {S A} (m : result A) : st S A := fun s =>
  match m with Ok a => Ok (a, s) | Throw e => Throw e end.
Definition get_st {S} : st S S := fun s => Ok (s, s).
Definition gets {S A} (f : S -> A) : st S A := fun s => Ok (f s, s).
Definition modify_st {S} (f : S -> S) : st S unit := fun s => Ok (tt, f s).
Definition throw {S A} (e : exn) : st S A := fun _ => Throw e.
Definition assert_st {S} (b : bool) : st S unit := lift (fc_assert b).

(** [FC_CAPTURE_AND_RETHROW]: an exception of the C++ library comes out as an
    [fc::exception] with [std_exception_code]. *)
Definition rethrown (e : exn) : exn :=
  match e with std_overflow_error | std_domain_error | std_ios_failure => std_exception | e => e end.
Definition capture {S A} (m : st S A) : st S A := fun s =>
  match m s with Ok r => Ok r | Throw e => Throw (rethrown e) end.

(** [if( b ) m] *)
Definition when {S} (b : bool) (m : st S unit) : st S unit :=
  if b then m else mret tt.

(** [for( const auto& x : l ) f( x )] *)
Fixpoint for_each {S A} (l : list A) (f : A -> st S unit) : st S unit :=
  match l with
  | [] => mret tt
  | x :: l => f x ≫= fun _ => for_each l f
  end.

(** The same loop over code that only reads or accumulates. *)
Fixpoint foldM {A B} (f : B -> A -> result B) (b : B) (l : list A) : result B :=
  match l with
  | [] => Ok b
  | x :: l => f b x ≫= fun b' => foldM f b' l
  end.

(** ** Code that catches exceptions

    Where the code catches an exception and goes on, what it did before the
    exception is still there: the state comes back with every outcome. *)

Definition stx (S A : Type) : Type := S -> result A * S.

#[export] Instance stx_ret {S} : MRet (stx S) := fun A a s => (Ok a, s).
#[export] Instance stx_bind {S} : MBind (stx S) := fun A B f m s =>
  match m s with (Ok a, s') => f a s' | (Throw e, s') => (Throw e, s') end.

Definition getx {S A} (f : S -> A) : stx S A := fun s => (Ok (f s), s).
Definition modx {S} (f : S -> S) : stx S unit := fun s => (Ok tt, f s).
Definition throwx {S A} (e : exn) : stx S A := fun s => (Throw e, s).
Definition assertx {S} (b : bool) : stx S unit := fun s => (fc_assert b, s).
Definition liftx {S A} (r : result A) : stx S A := fun s => (r, s).

(** [try { m } catch( const fc::exception& e ) { h( e ) }] *)
Definition try_catch {S A} (m : stx S A) (h : exn -> stx S A) : stx S A := fun s =>
  match m s with
  | (Throw e, s') => if is_fc_exception e then h e s' else (Throw e, s')
  | r => r
  end.

Fixpoint for_eachx {S A} (l : list A) (f : A -> stx S unit) : stx S unit :=
  match l with
  | [] => mret tt
  | x :: l => f x ≫= fun _ => for_eachx l f
  end.

(** ** Machine integers *)

Definition wrap (w x : Z) : Z := x mod 2 ^ w.
Notation u8 := (wrap 8).
Notation u16 := (wrap 16).
Notation u32 := (wrap 32).
Notation u64 := (wrap 64).

Definition to_signed (w x : Z) : Z :=
  let m := x mod 2 ^ w in if m <? 2 ^ (w - 1) then m else m - 2 ^ w.
Notation i32 := (to_signed 32).
Notation i64 := (to_signed 64).

Definition int64_max : Z := 9223372036854775807.
Definition int64_min : Z := -9223372036854775808.
Definition is_int64 (x : Z) : Prop := int64_min <= x <= int64_max.
Definition in_int64 (x : Z) : bool := (int64_min <=? x) && (x <=? int64_max).

(** Arithmetic on a raw [int64_t]: signed overflow has no meaning in C++. *)
Definition raw_int64 (x : Z) : result Z :=
  if in_int64 x then Ok x else Throw undefined_behaviour.

(** ** Functional record update

    [Settable R] gives the eta expansion of a record; the setter of a field is
    computed from it by abstracting the field. *)

Class Settable (R : Type) := settable : R -> R.
Class Setter {R T : Type} (proj : R -> T) := setter : (T -> T) -> R -> R.

Ltac derive_setter :=
  match goal with
  | |- @Setter ?R ?T ?proj =>
      let inst := constr:(_ : Settable R) in
      let eta := eval hnf in inst in
      match eval pattern proj in eta with
      | ?mk proj => exact (fun (upd : T -> T) => mk (fun r : R => upd (proj r)))
      end
  end.
#[export] Hint Extern 1 (Setter _) => derive_setter : typeclass_instances.

Declare Scope record_scope.
Delimit Scope record_scope with rec.
Notation "x <| proj ::= f |>" := (setter (proj:=proj) f x)
  (at level 12, f at next level, left associativity) : record_scope.
Notation "x <| proj := v |>" := (setter (proj:=proj) (fun _ => v) x)
  (at level 12, v at next level, left associativity) : record_scope.
#[global] Open Scope record_scope.

(** ** Sums over a table *)

Definition map_sum {K V} `{Countable K} (f : V -> Z) (m : gmap K V) : Z :=
  map_fold (fun _ v acc => f v + acc) 0 m.

(** ** Lemmas: outcomes *)

Create HintDb chain.

Ltac solve_run_iff :=
  cbv [gets lift modify_st assert_st fc_assert of_option mret st_ret]; split; intros;
  repeat match goal with H : _ /\ _ |- _ => destruct H end;
  simplify_eq; repeat split; try reflexivity; try congruence; eauto.

Lemma bind_Ok {A B} (m : result A) (f : A -> result B) b :
  m ≫= f = Ok b <-> exists a, m = Ok a /\ f a = Ok b.
Proof.
  destruct m as [a|e]; cbn; split; try naive_solver.
Qed.

Lemma st_bind_Ok {S A B} (m : st S A) (f : A -> st S B) s b s' :
  (m ≫= f) s = Ok (b, s') <-> exists a s1, m s = Ok (a, s1) /\ f a s1 = Ok (b, s').
Proof.
  unfold mbind, st_bind. destruct (m s) as [[a s1]|e]; naive_solver.
Qed.

Lemma fc_assert_Ok b u : fc_assert b = Ok u <-> b = true.
Proof. destruct b, u; solve_run_iff. Qed.

Lemma assert_st_Ok {S} b (s : S) u s' :
  assert_st b s = Ok (u, s') <-> b = true /\ s' = s.
Proof. destruct b, u; solve_run_iff. Qed.

Lemma lift_Ok {S A} (m : result A) (s : S) a s' :
  lift m s = Ok (a, s') <-> m = Ok a /\ s' = s.
Proof. destruct m; solve_run_iff. Qed.

Lemma gets_Ok {S A} (f : S -> A) s a s' :
  gets f s = Ok (a, s') <-> a = f s /\ s' = s.
Proof. solve_run_iff. Qed.

Lemma modify_st_Ok {S} (f : S -> S) s u s' :
  modify_st f s = Ok (u, s') <-> s' = f s.
Proof. destruct u; solve_run_iff. Qed.

Lemma st_ret_Ok {S A} (a : A) (s : S) b s' :
  (mret a : st S A) s = Ok (b, s') <-> b = a /\ s' = s.
Proof. solve_run_iff. Qed.

Lemma of_option_Ok {A} e (o : option A) a : of_option e o = Ok a <-> o = Some a.
Proof. destruct o; solve_run_iff. Qed.

(** Running one statement of code in [st]. *)
Lemma st_bind_run {S A B} (m : st S A) (f : A -> st S B) s a s' :
  m s = Ok (a, s') -> (m ≫= f) s = f a s'.
Proof. intros H. unfold mbind, st_bind. by rewrite H. Qed.

Lemma st_bind_throw {S A B} (m : st S A) (f : A -> st S B) s e :
  m s = Throw e -> (m ≫= f) s = Throw e.
Proof. intros H. unfold mbind, st_bind. by rewrite H. Qed.

(** Runs that start alike and go on alike. *)
Lemma st_bind_ext {S A B C} (m : st S A) (f : A -> st S B) (m' : st S C) (g : C -> st S B) s :
  (forall a s', m s = Ok (a, s') -> exists c, m' s = Ok (c, s') /\ f a s' = g c s') ->
  (forall e, m s = Throw e -> m' s = Throw e) -> (m ≫= f) s = (m' ≫= g) s.
Proof.
  unfold mbind, st_bind. intros H He. destruct (m s) as [[a s']|e].
  - destruct (H a s' eq_refl) as (c & -> & ?). done.
  - by rewrite (He e eq_refl).
Qed.

Lemma foldM_app {A B} (f : B -> A -> result B) b l k : foldM f b (l ++ k) = foldM f b l ≫= fun b' => foldM f b' k.
Proof. revert b. induction l as [|y l IH]; intros b; [done|]. cbn. destruct (f b y) as [b'|]; [apply IH|done]. Qed.

(** Running one statement of code in [stx]. *)
Lemma bindx_Ok {S A B} (m : stx S A) (f : A -> stx S B) s a s' :
  m s = (Ok a, s') -> (m ≫= f) s = f a s'.
Proof. intros H. unfold mbind, stx_bind. by rewrite H. Qed.

Lemma bindx_Throw {S A B} (m : stx S A) (f : A -> stx S B) s e s' :
  m s = (Throw e, s') -> (m ≫= f) s = (Throw e, s').
Proof. intros H. unfold mbind, stx_bind. by rewrite H. Qed.

(** An invariant of every iteration is an invariant of the loop. *)
Lemma for_each_inv {S A} (P : S -> Prop) (l : list A) (f : A -> st S unit) :
  (forall x s u s', x ∈ l -> P s -> f x s = Ok (u, s') -> P s') ->
  forall s u s', P s -> for_each l f s = Ok (u, s') -> P s'.
Proof.
  induction l as [|x l IH]; intros Hf s u s' Hs Hrun.
  - apply st_ret_Ok in Hrun as [_ ->]. done.
  - apply st_bind_Ok in Hrun as (u1 & s1 & H1 & H2).
    eapply IH; [..|exact H2].
    + intros y s2 u2 s2' Hy. apply Hf. by apply list_elem_of_further.
    + eapply Hf; [|exact Hs|exact H1]. apply list_elem_of_here.
Qed.

(** [run_inv H] takes apart a hypothesis saying that a computation returned. *)
Ltac run_step H :=
  lazymatch type of H with
  | (_ ≫= _) _ = Ok _ =>
      apply st_bind_Ok in H; destruct H as (? & ? & ? & ?)
  | _ ≫= _ = Ok _ => apply bind_Ok in H; destruct H as (? & ? & ?)
  | assert_st _ _ = Ok _ => apply assert_st_Ok in H; destruct H as [? ?]
  | fc_assert _ = Ok _ => apply fc_assert_Ok in H
  | lift _ _ = Ok _ => apply lift_Ok in H; destruct H as [? ?]
  | gets _ _ = Ok _ => apply gets_Ok in H; destruct H as [? ?]
  | modify_st _ _ = Ok _ => apply modify_st_Ok in H
  | mret _ _ = Ok _ => apply st_ret_Ok in H; destruct H as [? ?]
  | of_option _ _ = Ok _ => apply of_option_Ok in H
  | throw _ _ = Ok _ => discriminate H
  | Throw _ = Ok _ => discriminate H
  | Ok _ = Ok _ => injection H as H
  end.
Ltac run_inv :=
  repeat match goal with
  | H : _ = Ok _ |- _ => run_step H; simplify_eq
  end.

(** ** Lemmas: sums *)

Section MapSum.
Context {K V : Type} `{Countable K} (f : V -> Z).
Implicit Types m : gmap K V.

Lemma map_sum_empty : map_sum f (∅ : gmap K V) = 0.
Proof. apply map_fold_empty. Qed.

Lemma map_sum_insert_new m k v :
  m !! k = None -> map_sum f (<[k:=v]> m) = f v + map_sum f m.
Proof.
  intros Hk. unfold map_sum. rewrite map_fold_insert_L; [done| |done].
  intros. lia.
Qed.

Lemma map_sum_delete m k v :
  m !! k = Some v -> map_sum f (delete k m) = map_sum f m - f v.
Proof.
  intros Hk. pose proof (map_sum_insert_new (delete k m) k v) as Heq.
  rewrite insert_delete_id, lookup_delete_eq in Heq by done.
  rewrite Heq by done. lia.
Qed.

Lemma map_sum_insert m k v v' :
  m !! k = Some v -> map_sum f (<[k:=v']> m) = map_sum f m - f v + f v'.
Proof.
  intros Hk. rewrite <- insert_delete_eq.
  rewrite map_sum_insert_new by apply lookup_delete_eq.
  rewrite (map_sum_delete _ _ v) by done. lia.
Qed.
End MapSum.

Lemma map_sum_nonneg {K V} `{Countable K} (f : V -> Z) (m : gmap K V) :
  (forall k v, m !! k = Some v -> 0 <= f v) -> 0 <= map_sum f m.
Proof.
  induction m as [|k v m Hk IH] using map_ind; intros Hf.
  - by rewrite map_sum_empty.
  - rewrite map_sum_insert_new by done.
    assert (0 <= f v) by (eapply Hf; apply lookup_insert_eq).
    assert (0 <= map_sum f m); [|lia].
    apply IH. intros k' v' Hk'. apply (Hf k').
    rewrite lookup_insert_ne; [done|]. intros ->. congruence.
Qed.

Lemma map_sum_lookup_le {K V} `{Countable K} (f : V -> Z) (m : gmap K V) k v :
  (forall k v, m !! k = Some v -> 0 <= f v) -> m !! k = Some v -> f v <= map_sum f m.
Proof.
  intros Hf Hk.
  assert (0 <= map_sum f (delete k m)).
  { apply map_sum_nonneg. intros k' v' [_ Hk']%lookup_delete_Some. eauto. }
  rewrite (map_sum_delete _ _ _ v Hk) in *. lia.
Qed.

(** Sums are linear in the quantity. *)
Section MapSumLinear.
Context {K V : Type} `{Countable K}.
Implicit Types (m : gmap K V) (f g : V -> Z).

Lemma map_sum_ext f g m : (forall k v, m !! k = Some v -> f v = g v) -> map_sum f m = map_sum g m.
Proof.
  induction m as [|k v m Hk IH] using map_ind; intros Hf; [by rewrite !map_sum_empty|].
  rewrite !map_sum_insert_new by done. rewrite (Hf k v), IH; [done| |apply lookup_insert_eq].
  intros k' v' Hk'. apply (Hf k'). rewrite lookup_insert_ne; [done|]. intros ->. congruence.
Qed.

Lemma map_sum_add f g m : map_sum (fun v => f v + g v) m = map_sum f m + map_sum g m.
Proof.
  induction m as [|k v m Hk IH] using map_ind; [by rewrite !map_sum_empty|].
  rewrite !map_sum_insert_new, IH by done. lia.
Qed.

Lemma map_sum_scale f c m : map_sum (fun v => c * f v) m = c * map_sum f m.
Proof.
  induction m as [|k v m Hk IH] using map_ind; [rewrite !map_sum_empty; lia|].
  rewrite !map_sum_insert_new, IH by done. lia.
Qed.

Lemma map_sum_zero f m : (forall k v, m !! k = Some v -> f v = 0) -> map_sum f m = 0.
Proof.
  intros Hf. rewrite (map_sum_ext f (fun v => 0 * 0) m) by (intros; rewrite (Hf k v) by done; lia).
  rewrite (map_sum_scale (fun _ => 0) 0). lia.
Qed.

Lemma map_sum_fmap {W} (g : V -> W) (f : W -> Z) m : map_sum f (g <$> m) = map_sum (fun v => f (g v)) m.
Proof.
  induction m as [|k v m Hk IH] using map_ind; [by rewrite fmap_empty, !map_sum_empty|].
  rewrite fmap_insert, !map_sum_insert_new, IH; [done|done|]. by rewrite lookup_fmap, Hk.
Qed.

Lemma map_sum_filter (P : V -> bool) f m :
  map_sum f (filter (fun kv => P kv.2 = true) m) = map_sum (fun v => if P v then f v else 0) m.
Proof.
  induction m as [|k v m Hk IH] using map_ind; [by rewrite map_filter_empty, !map_sum_empty|].
  destruct (P v) eqn:E.
  - rewrite map_filter_insert_True by done. rewrite !map_sum_insert_new, E, IH; [done|done|].
    apply map_lookup_filter_None_2. by left.
  - rewrite map_filter_insert_False by (cbn; congruence). rewrite delete_id by done.
    rewrite map_sum_insert_new, E, IH by done. lia.
Qed.

(** A sum over the entries in any order. *)
Definition zsum (l : list Z) : Z := foldr Z.add 0 l.
Lemma zsum_app l k : zsum (l ++ k) = zsum l + zsum k.
Proof. unfold zsum. induction l as [|x l IH]; cbn; lia. Qed.
Lemma zsum_perm l k : Permutation l k -> zsum l = zsum k.
Proof. unfold zsum. induction 1; cbn in *; lia. Qed.
Lemma map_sum_list f m l : Permutation l (map_to_list m) -> map_sum f m = zsum (List.map (fun kv => f kv.2) l).
Proof.
  intros Hp. rewrite (zsum_perm _ (List.map (fun kv => f kv.2) (map_to_list m))) by by apply Permutation_map.
  unfold map_sum. rewrite map_fold_foldr. clear Hp. unfold zsum.
  induction (map_to_list m) as [|[k v] l' IH]; cbn in *; [done|]. by rewrite IH.
Qed.
Lemma zsum_filter {A} (p : A -> bool) (f : A -> Z) l :
  zsum (List.map f (List.filter p l)) = zsum (List.map (fun x => if p x then f x else 0) l).
Proof. unfold zsum. induction l as [|x l IH]; cbn; [done|]. destruct (p x); cbn; lia. Qed.
End MapSumLinear.

(** ** Lemmas: machine integers *)

Lemma wrap_small w x : 0 <= x < 2 ^ w -> wrap w x = x.
Proof. apply Z.mod_small. Qed.

Lemma wrap_bounds w x : 0 <= w -> 0 <= wrap w x < 2 ^ w.
Proof. intros. apply Z.mod_pos_bound. lia. Qed.

Lemma in_int64_spec x : in_int64 x = true <-> is_int64 x.
Proof. unfold in_int64, is_int64. lia. Qed.

Lemma in_int64_false x : in_int64 x = false <-> ~ is_int64 x.
Proof. unfold in_int64, is_int64. lia. Qed.
