(* ===== verification/SafeInt.v ===== *)
(** * Overflow-checked integers: [fc::safe< int64_t >], the type [share_type]

    Models libraries/fc/include/fc/safe.hpp at [T = int64_t].  The value is a
    [Z]; each operator has the guards of the source in the source's order, with
    C++'s truncating division ([Z.quot], [Z.rem]).  [safe_exact] states that the
    guards are exact: an operator returns the mathematical result when it fits
    in 64 bits and throws the right exception when it does not. *)

From S2P Require Import Prelude.

Module Safe.

Definition max : Z := int64_max.
Definition min : Z := int64_min.

Definition add (a b : Z) : result Z :=
  if (b >? 0) && (a >? max - b) then Throw overflow_exception
  else if (b <? 0) && (a <? min - b) then Throw underflow_exception
  else Ok (a + b).

Definition sub (a b : Z) : result Z :=
  if (b >? 0) && (a <? min + b) then Throw underflow_exception
  else if (b <? 0) && (a >? max + b) then Throw overflow_exception
  else Ok (a - b).

Definition mul (a b : Z) : result Z :=
  if a >? 0 then
    if b >? 0 then
      if a >? Z.quot max b then Throw overflow_exception else Ok (a * b)
    else
      if b <? Z.quot min a then Throw underflow_exception else Ok (a * b)
  else
    if b >? 0 then
      if a <? Z.quot min b then Throw underflow_exception else Ok (a * b)
    else
      if negb (a =? 0) && (b <? Z.quot max a) then Throw overflow_exception
      else Ok (a * b).

Definition div (a b : Z) : result Z :=
  if b =? 0 then Throw divide_by_zero_exception
  else if (a =? min) && (b =? -1) then Throw overflow_exception
  else Ok (Z.quot a b).

Definition rem (a b : Z) : result Z :=
  if b =? 0 then Throw divide_by_zero_exception
  else if (a =? min) && (b =? -1) then Throw overflow_exception
  else Ok (Z.rem a b).

Definition neg (a : Z) : result Z :=
  if a =? min then Throw overflow_exception else Ok (- a).

(** [operator++] and [operator--] go through [+=] and [-=]. *)
Definition incr (a : Z) : result Z := add a 1.
Definition decr (a : Z) : result Z := sub a 1.

(** [std::accumulate( first, last, init )] over shares: [init = init + *first]. *)
Definition accumulate (l : list Z) (init : Z) : result Z := foldM add init l.

(** ** Specification *)

Inductive binop := Add | Sub | Mul | Div.

Definition run (o : binop) : Z -> Z -> result Z :=
  match o with Add => add | Sub => sub | Mul => mul | Div => div end.

(** The mathematical result; [Z.quot] truncates towards zero like C++. *)
Definition math (o : binop) (a b : Z) : Z :=
  match o with Add => a + b | Sub => a - b | Mul => a * b | Div => Z.quot a b end.

(** A result above the range overflows, one below it underflows. *)
Definition exact (o : binop) (a b : Z) : result Z :=
  match o with
  | Div => if b =? 0 then Throw divide_by_zero_exception
           else if int64_max <? math Div a b then Throw overflow_exception
           else Ok (math Div a b)
  | _ => if int64_max <? math o a b then Throw overflow_exception
         else if math o a b <? int64_min then Throw underflow_exception
         else Ok (math o a b)
  end.

(** ** Lemmas *)

Lemma quot_lt_l a b m : 0 < b -> 0 <= m -> Z.quot m b < a <-> m < a * b.
Proof.
  intros. rewrite Z.quot_div_nonneg by lia.
  pose proof (Z.mul_div_le m b). pose proof (Z.mul_succ_div_gt m b). nia.
Qed.

(** [Z.quot min b] for a positive divisor rounds up. *)
Lemma quot_gt_l a b m : 0 < b -> m <= 0 -> a < Z.quot m b <-> a * b < m.
Proof.
  intros. assert (Z.quot m b = - Z.quot (- m) b) as ->.
  { rewrite Z.quot_opp_l by lia. lia. }
  pose proof (quot_lt_l (- a) b (- m)). lia.
Qed.

Lemma quot_gt_neg a b m : a < 0 -> 0 <= m -> b < Z.quot m a <-> m < a * b.
Proof.
  intros. assert (Z.quot m a = - Z.quot m (- a)) as ->.
  { rewrite Z.quot_opp_r by lia. lia. }
  pose proof (quot_lt_l (- b) (- a) m). nia.
Qed.

Ltac bool_cases :=
  repeat match goal with
  | |- context [if ?b then _ else _] => destruct b eqn:?
  end.

Lemma mul_exact a b : is_int64 a -> is_int64 b -> mul a b = exact Mul a b.
Proof.
  unfold is_int64, mul, exact, math, max, min. intros Ha Hb.
  pose proof (quot_lt_l a b int64_max). pose proof (quot_gt_l b a int64_min).
  pose proof (quot_gt_l a b int64_min). pose proof (quot_gt_neg a b int64_max).
  unfold int64_max, int64_min in *.
  destruct (Z.gtb_spec a 0), (Z.gtb_spec b 0).
  all: bool_cases; try reflexivity; exfalso; nia.
Qed.

Lemma quot_int64 a b :
  is_int64 a -> is_int64 b -> b <> 0 ->
  is_int64 (Z.quot a b) \/ (a = int64_min /\ b = -1).
Proof.
  unfold is_int64, int64_min, int64_max. intros Ha Hb Hb0.
  destruct (decide (b = -1)) as [->|].
  { change (-1) with (- (1)). rewrite Z.quot_opp_r, Z.quot_1_r by lia. lia. }
  assert (Z.abs (Z.quot a b) * Z.abs b <= Z.abs a).
  { rewrite <- Z.quot_abs by done. rewrite Z.mul_comm. apply Z.mul_quot_le; lia. }
  destruct (decide (b = 1)) as [->|]; [rewrite Z.quot_1_r; lia|]. nia.
Qed.

(** Inversion of a run that returned, for the clients. *)
Ltac safe_inv :=
  let H := fresh in
  intros H; revert H; bool_cases; try discriminate; intros [= <-].

Lemma add_Ok a b c : add a b = Ok c -> c = a + b.
Proof. unfold add. by safe_inv. Qed.

Lemma sub_Ok a b c : sub a b = Ok c -> c = a - b.
Proof. unfold sub. by safe_inv. Qed.

Lemma mul_Ok a b c : mul a b = Ok c -> c = a * b.
Proof. unfold mul. by safe_inv. Qed.

Lemma div_Ok a b c : div a b = Ok c -> b <> 0 /\ c = Z.quot a b.
Proof. unfold div. safe_inv; lia. Qed.

Lemma neg_Ok a c : neg a = Ok c -> c = - a.
Proof. unfold neg. by safe_inv. Qed.

(** Runs that cannot throw. *)
Lemma add_fits a b :
  is_int64 (a + b) -> add a b = Ok (a + b).
Proof.
  unfold add, is_int64, max, min. intros. bool_cases; solve [done | lia].
Qed.

Lemma sub_fits a b :
  is_int64 (a - b) -> sub a b = Ok (a - b).
Proof.
  unfold sub, is_int64, max, min. intros. bool_cases; solve [done | lia].
Qed.

Lemma neg_fits a : is_int64 (- a) -> neg a = Ok (- a).
Proof.
  unfold neg, is_int64, min, int64_min, int64_max. intros. bool_cases; solve [done | lia].
Qed.

Lemma mul_fits a b :
  is_int64 a -> is_int64 b -> is_int64 (a * b) -> mul a b = Ok (a * b).
Proof.
  intros Ha Hb [Hl Hu]. rewrite mul_exact by done. unfold exact, math.
  apply Z.ltb_ge in Hl as ->. by apply Z.ltb_ge in Hu as ->.
Qed.

Lemma add_int64 a b c : is_int64 a -> is_int64 b -> add a b = Ok c -> is_int64 c.
Proof.
  unfold add, is_int64, max, min. intros Ha Hb. safe_inv; lia.
Qed.

Lemma sub_int64 a b c : is_int64 a -> is_int64 b -> sub a b = Ok c -> is_int64 c.
Proof.
  unfold sub, is_int64, max, min. intros Ha Hb. safe_inv; lia.
Qed.

Lemma accumulate_Ok l init c : accumulate l init = Ok c -> c = init + foldr Z.add 0 l.
Proof.
  unfold accumulate. revert init. induction l as [|x l IH]; intros init Hrun; cbn in *.
  - injection Hrun as <-. lia.
  - apply bind_Ok in Hrun as (y & Hy%add_Ok & Hrun%IH). lia.
Qed.

(** For 64-bit operands each
    of the operators [+ - * /] of [share_type] returns exactly the
    mathematical result whenever that result fits in an [int64_t], throws
    [overflow_exception] when it is above the range, [underflow_exception] when
    it is below it, and [divide_by_zero_exception] on a zero divisor: no guard
    of safe.hpp is too strict or too lax and no result ever wraps. *)
Lemma safe_exact o a b :
  is_int64 a -> is_int64 b -> run o a b = exact o a b.
Proof.
  intros Ha Hb. destruct o; [..|by apply mul_exact|].
  - unfold is_int64, run, exact, math, add, max, min, int64_max, int64_min in *.
    bool_cases; solve [reflexivity | exfalso; lia].
  - unfold is_int64, run, exact, math, sub, max, min, int64_max, int64_min in *.
    bool_cases; solve [reflexivity | exfalso; lia].
  - unfold run, exact, math, div, min.
    destruct (Z.eqb_spec b 0); [done|].
    destruct (decide (a = int64_min /\ b = -1)) as [[-> ->]|Hn]; [done|].
    assert ((a =? int64_min) && (b =? -1) = false) as -> by lia.
    destruct (quot_int64 a b Ha Hb) as [[_ Hq]|?]; [done| |tauto].
    by apply Z.ltb_ge in Hq as ->.
Qed.

Lemma safe_exact_witness :
  is_int64 int64_max /\ is_int64 1 /\ run Add int64_max 1 = Throw overflow_exception.
Proof.
  split; [|split]; [unfold is_int64; vm_compute; intuition discriminate..|].
  rewrite (safe_exact Add int64_max 1); [reflexivity|..];
    unfold is_int64; vm_compute; intuition discriminate.
Defined.

End Safe.
