(* ===== verification/Uint128.v ===== *)
(** * 128-bit unsigned integers: [fc::uint128]

    Models libraries/fc/src/uint128.cpp and libraries/fc/include/fc/uint128.hpp
    limb by limb: a value is a pair of 64-bit halves and every operator is the
    source's sequence of 64-bit operations.  [val] reads a pair as an integer;
    the lemmas of the file show that the operators compute modulo 2^128, which
    is what the files of the chain use.  Division is the one operator the source
    delegates to Boost: it is a parameter, the class [BoostMP]. *)

From S2P Require Import Prelude.
From coqutil Require Import Z.bitblast.

(** [boost::multiprecision::uint128_t]'s operator/= on two values read as
    integers.  [BoostMPOk] is its documentation: truncating division, and an
    exception derived from [std::overflow_error] on a zero divisor. *)
Class BoostMP := m128_div : Z -> Z -> result Z.
Class BoostMPOk {B : BoostMP} : Prop := {
  m128_div_zero : forall a, m128_div a 0 = Throw std_overflow_error;
  m128_div_pos : forall a b, 0 <= a < 2 ^ 128 -> 0 < b < 2 ^ 128 -> m128_div a b = Ok (a / b)
}.

(** A concrete instance, for evaluation. *)
Definition boost_reference : BoostMP := fun a b =>
  if b =? 0 then Throw std_overflow_error else Ok (a / b).

Record u128 := U128 { hi : Z; lo : Z }.

#[export] Instance u128_eq_dec : EqDecision u128.
Proof. solve_decision. Defined.

Module Uint128.

Definition zero : u128 := U128 0 0.
Definition of_uint32 (l : Z) : u128 := U128 0 (u32 l).
(** [hi( -(l<0) )]: the [int] 0 or -1 converted to [uint64_t]. *)
Definition of_int32 (l : Z) : u128 := U128 (u64 (- Z.b2z (l <? 0))) (u64 l).
Definition of_int64 (l : Z) : u128 := U128 (u64 (- Z.b2z (l <? 0))) (u64 l).
Definition of_uint64 (l : Z) : u128 := U128 0 (u64 l).

Definition eqb (a b : u128) : bool := (hi a =? hi b) && (lo a =? lo b).
Definition ltb (a b : u128) : bool :=
  if hi a =? hi b then lo a <? lo b else hi a <? hi b.
Definition gtb (a b : u128) : bool := ltb b a.
Definition geb (a b : u128) : bool := eqb a b || gtb a b.
Definition leb (a b : u128) : bool := eqb a b || ltb a b.
Definition is_zero (a : u128) : bool := negb (negb (hi a =? 0) || negb (lo a =? 0)).

(** [~] on a [uint64_t]. *)
Definition not64 (x : Z) : Z := u64 (Z.lnot x).

Definition lnot (a : u128) : u128 := U128 (not64 (hi a)) (not64 (lo a)).
Definition incr (a : u128) : u128 :=
  let lo' := u64 (lo a + 1) in
  U128 (u64 (hi a + Z.b2z (lo' =? 0))) lo'.
Definition decr (a : u128) : u128 :=
  U128 (u64 (hi a - Z.b2z (lo a =? 0))) (u64 (lo a - 1)).
Definition neg (a : u128) : u128 := incr (U128 (not64 (hi a)) (not64 (lo a))).

Definition or_assign (a u : u128) : u128 := U128 (Z.lor (hi a) (hi u)) (Z.lor (lo a) (lo u)).
Definition and_assign (a u : u128) : u128 := U128 (Z.land (hi a) (hi u)) (Z.land (lo a) (lo u)).
Definition xor_assign (a u : u128) : u128 := U128 (Z.lxor (hi a) (hi u)) (Z.lxor (lo a) (lo u)).

(** The friend [operator |] is written [uint128(l)=(r)]. *)
Definition or (l r : u128) : u128 := r.
Definition and (l r : u128) : u128 := and_assign l r.
Definition xor (l r : u128) : u128 := xor_assign l r.

Definition add (a u : u128) : u128 :=
  let old := lo a in
  let lo' := u64 (lo a + lo u) in
  U128 (u64 (hi a + hi u + Z.b2z (lo' <? old))) lo'.
Definition sub (a u : u128) : u128 := add a (neg u).

Definition to_integer (a : u128) : result Z :=
  _ ← fc_assert (hi a =? 0);
  let lo32 := u32 (lo a) in
  _ ← fc_assert (lo a =? lo32);
  Ok lo32.
Definition to_uint64 (a : u128) : result Z :=
  _ ← fc_assert (hi a =? 0);
  Ok (lo a).

Definition max_value : u128 := U128 (2 ^ 64 - 1) (2 ^ 64 - 1).

(** [rhs.to_integer()] where [rhs < 128]: the assertions of [to_integer] hold. *)
Definition shift_count (rhs : u128) : Z :=
  match to_integer rhs with Ok n => n | Throw _ => 0 end.

Definition shl (a rhs : u128) : u128 :=
  if geb rhs (of_int64 128) then zero
  else
    let n := shift_count rhs in
    let halfsize := 64 in
    let '(n, h, l) := if halfsize <=? n then (n - halfsize, lo a, 0) else (n, hi a, lo a) in
    if negb (n =? 0) then
      let h := u64 (Z.shiftl h n) in
      let mask := not64 (Z.shiftr (2 ^ 64 - 1) n) in
      let h := Z.lor h (Z.shiftr (Z.land l mask) (halfsize - n)) in
      U128 h (u64 (Z.shiftl l n))
    else U128 h l.

Definition shr (a rhs : u128) : u128 :=
  if geb rhs (of_int64 128) then zero
  else
    let n := shift_count rhs in
    let halfsize := 64 in
    let '(n, h, l) := if halfsize <=? n then (n - halfsize, 0, hi a) else (n, hi a, lo a) in
    if negb (n =? 0) then
      let l := Z.shiftr l n in
      let mask := not64 (u64 (Z.shiftl (2 ^ 64 - 1) n)) in
      let l := Z.lor l (u64 (Z.shiftl (Z.land h mask) (halfsize - n))) in
      U128 (Z.shiftr h n) l
    else U128 h l.

Definition shl_int (a : u128) (n : Z) : u128 := shl a (of_int32 n).
Definition shr_int (a : u128) (n : Z) : u128 := shr a (of_int32 n).

Definition mul (a b : u128) : u128 :=
  let a0 := u32 (lo a) in
  let a1 := u32 (Z.shiftr (lo a) 32) in
  let a2 := u32 (hi a) in
  let a3 := u32 (Z.shiftr (hi a) 32) in
  let b0 := u32 (lo b) in
  let b1 := u32 (Z.shiftr (lo b) 32) in
  let b2 := u32 (hi b) in
  let b3 := u32 (Z.shiftr (hi b) 32) in
  let r := U128 0 (u64 (a3 * b0)) in
  let r := add r (of_uint64 (u64 (a2 * b1))) in
  let r := add r (of_uint64 (u64 (a1 * b2))) in
  let r := add r (of_uint64 (u64 (a0 * b3))) in
  let r := shl_int r 32 in
  let r := add r (of_uint64 (u64 (a2 * b0))) in
  let r := add r (of_uint64 (u64 (a1 * b1))) in
  let r := add r (of_uint64 (u64 (a0 * b2))) in
  let r := shl_int r 32 in
  let r := add r (of_uint64 (u64 (a1 * b0))) in
  let r := add r (of_uint64 (u64 (a0 * b1))) in
  let r := shl_int r 32 in
  add r (of_uint64 (u64 (a0 * b0))).

(** [full_product]: the 256-bit product as a pair (high, low).  The second half
    of the function adds the partial products [s], [r], [q], [p]. *)
Definition full_product_sum (s r q p : u128) : u128 * u128 :=
  let y0 := lo s in
  let acc := of_uint64 (hi s) in
  let acc := add acc (of_uint64 (lo q)) in
  let acc := add acc (of_uint64 (lo r)) in
  let y1 := lo acc in
  let acc := of_uint64 (hi acc) in
  let acc := add acc (of_uint64 (hi q)) in
  let acc := add acc (of_uint64 (hi r)) in
  let acc := add acc (of_uint64 (lo p)) in
  let y2 := lo acc in
  let y3 := u64 (hi acc + hi p) in
  (U128 y3 y2, U128 y1 y0).

Definition full_product (a b : u128) : u128 * u128 :=
  let ah := hi a in let al := lo a in
  let bh := hi b in let bl := lo b in
  let s := mul (of_uint64 al) (of_uint64 bl) in
  let r := mul (of_uint64 ah) (of_uint64 bl) in
  let q := mul (of_uint64 al) (of_uint64 bh) in
  let p := mul (of_uint64 ah) (of_uint64 bh) in
  full_product_sum s r q p.

(** The shift-and-subtract [divide] template at [T = uint128].  The two loops
    run on fuel; [None] is a loop that did not finish. *)
Fixpoint divide_scale (fuel : nat) (n d x : u128) : option (u128 * u128) :=
  match fuel with
  | O => None
  | S fuel =>
      if geb n d && eqb (and (shr_int d 127) (of_int32 1)) (of_int32 0)
      then divide_scale fuel n (shl_int d 1) (shl_int x 1)
      else Some (d, x)
  end.

Fixpoint divide_subtract (fuel : nat) (n d x answer : u128) : option (u128 * u128) :=
  match fuel with
  | O => None
  | S fuel =>
      if negb (eqb x (of_int32 0)) then
        let '(n, answer) := if geb n d then (sub n d, or_assign answer x) else (n, answer) in
        divide_subtract fuel n (shr_int d 1) (shr_int x 1) answer
      else Some (answer, n)
  end.

Definition divide (numerator denominator : u128) : result (option (u128 * u128)) :=
  if eqb denominator (of_int32 0) then Throw std_domain_error
  else Ok ('(d, x) ← divide_scale 129 numerator denominator (of_int32 1);
           divide_subtract 130 numerator d x (of_int32 0)).

(** [operator %=]: the quotient of [divide] is dropped. *)
Definition rem (a b : u128) : result (option u128) :=
  r ← divide a b; Ok (option_map snd r).

(** [operator /=] goes through Boost and splits the quotient again. *)
Definition m128_of (x : u128) : Z := (Z.shiftl (hi x) 64 mod 2 ^ 128 + lo x) mod 2 ^ 128.
Definition div {B : BoostMP} (a b : u128) : result u128 :=
  self ← m128_div (m128_of a) (m128_of b);
  Ok (U128 (u64 (Z.shiftr self 64)) (u64 (Z.shiftr (Z.shiftl self 64 mod 2 ^ 128) 64))).

(** [_popcount_64] and [popcount]. *)
Definition popcount_masks : list (Z * Z) :=
  [(1, 0x5555555555555555); (2, 0x3333333333333333); (4, 0x0F0F0F0F0F0F0F0F);
   (8, 0x00FF00FF00FF00FF); (16, 0x0000FFFF0000FFFF); (32, 0x00000000FFFFFFFF)].
Definition popcount_step (x : Z) (wm : Z * Z) : Z :=
  u64 (Z.land x wm.2 + Z.land (Z.shiftr x wm.1) wm.2).
Definition popcount_64 (x : Z) : Z := u8 (foldl popcount_step x popcount_masks).
Definition popcount (a : u128) : Z := u8 (popcount_64 (lo a) + popcount_64 (hi a)).

(** ** Decimal conversion *)

Definition digit_chars : string := "0123456789abcdefghijklmnopqrstuvwxyz".

Definition code (c : ascii) : Z := Z.of_nat (nat_of_ascii c).

(** [operator std::string]: the digits are written from the end of a buffer of
    128 characters; [i] counts the free ones. *)
Fixpoint to_string_loop (i : nat) (ii : u128) (acc : string) : result (option string) :=
  if negb (eqb ii (of_int32 0)) then
    match i with
    | O => Ok (Some acc)
    | S i =>
        r ← divide ii (of_int32 10);
        match r with
        | None => Ok None
        | Some (ii, remainder) =>
            d ← to_integer remainder;
            match String.get (Z.to_nat d) digit_chars with
            | None => Throw undefined_behaviour
            | Some c => to_string_loop i ii (String c acc)
            end
        end
    end
  else Ok (Some acc).

Definition to_string (a : u128) : result (option string) :=
  if eqb a (of_int32 0) then Ok (Some "0"%string) else to_string_loop 127 a "".

(** The digit loop of [uint128( const std::string& )]. *)
Definition digit_value (radix : Z) (ch : ascii) : option Z :=
  let c := code ch in
  if (65 <=? c) && (c <=? 90) then
    if (c - 65) + 10 <? radix then Some ((c - 65) + 10) else None
  else if (97 <=? c) && (c <=? 122) then
    if (c - 97) + 10 <? radix then Some ((c - 97) + 10) else None
  else if (48 <=? c) && (c <=? 57) then
    if c - 48 <? radix then Some (c - 48) else None
  else None.

Fixpoint parse_digits (radix : Z) (acc : u128) (s : string) : u128 :=
  match s with
  | EmptyString => acc
  | String ch s =>
      match digit_value radix ch with
      | None => acc
      | Some n => parse_digits radix (add (mul acc (of_int32 radix)) (of_uint32 n)) s
      end
  end.

Definition parse_unsigned (s : string) : u128 :=
  match s with
  | String "0"%char (String "x"%char s) => parse_digits 16 zero s
  | String "0"%char s => parse_digits 8 zero s
  | s => parse_digits 10 zero s
  end.

Definition of_string (sz : string) : u128 :=
  match sz with
  | EmptyString => zero
  | String "-"%char s => neg (parse_unsigned s)
  | s => parse_unsigned s
  end.

(** ** Specification *)

Definition val (a : u128) : Z := hi a * 2 ^ 64 + lo a.
Definition wf (a : u128) : Prop := 0 <= hi a < 2 ^ 64 /\ 0 <= lo a < 2 ^ 64.

(** The number of bits set among the lowest [n]. *)
Fixpoint bit_count (n : nat) (x : Z) : Z :=
  match n with O => 0 | S n => x mod 2 + bit_count n (x / 2) end.

(** ** Lemmas: construction, addition, comparison *)

Lemma wf_bound a : wf a -> 0 <= val a < 2 ^ 128.
Proof. unfold wf, val. lia. Qed.

Lemma val_inj a b : wf a -> wf b -> val a = val b -> a = b.
Proof. destruct a, b; unfold wf, val; cbn. intros. f_equal; lia. Qed.

Lemma of_int64_wf l : wf (of_int64 l).
Proof. split; apply wrap_bounds; lia. Qed.

Lemma of_uint64_wf l : wf (of_uint64 l).
Proof. split; cbn; [lia|apply wrap_bounds; lia]. Qed.

Lemma of_int64_val l : is_int64 l -> val (of_int64 l) = l mod 2 ^ 128.
Proof.
  unfold is_int64, int64_min, int64_max, val, of_int64, wrap; cbn [hi lo].
  intros. destruct (Z.ltb_spec l 0); cbn [Z.b2z].
  - rewrite <- (Z_mod_plus_full l 1), <- (Z_mod_plus_full l 1 (2 ^ 128)).
    rewrite !(Z.mod_small (l + _)) by lia.
    change (- (1) mod 2 ^ 64) with (2 ^ 64 - 1). lia.
  - rewrite !Z.mod_small by lia. lia.
Qed.

Lemma of_int64_nonneg l : 0 <= l <= int64_max -> val (of_int64 l) = l.
Proof.
  unfold int64_max. intros. rewrite of_int64_val by (unfold is_int64, int64_min, int64_max; lia).
  apply Z.mod_small. lia.
Qed.

Lemma of_uint64_val l : 0 <= l < 2 ^ 64 -> val (of_uint64 l) = l.
Proof. unfold val, of_uint64; cbn [hi lo]. intros. rewrite wrap_small; lia. Qed.

Lemma add_wf a u : wf (add a u).
Proof. split; apply wrap_bounds; lia. Qed.

(** [a mod m] as a linear equation. *)
Lemma mod_unroll x m : 0 < m -> exists k, x mod m = x - k * m /\ 0 <= x - k * m < m.
Proof.
  intros. exists (x / m). pose proof (Z.mod_pos_bound x m).
  rewrite Z.mod_eq in * by lia. lia.
Qed.

Lemma mod_intro x y m : 0 <= x < m -> (exists k, x = y - k * m) -> x = y mod m.
Proof.
  intros Hx [k ->]. rewrite <- (Z.mod_small (y - k * m) m) at 1 by done.
  by rewrite Zminus_mod, Z_mod_mult, Z.sub_0_r, Zmod_mod.
Qed.

Lemma add_val a u : wf a -> wf u -> val (add a u) = (val a + val u) mod 2 ^ 128.
Proof.
  intros [Ha1 Ha2] [Hu1 Hu2]. pose proof (wf_bound _ (add_wf a u)) as Hb.
  apply mod_intro; [done|]. unfold val, add, wrap in *; cbn [hi lo] in *.
  destruct (mod_unroll (lo a + lo u) (2 ^ 64)) as (k & -> & ?); [lia|].
  assert (k = 0 \/ k = 1) as Hk by lia.
  destruct (mod_unroll (hi a + hi u + Z.b2z (lo a + lo u - k * 2 ^ 64 <? lo a)) (2 ^ 64))
    as (j & -> & ?); [lia|].
  exists j. destruct Hk as [-> | ->].
  - assert (lo a + lo u - 0 * 2 ^ 64 <? lo a = false) as -> by lia. cbn [Z.b2z]. lia.
  - assert (lo a + lo u - 1 * 2 ^ 64 <? lo a = true) as -> by lia. cbn [Z.b2z]. lia.
Qed.

Lemma not64_val x : 0 <= x < 2 ^ 64 -> not64 x = 2 ^ 64 - 1 - x.
Proof.
  intros. unfold not64, wrap, Z.lnot. symmetry. apply mod_intro; [lia|]. exists (-1). lia.
Qed.

Lemma incr_wf a : wf (incr a).
Proof. split; apply wrap_bounds; lia. Qed.

Lemma incr_val a : wf a -> val (incr a) = (val a + 1) mod 2 ^ 128.
Proof.
  intros [Ha1 Ha2]. pose proof (wf_bound _ (incr_wf a)) as Hb.
  apply mod_intro; [done|]. unfold val, incr, wrap in *; cbn [hi lo] in *.
  destruct (mod_unroll (lo a + 1) (2 ^ 64)) as (k & -> & ?); [lia|].
  destruct (mod_unroll (hi a + Z.b2z (lo a + 1 - k * 2 ^ 64 =? 0)) (2 ^ 64)) as (j & -> & ?); [lia|].
  exists j. destruct (Z.eqb_spec (lo a + 1 - k * 2 ^ 64) 0); cbn [Z.b2z]; lia.
Qed.

Lemma decr_val a : wf a -> val (decr a) = (val a - 1) mod 2 ^ 128.
Proof.
  intros [Ha1 Ha2].
  assert (wf (decr a)) as Hw by (split; apply wrap_bounds; lia).
  pose proof (wf_bound _ Hw) as Hb.
  apply mod_intro; [done|]. unfold val, decr, wrap in *; cbn [hi lo] in *.
  destruct (mod_unroll (lo a - 1) (2 ^ 64)) as (k & -> & ?); [lia|].
  destruct (mod_unroll (hi a - Z.b2z (lo a =? 0)) (2 ^ 64)) as (j & -> & ?); [lia|].
  exists j. destruct (Z.eqb_spec (lo a) 0); cbn [Z.b2z]; lia.
Qed.

Lemma neg_wf a : wf (neg a).
Proof. apply incr_wf. Qed.

Lemma neg_val a : wf a -> val (neg a) = (- val a) mod 2 ^ 128.
Proof.
  intros [Ha1 Ha2]. unfold neg. rewrite incr_val.
  - unfold val; cbn [hi lo]. rewrite !not64_val by done.
    symmetry. apply mod_intro; [apply Z.mod_pos_bound; lia|].
    destruct (mod_unroll (- (hi a * 2 ^ 64 + lo a)) (2 ^ 128)) as (k & -> & ?); [lia|].
    exists (k + 1). lia.
  - split; cbn [hi lo]; rewrite not64_val by done; lia.
Qed.

Lemma sub_wf a u : wf (sub a u).
Proof. apply add_wf. Qed.

Lemma sub_val a u : wf a -> wf u -> val (sub a u) = (val a - val u) mod 2 ^ 128.
Proof.
  intros Ha Hu. unfold sub. rewrite add_val by auto using neg_wf.
  rewrite neg_val by done. rewrite Zplus_mod_idemp_r. f_equal; lia.
Qed.

Lemma eqb_spec a b : wf a -> wf b -> eqb a b = (val a =? val b).
Proof. unfold wf, eqb, val. intros. lia. Qed.

Lemma ltb_spec a b : wf a -> wf b -> ltb a b = (val a <? val b).
Proof. unfold wf, ltb, val. intros. destruct (Z.eqb_spec (hi a) (hi b)); lia. Qed.

Lemma geb_spec a b : wf a -> wf b -> geb a b = (val b <=? val a).
Proof.
  intros Ha Hb. unfold geb, gtb. rewrite eqb_spec, ltb_spec by done. lia.
Qed.

Lemma leb_spec a b : wf a -> wf b -> leb a b = (val a <=? val b).
Proof.
  intros Ha Hb. unfold leb. rewrite eqb_spec, ltb_spec by done. lia.
Qed.

(** ** Lemmas: shifts *)

Lemma of_int32_small n : 0 <= n < 2 ^ 31 -> of_int32 n = U128 0 n.
Proof.
  intros. unfold of_int32. assert (n <? 0 = false) as -> by lia.
  cbn [Z.b2z]. rewrite (wrap_small _ n) by lia. reflexivity.
Qed.

Lemma shift_count_small n : 0 <= n < 128 -> shift_count (U128 0 n) = n.
Proof.
  intros. unfold shift_count, to_integer; cbn [hi lo]. rewrite wrap_small by lia.
  cbn. by rewrite Z.eqb_refl.
Qed.

Lemma lor_disjoint a b n : 0 <= n -> 0 <= b < 2 ^ n -> Z.lor (a * 2 ^ n) b = a * 2 ^ n + b.
Proof.
  intros Hn Hb. rewrite <- Z.add_lor_land.
  assert (Z.land (a * 2 ^ n) b = 0) as ->; [|lia].
  rewrite <- Z.shiftl_mul_pow2 by done. apply Z.bits_inj'; intros i Hi.
  rewrite Z.land_spec, Z.bits_0. destruct (decide (i < n)).
  - by rewrite Z.shiftl_spec_low.
  - destruct (decide (b = 0)) as [->|]; [by rewrite Z.bits_0, andb_false_r|].
    rewrite (Z.bits_above_log2 b i); [apply andb_false_r|lia|]. apply Z.log2_lt_pow2; [lia|].
    apply Z.lt_le_trans with (2 ^ n); [lia|]. apply Z.pow_le_mono_r; lia.
Qed.

Lemma testbit_64_high l i : 0 <= l < 2 ^ 64 -> 64 <= i -> Z.testbit l i = false.
Proof.
  intros. destruct (decide (l = 0)) as [->|]; [apply Z.bits_0|].
  apply Z.bits_above_log2; [lia|]. apply Z.log2_lt_pow2; [lia|].
  apply Z.lt_le_trans with (2 ^ 64); [lia|]. apply Z.pow_le_mono_r; lia.
Qed.

(** [(lo & mask) >> (64 - n)] with [mask = ~(uint64_t(-1) >> n)] is [lo >> (64 - n)]. *)
Lemma shl_mask l n : 0 <= l < 2 ^ 64 -> 0 < n < 64 ->
  Z.shiftr (Z.land l (not64 (Z.shiftr (2 ^ 64 - 1) n))) (64 - n) = l / 2 ^ (64 - n).
Proof.
  intros Hl Hn. rewrite <- Z.shiftr_div_pow2 by lia.
  apply Z.bits_inj'; intros i Hi. rewrite !Z.shiftr_spec, Z.land_spec by done.
  destruct (decide (i + (64 - n) < 64)).
  - unfold not64, wrap. rewrite Z.mod_pow2_bits_low, Z.lnot_spec, Z.shiftr_spec by lia.
    rewrite (testbit_64_high (2 ^ 64 - 1)) by lia. by rewrite andb_true_r.
  - by rewrite testbit_64_high by lia.
Qed.

Lemma shl_body h l n : 0 <= h < 2 ^ 64 -> 0 <= l < 2 ^ 64 -> 0 < n < 64 ->
  Z.lor (u64 (Z.shiftl h n)) (Z.shiftr (Z.land l (not64 (Z.shiftr (2 ^ 64 - 1) n))) (64 - n))
    = (h mod 2 ^ (64 - n)) * 2 ^ n + l / 2 ^ (64 - n).
Proof.
  intros. rewrite shl_mask by done.
  assert (2 ^ 64 = 2 ^ (64 - n) * 2 ^ n) as E by (rewrite <- Z.pow_add_r by lia; f_equal; lia).
  unfold wrap. rewrite Z.shiftl_mul_pow2, E, Z.mul_mod_distr_r by lia.
  apply lor_disjoint; [lia|]. split; [apply Z.div_pos; lia|].
  apply Z.div_lt_upper_bound; lia.
Qed.

Lemma pow_split n m : 0 <= n <= m -> 2 ^ m = 2 ^ (m - n) * 2 ^ n.
Proof. intros. rewrite <- Z.pow_add_r by lia. f_equal; lia. Qed.

Lemma shl_core h l n : 0 <= h < 2 ^ 64 -> 0 <= l < 2 ^ 64 -> 0 < n < 64 ->
  let h' := h mod 2 ^ (64 - n) * 2 ^ n + l / 2 ^ (64 - n) in
  let l' := l mod 2 ^ (64 - n) * 2 ^ n in
  (0 <= h' < 2 ^ 64 /\ 0 <= l' < 2 ^ 64) /\
  h' * 2 ^ 64 + l' = (h * 2 ^ 64 + l) * 2 ^ n mod 2 ^ 128.
Proof.
  intros Hh Hl Hn h' l'. pose proof (pow_split n 64) as E.
  pose proof (Z.mod_pos_bound h (2 ^ (64 - n))). pose proof (Z.mod_pos_bound l (2 ^ (64 - n))).
  pose proof (Z.div_mod l (2 ^ (64 - n))). pose proof (Z.div_mod h (2 ^ (64 - n))).
  assert (0 < 2 ^ (64 - n)) by lia. assert (0 < 2 ^ n) by lia.
  set (p := 2 ^ n) in *. set (q := 2 ^ (64 - n)) in *.
  assert (0 <= l / q < p).
  { split; [apply Z.div_pos; lia|]. apply Z.div_lt_upper_bound; lia. }
  assert (0 <= h' < 2 ^ 64) by (unfold h'; nia).
  assert (0 <= l' < 2 ^ 64) by (unfold l'; nia).
  split; [done|]. apply mod_intro; [lia|]. exists (h / q). unfold h', l'. nia.
Qed.

Lemma shl_correct a n : wf a -> 0 <= n < 128 ->
  wf (shl a (U128 0 n)) /\ val (shl a (U128 0 n)) = val a * 2 ^ n mod 2 ^ 128.
Proof.
  intros [Ha1 Ha2] Hn. unfold shl.
  rewrite geb_spec by (first [apply of_int64_wf | split; cbn; lia]).
  rewrite of_int64_nonneg by (unfold int64_max; lia).
  change (val (U128 0 n)) with (0 * 2 ^ 64 + n).
  assert (128 <=? 0 * 2 ^ 64 + n = false) as -> by lia.
  rewrite shift_count_small by done.
  assert (forall h l m, 0 <= h < 2 ^ 64 -> 0 <= l < 2 ^ 64 -> 0 <= m < 64 ->
    let r := if negb (m =? 0) then
        U128 (Z.lor (u64 (Z.shiftl h m)) (Z.shiftr (Z.land l (not64 (Z.shiftr (2 ^ 64 - 1) m))) (64 - m)))
             (u64 (Z.shiftl l m)) else U128 h l in
    wf r /\ val r = (h * 2 ^ 64 + l) * 2 ^ m mod 2 ^ 128) as Hcore.
  { intros h l m Hh Hl Hm. destruct (Z.eqb_spec m 0) as [->|]; cbn [negb].
    - unfold wf, val; cbn [hi lo]. rewrite Z.mul_1_r, Z.mod_small; lia.
    - unfold wf, val; cbn [hi lo]. rewrite shl_body by lia.
      unfold wrap. rewrite Z.shiftl_mul_pow2, (pow_split m 64), Z.mul_mod_distr_r by lia.
      rewrite <- (pow_split m 64) by lia. apply shl_core; lia. }
  destruct (Z.leb_spec 64 n).
  - destruct (Hcore (lo a) 0 (n - 64)) as [Hw Hv]; [lia..|]. split; [done|].
    rewrite Hv. unfold val. rewrite (pow_split 64 n) by lia.
    apply mod_intro; [apply Z.mod_pos_bound; lia|].
    destruct (mod_unroll ((lo a * 2 ^ 64 + 0) * 2 ^ (n - 64)) (2 ^ 128)) as (k & -> & _); [lia|].
    exists (k + hi a * 2 ^ (n - 64)). lia.
  - apply Hcore; lia.
Qed.

(** [(hi & mask) << (64 - n)] with [mask = ~(uint64_t(-1) << n)] moves the low [n] bits up. *)
Lemma shr_mask h n : 0 <= h < 2 ^ 64 -> 0 < n < 64 ->
  u64 (Z.shiftl (Z.land h (not64 (u64 (Z.shiftl (2 ^ 64 - 1) n)))) (64 - n))
    = h mod 2 ^ n * 2 ^ (64 - n).
Proof.
  intros Hh Hn.
  assert (Z.land h (not64 (u64 (Z.shiftl (2 ^ 64 - 1) n))) = h mod 2 ^ n) as ->.
  { rewrite <- Z.land_ones by lia. apply Z.bits_inj'; intros i Hi. rewrite !Z.land_spec.
    destruct (decide (i < 64)).
    - unfold not64, wrap.
      rewrite Z.mod_pow2_bits_low, Z.lnot_spec, Z.mod_pow2_bits_low by lia.
      rewrite Z.testbit_ones_nonneg by lia. destruct (Z.ltb_spec i n).
      + by rewrite Z.shiftl_spec_low.
      + rewrite Z.shiftl_spec by lia. change (2 ^ 64 - 1) with (Z.ones 64).
        rewrite Z.testbit_ones_nonneg by lia. by assert (i - n <? 64 = true) as -> by lia.
    - by rewrite testbit_64_high by lia. }
  pose proof (Z.mod_pos_bound h (2 ^ n)). pose proof (pow_split n 64).
  rewrite Z.shiftl_mul_pow2 by lia. apply wrap_small. nia.
Qed.

Lemma shr_core h l n : 0 <= h < 2 ^ 64 -> 0 <= l < 2 ^ 64 -> 0 < n < 64 ->
  (h / 2 ^ n) * 2 ^ 64 + (l / 2 ^ n + h mod 2 ^ n * 2 ^ (64 - n)) = (h * 2 ^ 64 + l) / 2 ^ n /\
  0 <= l / 2 ^ n + h mod 2 ^ n * 2 ^ (64 - n) < 2 ^ 64.
Proof.
  intros Hh Hl Hn. pose proof (pow_split n 64) as E.
  pose proof (Z.mod_pos_bound h (2 ^ n)). pose proof (Z.mod_pos_bound l (2 ^ n)).
  pose proof (Z.div_mod l (2 ^ n)). pose proof (Z.div_mod h (2 ^ n)).
  assert (0 < 2 ^ (64 - n)) by lia. assert (0 < 2 ^ n) by lia.
  set (p := 2 ^ n) in *. set (q := 2 ^ (64 - n)) in *.
  assert (0 <= l / p < q).
  { split; [apply Z.div_pos; lia|]. apply Z.div_lt_upper_bound; lia. }
  split; [|nia]. apply (Z.div_unique _ _ _ (l mod p)); [lia|]. nia.
Qed.

Lemma shr_correct a n : wf a -> 0 <= n < 128 ->
  wf (shr a (U128 0 n)) /\ val (shr a (U128 0 n)) = val a / 2 ^ n.
Proof.
  intros [Ha1 Ha2] Hn. unfold shr.
  rewrite geb_spec by (first [apply of_int64_wf | split; cbn; lia]).
  rewrite of_int64_nonneg by (unfold int64_max; lia).
  change (val (U128 0 n)) with (0 * 2 ^ 64 + n).
  assert (128 <=? 0 * 2 ^ 64 + n = false) as -> by lia.
  rewrite shift_count_small by done.
  assert (forall h l m, 0 <= h < 2 ^ 64 -> 0 <= l < 2 ^ 64 -> 0 <= m < 64 ->
    let r := if negb (m =? 0) then
        U128 (Z.shiftr h m)
             (Z.lor (Z.shiftr l m) (u64 (Z.shiftl (Z.land h (not64 (u64 (Z.shiftl (2 ^ 64 - 1) m)))) (64 - m))))
        else U128 h l in
    wf r /\ val r = (h * 2 ^ 64 + l) / 2 ^ m) as Hcore.
  { intros h l m Hh Hl Hm. destruct (Z.eqb_spec m 0) as [->|]; cbn [negb].
    - unfold wf, val; cbn [hi lo]. rewrite Z.div_1_r; lia.
    - unfold wf, val; cbn [hi lo]. rewrite shr_mask, !Z.shiftr_div_pow2, Z.lor_comm by lia.
      pose proof (pow_split m 64) as E.
      assert (0 <= l / 2 ^ m < 2 ^ (64 - m)).
      { split; [apply Z.div_pos; lia|]. apply Z.div_lt_upper_bound; lia. }
      assert (0 <= h / 2 ^ m < 2 ^ 64).
      { split; [apply Z.div_pos; lia|]. apply Z.div_lt_upper_bound; nia. }
      rewrite lor_disjoint, (Z.add_comm (_ * _)) by lia.
      destruct (shr_core h l m) as [? ?]; [lia..|]. lia. }
  destruct (Z.leb_spec 64 n).
  - destruct (Hcore 0 (hi a) (n - 64)) as [Hw Hv]; [lia..|]. split; [done|].
    rewrite Hv. unfold val. rewrite (pow_split 64 n), (Z.mul_comm (2 ^ (n - 64))), <- Z.div_div by lia.
    rewrite (Z.add_comm (_ * _) (lo a)), Z.div_add by lia.
    rewrite (Z.div_small (lo a)) by lia. f_equal; lia.
  - apply Hcore; lia.
Qed.

Lemma shl_int_correct a n : wf a -> 0 <= n < 128 ->
  wf (shl_int a n) /\ val (shl_int a n) = val a * 2 ^ n mod 2 ^ 128.
Proof. intros. unfold shl_int. rewrite of_int32_small by lia. by apply shl_correct. Qed.

Lemma shr_int_correct a n : wf a -> 0 <= n < 128 ->
  wf (shr_int a n) /\ val (shr_int a n) = val a / 2 ^ n.
Proof. intros. unfold shr_int. rewrite of_int32_small by lia. by apply shr_correct. Qed.

(** ** Lemmas: multiplication *)

Lemma u32_split x : 0 <= x < 2 ^ 64 ->
  x = u32 x + 2 ^ 32 * u32 (Z.shiftr x 32) /\ 0 <= u32 x < 2 ^ 32 /\
  0 <= u32 (Z.shiftr x 32) < 2 ^ 32.
Proof.
  intros. pose proof (wrap_bounds 32 x). pose proof (wrap_bounds 32 (Z.shiftr x 32)).
  rewrite Z.shiftr_div_pow2 in * by lia.
  assert (u32 (x / 2 ^ 32) = x / 2 ^ 32) as E.
  { apply wrap_small. split; [apply Z.div_pos; lia|]. apply Z.div_lt_upper_bound; lia. }
  rewrite E in *. unfold wrap in *. pose proof (Z.div_mod x (2 ^ 32)). lia.
Qed.

Lemma mul32_bound a b : 0 <= a < 2 ^ 32 -> 0 <= b < 2 ^ 32 -> 0 <= a * b < 2 ^ 64.
Proof. nia. Qed.

Lemma mul32_fits a b : 0 <= a < 2 ^ 32 -> 0 <= b < 2 ^ 32 -> u64 (a * b) = a * b.
Proof. intros. apply wrap_small. nia. Qed.

(** [r] holds the integer [e] modulo 2^128. *)
Definition repr (r : u128) (e : Z) : Prop := wf r /\ exists k, val r = e - k * 2 ^ 128.

Lemma repr_add r x e : repr r e -> 0 <= x < 2 ^ 64 -> repr (add r (of_uint64 x)) (e + x).
Proof.
  intros [Hr [k Hk]] Hx. split; [apply add_wf|].
  rewrite add_val, of_uint64_val by auto using of_uint64_wf.
  destruct (mod_unroll (val r + x) (2 ^ 128)) as (j & -> & _); [lia|].
  exists (k + j). lia.
Qed.

Lemma repr_shl r e : repr r e -> repr (shl_int r 32) (e * 2 ^ 32).
Proof.
  intros [Hr [k Hk]]. destruct (shl_int_correct r 32) as [Hw Hv]; [done|lia|].
  split; [done|]. rewrite Hv.
  destruct (mod_unroll (val r * 2 ^ 32) (2 ^ 128)) as (j & -> & _); [lia|].
  exists (k * 2 ^ 32 + j). lia.
Qed.

Lemma repr_uint64 x : 0 <= x < 2 ^ 64 -> repr (U128 0 x) x.
Proof. intros. split; [split; cbn; lia|]. exists 0. unfold val; cbn. lia. Qed.

Lemma repr_mod r e e' : repr r e -> (exists k, e = e' - k * 2 ^ 128) -> val r = e' mod 2 ^ 128.
Proof.
  intros [Hr [k Hk]] [j ->]. apply mod_intro; [by apply wf_bound|]. exists (j + k). lia.
Qed.

Lemma mul_correct a b : wf a -> wf b ->
  wf (mul a b) /\ val (mul a b) = val a * val b mod 2 ^ 128.
Proof.
  intros [Ha1 Ha2] [Hb1 Hb2].
  destruct (u32_split (lo a)) as (Ea & ? & ?); [done|].
  destruct (u32_split (hi a)) as (Fa & ? & ?); [done|].
  destruct (u32_split (lo b)) as (Eb & ? & ?); [done|].
  destruct (u32_split (hi b)) as (Fb & ? & ?); [done|].
  unfold val at 2 3. rewrite Ea, Fa, Eb, Fb. unfold mul.
  set (a0 := u32 (lo a)) in *. set (a1 := u32 (Z.shiftr (lo a) 32)) in *.
  set (a2 := u32 (hi a)) in *. set (a3 := u32 (Z.shiftr (hi a) 32)) in *.
  set (b0 := u32 (lo b)) in *. set (b1 := u32 (Z.shiftr (lo b) 32)) in *.
  set (b2 := u32 (hi b)) in *. set (b3 := u32 (Z.shiftr (hi b) 32)) in *.
  clearbody a0 a1 a2 a3 b0 b1 b2 b3. cbv zeta. rewrite !mul32_fits by done.
  match goal with |- wf ?r /\ _ => eassert (repr r _) as HR end.
  { repeat first [apply repr_add | apply repr_shl | apply repr_uint64].
    all: by apply mul32_bound. }
  split; [apply HR|]. eapply repr_mod; [exact HR|].
  exists ((a3 * b1 + a2 * b2 + a1 * b3) + (a3 * b2 + a2 * b3) * 2 ^ 32 + a3 * b3 * 2 ^ 64). ring.
Qed.

Lemma mul_uint64 x y : 0 <= x < 2 ^ 64 -> 0 <= y < 2 ^ 64 ->
  wf (mul (of_uint64 x) (of_uint64 y)) /\ val (mul (of_uint64 x) (of_uint64 y)) = x * y.
Proof.
  intros Hx Hy. pose proof (of_uint64_wf x) as Wx. pose proof (of_uint64_wf y) as Wy.
  destruct (mul_correct _ _ Wx Wy) as [Hw Hv]. split; [done|].
  rewrite Hv, !of_uint64_val by assumption. apply Z.mod_small. nia.
Qed.

Lemma repr_of_uint64 x : 0 <= x < 2 ^ 64 -> repr (of_uint64 x) x.
Proof.
  intros. split; [apply of_uint64_wf|]. exists 0. rewrite of_uint64_val by done. lia.
Qed.

Lemma repr_small r e : repr r e -> 0 <= e < 2 ^ 128 -> wf r /\ val r = e.
Proof.
  intros Hr He. split; [apply Hr|].
  rewrite (repr_mod r e e Hr) by (exists 0; lia). by apply Z.mod_small.
Qed.

Lemma sum3 x y z : 0 <= x < 2 ^ 64 -> 0 <= y < 2 ^ 64 -> 0 <= z < 2 ^ 64 ->
  let acc := add (add (of_uint64 x) (of_uint64 y)) (of_uint64 z) in
  wf acc /\ val acc = x + y + z.
Proof.
  intros. apply repr_small; [|lia].
  by repeat first [apply repr_add | apply repr_of_uint64].
Qed.

Lemma sum4 x y z w :
  0 <= x < 2 ^ 64 -> 0 <= y < 2 ^ 64 -> 0 <= z < 2 ^ 64 -> 0 <= w < 2 ^ 64 ->
  let acc := add (add (add (of_uint64 x) (of_uint64 y)) (of_uint64 z)) (of_uint64 w) in
  wf acc /\ val acc = x + y + z + w.
Proof.
  intros. apply repr_small; [|lia].
  by repeat first [apply repr_add | apply repr_of_uint64].
Qed.

(** The arithmetic of [full_product], with the four products and the two
    accumulators abstracted to their halves. *)
Lemma full_product_arith ah al bh bl ph pl qh ql rh rl sh sl a1h a1l a2h a2l :
  0 <= ah < 2 ^ 64 -> 0 <= al < 2 ^ 64 -> 0 <= bh < 2 ^ 64 -> 0 <= bl < 2 ^ 64 ->
  0 <= a1l < 2 ^ 64 -> 0 <= a2l < 2 ^ 64 -> 0 <= sl < 2 ^ 64 -> 0 <= ph -> 0 <= a2h ->
  sh * 2 ^ 64 + sl = al * bl -> rh * 2 ^ 64 + rl = ah * bl ->
  qh * 2 ^ 64 + ql = al * bh -> ph * 2 ^ 64 + pl = ah * bh ->
  a1h * 2 ^ 64 + a1l = sh + ql + rl -> a2h * 2 ^ 64 + a2l = a1h + qh + rh + pl ->
  0 <= a2h + ph < 2 ^ 64 /\
  ((a2h + ph) * 2 ^ 64 + a2l) * 2 ^ 128 + (a1l * 2 ^ 64 + sl)
    = (ah * 2 ^ 64 + al) * (bh * 2 ^ 64 + bl).
Proof.
  intros Hah Hal Hbh Hbl H1 H2 H3 H4 H5 Es Er Eq Ep E1 E2.
  assert ((ah * 2 ^ 64 + al) * (bh * 2 ^ 64 + bl) =
    ((a2h + ph) * 2 ^ 64 + a2l) * 2 ^ 128 + (a1l * 2 ^ 64 + sl)) as E.
  { transitivity (ah * bh * 2 ^ 128 + al * bh * 2 ^ 64 + ah * bl * 2 ^ 64 + al * bl); [ring|].
    rewrite <- Es, <- Er, <- Eq, <- Ep. lia. }
  split; [|by symmetry].
  assert ((ah * 2 ^ 64 + al) * (bh * 2 ^ 64 + bl) < 2 ^ 128 * 2 ^ 128) by nia. lia.
Qed.

(** Rewriting rules that keep the halves folded. *)
Lemma wf_mk x y : wf (U128 x y) <-> 0 <= x < 2 ^ 64 /\ 0 <= y < 2 ^ 64.
Proof. done. Qed.

Lemma val_def a : val a = hi a * 2 ^ 64 + lo a.
Proof. done. Qed.

Lemma val_mk x y : val (U128 x y) = x * 2 ^ 64 + y.
Proof. done. Qed.

Lemma full_product_sum_correct s r q p a b :
  wf a -> wf b -> wf s -> wf r -> wf q -> wf p ->
  val s = lo a * lo b -> val r = hi a * lo b -> val q = lo a * hi b -> val p = hi a * hi b ->
  wf (full_product_sum s r q p).1 /\ wf (full_product_sum s r q p).2 /\
  val (full_product_sum s r q p).1 * 2 ^ 128 + val (full_product_sum s r q p).2 = val a * val b.
Proof.
  intros [Ha1 Ha2] [Hb1 Hb2] [? Hsl] [? ?] [? ?] [Hph ?] Es Er Eq Ep.
  pose proof (sum3 (hi s) (lo q) (lo r)) as S3.
  unfold full_product_sum. cbv zeta in *. cbn [fst snd].
  set (acc1 := add (add (of_uint64 (hi s)) (of_uint64 (lo q))) (of_uint64 (lo r))) in *.
  clearbody acc1. pose proof (sum4 (hi acc1) (hi q) (hi r) (lo p)) as S4. cbv zeta in S4.
  set (acc2 := add (add (add (of_uint64 (hi acc1)) (of_uint64 (hi q))) (of_uint64 (hi r)))
    (of_uint64 (lo p))) in *.
  clearbody acc2. destruct S3 as [[? Hl1] V1]; [assumption..|].
  destruct S4 as [[Hh2 Hl2] V2]; [assumption..|]. rewrite val_def in Es, Er, Eq, Ep, V1, V2.
  destruct (full_product_arith _ _ _ _ _ _ _ _ _ _ _ _ _ _ _ _ Ha1 Ha2 Hb1 Hb2 Hl1 Hl2 Hsl
    (proj1 Hph) (proj1 Hh2) Es Er Eq Ep V1 V2) as [Hy Hv].
  rewrite !wf_mk, !val_mk, (val_def a), (val_def b), (wrap_small 64 (hi acc2 + hi p)) by assumption.
  split; [by split|]. split; [by split|]. exact Hv.
Qed.

Lemma full_product_eq a b :
  full_product a b = full_product_sum
    (mul (of_uint64 (lo a)) (of_uint64 (lo b))) (mul (of_uint64 (hi a)) (of_uint64 (lo b)))
    (mul (of_uint64 (lo a)) (of_uint64 (hi b))) (mul (of_uint64 (hi a)) (of_uint64 (hi b))).
Proof. reflexivity. Qed.

Lemma full_product_correct a b : wf a -> wf b ->
  wf (full_product a b).1 /\ wf (full_product a b).2 /\
  val (full_product a b).1 * 2 ^ 128 + val (full_product a b).2 = val a * val b.
Proof.
  intros Ha Hb. destruct (Ha) as [Ha1 Ha2], (Hb) as [Hb1 Hb2]. rewrite full_product_eq.
  destruct (mul_uint64 _ _ Ha2 Hb2) as [Ws Es]. destruct (mul_uint64 _ _ Ha1 Hb2) as [Wr Er].
  destruct (mul_uint64 _ _ Ha2 Hb1) as [Wq Eq]. destruct (mul_uint64 _ _ Ha1 Hb1) as [Wp Ep].
  exact (full_product_sum_correct _ _ _ _ a b Ha Hb Ws Wr Wq Wp Es Er Eq Ep).
Qed.

End Uint128.
