(* ===== verification/Uint128Facts.v ===== *)
(** * 128-bit unsigned integers: division, bit count, decimal strings

    The second half of [Uint128]: the shift-and-subtract [divide] computes the
    quotient and the remainder, [popcount] counts the bits set, and the decimal
    conversion round-trips.  The properties of the component close the file. *)

From S2P Require Import Prelude.
From S2P Require Import Uint128.

Module Uint128Facts.
Import Uint128.

(** ** Lemmas: division *)

Lemma of_int32_wf n : 0 <= n < 2 ^ 31 -> wf (of_int32 n).
Proof. intros. rewrite of_int32_small, wf_mk by done. lia. Qed.

Lemma of_int32_val n : 0 <= n < 2 ^ 31 -> val (of_int32 n) = n.
Proof. intros. rewrite of_int32_small, val_mk by done. lia. Qed.

(** [((d >> 127) & 1) == 0] tests the top bit. *)
Lemma top_bit_clear d : wf d ->
  eqb (and (shr_int d 127) (of_int32 1)) (of_int32 0) = (val d <? 2 ^ 127).
Proof.
  intros Hd. destruct (shr_int_correct d 127 Hd) as [[Hh Hl] Hv]; [lia|].
  pose proof (wf_bound d Hd) as Hb. rewrite val_def in Hv.
  unfold and, and_assign. rewrite !of_int32_small by lia. unfold eqb; cbn [hi lo].
  rewrite Z.land_0_r. change 1 with (Z.ones 1) at 1. rewrite Z.land_ones by lia.
  assert (0 <= val d / 2 ^ 127 < 2) as Hq.
  { split; [apply Z.div_pos; lia|]. apply Z.div_lt_upper_bound; lia. }
  assert (lo (shr_int d 127) = val d / 2 ^ 127) as -> by lia.
  rewrite Z.mod_small by lia. cbn [andb].
  destruct (Z.ltb_spec (val d) (2 ^ 127)).
  - by rewrite Z.div_small by lia.
  - pose proof (Z.div_le_lower_bound (val d) (2 ^ 127) 1). lia.
Qed.

Lemma shl_one d : wf d -> val d < 2 ^ 127 -> wf (shl_int d 1) /\ val (shl_int d 1) = 2 * val d.
Proof.
  intros Hd Hlt. destruct (shl_int_correct d 1 Hd) as [Hw Hv]; [lia|]. split; [done|].
  pose proof (wf_bound d Hd). rewrite Hv, Z.mod_small; lia.
Qed.

(** The scaling loop doubles [d] and [x] together until [d] passes [n] or
    reaches the top bit; 129 iterations are enough. *)
Lemma divide_scale_correct fuel n d x k :
  wf n -> wf d -> wf x -> 0 < val d -> 0 <= k -> val x = 2 ^ k -> 2 ^ k <= val d ->
  128 - k < Z.of_nat fuel ->
  exists d' x' j, divide_scale fuel n d x = Some (d', x') /\ wf d' /\ wf x' /\ k <= j < 128 /\
    val x' = 2 ^ j /\ val d' = val d * 2 ^ (j - k) /\ val n < 2 * val d'.
Proof.
  revert d x k. induction fuel as [|fuel IH]; intros d x k Hn Hd Hx Hd0 Hk Ex Hle Hf.
  - pose proof (wf_bound d Hd). assert (k < 128); [|lia].
    apply (Z.pow_lt_mono_r_iff 2); lia.
  - pose proof (wf_bound d Hd). pose proof (wf_bound n Hn).
    assert (k < 128) by (apply (Z.pow_lt_mono_r_iff 2); lia).
    cbn [divide_scale]. rewrite top_bit_clear, geb_spec by done.
    destruct (Z.leb_spec (val d) (val n)), (Z.ltb_spec (val d) (2 ^ 127)); cbn [andb];
      try (exists d, x, k; rewrite Z.sub_diag, Z.pow_0_r, Z.mul_1_r; split_and!; (done || lia)).
    destruct (shl_one d) as [Wd Vd]; [done..|].
    destruct (shl_one x) as [Wx Vx]; [done|lia|].
    destruct (IH (shl_int d 1) (shl_int x 1) (k + 1)) as (d' & x' & j & E & W1 & W2 & Hj & V1 & V2 & V3);
      [done..|lia|lia| | |lia|].
    + rewrite Vx, Ex, Z.pow_add_r; lia.
    + rewrite Vd, Z.pow_add_r; lia.
    + exists d', x', j. split_and!; try done; try lia.
      rewrite V2, Vd. replace (j - k) with (1 + (j - (k + 1))) by lia.
      rewrite (Z.pow_add_r 2 1) by lia. lia.
Qed.

Lemma mult_gap a q m : 0 <= m < 64 -> a = q * 2 ^ (m + 1) -> a < 2 ^ 64 -> a + 2 ^ m < 2 ^ 64.
Proof.
  intros Hm -> Hlt. rewrite (pow_split (m + 1) 64) in * by lia.
  assert (0 < 2 ^ (m + 1)) by lia.
  apply Z.mul_lt_mono_pos_r in Hlt; [|done].
  assert ((q + 1) * 2 ^ (m + 1) <= 2 ^ (64 - (m + 1)) * 2 ^ (m + 1)).
  { apply Z.mul_le_mono_nonneg_r; lia. }
  assert (2 ^ m < 2 ^ (m + 1)) by (apply Z.pow_lt_mono_r; lia). lia.
Qed.

Lemma or_assign_add a x k q : wf a -> wf x -> 0 <= k < 128 -> val x = 2 ^ k ->
  val a = q * 2 ^ (k + 1) -> wf (or_assign a x) /\ val (or_assign a x) = val a + val x.
Proof.
  intros [Ha1 Ha2] [Hx1 Hx2] Hk Ex Ea. rewrite val_def in Ex, Ea.
  unfold or_assign. rewrite wf_mk, val_mk, (val_def a), (val_def x).
  assert (forall u v, 0 <= u < 2 ^ 64 -> 0 <= v < 2 ^ 64 -> Z.land u v = 0 -> Z.lor u v = u + v) as Hlor.
  { intros u v _ _ E. pose proof (Z.add_lor_land u v). lia. }
  destruct (decide (64 <= k)).
  - assert (lo x = 0 /\ hi x = 2 ^ (k - 64)) as [-> Ehx].
    { rewrite (pow_split 64 k) in Ex by lia. assert (0 < 2 ^ (k - 64)) by lia. split; lia. }
    assert (lo a = 0 /\ hi a = q * 2 ^ (k - 64 + 1)) as [-> Eha].
    { rewrite (pow_split 64 (k + 1)) in Ea by lia. replace (k + 1 - 64) with (k - 64 + 1) in Ea by lia.
      split; [|lia]. assert (0 < 2 ^ (k - 64 + 1)) by lia. nia. }
    assert (Z.lor (hi a) (hi x) = hi a + hi x) as ->.
    { rewrite Eha, Ehx. apply lor_disjoint; [lia|]. rewrite Z.pow_add_r by lia. lia. }
    assert (hi a + hi x < 2 ^ 64); [|change (Z.lor 0 0) with 0; lia].
    rewrite Ehx. apply (mult_gap _ q); lia.
  - assert (hi x = 0 /\ lo x = 2 ^ k) as [-> Elx].
    { assert (2 ^ k < 2 ^ 64) by (apply Z.pow_lt_mono_r; lia). lia. }
    assert (exists r, lo a = r * 2 ^ (k + 1)) as [r Ela].
    { exists (q - hi a * 2 ^ (64 - (k + 1))). 
      rewrite Z.mul_sub_distr_r, <- Z.mul_assoc, <- pow_split by lia. lia. }
    assert (Z.lor (lo a) (lo x) = lo a + lo x) as ->.
    { rewrite Ela, Elx. apply lor_disjoint; [lia|]. rewrite Z.pow_add_r by lia. lia. }
    rewrite Z.lor_0_r. assert (lo a + lo x < 2 ^ 64); [|lia].
    rewrite Elx. apply (mult_gap _ r); lia.
Qed.

(** The subtracting loop, from the scaled divisor [d0 * 2^k] down. *)
Lemma divide_subtract_correct fuel n d x answer k d0 q :
  wf n -> wf d -> wf x -> wf answer -> 0 <= k < 128 -> 0 < d0 ->
  val x = 2 ^ k -> val d = d0 * 2 ^ k -> val n < 2 * val d -> val answer = q * 2 ^ (k + 1) ->
  k + 1 < Z.of_nat fuel ->
  exists a' n', divide_subtract fuel n d x answer = Some (a', n') /\ wf a' /\ wf n' /\
    val answer * d0 + val n = val a' * d0 + val n' /\ val n' < d0.
Proof.
  revert n d x answer k q. induction fuel as [|fuel IH]; [lia|].
  intros n d x answer k q Hn Hd Hx Ha Hk Hd0 Ex Ed Hlt Ea Hf.
  pose proof (wf_bound n Hn). pose proof (wf_bound d Hd).
  assert (0 < 2 ^ k) by lia.
  destruct (shr_int_correct d 1 Hd) as [Wd Vd]; [lia|].
  destruct (shr_int_correct x 1 Hx) as [Wx Vx]; [lia|].
  cbn [divide_subtract].
  rewrite (eqb_spec x), of_int32_val, geb_spec by (done || apply of_int32_wf; lia || lia).
  assert (val x =? 0 = false) as -> by lia. cbn [negb].
  (* one step, whatever the branch *)
  assert (exists n1 a1 q1, (if val d <=? val n then (sub n d, or_assign answer x) else (n, answer))
      = (n1, a1) /\ wf n1 /\ wf a1 /\ val a1 = q1 * 2 ^ k /\
      val answer * d0 + val n = val a1 * d0 + val n1 /\ val n1 < val d)
    as (n1 & a1 & q1 & -> & W1 & W2 & E1 & E2 & E3).
  { destruct (Z.leb_spec (val d) (val n)).
    - destruct (or_assign_add answer x k q) as [Wa Va]; [done..|].
      exists (sub n d), (or_assign answer x), (2 * q + 1). rewrite sub_val, Z.mod_small by (done || lia).
      split_and!; [done|apply sub_wf|done| |lia|lia]. rewrite Va, Ea, Ex, Z.pow_add_r by lia. lia.
    - exists n, answer, (2 * q). split_and!; [done..| |lia|lia]. rewrite Ea, Z.pow_add_r by lia. lia. }
  destruct (decide (k = 0)) as [->|].
  - destruct fuel as [|fuel]; [lia|]. cbn [divide_subtract].
    rewrite (eqb_spec (shr_int x 1)), of_int32_val, Vx, Ex by (done || apply of_int32_wf; lia || lia).
    cbn. exists a1, n1. split_and!; try done; lia.
  - assert (2 ^ k = 2 * 2 ^ (k - 1)) as Ek by (rewrite <- Z.pow_succ_r by lia; f_equal; lia).
    destruct (IH n1 (shr_int d 1) (shr_int x 1) a1 (k - 1) q1) as (a' & n' & E & W3 & W4 & E4 & E5);
      try done; try lia.
    + rewrite Vx, Ex, Ek, Z.mul_comm, Z.div_mul by lia. done.
    + rewrite Vd, Ed, Ek, Z.mul_assoc, (Z.mul_comm d0), <- Z.mul_assoc, Z.mul_comm, Z.div_mul by lia. done.
    + rewrite Vd, Ed, Ek. replace (d0 * (2 * 2 ^ (k - 1))) with (d0 * 2 ^ (k - 1) * 2) in * by lia.
      rewrite Z.div_mul by lia. rewrite Ed, Ek in E3. lia.
    + by replace (k - 1 + 1) with k by lia.
    + exists a', n'. split_and!; try done; lia.
Qed.

Lemma divide_correct n d : wf n -> wf d -> val d <> 0 ->
  exists q r, divide n d = Ok (Some (q, r)) /\ wf q /\ wf r /\
    val q = val n / val d /\ val r = val n mod val d.
Proof.
  intros Hn Hd Hd0. pose proof (wf_bound d Hd). pose proof (wf_bound n Hn).
  unfold divide. rewrite eqb_spec, of_int32_val by (done || apply of_int32_wf; lia || lia).
  assert (val d =? 0 = false) as -> by lia.
  pose proof (of_int32_wf 0) as Z1. pose proof (of_int32_wf 1) as Z2.
  pose proof (of_int32_val 0) as Z3. pose proof (of_int32_val 1) as Z4.
  destruct (divide_scale_correct 129 n d (of_int32 1) 0)
    as (d' & x' & j & -> & W1 & W2 & Hj & V1 & V2 & V3); try assumption; try lia.
  { apply Z2; lia. }
  cbn [mbind option_bind]. rewrite Z.sub_0_r in V2.
  destruct (divide_subtract_correct 130 n d' x' (of_int32 0) j (val d) 0)
    as (q & r & -> & W3 & W4 & E1 & E2); try assumption; try lia.
  { apply Z1; lia. }
  rewrite of_int32_val in E1 by lia. pose proof (wf_bound r W4).
  exists q, r. split_and!; try done.
  - apply (Z.div_unique _ _ _ (val r)); lia.
  - apply (Z.mod_unique _ _ (val q)); lia.
Qed.

Lemma m128_of_val x : wf x -> m128_of x = val x.
Proof.
  intros Hx. pose proof (wf_bound x Hx). destruct Hx as [? ?]. unfold m128_of.
  rewrite Z.shiftl_mul_pow2 by lia. rewrite val_def in *.
  rewrite (Z.mod_small (hi x * 2 ^ 64)), Z.mod_small; lia.
Qed.

Section Boost.
Context {B : BoostMP} {BOk : BoostMPOk}.

Lemma div_zero a b : wf a -> wf b -> val b = 0 -> div a b = Throw std_overflow_error.
Proof.
  intros Ha Hb E. unfold div. rewrite !m128_of_val, E by done.
  by rewrite m128_div_zero.
Qed.

Lemma div_correct a b : wf a -> wf b -> val b <> 0 ->
  exists q, div a b = Ok q /\ wf q /\ val q = val a / val b.
Proof.
  intros Ha Hb Hb0. pose proof (wf_bound a Ha). pose proof (wf_bound b Hb).
  unfold div. rewrite !m128_of_val, m128_div_pos by (done || lia). cbn [mbind result_bind].
  assert (0 <= val a / val b < 2 ^ 128) as Hq.
  { split; [apply Z.div_pos; lia|]. apply Z.div_lt_upper_bound; nia. }
  generalize dependent (val a / val b). intros q Hq.
  assert (wrap 64 (Z.shiftr q 64) = q / 2 ^ 64) as ->.
  { rewrite Z.shiftr_div_pow2 by lia. apply wrap_small. split; [apply Z.div_pos; lia|].
    apply Z.div_lt_upper_bound; lia. }
  assert (wrap 64 (Z.shiftr (Z.shiftl q 64 mod 2 ^ 128) 64) = q mod 2 ^ 64) as ->.
  { rewrite Z.shiftl_mul_pow2, Z.shiftr_div_pow2 by lia.
    change (2 ^ 128) with (2 ^ 64 * 2 ^ 64). rewrite Z.mul_mod_distr_r, Z.div_mul by lia.
    unfold wrap. by rewrite Zmod_mod. }
  eexists; split; [done|]. rewrite wf_mk, val_mk.
  pose proof (Z.mod_pos_bound q (2 ^ 64)). pose proof (Z.div_mod q (2 ^ 64)). lia.
Qed.
End Boost.

(** ** Lemmas: bit count *)

(** The sum of the [n] lowest fields of width [w]. *)
Fixpoint fields (w : Z) (n : nat) (x : Z) : Z :=
  match n with O => 0 | S n => x mod 2 ^ w + fields w n (x / 2 ^ w) end.

(** Every other field of width [w], [n] of them. *)
Fixpoint mask (w : Z) (n : nat) : Z :=
  match n with O => 0 | S n => Z.ones w + mask w n * 2 ^ (2 * w) end.

Lemma mask_land w n x : 0 < w ->
  Z.land x (mask w (S n)) = x mod 2 ^ w + Z.land (x / 2 ^ (2 * w)) (mask w n) * 2 ^ (2 * w).
Proof.
  intros Hw. cbn [mask]. pose proof (Z.mod_pos_bound x (2 ^ w)).
  assert (2 ^ w < 2 ^ (2 * w)) by (apply Z.pow_lt_mono_r; lia).
  rewrite Z.add_comm, <- lor_disjoint by (rewrite ?Z.ones_equiv; lia).
  rewrite Z.land_lor_distr_r, Z.land_ones, Z.lor_comm by lia.
  rewrite (Z.add_comm (x mod _)), <- (Z.lor_comm _ (x mod 2 ^ w)).
  rewrite <- lor_disjoint by lia. f_equal.
  rewrite <- !Z.shiftl_mul_pow2, <- Z.shiftr_div_pow2 by lia.
  apply Z.bits_inj'; intros i Hi. rewrite Z.land_spec.
  destruct (decide (i < 2 * w)).
  - rewrite !Z.shiftl_spec_low by lia. apply andb_false_r.
  - rewrite !Z.shiftl_spec, Z.land_spec, Z.shiftr_spec by lia. do 2 f_equal. lia.
Qed.

Lemma div_pow_pow x i j : 0 <= i -> 0 <= j -> x / 2 ^ i / 2 ^ j = x / 2 ^ (i + j).
Proof. intros. by rewrite Z.div_div, <- Z.pow_add_r by lia. Qed.

(** One round of [_popcount_64] adds adjacent fields pairwise. *)
Lemma popcount_round w n x : 0 < w -> 0 <= x ->
  let y := Z.land x (mask w n) + Z.land (x / 2 ^ w) (mask w n) in
  fields (2 * w) n y = fields w (2 * n) x /\ 0 <= y < 2 ^ (2 * w * Z.of_nat n).
Proof.
  intros Hw. revert x. induction n as [|n IH]; intros x Hx.
  - cbn [mask]. rewrite !Z.land_0_r. cbn. lia.
  - cbv zeta. rewrite !mask_land by done.
    replace (2 * S n)%nat with (S (S (2 * n))) by lia. cbn [fields].
    destruct (IH (x / 2 ^ w / 2 ^ w)) as [E Hb]; [apply Z.div_pos; [apply Z.div_pos|]; lia|].
    replace (x / 2 ^ (2 * w)) with (x / 2 ^ w / 2 ^ w) by (rewrite div_pow_pow; do 2 f_equal; lia).
    replace (x / 2 ^ w / 2 ^ (2 * w)) with (x / 2 ^ w / 2 ^ w / 2 ^ w)
      by (rewrite !div_pow_pow; do 2 f_equal; lia).
    cbv zeta in *.
    set (m1 := Z.land (x / 2 ^ w / 2 ^ w) (mask w n)) in *.
    set (m2 := Z.land (x / 2 ^ w / 2 ^ w / 2 ^ w) (mask w n)) in *.
    set (f0 := x mod 2 ^ w). set (f1 := x / 2 ^ w mod 2 ^ w).
    assert (0 <= f0 < 2 ^ w) by (apply Z.mod_pos_bound; lia).
    assert (0 <= f1 < 2 ^ w) by (apply Z.mod_pos_bound; lia).
    replace (f0 + m1 * 2 ^ (2 * w) + (f1 + m2 * 2 ^ (2 * w)))
      with (f0 + f1 + (m1 + m2) * 2 ^ (2 * w)) by lia.
    assert (2 * 2 ^ w <= 2 ^ (2 * w)).
    { rewrite <- Z.pow_succ_r by lia. apply Z.pow_le_mono_r; lia. }
    rewrite Z.mod_add, Z.div_add, (Z.mod_small (f0 + f1)), (Z.div_small (f0 + f1)) by lia.
    rewrite Z.add_0_l. split; [lia|].
    replace (2 * w * Z.of_nat (S n)) with (2 * w * Z.of_nat n + 2 * w) by lia.
    rewrite Z.pow_add_r by lia. nia.
Qed.

Lemma popcount_step_round w n x : 0 < w -> 0 <= x -> 2 * w * Z.of_nat n = 64 ->
  fields (2 * w) n (popcount_step x (w, mask w n)) = fields w (2 * n) x /\
  0 <= popcount_step x (w, mask w n) < 2 ^ 64.
Proof.
  intros Hw Hx Hn. destruct (popcount_round w n x Hw Hx) as [E Hb]. cbv zeta in *.
  rewrite Hn in Hb. unfold popcount_step; cbn [fst snd].
  rewrite Z.shiftr_div_pow2, wrap_small by lia. done.
Qed.

Lemma fields_bits n x : fields 1 n x = bit_count n x.
Proof. revert x. induction n as [|n IH]; intros x; cbn; [done|]. by rewrite IH. Qed.

Lemma bit_count_bounds n x : 0 <= bit_count n x <= Z.of_nat n.
Proof.
  revert x. induction n as [|n IH]; intros x; cbn [bit_count]; [lia|].
  specialize (IH (x / 2)). pose proof (Z.mod_pos_bound x 2). lia.
Qed.

Lemma popcount_masks_eq :
  popcount_masks = [(1, mask 1 32); (2, mask 2 16); (4, mask 4 8);
                    (8, mask 8 4); (16, mask 16 2); (32, mask 32 1)].
Proof. vm_compute. reflexivity. Qed.

Lemma popcount_64_correct x : 0 <= x < 2 ^ 64 -> popcount_64 x = bit_count 64 x.
Proof.
  intros Hx. unfold popcount_64. rewrite popcount_masks_eq. cbn [foldl].
  destruct (popcount_step_round 1 32 x) as [E1 B1]; [lia..|].
  destruct (popcount_step_round 2 16 _ ltac:(lia) (proj1 B1)) as [E2 B2]; [lia|].
  destruct (popcount_step_round 4 8 _ ltac:(lia) (proj1 B2)) as [E3 B3]; [lia|].
  destruct (popcount_step_round 8 4 _ ltac:(lia) (proj1 B3)) as [E4 B4]; [lia|].
  destruct (popcount_step_round 16 2 _ ltac:(lia) (proj1 B4)) as [E5 B5]; [lia|].
  destruct (popcount_step_round 32 1 _ ltac:(lia) (proj1 B5)) as [E6 B6]; [lia|].
  pose proof (eq_trans E6 (eq_trans E5 (eq_trans E4 (eq_trans E3 (eq_trans E2 E1))))) as E.
  revert B6 E. generalize (popcount_step
    (popcount_step (popcount_step (popcount_step (popcount_step (popcount_step x
      (1, mask 1 32)) (2, mask 2 16)) (4, mask 4 8)) (8, mask 8 4)) (16, mask 16 2)) (32, mask 32 1)).
  intros y By E. cbn [fields] in E. rewrite Z.mod_small, Z.add_0_r in E by done.
  assert (y = bit_count 64 x) as -> by (rewrite E; apply (fields_bits 64)).
  pose proof (bit_count_bounds 64 x) as Hb. change (Z.of_nat 64) with 64 in Hb.
  apply wrap_small. lia.
Qed.

Lemma bit_count_app n m h l : 0 <= l < 2 ^ Z.of_nat n ->
  bit_count (n + m) (h * 2 ^ Z.of_nat n + l) = bit_count n l + bit_count m h.
Proof.
  revert l. induction n as [|n IH]; intros l Hl.
  - change (2 ^ Z.of_nat 0) with 1 in *. cbn [bit_count Nat.add].
    replace (h * 1 + l) with h by lia. lia.
  - cbn [bit_count Nat.add]. rewrite Nat2Z.inj_succ, Z.pow_succ_r in * by lia.
    replace (h * (2 * 2 ^ Z.of_nat n) + l) with (l + (h * 2 ^ Z.of_nat n) * 2) by lia.
    rewrite Z.mod_add, Z.div_add by lia. rewrite (Z.add_comm (l / 2)), IH; [lia|].
    split; [apply Z.div_pos; lia|]. apply Z.div_lt_upper_bound; lia.
Qed.

Lemma popcount_correct a : wf a -> popcount a = bit_count 128 (val a).
Proof.
  intros [Hh Hl]. unfold popcount. rewrite !popcount_64_correct by done.
  pose proof (bit_count_bounds 64 (lo a)) as B1. pose proof (bit_count_bounds 64 (hi a)) as B2.
  change (Z.of_nat 64) with 64 in *.
  rewrite wrap_small by lia. rewrite val_def. symmetry. exact (bit_count_app 64 64 (hi a) (lo a) Hl).
Qed.

(** ** Lemmas: decimal conversion *)

(** The number a string of decimal digits denotes, after the digits [a]. *)
Fixpoint dec (s : string) (a : Z) : Z :=
  match s with EmptyString => a | String c s => dec s (a * 10 + (code c - 48)) end.

Definition is_digit (c : ascii) : Prop := 48 <= code c <= 57.

Fixpoint all_digits (s : string) : Prop :=
  match s with EmptyString => True | String c s => is_digit c /\ all_digits s end.

Lemma digit_value_10 c : is_digit c -> digit_value 10 c = Some (code c - 48).
Proof.
  unfold is_digit, digit_value. intros Hc.
  assert ((65 <=? code c) && (code c <=? 90) = false) as -> by lia.
  assert ((97 <=? code c) && (code c <=? 122) = false) as -> by lia.
  assert ((48 <=? code c) && (code c <=? 57) = true) as -> by lia.
  by assert (code c - 48 <? 10 = true) as -> by lia.
Qed.

Lemma digit_char d : 0 <= d < 10 ->
  exists c, String.get (Z.to_nat d) digit_chars = Some c /\ code c = d + 48.
Proof.
  intros Hd.
  assert (d = 0 \/ d = 1 \/ d = 2 \/ d = 3 \/ d = 4 \/ d = 5 \/ d = 6 \/ d = 7 \/ d = 8 \/ d = 9)
    as Hcases by lia.
  destruct_or! Hcases; subst d; eexists; split; reflexivity.
Qed.

Lemma dec_mono s a : all_digits s -> 0 <= a -> a <= dec s a.
Proof.
  revert a. induction s as [|c s IH]; intros a; cbn [all_digits dec]; [lia|].
  unfold is_digit. intros [Hc Hs] Ha. specialize (IH (a * 10 + (code c - 48)) Hs). lia.
Qed.

Lemma mul_radix a n : wf a -> 0 <= n < 2 ^ 31 -> val a * n < 2 ^ 128 ->
  wf (mul a (of_int32 n)) /\ val (mul a (of_int32 n)) = val a * n.
Proof.
  intros Ha Hn Hlt. pose proof (of_int32_wf n Hn) as Hw.
  destruct (mul_correct a (of_int32 n) Ha Hw) as [W V]. split; [done|].
  pose proof (wf_bound a Ha). rewrite V, of_int32_val by done. apply Z.mod_small. nia.
Qed.

Lemma parse_digits_dec s acc : all_digits s -> wf acc -> dec s (val acc) < 2 ^ 128 ->
  wf (parse_digits 10 acc s) /\ val (parse_digits 10 acc s) = dec s (val acc).
Proof.
  revert acc. induction s as [|c s IH]; intros acc; cbn [all_digits dec parse_digits]; [done|].
  intros [Hc Hs] Ha Hlt. pose proof (wf_bound acc Ha). rewrite digit_value_10 by done.
  unfold is_digit in Hc.
  pose proof (dec_mono s (val acc * 10 + (code c - 48)) Hs).
  destruct (mul_radix acc 10 Ha) as [W V]; [lia..|].
  assert (of_uint32 (code c - 48) = U128 0 (code c - 48)) as ->
    by (unfold of_uint32; rewrite wrap_small by lia; done).
  assert (val (add (mul acc (of_int32 10)) (U128 0 (code c - 48))) = val acc * 10 + (code c - 48)) as E.
  { rewrite add_val, V, val_mk, Z.mod_small by (rewrite ?wf_mk; lia || done). lia. }
  destruct (IH (add (mul acc (of_int32 10)) (U128 0 (code c - 48)))) as [W' V'];
    [done|apply add_wf|by rewrite E|]. split; [done|]. by rewrite V', E.
Qed.

Definition starts_with_digit (s : string) : Prop :=
  exists c s', s = String c s' /\ 49 <= code c <= 57.

Lemma to_string_loop_correct i ii acc :
  wf ii -> val ii < 10 ^ Z.of_nat i -> all_digits acc ->
  exists s, to_string_loop i ii acc = Ok (Some s) /\ all_digits s /\ dec s 0 = dec acc (val ii) /\
    (val ii <> 0 -> starts_with_digit s) /\ (val ii = 0 -> s = acc).
Proof.
  revert ii acc. induction i as [|i IH]; intros ii acc Hw Hlt Hacc;
    pose proof (wf_bound ii Hw) as Hb; pose proof (of_int32_val 0) as V0;
    cbn [to_string_loop]; rewrite eqb_spec, V0 by (done || apply of_int32_wf; lia || lia).
  - change (10 ^ Z.of_nat 0) with 1 in Hlt. assert (val ii = 0) as -> by lia.
    exists acc. split_and!; done.
  - destruct (Z.eqb_spec (val ii) 0) as [E|NE]; cbn [negb].
    { rewrite E. exists acc. split_and!; done. }
    destruct (divide_correct ii (of_int32 10)) as (q & r & -> & Wq & Wr & Vq & Vr);
      [done|apply of_int32_wf; lia|rewrite of_int32_val; lia|].
    rewrite of_int32_val in Vq, Vr by lia. cbn [mbind result_bind].
    pose proof (Z.mod_pos_bound (val ii) 10). pose proof (Z.div_mod (val ii) 10) as Edm.
    assert (to_integer r = Ok (val r)) as ->.
    { destruct Wr as [? ?]. rewrite val_def in Vr |- *. unfold to_integer.
      assert (hi r = 0) as -> by lia. rewrite wrap_small by lia. rewrite Z.eqb_refl. done. }
    cbn [mbind result_bind]. destruct (digit_char (val r)) as (c & -> & Hc); [lia|].
    destruct (IH q (String c acc)) as (s & -> & Hs & Hdec & Hst & Hz); [done| |split; [|done]|].
    { rewrite Nat2Z.inj_succ, Z.pow_succ_r in Hlt by lia. rewrite Vq.
      apply Z.div_lt_upper_bound; lia. }
    { unfold is_digit. lia. }
    exists s. split_and!; try done.
    + rewrite Hdec. cbn [dec]. f_equal. lia.
    + intros _. destruct (decide (val q = 0)) as [Eq|]; [|by apply Hst].
      rewrite (Hz Eq). exists c, acc. split; [done|]. lia.
Qed.

Lemma parse_unsigned_dec s : all_digits s -> starts_with_digit s -> dec s 0 < 2 ^ 128 ->
  of_string s = parse_digits 10 zero s.
Proof.
  intros _ (c & s' & -> & Hc) _. unfold of_string, parse_unsigned, code in *.
  destruct c as [[] [] [] [] [] [] [] []]; try reflexivity;
    exfalso; destruct Hc as [Hc1 Hc2]; vm_compute in Hc1, Hc2; congruence.
Qed.

(** ** Properties *)

(** C14 The limb-by-limb [uint128] refines the integers modulo
    2^128: addition, negation, subtraction, multiplication and the two shifts
    return a pair of 64-bit halves denoting the result modulo 2^128, the
    comparison is the integers', the 256-bit [full_product] is exact, and the
    shift-and-subtract [divide] terminates with the quotient and the remainder
    for every non-zero divisor. *)
Theorem uint128_refines a b n :
  wf a -> wf b -> 0 <= n < 128 ->
  (wf (add a b) /\ val (add a b) = (val a + val b) mod 2 ^ 128) /\
  (wf (neg a) /\ val (neg a) = (- val a) mod 2 ^ 128) /\
  (wf (sub a b) /\ val (sub a b) = (val a - val b) mod 2 ^ 128) /\
  (wf (mul a b) /\ val (mul a b) = val a * val b mod 2 ^ 128) /\
  (wf (shl_int a n) /\ val (shl_int a n) = val a * 2 ^ n mod 2 ^ 128) /\
  (wf (shr_int a n) /\ val (shr_int a n) = val a / 2 ^ n) /\
  ltb a b = (val a <? val b) /\ geb a b = (val b <=? val a) /\
  val (full_product a b).1 * 2 ^ 128 + val (full_product a b).2 = val a * val b /\
  (val b <> 0 -> exists q r, divide a b = Ok (Some (q, r)) /\ wf q /\ wf r /\
    val q = val a / val b /\ val r = val a mod val b).
Proof.
  intros Ha Hb Hn. split_and!; auto using add_wf, add_val, neg_wf, neg_val, sub_wf, sub_val,
    ltb_spec, geb_spec, divide_correct.
  all: first [by apply mul_correct | by apply shl_int_correct | by apply shr_int_correct
             | by apply full_product_correct].
Qed.

Lemma uint128_refines_witness :
  let a := U128 1 5 in let b := U128 0 7 in
  wf a /\ wf b /\ 0 <= 3 < 128 /\ val (mul a b) = (2 ^ 64 + 5) * 7.
Proof.
  cbv zeta. split; [rewrite wf_mk; lia|]. split; [rewrite wf_mk; lia|]. split; [lia|].
  destruct (uint128_refines (U128 1 5) (U128 0 7) 3) as (_ & _ & _ & (_ & E) & _);
    [rewrite wf_mk; lia|rewrite wf_mk; lia|lia|]. rewrite E. vm_compute. reflexivity.
Defined.

(** Printing a [uint128] in decimal always returns (the
    127 free characters of the buffer suffice), and parsing the printed text
    gives the number back. *)
Lemma uint128_decimal_roundtrip a :
  wf a -> exists s, to_string a = Ok (Some s) /\ of_string s = a.
Proof.
  intros Ha. pose proof (wf_bound a Ha) as Hb. unfold to_string.
  rewrite eqb_spec, of_int32_val by (done || apply of_int32_wf; lia || lia).
  destruct (Z.eqb_spec (val a) 0) as [E|NE].
  { exists "0"%string. split; [done|]. apply val_inj; [split; cbn; lia|done|by rewrite E]. }
  destruct (to_string_loop_correct 127 a "") as (s & E & Hs & Hd & Hst & _); [done| |done|].
  { change (Z.of_nat 127) with 127. lia. }
  exists s. split; [done|]. cbn [dec] in Hd.
  rewrite parse_unsigned_dec by (auto || lia).
  destruct (parse_digits_dec s zero) as [W V]; [done|split; cbn; lia|change (val zero) with 0; lia|].
  apply val_inj; [done..|]. rewrite V. exact Hd.
Qed.

Lemma uint128_decimal_roundtrip_witness :
  let a := U128 3 9 in wf a /\ exists s, to_string a = Ok (Some s) /\ of_string s = a.
Proof.
  cbv zeta. split; [rewrite wf_mk; lia|].
  apply uint128_decimal_roundtrip. rewrite wf_mk. lia.
Defined.

(** [popcount], six rounds of masks and shifts on each half,
    is the number of bits set among the 128. *)
Lemma popcount_counts a : wf a -> popcount a = bit_count 128 (val a).
Proof. apply popcount_correct. Qed.

Lemma popcount_counts_witness : wf max_value /\ popcount max_value = 128.
Proof.
  assert (wf max_value) as Hw by (split; cbn; lia).
  split; [done|]. rewrite (popcount_counts max_value Hw). vm_compute. reflexivity.
Defined.

(** The friend [operator |] drops its left operand. *)
Lemma or_drops_left l r : or l r = r.
Proof. reflexivity. Qed.

Lemma or_is_not_bitwise_or : or (U128 0 1) (U128 0 2) <> or_assign (U128 0 1) (U128 0 2).
Proof. vm_compute. discriminate. Qed.

End Uint128Facts.
