(* ===== verification/Asset.v ===== *)
(** * Assets, prices and the reward formula

    Models libraries/chain/protocol/asset.cpp, asset.hpp and compound.hpp.  An
    amount is a [share_type] (file [SafeInt]); asset times price goes through
    [uint128] (file [Uint128]) exactly as written, so the checks of the code,
    and the conversion of the 64-bit quotient back to [int64_t], are visible. *)

From stdpp Require Import pretty.
From S2P Require Import Prelude.
From S2P Require Import SafeInt.
From S2P Require Import Uint128.

Definition BTCM_SYMBOL : Z := 0.
Definition VESTS_SYMBOL : Z := 1.
Definition XUSD_SYMBOL : Z := 2.
Definition BTCM_MAX_SHARE_SUPPLY : Z := 30000000000000.
Definition BTCM_100_PERCENT : Z := 10000.

Record asset := Asset { amount : Z; asset_id : Z }.
#[export] Instance eta_asset : Settable asset := fun r => Asset (amount r) (asset_id r).
#[export] Instance asset_eq_dec : EqDecision asset.
Proof. solve_decision. Defined.

Record price := Price { base : asset; quote : asset }.
#[export] Instance eta_price : Settable price := fun r => Price (base r) (quote r).
#[export] Instance price_eq_dec : EqDecision price.
Proof. solve_decision. Defined.

(** [price()]: both sides are [asset()], zero of the default symbol. *)
Definition default_price : price := Price (Asset 0 BTCM_SYMBOL) (Asset 0 BTCM_SYMBOL).

Module AssetOps.

(** ** Printing *)

Definition static_precision : Z := 1000000.
Definition precision (a : asset) : Z := 1000000.

(** [std::string( object_id_type )] of an asset id: space 2, type 28. *)
Definition id_string (id : Z) : string := ("2.28." +:+ pretty id)%string.

Definition to_string (a : asset) : string :=
  let init_digits := Z.quot (amount a) (precision a) in
  let fraction := u64 (Z.rem (amount a) (precision a)) in
  let output := pretty init_digits in
  let digits := pretty (u64 (precision a + fraction)) in
  let output := (output +:+ "." +:+ match digits with String _ s => s | EmptyString => "" end)%string in
  (output +:+ " " +:+ id_string (asset_id a))%string.

Fixpoint scaled_precision_loop (n : nat) (res : Z) : result Z :=
  match n with
  | O => Ok res
  | S n => res' ← Safe.mul res 10; scaled_precision_loop n res'
  end.
Definition scaled_precision (decimals : Z) : result Z :=
  _ ← fc_assert (decimals <? 19);
  scaled_precision_loop (Z.to_nat decimals) 1.

(** ** Arithmetic and comparison of assets *)

Definition asset_eqb (a b : asset) : bool :=
  (asset_id a =? asset_id b) && (amount a =? amount b).

Definition asset_add (a b : asset) : result asset :=
  _ ← fc_assert (asset_id a =? asset_id b);
  s ← Safe.add (amount a) (amount b); Ok (Asset s (asset_id a)).

Definition asset_sub (a b : asset) : result asset :=
  _ ← fc_assert (asset_id a =? asset_id b);
  s ← Safe.sub (amount a) (amount b); Ok (Asset s (asset_id a)).

Definition asset_neg (a : asset) : result asset :=
  s ← Safe.neg (amount a); Ok (Asset s (asset_id a)).

Definition asset_mul_int (a : asset) (b : Z) : result asset :=
  s ← Safe.mul (amount a) b; Ok (Asset s (asset_id a)).
Definition asset_div_int (a : asset) (b : Z) : result asset :=
  s ← Safe.div (amount a) b; Ok (Asset s (asset_id a)).

Definition asset_ltb (a b : asset) : result bool :=
  _ ← fc_assert (asset_id a =? asset_id b); Ok (amount a <? amount b).
Definition asset_leb (a b : asset) : result bool :=
  if asset_eqb a b then Ok true else asset_ltb a b.
Definition asset_gtb (a b : asset) : result bool := negb <$> asset_leb a b.
Definition asset_geb (a b : asset) : result bool := negb <$> asset_ltb a b.

(** ** Prices *)

Definition cross (x y : Z) : u128 := Uint128.mul (Uint128.of_int64 x) (Uint128.of_int64 y).

Definition price_eqb (a b : price) : bool :=
  if negb ((asset_id (base a) =? asset_id (base b)) && (asset_id (quote a) =? asset_id (quote b)))
  then false
  else Uint128.eqb (cross (amount (quote b)) (amount (base a)))
                   (cross (amount (quote a)) (amount (base b))).

Definition price_ltb (a b : price) : bool :=
  if asset_id (base a) <? asset_id (base b) then true
  else if asset_id (base b) <? asset_id (base a) then false
  else if asset_id (quote a) <? asset_id (quote b) then true
  else if asset_id (quote b) <? asset_id (quote a) then false
  else Uint128.ltb (cross (amount (quote b)) (amount (base a)))
                   (cross (amount (quote a)) (amount (base b))).

Definition price_leb (a b : price) : bool := price_eqb a b || price_ltb a b.
Definition price_gtb (a b : price) : bool := negb (price_leb a b).
Definition price_geb (a b : price) : bool := negb (price_ltb a b).

Definition is_null (p : price) : bool := price_eqb p default_price.

Definition invert (p : price) : price := Price (quote p) (base p).

Definition validate (p : price) : result unit :=
  _ ← fc_assert (amount (base p) >? 0);
  _ ← fc_assert (amount (quote p) >? 0);
  fc_assert (negb (asset_id (base p) =? asset_id (quote p))).

(** [asset / asset]. *)
Definition make_price (b q : asset) : result price :=
  _ ← fc_assert (negb (asset_id b =? asset_id q)); Ok (Price b q).

Definition price_max (b q : Z) : result price := make_price (Asset BTCM_MAX_SHARE_SUPPLY b) (Asset 1 q).
Definition price_min (b q : Z) : result price := make_price (Asset 1 b) (Asset BTCM_MAX_SHARE_SUPPLY q).

Section Boost.
Context {B : BoostMP}.

(** One branch of [operator *]: [(uint128_t(x) * num) / den], the check of the
    high half, and the conversion of the low half to [share_type]. *)
Definition scale (x num den id : Z) : result asset :=
  _ ← fc_assert (den >? 0);
  q ← Uint128.div (cross x num) (Uint128.of_int64 den);
  _ ← fc_assert (hi q =? 0);
  r ← Uint128.to_uint64 q;
  Ok (Asset (i64 r) id).

Definition asset_mul (a : asset) (b : price) : result asset :=
  if asset_id a =? asset_id (base b) then
    scale (amount a) (amount (quote b)) (amount (base b)) (asset_id (quote b))
  else if asset_id a =? asset_id (quote b) then
    scale (amount a) (amount (base b)) (amount (quote b)) (asset_id (base b))
  else Throw assert_exception.
End Boost.

(** ** compound.hpp *)

(** [calc_percent_reward< percent, multiply_constant, shift_constant >]; the
    template's static assertions are [reward_static_asserts]. *)
Definition reward_static_asserts (percent multiply_constant shift_constant : Z) : bool :=
  (0 <? shift_constant) && (shift_constant <? 128) && (256 <? multiply_constant)
  && (multiply_constant <? (2 ^ 64 - 1) / BTCM_100_PERCENT) && (0 <=? percent)
  && (percent <=? BTCM_100_PERCENT).

Definition calc_percent_reward (percent multiply_constant shift_constant current_supply : Z) : result Z :=
  let half := Uint128.shl (Uint128.of_int32 1) (Uint128.of_uint64 (shift_constant - 1)) in
  let reward := Uint128.of_int64 current_supply in
  let reward := Uint128.mul reward (Uint128.of_uint64 (u64 (percent * multiply_constant))) in
  let reward := Uint128.add reward half in
  let reward := Uint128.shr reward (Uint128.of_uint64 shift_constant) in
  r ← Uint128.to_uint64 reward; Ok (i64 r).

Definition BTCM_APR_PERCENT_MULTIPLY_PER_DAY_0_2 : Z := 0x369c2966a19c8.
Definition BTCM_APR_PERCENT_SHIFT_PER_DAY_0_2 : Z := 76.
Definition BTCM_CONTENT_APR_PERCENT_0_2 : Z := 5000.

Definition calc_percent_reward_per_day_0_2 (percent current_supply : Z) : result Z :=
  calc_percent_reward percent BTCM_APR_PERCENT_MULTIPLY_PER_DAY_0_2
    BTCM_APR_PERCENT_SHIFT_PER_DAY_0_2 current_supply.

End AssetOps.
