(* ===== verification/AssetFacts.v ===== *)
(** * Facts about assets, prices and rewards

    The lemmas and properties of [Asset]: conversion by a price, the order on
    prices, printing, and the reward formula. *)

From stdpp Require Import pretty.
From S2P Require Import Prelude.
From S2P Require Import SafeInt.
From S2P Require Import Uint128.
From S2P Require Import Uint128Facts.
From S2P Require Import Asset.

Module AssetFacts.
Import AssetOps.

(** An amount of a validated operation or of a balance that is not in debt. *)
Definition amount_ok (x : Z) : Prop := 0 <= x <= int64_max.

(** What [price::validate] accepts. *)
Definition price_ok (p : price) : Prop :=
  0 < amount (base p) <= int64_max /\ 0 < amount (quote p) <= int64_max
  /\ asset_id (base p) <> asset_id (quote p).

Lemma validate_ok p : is_int64 (amount (base p)) -> is_int64 (amount (quote p)) ->
  validate p = Ok tt <-> price_ok p.
Proof.
  unfold validate, price_ok, is_int64, fc_assert. intros.
  destruct (Z.gtb_spec (amount (base p)) 0), (Z.gtb_spec (amount (quote p)) 0),
    (Z.eqb_spec (asset_id (base p)) (asset_id (quote p))); cbn;
    (split; [intros; try discriminate|]; try tauto; intros; try lia).
Qed.

Lemma cross_val x y : amount_ok x -> amount_ok y ->
  Uint128.wf (cross x y) /\ Uint128.val (cross x y) = x * y.
Proof.
  unfold amount_ok, int64_max. intros Hx Hy. unfold cross.
  destruct (Uint128.mul_correct (Uint128.of_int64 x) (Uint128.of_int64 y)) as [Hw Hv].
  - apply Uint128.of_int64_wf.
  - apply Uint128.of_int64_wf.
  - split; [done|]. rewrite Hv, !Uint128.of_int64_nonneg by (unfold int64_max; lia).
    apply Z.mod_small. nia.
Qed.

Lemma hi_zero q : Uint128.wf q -> (hi q =? 0) = (Uint128.val q <? 2 ^ 64).
Proof.
  intros [? ?]. rewrite Uint128.val_def.
  destruct (Z.eqb_spec (hi q) 0), (Z.ltb_spec (hi q * 2 ^ 64 + lo q) (2 ^ 64)); try done; nia.
Qed.

Lemma to_uint64_spec q : Uint128.wf q ->
  Uint128.to_uint64 q = if Uint128.val q <? 2 ^ 64 then Ok (Uint128.val q) else Throw assert_exception.
Proof.
  intros Hq. unfold Uint128.to_uint64, fc_assert. rewrite hi_zero by done.
  destruct (Z.ltb_spec (Uint128.val q) (2 ^ 64)) as [Hlt|]; [|done].
  cbn. f_equal. rewrite Uint128.val_def in *. destruct Hq. nia.
Qed.

Section Boost.
Context {B : BoostMP} {BOk : BoostMPOk}.

(** The scaling step is exact up to the conversion of the quotient. *)
Lemma scale_exact x num den id : amount_ok x -> amount_ok num -> 0 < den <= int64_max ->
  scale x num den id =
  if x * num / den <? 2 ^ 64 then Ok (Asset (i64 (x * num / den)) id) else Throw assert_exception.
Proof.
  intros Hx Hn Hd. unfold scale, fc_assert. rewrite (proj2 (Z.gtb_lt den 0)) by lia.
  cbn [mbind result_bind].
  destruct (cross_val x num Hx Hn) as [Hw Hv].
  assert (Uint128.val (Uint128.of_int64 den) = den) as Hdv by (apply Uint128.of_int64_nonneg; lia).
  destruct (Uint128Facts.div_correct (cross x num) (Uint128.of_int64 den)) as (q & Eq & Hqw & Hqv);
    [done|apply Uint128.of_int64_wf|lia|].
  rewrite Eq. cbn [mbind result_bind]. rewrite hi_zero, to_uint64_spec by done.
  rewrite Hqv, Hv, Hdv. by destruct (_ <? _).
Qed.

Lemma scale_zero_den x num den id : den <= 0 -> scale x num den id = Throw assert_exception.
Proof.
  intros. unfold scale, fc_assert. by rewrite (proj2 (Z.ltb_ge 0 den)), Z.gtb_ltb || (destruct (Z.gtb_spec den 0); [lia|]).
Qed.

(** A negative amount becomes a huge unsigned one, and its conversion throws. *)
Lemma scale_negative x num den id : int64_min <= x < 0 -> 0 < num <= int64_max -> 0 < den <= int64_max ->
  scale x num den id = Throw assert_exception.
Proof.
  unfold int64_min, int64_max. intros Hx Hn Hd. unfold scale, fc_assert. rewrite (proj2 (Z.gtb_lt den 0)) by lia.
  cbn [mbind result_bind].
  destruct (Uint128.mul_correct (Uint128.of_int64 x) (Uint128.of_int64 num)) as [Hw Hv]; [apply Uint128.of_int64_wf..|].
  rewrite (Uint128.of_int64_nonneg num), Uint128.of_int64_val in Hv by (unfold is_int64, int64_min, int64_max; lia).
  assert (Uint128.val (Uint128.of_int64 den) = den) as Hdv by (apply Uint128.of_int64_nonneg; unfold int64_max; lia).
  destruct (Uint128Facts.div_correct (cross x num) (Uint128.of_int64 den)) as (q & Eq & Hqw & Hqv);
    [done|apply Uint128.of_int64_wf|lia|].
  rewrite Eq. cbn [mbind result_bind]. rewrite hi_zero by done. unfold cross in Hqv. rewrite Hqv, Hdv, Hv, Z.mul_mod_idemp_l by done.
  replace ((x * num) mod 2 ^ 128) with (2 ^ 128 + x * num).
  2: { rewrite <-(Z.mod_small (2 ^ 128 + x * num) (2 ^ 128)) by nia. by rewrite Z.add_mod, Z.mod_same, Z.add_0_l, Z.mod_mod. }
  destruct (Z.ltb_spec ((2 ^ 128 + x * num) / den) (2 ^ 64)) as [Hlt|]; [|done].
  assert (2 ^ 64 <= (2 ^ 128 + x * num) / den); [|lia]. apply Z.div_le_lower_bound; [lia|]. nia.
Qed.

Lemma i64_small x : 0 <= x <= int64_max -> i64 x = x.
Proof.
  unfold int64_max, to_signed. intros. rewrite Z.mod_small by lia.
  change (2 ^ (64 - 1)) with 9223372036854775808. destruct (Z.ltb_spec x 9223372036854775808); lia.
Qed.

Lemma scale_small x num den id : amount_ok x -> amount_ok num -> 0 < den <= int64_max ->
  x * num / den <= int64_max -> scale x num den id = Ok (Asset (x * num / den) id).
Proof.
  intros Hx Hn Hd Hq. rewrite scale_exact by done.
  assert (0 <= x * num / den). { unfold amount_ok in *. apply Z.div_pos; nia. }
  rewrite i64_small by lia. unfold int64_max in *. destruct (Z.ltb_spec (x * num / den) (2 ^ 64)); [done|lia].
Qed.

Lemma floor_chain x b q : 0 <= x -> 0 < b -> 0 < q -> x * q / b * b / q <= x.
Proof.
  intros. pose proof (Z.mul_div_le (x * q) b). apply Z.div_le_upper_bound; [lia|]. nia.
Qed.

Lemma asset_mul_exact a p :
  amount_ok (amount a) -> price_ok p ->
  asset_mul a p =
  if asset_id a =? asset_id (base p) then
    let q := amount a * amount (quote p) / amount (base p) in
    if q <? 2 ^ 64 then Ok (Asset (i64 q) (asset_id (quote p))) else Throw assert_exception
  else if asset_id a =? asset_id (quote p) then
    let q := amount a * amount (base p) / amount (quote p) in
    if q <? 2 ^ 64 then Ok (Asset (i64 q) (asset_id (base p))) else Throw assert_exception
  else Throw assert_exception.
Proof.
  intros Ha (Hb & Hq & Hne). unfold asset_mul, amount_ok in *.
  rewrite !scale_exact by (unfold amount_ok; lia). done.
Qed.

Lemma i64_neg x : 2 ^ 63 <= x < 2 ^ 64 -> i64 x < 0.
Proof.
  unfold to_signed. intros. rewrite Z.mod_small by lia.
  change (2 ^ (64 - 1)) with (2 ^ 63). destruct (Z.ltb_spec x (2 ^ 63)); lia.
Qed.

(** One branch of the conversion, when the converted amount is not negative. *)
Lemma scaled_back x num den : 0 <= x -> 0 < num -> 0 < den ->
  (if x * num / den <? 2 ^ 64 then Ok (Asset (i64 (x * num / den)) 0) else Throw assert_exception)
    <> Throw assert_exception -> 0 <= i64 (x * num / den) -> i64 (x * num / den) = x * num / den.
Proof.
  intros ??? Hok Hnn. pose proof (Z.div_pos (x * num) den).
  destruct (Z.ltb_spec (x * num / den) (2 ^ 64)); [|done].
  destruct (Z.le_gt_cases (2 ^ 63) (x * num / den)).
  - pose proof (i64_neg (x * num / den)). lia.
  - apply i64_small. unfold int64_max. nia.
Qed.

Lemma back_le x num den y : 0 <= x -> 0 < num -> 0 < den -> y = x * num / den ->
  0 <= y * den / num <= x.
Proof.
  intros ??? ->. split; [apply Z.div_pos; [|lia]|by apply floor_chain].
  apply Z.mul_nonneg_nonneg; [apply Z.div_pos; nia|lia].
Qed.

Lemma asset_mul_back a p b c :
  amount_ok (amount a) -> price_ok p -> asset_mul a p = Ok b -> amount_ok (amount b) ->
  asset_mul b p = Ok c -> asset_id c = asset_id a /\ 0 <= amount c <= amount a.
Proof.
  intros Ha Hp H1 Hb H2. rewrite asset_mul_exact in H1, H2 by done.
  destruct Hp as (Hpb & Hpq & Hne). unfold amount_ok in *. cbv zeta in H1, H2.
  assert (forall x n d e, 0 <= x -> 0 < n <= int64_max -> 0 < d <= int64_max -> x <= int64_max ->
    0 <= i64 (x * n / d) <= int64_max -> x * n / d < 2 ^ 64 -> e = i64 (x * n / d) ->
    i64 (e * d / n) = e * d / n /\ 0 <= e * d / n <= x) as Hback.
  { intros x n d e ????? Hlt ->. rewrite (scaled_back x n d); [|lia..| |lia].
    2: { by rewrite (proj2 (Z.ltb_lt _ _) Hlt). }
    pose proof (back_le x n d _ ltac:(lia) ltac:(lia) ltac:(lia) eq_refl).
    split; [apply i64_small|]; lia. }
  destruct (Z.eqb_spec (asset_id a) (asset_id (base p))) as [Ea|Ea].
  - destruct (Z.ltb_spec (amount a * amount (quote p) / amount (base p)) (2 ^ 64)) as [Hlt|]; [|done].
    injection H1 as <-. cbn [asset_id amount] in *.
    rewrite (proj2 (Z.eqb_neq _ _)), Z.eqb_refl in H2 by congruence.
    destruct (_ <? 2 ^ 64); [|done]. injection H2 as <-. cbn [asset_id amount].
    split; [done|].
    destruct (Hback (amount a) (amount (quote p)) (amount (base p)) _
      ltac:(lia) Hpq Hpb ltac:(lia) Hb Hlt eq_refl) as [-> ?]. lia.
  - destruct (Z.eqb_spec (asset_id a) (asset_id (quote p))) as [Eq|Eq]; [|done].
    destruct (Z.ltb_spec (amount a * amount (base p) / amount (quote p)) (2 ^ 64)) as [Hlt|]; [|done].
    injection H1 as <-. cbn [asset_id amount] in *. rewrite Z.eqb_refl in H2.
    destruct (_ <? 2 ^ 64); [|done]. injection H2 as <-. cbn [asset_id amount].
    split; [done|].
    destruct (Hback (amount a) (amount (base p)) (amount (quote p)) _
      ltac:(lia) Hpb Hpq ltac:(lia) Hb Hlt eq_refl) as [-> ?]. lia.
Qed.
End Boost.

(** ** The order on prices *)

Definition same_market (a b : price) : Prop :=
  asset_id (base a) = asset_id (base b) /\ asset_id (quote a) = asset_id (quote b).

Lemma price_ltb_spec a b : price_ok a -> price_ok b ->
  price_ltb a b = true <->
  asset_id (base a) < asset_id (base b) \/
  (asset_id (base a) = asset_id (base b) /\ asset_id (quote a) < asset_id (quote b)) \/
  (same_market a b /\
   amount (base a) * amount (quote b) < amount (base b) * amount (quote a)).
Proof.
  intros (? & ? & ?) (? & ? & ?). unfold price_ltb, same_market.
  destruct (cross_val (amount (quote b)) (amount (base a))) as [W1 V1];
    [unfold amount_ok; lia..|].
  destruct (cross_val (amount (quote a)) (amount (base b))) as [W2 V2];
    [unfold amount_ok; lia..|].
  rewrite Uint128.ltb_spec, V1, V2 by done.
  destruct (Z.ltb_spec (asset_id (base a)) (asset_id (base b))); [split; [auto|done]|].
  destruct (Z.ltb_spec (asset_id (base b)) (asset_id (base a))); [split; [done|lia]|].
  destruct (Z.ltb_spec (asset_id (quote a)) (asset_id (quote b)));
    [split; [intros _; right; left; lia|done]|].
  destruct (Z.ltb_spec (asset_id (quote b)) (asset_id (quote a))); [split; [done|lia]|].
  rewrite Z.ltb_lt. split; [intros; right; right; lia|lia].
Qed.

Lemma price_eqb_spec a b : price_ok a -> price_ok b ->
  price_eqb a b = true <->
  same_market a b /\ amount (base a) * amount (quote b) = amount (base b) * amount (quote a).
Proof.
  intros (? & ? & ?) (? & ? & ?). unfold price_eqb, same_market.
  destruct (cross_val (amount (quote b)) (amount (base a))) as [W1 V1];
    [unfold amount_ok; lia..|].
  destruct (cross_val (amount (quote a)) (amount (base b))) as [W2 V2];
    [unfold amount_ok; lia..|].
  rewrite Uint128.eqb_spec, V1, V2 by done.
  destruct (Z.eqb_spec (asset_id (base a)) (asset_id (base b))),
    (Z.eqb_spec (asset_id (quote a)) (asset_id (quote b))); cbn; try (split; [done|lia]).
  rewrite Z.eqb_eq. lia.
Qed.

Lemma ratio_trans a1 a2 b1 b2 c1 c2 : 0 < a2 -> 0 < b2 -> 0 < c2 -> 0 < b1 ->
  a1 * b2 <= b1 * a2 -> b1 * c2 <= c1 * b2 ->
  a1 * c2 <= c1 * a2 /\ (a1 * b2 < b1 * a2 \/ b1 * c2 < c1 * b2 -> a1 * c2 < c1 * a2).
Proof.
  intros. assert (a1 * b2 * c2 <= b1 * a2 * c2) by nia.
  assert (b1 * c2 * a2 <= c1 * b2 * a2) by nia. split; [nia|].
  intros [?|?]; nia.
Qed.

(** [<], [==] and [>] on prices; [a < b] orders a market by base per quote. *)
Lemma price_trichotomy a b : price_ok a -> price_ok b ->
  (price_ltb a b = true /\ price_eqb a b = false /\ price_ltb b a = false) \/
  (price_ltb a b = false /\ price_eqb a b = true /\ price_ltb b a = false) \/
  (price_ltb a b = false /\ price_eqb a b = false /\ price_ltb b a = true).
Proof.
  intros Ha Hb. pose proof (price_ltb_spec a b Ha Hb) as H1.
  pose proof (price_ltb_spec b a Hb Ha) as H2. pose proof (price_eqb_spec a b Ha Hb) as H3.
  unfold same_market in *.
  destruct (price_ltb a b), (price_ltb b a), (price_eqb a b); try tauto; exfalso; lia.
Qed.

Lemma price_ltb_trans a b c : price_ok a -> price_ok b -> price_ok c ->
  price_ltb a b = true -> price_ltb b c = true -> price_ltb a c = true.
Proof.
  intros Ha Hb Hc. rewrite !price_ltb_spec by done. unfold same_market.
  destruct Ha as (? & ? & _), Hb as (? & ? & _), Hc as (? & ? & _).
  pose proof (ratio_trans (amount (base a)) (amount (quote a)) (amount (base b))
    (amount (quote b)) (amount (base c)) (amount (quote c))). lia.
Qed.

Lemma price_eqb_trans a b c : price_ok a -> price_ok b -> price_ok c ->
  price_eqb a b = true -> price_eqb b c = true -> price_eqb a c = true.
Proof.
  intros Ha Hb Hc. rewrite !price_eqb_spec by done. unfold same_market.
  destruct Ha as (? & ? & _), Hb as (? & ? & _), Hc as (? & ? & _). intros. split; [lia|].
  pose proof (ratio_trans (amount (base a)) (amount (quote a)) (amount (base b))
    (amount (quote b)) (amount (base c)) (amount (quote c))).
  pose proof (ratio_trans (amount (base c)) (amount (quote c)) (amount (base b))
    (amount (quote b)) (amount (base a)) (amount (quote a))). lia.
Qed.

Lemma is_null_iff p : is_int64 (amount (base p)) -> is_int64 (amount (quote p)) ->
  is_null p = true <-> asset_id (base p) = BTCM_SYMBOL /\ asset_id (quote p) = BTCM_SYMBOL.
Proof.
  intros. unfold is_null, price_eqb, default_price. cbn [base quote amount asset_id].
  destruct (Z.eqb_spec (asset_id (base p)) BTCM_SYMBOL),
    (Z.eqb_spec (asset_id (quote p)) BTCM_SYMBOL); cbn; try (split; [done|tauto]).
  split; [done|]. intros _. unfold cross.
  pose proof (Uint128.of_int64_wf) as W.
  pose proof (Uint128.mul_correct _ _ (W 0) (W (amount (base p)))) as [W1 V1].
  pose proof (Uint128.mul_correct _ _ (W (amount (quote p))) (W 0)) as [W2 V2].
  rewrite Uint128.eqb_spec, V1, V2 by done.
  rewrite (Uint128.of_int64_nonneg 0) by (unfold int64_max; lia).
  by rewrite Z.mul_0_l, Z.mul_0_r.
Qed.

(** ** Printing *)

(** [std::to_string] drops the sign of the fraction of an amount that is not
    negative only; the fraction of a negative one is a large unsigned number. *)
Lemma to_string_examples :
  to_string (Asset 1500000 0) = "1.500000 2.28.0"%string /\
  to_string (Asset (-1500000) 0) = "-1.00000 2.28.0"%string /\
  to_string (Asset (-500000) 0) = "0.00000 2.28.0"%string.
Proof. vm_compute. auto. Qed.

(** ** Rewards *)

Lemma calc_percent_reward_exact percent mult shift supply :
  reward_static_asserts percent mult shift = true -> amount_ok supply ->
  calc_percent_reward percent mult shift supply =
  let r := (supply * (percent * mult) + 2 ^ (shift - 1)) / 2 ^ shift in
  if r <? 2 ^ 64 then Ok (i64 r) else Throw assert_exception.
Proof.
  unfold reward_static_asserts, BTCM_100_PERCENT. rewrite !andb_true_iff, !Z.ltb_lt, !Z.leb_le.
  intros [[[[[Hs1 Hs2] Hm1] Hm2] Hp1] Hp2] Hsup. change ((2 ^ 64 - 1) / 10000) with 1844674407370955 in Hm2.
  assert (0 <= percent * mult < 2 ^ 64) as Hpm.
  { split; [nia|]. apply Z.le_lt_trans with (10000 * mult); [|lia]. apply Z.mul_le_mono_nonneg_r; lia. }
  unfold calc_percent_reward. rewrite (wrap_small 64 (percent * mult)) by lia.
  destruct (Uint128.mul_correct (Uint128.of_int64 supply) (Uint128.of_uint64 (percent * mult))) as [Wm Vm].
  { apply Uint128.of_int64_wf. }
  { apply Uint128.of_uint64_wf. }
  rewrite Uint128.of_int64_nonneg, Uint128.of_uint64_val in Vm by done.
  assert (0 <= supply * (percent * mult) < 2 ^ 127) as Hx.
  { unfold amount_ok, int64_max in Hsup. split; [nia|].
    change (2 ^ 127) with (2 ^ 63 * 2 ^ 64). apply Z.mul_lt_mono_nonneg; lia. }
  assert (0 <= 2 ^ (shift - 1) <= 2 ^ 126) as Hh.
  { split; [apply Z.pow_nonneg; lia|apply Z.pow_le_mono_r; lia]. }
  rewrite (Z.mod_small (supply * _)) in Vm by lia.
  assert (Hu : forall n, 0 <= n < 128 -> Uint128.of_uint64 n = U128 0 n).
  { intros n Hn. unfold Uint128.of_uint64. rewrite wrap_small by lia. done. }
  rewrite (Hu (shift - 1)) by lia. rewrite (Hu shift) by lia.
  rewrite (Uint128.of_int32_small 1) by lia.
  destruct (Uint128.shl_correct (U128 0 1) (shift - 1)) as [Wh Vh]; [by apply Uint128.wf_mk|lia|].
  rewrite Uint128.val_mk in Vh. rewrite Z.mul_0_l, Z.add_0_l, Z.mul_1_l in Vh.
  rewrite (Z.mod_small (2 ^ (shift - 1))) in Vh by lia.
  pose proof (Uint128.add_val _ _ Wm Wh) as Va. rewrite Vm, Vh, Z.mod_small in Va by lia.
  pose proof (Uint128.add_wf (Uint128.mul (Uint128.of_int64 supply) (Uint128.of_uint64 (percent * mult)))
    (Uint128.shl (U128 0 1) (U128 0 (shift - 1)))) as Wa.
  destruct (Uint128.shr_correct _ shift Wa) as [Wr Vr]; [lia|]. rewrite Va in Vr.
  rewrite to_uint64_spec by done. rewrite Vr. cbv zeta. by destruct (_ <? _).
Qed.

(** The daily content reward, whatever the supply: rounded to nearest, never
    more than the supply, no exception. *)
Lemma reward_per_day_small percent supply : 0 <= percent <= BTCM_100_PERCENT -> amount_ok supply ->
  let r := (supply * (percent * BTCM_APR_PERCENT_MULTIPLY_PER_DAY_0_2) + 2 ^ 75) / 2 ^ 76 in
  0 <= r <= int64_max /\ r <= supply /\ calc_percent_reward_per_day_0_2 percent supply = Ok r.
Proof.
  intros Hp Hs r. unfold BTCM_100_PERCENT in Hp. unfold calc_percent_reward_per_day_0_2.
  assert (reward_static_asserts percent BTCM_APR_PERCENT_MULTIPLY_PER_DAY_0_2
    BTCM_APR_PERCENT_SHIFT_PER_DAY_0_2 = true) as Hst.
  { unfold reward_static_asserts, BTCM_100_PERCENT.
    rewrite !andb_true_iff, !Z.ltb_lt, !Z.leb_le.
    split_and!; solve [lia|apply Z.ltb_lt; reflexivity]. }
  rewrite calc_percent_reward_exact by done. cbv zeta.
  change (2 ^ (BTCM_APR_PERCENT_SHIFT_PER_DAY_0_2 - 1)) with (2 ^ 75).
  change (2 ^ BTCM_APR_PERCENT_SHIFT_PER_DAY_0_2) with (2 ^ 76).
  assert (0 <= supply * (percent * BTCM_APR_PERCENT_MULTIPLY_PER_DAY_0_2)
            <= supply * 2 ^ 64) as Hb.
  { unfold BTCM_APR_PERCENT_MULTIPLY_PER_DAY_0_2, amount_ok in *. nia. }
  assert (0 <= r <= supply) as Hr.
  { subst r. generalize dependent (supply * (percent * BTCM_APR_PERCENT_MULTIPLY_PER_DAY_0_2)).
    intros x Hx. unfold amount_ok in Hs. split; [apply Z.div_pos; lia|].
    destruct (Z.eq_dec supply 0) as [->|]; [replace x with 0 by lia; apply Z.leb_le; reflexivity|].
    apply Z.div_le_upper_bound; lia. }
  fold r.
  unfold amount_ok in Hs. split_and!; [lia..|].
  rewrite i64_small by lia. unfold int64_max in Hs.
  destruct (Z.ltb_spec r (2 ^ 64)); [done|lia].
Qed.

(** ** Properties *)

(** C15 Multiplying a non-negative amount by a validated price gives exactly the
    floor of the scaled amount, in the other asset, converted to [int64_t]; it
    throws exactly when the floor needs more than 64 bits or the asset is not
    of the market; and converting the result back with the same price never
    gains anything. *)
Theorem asset_conversion {B : BoostMP} {BOk : BoostMPOk} a p :
  amount_ok (amount a) -> price_ok p ->
  asset_mul a p =
    (if asset_id a =? asset_id (base p) then
       let q := amount a * amount (quote p) / amount (base p) in
       if q <? 2 ^ 64 then Ok (Asset (i64 q) (asset_id (quote p))) else Throw assert_exception
     else if asset_id a =? asset_id (quote p) then
       let q := amount a * amount (base p) / amount (quote p) in
       if q <? 2 ^ 64 then Ok (Asset (i64 q) (asset_id (base p))) else Throw assert_exception
     else Throw assert_exception)
  /\ forall b c, asset_mul a p = Ok b -> amount_ok (amount b) -> asset_mul b p = Ok c ->
       asset_id c = asset_id a /\ 0 <= amount c <= amount a.
Proof.
  intros. split; [by apply asset_mul_exact|]. intros b c. by apply asset_mul_back.
Qed.

#[local] Instance boost_ok : @BoostMPOk boost_reference.
Proof.
  split; [done|]. intros. unfold m128_div, boost_reference.
  by rewrite (proj2 (Z.eqb_neq _ _)) by lia.
Qed.

Lemma asset_conversion_witness :
  @asset_mul boost_reference (Asset 1000 0) (Price (Asset 3 0) (Asset 10 2)) = Ok (Asset 3333 2).
Proof.
  rewrite (proj1 (asset_conversion (Asset 1000 0) (Price (Asset 3 0) (Asset 10 2))
    ltac:(cbn; unfold amount_ok, int64_max; lia)
    ltac:(unfold price_ok, int64_max; cbn; lia))).
  vm_compute. reflexivity.
Defined.

(** On validated prices, exactly one of [a < b], [a == b] and [b < a] holds,
    [<] and [==] are transitive, and within one market [a < b] compares the two
    ratios base / quote. *)
Lemma price_order a b c :
  price_ok a -> price_ok b -> price_ok c ->
  ((price_ltb a b = true /\ price_eqb a b = false /\ price_ltb b a = false) \/
   (price_ltb a b = false /\ price_eqb a b = true /\ price_ltb b a = false) \/
   (price_ltb a b = false /\ price_eqb a b = false /\ price_ltb b a = true)) /\
  (price_ltb a b = true -> price_ltb b c = true -> price_ltb a c = true) /\
  (price_eqb a b = true -> price_eqb b c = true -> price_eqb a c = true) /\
  (same_market a b -> price_ltb a b = true <->
     amount (base a) * amount (quote b) < amount (base b) * amount (quote a)).
Proof.
  intros Ha Hb Hc. split_and!.
  - by apply price_trichotomy.
  - by apply price_ltb_trans.
  - by apply price_eqb_trans.
  - intros Hm. rewrite price_ltb_spec by done. unfold same_market in *. lia.
Qed.

Lemma price_order_witness :
  price_ltb (Price (Asset 1 0) (Asset 3 2)) (Price (Asset 1 0) (Asset 2 2)) = true.
Proof.
  apply (price_order (Price (Asset 1 0) (Asset 3 2)) (Price (Asset 1 0) (Asset 2 2))
    (Price (Asset 1 0) (Asset 2 2))); unfold price_ok, int64_max, same_market; cbn; lia.
Defined.

(** For every supply and percentage the code allows, the daily content reward
    is the supply scaled by the percentage, rounded to nearest: the static
    assertions rule out every overflow, the result never exceeds the supply and
    the computation never throws.  Any instantiation of [calc_percent_reward]
    whose static assertions hold computes the rounded quotient or throws. *)
Lemma reward_exact percent mult shift supply :
  amount_ok supply ->
  (0 <= percent <= BTCM_100_PERCENT ->
   let r := (supply * (percent * BTCM_APR_PERCENT_MULTIPLY_PER_DAY_0_2) + 2 ^ 75) / 2 ^ 76 in
   0 <= r <= supply /\ calc_percent_reward_per_day_0_2 percent supply = Ok r) /\
  (reward_static_asserts percent mult shift = true ->
   let r := (supply * (percent * mult) + 2 ^ (shift - 1)) / 2 ^ shift in
   calc_percent_reward percent mult shift supply =
   if r <? 2 ^ 64 then Ok (i64 r) else Throw assert_exception).
Proof.
  intros Hs. split.
  - intros Hp r. destruct (reward_per_day_small percent supply Hp Hs) as (? & ? & ?).
    fold r in H, H0, H1. auto with lia.
  - intros. by apply calc_percent_reward_exact.
Qed.

Lemma reward_exact_witness :
  calc_percent_reward_per_day_0_2 BTCM_CONTENT_APR_PERCENT_0_2 10000000000 = Ok 635744.
Proof.
  destruct (reward_exact 5000 257 1 10000000000) as [H _];
    [unfold amount_ok, int64_max; lia|].
  destruct H as [_ H]; [unfold BTCM_100_PERCENT; lia|].
  etransitivity; [exact H|]. vm_compute. reflexivity.
Defined.
End AssetFacts.
