(* ===== verification/UndoDatabase.v ===== *)
(** * The object database and its undo stack

    Models libraries/db: object ids (object_id.hpp), the primary index of a
    table (generic_index.hpp, index.hpp, index.cpp), [object_database] and
    [undo_database].  Objects are of any type [V]; the uniqueness constraints of
    a table's multi-index container are the parameter [conflict].  What survives
    an exception matters here, so the operations are in the monad [stx]. *)

From S2P Require Import Prelude.

(** ** Object ids *)

Module ObjectId.

Definition GRAPHENE_DB_MAX_INSTANCE_ID : Z := 2 ^ 48 - 1.

(** [object_id_type( s, t, i )]: the number of the id. *)
Definition make (s t i : Z) : result Z :=
  _ ← fc_assert (Z.shiftr i 48 =? 0);
  Ok (Z.lor (Z.lor (u64 (Z.shiftl s 56)) (u64 (Z.shiftl t 48))) i).

Definition space (number : Z) : Z := u8 (Z.shiftr number 56).
Definition type (number : Z) : Z := u8 (Z.land (Z.shiftr number 48) 255).
Definition space_type (number : Z) : Z := u16 (Z.shiftr number 48).
Definition instance (number : Z) : Z := Z.land number GRAPHENE_DB_MAX_INSTANCE_ID.
Definition is_null (number : Z) : bool := number =? 0.
(** [operator++]. *)
Definition next (number : Z) : Z := u64 (number + 1).
End ObjectId.

(** The index an id belongs to, (space, type), and the id as the tables use it. *)
Definition ikey : Type := Z * Z.
Definition oid : Type := ikey * Z.

(** ** Tables *)

Record table (V : Type) := Table { next_id : Z; indices : gmap Z V }.
Arguments Table {V}.
Arguments next_id {V}.
Arguments indices {V}.
#[export] Instance eta_table V : Settable (table V) := fun t => Table (next_id t) (indices t).

(** [object_database::_index]. *)
Notation odb V := (gmap ikey (table V)).

(** [undo_state]. *)
Record undo_state (V : Type) := UndoState {
  old_values : gmap oid V;
  old_index_next_ids : gmap ikey Z;
  new_ids : gset oid;
  removed : gmap oid V
}.
Arguments UndoState {V}.
Arguments old_values {V}.
Arguments old_index_next_ids {V}.
Arguments new_ids {V}.
Arguments removed {V}.
#[export] Instance eta_undo_state V : Settable (undo_state V) := fun u =>
  UndoState (old_values u) (old_index_next_ids u) (new_ids u) (removed u).

(** [undo_database], its [_db] included.  The back of the deque [_stack] is the
    head of the list. *)
Record state (V : Type) := State {
  db : odb V;
  active_sessions : Z;
  disabled : bool;
  stack : list (undo_state V);
  max_size : Z
}.
Arguments State {V}.
Arguments db {V}.
Arguments active_sessions {V}.
Arguments disabled {V}.
Arguments stack {V}.
Arguments max_size {V}.
#[export] Instance eta_state V : Settable (state V) := fun s =>
  State (db s) (active_sessions s) (disabled s) (stack s) (max_size s).

(** [undo_database::session]. *)
Record session := Session { apply_undo : bool; disable_on_exit : bool }.

(** The iteration order of the standard library's hash containers, which it
    leaves unspecified. *)
Class HashOrder (V : Type) := {
  values_order : gmap oid V -> list (oid * V);
  ids_order : gset oid -> list oid;
  next_order : gmap ikey Z -> list (ikey * Z);
  values_order_ok : forall m, values_order m ≡ₚ map_to_list m;
  ids_order_ok : forall m, ids_order m ≡ₚ elements m;
  next_order_ok : forall m, next_order m ≡ₚ map_to_list m
}.

#[export] Instance sorted_order V : HashOrder V.
Proof. by refine {| values_order := map_to_list; ids_order := elements; next_order := map_to_list |}. Defined.

Module UndoDatabase.
Section Undo.
Context {V : Type} {Order : HashOrder V} (conflict : ikey -> V -> V -> bool).
Implicit Types (s : state V) (u : undo_state V) (k : ikey) (i : Z) (v : V).

Definition empty_state : undo_state V := UndoState ∅ ∅ ∅ ∅.

(** ** [generic_index] and [primary_index] *)

(** No other object of the table has the same value of a unique key. *)
Definition unique_ok k i v (t : gmap Z V) : bool :=
  bool_decide (map_Forall (fun j w => j = i \/ conflict k v w = false) t).

Definition find (d : odb V) (id : oid) : option V := d !! id.1 ≫= fun t => indices t !! id.2.
Definition next_of (d : odb V) k : option Z := next_id <$> d !! k.

Definition set_object (d : odb V) (id : oid) (o : option V) : odb V :=
  alter (fun t => t <| indices ::= partial_alter (fun _ => o) id.2 |>) id.1 d.
Definition set_next_id (d : odb V) k (n : Z) : odb V := alter (fun t => t <| next_id := n |>) k d.

Definition get_index k : stx (state V) (table V) :=
  fun s => (of_option assert_exception (db s !! k), s).
Definition get_object (id : oid) : stx (state V) V :=
  t ← get_index id.1;
  liftx (of_option assert_exception (indices t !! id.2)).

(** [generic_index::insert], without the undo hooks. *)
Definition insert (id : oid) v : stx (state V) unit :=
  t ← get_index id.1;
  _ ← assertx (bool_decide (indices t !! id.2 = None) && unique_ok id.1 id.2 v (indices t));
  modx (fun s => s <| db ::= fun d => set_object d id (Some v) |>).

(** [undo_database::on_create], [on_modify] and [on_remove]. *)
Definition touch (f : undo_state V -> undo_state V) s : state V :=
  if disabled s then s
  else match stack s with
       | [] => s <| stack := [f empty_state] |>
       | u :: l => s <| stack := f u :: l |>
       end.

Definition note_create (id : oid) u : undo_state V :=
  let u := match old_index_next_ids u !! id.1 with
           | None => u <| old_index_next_ids ::= <[id.1 := id.2]> |>
           | Some _ => u
           end in
  u <| new_ids ::= union {[id]} |>.

Definition note_modify (id : oid) v u : undo_state V :=
  if decide (id ∈ new_ids u) then u
  else match old_values u !! id with
       | Some _ => u
       | None => u <| old_values ::= <[id := v]> |>
       end.

Definition note_remove (id : oid) v u : undo_state V :=
  if decide (id ∈ new_ids u) then u <| new_ids ::= fun n => n ∖ {[id]} |>
  else match old_values u !! id with
       | Some w => u <| removed ::= <[id := w]> |> <| old_values ::= delete id |>
       | None =>
           match removed u !! id with
           | Some _ => u
           | None => u <| removed ::= <[id := v]> |>
           end
       end.

Definition on_create (id : oid) : state V -> state V := touch (note_create id).
Definition on_modify (id : oid) v : state V -> state V := touch (note_modify id v).
Definition on_remove (id : oid) v : state V -> state V := touch (note_remove id v).

(** [primary_index::create]: [constructor] gets the id. *)
Definition create k (constructor : Z -> result V) : stx (state V) oid :=
  t ← get_index k;
  let i := next_id t in
  v ← liftx (constructor i);
  _ ← insert (k, i) v;
  _ ← modx (fun s => s <| db ::= fun d => set_next_id d k (i + 1) |>);
  _ ← modx (on_create (k, i));
  mret (k, i).

(** [primary_index::modify]: the lambda [m] may throw, leaving the object as it
    had changed it so far.  [multi_index::modify] erases an object that violates
    a unique key. *)
Definition modify (id : oid) (m : V -> V * option exn) : stx (state V) unit :=
  v ← get_object id;
  _ ← modx (on_modify id v);
  let '(w, exc) := m v in
  t ← get_index id.1;
  let ok := unique_ok id.1 id.2 w (indices t) in
  _ ← modx (fun s => s <| db ::= fun d => set_object d id (if ok then Some w else None) |>);
  match exc with
  | Some e => throwx e
  | None => assertx ok
  end.

(** [primary_index::remove] on the object with this id. *)
Definition remove (id : oid) : stx (state V) unit :=
  v ← get_object id;
  _ ← modx (on_remove id v);
  modx (fun s => s <| db ::= fun d => set_object d id None |>).

(** ** [undo_database] *)

Definition enable : stx (state V) unit := modx (fun s => s <| disabled := false |>).
Definition disable : stx (state V) unit := modx (fun s => s <| disabled := true |>).

(** [while( size() > max_size() ) _stack.pop_front();] *)
Definition trim_stack s : state V := s <| stack ::= take (Z.to_nat (max_size s)) |>.

Definition start_undo_session (force_enable : bool) : stx (state V) session := fun s =>
  if disabled s && negb force_enable then (Ok (Session true false), s)
  else
    let disable_on_exit := disabled s && force_enable in
    let s := if force_enable then s <| disabled := false |> else s in
    let s := trim_stack s in
    let s := s <| stack ::= cons empty_state |> in
    let s := s <| active_sessions ::= fun n => u32 (n + 1) |> in
    (Ok (Session true disable_on_exit), s).

(** [undo_database::rollback_state] *)
Definition rollback_state : stx (state V) unit :=
  l ← getx (stack (V:=V));
  u ← liftx (of_option undefined_behaviour (head l));
  _ ← for_eachx (values_order (old_values u)) (fun item =>
        modify item.1 (fun _ => (item.2, None)));
  _ ← for_eachx (ids_order (new_ids u)) remove;
  _ ← for_eachx (next_order (old_index_next_ids u)) (fun item =>
        _ ← get_index item.1;
        modx (fun s => s <| db ::= fun d => set_next_id d item.1 item.2 |>));
  _ ← for_eachx (values_order (removed u)) (fun item => insert item.1 item.2);
  modx (fun s => s <| stack ::= tail |>).

Definition undo : stx (state V) unit :=
  d ← getx (disabled (V:=V)); _ ← assertx (negb d);
  n ← getx (active_sessions (V:=V)); _ ← assertx (0 <? n);
  _ ← disable;
  _ ← rollback_state;
  _ ← enable;
  modx (fun s => s <| active_sessions ::= fun n => u32 (n - 1) |>).

(** [merge]'s three loops over the newer state, into the older one. *)
Definition merge_old_value (prev : undo_state V) (item : oid * V) : undo_state V :=
  let '(id, v) := item in
  if decide (id ∈ new_ids prev) then prev
  else match old_values prev !! id with
       | Some _ => prev
       | None => prev <| old_values ::= <[id := v]> |>
       end.
Definition merge_next_id (prev : undo_state V) (item : ikey * Z) : undo_state V :=
  match old_index_next_ids prev !! item.1 with
  | None => prev <| old_index_next_ids ::= <[item.1 := item.2]> |>
  | Some _ => prev
  end.
Definition merge_removed (prev : undo_state V) (item : oid * V) : undo_state V :=
  let '(id, v) := item in
  if decide (id ∈ new_ids prev) then prev <| new_ids ::= fun n => n ∖ {[id]} |>
  else match old_values prev !! id with
       | Some w => prev <| removed ::= <[id := w]> |> <| old_values ::= delete id |>
       | None => prev <| removed ::= <[id := v]> |>
       end.

Definition merge_states (prev u : undo_state V) : undo_state V :=
  let prev := foldl merge_old_value prev (values_order (old_values u)) in
  let prev := foldl (fun p id => p <| new_ids ::= union {[id]} |>) prev (ids_order (new_ids u)) in
  let prev := foldl merge_next_id prev (next_order (old_index_next_ids u)) in
  foldl merge_removed prev (values_order (removed u)).

Definition merge : stx (state V) unit :=
  n ← getx (active_sessions (V:=V)); _ ← assertx (0 <? n);
  l ← getx (stack (V:=V));
  let dec := modx (fun s => s <| active_sessions ::= fun n => u32 (n - 1) |>) in
  if (n =? 1) && (length l =? 1)%nat then
    _ ← modx (fun s => s <| stack ::= tail |>); dec
  else
    match l with
    | u :: prev :: l =>
        _ ← modx (fun s => s <| stack := merge_states prev u :: l |>); dec
    | _ => throwx assert_exception
    end.

Definition commit : stx (state V) unit :=
  n ← getx (active_sessions (V:=V)); _ ← assertx (0 <? n);
  modx (fun s => s <| active_sessions ::= fun n => u32 (n - 1) |>).

Definition pop_commit : stx (state V) unit :=
  n ← getx (active_sessions (V:=V)); _ ← assertx (n =? 0);
  l ← getx (stack (V:=V)); _ ← assertx (negb (length l =? 0)%nat);
  _ ← disable;
  _ ← try_catch rollback_state (fun e => _ ← enable; throwx e);
  enable.

(** ** [undo_database::session] *)

Definition session_commit (x : session) : stx (state V) session :=
  _ ← commit; mret (Session false (disable_on_exit x)).
Definition session_undo (x : session) : stx (state V) session :=
  _ ← (if apply_undo x then undo else mret tt); mret (Session false (disable_on_exit x)).
Definition session_merge (x : session) : stx (state V) session :=
  _ ← (if apply_undo x then merge else mret tt); mret (Session false (disable_on_exit x)).

(** [~session]: a failed undo is logged. *)
Definition session_destroy (x : session) : stx (state V) unit := fun s =>
  match (if apply_undo x then undo s else (Ok tt, s)) with
  | (Ok _, s) => if disable_on_exit x then disable s else (Ok tt, s)
  | (Throw e, s) => if is_fc_exception e then (Ok tt, s) else (Throw e, s)
  end.

End Undo.
End UndoDatabase.
