(* ===== verification/UndoFacts.v ===== *)
(** * The undo database refines a stack of snapshots

    The lemmas and properties of [UndoDatabase]: what an undo state records
    about the tables, that rolling back restores them, that merging composes
    two undo states, and the simulation of a stack of full copies. *)

From S2P Require Import Prelude.
From S2P Require Import Uint128.
From S2P Require Import UndoDatabase.

Module UndoFacts.
Import UndoDatabase.

Section Facts.
Context {V : Type} {Order : HashOrder V} (conflict : ikey -> V -> V -> bool).
Implicit Types (s : state V) (u p q : undo_state V) (d : odb V) (k : ikey) (i : Z) (v : V) (id : oid).

(** ** Tables as functions of the id *)

Lemma odb_eq d d0 :
  (forall id, find d id = find d0 id) -> (forall k, next_of d k = next_of d0 k) -> d = d0.
Proof.
  intros Hf Hn. apply map_eq. intros k. specialize (Hn k). unfold next_of in Hn.
  destruct (d !! k) as [t|] eqn:E, (d0 !! k) as [t0|] eqn:E0; cbn in Hn; try done.
  f_equal. destruct t as [n t], t0 as [n0 t0]; cbn in Hn. f_equal; [congruence|].
  apply map_eq. intros i. specialize (Hf (k, i)). unfold find in Hf; cbn in Hf.
  rewrite E, E0 in Hf. done.
Qed.

Lemma find_registered d id v : find d id = Some v -> is_Some (next_of d id.1).
Proof. unfold find, next_of. destruct (d !! id.1); [eauto|done]. Qed.

Lemma find_set_object d id o id' : is_Some (next_of d id.1) ->
  find (set_object d id o) id' = if decide (id' = id) then o else find d id'.
Proof.
  intros [n Hn]. unfold find, set_object, next_of in *. destruct id as [k i], id' as [k' i']; cbn in *.
  destruct (decide (k' = k)) as [->|Hk].
  - rewrite lookup_alter_eq. destruct (d !! k) as [t|]; [|done]. cbn.
    destruct (decide (i' = i)) as [->|Hi].
    + rewrite lookup_partial_alter_eq, decide_True by done. done.
    + rewrite lookup_partial_alter_ne, decide_False by congruence. done.
  - rewrite lookup_alter_ne, decide_False by congruence. done.
Qed.

Lemma next_of_set_object d id o k : next_of (set_object d id o) k = next_of d k.
Proof.
  unfold next_of, set_object. destruct (decide (k = id.1)) as [->|].
  - rewrite lookup_alter_eq. by destruct (d !! id.1).
  - by rewrite lookup_alter_ne by congruence.
Qed.

Lemma find_set_next_id d k n id : find (set_next_id d k n) id = find d id.
Proof.
  unfold find, set_next_id. destruct (decide (id.1 = k)) as [<-|].
  - rewrite lookup_alter_eq. by destruct (d !! id.1).
  - by rewrite lookup_alter_ne by congruence.
Qed.

Lemma next_of_set_next_id d k n k' : is_Some (next_of d k) ->
  next_of (set_next_id d k n) k' = if decide (k' = k) then Some n else next_of d k'.
Proof.
  intros [m Hm]. unfold next_of, set_next_id in *. destruct (decide (k' = k)) as [->|].
  - rewrite lookup_alter_eq. by destruct (d !! k).
  - by rewrite lookup_alter_ne by congruence.
Qed.

(** No object of [d] other than [id] has a unique key of [v]. *)
Definition fits d id v : Prop :=
  forall w j, j <> id.2 -> find d (id.1, j) = Some w -> conflict id.1 v w = false.

Lemma unique_ok_spec d id v t : d !! id.1 = Some t ->
  unique_ok conflict id.1 id.2 v (indices t) = true <-> fits d id v.
Proof.
  intros Ht. unfold unique_ok, fits, find. rewrite bool_decide_eq_true. cbn.
  rewrite Ht. cbn. unfold map_Forall. split.
  - intros H w j Hj Hw. destruct (H j w Hw); [done|done].
  - intros H j w Hw. destruct (decide (j = id.2)); [by left|right]. by apply (H w j).
Qed.

(** ** What the table operations do, without undo *)

Definition plain_create k (constructor : Z -> result V) d : result (oid * odb V) :=
  n ← of_option assert_exception (next_of d k);
  v ← constructor n;
  if bool_decide (find d (k, n) = None) && unique_ok conflict k n v (default ∅ (indices <$> d !! k))
  then Ok ((k, n), set_next_id (set_object d (k, n) (Some v)) k (n + 1))
  else Throw assert_exception.

Definition plain_modify id (m : V -> V * option exn) d : result unit * odb V :=
  match find d id with
  | None => (Throw assert_exception, d)
  | Some v =>
      let '(w, exc) := m v in
      let ok := unique_ok conflict id.1 id.2 w (default ∅ (indices <$> d !! id.1)) in
      (match exc with Some e => Throw e | None => fc_assert ok end,
       set_object d id (if ok then Some w else None))
  end.

Lemma touch_db f s : db (touch f s) = db s.
Proof. unfold touch. destruct (disabled s), (stack s); done. Qed.

Lemma touch_set_db f s d : touch f s <| db := d |> = touch f (s <| db := d |>).
Proof. unfold touch. cbn. by destruct (disabled s), (stack s). Qed.

Lemma set_db_id s : s <| db := db s |> = s.
Proof. by destruct s. Qed.

Lemma create_run k c s :
  create conflict k c s =
  match plain_create k c (db s) with
  | Ok (id, d) => (Ok id, on_create id (s <| db := d |>))
  | Throw e => (Throw e, s)
  end.
Proof.
  unfold create, plain_create, get_index, insert, next_of, find, mbind, stx_bind, mret, stx_ret,
    get_index, modx, liftx, assertx, result_bind, of_option.
  destruct (db s !! k) as [t|] eqn:Et; cbn [fst snd fmap option_fmap option_map]; [|done].
  destruct (c (next_id t)) as [v|e]; [|done]. cbn. rewrite Et. cbn.
  destruct (bool_decide _ && _); done.
Qed.

Lemma modify_run id m s :
  modify conflict id m s =
  match find (db s) id with
  | None => (Throw assert_exception, s)
  | Some v => let '(r, d) := plain_modify id m (db s) in (r, on_modify id v s <| db := d |>)
  end.
Proof.
  unfold modify, plain_modify, get_object, get_index, find, mbind, stx_bind, mret, stx_ret,
    modx, liftx, assertx, throwx, of_option, on_modify.
  destruct (db s !! id.1) as [t|] eqn:Et; cbn [option_bind]; [|done].
  destruct (indices t !! id.2) as [v|]; [|done].
  destruct (m v) as [w exc] eqn:Em. rewrite touch_db, Et. cbn [default fmap option_fmap option_map].
  destruct exc; cbn; f_equal; unfold setter; cbn; by rewrite touch_db.
Qed.

Lemma remove_run id s :
  remove id s =
  match find (db s) id with
  | None => (Throw assert_exception, s)
  | Some v => (Ok tt, on_remove id v s <| db := set_object (db s) id None |>)
  end.
Proof.
  unfold remove, get_object, get_index, find, mbind, stx_bind, modx, liftx, of_option, on_remove.
  destruct (db s !! id.1) as [t|] eqn:Et; cbn [option_bind]; [|done].
  destruct (indices t !! id.2) as [v|]; [|done].
  f_equal. unfold setter; cbn. by rewrite touch_db.
Qed.

Lemma insert_run id v s :
  insert conflict id v s =
  match next_of (db s) id.1 with
  | None => (Throw assert_exception, s)
  | Some _ =>
      if bool_decide (find (db s) id = None)
         && unique_ok conflict id.1 id.2 v (default ∅ (indices <$> db s !! id.1))
      then (Ok tt, s <| db := set_object (db s) id (Some v) |>) else (Throw assert_exception, s)
  end.
Proof.
  unfold insert, get_index, find, next_of, mbind, stx_bind, modx, assertx, of_option.
  destruct (db s !! id.1) as [t|] eqn:Et; cbn; [|done]. destruct (bool_decide _ && _); done.
Qed.

Lemma default_indices d k t : d !! k = Some t -> default ∅ (indices <$> d !! k) = indices t.
Proof. by intros ->. Qed.

Lemma registered_table d k : is_Some (next_of d k) -> exists t, d !! k = Some t.
Proof. unfold next_of. intros [n Hn]. destruct (d !! k); eauto. done. Qed.

Lemma unique_ok_fits d id v : is_Some (next_of d id.1) -> fits d id v ->
  unique_ok conflict id.1 id.2 v (default ∅ (indices <$> d !! id.1)) = true.
Proof.
  intros [t Ht]%registered_table Hf. rewrite (default_indices _ _ _ Ht).
  by apply (unique_ok_spec d).
Qed.

(** ** What an undo state records *)

(** How [u] accounts for one id between the tables [d0] then and [d] now. *)
Definition accounts (new : bool) (old gone : option V) (before now : option V) : Prop :=
  match new, old, gone with
  | true, None, None => before = None /\ is_Some now
  | false, Some v, None => before = Some v /\ is_Some now
  | false, None, Some v => before = Some v /\ now = None
  | false, None, None => now = before
  | _, _, _ => False
  end.

Definition tracks u d d0 : Prop :=
  (forall id, accounts (bool_decide (id ∈ new_ids u)) (old_values u !! id) (removed u !! id)
                (find d0 id) (find d id)) /\
  (forall k, match old_index_next_ids u !! k with
             | Some n => next_of d0 k = Some n /\ is_Some (next_of d k)
             | None => next_of d k = next_of d0 k
             end) /\
  (forall id, id ∈ new_ids u -> exists n, next_of d0 id.1 = Some n /\ n <= id.2).

(** Instances are below the next id, and next ids only grow. *)
Definition wf d : Prop :=
  forall id v, find d id = Some v -> exists n, next_of d id.1 = Some n /\ id.2 < n.
Definition grows d0 d : Prop :=
  forall k, match next_of d0 k, next_of d k with
            | Some n, Some n' => n <= n' | None, None => True | _, _ => False end.

(** ** The hooks keep the record *)

Lemma tracks_create u d d0 id v :
  tracks u d d0 -> wf d0 -> grows d0 d -> next_of d id.1 = Some id.2 -> find d id = None ->
  tracks (note_create id u) (set_next_id (set_object d id (Some v)) id.1 (id.2 + 1)) d0.
Proof.
  intros (Ht & Hn & Hnw) Hwf Hg Hk Hnew.
  assert (is_Some (next_of d id.1)) as Hreg by eauto.
  split; [|split].
  - intros id'. specialize (Ht id'). rewrite find_set_next_id, find_set_object by done.
    assert (new_ids (note_create id u) = {[id]} ∪ new_ids u /\
      old_values (note_create id u) = old_values u /\
      removed (note_create id u) = removed u) as (-> & -> & ->).
    { unfold note_create. by destruct (old_index_next_ids u !! _). }
    destruct (decide (id' = id)) as [->|Hne].
    + rewrite bool_decide_eq_true_2 by set_solver. rewrite Hnew in Ht. unfold accounts in *.
      destruct (bool_decide (id ∈ new_ids u)), (old_values u !! id), (removed u !! id);
        try done; try (by destruct Ht as [_ []]).
      destruct Ht as [Hb _]. destruct (Hwf _ _ Hb) as (m & Hm & Hlt).
      specialize (Hg id.1). rewrite Hm, Hk in Hg. lia.
    + rewrite (bool_decide_ext _ (id' ∈ new_ids u)) by set_solver. done.
  - intros k'. specialize (Hn k'). rewrite next_of_set_next_id by (by rewrite next_of_set_object).
    rewrite next_of_set_object. unfold note_create.
    destruct (decide (k' = id.1)) as [->|].
    + destruct (old_index_next_ids u !! id.1) as [m|] eqn:E; cbn.
      * rewrite E. split; [tauto|eauto].
      * rewrite lookup_insert_eq. split; [congruence|eauto].
    + destruct (old_index_next_ids u !! id.1) as [m|] eqn:E; cbn; [done|].
      by rewrite lookup_insert_ne by congruence.
  - intros id' Hin. assert (id' = id \/ id' ∈ new_ids u) as [->|Hin'].
    { unfold note_create in Hin. destruct (old_index_next_ids u !! id.1); set_solver. }
    + specialize (Hg id.1). rewrite Hk in Hg. destruct (next_of d0 id.1); [eauto|done].
    + by apply Hnw.
Qed.

Lemma tracks_modify u d d0 id v w :
  tracks u d d0 -> find d id = Some v -> tracks (note_modify id v u) (set_object d id (Some w)) d0.
Proof.
  intros (Ht & Hn & Hnw) Hv. pose proof (find_registered _ _ _ Hv) as Hreg. split; [|split].
  - intros id'. specialize (Ht id'). rewrite find_set_object by done.
    unfold note_modify, accounts in *. destruct (decide (id' = id)) as [->|Hne].
    + rewrite Hv in Ht. destruct (decide (id ∈ new_ids u)) as [Hin|Hin].
      * rewrite bool_decide_eq_true_2 in Ht |- * by done.
        destruct (old_values u !! id), (removed u !! id); try done. split; [tauto|eauto].
      * destruct (old_values u !! id) eqn:E.
        -- rewrite E. rewrite bool_decide_eq_false_2 in Ht |- * by done.
           destruct (removed u !! id); try done. split; [tauto|eauto].
        -- cbn. rewrite bool_decide_eq_false_2 in Ht |- * by done. rewrite lookup_insert_eq.
           destruct (removed u !! id); [by destruct Ht|]. split; [done|eauto].
    + destruct (decide (id ∈ new_ids u)), (old_values u !! id); cbn; try done.
      by rewrite lookup_insert_ne by congruence.
  - intros k'. specialize (Hn k'). rewrite next_of_set_object. unfold note_modify.
    destruct (decide (id ∈ new_ids u)), (old_values u !! id); done.
  - intros id' Hin. apply Hnw. unfold note_modify in Hin.
    destruct (decide (id ∈ new_ids u)), (old_values u !! id); done.
Qed.

Lemma tracks_remove u d d0 id v :
  tracks u d d0 -> find d id = Some v -> tracks (note_remove id v u) (set_object d id None) d0.
Proof.
  intros (Ht & Hn & Hnw) Hv. pose proof (find_registered _ _ _ Hv) as Hreg. split; [|split].
  - intros id'. specialize (Ht id'). rewrite find_set_object by done.
    unfold note_remove, accounts in *. destruct (decide (id' = id)) as [->|Hne].
    + rewrite Hv in Ht. destruct (decide (id ∈ new_ids u)) as [Hin|Hin].
      * cbn. rewrite bool_decide_eq_true_2 in Ht by done.
        rewrite bool_decide_eq_false_2 by set_solver.
        destruct (old_values u !! id), (removed u !! id); try done. by destruct Ht.
      * rewrite bool_decide_eq_false_2 in Ht by done.
        destruct (old_values u !! id) eqn:E; [|destruct (removed u !! id) eqn:E'; [by destruct Ht|]]; cbn.
        -- rewrite bool_decide_eq_false_2, lookup_delete_eq, lookup_insert_eq by done.
           destruct (removed u !! id); [done|]. split; [tauto|done].
        -- rewrite bool_decide_eq_false_2, lookup_insert_eq, E by done. done.
    + destruct (decide (id ∈ new_ids u)); cbn.
      * rewrite (bool_decide_ext (id' ∈ new_ids u ∖ {[id]}) (id' ∈ new_ids u)) by set_solver. done.
      * destruct (old_values u !! id), (removed u !! id); cbn;
          by rewrite ?lookup_insert_ne, ?lookup_delete_ne by congruence.
  - intros k'. specialize (Hn k'). rewrite next_of_set_object. unfold note_remove.
    destruct (decide (id ∈ new_ids u)), (old_values u !! id), (removed u !! id); done.
  - intros id' Hin. apply Hnw. unfold note_remove in Hin.
    destruct (decide (id ∈ new_ids u)); [set_solver|].
    destruct (old_values u !! id), (removed u !! id); done.
Qed.

Lemma tracks_empty d : tracks empty_state d d.
Proof.
  split; [|split]; cbn; [intros id|intros k|set_solver];
    by rewrite ?lookup_empty, ?bool_decide_eq_false_2 by set_solver.
Qed.

(** ** Rolling back *)

(** Every object of [c] is one of [d] or [d0]. *)
Definition mix d d0 (c : odb V) : Prop :=
  (forall id, find c id = find d id \/ find c id = find d0 id) /\
  (forall k, is_Some (next_of c k) <-> is_Some (next_of d0 k)).

(** No object of [d] or [d0] has a unique key of another object of [d] or [d0]. *)
Definition compatible d d0 : Prop :=
  forall id v, find d id = Some v \/ find d0 id = Some v -> fits d id v /\ fits d0 id v.

Lemma mix_fits d d0 c id v : compatible d d0 -> mix d d0 c ->
  find d0 id = Some v -> fits c id v.
Proof.
  intros Hc [Hm _] Hv w j Hj Hw. destruct (Hc id v (or_intror Hv)) as [H1 H2].
  destruct (Hm (id.1, j)) as [E|E]; rewrite Hw in E; [by apply (H1 w j)|by apply (H2 w j)].
Qed.

Lemma mix_set d d0 c id : mix d d0 c -> is_Some (next_of c id.1) ->
  mix d d0 (set_object c id (find d0 id)).
Proof.
  intros [Hm Hr] Hreg. split.
  - intros id'. rewrite find_set_object by done. destruct (decide (id' = id)) as [->|]; auto.
  - intros k. by rewrite next_of_set_object.
Qed.

Lemma mix_registered d d0 c id : mix d d0 c -> find d id <> None \/ find d0 id <> None ->
  (forall k, is_Some (next_of d k) <-> is_Some (next_of d0 k)) -> is_Some (next_of c id.1).
Proof.
  intros [_ Hr] H Hdom. apply Hr.
  destruct H as [H|H]; destruct (find _ id) eqn:E in H; try done;
    [apply Hdom|]; by eapply find_registered.
Qed.

(** One of [rollback_state]'s loops over objects: each iteration gives the
    object [key x] the value it had. *)
Lemma restore_loop {A} (key : A -> oid) (f : A -> stx (state V) unit) (L : list A) d d0 start :
  NoDup (key <$> L) ->
  (forall x s, x ∈ L -> disabled s = true -> mix d d0 (db s) -> find (db s) (key x) = find start (key x) ->
     is_Some (next_of (db s) (key x).1) /\
     f x s = (Ok tt, s <| db := set_object (db s) (key x) (find d0 (key x)) |>)) ->
  forall s, disabled s = true -> mix d d0 (db s) ->
  (forall x, x ∈ L -> find (db s) (key x) = find start (key x)) ->
  exists d', for_eachx L f s = (Ok tt, s <| db := d' |>) /\ mix d d0 d' /\
    (forall k, next_of d' k = next_of (db s) k) /\
    (forall id, (id ∈ key <$> L -> find d' id = find d0 id) /\
                (id ∉ key <$> L -> find d' id = find (db s) id)).
Proof.
  induction L as [|x L IH]; intros Hnd Hf s Hs Hm Hst; cbn [for_eachx].
  { exists (db s). rewrite set_db_id. split_and!; try done. set_solver. }
  rewrite fmap_cons in Hnd. apply NoDup_cons in Hnd as [Hx Hnd].
  destruct (Hf x s ltac:(set_solver) Hs Hm ltac:(apply Hst; set_solver)) as [Hreg Hrun].
  unfold mbind, stx_bind. rewrite Hrun.
  set (s1 := s <| db := set_object (db s) (key x) (find d0 (key x)) |>).
  assert (db s1 = set_object (db s) (key x) (find d0 (key x))) as Hdb by done.
  destruct (IH Hnd ltac:(intros; apply Hf; set_solver) s1) as (d' & E & Hm' & Hn' & Hd').
  - done.
  - rewrite Hdb. by apply mix_set.
  - intros y Hy. rewrite Hdb, find_set_object by done. rewrite decide_False; [apply Hst; set_solver|].
    intros Heq. apply Hx. apply list_elem_of_fmap. eauto.
  - rewrite E. exists d'. split_and!; [done|done|..].
    + intros k. by rewrite Hn', Hdb, next_of_set_object.
    + intros id. destruct (Hd' id) as [H1 H2]. rewrite fmap_cons, elem_of_cons. split.
      * intros [->|Hin]; [|by apply H1].
        rewrite H2 by done. by rewrite Hdb, find_set_object, decide_True by done.
      * intros Hni. rewrite H2 by tauto.
        rewrite Hdb, find_set_object, decide_False by (try done; tauto). done.
Qed.

Lemma values_in (m : gmap oid V) x : x ∈ values_order m <-> m !! x.1 = Some x.2.
Proof.
  rewrite (values_order_ok m). destruct x as [id v]. apply elem_of_map_to_list.
Qed.

Lemma values_keys (m : gmap oid V) id : id ∈ fst <$> values_order m <-> is_Some (m !! id).
Proof.
  rewrite list_elem_of_fmap. split.
  - intros ([id' v] & -> & Hin). apply values_in in Hin. eauto.
  - intros [v Hv]. exists (id, v). by rewrite values_in.
Qed.

Lemma values_nodup (m : gmap oid V) : NoDup (fst <$> values_order m).
Proof. rewrite (values_order_ok m). apply NoDup_fst_map_to_list. Qed.

Lemma ids_in (n : gset oid) id : id ∈ ids_order n <-> id ∈ n.
Proof. rewrite (ids_order_ok n). apply elem_of_elements. Qed.

Lemma ids_nodup (n : gset oid) : NoDup (ids_order n).
Proof. rewrite (ids_order_ok n). apply NoDup_elements. Qed.

Lemma next_in (m : gmap ikey Z) x : x ∈ next_order m <-> m !! x.1 = Some x.2.
Proof.
  rewrite (next_order_ok m). destruct x as [id v]. apply elem_of_map_to_list.
Qed.

Lemma tracks_registered u d d0 k : tracks u d d0 -> is_Some (next_of d k) <-> is_Some (next_of d0 k).
Proof.
  intros (_ & Hn & _). specialize (Hn k). destruct (old_index_next_ids u !! k).
  - destruct Hn as [-> [? ->]]. split; eauto.
  - by rewrite Hn.
Qed.

Lemma restore_next (L : list (ikey * Z)) d0 s :
  (forall x, x ∈ L -> is_Some (next_of (db s) x.1) /\ next_of d0 x.1 = Some x.2) ->
  exists d', for_eachx L (fun item =>
      _ ← get_index item.1; modx (fun s => s <| db ::= fun d => set_next_id d item.1 item.2 |>)) s
    = (Ok tt, s <| db := d' |>) /\
    (forall id, find d' id = find (db s) id) /\
    (forall k, (k ∈ fst <$> L -> next_of d' k = next_of d0 k) /\
               (k ∉ fst <$> L -> next_of d' k = next_of (db s) k)).
Proof.
  revert s. induction L as [|[k n] L IH]; intros s HL; cbn [for_eachx].
  { exists (db s). rewrite set_db_id. split_and!; try done. split; [set_solver|done]. }
  destruct (HL (k, n) ltac:(set_solver)) as [Hreg Hk]. cbn [fst snd] in *.
  set (s1 := s <| db ::= fun d => set_next_id d k n |>).
  rewrite (bindx_Ok _ _ s tt s1) by (unfold mbind, stx_bind, get_index, modx;
    destruct (registered_table _ _ Hreg) as [t Ht]; cbn; by rewrite Ht).
  assert (db s1 = set_next_id (db s) k n) as Hdb by done.
  destruct (IH s1) as (d' & E & Hf & Hn).
  { intros x Hx. destruct (HL x ltac:(set_solver)) as [H1 H2]. split; [|done].
    rewrite Hdb, next_of_set_next_id by done. destruct (decide _); eauto. }
  rewrite E. exists d'. split; [done|]. split.
  - intros id. by rewrite Hf, Hdb, find_set_next_id.
  - intros k'. destruct (Hn k') as [H1 H2]. rewrite fmap_cons, elem_of_cons. cbn [fst].
    destruct (decide (k' ∈ fst <$> L)) as [Hin|Hin].
    + split; [by intros _; apply H1|tauto].
    + rewrite H2, Hdb, next_of_set_next_id by done.
      destruct (decide (k' = k)) as [->|]; split; [done|tauto|tauto|done].
Qed.

Lemma touch_disabled f s : disabled s = true -> touch f s = s.
Proof. unfold touch. by intros ->. Qed.

Lemma rollback_ok s u l d0 :
  stack s = u :: l -> disabled s = true -> tracks u (db s) d0 -> compatible (db s) d0 ->
  rollback_state conflict s = (Ok tt, s <| db := d0 |> <| stack := l |>).
Proof.
  intros Hl Hdis Ht Hc. pose proof (fun k => tracks_registered _ _ _ k Ht) as Hdom.
  destruct Ht as (Hacc & Hnext & _). set (d := db s) in *.
  assert (Hmix : mix d d0 d) by (split; auto).
  unfold rollback_state. rewrite (bindx_Ok _ _ s (stack s) s) by done.
  rewrite (bindx_Ok _ _ s u s) by (by rewrite Hl).
  (* the modified objects *)
  destruct (restore_loop fst (fun item => modify conflict item.1 (fun _ => (item.2, None)))
    (values_order (old_values u)) d d0 d (values_nodup _)) with (s := s)
    as (d1 & E1 & M1 & N1 & F1); [|done|done|done|].
  { intros [id v] s' Hin Hs' Hm Hst. apply values_in in Hin. cbn [fst snd] in *.
    specialize (Hacc id). unfold accounts in Hacc. rewrite Hin in Hacc.
    destruct (bool_decide (id ∈ new_ids u)), (removed u !! id); try done.
    destruct Hacc as [Hv [w Hw]].
    assert (is_Some (next_of (db s') id.1)) as Hreg.
    { apply (mix_registered d d0); auto. by rewrite Hv; right. }
    split; [done|]. rewrite modify_run, Hst, Hw. unfold plain_modify. rewrite Hst, Hw.
    rewrite unique_ok_fits by (done || by apply (mix_fits d d0)).
    unfold on_modify. rewrite touch_disabled, Hv by done. done. }
  rewrite (bindx_Ok _ _ _ _ _ E1).
  (* the new objects *)
  destruct (restore_loop (fun id => id) remove (ids_order (new_ids u)) d d0 d1)
    with (s := s <| db := d1 |>) as (d2 & E2 & M2 & N2 & F2).
  { rewrite list_fmap_id. apply ids_nodup. }
  { intros id s' Hin Hs' Hm Hst. apply ids_in in Hin.
    specialize (Hacc id). unfold accounts in Hacc. rewrite bool_decide_eq_true_2 in Hacc by done.
    destruct (old_values u !! id) eqn:Eo, (removed u !! id); try done.
    destruct Hacc as [Hv [w Hw]].
    assert (find d1 id = Some w) as Hw1.
    { rewrite (proj2 (F1 id)); [done|]. rewrite values_keys, Eo. by intros []. }
    split; [rewrite Hw1 in Hst; by eapply find_registered|].
    rewrite remove_run, Hst, Hw1, Hv. unfold on_remove. by rewrite touch_disabled. }
  { done. } { done. } { done. }
  rewrite (bindx_Ok _ _ _ _ _ E2). rewrite list_fmap_id in F2.
  (* the next ids *)
  destruct (restore_next (next_order (old_index_next_ids u)) d0 (s <| db := d2 |>))
    as (d3 & E3 & F3 & N3).
  { intros [k n] Hin. apply next_in in Hin. specialize (Hnext k). cbn [fst snd] in *.
    rewrite Hin in Hnext. split; [|tauto]. cbn. apply M2. rewrite (proj1 Hnext). eauto. }
  rewrite (bindx_Ok _ _ _ _ _ E3).
  assert (Hkeys : forall k, k ∈ fst <$> next_order (old_index_next_ids u) <->
    is_Some (old_index_next_ids u !! k)).
  { intros k. rewrite list_elem_of_fmap. split.
    - intros ([k' n] & -> & Hin). apply next_in in Hin. eauto.
    - intros [n Hn]. exists (k, n). by rewrite next_in. }
  assert (Hn3 : forall k, next_of d3 k = next_of d0 k).
  { intros k. specialize (Hnext k). destruct (N3 k) as [H1 H2].
    destruct (old_index_next_ids u !! k) eqn:En.
    - apply H1. rewrite Hkeys, En. eauto.
    - rewrite H2 by (rewrite Hkeys, En; by intros []). cbn. by rewrite N2, N1. }
  assert (M3 : mix d d0 d3).
  { destruct M2 as [M2 _]. split; [intros id; rewrite F3; apply M2|]. intros k. by rewrite Hn3. }
  (* the removed objects *)
  destruct (restore_loop fst (fun item => insert conflict item.1 item.2)
    (values_order (removed u)) d d0 d3 (values_nodup _)) with (s := s <| db := d3 |>)
    as (d4 & E4 & M4 & N4 & F4); [|done|done|done|].
  { intros [id v] s' Hin Hs' Hm Hst. apply values_in in Hin. cbn [fst snd] in *.
    specialize (Hacc id). unfold accounts in Hacc. rewrite Hin in Hacc.
    destruct (bool_decide (id ∈ new_ids u)) eqn:Enew, (old_values u !! id) eqn:Eo; try done.
    destruct Hacc as [Hv Hw]. apply bool_decide_eq_false in Enew.
    assert (find (db s') id = None) as Hgone.
    { rewrite Hst, F3. cbn. rewrite (proj2 (F2 id)) by (by rewrite ids_in). cbn.
      rewrite (proj2 (F1 id)); [done|]. rewrite values_keys, Eo. by intros []. }
    assert (is_Some (next_of (db s') id.1)) as Hreg.
    { apply (mix_registered d d0); auto. by rewrite Hv; right. }
    split; [done|]. rewrite insert_run. destruct Hreg as [n Hn]. rewrite Hn, Hgone, Hv.
    rewrite unique_ok_fits by (eauto || by apply (mix_fits d d0)). done. }
  rewrite (bindx_Ok _ _ _ _ _ E4). unfold modx, setter; cbn. rewrite Hl. cbn [tail].
  assert (d4 = d0) as ->; [|done].
  apply odb_eq; [|intros k; by rewrite N4].
  intros id. specialize (Hacc id). unfold accounts in Hacc.
  destruct (F1 id) as [G1 G1'], (F2 id) as [G2 G2'], (F4 id) as [G4 G4'].
  rewrite values_keys in G1, G1', G4, G4'. rewrite ids_in in G2, G2'.
  destruct (removed u !! id) eqn:Er; [apply G4; eauto|].
  rewrite G4' by (by intros []). cbn. rewrite F3. cbn.
  destruct (decide (id ∈ new_ids u)) as [Hi|Hi]; [by apply G2|]. rewrite G2' by done. cbn.
  destruct (old_values u !! id) eqn:Eo; [apply G1; eauto|]. rewrite G1' by (by intros []).
  rewrite bool_decide_eq_false_2 in Hacc by done. done.
Qed.

(** ** Merging *)

(** What a state says about one id. *)
Definition entry : Type := bool * option V * option V.
Definition entry_of u id : entry := (bool_decide (id ∈ new_ids u), old_values u !! id, removed u !! id).

(** A fold over distinct ids, each step changing the entry of its own id. *)
Lemma foldl_local {A} (key : A -> oid) (h : undo_state V -> A -> undo_state V) (g : A -> entry -> entry) :
  (forall p x id, entry_of (h p x) id = if decide (id = key x) then g x (entry_of p id) else entry_of p id) ->
  forall L p id, NoDup (key <$> L) ->
  (forall x, x ∈ L -> key x = id -> entry_of (foldl h p L) id = g x (entry_of p id)) /\
  (id ∉ key <$> L -> entry_of (foldl h p L) id = entry_of p id).
Proof.
  intros Hloc L. induction L as [|x L IH]; intros p id Hnd; cbn [foldl].
  { split; [set_solver|done]. }
  rewrite fmap_cons in Hnd |- *. apply NoDup_cons in Hnd as [Hx Hnd].
  destruct (IH (h p x) id Hnd) as [IH1 IH2]. specialize (Hloc p x id). split.
  - intros y Hy <-. apply elem_of_cons in Hy as [->|Hy].
    + rewrite IH2 by done. by rewrite Hloc, decide_True.
    + rewrite (IH1 y) by done. rewrite Hloc, decide_False; [done|].
      intros Heq. apply Hx. rewrite <- Heq. apply list_elem_of_fmap. eauto.
  - rewrite elem_of_cons. intros Hn. rewrite IH2 by tauto. rewrite Hloc, decide_False; tauto.
Qed.

Lemma foldl_values (h : undo_state V -> oid * V -> undo_state V) (g : V -> entry -> entry) p m id :
  (forall p x id, entry_of (h p x) id = if decide (id = x.1) then g x.2 (entry_of p id) else entry_of p id) ->
  entry_of (foldl h p (values_order m)) id =
  match m !! id with Some v => g v (entry_of p id) | None => entry_of p id end.
Proof.
  intros Hloc. destruct (foldl_local fst h (fun x => g x.2) Hloc (values_order m) p id (values_nodup m)) as [H1 H2].
  destruct (m !! id) as [v|] eqn:E.
  - apply (H1 (id, v)); [by apply values_in|done].
  - apply H2. rewrite values_keys, E. by intros [].
Qed.

Lemma entry_merge_old p x id :
  entry_of (merge_old_value p x) id =
  if decide (id = x.1) then
    match entry_of p id with (false, None, gone) => (false, Some x.2, gone) | e => e end
  else entry_of p id.
Proof.
  destruct x as [id' v]. unfold merge_old_value, entry_of. cbn [fst snd].
  destruct (decide (id = id')) as [->|Hne].
  - destruct (decide (id' ∈ new_ids p)) as [Hi|Hi].
    + by rewrite bool_decide_eq_true_2 by done.
    + destruct (old_values p !! id') eqn:E; cbn; rewrite bool_decide_eq_false_2 by done.
      * by rewrite E.
      * by rewrite lookup_insert_eq.
  - destruct (decide (id' ∈ new_ids p)); [done|]. destruct (old_values p !! id'); cbn; [done|].
    by rewrite lookup_insert_ne by congruence.
Qed.

Lemma entry_merge_removed p x id :
  entry_of (merge_removed p x) id =
  if decide (id = x.1) then
    match entry_of p id with
    | (true, old, gone) => (false, old, gone)
    | (false, Some w, _) => (false, None, Some w)
    | (false, None, _) => (false, None, Some x.2)
    end
  else entry_of p id.
Proof.
  destruct x as [id' v]. unfold merge_removed, entry_of. cbn [fst snd].
  destruct (decide (id = id')) as [->|Hne].
  - destruct (decide (id' ∈ new_ids p)) as [Hi|Hi]; cbn.
    + rewrite (bool_decide_eq_true_2 (id' ∈ new_ids p)) by done.
      by rewrite bool_decide_eq_false_2 by set_solver.
    + destruct (old_values p !! id') eqn:E; cbn; rewrite bool_decide_eq_false_2 by done.
      * by rewrite lookup_delete_eq, lookup_insert_eq.
      * by rewrite lookup_insert_eq, E.
  - destruct (decide (id' ∈ new_ids p)); cbn.
    + by rewrite (bool_decide_ext (id ∈ new_ids p ∖ {[id']}) (id ∈ new_ids p)) by set_solver.
    + destruct (old_values p !! id'); cbn;
        by rewrite ?lookup_insert_ne, ?lookup_delete_ne by congruence.
Qed.

Lemma entry_add_new p id0 id :
  entry_of (p <| new_ids ::= union {[id0]} |>) id =
  if decide (id = id0) then (true, old_values p !! id, removed p !! id) else entry_of p id.
Proof.
  unfold entry_of. cbn. destruct (decide (id = id0)) as [->|].
  - by rewrite bool_decide_eq_true_2 by set_solver.
  - by rewrite (bool_decide_ext (id ∈ {[id0]} ∪ new_ids p) (id ∈ new_ids p)) by set_solver.
Qed.

Lemma foldl_next_entry L p id : entry_of (foldl merge_next_id p L) id = entry_of p id.
Proof.
  revert p. induction L as [|x L IH]; intros p; cbn; [done|]. rewrite IH. unfold merge_next_id.
  by destruct (old_index_next_ids p !! x.1).
Qed.

(** The entry of the merged state, from the entries of the two. *)
Definition merge_entry (a b : entry) : entry :=
  let '(na, oa, ga) := a in
  let '(nb, ob, gb) := b in
  let '(n, o, g) :=
    match ob with
    | Some v => match na, oa with false, None => (false, Some v, ga) | _, _ => a end
    | None => a
    end in
  let '(n, o, g) := if nb then (true, o, g) else (n, o, g) in
  match gb with
  | None => (n, o, g)
  | Some v => if n then (false, o, g) else match o with Some w => (false, None, Some w) | None => (false, None, Some v) end
  end.

Lemma merge_states_entry p u id :
  entry_of (merge_states p u) id = merge_entry (entry_of p id) (entry_of u id).
Proof.
  unfold merge_states.
  rewrite (foldl_values _ (fun v e => match e with
    | (true, old, gone) => (false, old, gone)
    | (false, Some w, _) => (false, None, Some w)
    | (false, None, _) => (false, None, Some v) end)) by (intros; apply entry_merge_removed).
  rewrite foldl_next_entry.
  set (p1 := foldl merge_old_value p (values_order (old_values u))).
  assert (entry_of (foldl (fun p id => p <| new_ids ::= union {[id]} |>) p1 (ids_order (new_ids u))) id
    = if bool_decide (id ∈ new_ids u) then (true, old_values p1 !! id, removed p1 !! id) else entry_of p1 id) as ->.
  { destruct (foldl_local (fun id => id) (fun p id => p <| new_ids ::= union {[id]} |>)
      (fun _ e => (true, e.1.2, e.2))) with (L := ids_order (new_ids u)) (p := p1) (id := id) as [H1 H2].
    - intros. rewrite entry_add_new. by destruct (decide _).
    - rewrite list_fmap_id. apply ids_nodup.
    - rewrite list_fmap_id in H2. case_bool_decide as Hi.
      + rewrite (H1 id) by (done || by apply ids_in). done.
      + apply H2. by rewrite ids_in. }
  pose proof (foldl_values merge_old_value (fun v e => match e with
    | (false, None, gone) => (false, Some v, gone) | e => e end) p (old_values u) id) as Hp1.
  lapply Hp1; clear Hp1; [intros Hp1; fold p1 in Hp1|intros; rewrite entry_merge_old;
    by destruct (entry_of _ _) as [[[] []] ?]].
  unfold merge_entry, entry_of in *.
  destruct (bool_decide (id ∈ new_ids p)), (old_values p !! id), (old_values u !! id);
    injection Hp1 as -> -> ->;
    by destruct (bool_decide (id ∈ new_ids u)), (removed u !! id).
Qed.

Lemma merge_next_fold L p k : NoDup (fst <$> L) ->
  (forall n, old_index_next_ids p !! k = Some n -> old_index_next_ids (foldl merge_next_id p L) !! k = Some n) /\
  (forall n, old_index_next_ids p !! k = None -> (k, n) ∈ L ->
     old_index_next_ids (foldl merge_next_id p L) !! k = Some n) /\
  (k ∉ fst <$> L -> old_index_next_ids (foldl merge_next_id p L) !! k = old_index_next_ids p !! k).
Proof.
  revert p. induction L as [|[k' m] L IH]; intros p Hnd; cbn [foldl].
  { split_and!; [done|set_solver|done]. }
  rewrite fmap_cons in Hnd |- *. apply NoDup_cons in Hnd as [Hx Hnd]. cbn [fst] in *.
  destruct (IH (merge_next_id p (k', m)) Hnd) as (IH1 & IH2 & IH3).
  assert (Hstep : old_index_next_ids (merge_next_id p (k', m)) !! k =
    match old_index_next_ids p !! k with
    | Some n => Some n | None => if decide (k = k') then Some m else None end).
  { unfold merge_next_id. cbn [fst snd]. destruct (decide (k = k')) as [->|].
    - destruct (old_index_next_ids p !! k') eqn:E; cbn; [done|]. apply lookup_insert_eq.
    - destruct (old_index_next_ids p !! k'); cbn; [by destruct (old_index_next_ids p !! k)|].
      rewrite lookup_insert_ne by congruence. by destruct (old_index_next_ids p !! k). }
  split_and!.
  - intros n Hn. apply IH1. by rewrite Hstep, Hn.
  - intros n Hn Hin. rewrite Hn in Hstep. destruct (decide (k = k')) as [->|].
    + apply elem_of_cons in Hin as [[= ->]|Hin]; [by apply IH1|].
      destruct Hx. apply list_elem_of_fmap. by exists (k', n).
    + apply IH2; [done|]. apply elem_of_cons in Hin as [[=]|]; done.
  - rewrite elem_of_cons. intros Hn. rewrite IH3 by tauto. rewrite Hstep, decide_False by tauto.
    by destruct (old_index_next_ids p !! k).
Qed.

Lemma merge_next_order m p k :
  old_index_next_ids (foldl merge_next_id p (next_order m)) !! k =
  match old_index_next_ids p !! k with Some n => Some n | None => m !! k end.
Proof.
  destruct (merge_next_fold (next_order m) p k) as (H1 & H2 & H3).
  { rewrite (next_order_ok m). apply NoDup_fst_map_to_list. }
  destruct (old_index_next_ids p !! k) as [n|] eqn:E; [by apply H1|].
  destruct (m !! k) as [n|] eqn:Em; [by apply H2, next_in|].
  rewrite H3; [done|]. rewrite list_elem_of_fmap. intros ([k' n] & -> & Hin).
  apply next_in in Hin. cbn in *. congruence.
Qed.

Lemma foldl_keeps {A} {T : Type} (proj : undo_state V -> T) (h : undo_state V -> A -> undo_state V) :
  (forall p x, proj (h p x) = proj p) -> forall L p, proj (foldl h p L) = proj p.
Proof. intros Hh L. induction L as [|x L IH]; intros p; cbn; [done|]. by rewrite IH, Hh. Qed.

Lemma merge_states_next p u k :
  old_index_next_ids (merge_states p u) !! k =
  match old_index_next_ids p !! k with Some n => Some n | None => old_index_next_ids u !! k end.
Proof.
  unfold merge_states.
  rewrite (foldl_keeps old_index_next_ids merge_removed).
  2: { intros q [id v]. unfold merge_removed.
       by destruct (decide (id ∈ new_ids q)), (old_values q !! id). }
  rewrite merge_next_order.
  rewrite (foldl_keeps old_index_next_ids) by done.
  rewrite (foldl_keeps old_index_next_ids merge_old_value); [done|].
  intros q [id v]. unfold merge_old_value. by destruct (decide (id ∈ new_ids q)), (old_values q !! id).
Qed.

(** Two undo states compose: if [u1] takes the tables from [d1] back to [d0] and
    [u2] from [d2] back to [d1], the merged state takes them from [d2] to [d0]. *)
Lemma merge_accounts n1 o1 g1 n2 o2 g2 b0 b1 b2 n o g :
  accounts n1 o1 g1 b0 b1 -> accounts n2 o2 g2 b1 b2 -> (n2 = true -> b0 = None) ->
  merge_entry (n1, o1, g1) (n2, o2, g2) = (n, o, g) -> accounts n o g b0 b2.
Proof.
  unfold accounts, merge_entry. intros H1 H2 Hnew Hm.
  destruct n2, o2, g2; try done; destruct n1, o1, g1; try done;
    injection Hm as <- <- <-; unfold is_Some in *;
    repeat match goal with H : _ /\ _ |- _ => destruct H | H : exists _, _ |- _ => destruct H end;
    simplify_eq; split_and?; eauto; try congruence; try (by specialize (Hnew eq_refl)).
Qed.

Lemma tracks_merge u1 u2 d0 d1 d2 :
  tracks u1 d1 d0 -> tracks u2 d2 d1 -> wf d0 -> grows d0 d1 ->
  tracks (merge_states u1 u2) d2 d0.
Proof.
  intros (A1 & N1 & W1) (A2 & N2 & W2) Hwf Hg.
  assert (Hlow : forall id, id ∈ new_ids u2 -> exists n, next_of d0 id.1 = Some n /\ n <= id.2).
  { intros id Hin. destruct (W2 id Hin) as (n & Hn & Hle). specialize (Hg id.1).
    rewrite Hn in Hg. destruct (next_of d0 id.1); [|done]. eexists; split; [done|lia]. }
  split; [|split].
  - intros id. eapply merge_accounts; [apply A1|apply A2| |symmetry; apply merge_states_entry].
    intros Hin%bool_decide_eq_true. destruct (find d0 id) eqn:E; [|done].
    destruct (Hlow id Hin) as (n & Hn & Hle), (Hwf _ _ E) as (m & Hm & Hlt).
    rewrite Hn in Hm. injection Hm as ->. lia.
  - intros k. specialize (N1 k). specialize (N2 k). rewrite merge_states_next.
    destruct (old_index_next_ids u1 !! k), (old_index_next_ids u2 !! k).
    + tauto.
    + destruct N1. by rewrite N2.
    + by rewrite <- N1.
    + congruence.
  - intros id Hin. pose proof (merge_states_entry u1 u2 id) as E.
    destruct (decide (id ∈ new_ids u2)) as [|Hn2]; [by apply Hlow|].
    destruct (decide (id ∈ new_ids u1)) as [|Hn1]; [by apply W1|].
    unfold entry_of in E. rewrite bool_decide_eq_true_2 in E by done.
    rewrite !bool_decide_eq_false_2 in E by done. unfold merge_entry in E.
    by destruct (old_values u2 !! id), (old_values u1 !! id), (removed u2 !! id).
Qed.

(** ** The abstract database: a stack of copies *)

(** The tables now, the copies taken at the start of the open and committed
    sessions (newest first), and the number of active sessions. *)
Record spec := Spec { cur : odb V; snaps : list (odb V); act : Z }.

Inductive command :=
  | Create k (constructor : Z -> result V)
  | Modify id (m : V -> V * option exn)
  | Remove id
  | StartSession (force_enable : bool)
  | Undo
  | Merge
  | Commit
  | PopCommit.

Definition discard {S A} (m : stx S A) : stx S unit := _ ← m; mret tt.

Definition run (c : command) : stx (state V) unit :=
  match c with
  | Create k f => discard (create conflict k f)
  | Modify id m => modify conflict id m
  | Remove id => remove id
  | StartSession b => discard (start_undo_session b)
  | Undo => undo conflict
  | Merge => merge
  | Commit => commit
  | PopCommit => pop_commit conflict
  end.

(** A change outside any session opens an implicit one. *)
Definition change (a : spec) d : spec :=
  Spec d (match snaps a with [] => [cur a] | l => l end) (act a).

Definition spec_run (max : Z) (c : command) (a : spec) : option spec :=
  match c with
  | Create k f => match plain_create k f (cur a) with Ok (_, d) => Some (change a d) | Throw _ => Some a end
  | Modify id m =>
      match find (cur a) id with
      | None => Some a
      | Some v =>
          let d := (plain_modify id m (cur a)).2 in
          if find d id then Some (change a d) else None
      end
  | Remove id =>
      match find (cur a) id with None => Some a | Some _ => Some (change a (set_object (cur a) id None)) end
  | StartSession _ =>
      if act a <? 2 ^ 32 - 1
      then Some (Spec (cur a) (cur a :: take (Z.to_nat max) (snaps a)) (act a + 1)) else None
  | Undo =>
      match snaps a with d :: l => if 0 <? act a then Some (Spec d l (act a - 1)) else None | [] => None end
  | Merge =>
      if 0 <? act a then
        if (act a =? 1) && (length (snaps a) =? 1)%nat then Some (Spec (cur a) [] 0)
        else match snaps a with
             | _ :: d :: l => Some (Spec (cur a) (d :: l) (act a - 1))
             | _ => None
             end
      else None
  | Commit => if 0 <? act a then Some (Spec (cur a) (snaps a) (act a - 1)) else None
  | PopCommit =>
      match snaps a with d :: l => if act a =? 0 then Some (Spec d l 0) else None | [] => None end
  end.

(** No unique key ever passes from one object to another while a copy that
    remembers it is on the stack. *)
Definition keys_stay (a : spec) : Prop :=
  forall d d0 id v, d ∈ cur a :: snaps a -> d0 ∈ cur a :: snaps a ->
    find d id = Some v -> fits d0 id v.

Fixpoint chain (l : list (undo_state V)) d (ds : list (odb V)) : Prop :=
  match l, ds with
  | [], [] => wf d
  | u :: l, d0 :: ds => wf d /\ grows d0 d /\ tracks u d d0 /\ chain l d0 ds
  | _, _ => False
  end.

(** The simulation relation. *)
Definition implements s (a : spec) : Prop :=
  db s = cur a /\ disabled s = false /\ active_sessions s = act a /\ 0 <= act a < 2 ^ 32 /\
  chain (stack s) (cur a) (snaps a) /\ keys_stay a.

Lemma chain_wf l d ds : chain l d ds -> wf d.
Proof. destruct l, ds; cbn; tauto. Qed.

Lemma chain_length l d ds : chain l d ds -> length l = length ds.
Proof. revert d ds. induction l as [|u l IH]; intros d [|d0 ds]; cbn; try tauto. intros. f_equal. naive_solver. Qed.

Lemma chain_take n l d ds : chain l d ds -> chain (take n l) d (take n ds).
Proof.
  revert n d ds. induction l as [|u l IH]; intros n d [|d0 ds] H; try done; destruct n; cbn in *; try done.
  - tauto.
  - naive_solver.
Qed.

Lemma grows_refl d : grows d d.
Proof. intros k. destruct (next_of d k); [lia|done]. Qed.

Lemma grows_trans d0 d1 d2 : grows d0 d1 -> grows d1 d2 -> grows d0 d2.
Proof.
  intros H1 H2 k. specialize (H1 k). specialize (H2 k).
  destruct (next_of d0 k), (next_of d1 k), (next_of d2 k); try done. lia.
Qed.

(** A change of the tables, recorded by [f] in the newest undo state. *)
Lemma chain_change s a d (f : undo_state V -> undo_state V) :
  implements s a -> wf d -> grows (cur a) d ->
  (forall u d0, tracks u (cur a) d0 -> wf d0 -> grows d0 (cur a) -> tracks (f u) d d0) ->
  keys_stay (change a d) ->
  implements (touch f (s <| db := d |>)) (change a d).
Proof.
  intros (Hdb & Hdis & Hact & Hb & Hch & _) Hwf Hg Ht Hk.
  assert (Hrec : disabled (touch f (s <| db := d |>)) = false /\
    active_sessions (touch f (s <| db := d |>)) = act a).
  { unfold touch. cbn. rewrite Hdis. by destruct (stack s). }
  unfold implements. rewrite touch_db. destruct Hrec as [-> ->].
  split_and!; try done; [apply Hb..|].
  unfold touch. cbn. rewrite Hdis. unfold change. cbn.
  destruct (stack s) as [|u l], (snaps a) as [|d0 ds]; cbn in *; try done.
  - split_and!; [done|done| |done]. apply Ht; [apply tracks_empty|done|apply grows_refl].
  - destruct Hch as (? & ? & ? & Hch). split_and!; [done|by eapply grows_trans| |done].
    apply Ht; [done|by eapply chain_wf|done].
Qed.

Lemma wf_set_object d id o : wf d -> is_Some (find d id) \/ o = None -> is_Some (next_of d id.1) ->
  wf (set_object d id o).
Proof.
  intros Hwf Hid Hreg id' v. rewrite find_set_object, next_of_set_object by done.
  destruct (decide (id' = id)) as [->|]; [|by apply Hwf].
  intros ->. destruct Hid as [[w Hw]|]; [|done]. by apply (Hwf _ w).
Qed.

Lemma grows_set_object d id o : grows d (set_object d id o).
Proof. intros k. rewrite next_of_set_object. apply grows_refl. Qed.

Lemma plain_create_Ok k c d id d' : plain_create k c d = Ok (id, d') ->
  exists v, id.1 = k /\ next_of d k = Some id.2 /\ find d id = None /\
    d' = set_next_id (set_object d id (Some v)) k (id.2 + 1).
Proof.
  unfold plain_create. destruct (next_of d k) as [n|] eqn:En; [|done]. cbn.
  destruct (c n) as [v|]; [|done]. cbn. destruct (bool_decide _ && _) eqn:E; [|done].
  intros [= <- <-]. apply andb_true_iff in E as [E _]. apply bool_decide_eq_true in E. by exists v.
Qed.

Lemma wf_create d id v : wf d -> next_of d id.1 = Some id.2 ->
  wf (set_next_id (set_object d id (Some v)) id.1 (id.2 + 1)) /\
  grows d (set_next_id (set_object d id (Some v)) id.1 (id.2 + 1)).
Proof.
  intros Hwf Hn. assert (is_Some (next_of d id.1)) as Hreg by eauto.
  assert (is_Some (next_of (set_object d id (Some v)) id.1)) as Hreg' by (by rewrite next_of_set_object).
  split.
  - intros id' w. rewrite find_set_next_id, find_set_object, next_of_set_next_id, next_of_set_object by done.
    destruct (decide (id' = id)) as [->|Hne].
    + intros _. rewrite decide_True by done. eexists; split; [done|lia].
    + intros Hw. destruct (Hwf _ _ Hw) as (n & Hn' & Hlt). destruct (decide (id'.1 = id.1)) as [E|]; [|eauto].
      rewrite E, Hn in Hn'. injection Hn' as <-. eexists; split; [done|lia].
  - intros k. rewrite next_of_set_next_id, next_of_set_object by done.
    destruct (decide (k = id.1)) as [->|]; [rewrite Hn; lia|]. destruct (next_of d k); [lia|done].
Qed.

Lemma discard_run {A} (m : stx (state V) A) s0 r s' : m s0 = (r, s') ->
  exists r', discard m s0 = (r', s').
Proof. intros H. unfold discard, mbind, stx_bind, mret, stx_ret. rewrite H. destruct r; eauto. Qed.

Lemma u32_small n : 0 <= n < 2 ^ 32 -> u32 n = n.
Proof. apply wrap_small. Qed.

(** Rolling back the newest undo state of an implementing state. *)
Lemma rollback_implements s a u l d0 ds :
  implements s a -> stack s = u :: l -> snaps a = d0 :: ds ->
  rollback_state conflict (s <| disabled := true |>)
    = (Ok tt, s <| disabled := true |> <| db := d0 |> <| stack := l |>) /\
  chain l d0 ds /\ keys_stay (Spec d0 ds 0).
Proof.
  intros (Hdb & Hdis & Hact & Hb & Hch & Hk) Hs Hd. rewrite Hs, Hd in Hch. cbn in Hch.
  destruct Hch as (Hwf & Hg & Ht & Hch). split_and!; [|done|].
  - apply (rollback_ok _ u l d0); cbn; [done|done|by rewrite Hdb|].
    unfold keys_stay in Hk. rewrite Hd in Hk. rewrite Hdb.
    intros id v [Hv|Hv]; split; eapply Hk; try done; set_solver.
  - unfold keys_stay in *. cbn. rewrite Hd in Hk. intros d d' id v H1 H2. apply Hk; set_solver.
Qed.

Lemma sim_undo s a d ds : implements s a -> snaps a = d :: ds -> 0 < act a ->
  exists r s', undo conflict s = (r, s') /\ implements s' (Spec d ds (act a - 1)).
Proof.
  intros H Hd Hpos. pose proof H as (Hdb & Hdis & Hact & Hb & Hch & Hk).
  destruct (stack s) as [|u l] eqn:Es; [by rewrite Hd in Hch|].
  destruct (rollback_implements s a u l d ds H Es Hd) as (Er & Hch' & Hk').
  unfold undo. rewrite (bindx_Ok _ _ s false s) by (unfold getx; by rewrite Hdis).
  rewrite (bindx_Ok _ _ s tt s) by done. rewrite (bindx_Ok _ _ s (act a) s) by (unfold getx; by rewrite Hact).
  rewrite (bindx_Ok _ _ s tt s) by (unfold assertx, fc_assert; by rewrite (proj2 (Z.ltb_lt _ _) Hpos)).
  rewrite (bindx_Ok _ _ s tt (s <| disabled := true |>)) by done.
  rewrite (bindx_Ok _ _ _ _ _ Er).
  unfold enable. rewrite (bindx_Ok _ _ _ tt _) by done. do 2 eexists; split; [done|].
  unfold implements. cbn. rewrite Hact, u32_small by lia. split_and!; try done; lia.
Qed.

Lemma sim_pop_commit s a d ds : implements s a -> snaps a = d :: ds -> act a = 0 ->
  exists r s', pop_commit conflict s = (r, s') /\ implements s' (Spec d ds 0).
Proof.
  intros H Hd Hz. pose proof H as (Hdb & Hdis & Hact & Hb & Hch & Hk).
  destruct (stack s) as [|u l] eqn:Es; [by rewrite Hd in Hch|].
  destruct (rollback_implements s a u l d ds H Es Hd) as (Er & Hch' & Hk').
  unfold pop_commit. rewrite (bindx_Ok _ _ s 0 s) by (unfold getx; by rewrite Hact, Hz).
  rewrite (bindx_Ok _ _ s tt s) by done. rewrite (bindx_Ok _ _ s (stack s) s) by done.
  rewrite (bindx_Ok _ _ s tt s) by (unfold assertx; by rewrite Es).
  rewrite (bindx_Ok _ _ s tt (s <| disabled := true |>)) by done.
  erewrite bindx_Ok by (unfold try_catch; by rewrite Er).
  do 2 eexists; split; [done|].
  unfold implements. cbn. rewrite Hact, Hz. split_and!; try done; lia.
Qed.

Lemma sim_merge s a a' : implements s a -> spec_run (max_size s) Merge a = Some a' ->
  exists r s', merge s = (r, s') /\ implements s' a'.
Proof.
  intros H Hs. pose proof H as (Hdb & Hdis & Hact & Hb & Hch & Hk). cbn in Hs.
  destruct (Z.ltb_spec 0 (act a)) as [Hpos|]; [|done].
  unfold merge. rewrite (bindx_Ok _ _ s (act a) s) by (unfold getx; by rewrite Hact).
  rewrite (bindx_Ok _ _ s tt s) by (unfold assertx, fc_assert; by rewrite (proj2 (Z.ltb_lt _ _) Hpos)).
  rewrite (bindx_Ok _ _ s (stack s) s) by done. pose proof (chain_length _ _ _ Hch) as Hlen. rewrite Hlen.
  assert (Hsub : forall ds, (forall d, d ∈ ds -> d ∈ snaps a) -> forall n, keys_stay (Spec (cur a) ds n)).
  { intros ds Hds n d d0 id v H1 H2. apply Hk; cbn in *; set_solver. }
  destruct ((act a =? 1) && (length (snaps a) =? 1)%nat) eqn:E.
  - injection Hs as <-. apply andb_true_iff in E as [E1 E2].
    apply Z.eqb_eq in E1. apply Nat.eqb_eq in E2.
    rewrite (bindx_Ok _ _ s tt (s <| stack ::= tail |>)) by done. do 2 eexists; split; [done|].
    unfold implements. cbn. rewrite Hact, E1. split_and!; try done.
    + destruct (stack s) as [|u [|]], (snaps a) as [|? [|]]; try done. cbn in *. tauto.
    + apply Hsub. set_solver.
  - destruct (snaps a) as [|d1 [|d0 ds]] eqn:Ed; try done. injection Hs as <-.
    destruct (stack s) as [|u2 [|u1 l]]; try done. cbn in Hch.
    destruct Hch as (Hwf & Hg1 & Ht2 & Hwf1 & Hg0 & Ht1 & Hch).
    erewrite bindx_Ok by done. do 2 eexists; split; [done|].
    unfold implements. cbn. rewrite Hact, u32_small by lia. split_and!; try done; try lia.
    + by eapply grows_trans.
    + eapply tracks_merge; try done. by eapply chain_wf.
    + apply Hsub. set_solver.
Qed.

Lemma sim_start s a b a' : implements s a -> spec_run (max_size s) (StartSession b) a = Some a' ->
  exists r s', run (StartSession b) s = (r, s') /\ implements s' a'.
Proof.
  intros (Hdb & Hdis & Hact & Hb & Hch & Hk) Hs. cbn in Hs.
  destruct (Z.ltb_spec (act a) (2 ^ 32 - 1)); [|done]. injection Hs as <-.
  assert (Hst : start_undo_session b s = (Ok (Session true false),
    s <| stack := empty_state :: take (Z.to_nat (max_size s)) (stack s) |>
      <| active_sessions := u32 (act a + 1) |>)).
  { unfold start_undo_session, trim_stack. rewrite Hdis. cbn. unfold setter; cbn.
    destruct b; cbn; by rewrite Hact, <- ?Hdis. }
  destruct (discard_run _ _ _ _ Hst) as [r Hr]. do 2 eexists; split; [exact Hr|].
  assert (chain (empty_state :: take (Z.to_nat (max_size s)) (stack s)) (cur a)
    (cur a :: take (Z.to_nat (max_size s)) (snaps a))) as Hch'.
  { cbn. split; [by eapply chain_wf|]. split; [apply grows_refl|].
    split; [apply tracks_empty|by apply chain_take]. }
  unfold implements. cbn [cur snaps act]. unfold setter; cbn. rewrite u32_small by lia.
  do 4 (split; [first [done|lia]|]). split; [exact Hch'|].
  - intros d d0 id v H1 H2. apply Hk; cbn in *; rewrite !elem_of_cons in *;
      intuition (subst; auto); right; eapply subseteq_take; eauto.
Qed.

Lemma sim_create s a k c a' : implements s a -> spec_run (max_size s) (Create k c) a = Some a' ->
  keys_stay a' -> exists r s', run (Create k c) s = (r, s') /\ implements s' a'.
Proof.
  intros H Hs Hk'. pose proof H as (Hdb & _ & _ & _ & Hch & _). cbn in Hs.
  destruct (plain_create k c (cur a)) as [[id d]|e] eqn:E.
  - assert (create conflict k c s = (Ok id, on_create id (s <| db := d |>))) as Hrun
      by (by rewrite create_run, Hdb, E).
    destruct (discard_run _ _ _ _ Hrun) as [r Hr]. do 2 eexists; split; [exact Hr|].
    injection Hs as <-. apply plain_create_Ok in E as (v & <- & Hn & Hnew & ->).
    destruct (wf_create (cur a) id v (chain_wf _ _ _ Hch) Hn) as [Hwf Hg].
    apply chain_change; try done. intros u d0 Ht Hwf0 Hg0. by apply tracks_create.
  - assert (create conflict k c s = (Throw e, s)) as Hrun by (by rewrite create_run, Hdb, E).
    destruct (discard_run _ _ _ _ Hrun) as [r Hr]. injection Hs as <-. eauto.
Qed.

Lemma sim_modify s a id m a' : implements s a -> spec_run (max_size s) (Modify id m) a = Some a' ->
  keys_stay a' -> exists r s', run (Modify id m) s = (r, s') /\ implements s' a'.
Proof.
  intros H Hs Hk'. pose proof H as (Hdb & _ & _ & _ & Hch & _). cbn in *.
  rewrite modify_run, Hdb. destruct (find (cur a) id) as [v|] eqn:Ev; [|injection Hs as <-; eauto].
  pose proof (find_registered _ _ _ Ev) as Hreg.
  unfold plain_modify in *. rewrite Ev in *. destruct (m v) as [w exc]. cbn [snd] in Hs.
  rewrite find_set_object, decide_True in Hs by done.
  destruct (unique_ok _ _ _ _ _) eqn:E; cbn in Hs; [|done]. injection Hs as <-.
  do 2 eexists; split; [done|]. unfold on_modify. rewrite touch_set_db.
  apply chain_change; try done.
  - apply wf_set_object; [by eapply chain_wf|rewrite Ev; eauto|done].
  - apply grows_set_object.
  - intros. by apply tracks_modify.
Qed.

Lemma sim_remove s a id a' : implements s a -> spec_run (max_size s) (Remove id) a = Some a' ->
  keys_stay a' -> exists r s', run (Remove id) s = (r, s') /\ implements s' a'.
Proof.
  intros H Hs Hk'. pose proof H as (Hdb & _ & _ & _ & Hch & _). cbn in *.
  rewrite remove_run, Hdb. destruct (find (cur a) id) as [v|] eqn:Ev; injection Hs as <-; [|eauto].
  pose proof (find_registered _ _ _ Ev) as Hreg.
  do 2 eexists; split; [done|]. unfold on_remove. rewrite touch_set_db.
  apply chain_change; try done.
  - apply wf_set_object; [by eapply chain_wf|by right|done].
  - apply grows_set_object.
  - intros. by apply tracks_remove.
Qed.

Lemma simulation s a c a' : implements s a -> spec_run (max_size s) c a = Some a' -> keys_stay a' ->
  exists r s', run c s = (r, s') /\ implements s' a'.
Proof.
  destruct c; intros H Hs Hk'.
  - by eapply sim_create.
  - by eapply sim_modify.
  - by eapply sim_remove.
  - by eapply sim_start.
  - cbn in Hs. destruct (snaps a) as [|d ds] eqn:Ed; [done|].
    destruct (Z.ltb_spec 0 (act a)); [|done]. injection Hs as <-. by apply sim_undo.
  - by eapply sim_merge.
  - pose proof H as (Hdb & Hdis & Hact & Hb & Hch & Hk). cbn in Hs |- *.
    destruct (0 <? act a) eqn:Hpos; [|done]. injection Hs as <-. unfold commit.
    rewrite (bindx_Ok _ _ s (act a) s) by (unfold getx; by rewrite Hact).
    rewrite (bindx_Ok _ _ s tt s) by (unfold assertx, fc_assert; by rewrite Hpos).
    do 2 eexists; split; [done|]. unfold implements, setter. cbn. rewrite Hact, u32_small by lia.
    do 4 (split; [first [done|lia]|]). done.
  - cbn in Hs. destruct (snaps a) as [|d ds] eqn:Ed; [done|].
    destruct (Z.eqb_spec (act a) 0); [|done]. injection Hs as <-. by eapply sim_pop_commit.
Qed.

(** Nothing changes the limit of the stack. *)
Definition keeps {A} (m : stx (state V) A) : Prop := forall s, max_size (m s).2 = max_size s.

Lemma keeps_bind {A B} (m : stx (state V) A) (f : A -> stx (state V) B) :
  keeps m -> (forall a, keeps (f a)) -> keeps (m ≫= f).
Proof.
  intros Hm Hf s. specialize (Hm s). unfold mbind, stx_bind. destruct (m s) as [[a|e] s']; cbn in *; [|done].
  by rewrite Hf.
Qed.

Lemma keeps_for_each {A} (l : list A) (f : A -> stx (state V) unit) :
  (forall a, keeps (f a)) -> keeps (for_eachx l f).
Proof. intros Hf. induction l; cbn; [done|]. by apply keeps_bind. Qed.

Lemma keeps_touch f s : max_size (touch f s) = max_size s.
Proof. unfold touch. by destruct (disabled s), (stack s). Qed.

Ltac keeps_tac :=
  repeat first
    [ apply keeps_bind; [|intros ?] | apply keeps_for_each; intros ? | solve [intros ?; done]
    | solve [intros ?; apply keeps_touch] | case_match ].

Lemma keeps_rollback : keeps (rollback_state conflict).
Proof. unfold rollback_state, modify, remove, insert, get_object, get_index. keeps_tac. Qed.

Lemma run_max_size c : keeps (run c).
Proof.
  destruct c; cbn; unfold discard, create, modify, remove, insert, get_object, get_index, undo, merge,
    commit, pop_commit; keeps_tac; try (by apply keeps_rollback).
  - intros s. unfold start_undo_session. by destruct (_ && _), (disabled s), force_enable.
  - intros s. unfold try_catch. pose proof (keeps_rollback s) as Hr.
    destruct (rollback_state conflict s) as [[|e] s']; [done|]. by destruct (is_fc_exception e).
Qed.

(** A run of the abstract database in which unique keys stay. *)
Inductive spec_steps (max : Z) : list command -> spec -> spec -> Prop :=
  | steps_nil a : spec_steps max [] a a
  | steps_cons c l a a' a'' :
      spec_run max c a = Some a' -> keys_stay a' -> spec_steps max l a' a'' ->
      spec_steps max (c :: l) a a''.

(** The caller goes on after an exception. *)
Definition run_all (l : list command) s : state V := foldl (fun s c => (run c s).2) s l.

Lemma simulation_all l s a a' : implements s a -> spec_steps (max_size s) l a a' ->
  implements (run_all l s) a'.
Proof.
  intros H Hs. remember (max_size s) as ms eqn:E. revert s E H.
  induction Hs as [|c l a a1 a2 Hc Hk _ IH]; intros s E H; [done|].
  subst ms. destruct (simulation s a c a1 H Hc Hk) as (r & s' & Hr & H').
  cbn. rewrite Hr. cbn. apply IH; [|done]. pose proof (run_max_size c s) as Hm. by rewrite Hr in Hm.
Qed.

End Facts.

(** Two objects, a session that creates a third, changes the first and removes
    the second, a nested session merged into it, and the undo of the outer one. *)
Definition example_tables : odb Z := {[ (2, 5) := Table 2 {[ 0 := 10; 1 := 20 ]} ]}.
Definition example_state : state Z := State example_tables 0 false [] 256.
Definition example_script : list (@command Z) :=
  [ StartSession false; Create (2, 5) (fun i => Ok (100 + i)); Modify ((2, 5), 0) (fun v => (v + 1, None));
    StartSession false; Modify ((2, 5), 2) (fun v => (v + 1, Some assert_exception)); Remove ((2, 5), 1);
    Merge; Undo ].


(** Within one session the unique key 10 passes from object 0 to object 1: the
    undo throws, object 0 is gone and the undo database stays disabled. *)
Lemma undo_moved_key :
  let same_key : ikey -> Z -> Z -> bool := fun _ v w => v =? w in
  let s := run_all same_key
    [ StartSession false; Modify ((2, 5), 0) (fun _ => (30, None)); Modify ((2, 5), 1) (fun _ => (10, None)) ]
    example_state in
  let '(r, s') := undo same_key s in
  r = Throw assert_exception /\ find (db s') ((2, 5), 0) = None /\ disabled s' = true.
Proof. vm_compute. auto. Qed.
End UndoFacts.

Module ObjectIdFacts.
Import ObjectId.

Lemma make_number s t i : 0 <= s < 256 -> 0 <= t < 256 -> 0 <= i < 2 ^ 48 ->
  make s t i = Ok (s * 2 ^ 56 + t * 2 ^ 48 + i).
Proof.
  intros Hs Ht Hi. unfold make. rewrite Z.shiftr_div_pow2, Z.div_small by lia. cbn [fc_assert Z.eqb].
  rewrite !Z.shiftl_mul_pow2 by lia. rewrite !wrap_small by lia.
  cbn [mbind result_bind]. f_equal.
  rewrite (Uint128.lor_disjoint s (t * 2 ^ 48) 56) by lia.
  replace (s * 2 ^ 56 + t * 2 ^ 48) with ((s * 2 ^ 8 + t) * 2 ^ 48) by lia.
  by rewrite Uint128.lor_disjoint by lia.
Qed.

Lemma fields_of s t i n : 0 <= s < 256 -> 0 <= t < 256 -> 0 <= i < 2 ^ 48 ->
  n = s * 2 ^ 56 + t * 2 ^ 48 + i ->
  space n = s /\ type n = t /\ space_type n = s * 256 + t /\ instance n = i.
Proof.
  intros Hs Ht Hi ->. unfold space, type, space_type, instance, GRAPHENE_DB_MAX_INSTANCE_ID.
  rewrite !Z.shiftr_div_pow2 by lia.
  assert ((s * 2 ^ 56 + t * 2 ^ 48 + i) / 2 ^ 56 = s) as ->.
  { symmetry. apply (Z.div_unique _ _ _ (t * 2 ^ 48 + i)); lia. }
  assert ((s * 2 ^ 56 + t * 2 ^ 48 + i) / 2 ^ 48 = s * 256 + t) as ->.
  { symmetry. apply (Z.div_unique _ _ _ i); lia. }
  change 255 with (Z.ones 8). change (2 ^ 48 - 1) with (Z.ones 48). rewrite !Z.land_ones by lia.
  split_and!.
  - apply wrap_small. lia.
  - rewrite wrap_small by (pose proof (Z.mod_pos_bound (s * 256 + t) (2 ^ 8)); lia).
    symmetry. apply (Z.mod_unique _ _ s); lia.
  - apply wrap_small. lia.
  - symmetry. apply (Z.mod_unique _ _ (s * 256 + t)); lia.
Qed.

(** The number of an object id packs space, type and instance without loss: the
    accessors give back what the constructor got, two ids with the same number
    have the same parts, the constructor throws on an instance of more than 48
    bits, and [++] is the next instance unless the instance is the last one. *)
Lemma object_id_roundtrip s t i s' t' i' :
  0 <= s < 256 -> 0 <= t < 256 -> 0 <= i < 2 ^ 64 ->
  0 <= s' < 256 -> 0 <= t' < 256 -> 0 <= i' < 2 ^ 64 ->
  match make s t i with
  | Ok n => i < 2 ^ 48 /\ space n = s /\ type n = t /\ space_type n = s * 256 + t /\ instance n = i /\
            (make s' t' i' = Ok n -> s' = s /\ t' = t /\ i' = i) /\
            (i < GRAPHENE_DB_MAX_INSTANCE_ID -> make s t (i + 1) = Ok (next n))
  | Throw e => 2 ^ 48 <= i /\ e = assert_exception
  end.
Proof.
  intros Hs Ht Hi Hs' Ht' Hi'. destruct (Z.lt_ge_cases i (2 ^ 48)) as [Hlt|Hge].
  - rewrite make_number by lia.
    destruct (fields_of s t i _ Hs Ht ltac:(lia) eq_refl) as (E1 & E2 & E3 & E4).
    split_and!; try done.
    + intros Hm. assert (i' < 2 ^ 48) as Hlt'.
      { destruct (Z.lt_ge_cases i' (2 ^ 48)) as [|Hge']; [done|]. unfold make in Hm.
        rewrite Z.shiftr_div_pow2 in Hm by lia.
        assert (1 <= i' / 2 ^ 48) by (apply Z.div_le_lower_bound; lia).
        destruct (Z.eqb_spec (i' / 2 ^ 48) 0); [lia|done]. }
      rewrite make_number in Hm by lia. injection Hm as Hm. lia.
    + unfold GRAPHENE_DB_MAX_INSTANCE_ID, next. intros. rewrite make_number, wrap_small by lia.
      f_equal. lia.
  - unfold make. rewrite Z.shiftr_div_pow2 by lia.
    assert (1 <= i / 2 ^ 48) by (apply Z.div_le_lower_bound; lia).
    destruct (Z.eqb_spec (i / 2 ^ 48) 0); [lia|done].
Qed.

Lemma object_id_roundtrip_witness : exists n, make 2 5 77 = Ok n /\ instance n = 77 /\ type n = 5.
Proof.
  pose proof (object_id_roundtrip 2 5 77 2 5 78 ltac:(lia) ltac:(lia) ltac:(lia) ltac:(lia) ltac:(lia)
    ltac:(lia)) as H.
  destruct (make 2 5 77) as [n|e]; [|destruct H; lia]. exists n. tauto.
Defined.
End ObjectIdFacts.
