(* ===== verification/Authority.v ===== *)
(** * Account names, authorities and the check of a transaction's signatures

    Models libraries/chain/protocol/authority.cpp and authority.hpp,
    sign_state.cpp and sign_state.hpp, and [verify_authority] of transaction.cpp.
    A [flat_map] or [flat_set] is the list of its entries in key order.  A public
    key is read as an integer; recovering it from a signature is the business of
    the crypto library and is not modelled: the functions take the set of keys. *)

From S2P Require Import Prelude.

Definition public_key : Type := Z.
(** [public_key_type()]. *)
Definition null_key : public_key := 0.

Definition BTCM_MIN_ACCOUNT_NAME_LENGTH : nat := 3.
Definition BTCM_MAX_ACCOUNT_NAME_LENGTH : nat := 16.
Definition BTCM_MAX_SIG_CHECK_DEPTH : nat := 2.

(** [fc::is_utf8] and [fc::json::is_valid], of libraries of their own. *)
Class TextChecks := { is_utf8 : string -> bool; json_is_valid : string -> bool }.

(** ** [flat_map] and [flat_set] *)

Module Flat.
Section Flat.
Context {K : Type} (lt : K -> K -> bool).

(** [m[ k ] = v] *)
Fixpoint set {V} (k : K) (v : V) (m : list (K * V)) : list (K * V) :=
  match m with
  | [] => [(k, v)]
  | (k', v') :: m' =>
      if lt k k' then (k, v) :: m
      else if lt k' k then (k', v') :: set k v m'
      else (k, v) :: m'
  end.

Fixpoint find {V} (k : K) (m : list (K * V)) : option V :=
  match m with
  | [] => None
  | (k', v) :: m' => if negb (lt k k') && negb (lt k' k) then Some v else find k m'
  end.

Fixpoint insert (k : K) (s : list K) : list K :=
  match s with
  | [] => [k]
  | k' :: s' => if lt k k' then k :: s else if lt k' k then k' :: insert k s' else s
  end.

Definition mem (k : K) (s : list K) : bool := existsb (fun k' => negb (lt k k') && negb (lt k' k)) s.
Definition erase (k : K) (s : list K) : list K := List.filter (fun k' => lt k k' || lt k' k) s.
End Flat.
End Flat.

Record authority := Auth {
  weight_threshold : Z;
  account_auths : list (string * Z);
  key_auths : list (public_key * Z)
}.
#[export] Instance eta_authority : Settable authority := fun a =>
  Auth (weight_threshold a) (account_auths a) (key_auths a).
#[export] Instance authority_eq_dec : EqDecision authority.
Proof. solve_decision. Defined.

Definition empty_authority : authority := Auth 0 [] [].

(** ** authority.cpp *)

Module Names.

(** The three character classes of the switches. *)
Definition is_letter (c : ascii) : bool :=
  let n := nat_of_ascii c in ((97 <=? n) && (n <=? 122))%nat.
Definition is_let_dig (c : ascii) : bool :=
  let n := nat_of_ascii c in is_letter c || ((48 <=? n) && (n <=? 57))%nat.
Definition is_let_dig_hyp (c : ascii) : bool := is_let_dig c || Ascii.eqb c "-"%char.

(** [name[ i ]] of a valid position. *)
Definition at_pos (P : ascii -> bool) (name : list ascii) (i : nat) : bool :=
  match name !! i with Some c => P c | None => false end.

(** [name.find_first_of( '.', begin )], [len] for [npos]. *)
Definition find_dot (name : list ascii) (begin : nat) : nat :=
  match list_find (fun c => c = "."%char) (drop begin name) with
  | Some (i, _) => begin + i
  | None => length name
  end.

(** The [while( true )] loop from the label starting at [begin]. *)
Fixpoint labels_loop (fuel : nat) (name : list ascii) (begin : nat) : option bool :=
  match fuel with
  | O => None
  | S fuel =>
      let end_ := find_dot name begin in
      if (end_ - begin <? 3)%nat then Some false
      else if negb (at_pos is_letter name begin) then Some false
      else if negb (at_pos is_let_dig name (end_ - 1)) then Some false
      else if negb (forallb (at_pos is_let_dig_hyp name) (seq (begin + 1) (end_ - 1 - (begin + 1)))) then Some false
      else if (end_ =? length name)%nat then Some true
      else labels_loop fuel name (end_ + 1)
  end.

Definition is_valid_account_name (name : string) : bool :=
  let s := String.list_ascii_of_string name in
  let len := length s in
  if (len <? BTCM_MIN_ACCOUNT_NAME_LENGTH)%nat then false
  else if (BTCM_MAX_ACCOUNT_NAME_LENGTH <? len)%nat then false
  else default false (labels_loop (S len) s 0).

(** [authority::validate] *)
Fixpoint validate_accounts (l : list (string * Z)) : result unit :=
  match l with
  | [] => Ok tt
  | item :: l => _ ← fc_assert (is_valid_account_name item.1); validate_accounts l
  end.
Definition validate (a : authority) : result unit := validate_accounts (account_auths a).

(** [authority::is_impossible]: 64-bit sum of the weights. *)
Definition is_impossible (a : authority) : bool :=
  let auth_weights := foldl (fun acc item => u64 (acc + item.2)) 0 (account_auths a) in
  let auth_weights := foldl (fun acc item => u64 (acc + item.2)) auth_weights (key_auths a) in
  auth_weights <? weight_threshold a.

Definition add_key (k : public_key) (w : Z) (a : authority) : authority :=
  a <| key_auths ::= Flat.set Z.ltb k w |>.
Definition add_account (k : string) (w : Z) (a : authority) : authority :=
  a <| account_auths ::= Flat.set String.ltb k w |>.
Definition num_auths (a : authority) : Z :=
  u32 (Z.of_nat (length (account_auths a) + length (key_auths a))).

(** [add_authority_accounts] *)
Definition add_authority_accounts (res : list string) (a : authority) : list string :=
  foldl (fun r item => Flat.insert String.ltb item.1 r) res (account_auths a).

(** ** The grammar of authority.hpp *)

Fixpoint split_dots (s : list ascii) : list (list ascii) :=
  match s with
  | [] => [[]]
  | c :: s' =>
      if Ascii.eqb c "."%char then [] :: split_dots s'
      else match split_dots s' with l :: ls => (c :: l) :: ls | [] => [[c]] end
  end.

(** Three characters or more, a letter first, a letter or digit last, letters,
    digits or hyphens between. *)
Definition label_ok (l : list ascii) : Prop :=
  (3 <= length l)%nat /\ (exists c, head l = Some c /\ is_letter c = true)
  /\ (exists c, last l = Some c /\ is_let_dig c = true)
  /\ Forall (fun c => is_let_dig_hyp c = true) l.

Definition grammar (name : string) : Prop :=
  let s := String.list_ascii_of_string name in
  (3 <= length s <= 16)%nat /\ Forall label_ok (split_dots s).

End Names.

(** ** sign_state.cpp *)

(** [authority_getter]: the account or content may be missing (an exception);
    [None] is the null pointer. *)
Definition authority_getter : Type := string -> result (option authority).

Record sign_state := SignState {
  get_active : authority_getter;
  available_keys : list public_key;
  provided_signatures : list (public_key * bool);
  approved_by : list string;
  max_recursion : nat
}.
#[export] Instance eta_sign_state : Settable sign_state := fun s =>
  SignState (get_active s) (available_keys s) (provided_signatures s) (approved_by s) (max_recursion s).

Module SignState.

Definition make (sigs : list public_key) (a : authority_getter) (keys : list public_key) : sign_state :=
  SignState a keys
    (foldl (fun m key => Flat.set Z.ltb key false m) [] sigs)
    (Flat.insert String.ltb "temp"%string [])
    BTCM_MAX_SIG_CHECK_DEPTH.

Definition signed_by (k : public_key) : st sign_state bool :=
  s ← get_st;
  match Flat.find Z.ltb k (provided_signatures s) with
  | None =>
      if Flat.mem Z.ltb k (available_keys s) then
        _ ← modify_st (fun s => s <| provided_signatures ::= Flat.set Z.ltb k true |>); mret true
      else mret false
  | Some _ =>
      _ ← modify_st (fun s => s <| provided_signatures ::= Flat.set Z.ltb k true |>); mret true
  end.

(** The loop over [key_auths]: [inl tt] is the early [return true], [inr w] the
    total weight after the loop. *)
Fixpoint keys_loop (threshold : Z) (l : list (public_key * Z)) (total_weight : Z) : st sign_state (unit + Z) :=
  match l with
  | [] => mret (inr total_weight)
  | k :: l =>
      b ← signed_by k.1;
      if b : bool then
        let total_weight := u32 (total_weight + k.2) in
        if threshold <=? total_weight then mret (inl tt) else keys_loop threshold l total_weight
      else keys_loop threshold l total_weight
  end.

(** The loop over [account_auths]; [check] is [check_authority( ., depth + 1 )],
    [None] when [depth == max_recursion]. *)
Fixpoint accounts_loop (check : option (option authority -> st sign_state bool)) (threshold : Z)
    (l : list (string * Z)) (total_weight : Z) : st sign_state bool :=
  match l with
  | [] => mret (threshold <=? total_weight)
  | a :: l =>
      s ← get_st;
      let count :=
        let total_weight := u32 (total_weight + a.2) in
        if threshold <=? total_weight then mret true
        else accounts_loop check threshold l total_weight in
      if Flat.mem String.ltb a.1 (approved_by s) then count
      else
        match check with
        | None => accounts_loop check threshold l total_weight
        | Some check' =>
            au ← lift (get_active s a.1);
            b ← check' au;
            if b : bool then
              _ ← modify_st (fun s => s <| approved_by ::= Flat.insert String.ltb a.1 |>); count
            else accounts_loop check threshold l total_weight
        end
  end.

(** [check_authority( au, depth )] with [room = max_recursion - depth]. *)
Fixpoint check_authority (room : nat) (au : option authority) : st sign_state bool :=
  match au with
  | None => mret false
  | Some auth =>
      r ← keys_loop (weight_threshold auth) (key_auths auth) 0;
      match r with
      | inl _ => mret true
      | inr total_weight =>
          accounts_loop (match room with O => None | S room => Some (check_authority room) end)
            (weight_threshold auth) (account_auths auth) total_weight
      end
  end.

(** [check_authority( au )]: depth 0. *)
Definition check_authority_top (au : option authority) : st sign_state bool :=
  n ← gets max_recursion; check_authority n au.

(** [check_authority( id )] *)
Definition check_authority_id (id : string) : st sign_state bool :=
  s ← get_st;
  if Flat.mem String.ltb id (approved_by s) then mret true
  else au ← lift (get_active s id); check_authority_top au.

(** [remove_unused_signatures] *)
Definition remove_unused_signatures : st sign_state bool :=
  s ← get_st;
  let remove_sigs := List.filter (fun sig => negb sig.2) (provided_signatures s) in
  _ ← modify_st (fun s => s <| provided_signatures ::= List.filter (fun sig => snd sig) |>);
  mret (negb (length remove_sigs =? 0)%nat).

End SignState.

(** ** [verify_authority] *)

(** The authorities the operations of a transaction require together. *)
Record requirements := Requirements {
  required_active : list string;
  required_owner : list string;
  required_basic : list string;
  required_master_content : list string;
  required_comp_content : list string;
  other : list authority
}.
#[export] Instance eta_requirements : Settable requirements := fun r =>
  Requirements (required_active r) (required_owner r) (required_basic r)
    (required_master_content r) (required_comp_content r) (other r).

Record getters := Getters {
  active_of : authority_getter;
  owner_of : authority_getter;
  basic_of : authority_getter;
  master_content_of : authority_getter;
  comp_content_of : authority_getter
}.

Module Verify.
Import SignState.

(** [BTCM_ASSERT( b, e, .. )]; building the message of a failed assertion reads
    the getters again, which have already returned. *)
Definition btcm_assert {S} (b : bool) (e : exn) : st S unit := if b then mret tt else throw e.

(** [a || b]: [b] runs when [a] is false. *)
Definition or_else (a b : st sign_state bool) : st sign_state bool :=
  x ← a; if x : bool then mret true else b.

Definition check_of (g : authority_getter) (id : string) : st sign_state bool :=
  au ← lift (g id); check_authority_top au.

Definition is_nil {A} (l : list A) : bool := match l with [] => true | _ => false end.

Definition verify_authority (req : requirements) (sigs : list public_key) (g : getters)
    (allow_extra_sigs : bool) (max_recursion_depth : nat)
    (active_approvals owner_approvals basic_approvals : list string) : result unit :=
  (* Active or owner authorities also cover basic authority *)
  let basic := foldl (fun b a => Flat.erase String.ltb a b) (required_basic req) (required_active req) in
  let basic := foldl (fun b a => Flat.erase String.ltb a b) basic (required_owner req) in
  _ ← fc_assert (is_nil basic ||
        (is_nil (required_active req) && is_nil (required_owner req)
         && is_nil (required_master_content req) && is_nil (required_comp_content req)
         && is_nil (other req)));
  let s := make sigs (if is_nil basic then active_of g else basic_of g) [] in
  let s := s <| max_recursion := max_recursion_depth |> in
  let approve := foldl (fun ids id => Flat.insert String.ltb id ids) in
  let s := s <| approved_by ::= fun ids => approve ids basic_approvals |> in
  let s := s <| approved_by ::= fun ids => approve ids active_approvals |> in
  let s := s <| approved_by ::= fun ids => approve ids owner_approvals |> in
  let run : st sign_state unit :=
    _ ← for_each (other req) (fun auth =>
          b ← check_authority_top (Some auth); btcm_assert b tx_missing_other_auth);
    _ ← for_each basic (fun id =>
          b ← or_else (check_authority_id id) (or_else (check_of (active_of g) id) (check_of (owner_of g) id));
          btcm_assert b tx_missing_basic_auth);
    _ ← for_each (required_active req) (fun id =>
          b ← or_else (check_authority_id id) (check_of (owner_of g) id);
          btcm_assert b tx_missing_active_auth);
    _ ← for_each (required_master_content req) (fun con =>
          b ← check_of (master_content_of g) con; btcm_assert b tx_missing_active_auth);
    _ ← for_each (required_comp_content req) (fun con =>
          b ← check_of (comp_content_of g) con; btcm_assert b tx_missing_active_auth);
    _ ← for_each (required_owner req) (fun id =>
          b ← (if Flat.mem String.ltb id owner_approvals then mret true else check_of (owner_of g) id);
          btcm_assert b tx_missing_owner_auth);
    if allow_extra_sigs then mret tt
    else b ← remove_unused_signatures; btcm_assert (negb b) tx_irrelevant_sig in
  match run s with Ok _ => Ok tt | Throw e => Throw e end.

(** [get_signature_keys]: the keys recovered from the signatures, in order. *)
Fixpoint get_signature_keys (keys : list public_key) (res : list public_key) : result (list public_key) :=
  match keys with
  | [] => Ok res
  | k :: keys =>
      if Flat.mem Z.ltb k res then Throw tx_duplicate_sig
      else get_signature_keys keys (Flat.insert Z.ltb k res)
  end.

(** [signed_transaction::verify_authority] *)
Definition verify_transaction_authority (req : requirements) (signature_keys : list public_key)
    (g : getters) (max_recursion : nat) : result unit :=
  sigs ← get_signature_keys signature_keys [];
  verify_authority req sigs g false max_recursion [] [] [].

(** ** Which signatures a transaction needs *)

(** What is left of the requirements of basic authorities. *)
Definition uncovered_basic (req : requirements) : list string :=
  let basic := foldl (fun b a => Flat.erase String.ltb a b) (required_basic req) (required_active req) in
  foldl (fun b a => Flat.erase String.ltb a b) basic (required_owner req).

(** The provided signatures that are left and whose keys are available. *)
Definition available_signatures (available : list public_key) (s : sign_state) : list public_key :=
  foldl (fun res sig => if Flat.mem Z.ltb sig.1 available then Flat.insert Z.ltb sig.1 res else res) []
    (provided_signatures s).

Definition used_signatures (available : list public_key) (checks : st sign_state unit) (s : sign_state)
    : result (list public_key) :=
  match (_ ← checks; _ ← remove_unused_signatures; get_st) s with
  | Ok (s, _) => Ok (available_signatures available s)
  | Throw e => Throw e
  end.

(** [get_required_signatures]: the outcome of a check is not looked at. *)
Definition get_required_signatures (req : requirements) (signature_keys available : list public_key)
    (g : getters) (max_recursion_depth : nat) : result (list public_key) :=
  let checking (c : st sign_state bool) : st sign_state unit := _ ← c; mret tt in
  let basic := uncovered_basic req in
  sigs ← get_signature_keys signature_keys [];
  let s (a : authority_getter) := make sigs a available <| max_recursion := max_recursion_depth |> in
  if negb (is_nil basic) then
    _ ← fc_assert (is_nil (required_owner req));
    _ ← fc_assert (is_nil (required_active req));
    used_signatures available (for_each basic (fun id => checking (check_authority_id id))) (s (basic_of g))
  else
    used_signatures available
      (_ ← for_each (other req) (fun auth => checking (check_authority_top (Some auth)));
       _ ← for_each (required_owner req) (fun id => checking (check_of (owner_of g) id));
       for_each (required_active req) (fun id => checking (check_authority_id id)))
      (s (active_of g)).

Definition is_missing_auth (e : exn) : bool :=
  match e with
  | tx_missing_owner_auth | tx_missing_active_auth | tx_missing_basic_auth | tx_missing_other_auth => true
  | _ => false
  end.

(** The loop of [minimize_required_signatures]: a key stays erased when the others do. *)
Fixpoint minimize_loop (verify : list public_key -> result unit) (s res : list public_key) : result (list public_key) :=
  match s with
  | [] => Ok res
  | k :: s =>
      let erased := Flat.erase Z.ltb k res in
      match verify erased with
      | Ok _ => minimize_loop verify s erased
      | Throw e => if is_missing_auth e then minimize_loop verify s (Flat.insert Z.ltb k erased) else Throw e
      end
  end.
Definition minimize_required_signatures (req : requirements) (signature_keys available : list public_key)
    (g : getters) (max_recursion : nat) : result (list public_key) :=
  s ← get_required_signatures req signature_keys available g max_recursion;
  minimize_loop (fun sigs => verify_authority req sigs g false max_recursion [] [] []) s s.

End Verify.
