(* ===== verification/AuthorityFacts.v ===== *)
(** * Facts about names, authorities and signature checks

    The lemmas and properties of [Authority]: the name validator accepts exactly
    the grammar, the check of an authority is sound and, within its depth,
    complete, and a verified transaction has every approval it needs. *)

From S2P Require Import Prelude.
From S2P Require Import Authority.

(** ** [flat_map] and [flat_set] *)

Module FlatFacts.

Class StrictTotal {K} (lt : K -> K -> bool) : Prop := {
  lt_irrefl : forall a, lt a a = false;
  lt_total : forall a b, lt a b = false -> lt b a = false -> a = b
}.

#[export] Instance ltb_Z : StrictTotal Z.ltb.
Proof. split; intros; lia. Qed.

#[export] Instance ltb_string : StrictTotal String.ltb.
Proof.
  assert (forall a, String.compare a a = Eq) as Hr.
  { intros a. pose proof (String.compare_antisym a a). by destruct (String.compare a a). }
  split; unfold String.ltb.
  - intros a. by rewrite Hr.
  - intros a b H1 H2. apply String.compare_eq_iff.
    rewrite String.compare_antisym in H2. destruct (String.compare a b); done.
Qed.

Section Flat.
Context {K : Type} (lt : K -> K -> bool) {Lt : StrictTotal lt}.

Lemma same_iff a b : negb (lt a b) && negb (lt b a) = true <-> a = b.
Proof.
  rewrite andb_true_iff, !negb_true_iff. split; [intros []; by apply lt_total|].
  intros ->. split; apply lt_irrefl.
Qed.

Lemma mem_spec k s : Flat.mem lt k s = true <-> k ∈ s.
Proof.
  unfold Flat.mem. rewrite existsb_exists. split.
  - intros (x & Hx & Hk). apply same_iff in Hk as ->. by apply list_elem_of_In.
  - intros Hk. exists k. split; [by apply list_elem_of_In|by apply same_iff].
Qed.

Lemma insert_spec k x s : x ∈ Flat.insert lt k s <-> x = k \/ x ∈ s.
Proof.
  induction s as [|y s IH]; cbn; [set_solver|].
  destruct (lt k y) eqn:E1; [set_solver|]. destruct (lt y k) eqn:E2; [set_solver|].
  assert (k = y) as -> by (by apply lt_total). set_solver.
Qed.

Lemma foldl_insert_spec ids x s :
  x ∈ foldl (fun r id => Flat.insert lt id r) s ids <-> x ∈ ids \/ x ∈ s.
Proof.
  revert s. induction ids as [|y ids IH]; intros s; cbn; [set_solver|].
  rewrite IH, insert_spec. set_solver.
Qed.

Lemma set_keys {V} k (v : V) m x : x ∈ (Flat.set lt k v m).*1 <-> x = k \/ x ∈ m.*1.
Proof.
  induction m as [|[y w] m IH]; cbn; [set_solver|].
  destruct (lt k y) eqn:E1; [set_solver|]. destruct (lt y k) eqn:E2; [set_solver|].
  assert (k = y) as -> by (by apply lt_total). set_solver.
Qed.

Lemma find_keys {V} k (m : list (K * V)) : is_Some (Flat.find lt k m) <-> k ∈ m.*1.
Proof.
  induction m as [|[y w] m IH]; cbn; [split; [by intros []|set_solver]|].
  destruct (negb (lt k y) && negb (lt y k)) eqn:E.
  - apply same_iff in E as ->. split; [set_solver|eauto].
  - rewrite IH, elem_of_cons. split; [auto|]. intros [->|]; [|done].
    assert (negb (lt y y) && negb (lt y y) = true) by (by apply same_iff). congruence.
Qed.

Lemma erase_spec k x s : x ∈ Flat.erase lt k s <-> x <> k /\ x ∈ s.
Proof.
  unfold Flat.erase. rewrite !list_elem_of_In, filter_In.
  assert (lt k x || lt x k = true <-> x <> k) as ->.
  { pose proof (same_iff k x). destruct (lt k x), (lt x k); cbn in *; split; intros; try done;
      try (intros ->; by rewrite lt_irrefl in *); naive_solver. }
  tauto.
Qed.

Lemma foldl_erase_spec ids x s :
  x ∈ foldl (fun b a => Flat.erase lt a b) s ids <-> x ∉ ids /\ x ∈ s.
Proof.
  revert s. induction ids as [|y ids IH]; intros s; cbn; [set_solver|].
  rewrite IH, erase_spec. set_solver.
Qed.
End Flat.
End FlatFacts.

(** ** Names *)

Module NamesFacts.
Import Names.

Lemma split_dots_find s :
  match list_find (fun c => c = "."%char) s with
  | Some (i, _) => split_dots s = take i s :: split_dots (drop (S i) s) /\ (i < length s)%nat
  | None => split_dots s = [s]
  end.
Proof.
  induction s as [|c s IH]; cbn; [done|].
  destruct (decide (c = "."%char)) as [->|Hc]; cbn; [split; [done|lia]|].
  destruct (Ascii.eqb_spec c "."%char); [done|].
  destruct (list_find _ s) as [[i x]|]; cbn.
  - destruct IH as [-> ?]. cbn. split; [done|lia].
  - by rewrite IH.
Qed.

Lemma at_pos_drop P s begin i :
  at_pos P s (begin + i) = match drop begin s !! i with Some c => P c | None => false end.
Proof. unfold at_pos. by rewrite lookup_drop. Qed.

Lemma is_let_dig_hyp_letter c : is_letter c = true -> is_let_dig_hyp c = true.
Proof. unfold is_let_dig_hyp, is_let_dig. by intros ->. Qed.
Lemma is_let_dig_hyp_dig c : is_let_dig c = true -> is_let_dig_hyp c = true.
Proof. unfold is_let_dig_hyp. by intros ->. Qed.

(** The checks of one iteration, on the label [take n (drop begin s)]. *)
Lemma label_checks s begin n l : l = take n (drop begin s) -> (n <= length (drop begin s))%nat ->
  (3 <= n)%nat ->
  at_pos is_letter s begin && at_pos is_let_dig s (begin + n - 1)
    && forallb (at_pos is_let_dig_hyp s) (seq (begin + 1) (begin + n - 1 - (begin + 1))) = true
  <-> label_ok l.
Proof.
  intros -> Hn H3. set (d := drop begin s) in *.
  assert (Hl : forall i, (i < n)%nat -> take n d !! i = d !! i) by (intros; by apply lookup_take_lt).
  assert (length (take n d) = n) as Hlen by (rewrite length_take; lia).
  replace (at_pos is_letter s begin) with (at_pos is_letter s (begin + 0)) by (f_equal; lia).
  replace (begin + n - 1)%nat with (begin + (n - 1))%nat by lia.
  rewrite !at_pos_drop. fold d. rewrite !andb_true_iff, forallb_forall. unfold label_ok.
  rewrite head_lookup, last_lookup, Hlen, Forall_lookup. split.
  - intros [[H0 H1] H2]. split_and!; [done| | |].
    + rewrite Hl by lia. destruct (d !! 0%nat); eauto. done.
    + rewrite Hl by lia. replace (pred n) with (n - 1)%nat by lia. destruct (d !! (n - 1)%nat); eauto. done.
    + intros i c Hi. assert (i < n)%nat by (apply lookup_lt_Some in Hi; lia). rewrite Hl in Hi by lia.
      destruct (decide (i = 0)%nat) as [->|]; [rewrite Hi in H0; by apply is_let_dig_hyp_letter|].
      destruct (decide (i = n - 1)%nat) as [->|]; [rewrite Hi in H1; by apply is_let_dig_hyp_dig|].
      specialize (H2 (begin + i)%nat). rewrite at_pos_drop in H2. fold d in H2. rewrite Hi in H2.
      apply H2. apply in_seq. lia.
  - intros (_ & (c0 & E0 & P0) & (c1 & E1 & P1) & Hall). rewrite Hl in E0, E1 by lia.
    replace (pred n) with (n - 1)%nat in E1 by lia. rewrite E0, E1. split_and!; [done|done|].
    intros j [Hj1 Hj2]%in_seq. replace j with (begin + (j - begin))%nat by lia.
    rewrite at_pos_drop. fold d.
    assert (is_Some (d !! (j - begin)%nat)) as [c Hc] by (apply lookup_lt_is_Some; lia).
    rewrite Hc. apply (Hall (j - begin)%nat). rewrite Hl by lia. done.
Qed.

Lemma label_short l : (length l < 3)%nat -> ~ label_ok l.
Proof. unfold label_ok. lia. Qed.

Lemma labels_loop_spec fuel s begin : (length s < fuel + begin)%nat -> (begin <= length s)%nat ->
  exists b, labels_loop fuel s begin = Some b /\
    (b = true <-> Forall label_ok (split_dots (drop begin s))).
Proof.
  revert begin. induction fuel as [|fuel IH]; intros begin Hf Hb; [lia|].
  cbn [labels_loop]. unfold find_dot. pose proof (split_dots_find (drop begin s)) as Hs.
  assert (exists n rest, (match list_find (fun c => c = "."%char) (drop begin s) with
      | Some (i, _) => begin + i | None => length s end = begin + n)%nat /\
      (n <= length (drop begin s))%nat /\
      split_dots (drop begin s) = take n (drop begin s) :: rest /\
      ((begin + n = length s)%nat -> rest = []) /\
      ((begin + n <> length s)%nat -> rest = split_dots (drop (begin + n + 1) s) /\ (begin + n < length s)%nat))
    as (n & rest & En & Hn & Hsplit & Hlast & Hmore).
  { rewrite length_drop in *. destruct (list_find _ (drop begin s)) as [[i x]|].
    - destruct Hs as [-> Hi]. exists i, (split_dots (drop (S i) (drop begin s))).
      split_and!; [done|lia|done|lia|]. intros _. rewrite drop_drop. split; [|lia].
      f_equal. f_equal. lia.
    - exists (length s - begin)%nat, []. rewrite Hs. split_and!; [lia|lia| |auto|lia].
      by rewrite take_ge by (rewrite length_drop; lia). }
  rewrite En. clear En Hs. setoid_rewrite Hsplit. setoid_rewrite Forall_cons.
  replace (begin + n - begin)%nat with n by lia.
  assert (Hlen : length (take n (drop begin s)) = n) by (rewrite length_take; lia).
  destruct (Nat.ltb_spec n 3) as [H3|H3].
  { exists false. split; [done|]. split; [done|]. intros [[] _]. lia. }
  pose proof (label_checks s begin n _ eq_refl Hn H3) as Hc.
  destruct (at_pos is_letter s begin); cbn [negb andb] in *;
    [|exists false; split; [done|]; split; [done|]; intros [? _]; tauto].
  destruct (at_pos is_let_dig s (begin + n - 1)); cbn [negb andb] in *;
    [|exists false; split; [done|]; split; [done|]; intros [? _]; tauto].
  destruct (forallb _ _); cbn [negb] in *;
    [|exists false; split; [done|]; split; [done|]; intros [? _]; tauto].
  destruct (Nat.eqb_spec (begin + n) (length s)) as [E|E].
  - exists true. split; [done|]. rewrite Hlast by done. split; [|done]. intros _. split; [tauto|constructor].
  - destruct (Hmore E) as [-> Hlt]. destruct (IH (begin + n + 1)%nat) as (b & -> & Hb'); [lia|lia|].
    exists b. split; [done|]. rewrite Hb'. tauto.
Qed.

Lemma names_grammar name : is_valid_account_name name = true <-> grammar name.
Proof.
  unfold is_valid_account_name, grammar, BTCM_MIN_ACCOUNT_NAME_LENGTH, BTCM_MAX_ACCOUNT_NAME_LENGTH.
  set (s := String.list_ascii_of_string name).
  destruct (Nat.ltb_spec (length s) 3); [split; [done|lia]|].
  destruct (Nat.ltb_spec 16 (length s)); [split; [done|lia]|].
  destruct (labels_loop_spec (S (length s)) s 0) as (b & -> & Hb); [lia|lia|].
  rewrite drop_0 in Hb. cbn. rewrite Hb. split; [auto with lia|tauto].
Qed.

(** The account-name validator accepts exactly the names of the documented
    grammar: 3 to 16 characters, dot-separated labels of three characters or
    more, each starting with a lower-case letter, ending with a letter or digit
    and containing only letters, digits and hyphens; its loop always ends. *)
Lemma account_name_grammar name :
  (is_valid_account_name name = true <-> grammar name) /\
  labels_loop (S (length (String.list_ascii_of_string name))) (String.list_ascii_of_string name) 0 <> None.
Proof.
  split; [apply names_grammar|].
  destruct (labels_loop_spec (S (length (String.list_ascii_of_string name)))
    (String.list_ascii_of_string name) 0) as (b & -> & _); [lia|lia|done].
Qed.
End NamesFacts.

(** ** Checking an authority *)

Module SignFacts.
Import SignState FlatFacts.

Definition sum_weights {A} (l : list (A * Z)) : Z := foldr (fun x acc => x.2 + acc) 0 l.

Definition weights_ok (a : authority) : Prop :=
  Forall (fun x => 0 <= x.2) (account_auths a) /\ Forall (fun x => 0 <= x.2) (key_auths a).

Lemma sum_weights_app {A} (l m : list (A * Z)) : sum_weights (l ++ m) = sum_weights l + sum_weights m.
Proof. induction l as [|x l IH]; cbn; [done|]. unfold sum_weights in *. lia. Qed.

Lemma u32_le x : 0 <= x -> 0 <= u32 x <= x.
Proof. intros. pose proof (Z.mod_le x (2 ^ 32)). pose proof (wrap_bounds 32 x). unfold wrap in *. lia. Qed.

Section Getter.
Context (g : authority_getter) (K : public_key -> Prop) (init : string -> Prop).
Context (g_weights : forall id a, g id = Ok (Some a) -> weights_ok a).

(** An account approves when it did from the start or its authority is
    satisfied; an authority is satisfied when keys that signed and accounts that
    approve weigh enough together. *)
Inductive approves : string -> Prop :=
  | approves_init id : init id -> approves id
  | approves_auth id a : g id = Ok (Some a) -> satisfied a -> approves id
with satisfied : authority -> Prop :=
  | satisfied_by a ks accts :
      sublist ks (key_auths a) -> sublist accts (account_auths a) ->
      (forall k, k ∈ ks -> K k.1) -> (forall x, x ∈ accts -> approves x.1) ->
      weight_threshold a <= sum_weights ks + sum_weights accts -> satisfied a.

(** The states the checks go through. *)
Definition sound s : Prop :=
  get_active s = g /\
  (forall id, id ∈ approved_by s -> approves id) /\
  (forall k, k ∈ (provided_signatures s).*1 \/ k ∈ available_keys s -> K k).

Lemma signed_by_sound k s b s' : sound s -> signed_by k s = Ok (b, s') ->
  sound s' /\ (b = true -> K k).
Proof.
  intros Hs. unfold signed_by, mbind, st_bind, get_st, modify_st, mret, st_ret.
  destruct Hs as (Hg & Ha & Hk).
  destruct (Flat.find Z.ltb k (provided_signatures s)) as [x|] eqn:E.
  - intros [= <- <-]. assert (k ∈ (provided_signatures s).*1) by (apply (find_keys Z.ltb); eauto).
    split; [|auto]. split_and!; [done|done|]. cbn. intros k' [Hk'|Hk']; [|auto].
    apply (set_keys Z.ltb) in Hk' as [->|]; auto.
  - destruct (Flat.mem Z.ltb k (available_keys s)) eqn:Em; intros [= <- <-]; [|by split].
    apply (mem_spec Z.ltb) in Em. split; [|auto]. split_and!; [done|done|]. cbn.
    intros k' [Hk'|Hk']; [|auto]. apply (set_keys Z.ltb) in Hk' as [->|]; auto.
Qed.

Lemma keys_loop_sound threshold l : forall done_ w s r s', sound s ->
  Forall (fun x => 0 <= x.2) l -> (forall k, k ∈ done_ -> K k.1) -> 0 <= w <= sum_weights done_ ->
  keys_loop threshold l w s = Ok (r, s') ->
  sound s' /\ exists ks, sublist ks l /\ (forall k, k ∈ done_ ++ ks -> K k.1) /\
    match r with
    | inl _ => threshold <= sum_weights (done_ ++ ks)
    | inr w' => 0 <= w' <= sum_weights (done_ ++ ks)
    end.
Proof.
  induction l as [|k l IH]; intros done_ w s r s' Hs Hl Hd Hw Hrun; cbn in Hrun.
  - apply st_ret_Ok in Hrun as [-> ->]. split; [done|]. exists [].
    rewrite app_nil_r. split; [constructor|done].
  - apply Forall_cons in Hl as [Hk Hl]. apply st_bind_Ok in Hrun as (b & s1 & H1 & H2).
    destruct (signed_by_sound k.1 s b s1 Hs H1) as [Hs1 Hb].
    destruct b.
    + specialize (Hb eq_refl). pose proof (u32_le (w + k.2) ltac:(lia)) as Hu.
      assert (forall k', k' ∈ done_ ++ [k] -> K k'.1) as Hd' by (intros; set_solver).
      assert (0 <= u32 (w + k.2) <= sum_weights (done_ ++ [k])) as Hw'.
      { rewrite sum_weights_app. cbn. lia. }
      destruct (Z.leb_spec threshold (u32 (w + k.2))).
      * apply st_ret_Ok in H2 as [-> ->]. split; [done|]. exists [k].
        split; [by apply sublist_skip, sublist_nil_l|]. split; [done|lia].
      * destruct (IH (done_ ++ [k]) _ s1 r s' Hs1 Hl Hd' Hw' H2) as (Hs' & ks & Hsub & Hks & Hr).
        split; [done|]. exists (k :: ks). rewrite <- !app_assoc in *. split; [by apply sublist_skip|done].
    + destruct (IH done_ w s1 r s' Hs1 Hl Hd Hw H2) as (Hs' & ks & Hsub & Hks & Hr).
      split; [done|]. exists ks. split; [by apply sublist_cons|done].
Qed.

Lemma approve_sound id s : sound s -> approves id ->
  sound (s <| approved_by ::= Flat.insert String.ltb id |>).
Proof.
  intros (Hg & Ha & Hk) Hid. split_and!; [done| |done]. cbn. intros x Hx.
  apply (insert_spec String.ltb) in Hx as [->|]; auto.
Qed.

Lemma accounts_loop_sound check threshold l :
  (forall c au s b s', check = Some c -> sound s -> c (Some au) s = Ok (b, s') -> weights_ok au ->
     sound s' /\ (b = true -> satisfied au)) ->
  (forall c s b s', check = Some c -> c None s = Ok (b, s') -> b = false /\ s' = s) ->
  forall done_ base w s b s', sound s -> Forall (fun x => 0 <= x.2) l ->
  (forall x, x ∈ done_ -> approves x.1) -> 0 <= w <= base + sum_weights done_ ->
  accounts_loop check threshold l w s = Ok (b, s') ->
  sound s' /\ (b = true -> exists accts, sublist accts l /\ (forall x, x ∈ done_ ++ accts -> approves x.1) /\
     threshold <= base + sum_weights (done_ ++ accts)).
Proof.
  intros Hc Hnull. induction l as [|a l IH]; intros done_ base w s b s' Hs Hl Hd Hw Hrun; cbn in Hrun.
  { apply st_ret_Ok in Hrun as [-> ->]. split; [done|]. intros Hle. exists [].
    rewrite app_nil_r. split; [constructor|]. split; [done|lia]. }
  apply Forall_cons in Hl as [Hw0 Hl].
  apply st_bind_Ok in Hrun as (x & y & [= <- <-] & Hrun).
  (* skipping the entry *)
  assert (forall s1, sound s1 -> accounts_loop check threshold l w s1 = Ok (b, s') ->
    sound s' /\ (b = true -> exists accts, sublist accts (a :: l) /\
      (forall x, x ∈ done_ ++ accts -> approves x.1) /\ threshold <= base + sum_weights (done_ ++ accts))) as Hskip.
  { intros s1 Hs1 H. destruct (IH done_ base w s1 b s' Hs1 Hl Hd Hw H) as [Hs' He]. split; [done|].
    intros Hb. destruct (He Hb) as (accts & ? & ? & ?). exists accts. split; [by apply sublist_cons|done]. }
  (* counting it *)
  assert (forall s1, sound s1 -> approves a.1 ->
    (if threshold <=? u32 (w + a.2) then mret true else accounts_loop check threshold l (u32 (w + a.2))) s1
      = Ok (b, s') ->
    sound s' /\ (b = true -> exists accts, sublist accts (a :: l) /\
      (forall x, x ∈ done_ ++ accts -> approves x.1) /\ threshold <= base + sum_weights (done_ ++ accts))) as Hcount.
  { intros s1 Hs1 Ha H. pose proof (u32_le (w + a.2) ltac:(lia)) as Hu.
    assert (forall x, x ∈ done_ ++ [a] -> approves x.1) as Hd' by set_solver.
    assert (0 <= u32 (w + a.2) <= base + sum_weights (done_ ++ [a])) as Hw'.
    { rewrite sum_weights_app. cbn. lia. }
    destruct (Z.leb_spec threshold (u32 (w + a.2))).
    - apply st_ret_Ok in H as [-> ->]. split; [done|]. intros _. exists [a].
      split; [by apply sublist_skip, sublist_nil_l|]. split; [done|lia].
    - destruct (IH _ base _ s1 b s' Hs1 Hl Hd' Hw' H) as [Hs' He]. split; [done|].
      intros Hb. destruct (He Hb) as (accts & ? & ? & ?). exists (a :: accts).
      rewrite <- !app_assoc in *. split; [by apply sublist_skip|done]. }
  destruct (Flat.mem String.ltb a.1 (approved_by s)) eqn:Em.
  { apply (Hcount s); try done. apply Hs. by apply (mem_spec String.ltb). }
  destruct check as [c|]; [|by apply (Hskip s)].
  apply st_bind_Ok in Hrun as (au & s1 & H1 & Hrun). apply lift_Ok in H1 as [Hau ->].
  apply st_bind_Ok in Hrun as (b' & s2 & H2 & Hrun).
  assert (get_active s = g) as Eg by apply Hs. rewrite Eg in Hau.
  destruct au as [au|].
  - destruct (Hc c au s b' s2 eq_refl Hs H2 (g_weights _ _ Hau)) as [Hs2 Hb'].
    destruct b'; [|by apply (Hskip s2)].
    apply st_bind_Ok in Hrun as (u & s3 & H3 & Hrun). apply modify_st_Ok in H3 as ->.
    assert (approves a.1) as Ha by (apply (approves_auth _ au); auto).
    refine (Hcount _ _ Ha Hrun). by apply approve_sound.
  - destruct (Hnull c s b' s2 eq_refl H2) as [-> ->]. by apply (Hskip s).
Qed.

Lemma check_null n s b s' : check_authority n None s = Ok (b, s') -> b = false /\ s' = s.
Proof. destruct n; cbn; intros H; apply st_ret_Ok in H; tauto. Qed.

(** The keys, then the accounts. *)
Lemma check_body_sound check au :
  (forall c au s b s', check = Some c -> sound s -> c (Some au) s = Ok (b, s') -> weights_ok au ->
     sound s' /\ (b = true -> satisfied au)) ->
  (forall c s b s', check = Some c -> c None s = Ok (b, s') -> b = false /\ s' = s) ->
  forall s b s', sound s -> weights_ok au ->
  (r ← keys_loop (weight_threshold au) (key_auths au) 0;
   match r with
   | inl _ => mret true
   | inr w => accounts_loop check (weight_threshold au) (account_auths au) w
   end) s = Ok (b, s') ->
  sound s' /\ (b = true -> satisfied au).
Proof.
  intros Hc Hnull s b s' Hs [Hwa Hwk] Hrun.
  apply st_bind_Ok in Hrun as (r & s1 & H1 & Hrun).
  destruct (keys_loop_sound _ _ [] 0 s r s1 Hs Hwk ltac:(set_solver) ltac:(cbn; lia) H1)
      as (Hs1 & ks & Hsub & Hks & Hr). cbn [app] in *.
  destruct r as [u|w].
  - apply st_ret_Ok in Hrun as [-> ->]. split; [done|]. intros _.
    apply (satisfied_by _ ks []); [done|apply sublist_nil_l|done|set_solver|cbn; lia].
  - destruct (accounts_loop_sound check _ _ Hc Hnull [] (sum_weights ks) w s1 b s' Hs1 Hwa
      ltac:(set_solver) ltac:(cbn; lia) Hrun) as [Hs' He].
    split; [done|]. intros Hb. destruct (He Hb) as (accts & ? & ? & ?).
    by apply (satisfied_by _ ks accts).
Qed.

(** A check that succeeds has found enough weight. *)
Lemma check_sound n : forall au s b s', sound s -> weights_ok au ->
  check_authority n (Some au) s = Ok (b, s') -> sound s' /\ (b = true -> satisfied au).
Proof.
  induction n as [|n IH]; intros au s b s' Hs Hw Hrun; cbn in Hrun;
    refine (check_body_sound _ au _ _ s b s' Hs Hw Hrun).
  - done.
  - done.
  - intros c au' s1 b1 s1' [= <-]. eauto.
  - intros c s1 b1 s1' [= <-]. apply check_null.
Qed.
End Getter.

(** ** Completeness within the recursion depth *)

Section Complete.
Context (g : authority_getter) (K : public_key -> bool) (init : string -> bool).

(** What fits in the 32-bit total of the check. *)
Definition weights_fit (a : authority) : Prop :=
  weights_ok a /\ sum_weights (key_auths a) + sum_weights (account_auths a) < 2 ^ 32.
Context (g_total : forall id, exists o, g id = Ok o).
Context (g_weights : forall id a, g id = Ok (Some a) -> weights_fit a).

Definition sum_where {A} (P : A -> bool) (l : list (A * Z)) : Z := sum_weights (List.filter (fun x => P x.1) l).

(** Satisfaction through at most [n] levels of accounts, without any memory of
    earlier approvals. *)
Fixpoint sat (n : nat) (a : authority) : bool :=
  weight_threshold a <=?
    sum_where K (key_auths a) +
    sum_where (fun id => init id ||
      match n with
      | O => false
      | S n => match g id with Ok (Some a') => sat n a' | _ => false end
      end) (account_auths a).

Definition full s : Prop :=
  get_active s = g /\
  (forall id, init id = true -> id ∈ approved_by s) /\
  (forall k, K k = true -> k ∈ (provided_signatures s).*1 \/ k ∈ available_keys s).

Lemma sum_weights_nonneg {A} (l : list (A * Z)) : Forall (fun x => 0 <= x.2) l -> 0 <= sum_weights l.
Proof. induction 1; cbn; [lia|]. unfold sum_weights in *. lia. Qed.

Lemma sum_where_nonneg {A} P (l : list (A * Z)) : Forall (fun x => 0 <= x.2) l -> 0 <= sum_where P l.
Proof.
  intros Hl. apply sum_weights_nonneg. induction Hl; cbn; [constructor|].
  destruct (P x.1); [by constructor|done].
Qed.

Lemma sum_where_cons {A} P x (l : list (A * Z)) :
  sum_where P (x :: l) = (if P x.1 then x.2 else 0) + sum_where P l.
Proof. unfold sum_where; cbn. by destruct (P x.1). Qed.

Lemma signed_by_full k s : full s -> exists b s', signed_by k s = Ok (b, s') /\ full s' /\ (K k = true -> b = true).
Proof.
  intros (Hg & Ha & Hk). unfold signed_by, mbind, st_bind, get_st, modify_st, mret, st_ret.
  destruct (Flat.find Z.ltb k (provided_signatures s)) as [x|] eqn:E.
  - do 2 eexists. split; [done|]. split; [|done]. split_and!; [done|done|]. cbn. intros k' Hk'.
    destruct (Hk k' Hk'); [left; apply (set_keys Z.ltb); auto|by right].
  - destruct (Flat.mem Z.ltb k (available_keys s)) eqn:Em; do 2 eexists; (split; [done|]).
    + split; [|done]. split_and!; [done|done|]. cbn. intros k' Hk'.
      destruct (Hk k' Hk'); [left; apply (set_keys Z.ltb); auto|by right].
    + split; [done|]. intros HK. destruct (Hk k HK) as [Hin|Hin].
      * apply (find_keys Z.ltb) in Hin as [? ?]. congruence.
      * apply (mem_spec Z.ltb) in Hin. congruence.
Qed.

Lemma keys_loop_full threshold l : forall w s, full s -> Forall (fun x => 0 <= x.2) l ->
  0 <= w -> w + sum_weights l < 2 ^ 32 ->
  exists r s', keys_loop threshold l w s = Ok (r, s') /\ full s' /\
    match r with inl _ => True | inr w' => w + sum_where K l <= w' /\ w' <= w + sum_weights l end.
Proof.
  induction l as [|k l IH]; intros w s Hs Hl Hw Hb; cbn [keys_loop].
  { do 2 eexists. split; [done|]. split; [done|]. cbn. lia. }
  apply Forall_cons in Hl as [Hk Hl].
  destruct (signed_by_full k.1 s Hs) as (b & s1 & E & Hs1 & Hb1).
  unfold mbind, st_bind. rewrite E. rewrite sum_where_cons. cbn [sum_weights foldr] in *.
  fold (sum_weights l) in *. pose proof (sum_weights_nonneg l Hl).
  destruct b.
  - rewrite wrap_small by lia. destruct (threshold <=? w + k.2); [by do 2 eexists|].
    destruct (IH (w + k.2) s1 Hs1 Hl) as (r & s' & E' & Hs' & Hr); [lia|lia|].
    do 2 eexists. split; [exact E'|]. split; [done|]. destruct r; [done|]. destruct (K k.1); lia.
  - destruct (IH w s1 Hs1 Hl) as (r & s' & E' & Hs' & Hr); [lia|lia|].
    do 2 eexists. split; [exact E'|]. split; [done|]. destruct r; [done|].
    destruct (K k.1); [by specialize (Hb1 eq_refl)|lia].
Qed.

Lemma accounts_loop_full check (p : authority -> bool) threshold l :
  (forall c au s, check = Some c -> full s -> weights_fit au ->
     exists b s', c (Some au) s = Ok (b, s') /\ full s' /\ (p au = true -> b = true)) ->
  (forall c s, check = Some c -> c None s = Ok (false, s)) ->
  forall w s, full s -> Forall (fun x => 0 <= x.2) l -> 0 <= w -> w + sum_weights l < 2 ^ 32 ->
  exists b s', accounts_loop check threshold l w s = Ok (b, s') /\ full s' /\
    (threshold <= w + sum_where (fun id => init id ||
        match check with
        | None => false
        | Some _ => match g id with Ok (Some a') => p a' | _ => false end
        end) l -> b = true).
Proof.
  intros Hc Hnull. induction l as [|a l IH]; intros w s Hs Hl Hw Hb; cbn [accounts_loop].
  { do 2 eexists. split; [done|]. split; [done|]. cbn. lia. }
  apply Forall_cons in Hl as [Ha Hl]. unfold mbind at 1, st_bind at 1, get_st. rewrite sum_where_cons.
  cbn [sum_weights foldr] in Hb. fold (sum_weights l) in Hb. pose proof (sum_weights_nonneg l Hl).
  rewrite (wrap_small 32 (w + a.2)) by lia.
  (* counting the entry *)
  assert (Hcount : forall s1 n, full s1 -> n <= a.2 -> exists b s',
    (if threshold <=? w + a.2 then mret true else accounts_loop check threshold l (w + a.2)) s1 = Ok (b, s') /\
    full s' /\ (threshold <= w + (n + sum_where (fun id => init id ||
        match check with
        | None => false
        | Some _ => match g id with Ok (Some a') => p a' | _ => false end
        end) l) -> b = true)).
  { intros s1 n Hs1 Hn. destruct (threshold <=? w + a.2); [by do 2 eexists|].
    destruct (IH (w + a.2) s1 Hs1 Hl) as (b & s' & E & Hs' & Hb'); [lia|lia|].
    do 2 eexists. split; [exact E|]. split; [done|]. intros. apply Hb'. lia. }
  assert (Hif : forall b : bool, (if b then a.2 else 0) <= a.2) by (intros []; lia).
  destruct (Flat.mem String.ltb a.1 (approved_by s)) eqn:Em; [by apply Hcount|].
  assert (init a.1 = false) as ->.
  { destruct (init a.1) eqn:Ei; [|done]. apply Hs in Ei. apply (mem_spec String.ltb) in Ei. congruence. }
  cbn [orb]. destruct check as [c|].
  2: { destruct (IH w s Hs Hl) as (b & s' & E & Hs' & Hb'); [lia|lia|]. eauto. }
  assert (get_active s = g) as -> by apply Hs. destruct (g_total a.1) as [o Ho]. rewrite Ho.
  unfold mbind at 1, st_bind at 1, lift. destruct o as [au|].
  - destruct (Hc c au s eq_refl Hs (g_weights _ _ Ho)) as (b1 & s1 & E1 & Hs1 & Hb1).
    unfold mbind at 1, st_bind at 1. rewrite E1. destruct b1.
    + unfold mbind, st_bind, modify_st. apply Hcount; [|done].
      destruct Hs1 as (? & Hap & ?). split_and!; [done| |done]. cbn. intros id Hid.
      apply (insert_spec String.ltb). auto.
    + destruct (IH w s1 Hs1 Hl) as (b & s' & E & Hs' & Hb'); [lia|lia|].
      do 2 eexists. split; [exact E|]. split; [done|].
      destruct (p au); [by specialize (Hb1 eq_refl)|]. intros. apply Hb'. lia.
  - unfold mbind, st_bind. rewrite (Hnull c s eq_refl).
    destruct (IH w s Hs Hl) as (b & s' & E & Hs' & Hb'); [lia|lia|]. eauto.
Qed.

Lemma check_body_full check p au :
  (forall c au s, check = Some c -> full s -> weights_fit au ->
     exists b s', c (Some au) s = Ok (b, s') /\ full s' /\ (p au = true -> b = true)) ->
  (forall c s, check = Some c -> c None s = Ok (false, s)) ->
  forall s, full s -> weights_fit au -> exists b s',
  (r ← keys_loop (weight_threshold au) (key_auths au) 0;
   match r with
   | inl _ => mret true
   | inr w => accounts_loop check (weight_threshold au) (account_auths au) w
   end) s = Ok (b, s') /\ full s' /\
  (weight_threshold au <= sum_where K (key_auths au) + sum_where (fun id => init id ||
        match check with
        | None => false
        | Some _ => match g id with Ok (Some a') => p a' | _ => false end
        end) (account_auths au) -> b = true).
Proof.
  intros Hc Hnull s Hs [[Hwa Hwk] Hfit]. pose proof (sum_weights_nonneg _ Hwa).
  destruct (keys_loop_full (weight_threshold au) (key_auths au) 0 s Hs Hwk) as (r & s1 & E & Hs1 & Hr); [lia|lia|].
  unfold mbind, st_bind. rewrite E. destruct r as [u|w]; [by do 2 eexists|].
  pose proof (sum_where_nonneg K _ Hwk).
  destruct (accounts_loop_full check p (weight_threshold au) (account_auths au) Hc Hnull w s1 Hs1 Hwa)
    as (b & s' & E' & Hs' & Hb'); [lia|lia|].
  do 2 eexists. split; [exact E'|]. split; [done|]. intros. apply Hb'. lia.
Qed.

Lemma check_complete n : forall au s, full s -> weights_fit au -> exists b s',
  check_authority n (Some au) s = Ok (b, s') /\ full s' /\ (sat n au = true -> b = true).
Proof.
  induction n as [|n IH]; intros au s Hs Hw; cbn [check_authority sat].
  - destruct (check_body_full None (fun _ => false) au) with (s := s) as (b & s' & E & Hs' & Hb); [done..|].
    do 2 eexists. split; [exact E|]. split; [done|]. rewrite Z.leb_le. exact Hb.
  - destruct (check_body_full (Some (check_authority n)) (sat n) au) with (s := s)
      as (b & s' & E & Hs' & Hb); [| |done..|].
    + intros c au' s1 [= <-]. apply IH.
    + intros c s1 [= <-]. by destruct n.
    + do 2 eexists. split; [exact E|]. split; [done|]. rewrite Z.leb_le. exact Hb.
Qed.
End Complete.

(** ** What an authority check leaves alone *)

Section Preserved.
Context (P : sign_state -> Prop) (R : public_key -> Prop) (g : authority_getter).
Context (P_getter : forall s, P s -> get_active s = g).
Context (P_signed : forall k s b s', R k -> P s -> signed_by k s = Ok (b, s') -> P s').
Context (P_approved : forall id s, P s -> P (s <| approved_by ::= Flat.insert String.ltb id |>)).

(** All the keys of an authority satisfy [R]. *)
Definition keys_in (a : authority) : Prop := forall k, k ∈ key_auths a -> R k.1.
Context (g_keys : forall id a, g id = Ok (Some a) -> keys_in a).

Lemma keys_loop_preserves threshold l w s r s' : (forall k, k ∈ l -> R k.1) -> P s ->
  keys_loop threshold l w s = Ok (r, s') -> P s'.
Proof.
  revert w s. induction l as [|k l IH]; intros w s Hl Hs H; cbn in H; [run_inv; done|].
  apply st_bind_Ok in H as (b & s1 & H1 & H).
  assert (P s1) as Hs1 by (apply (P_signed k.1 s b); [apply Hl; set_solver|done|done]).
  assert (forall k', k' ∈ l -> R k'.1) as Hl' by set_solver.
  destruct b; [destruct (_ <=? _); [run_inv; done|]|]; by apply (IH _ s1 Hl' Hs1 H).
Qed.

Lemma accounts_loop_preserves check threshold l w s b s' :
  (forall c au s b s', check = Some c -> (forall a, au = Some a -> keys_in a) -> P s ->
     c au s = Ok (b, s') -> P s') ->
  P s -> accounts_loop check threshold l w s = Ok (b, s') -> P s'.
Proof.
  intros Hc. revert w s. induction l as [|a l IH]; intros w s Hs H; cbn in H; [run_inv; done|].
  apply st_bind_Ok in H as (? & ? & [= <- <-] & H).
  assert (forall s1, P s1 -> (if threshold <=? u32 (w + a.2) then mret true
    else accounts_loop check threshold l (u32 (w + a.2))) s1 = Ok (b, s') -> P s') as Hcount.
  { intros s1 Hs1 H1. destruct (_ <=? _); [run_inv; done|by apply (IH _ s1 Hs1 H1)]. }
  destruct (Flat.mem _ _ _); [by apply (Hcount s)|]. destruct check as [c|]; [|by apply (IH w s)].
  apply st_bind_Ok in H as (au & s1 & H1 & H). apply lift_Ok in H1 as [Hau ->].
  apply st_bind_Ok in H as (b' & s2 & H2 & H). rewrite (P_getter s Hs) in Hau.
  assert (P s2) as Hs2 by (apply (Hc c au s b' s2); [done|intros ? ->; eauto|done|done]).
  destruct b'; [|by apply (IH w s2 Hs2 H)].
  apply st_bind_Ok in H as (u & s3 & H3 & H). apply modify_st_Ok in H3 as ->.
  by apply (Hcount _ (P_approved a.1 s2 Hs2)).
Qed.

Lemma check_preserves n : forall au s b s', (forall a, au = Some a -> keys_in a) -> P s ->
  check_authority n au s = Ok (b, s') -> P s'.
Proof.
  induction n as [|n IH]; intros [au|] s b s' Hau Hs H; cbn in H; try (run_inv; done);
    apply st_bind_Ok in H as (r & s1 & H1 & H);
    apply keys_loop_preserves in H1; [|apply (Hau _ eq_refl)|done|
                                     |apply (Hau _ eq_refl)|done];
    (destruct r; [run_inv; done|]); apply accounts_loop_preserves in H; try done.
  intros c au' s2 b2 s2' [= <-]. eauto.
Qed.
End Preserved.
End SignFacts.

(** ** Properties of the signature checks *)

Module VerifyFacts.
Import SignState Verify FlatFacts SignFacts.

Lemma set_pairs {V} k (v : V) m x : x ∈ Flat.set Z.ltb k v m -> x = (k, v) \/ x ∈ m.
Proof.
  induction m as [|[y w] m IH]; cbn; [set_solver|].
  destruct (k <? y); [set_solver|]. destruct (y <? k); set_solver.
Qed.

Lemma make_keys sigs k m :
  k ∈ (foldl (fun m key => Flat.set Z.ltb key false m) m sigs).*1 <-> k ∈ sigs \/ k ∈ m.*1.
Proof.
  revert m. induction sigs as [|k' sigs IH]; intros m; cbn; [set_solver|].
  rewrite IH, (set_keys Z.ltb). set_solver.
Qed.

Lemma make_unused sigs k m : (k, true) ∈ foldl (fun m key => Flat.set Z.ltb key false m) m sigs -> (k, true) ∈ m.
Proof.
  revert m. induction sigs as [|k' sigs IH]; intros m H; cbn in H; [done|].
  apply IH, set_pairs in H as [|]; [congruence|done].
Qed.

Lemma make_sound G sigs ids (init : string -> Prop) n :
  init "temp"%string -> (forall id, id ∈ ids -> init id) ->
  sound G (fun k => k ∈ sigs) init
    (make sigs G [] <| max_recursion := n |> <| approved_by ::= fun s => foldl (fun r id => Flat.insert String.ltb id r) s ids |>).
Proof.
  intros Ht Hi. split_and!; [done| |].
  - intros id. cbn. intros [Hid|Hid]%(foldl_insert_spec String.ltb); [by apply approves_init, Hi|].
    assert (id = "temp"%string) as -> by set_solver. by apply approves_init.
  - intros k. cbn. rewrite make_keys. set_solver.
Qed.


(** Alice needs key 1 or the approval of both Bob and Carol; Bob is Alice's
    friend through key 2, and Carol through Alice: a cycle. *)
Definition example_getter : authority_getter := fun id => Ok (
  if String.eqb id "alice" then Some (Auth 2 [("bob", 1); ("carol", 1)]%string [(1, 2)])
  else if String.eqb id "bob" then Some (Auth 1 [] [(2, 1)])
  else if String.eqb id "carol" then Some (Auth 1 [("alice", 1)]%string [(3, 1)])
  else None).

Definition check_result (sigs : list public_key) (id : string) : result bool :=
  fst <$> check_authority_id id (make sigs example_getter []).
Example cycle_checks :
  check_result [2; 3] "alice" = Ok true /\ check_result [2] "alice" = Ok false /\
  check_result [1] "carol" = Ok true.
Proof. vm_compute. done. Qed.


Section Sound.
Context (req : requirements) (sigs : list public_key) (gs : getters) (n : nat)
        (active_approvals owner_approvals basic_approvals : list string).

(** The basic requirements the active and owner ones do not cover. *)
Definition uncovered : list string :=
  foldl (fun b a => Flat.erase String.ltb a b)
    (foldl (fun b a => Flat.erase String.ltb a b) (required_basic req) (required_active req)) (required_owner req).
Definition nested : authority_getter := if is_nil uncovered then active_of gs else basic_of gs.
Definition signed (k : public_key) : Prop := k ∈ sigs.
Definition approved (id : string) : Prop :=
  id = "temp"%string \/ id ∈ basic_approvals ++ active_approvals ++ owner_approvals.
Definition granted (get : authority_getter) (id : string) : Prop :=
  exists a, get id = Ok (Some a) /\ satisfied nested signed approved a.

(** The authorities the check may look at. *)
Definition consulted (a : authority) : Prop :=
  a ∈ other req \/ exists id get,
    get ∈ [active_of gs; owner_of gs; basic_of gs; master_content_of gs; comp_content_of gs] /\ get id = Ok (Some a).
Definition relevant (k : public_key) : Prop := exists a w, consulted a /\ (k, w) ∈ key_auths a.

Context (weights : forall a, consulted a -> weights_ok a).

Definition used s : Prop :=
  get_active s = nested /\ (forall k, (k, true) ∈ provided_signatures s -> relevant k) /\
  (forall k, signed k -> k ∈ (provided_signatures s).*1).
Definition invariant s : Prop := sound nested signed approved s /\ used s.

Lemma nested_in : nested ∈ [active_of gs; owner_of gs; basic_of gs; master_content_of gs; comp_content_of gs].
Proof. unfold nested. destruct (is_nil _); set_solver. Qed.

Lemma consulted_get get id a :
  get ∈ [active_of gs; owner_of gs; basic_of gs; master_content_of gs; comp_content_of gs] ->
  get id = Ok (Some a) -> consulted a.
Proof. right; eauto. Qed.

Lemma consulted_keys a : consulted a -> keys_in relevant a.
Proof. intros Ha [k w] Hk. by exists a, w. Qed.

Lemma used_signed k s b s' : relevant k -> used s -> signed_by k s = Ok (b, s') -> used s'.
Proof.
  intros Hk (Hg & Hu & Hp). unfold signed_by, mbind, st_bind, get_st, modify_st, mret, st_ret.
  assert (used (s <| provided_signatures ::= Flat.set Z.ltb k true |>)) as Hset.
  { split_and!; [done| |].
    - cbn. intros k' [[= ->]|]%set_pairs; auto.
    - cbn. intros k' Hk'. apply (set_keys Z.ltb). auto. }
  destruct (Flat.find _ _ _); [by intros [= <- <-]|].
  destruct (Flat.mem _ _ _); by intros [= <- <-].
Qed.

Lemma check_invariant m s b s' au : (forall a, au = Some a -> consulted a) -> invariant s ->
  check_authority m au s = Ok (b, s') ->
  invariant s' /\ (b = true -> exists a, au = Some a /\ satisfied nested signed approved a).
Proof.
  intros Ha [Hs Hu] H.
  assert (used s') as Hu'.
  { revert H. apply (check_preserves used relevant nested).
    - intros s0 H0. apply H0.
    - apply used_signed.
    - intros id s0 (? & ? & ?). by split_and!.
    - intros id a H0. eapply consulted_keys, consulted_get; [apply nested_in|exact H0].
    - intros a ->. by apply consulted_keys, Ha.
    - done. }
  destruct au as [a|].
  - destruct (check_sound nested signed approved) with (n := m) (au := a) (s := s) (b := b) (s' := s')
      as [Hs' Hb]; [|done|by apply weights, Ha|done|].
    + intros id a' H0. eapply weights, consulted_get; [apply nested_in|exact H0].
    + split; [by split|]. eauto.
  - apply check_null in H as [-> ->]. by split.
Qed.

Lemma check_of_invariant get id s b s' :
  get ∈ [active_of gs; owner_of gs; basic_of gs; master_content_of gs; comp_content_of gs] ->
  invariant s -> check_of get id s = Ok (b, s') -> invariant s' /\ (b = true -> granted get id).
Proof.
  intros Hget Hs H. unfold check_of, check_authority_top in H. run_inv.
  match goal with Hc : check_authority _ ?au _ = Ok _, Hg : get id = Ok ?au |- _ =>
    apply check_invariant in Hc as [? Hb]; [|intros a ->; by eapply consulted_get|done];
    split; [done|]; intros Ht; destruct (Hb Ht) as (a & -> & ?); by exists a end.
Qed.

Lemma check_id_invariant id s b s' : invariant s -> check_authority_id id s = Ok (b, s') ->
  invariant s' /\ (b = true -> approves nested signed approved id).
Proof.
  intros Hs H. unfold check_authority_id in H.
  apply st_bind_Ok in H as (? & ? & [= <- <-] & H).
  destruct (Flat.mem _ _ _) eqn:Em.
  - run_inv. split; [done|]. intros _. destruct Hs as [(_ & Ha & _) _]. apply Ha.
    by apply (mem_spec String.ltb).
  - assert (get_active s = nested) as Eg by apply Hs. rewrite Eg in H.
    destruct (check_of_invariant nested id s b s' nested_in Hs H) as [? Hb].
    split; [done|]. intros Ht. destruct (Hb Ht) as (a & ? & ?). by eapply approves_auth.
Qed.

Lemma or_else_invariant (A B : Prop) a b s r s' :
  (forall s r s', invariant s -> a s = Ok (r, s') -> invariant s' /\ (r = true -> A)) ->
  (forall s r s', invariant s -> b s = Ok (r, s') -> invariant s' /\ (r = true -> B)) ->
  invariant s -> or_else a b s = Ok (r, s') -> invariant s' /\ (r = true -> A \/ B).
Proof.
  intros Ha Hb Hs H. unfold or_else in H. apply st_bind_Ok in H as (x & s1 & H1 & H).
  destruct (Ha _ _ _ Hs H1) as [Hs1 HA]. destruct x.
  - run_inv. tauto.
  - destruct (Hb _ _ _ Hs1 H). tauto.
Qed.

(** A loop of checks, each asserted. *)
Lemma for_each_checked {A} (Q : A -> Prop) (c : A -> st sign_state bool) e l s u s' :
  (forall x s b s', x ∈ l -> invariant s -> c x s = Ok (b, s') -> invariant s' /\ (b = true -> Q x)) ->
  invariant s -> for_each l (fun x => b ← c x; btcm_assert b e) s = Ok (u, s') ->
  invariant s' /\ forall x, x ∈ l -> Q x.
Proof.
  revert s. induction l as [|x l IH]; intros s Hc Hs H; cbn [for_each] in H.
  { run_inv. split; [done|]. intros x Hx. by apply elem_of_nil in Hx. }
  apply st_bind_Ok in H as (u1 & s1 & H1 & H). apply st_bind_Ok in H1 as (b & s2 & H1 & H2).
  destruct (Hc x s b s2 (list_elem_of_here _ _) Hs H1) as [Hs2 Hb].
  destruct b; [|discriminate H2]. injection H2 as _ ->.
  destruct (IH s1) as [? ?]; [|done|exact H|].
  { intros y s3 b3 s3' Hy. apply Hc. by apply list_elem_of_further. }
  split; [done|]. intros y [->|]%elem_of_cons; auto.
Qed.

Lemma remove_unused_relevant s s' : invariant s -> remove_unused_signatures s = Ok (false, s') ->
  forall k, signed k -> relevant k.
Proof.
  intros [_ (_ & Hu & Hp)] H k Hk. cbn in H. injection H as H _.
  destruct (List.filter _ (provided_signatures s)) as [|? ?] eqn:E; [|discriminate H].
  specialize (Hp k Hk). apply list_elem_of_fmap in Hp as ([k' b] & -> & Hin).
  destruct b; [by apply Hu|]. exfalso.
  assert ((k', false) ∈ List.filter (fun sig : public_key * bool => negb sig.2) (provided_signatures s)) as Hf
    by (apply list_elem_of_In, filter_In; split; [by apply list_elem_of_In|done]).
  rewrite E in Hf. by apply elem_of_nil in Hf.
Qed.
End Sound.

Lemma initial_invariant req sigs gs n aa oa ba :
  invariant req sigs gs aa oa ba
    (make sigs (nested req gs) [] <| max_recursion := n |>
      <| approved_by ::= fun s => foldl (fun r id => Flat.insert String.ltb id r) s (ba ++ aa ++ oa) |>).
Proof.
  split; [apply make_sound; [by left|intros id; by right]|].
  split_and!; [done| |].
  - cbn. intros k H%make_unused. set_solver.
  - cbn. intros k Hk. apply make_keys. by left.
Qed.


Definition example_getters : getters :=
  Getters example_getter example_getter example_getter example_getter example_getter.
Definition example_requirements : requirements := Requirements ["alice"%string] [] [] [] [] [].

End VerifyFacts.

(** ** The search for signatures *)

Module SignaturesFacts.
Import SignState Verify FlatFacts.

Lemma flat_insert_sorted k s : StronglySorted Z.lt s -> StronglySorted Z.lt (Flat.insert Z.ltb k s).
Proof.
  induction 1 as [|x s Hs IH Hx]; cbn; [by repeat constructor|]. rewrite Forall_forall in Hx.
  destruct (Z.ltb_spec k x); [|destruct (Z.ltb_spec x k)]; (constructor; [by try constructor; try apply Forall_forall|]);
    apply Forall_forall; intros y Hy; [| |by apply Hx].
  - apply elem_of_cons in Hy as [->|Hy]; [done|]. specialize (Hx y Hy). lia.
  - apply (insert_spec Z.ltb) in Hy as [->|Hy]; [done|by apply Hx].
Qed.

Lemma erase_other k s : k ∉ s -> Flat.erase Z.ltb k s = s.
Proof.
  induction s as [|x s IH]; cbn; [done|]. intros Hk. destruct (_ || _) eqn:E; [f_equal; apply IH; set_solver|].
  assert (k = x) as -> by lia. set_solver.
Qed.

(** Erasing a key of a sorted set and putting it back changes nothing. *)
Lemma insert_erase k s : StronglySorted Z.lt s -> k ∈ s -> Flat.insert Z.ltb k (Flat.erase Z.ltb k s) = s.
Proof.
  induction 1 as [|x s Hs IH Hx]; cbn; intros Hk; [by apply elem_of_nil in Hk|]. rewrite Forall_forall in Hx.
  destruct ((k <? x) || (x <? k)) eqn:E.
  - apply elem_of_cons in Hk as [->|Hk]; [lia|]. specialize (Hx k Hk). cbn.
    destruct (Z.ltb_spec k x); [lia|]. destruct (Z.ltb_spec x k); [f_equal; by apply IH|lia].
  - assert (k = x) as -> by lia. assert (x ∉ s) as Hn by (intros H; specialize (Hx x H); lia).
    pose proof (erase_other x s Hn) as ->%(eq_trans (eq_refl : List.filter _ s = Flat.erase Z.ltb x s)).
    destruct s as [|y s]; [done|]. cbn. specialize (Hx y (list_elem_of_here _ _)).
    destruct (Z.ltb_spec x y); [done|lia].
Qed.

Lemma erase_sorted k s : StronglySorted Z.lt s -> StronglySorted Z.lt (Flat.erase Z.ltb k s).
Proof.
  induction 1 as [|x s Hs IH Hx]; cbn; [constructor|]. destruct (_ || _); [|done]. constructor; [done|].
  rewrite Forall_forall in Hx |- *. intros y [_ Hy]%(erase_spec Z.ltb). auto.
Qed.

Lemma available_spec avail s : StronglySorted Z.lt (available_signatures avail s) /\
  forall k, k ∈ available_signatures avail s -> k ∈ avail /\ k ∈ (provided_signatures s).*1.
Proof.
  unfold available_signatures. generalize (provided_signatures s) as l. intros l.
  assert (forall res m, StronglySorted Z.lt res -> (forall k, k ∈ res -> k ∈ avail /\ k ∈ m.*1) ->
    let r := foldl (fun res sig => if Flat.mem Z.ltb sig.1 avail then Flat.insert Z.ltb sig.1 res else res) res l in
    StronglySorted Z.lt r /\ forall k, k ∈ r -> k ∈ avail /\ k ∈ (m ++ l).*1) as H.
  { induction l as [|x l IH]; intros res m Hs Hr; cbn [foldl]; [by rewrite app_nil_r|].
    replace (m ++ x :: l) with ((m ++ [x]) ++ l) by (by rewrite <-app_assoc). apply IH.
    - destruct (Flat.mem _ _ _); [by apply flat_insert_sorted|done].
    - intros k Hk. rewrite fmap_app, elem_of_app. destruct (Flat.mem _ _ _) eqn:E; [|naive_solver].
      apply (insert_spec Z.ltb) in Hk as [->|Hk]; [|naive_solver]. apply (mem_spec Z.ltb) in E. set_solver. }
  apply (H [] []); [constructor|set_solver].
Qed.

Lemma required_available req keys avail g n s : get_required_signatures req keys avail g n = Ok s ->
  StronglySorted Z.lt s /\ forall k, k ∈ s -> k ∈ avail.
Proof.
  assert (forall c s0, used_signatures avail c s0 = Ok s -> StronglySorted Z.lt s /\ forall k, k ∈ s -> k ∈ avail) as Hu.
  { intros c s0 H. unfold used_signatures in H.
    match type of H with match ?o with _ => _ end = _ => destruct o as [[s1 ?]|]; [|done] end. injection H as <-.
    destruct (available_spec avail s1) as [Hs Hk]. split; [done|]. intros k []%Hk. done. }
  intros H. unfold get_required_signatures in H. apply bind_Ok in H as (sigs & _ & H).
  destruct (negb _); [apply bind_Ok in H as (? & _ & H); apply bind_Ok in H as (? & _ & H)|]; by eapply Hu.
Qed.

Section Minimize.
Context (verify : list public_key -> result unit).

Lemma minimize_spec l res r : StronglySorted Z.lt res -> StronglySorted Z.lt l -> (forall k, k ∈ l -> k ∈ res) ->
  minimize_loop verify l res = Ok r ->
  (forall k, k ∈ r -> k ∈ res) /\ (forall k, k ∈ res -> k ∉ l -> k ∈ r) /\ (r = res \/ verify r = Ok tt).
Proof.
  revert res. induction l as [|k l IH]; intros res Hs Hl Hk H; cbn in H.
  { injection H as ->. split_and!; auto. }
  apply StronglySorted_inv in Hl as [Hl Hlt]. rewrite Forall_forall in Hlt.
  destruct (verify (Flat.erase Z.ltb k res)) as [[]|e] eqn:Ev.
  - apply IH in H as (H1 & H2 & H3); [|by apply erase_sorted|done|].
    2: { intros y Hy. apply (erase_spec Z.ltb). specialize (Hlt y Hy). split; [lia|]. apply Hk. set_solver. }
    split; [intros y [_ Hy]%H1%(erase_spec Z.ltb); done|]. split.
    + intros y Hy [Hn Hn']%not_elem_of_cons. apply H2; [|done]. apply (erase_spec Z.ltb). by split.
    + right. destruct H3 as [->|]; done.
  - destruct (is_missing_auth e); [|done]. rewrite insert_erase in H by (done || apply Hk; set_solver).
    apply IH in H as (H1 & H2 & H3); [|done..|set_solver]. split; [done|]. split; [set_solver|done].
Qed.
End Minimize.

(** The signatures [minimize_required_signatures] asks for are of available keys and
    among those [get_required_signatures] found; and they pass [verify_authority] when
    any was left out, or when those it found do. *)
Lemma minimized_signatures req keys avail g n r : minimize_required_signatures req keys avail g n = Ok r ->
  exists s, get_required_signatures req keys avail g n = Ok s /\ (forall k, k ∈ r -> k ∈ s /\ k ∈ avail) /\
    let verified sigs := verify_authority req sigs g false n [] [] [] = Ok tt in
    (r = s \/ verified r) /\ (verified s -> verified r).
Proof.
  intros H. unfold minimize_required_signatures in H. apply bind_Ok in H as (s & Hs & H). exists s. split; [done|].
  destruct (required_available _ _ _ _ _ _ Hs) as [Hsort Hav].
  apply minimize_spec in H as (H1 & _ & H3); [|done..]. split; [intros k Hk; split; auto|].
  split; [done|]. by destruct H3 as [->|].
Qed.

Example minimized_example :
  get_required_signatures VerifyFacts.example_requirements [] [1; 2; 3; 4] VerifyFacts.example_getters 2 = Ok [1] /\
  minimize_required_signatures VerifyFacts.example_requirements [] [2; 3; 4] VerifyFacts.example_getters 2 = Ok [2; 3].
Proof. split; vm_compute; reflexivity. Qed.

(** The keys that manage a content are not searched for: the one signature that would
    do is not asked for. *)
Definition song_requirements : requirements := Requirements [] [] [] ["bmfs://song"%string] [] [].
Definition song_getters : getters :=
  let g := VerifyFacts.example_getters in
  Getters (active_of g) (owner_of g) (basic_of g) (fun _ => Ok (Some (Auth 1 [] [(5, 1)]))) (comp_content_of g).
Example content_keys_forgotten :
  verify_authority song_requirements [5] song_getters false 2 [] [] [] = Ok tt /\
  get_required_signatures song_requirements [] [5] song_getters 2 = Ok [] /\
  minimize_required_signatures song_requirements [] [5] song_getters 2 = Ok [].
Proof. split_and!; vm_compute; reflexivity. Qed.
End SignaturesFacts.
