(* ===== verification/ForkDatabase.v ===== *)
(** * The fork database: the tree of recent blocks

    Models libraries/chain/fork_database.cpp and fork_database.hpp, with the
    block ids of protocol/block.cpp.  The items are shared objects: [heap] holds
    every [fork_item] ever allocated and the containers hold addresses in it.  A
    [weak_ptr] locks while one of the containers or [_head] still owns the item.
    Every exception of an operation is thrown before its first change. *)

From S2P Require Import Prelude.

(** [block_id_type], a hash whose first four bytes are the block number. *)
Record block_id := BlockId { id_num : Z; id_digest : Z }.
#[export] Instance block_id_eq_dec : EqDecision block_id.
Proof. solve_decision. Defined.
(** [block_id_type()] *)
Definition null_id : block_id := BlockId 0 0.

(** What the fork database reads of a [signed_block]; the digest of its contents
    is computed by the crypto library. *)
Class BlockData (B : Type) := { previous : B -> block_id; digest : B -> Z }.

Section Block.
Context {B : Type} {Data : BlockData B}.

(** [block_header::num_from_id], [signed_block_header::block_num] and [id]. *)
Definition num_from_id (id : block_id) : Z := id_num id.
Definition block_num (b : B) : Z := u32 (num_from_id (previous b) + 1).
Definition block_id_of (b : B) : block_id := BlockId (block_num b) (digest b).
End Block.

Record fork_item (B : Type) := ForkItem {
  prev : option nat;
  num : Z;
  invalid : bool;
  item_id : block_id;
  data : B
}.
Arguments ForkItem {B}.
Arguments prev {B}.
Arguments num {B}.
Arguments invalid {B}.
Arguments item_id {B}.
Arguments data {B}.
#[export] Instance eta_fork_item B : Settable (fork_item B) := fun i =>
  ForkItem (prev i) (num i) (invalid i) (item_id i) (data i).

(** [_index] and [_unlinked_index] are given by the order of the index on
    [block_num]: elements of equal number in the order of insertion. *)
Record fork_database (B : Type) := ForkDb {
  heap : list (fork_item B);
  max_cached : Z;
  unlinked_index : list nat;
  index : list nat;
  head : option nat
}.
Arguments ForkDb {B}.
Arguments heap {B}.
Arguments max_cached {B}.
Arguments unlinked_index {B}.
Arguments index {B}.
Arguments head {B}.
#[export] Instance eta_fork_database B : Settable (fork_database B) := fun s =>
  ForkDb (heap s) (max_cached s) (unlinked_index s) (index s) (head s).

Module ForkDatabase.
Section Fork.
Context {B : Type} {Data : BlockData B}.
Implicit Types (s : fork_database B) (h : list (fork_item B)) (p : nat).

Definition empty : fork_database B := ForkDb [] 1024 [] [] None.

(** Reading through a pointer. *)
Definition num_at h p : Z := from_option num 0 (h !! p).
Definition id_at h p : block_id := from_option item_id null_id (h !! p).
Definition deref p : st (fork_database B) (fork_item B) :=
  h ← gets (heap (B:=B)); lift (of_option undefined_behaviour (h !! p)).

(** ** The containers *)

(** [index.find( id )] on the unique index by id. *)
Definition find_id h (l : list nat) (id : block_id) : option nat :=
  List.find (fun p => bool_decide (id_at h p = id)) l.

Fixpoint insert_by_num h p (l : list nat) : list nat :=
  match l with
  | [] => [p]
  | q :: l' => if num_at h p <? num_at h q then p :: l else q :: insert_by_num h p l'
  end.
Definition insert h p (l : list nat) : list nat :=
  match find_id h l (id_at h p) with Some _ => l | None => insert_by_num h p l end.

(** [while( size && begin->num < bound ) erase( begin )] *)
Fixpoint erase_below h (bound : Z) (l : list nat) : list nat :=
  match l with
  | [] => []
  | p :: l' => if num_at h p <? bound then erase_below h bound l' else l
  end.
Definition erase_num h (n : Z) (l : list nat) : list nat := List.filter (fun p => negb (num_at h p =? n)) l.

(** [weak_ptr::lock] *)
Definition alive s p : bool :=
  bool_decide (p ∈ index s) || bool_decide (p ∈ unlinked_index s) || bool_decide (head s = Some p).
Definition lock s (w : option nat) : option nat :=
  match w with Some p => if alive s p then Some p else None | None => None end.

(** [std::make_shared<fork_item>( b )] *)
Definition make_item (b : B) : st (fork_database B) nat :=
  s ← get_st;
  _ ← modify_st (fun s => s <| heap ::= fun h => h ++ [ForkItem None (block_num b) false (block_id_of b) b] |>);
  mret (length (heap s)).

(** ** Operations *)

Definition reset : st (fork_database B) unit := modify_st (fun s => s <| head := None |> <| index := [] |>).

Definition pop_block : st (fork_database B) unit :=
  s ← get_st;
  hd ← lift (of_option assert_exception (head s));
  item ← deref hd;
  p ← lift (of_option assert_exception (lock s (prev item)));
  modify_st (fun s => s <| head := Some p |>).

Definition start_block (b : B) : st (fork_database B) unit :=
  item ← make_item b;
  modify_st (fun s => s <| index ::= insert (heap s) item |> <| head := Some item |>).

(** [_push_block]: the link to the parent, *)
Definition link_item p : st (fork_database B) unit :=
  s ← get_st;
  item ← deref p;
  match head s with
  | Some _ =>
      if bool_decide (previous (data item) = null_id) then mret tt
      else
        q ← lift (of_option unlinkable_block_exception (find_id (heap s) (index s) (previous (data item))));
        parent ← deref q;
        _ ← assert_st (negb (invalid parent));
        modify_st (fun s => s <| heap ::= alter (fun i => i <| prev := Some q |>) p |>)
  | None => mret tt
  end.

(** the new head and what falls out of the window, *)
Definition advance_head p : st (fork_database B) unit :=
  modify_st (fun s =>
    let s := s <| head := Some p |> in
    let n := num_at (heap s) p in
    let min_num := n - Z.min (max_cached s) n in
    s <| index ::= erase_below (heap s) min_num |>
      <| unlinked_index ::= erase_num (heap s) (u32 (n - max_cached s)) |>).

(** and the whole. *)
Definition _push_block p : st (fork_database B) unit :=
  s ← get_st;
  item ← deref p;
  _ ← (match head s with
       | Some hd =>
           hd ← deref hd;
           assert_st (num item >? Z.max 0 (num hd - max_cached s))
       | None => mret tt
       end);
  _ ← link_item p;
  _ ← modify_st (fun s => s <| index ::= insert (heap s) p |>);
  s ← get_st;
  match head s with
  | None => modify_st (fun s => s <| head := Some p |>)
  | Some hd => when (num_at (heap s) p >? num_at (heap s) hd) (advance_head p)
  end.

(** An unlinkable block is logged, through the head, and rethrown before it can
    reach the unlinked index. *)
Definition push_block (b : B) : st (fork_database B) (option nat) :=
  item ← make_item b;
  s ← get_st;
  match _push_block item s with
  | Throw unlinkable_block_exception =>
      match head s with
      | Some _ => throw unlinkable_block_exception
      | None => throw undefined_behaviour
      end
  | r => _ ← (fun _ => r); gets (head (B:=B))
  end.

Definition set_max_size (n : Z) : st (fork_database B) unit :=
  _ ← modify_st (fun s => s <| max_cached := n |>);
  s ← get_st;
  match head s with
  | None => mret tt
  | Some hd =>
      let bound := Z.max 0 (num_at (heap s) hd - max_cached s) in
      _ ← modify_st (fun s => s <| index ::= erase_below (heap s) bound |>);
      modify_st (fun s => s <| unlinked_index ::= erase_below (heap s) bound |>)
  end.

Definition is_known_block s (id : block_id) : bool :=
  match find_id (heap s) (index s) id with
  | Some _ => true
  | None => match find_id (heap s) (unlinked_index s) id with Some _ => true | None => false end
  end.

Definition fetch_block s (id : block_id) : option nat :=
  match find_id (heap s) (index s) id with
  | Some p => Some p
  | None => find_id (heap s) (unlinked_index s) id
  end.

Definition fetch_block_by_number s (n : Z) : list nat :=
  List.filter (fun p => num_at (heap s) p =? n) (index s).

Definition set_head p : st (fork_database B) unit := modify_st (fun s => s <| head := Some p |>).

Definition remove (id : block_id) : st (fork_database B) unit :=
  modify_st (fun s => s <| index ::= List.filter (fun p => negb (bool_decide (id_at (heap s) p = id))) |>).

(** [item->invalid = true], done by [database::push_block]. *)
Definition set_invalid p : st (fork_database B) unit :=
  modify_st (fun s => s <| heap ::= alter (fun i => i <| invalid := true |>) p |>).

(** ** [fetch_branch_from] *)

(** [data.block_num()] and [data.previous] of an item. *)
Definition data_num s p : Z := from_option (fun i => block_num (data i)) 0 (heap s !! p).
Definition data_previous s p : block_id := from_option (fun i => previous (data i)) null_id (heap s !! p).
Definition parent s p : result nat :=
  of_option assert_exception (lock s (heap s !! p ≫= prev)).

(** The loop that climbs the longer branch; [None] is out of fuel. *)
Fixpoint climb (fuel : nat) s (branch : nat) (target : Z) (acc : list nat) : option (result (nat * list nat)) :=
  match fuel with
  | O => None
  | S fuel =>
      if data_num s branch >? target then
        match parent s branch with
        | Ok p => climb fuel s p target (acc ++ [branch])
        | Throw e => Some (Throw e)
        end
      else Some (Ok (branch, acc))
  end.

(** The loop that climbs both. *)
Fixpoint climb_both (fuel : nat) s (first second : nat) (acc1 acc2 : list nat) :
    option (result (list nat * list nat)) :=
  match fuel with
  | O => None
  | S fuel =>
      if bool_decide (data_previous s first = data_previous s second) then
        Some (Ok (acc1 ++ [first], acc2 ++ [second]))
      else
        match parent s first with
        | Throw e => Some (Throw e)
        | Ok p1 =>
            match parent s second with
            | Throw e => Some (Throw e)
            | Ok p2 => climb_both fuel s p1 p2 (acc1 ++ [first]) (acc2 ++ [second])
            end
        end
  end.

Definition fetch_branch_from (fuel : nat) s (first second : block_id) : option (result (list nat * list nat)) :=
  match find_id (heap s) (index s) first with
  | None => Some (Throw assert_exception)
  | Some a =>
      match find_id (heap s) (index s) second with
      | None => Some (Throw assert_exception)
      | Some b =>
          match climb fuel s a (data_num s b) [] with
          | Some (Ok (a, acc1)) =>
              match climb fuel s b (data_num s a) [] with
              | Some (Ok (b, acc2)) => climb_both fuel s a b acc1 acc2
              | Some (Throw e) => Some (Throw e)
              | None => None
              end
          | Some (Throw e) => Some (Throw e)
          | None => None
          end
      end
  end.

End Fork.
End ForkDatabase.
