(* ===== verification/ForkFacts.v ===== *)
(** * Facts about the fork database

    Every operation keeps the tree well formed; [push_block] is described branch
    by branch; [fetch_branch_from] terminates and finds the most recent common
    ancestor whenever there is one. *)

From S2P Require Import Prelude.
From S2P Require Import ForkDatabase.

Module ForkFacts.
Import ForkDatabase.
Section Fork.
Context {B : Type} {Data : BlockData B}.
Implicit Types (s : fork_database B) (h : list (fork_item B)) (p q : nat).

(** ** Well-formedness *)

Definition item_wf h p (i : fork_item B) : Prop :=
  num i = block_num (data i) /\ item_id i = block_id_of (data i) /\
  forall q, prev i = Some q -> (q < p)%nat /\ id_at h q = previous (data i).

Fixpoint sorted_by h (l : list nat) : Prop :=
  match l with
  | [] => True
  | p :: l => Forall (fun q => num_at h p <= num_at h q) l /\ sorted_by h l
  end.

Record wf s : Prop := {
  wf_items : forall p i, heap s !! p = Some i -> item_wf (heap s) p i;
  wf_index : Forall (fun p => (p < length (heap s))%nat) (index s);
  wf_sorted : sorted_by (heap s) (index s);
  wf_unique : forall p q, p ∈ index s -> q ∈ index s -> id_at (heap s) p = id_at (heap s) q -> p = q;
  wf_unlinked : unlinked_index s = [];
  wf_head : forall p, head s = Some p -> (p < length (heap s))%nat
}.

(** ** The containers *)

Lemma find_id_Some h l id p : find_id h l id = Some p -> p ∈ l /\ id_at h p = id.
Proof.
  intros H. apply find_some in H as [Hin H]. apply bool_decide_eq_true in H.
  by rewrite list_elem_of_In.
Qed.

Lemma find_id_None h l id : find_id h l id = None <-> forall p, p ∈ l -> id_at h p <> id.
Proof.
  split.
  - intros H p Hp. apply list_elem_of_In in Hp. pose proof (find_none _ _ H p Hp) as Hf.
    by apply bool_decide_eq_false in Hf.
  - intros H. induction l as [|q l IH]; cbn; [done|]. rewrite bool_decide_false by set_solver.
    apply IH. set_solver.
Qed.

Lemma find_id_is_Some h l id : is_Some (find_id h l id) <-> exists p, p ∈ l /\ id_at h p = id.
Proof.
  destruct (find_id h l id) as [p|] eqn:E.
  - apply find_id_Some in E. split; [eauto|]. intros _. by eexists.
  - rewrite find_id_None in E. split; [by intros []|]. intros (p & Hp & Hid). by destruct (E p Hp).
Qed.

Lemma insert_by_num_spec h p l x : x ∈ insert_by_num h p l <-> x = p \/ x ∈ l.
Proof.
  induction l as [|q l IH]; cbn; [set_solver|]. destruct (_ <? _); set_solver.
Qed.

Lemma insert_by_num_sorted h p l : sorted_by h l -> sorted_by h (insert_by_num h p l).
Proof.
  induction l as [|q l IH]; cbn; [done|]. intros [Hq Hl].
  destruct (Z.ltb_spec (num_at h p) (num_at h q)); cbn.
  - split; [|done]. constructor; [lia|]. eapply Forall_impl; [exact Hq|]. cbn. lia.
  - split; [|auto]. apply Forall_forall. intros x [->|Hx]%insert_by_num_spec; [lia|].
    rewrite Forall_forall in Hq. auto.
Qed.

Lemma index_insert_spec h p l x :
  x ∈ insert h p l <-> x ∈ l \/ (x = p /\ find_id h l (id_at h p) = None).
Proof.
  unfold insert. destruct (find_id _ _ _); [|rewrite insert_by_num_spec]; naive_solver.
Qed.

Lemma insert_sorted h p l : sorted_by h l -> sorted_by h (insert h p l).
Proof. intros. unfold insert. destruct (find_id _ _ _); auto using insert_by_num_sorted. Qed.

(** On a sorted index the erased prefix is everything below the bound. *)
Lemma erase_below_spec h bound l : sorted_by h l ->
  erase_below h bound l = List.filter (fun p => bound <=? num_at h p) l.
Proof.
  induction l as [|p l IH]; cbn; [done|]. intros [Hp Hl].
  destruct (Z.ltb_spec (num_at h p) bound), (Z.leb_spec bound (num_at h p)); try lia; [auto|].
  f_equal. clear IH Hl. induction Hp; cbn in *; [done|].
  replace (bound <=? num_at h x) with true by lia. by f_equal.
Qed.

Lemma erase_below_elem h bound l x : sorted_by h l ->
  x ∈ erase_below h bound l <-> x ∈ l /\ bound <= num_at h x.
Proof.
  intros Hl. rewrite erase_below_spec by done. rewrite !list_elem_of_In, filter_In.
  by rewrite Z.leb_le.
Qed.

Lemma filter_sorted h f l : sorted_by h l -> sorted_by h (List.filter f l).
Proof.
  induction l as [|p l IH]; cbn; [done|]. intros [Hp Hl]. destruct (f p); [|auto]. cbn.
  split; [|auto]. apply Forall_forall. intros x Hx. rewrite Forall_forall in Hp. apply Hp.
  rewrite list_elem_of_In, filter_In in Hx. apply list_elem_of_In. tauto.
Qed.

(** ** Changing the heap *)

(** The heaps the operations produce keep the numbers and ids of the old items. *)
Definition extends h h' : Prop := forall p, (p < length h)%nat -> num_at h' p = num_at h p /\ id_at h' p = id_at h p.

Lemma sorted_extends h h' l : extends h h' -> Forall (fun p => (p < length h)%nat) l ->
  sorted_by h l -> sorted_by h' l.
Proof.
  intros He. induction l as [|p l IH]; cbn; [done|]. intros [Hp Hl]%Forall_cons [Hs Hr].
  split; [|auto]. rewrite Forall_forall in Hs, Hl |- *. intros q Hq.
  rewrite (proj1 (He p Hp)), (proj1 (He q (Hl q Hq))). auto.
Qed.

Lemma lookup_num h p i : h !! p = Some i -> num_at h p = num i /\ id_at h p = item_id i.
Proof. unfold num_at, id_at. by intros ->. Qed.

Lemma extends_alter h p f : (forall i, num (f i) = num i /\ item_id (f i) = item_id i) ->
  extends h (alter f p h).
Proof.
  intros Hf q Hq. unfold num_at, id_at. destruct (decide (p = q)) as [->|].
  - rewrite list_lookup_alter_eq. destruct (h !! q); [apply Hf|done].
  - by rewrite list_lookup_alter_ne.
Qed.

Lemma extends_app h h' : extends h (h ++ h').
Proof. intros p Hp. unfold num_at, id_at. by rewrite lookup_app_l. Qed.

(** Adding items at the end, or changing one item's flag or link. *)
Lemma wf_heap s h : wf s -> extends (heap s) h -> (length (heap s) <= length h)%nat ->
  (forall p i, h !! p = Some i -> item_wf h p i) -> wf (s <| heap := h |>).
Proof.
  intros [Hi Hx Hs Hu Hn Hh] He Hlen Hitems. constructor; cbn; try done.
  - eapply Forall_impl; [exact Hx|]. cbn. lia.
  - by apply (sorted_extends (heap s)).
  - intros p q Hp Hq Hid. rewrite Forall_forall in Hx. apply Hu; [done..|].
    by rewrite <- (proj2 (He p (Hx p Hp))), <- (proj2 (He q (Hx q Hq))).
  - intros p Hp. specialize (Hh p Hp). lia.
Qed.

Lemma item_wf_extends h h' p i : extends h h' -> (p <= length h)%nat -> item_wf h p i -> item_wf h' p i.
Proof.
  intros He Hp (Hn & Hid & Hq). split_and!; [done|done|]. intros q Eq.
  destruct (Hq q Eq) as [? <-]. split; [done|]. apply He. lia.
Qed.

Definition new_item (b : B) : fork_item B := ForkItem None (block_num b) false (block_id_of b) b.

Lemma make_item_run b s : make_item b s = Ok (length (heap s), s <| heap ::= fun h => h ++ [new_item b] |>).
Proof. reflexivity. Qed.

Lemma wf_make_item s b : wf s -> wf (s <| heap ::= fun h => h ++ [new_item b] |>).
Proof.
  intros Hs. apply (wf_heap s); [done|apply extends_app|rewrite length_app; lia|].
  intros p i Hp. apply lookup_app_Some in Hp as [Hp|[Hle Hp]].
  - eapply item_wf_extends; [apply extends_app| |by apply (wf_items s Hs)].
    apply lookup_lt_Some in Hp. lia.
  - apply list_lookup_singleton_Some in Hp as [_ <-]. by repeat split.
Qed.

(** ** Well-formedness is kept *)

Lemma wf_with_head s p : wf s -> (p < length (heap s))%nat -> wf (s <| head := Some p |>).
Proof. intros [] Hp. constructor; cbn; try done. by intros q [= <-]. Qed.

Lemma wf_sub_index s l : wf s -> (forall x, x ∈ l -> x ∈ index s) -> sorted_by (heap s) l ->
  wf (s <| index := l |>).
Proof.
  intros [Hi Hx Hs Hu Hn Hh] Hl Hsl. constructor; cbn; try done; [|auto].
  rewrite Forall_forall in Hx |- *. auto.
Qed.

Lemma wf_insert s p : wf s -> (p < length (heap s))%nat -> wf (s <| index ::= insert (heap s) p |>).
Proof.
  intros [Hi Hx Hs Hu Hn Hh] Hp. constructor; cbn; try done.
  - rewrite Forall_forall in Hx |- *. intros x [|[-> _]]%index_insert_spec; auto.
  - by apply insert_sorted.
  - intros x y Ex Ey Hid. apply index_insert_spec in Ex as [Ex|[-> Nx]], Ey as [Ey|[-> Ny]]; auto;
      rewrite find_id_None in *; naive_solver.
Qed.

Lemma wf_erase s bound : wf s -> wf (s <| index ::= erase_below (heap s) bound |>).
Proof.
  intros Hs. apply (wf_sub_index s); [done| |].
  - intros x Hx. apply erase_below_elem in Hx; [tauto|apply Hs].
  - rewrite erase_below_spec by apply Hs. apply filter_sorted, Hs.
Qed.

Lemma wf_link s p q i : wf s -> heap s !! p = Some i -> (q < p)%nat ->
  id_at (heap s) q = previous (data i) -> wf (s <| heap ::= alter (fun i => i <| prev := Some q |>) p |>).
Proof.
  intros Hs Hp Hq Hid. assert (extends (heap s) (alter (fun i => i <| prev := Some q |>) p (heap s))) as He
    by (by apply extends_alter).
  apply (wf_heap s); [done|done|by rewrite length_alter|]. intros x j Hx.
  destruct (decide (p = x)) as [->|].
  - rewrite list_lookup_alter_eq, Hp in Hx. injection Hx as <-.
    destruct (wf_items s Hs x i Hp) as (? & ? & _). split_and!; [done|done|]. cbn. intros ? [= <-].
    split; [done|]. rewrite (proj2 (He q ltac:(apply lookup_lt_Some in Hp; lia))). done.
  - rewrite list_lookup_alter_ne in Hx by done. eapply item_wf_extends; [exact He| |by apply (wf_items s Hs)].
    apply lookup_lt_Some in Hx. lia.
Qed.

Lemma wf_set_invalid s p : wf s -> wf (s <| heap ::= alter (fun i => i <| invalid := true |>) p |>).
Proof.
  intros Hs. assert (extends (heap s) (alter (fun i => i <| invalid := true |>) p (heap s))) as He
    by (by apply extends_alter).
  apply (wf_heap s); [done|done|by rewrite length_alter|]. intros x j Hx.
  destruct (decide (p = x)) as [->|].
  - rewrite list_lookup_alter_eq in Hx. apply fmap_Some in Hx as (i & Hi & ->).
    eapply (item_wf_extends _ _ x) in He; [exact He| |].
    + apply lookup_lt_Some in Hi. lia.
    + destruct (wf_items s Hs x i Hi) as (? & ? & ?). by split_and!.
  - rewrite list_lookup_alter_ne in Hx by done. eapply item_wf_extends; [exact He| |by apply (wf_items s Hs)].
    apply lookup_lt_Some in Hx. lia.
Qed.

(** ** [push_block] *)

(** What is checked before a block is taken. *)
Definition push_guard s (b : B) : result unit :=
  match head s with
  | None => Ok tt
  | Some hd =>
      if negb (block_num b >? Z.max 0 (num_at (heap s) hd - max_cached s)) then Throw assert_exception
      else if bool_decide (previous b = null_id) then Ok tt
      else match find_id (heap s) (index s) (previous b) with
           | None => Throw unlinkable_block_exception
           | Some q => if from_option invalid false (heap s !! q) then Throw assert_exception else Ok tt
           end
  end.

(** The state once the new item is allocated and linked. *)
Definition linked s (b : B) : fork_database B :=
  let p := length (heap s) in
  let s' := s <| heap ::= fun h => h ++ [new_item b] |> in
  match head s with
  | Some _ =>
      if bool_decide (previous b = null_id) then s'
      else match find_id (heap s) (index s) (previous b) with
           | Some q => s' <| heap ::= alter (fun i => i <| prev := Some q |>) p |>
           | None => s'
           end
  | None => s'
  end.

Lemma lookup_new (h : list (fork_item B)) b : (h ++ [new_item b]) !! length h = Some (new_item b).
Proof. by rewrite list_lookup_middle. Qed.

Lemma find_id_extends h h' l id : extends h h' -> Forall (fun p => (p < length h)%nat) l ->
  find_id h' l id = find_id h l id.
Proof.
  intros He. induction l as [|p l IH]; [done|]. intros [Hp Hl]%Forall_cons.
  change (find_id h' (p :: l) id) with (if bool_decide (id_at h' p = id) then Some p else find_id h' l id).
  change (find_id h (p :: l) id) with (if bool_decide (id_at h p = id) then Some p else find_id h l id).
  by rewrite (proj2 (He p Hp)), IH.
Qed.

Lemma link_item_run s b : wf s ->
  match link_item (length (heap s)) (s <| heap ::= fun h => h ++ [new_item b] |>) with
  | Ok (_, s') => s' = linked s b /\ wf s' /\ (head s <> None -> previous b <> null_id ->
      exists q, find_id (heap s) (index s) (previous b) = Some q /\ from_option invalid false (heap s !! q) = false)
  | Throw e => exists hd, head s = Some hd /\ previous b <> null_id /\
      match find_id (heap s) (index s) (previous b) with
      | None => e = unlinkable_block_exception
      | Some q => e = assert_exception /\ from_option invalid false (heap s !! q) = true
      end
  end.
Proof.
  intros Hs. pose proof (wf_make_item s b Hs) as Hs0.
  unfold link_item, linked, deref, mbind, st_bind, get_st, gets, lift. cbn -[find_id alter].
  rewrite lookup_new. cbn -[find_id alter]. destruct (head s) as [hd|] eqn:Eh; [|by cbn].
  destruct (bool_decide (previous b = null_id)) eqn:En; cbn -[find_id alter];
    [apply bool_decide_eq_true in En; by split|].
  apply bool_decide_eq_false in En.
  rewrite (find_id_extends (heap s)) by (apply extends_app || apply Hs).
  destruct (find_id (heap s) (index s) (previous b)) as [q|] eqn:Ef; cbn -[find_id alter].
  2: { by exists hd. }
  apply find_id_Some in Ef as [Hq Hid]. pose proof (wf_index s Hs) as Hx. rewrite Forall_forall in Hx.
  specialize (Hx q Hq). rewrite lookup_app_l by done.
  destruct (lookup_lt_is_Some_2 _ _ Hx) as [parent Ep]. rewrite Ep. cbn -[alter].
  unfold assert_st, lift, fc_assert. destruct (invalid parent) eqn:Ei; cbn -[alter].
  { exists hd. repeat split; try done. }
  split; [done|]. split; [|intros _ _; exists q; split; [done|]; rewrite Ep; exact Ei].
  apply (wf_link _ _ q (new_item b)); [done|apply lookup_new|done|].
  cbn. by rewrite (proj2 (extends_app _ _ q Hx)).
Qed.

(** The state after the block is taken. *)
Definition pushed s (b : B) : fork_database B :=
  let p := length (heap s) in
  let s' := linked s b <| index ::= insert (heap (linked s b)) p |> in
  match head s with
  | None => s' <| head := Some p |>
  | Some hd =>
      if block_num b >? num_at (heap s) hd then
        let min_num := block_num b - Z.min (max_cached s) (block_num b) in
        s' <| head := Some p |> <| index ::= erase_below (heap s') min_num |>
           <| unlinked_index ::= erase_num (heap s') (u32 (block_num b - max_cached s)) |>
      else s'
  end.

Lemma linked_fields s b :
  extends (heap s ++ [new_item b]) (heap (linked s b)) /\ length (heap (linked s b)) = S (length (heap s)) /\
  max_cached (linked s b) = max_cached s /\ unlinked_index (linked s b) = unlinked_index s /\
  index (linked s b) = index s /\ head (linked s b) = head s.
Proof.
  unfold linked. assert (extends (heap s ++ [new_item b]) (heap s ++ [new_item b])) by done.
  destruct (head s) eqn:Eh; [|by rewrite <- Eh; split_and!; try done; cbn; rewrite length_app; cbn; lia].
  destruct (bool_decide _); [|destruct (find_id _ _ _)];
    rewrite <- Eh; split_and!; try done; cbn -[alter]; rewrite ?length_alter, ?length_app; cbn; try lia.
  by apply extends_alter.
Qed.

Lemma linked_nums s b p : (p <= length (heap s))%nat ->
  num_at (heap (linked s b)) p = num_at (heap s ++ [new_item b]) p /\
  id_at (heap (linked s b)) p = id_at (heap s ++ [new_item b]) p.
Proof. intros Hp. apply linked_fields. rewrite length_app. cbn. lia. Qed.

Lemma num_new s b : num_at (heap s ++ [new_item b]) (length (heap s)) = block_num b /\
  id_at (heap s ++ [new_item b]) (length (heap s)) = block_id_of b.
Proof. unfold num_at, id_at. by rewrite lookup_new. Qed.

Lemma deref_run p i s : heap s !! p = Some i -> deref p s = Ok (i, s).
Proof.
  intros H. unfold deref. rewrite (st_bind_run _ _ s (heap s) s) by done. unfold lift. by rewrite H.
Qed.

(** [_push_block] on the item just made. *)
Lemma _push_block_run s b : wf s ->
  match push_guard s b with
  | Ok _ => _push_block (length (heap s)) (s <| heap ::= fun h => h ++ [new_item b] |>) = Ok (tt, pushed s b)
              /\ wf (linked s b)
  | Throw e => _push_block (length (heap s)) (s <| heap ::= fun h => h ++ [new_item b] |>) = Throw e
  end.
Proof.
  intros Hs. set (s0 := s <| heap ::= fun h => h ++ [new_item b] |>).
  pose proof (link_item_run s b Hs) as Hl. fold s0 in Hl.
  destruct (linked_fields s b) as (_ & Hlen & Hmax & _ & Hidx & Hhd).
  assert (deref (length (heap s)) s0 = Ok (new_item b, s0)) as Hd by (apply deref_run, lookup_new).
  unfold _push_block. rewrite (st_bind_run _ _ s0 s0 s0), (st_bind_run _ _ s0 (new_item b) s0) by done.
  change (head s0) with (head s). change (max_cached s0) with (max_cached s). unfold push_guard, pushed.
  destruct (head s) as [hd|] eqn:Eh.
  - assert (Hhl : (hd < length (heap s))%nat) by (by apply Hs).
    destruct (lookup_lt_is_Some_2 _ _ Hhl) as [ih Eih]. destruct (lookup_num _ _ _ Eih) as [-> _].
    assert (deref hd s0 = Ok (ih, s0)) as Hdh by (apply deref_run; cbn; by rewrite lookup_app_l).
    change (num (new_item b)) with (block_num b).
    destruct (block_num b >? _) eqn:Eg; cbn [negb].
    2: { apply st_bind_throw. rewrite (st_bind_run _ _ s0 ih s0) by done.
         unfold assert_st, lift, fc_assert. by rewrite Eg. }
    rewrite (st_bind_run _ _ s0 tt s0).
    2: { rewrite (st_bind_run _ _ s0 ih s0) by done. unfold assert_st, lift, fc_assert. by rewrite Eg. }
    destruct (link_item (length (heap s)) s0) as [[u s1]|e] eqn:El.
    + destruct Hl as (-> & Hwf & Hlk). rewrite (st_bind_run _ _ s0 u (linked s b)) by done.
      assert ((if bool_decide (previous b = null_id) then Ok tt
        else match find_id (heap s) (index s) (previous b) with
             | Some q => if from_option invalid false (heap s !! q) then Throw assert_exception else Ok tt
             | None => Throw unlinkable_block_exception
             end) = Ok tt) as ->.
      { case_bool_decide; [done|]. by destruct Hlk as (q & -> & ->). }
      split; [|done]. rewrite (st_bind_run _ _ _ tt (linked s b <| index ::= insert (heap (linked s b)) (length (heap s)) |>)) by done.
      set (s2 := linked s b <| index ::= insert (heap (linked s b)) (length (heap s)) |>).
      rewrite (st_bind_run _ _ s2 s2 s2) by done.
      assert (head s2 = Some hd) as -> by done. change (heap s2) with (heap (linked s b)).
      destruct (linked_nums s b (length (heap s)) ltac:(lia)) as [En _].
      destruct (linked_nums s b hd ltac:(lia)) as [Ehd _].
      rewrite En, (proj1 (num_new s b)), Ehd, (proj1 (extends_app _ _ hd Hhl)), (proj1 (lookup_num _ _ _ Eih)).
      unfold when. destruct (block_num b >? num ih); [|done].
      unfold advance_head, modify_st. do 2 f_equal. change (heap (s2 <| head := Some (length (heap s)) |>)) with (heap (linked s b)).
      rewrite En, (proj1 (num_new s b)). change (max_cached (s2 <| head := Some (length (heap s)) |>)) with (max_cached (linked s b)).
      by rewrite Hmax.
    + rewrite (st_bind_throw _ _ s0 e) by done. destruct Hl as (hd' & [= <-] & Hn & Hf).
      rewrite bool_decide_false by done. destruct (find_id _ _ _); [|by subst].
      by destruct Hf as [-> ->].
  - rewrite (st_bind_run _ _ s0 tt s0) by done.
    destruct (link_item (length (heap s)) s0) as [[u s1]|e] eqn:El; [|destruct Hl as (? & ? & _); congruence].
    destruct Hl as (-> & Hwf & _). rewrite (st_bind_run _ _ s0 u (linked s b)) by done.
    split; [|done]. rewrite (st_bind_run _ _ _ tt (linked s b <| index ::= insert (heap (linked s b)) (length (heap s)) |>)) by done.
    set (s2 := linked s b <| index ::= insert (heap (linked s b)) (length (heap s)) |>).
    rewrite (st_bind_run _ _ s2 s2 s2) by done. assert (head s2 = None) as -> by done. done.
Qed.

(** [push_block] takes the block exactly when the guard lets it. *)
Lemma push_block_run s b : wf s ->
  match push_guard s b with
  | Ok _ => push_block b s = Ok (head (pushed s b), pushed s b) /\ wf (linked s b)
  | Throw e => push_block b s = Throw e
  end.
Proof.
  intros Hs. pose proof (_push_block_run s b Hs) as Hp. unfold push_block.
  set (s0 := s <| heap ::= fun h => h ++ [new_item b] |>) in *.
  rewrite (st_bind_run _ _ s (length (heap s)) s0), (st_bind_run _ _ s0 s0 s0) by done.
  destruct (push_guard s b) as [u|e] eqn:Eg.
  - destruct Hp as [-> ?]. done.
  - rewrite Hp. change (head s0) with (head s). unfold push_guard in Eg. destruct (head s); [|done]. by destruct e.
Qed.

Lemma wf_pushed s b : wf s -> wf (linked s b) -> wf (pushed s b).
Proof.
  intros Hs Hl. destruct (linked_fields s b) as (_ & Hlen & Hmax & Hun & Hidx & Hhd).
  assert (length (heap s) < length (heap (linked s b)))%nat as Hp by lia.
  pose proof (wf_insert _ _ Hl Hp) as Hi. unfold pushed. destruct (head s) as [hd|].
  - destruct (_ >? _); [|done].
    pose proof (wf_erase _ (block_num b - Z.min (max_cached s) (block_num b)) (wf_with_head _ _ Hi Hp)) as He.
    destruct He as [H1 H2 H3 H4 H5 H6]. constructor; try done. cbn in H5 |- *. by rewrite H5.
  - by apply (wf_with_head _ _ Hi).
Qed.

Lemma linked_old s b q : (q < length (heap s))%nat ->
  num_at (heap (linked s b)) q = num_at (heap s) q /\ id_at (heap (linked s b)) q = id_at (heap s) q.
Proof.
  intros Hq. destruct (linked_nums s b q ltac:(lia)) as [-> ->]. by apply extends_app.
Qed.

Lemma linked_new s b : num_at (heap (linked s b)) (length (heap s)) = block_num b /\
  id_at (heap (linked s b)) (length (heap s)) = block_id_of b.
Proof. destruct (linked_nums s b (length (heap s)) ltac:(lia)) as [-> ->]. apply num_new. Qed.

(** The number of the head, if any. *)
Definition head_num s : option Z := num_at (heap s) <$> head s.

Lemma pushed_head s b : wf s ->
  head_num (pushed s b) = Some (match head_num s with Some n => Z.max n (block_num b) | None => block_num b end).
Proof.
  intros Hs. destruct (linked_new s b) as [Hn _]. unfold head_num, pushed.
  destruct (head s) as [hd|] eqn:Eh; cbn; [|by rewrite Hn].
  destruct (linked_old s b hd) as [Ho _]; [by apply Hs|].
  destruct (Z.gtb_spec (block_num b) (num_at (heap s) hd)); cbn.
  - rewrite Hn. f_equal. lia.
  - destruct (linked_fields s b) as (_ & _ & _ & _ & _ & ->). rewrite Eh. cbn. rewrite Ho. f_equal. lia.
Qed.

(** What is in the index after a push. *)
Lemma pushed_index s b q : wf s -> wf (linked s b) ->
  q ∈ index (pushed s b) <->
  (q ∈ index s \/ (q = length (heap s) /\ find_id (heap s) (index s) (block_id_of b) = None)) /\
  (match head_num s with
   | Some n => block_num b > n -> block_num b - Z.min (max_cached s) (block_num b) <= num_at (heap (linked s b)) q
   | None => True
   end).
Proof.
  intros Hs Hl. destruct (linked_fields s b) as (He & Hlen & _ & _ & Hidx & _).
  assert (q ∈ insert (heap (linked s b)) (length (heap s)) (index (linked s b)) <->
    q ∈ index s \/ (q = length (heap s) /\ find_id (heap s) (index s) (block_id_of b) = None)) as Hin.
  { rewrite index_insert_spec, Hidx. destruct (linked_new s b) as [_ ->].
    rewrite (find_id_extends (heap s)); [done| |apply Hs].
    intros x Hx. by apply linked_old. }
  assert (sorted_by (heap (linked s b)) (insert (heap (linked s b)) (length (heap s)) (index (linked s b)))) as Hsort
    by (apply insert_sorted, Hl).
  unfold pushed, head_num. destruct (head s) as [hd|]; cbn; [|rewrite Hin; tauto].
  destruct (Z.gtb_spec (block_num b) (num_at (heap s) hd)); cbn.
  - rewrite erase_below_elem, Hin by done. split; intros [? H']; (split; [done|]); [by intros|]. apply H'. lia.
  - rewrite Hin. split; [|tauto]. intros ?. split; [done|]. lia.
Qed.

Lemma pushed_known s b : wf s -> wf (linked s b) -> 0 <= max_cached s -> 0 <= block_num b ->
  is_known_block (pushed s b) (block_id_of b) = true.
Proof.
  intros Hs Hl Hm Hb. unfold is_known_block.
  assert (is_Some (find_id (heap (pushed s b)) (index (pushed s b)) (block_id_of b))) as [p ->]; [|done].
  assert (heap (pushed s b) = heap (linked s b)) as ->.
  { unfold pushed. destruct (head s); [destruct (_ >? _)|]; done. }
  apply find_id_is_Some.
  assert (exists q, (q ∈ index s \/ (q = length (heap s) /\ find_id (heap s) (index s) (block_id_of b) = None)) /\
    id_at (heap (linked s b)) q = block_id_of b /\ num_at (heap (linked s b)) q = block_num b) as (q & Hq & Hid & Hnum).
  { destruct (find_id (heap s) (index s) (block_id_of b)) as [q|] eqn:Ef.
    - apply find_id_Some in Ef as [Hq Hid]. exists q.
      assert (q < length (heap s))%nat as Hlt.
      { pose proof (wf_index s Hs) as Hx. rewrite Forall_forall in Hx. auto. }
      destruct (linked_old s b q Hlt) as [-> ->]. split; [by left|]. split; [done|].
      destruct (lookup_lt_is_Some_2 _ _ Hlt) as [i Ei]. destruct (lookup_num _ _ _ Ei) as [-> Ei'].
      destruct (wf_items s Hs q i Ei) as (-> & Hii & _). rewrite Ei', Hii in Hid. by injection Hid.
    - exists (length (heap s)). destruct (linked_new s b). eauto. }
  exists q. split; [|done]. apply pushed_index; [done..|]. split; [done|].
  destruct (head_num s); [|done]. intros _. rewrite Hnum. lia.
Qed.

(** C16 Pushing a block on a well-formed fork database: it fails exactly when the
    block is too old ([assert_exception]), does not link ([unlinkable_block_exception])
    or extends a block marked invalid, and then without touching a null head;
    otherwise the tree stays well formed, the block is known afterwards, the head
    returned has the highest number, and only blocks below the window are dropped. *)
Theorem push_block_correct s b (Hs : wf s) (Hmax : 0 <= max_cached s) :
  match push_block b s with
  | Ok (hd, s') =>
      push_guard s b = Ok tt /\ wf s' /\ hd = head s' /\ is_known_block s' (block_id_of b) = true /\
      head_num s' = Some (match head_num s with Some n => Z.max n (block_num b) | None => block_num b end) /\
      forall q, q ∈ index s -> q ∉ index s' ->
        exists n, head_num s' = Some n /\ num_at (heap s) q < n - max_cached s
  | Throw e => push_guard s b = Throw e /\ (e = assert_exception \/ e = unlinkable_block_exception)
  end.
Proof.
  pose proof (push_block_run s b Hs) as Hp. destruct (push_guard s b) as [u|e] eqn:Eg.
  - destruct Hp as [-> Hl]. pose proof (pushed_head s b Hs) as Hh.
    split; [by destruct u|]. split; [by apply wf_pushed|]. split; [done|].
    split; [apply pushed_known; try done; apply wrap_bounds; lia|]. split; [done|].
    intros q Hq Hn. eexists. split; [exact Hh|].
    assert (q < length (heap s))%nat as Hlt.
    { pose proof (wf_index s Hs) as Hx. rewrite Forall_forall in Hx. auto. }
    assert (0 <= num_at (heap s) q).
    { destruct (lookup_lt_is_Some_2 _ _ Hlt) as [i Ei]. destruct (lookup_num _ _ _ Ei) as [-> _].
      destruct (wf_items s Hs q i Ei) as (-> & _). apply wrap_bounds. lia. }
    rewrite pushed_index, (proj1 (linked_old s b q Hlt)) in Hn by done.
    destruct (head_num s) as [n|]; [|destruct Hn; auto].
    destruct (decide (block_num b > n /\ num_at (heap s) q < block_num b - Z.min (max_cached s) (block_num b)))
      as [[]|Hno]; [lia|]. destruct Hn. split; [by left|]. lia.
  - rewrite Hp. split; [done|]. unfold push_guard in Eg. destruct (head s); [|done].
    destruct (negb _); [injection Eg as <-; by left|]. case_bool_decide; [done|].
    destruct (find_id _ _ _) as [q|]; [|injection Eg as <-; by right].
    destruct (from_option _ _ _); [injection Eg as <-; by left|done].
Qed.

(** ** [fetch_branch_from] *)

(** The ancestor [k] links up, as the links lock now. *)
Fixpoint up s (k : nat) p : option nat :=
  match k with
  | O => Some p
  | S k => lock s (heap s !! p ≫= prev) ≫= up s k
  end.

(** The first [k] items of the branch that starts at [p]. *)
Fixpoint path s (k : nat) p : list nat :=
  match k with
  | O => []
  | S k => p :: match lock s (heap s !! p ≫= prev) with Some q => path s k q | None => [] end
  end.

(** No block number wrapped: [block_num] is the parent's number plus one. *)
Definition no_wrap s : Prop :=
  forall p i, heap s !! p = Some i -> 0 <= num_from_id (previous (data i)) < 2 ^ 32 - 1.

Lemma parent_spec s p : parent s p =
  match lock s (heap s !! p ≫= prev) with Some q => Ok q | None => Throw assert_exception end.
Proof. unfold parent. by destruct (lock _ _). Qed.

Lemma lock_prev s p q : wf s -> no_wrap s -> lock s (heap s !! p ≫= prev) = Some q ->
  (q < p)%nat /\ data_num s q = data_num s p - 1.
Proof.
  intros Hs Hw H. unfold lock in H. destruct (heap s !! p) as [i|] eqn:Ei; [|done]. cbn in H.
  destruct (prev i) as [q'|] eqn:Eq; [|done]. destruct (alive s q'); [|done]. injection H as ->.
  destruct (wf_items s Hs p i Ei) as (_ & _ & Hq). destruct (Hq q Eq) as [Hlt Hid]. split; [done|].
  assert (is_Some (heap s !! q)) as [j Ej] by (apply lookup_lt_is_Some; apply lookup_lt_Some in Ei; lia).
  unfold data_num. rewrite Ei, Ej. cbn. unfold id_at in Hid. rewrite Ej in Hid. cbn in Hid.
  destruct (wf_items s Hs q j Ej) as (_ & Hii & _). rewrite Hii in Hid.
  specialize (Hw p i Ei). unfold num_from_id in *. unfold block_num at 2. unfold num_from_id.
  rewrite <- Hid in *. cbn in *. rewrite (wrap_small 32 (block_num (data j) + 1)) by lia. lia.
Qed.

Lemma climb_spec fuel : forall s p t acc, wf s -> no_wrap s -> (p < fuel)%nat ->
  climb fuel s p t acc = Some (match up s (Z.to_nat (data_num s p - t)) p with
    | Some q => Ok (q, acc ++ path s (Z.to_nat (data_num s p - t)) p)
    | None => Throw assert_exception
    end).
Proof.
  induction fuel as [|fuel IH]; intros s p t acc Hs Hw Hp; [lia|]. cbn [climb].
  destruct (Z.gtb_spec (data_num s p) t).
  - rewrite parent_spec. replace (Z.to_nat (data_num s p - t)) with (S (Z.to_nat (data_num s p - 1 - t))) by lia.
    cbn [up path]. destruct (lock s (heap s !! p ≫= prev)) as [q|] eqn:El; [|done]. cbn [mbind option_bind].
    destruct (lock_prev s p q Hs Hw El) as [Hlt Hn]. rewrite IH by (done || lia). rewrite Hn, <- app_assoc. done.
  - replace (Z.to_nat (data_num s p - t)) with O by lia. cbn. by rewrite app_nil_r.
Qed.

(** The branches meet [k] links up. *)
Definition meet s (k : nat) p q : Prop :=
  exists p' q', up s k p = Some p' /\ up s k q = Some q' /\ data_previous s p' = data_previous s q'.

Lemma climb_both_spec fuel : forall s p q acc1 acc2, wf s -> no_wrap s -> (p < fuel)%nat ->
  exists r, climb_both fuel s p q acc1 acc2 = Some r /\
  match r with
  | Ok (b1, b2) => exists k, meet s k p q /\ (forall k', meet s k' p q -> (k <= k')%nat) /\
      b1 = acc1 ++ path s (S k) p /\ b2 = acc2 ++ path s (S k) q
  | Throw e => e = assert_exception /\ forall k, ~ meet s k p q
  end.
Proof.
  induction fuel as [|fuel IH]; intros s p q acc1 acc2 Hs Hw Hp; [lia|]. cbn [climb_both].
  destruct (bool_decide (data_previous s p = data_previous s q)) eqn:Em.
  { apply bool_decide_eq_true in Em. eexists. split; [done|]. exists O. split_and!.
    - by exists p, q.
    - intros. lia.
    - cbn. by destruct (lock _ _).
    - cbn. by destruct (lock _ _). }
  apply bool_decide_eq_false in Em. rewrite !parent_spec.
  assert (Hmeet : forall k, meet s k p q -> exists k' p' q', k = S k' /\
    lock s (heap s !! p ≫= prev) = Some p' /\ lock s (heap s !! q ≫= prev) = Some q' /\ meet s k' p' q').
  { intros [|k] (p' & q' & H1 & H2 & H3); [cbn in *; congruence|]. cbn in H1, H2.
    destruct (lock s (heap s !! p ≫= prev)) as [p1|]; [|done].
    destruct (lock s (heap s !! q ≫= prev)) as [q1|]; [|done]. exists k, p1, q1. repeat split. by exists p', q'. }
  destruct (lock s (heap s !! p ≫= prev)) as [p1|] eqn:E1.
  2: { eexists. split; [done|]. split; [done|]. intros k (? & ? & ? & _ & ? & _)%Hmeet. congruence. }
  destruct (lock s (heap s !! q ≫= prev)) as [q1|] eqn:E2.
  2: { eexists. split; [done|]. split; [done|]. intros k (? & ? & ? & _ & _ & ? & _)%Hmeet. congruence. }
  destruct (lock_prev s p p1 Hs Hw E1) as [Hlt _].
  destruct (IH s p1 q1 (acc1 ++ [p]) (acc2 ++ [q]) Hs Hw ltac:(lia)) as (r & -> & Hr). exists r. split; [done|].
  destruct r as [[b1 b2]|e].
  - destruct Hr as (k & (p' & q' & H1 & H2 & H3) & Hmin & -> & ->). exists (S k). split_and!.
    + exists p', q'. cbn [up]. rewrite E1, E2. done.
    + intros k' (k'' & p2 & q2 & -> & [= <-] & [= <-] & Hm)%Hmeet. specialize (Hmin k'' Hm). lia.
    + change (path s (S (S k)) p) with (p :: match lock s (heap s !! p ≫= prev) with Some q => path s (S k) q | None => [] end).
      rewrite E1, <- app_assoc. done.
    + change (path s (S (S k)) q) with (q :: match lock s (heap s !! q ≫= prev) with Some q => path s (S k) q | None => [] end).
      rewrite E2, <- app_assoc. done.
  - destruct Hr as [-> Hno]. split; [done|]. intros k (k' & p2 & q2 & -> & [= <-] & [= <-] & Hm)%Hmeet. by apply (Hno k').
Qed.

Lemma up_add s j k p : up s (j + k) p = up s j p ≫= up s k.
Proof.
  revert p. induction j as [|j IH]; intros p; [done|]. cbn. destruct (lock _ _); cbn; [apply IH|done].
Qed.

Lemma path_add s j k p p' : up s j p = Some p' -> path s (j + k) p = path s j p ++ path s k p'.
Proof.
  revert p. induction j as [|j IH]; intros p H; cbn in *; [by injection H as ->|].
  destruct (lock _ _) as [q|]; [|done]. cbn. f_equal. by apply IH.
Qed.

Lemma up_num s k p q : wf s -> no_wrap s -> up s k p = Some q ->
  data_num s q = data_num s p - Z.of_nat k /\ (q <= p)%nat.
Proof.
  intros Hs Hw. revert p. induction k as [|k IH]; intros p H; cbn in H; [injection H as ->; lia|].
  destruct (lock s (heap s !! p ≫= prev)) as [p1|] eqn:E; [|done]. destruct (lock_prev s p p1 Hs Hw E).
  destruct (IH p1 H). lia.
Qed.

(** Two branches of [k1] and [k2] links end in items of the same number with the
    same parent. *)
Definition common s p q (k1 k2 : nat) : Prop :=
  exists p' q', up s k1 p = Some p' /\ up s k2 q = Some q' /\
    data_num s p' = data_num s q' /\ data_previous s p' = data_previous s q'.

Lemma common_meet s p q k1 k2 : wf s -> no_wrap s ->
  let a := Z.to_nat (data_num s p - data_num s q) in
  let b := Z.to_nat (data_num s q - data_num s p) in
  common s p q k1 k2 <-> exists k p1 q1, k1 = (a + k)%nat /\ k2 = (b + k)%nat /\
    up s a p = Some p1 /\ up s b q = Some q1 /\ meet s k p1 q1.
Proof.
  intros Hs Hw a b. split.
  - intros (p' & q' & H1 & H2 & Hn & Hp).
    pose proof (up_num s k1 p p' Hs Hw H1) as [N1 _]. pose proof (up_num s k2 q q' Hs Hw H2) as [N2 _].
    assert (exists k, k1 = (a + k)%nat /\ k2 = (b + k)%nat) as (k & -> & ->) by (exists (k1 - a)%nat; lia).
    rewrite up_add in H1, H2. apply bind_Some in H1 as (p1 & E1 & H1), H2 as (q1 & E2 & H2).
    exists k, p1, q1. split_and!; try done. by exists p', q'.
  - intros (k & p1 & q1 & -> & -> & E1 & E2 & (p' & q' & H1 & H2 & Hp)). exists p', q'.
    rewrite !up_add, E1, E2. cbn. split_and!; try done.
    pose proof (up_num s _ _ _ Hs Hw E1) as [N1 _]. pose proof (up_num s _ _ _ Hs Hw E2) as [N2 _].
    pose proof (up_num s _ _ _ Hs Hw H1) as [N3 _]. pose proof (up_num s _ _ _ Hs Hw H2) as [N4 _]. lia.
Qed.

(** [fetch_branch_from] always ends, and finds the fork: on two known blocks it
    returns the two branches down to the items just above their most recent
    common ancestor (the shortest pair of branches whose last items have the same
    parent), and it fails only if the blocks are unknown or the stored branches
    never meet. *)
Lemma fetch_branch_correct s first second (Hs : wf s) (Hw : no_wrap s) :
  exists r, fetch_branch_from (S (length (heap s))) s first second = Some r /\
  match r with
  | Ok (b1, b2) => exists p q k1 k2,
      find_id (heap s) (index s) first = Some p /\ find_id (heap s) (index s) second = Some q /\
      b1 = path s (S k1) p /\ b2 = path s (S k2) q /\ common s p q k1 k2 /\
      forall k1' k2', common s p q k1' k2' -> (k1 <= k1')%nat /\ (k2 <= k2')%nat
  | Throw e => e = assert_exception /\ forall p q k1 k2,
      find_id (heap s) (index s) first = Some p -> find_id (heap s) (index s) second = Some q ->
      ~ common s p q k1 k2
  end.
Proof.
  unfold fetch_branch_from.
  destruct (find_id (heap s) (index s) first) as [p|] eqn:Ep; [|by eexists].
  destruct (find_id (heap s) (index s) second) as [q|] eqn:Eq; [|by eexists].
  apply find_id_Some in Ep as [Hp _], Eq as [Hq _].
  pose proof (wf_index s Hs) as Hx. rewrite Forall_forall in Hx. specialize (Hx p Hp) as Hlp. specialize (Hx q Hq) as Hlq.
  rewrite (climb_spec _ s p) by (done || lia). set (a := Z.to_nat (data_num s p - data_num s q)).
  pose proof (common_meet s p q) as Hcm. cbn zeta in Hcm. fold a in Hcm.
  destruct (up s a p) as [p1|] eqn:E1.
  2: { eexists. split; [done|]. split; [done|]. intros p' q' k1 k2 [= <-] [= <-].
       rewrite Hcm by done. intros (? & ? & ? & _ & _ & ? & _). congruence. }
  pose proof (up_num s a p p1 Hs Hw E1) as [N1 L1].
  rewrite (climb_spec _ s q) by (done || lia).
  replace (Z.to_nat (data_num s q - data_num s p1)) with (Z.to_nat (data_num s q - data_num s p)) by lia.
  set (b := Z.to_nat (data_num s q - data_num s p)) in *.
  destruct (up s b q) as [q1|] eqn:E2.
  2: { eexists. split; [done|]. split; [done|]. intros p' q' k1 k2 [= <-] [= <-].
       rewrite Hcm by done. intros (? & ? & ? & _ & _ & _ & ? & _). congruence. }
  cbn [app]. destruct (climb_both_spec (S (length (heap s))) s p1 q1 (path s a p) (path s b q) Hs Hw ltac:(lia))
    as (r & -> & Hr).
  exists r. split; [done|]. destruct r as [[b1 b2]|e].
  - destruct Hr as (k & Hm & Hmin & -> & ->). exists p, q, (a + k)%nat, (b + k)%nat. split_and!; try done.
    + replace (S (a + k)) with (a + S k)%nat by lia. symmetry. by apply path_add.
    + replace (S (b + k)) with (b + S k)%nat by lia. symmetry. by apply path_add.
    + apply Hcm; [done..|]. by exists k, p1, q1.
    + intros k1' k2' (k' & p2 & q2 & -> & -> & [= <-] & [= <-] & Hm')%Hcm; [|done..].
      specialize (Hmin k' Hm'). lia.
  - destruct Hr as [-> Hno]. split; [done|]. intros p' q' k1 k2 [= <-] [= <-].
    rewrite Hcm by done. intros (k & p2 & q2 & _ & _ & [= <-] & [= <-] & Hm). by apply (Hno k).
Qed.

(** ** Every operation keeps the tree well formed *)

Lemma wf_empty : wf (ForkDatabase.empty (B:=B)).
Proof.
  constructor; cbn; try done.
  intros p q Hp. by apply elem_of_nil in Hp.
Qed.

Inductive op :=
  | Reset | Pop | Start (b : B) | Push (b : B) | SetMaxSize (n : Z) | Remove (id : block_id)
  | SetHead (id : block_id) | SetInvalid (id : block_id).

(** [set_head] and the mark are applied to items fetched by id. *)
Definition run (o : op) : st (fork_database B) unit :=
  match o with
  | Reset => reset
  | Pop => pop_block
  | Start b => start_block b
  | Push b => _ ← push_block b; mret tt
  | SetMaxSize n => set_max_size n
  | Remove id => remove id
  | SetHead id => s ← get_st; p ← lift (of_option undefined_behaviour (fetch_block s id)); set_head p
  | SetInvalid id => s ← get_st; p ← lift (of_option undefined_behaviour (fetch_block s id)); set_invalid p
  end.

Lemma fetch_wf s id p : wf s -> fetch_block s id = Some p -> (p < length (heap s))%nat.
Proof.
  intros Hs. unfold fetch_block. rewrite (wf_unlinked s Hs). cbn. intros H.
  destruct (find_id _ _ _) as [q|] eqn:E; [|done]. injection H as ->.
  apply find_id_Some in E as [Hq _]. pose proof (wf_index s Hs) as Hx. rewrite Forall_forall in Hx. auto.
Qed.

Lemma run_wf (ops : list op) s' : for_each ops run ForkDatabase.empty = Ok (tt, s') -> wf s'.
Proof.
  apply for_each_inv; [|apply wf_empty].
  intros o s u s1 _ Hs H. destruct o; cbn [run] in H.
  - unfold reset in H. run_inv. constructor; cbn; try done; [apply (wf_items s Hs)| |apply (wf_unlinked s Hs)].
    intros p q Hp. by apply elem_of_nil in Hp.
  - unfold pop_block, deref in H. apply st_bind_Ok in H as (? & ? & [= <- <-] & H). run_inv.
    match goal with Hl : lock s _ = Some ?q |- _ => apply wf_with_head; [done|]; revert Hl end.
    match goal with Hi : heap s !! ?hd = Some ?i |- _ => unfold lock; destruct (prev i) as [q'|] eqn:Eq; [|done];
      destruct (alive s q'); [|done]; intros [= ->]; destruct (wf_items s Hs hd i Hi) as (_ & _ & Hq);
      destruct (Hq _ Eq); apply lookup_lt_Some in Hi; lia end.
  - unfold start_block in H. rewrite (st_bind_run _ _ _ _ _ (make_item_run b s)) in H. run_inv.
    set (s0 := s <| heap ::= fun h => h ++ [new_item b] |>).
    assert (length (heap s) < length (heap s0))%nat as Hl by (cbn; rewrite length_app; cbn; lia).
    apply (wf_with_head (s0 <| index ::= insert (heap s0) (length (heap s)) |>)); [|done].
    apply wf_insert; [by apply wf_make_item|done].
  - apply st_bind_Ok in H as (r & s2 & H1 & H). run_inv.
    pose proof (push_block_run s b Hs) as Hp. destruct (push_guard s b); [|congruence].
    destruct Hp as [Hr Hl]. rewrite Hr in H1. injection H1 as _ <-. by apply wf_pushed.
  - unfold set_max_size in H. apply st_bind_Ok in H as (? & s2 & H1 & H). apply modify_st_Ok in H1 as ->.
    apply st_bind_Ok in H as (? & ? & [= <- <-] & H).
    assert (wf (s <| max_cached := n |>)) as Hs2 by (destruct Hs; by constructor).
    destruct (head _) as [hd|]; [|by run_inv]. run_inv.
    pose proof (wf_erase _ (Z.max 0 (num_at (heap s) hd - n)) Hs2) as He.
    destruct He as [H1 H2 H3 H4 H5 H6]. constructor; try done. cbn in H5 |- *. by rewrite H5.
  - unfold remove in H. run_inv. apply (wf_sub_index s); [done| |apply filter_sorted, Hs].
    intros x. rewrite !list_elem_of_In, filter_In. tauto.
  - apply st_bind_Ok in H as (? & ? & [= <- <-] & H). unfold set_head in H. run_inv.
    apply wf_with_head; [done|]. by eapply fetch_wf.
  - unfold set_invalid in H. apply st_bind_Ok in H as (? & ? & [= <- <-] & H). run_inv. by apply wf_set_invalid.
Qed.

End Fork.

(** ** A small tree *)

Record example_block := ExampleBlock { e_previous : block_id; e_digest : Z }.
#[export] Instance example_data : BlockData example_block :=
  {| previous := e_previous; digest := e_digest |}.

(** Blocks 1, 2, 3 and a fork 2', 3', 4' above block 1. *)
Definition id (n d : Z) : block_id := BlockId n d.
Definition main : list example_block :=
  [ExampleBlock (id 0 0) 1; ExampleBlock (id 1 1) 2; ExampleBlock (id 2 2) 3].
Definition fork : list example_block :=
  [ExampleBlock (id 1 1) 12; ExampleBlock (id 2 12) 13].
Definition example_ops : list (op (B:=example_block)) := map Push (main ++ fork).
Definition example_state : fork_database example_block :=
  match for_each example_ops run ForkDatabase.empty with Ok (_, s) => s | Throw _ => ForkDatabase.empty end.

Lemma example_run : for_each example_ops run ForkDatabase.empty = Ok (tt, example_state).
Proof. vm_compute. reflexivity. Qed.

Lemma push_block_correct_witness :
  wf example_state /\
  push_block (ExampleBlock (id 3 13) 14) example_state
    = Ok (head (pushed example_state (ExampleBlock (id 3 13) 14)), pushed example_state (ExampleBlock (id 3 13) 14)) /\
  head_num (pushed example_state (ExampleBlock (id 3 13) 14)) = Some 4.
Proof.
  assert (wf example_state) as Hs by (apply (run_wf example_ops); exact example_run).
  assert (push_block (ExampleBlock (id 3 13) 14) example_state
    = Ok (head (pushed example_state (ExampleBlock (id 3 13) 14)), pushed example_state (ExampleBlock (id 3 13) 14)))
    as E by (vm_compute; reflexivity).
  pose proof (push_block_correct example_state (ExampleBlock (id 3 13) 14) Hs ltac:(vm_compute; discriminate)) as H.
  rewrite E in H. destruct H as (_ & _ & _ & _ & Hh & _).
  split; [exact Hs|]. split; [exact E|]. rewrite Hh. vm_compute. reflexivity.
Defined.

Lemma fetch_branch_correct_witness :
  wf example_state /\ no_wrap example_state /\
  exists b1 b2, fetch_branch_from (S (length (heap example_state))) example_state (id 3 3) (id 3 13) = Some (Ok (b1, b2))
    /\ length b1 = 2%nat /\ length b2 = 2%nat.
Proof.
  assert (wf example_state) as Hs by (apply (run_wf example_ops); exact example_run).
  assert (no_wrap example_state) as Hw.
  { intros p i. do 5 (destruct p as [|p]; [intros [= <-]; vm_compute; by split|]). discriminate. }
  split; [exact Hs|]. split; [exact Hw|].
  destruct (fetch_branch_correct example_state (id 3 3) (id 3 13) Hs Hw) as (r & E & _).
  assert (fetch_branch_from (S (length (heap example_state))) example_state (id 3 3) (id 3 13)
    = Some (Ok ([2; 1], [4; 3])))%nat as E' by (vm_compute; reflexivity).
  exists [2; 1]%nat, [4; 3]%nat. split; [exact E'|]. rewrite E' in E. by split.
Defined.

End ForkFacts.
