(* ===== verification/State.v ===== *)
(** * The chain state

    Models the objects of libraries/chain (account_object.hpp,
    global_property_object.hpp, witness_objects.hpp, base_objects.hpp,
    streaming_platform_objects.hpp, content_object.hpp, asset_object.hpp,
    balance_object.hpp), the database that holds them, and the accessors of
    database.cpp.  A [time_point_sec] is its 32-bit number of seconds, an id is
    its instance.  Indexes other than the one by id are searches over the table.
    An operation of the chain runs inside an undo session that is dropped when it
    throws (file [UndoDatabase]), so its exceptions carry no state: the monad is
    [st database]. *)

From S2P Require Import Prelude.
From S2P Require Import Uint128.
From S2P Require Import Asset.
From S2P Require Import UndoDatabase.
From S2P Require Import Authority.
From S2P Require Import ForkDatabase.

(** ** Objects *)

(** [chain_properties] *)
Module ChainProps.
Record t := Make {
  account_creation_fee : asset;
  streaming_platform_update_fee : asset;
  maximum_block_size : Z;
  mbd_interest_rate : Z
}.
#[global] Instance eta : Settable t := fun r =>
  Make (account_creation_fee r) (streaming_platform_update_fee r) (maximum_block_size r)
    (mbd_interest_rate r).
End ChainProps.

(** [asset_options] *)
Module AssetOptions.
Record t := Make {
  max_supply : Z;
  market_fee_percent : Z;
  max_market_fee : Z;
  issuer_permissions : Z;
  flags : Z;
  description : string
}.
#[global] Instance eta : Settable t := fun r =>
  Make (max_supply r) (market_fee_percent r) (max_market_fee r) (issuer_permissions r) (flags r)
    (description r).
End AssetOptions.

(** [account_object::redelegation] *)
Module Redelegation.
Record t := Make {
  redelegate_pct : Z;
  redelegated : Z
}.
#[global] Instance eta : Settable t := fun r =>
  Make (redelegate_pct r) (redelegated r).
End Redelegation.

(** [account_object] *)
Module Account.
Record t := Make {
  name : string;
  owner : authority;
  active : authority;
  basic : authority;
  memo_key : public_key;
  json_metadata : string;
  proxy : string;
  last_owner_update : Z;
  created : Z;
  owner_challenged : bool;
  active_challenged : bool;
  last_owner_proved : Z;
  last_active_proved : Z;
  recovery_account : string;
  last_account_recovery : Z;
  lifetime_vote_count : Z;
  score : Z;
  total_listening_time : Z;
  total_time_by_platform : gmap Z Z;
  voting_power : Z;
  last_vote_time : Z;
  balance : asset;
  mbd_balance : asset;
  mbd_seconds : u128;
  mbd_seconds_last_update : Z;
  mbd_last_interest_payment : Z;
  vesting_shares : asset;
  delegated_vesting_shares : asset;
  received_vesting_shares : asset;
  redelegations : gmap Z Redelegation.t;
  redelegated_vesting_shares : asset;
  rereceived_vesting_shares : asset;
  vesting_withdraw_rate : asset;
  next_vesting_withdrawal : Z;
  withdrawn : Z;
  to_withdraw : Z;
  withdraw_routes : Z;
  proxied_vsf_votes : list Z;
  witnesses_voted_for : Z;
  streaming_platforms_voted_for : Z;
  average_bandwidth : Z;
  lifetime_bandwidth : Z;
  last_bandwidth_update : Z;
  average_market_bandwidth : Z;
  last_market_bandwidth_update : Z;
  last_active : Z;
  friends : list Z;
  second_level : list Z;
  waiting : list Z
}.
#[global] Instance eta : Settable t := fun r =>
  Make (name r) (owner r) (active r) (basic r) (memo_key r) (json_metadata r) (proxy r)
    (last_owner_update r) (created r) (owner_challenged r) (active_challenged r)
    (last_owner_proved r) (last_active_proved r) (recovery_account r) (last_account_recovery r)
    (lifetime_vote_count r) (score r) (total_listening_time r) (total_time_by_platform r)
    (voting_power r) (last_vote_time r) (balance r) (mbd_balance r) (mbd_seconds r)
    (mbd_seconds_last_update r) (mbd_last_interest_payment r) (vesting_shares r)
    (delegated_vesting_shares r) (received_vesting_shares r) (redelegations r)
    (redelegated_vesting_shares r) (rereceived_vesting_shares r) (vesting_withdraw_rate r)
    (next_vesting_withdrawal r) (withdrawn r) (to_withdraw r) (withdraw_routes r)
    (proxied_vsf_votes r) (witnesses_voted_for r) (streaming_platforms_voted_for r)
    (average_bandwidth r) (lifetime_bandwidth r) (last_bandwidth_update r)
    (average_market_bandwidth r) (last_market_bandwidth_update r) (last_active r) (friends r)
    (second_level r) (waiting r).
End Account.

(** [account_balance_object] *)
Module Balance.
Record t := Make {
  owner : Z;
  asset_type : Z;
  balance : Z
}.
#[global] Instance eta : Settable t := fun r =>
  Make (owner r) (asset_type r) (balance r).
End Balance.

(** [vesting_delegation_object] *)
Module Delegation.
Record t := Make {
  delegator : string;
  delegatee : string;
  vesting_shares : asset;
  min_delegation_time : Z
}.
#[global] Instance eta : Settable t := fun r =>
  Make (delegator r) (delegatee r) (vesting_shares r) (min_delegation_time r).
End Delegation.

(** [vesting_delegation_expiration_object] *)
Module Expiration.
Record t := Make {
  delegator : string;
  vesting_shares : asset;
  expiration : Z
}.
#[global] Instance eta : Settable t := fun r =>
  Make (delegator r) (vesting_shares r) (expiration r).
End Expiration.

(** [owner_authority_history_object] *)
Module OwnerHistory.
Record t := Make {
  account : string;
  previous_owner_authority : authority;
  last_valid_time : Z
}.
#[global] Instance eta : Settable t := fun r =>
  Make (account r) (previous_owner_authority r) (last_valid_time r).
End OwnerHistory.

(** [account_recovery_request_object] *)
Module RecoveryRequest.
Record t := Make {
  account_to_recover : string;
  new_owner_authority : authority;
  expires : Z
}.
#[global] Instance eta : Settable t := fun r =>
  Make (account_to_recover r) (new_owner_authority r) (expires r).
End RecoveryRequest.

(** [change_recovery_account_request_object] *)
Module ChangeRecovery.
Record t := Make {
  account_to_recover : string;
  recovery_account : string;
  effective_on : Z
}.
#[global] Instance eta : Settable t := fun r =>
  Make (account_to_recover r) (recovery_account r) (effective_on r).
End ChangeRecovery.

(** [dynamic_global_property_object] *)
Module Dgpo.
Record t := Make {
  head_block_number : Z;
  head_block_id : block_id;
  time : Z;
  current_witness : string;
  virtual_supply : asset;
  current_supply : asset;
  confidential_supply : asset;
  current_mbd_supply : asset;
  confidential_mbd_supply : asset;
  total_vesting_fund_btcm : asset;
  total_vesting_shares : asset;
  total_reward_fund_btcm : asset;
  supply_delta : asset;
  maximum_proposal_lifetime : Z;
  mbd_interest_rate : Z;
  average_block_size : Z;
  maximum_block_size : Z;
  current_aslot : Z;
  recent_slots_filled : u128;
  participation_count : Z;
  last_irreversible_block_num : Z;
  max_virtual_bandwidth : Z;
  current_reserve_ratio : Z;
  delegation_return_period : Z;
  active_users : Z;
  full_time_users : Z;
  total_listening_time : Z;
  full_users_time : Z;
  total_vested_by_platforms : Z
}.
#[global] Instance eta : Settable t := fun r =>
  Make (head_block_number r) (head_block_id r) (time r) (current_witness r) (virtual_supply r)
    (current_supply r) (confidential_supply r) (current_mbd_supply r) (confidential_mbd_supply r)
    (total_vesting_fund_btcm r) (total_vesting_shares r) (total_reward_fund_btcm r) (supply_delta r)
    (maximum_proposal_lifetime r) (mbd_interest_rate r) (average_block_size r)
    (maximum_block_size r) (current_aslot r) (recent_slots_filled r) (participation_count r)
    (last_irreversible_block_num r) (max_virtual_bandwidth r) (current_reserve_ratio r)
    (delegation_return_period r) (active_users r) (full_time_users r) (total_listening_time r)
    (full_users_time r) (total_vested_by_platforms r).
End Dgpo.

(** [witness_object] *)
Module Witness.
Record t := Make {
  owner : string;
  created : Z;
  url : string;
  total_missed : Z;
  last_aslot : Z;
  last_confirmed_block_num : Z;
  signing_key : public_key;
  props : ChainProps.t;
  mbd_exchange_rate : price;
  last_mbd_exchange_update : Z;
  votes : Z;
  virtual_last_update : u128;
  virtual_position : u128;
  virtual_scheduled_time : u128;
  last_work : Z;
  running_version : Z;
  hardfork_version_vote : Z;
  hardfork_time_vote : Z
}.
#[global] Instance eta : Settable t := fun r =>
  Make (owner r) (created r) (url r) (total_missed r) (last_aslot r) (last_confirmed_block_num r)
    (signing_key r) (props r) (mbd_exchange_rate r) (last_mbd_exchange_update r) (votes r)
    (virtual_last_update r) (virtual_position r) (virtual_scheduled_time r) (last_work r)
    (running_version r) (hardfork_version_vote r) (hardfork_time_vote r).
End Witness.

(** [witness_vote_object] *)
Module WitnessVote.
Record t := Make {
  witness : Z;
  account : Z
}.
#[global] Instance eta : Settable t := fun r =>
  Make (witness r) (account r).
End WitnessVote.

(** [witness_schedule_object] *)
Module Schedule.
Record t := Make {
  current_virtual_time : u128;
  next_shuffle_block_num : Z;
  current_shuffled_witnesses : list string;
  median_props : ChainProps.t;
  majority_version : Z
}.
#[global] Instance eta : Settable t := fun r =>
  Make (current_virtual_time r) (next_shuffle_block_num r) (current_shuffled_witnesses r)
    (median_props r) (majority_version r).
End Schedule.

(** [hardfork_property_object] *)
Module Hardforks.
Record t := Make {
  processed_hardforks : list Z;
  last_hardfork : Z;
  current_hardfork_version : Z;
  next_hardfork : Z;
  next_hardfork_time : Z
}.
#[global] Instance eta : Settable t := fun r =>
  Make (processed_hardforks r) (last_hardfork r) (current_hardfork_version r) (next_hardfork r)
    (next_hardfork_time r).
End Hardforks.

(** [convert_request_object] *)
Module ConvertRequest.
Record t := Make {
  owner : string;
  requestid : Z;
  amount : asset;
  conversion_date : Z
}.
#[global] Instance eta : Settable t := fun r =>
  Make (owner r) (requestid r) (amount r) (conversion_date r).
End ConvertRequest.

(** [feed_history_object] *)
Module FeedHistory.
Record t := Make {
  actual_median_history : price;
  effective_median_history : price;
  price_history : list price
}.
#[global] Instance eta : Settable t := fun r =>
  Make (actual_median_history r) (effective_median_history r) (price_history r).
End FeedHistory.

(** [limit_order_object] *)
Module LimitOrder.
Record t := Make {
  created : Z;
  expiration : Z;
  seller : string;
  orderid : Z;
  for_sale : Z;
  sell_price : price
}.
#[global] Instance eta : Settable t := fun r =>
  Make (created r) (expiration r) (seller r) (orderid r) (for_sale r) (sell_price r).
End LimitOrder.

(** [withdraw_vesting_route_object] *)
Module Route.
Record t := Make {
  from_account : Z;
  to_account : Z;
  percent : Z;
  auto_vest : bool
}.
#[global] Instance eta : Settable t := fun r =>
  Make (from_account r) (to_account r) (percent r) (auto_vest r).
End Route.

(** [streaming_platform_object] *)
Module Platform.
Record t := Make {
  owner : string;
  created : Z;
  url : string;
  votes : Z;
  active_users : Z;
  full_time_users : Z;
  total_listening_time : Z;
  full_users_time : Z;
  total_anon_listening_time : Z
}.
#[global] Instance eta : Settable t := fun r =>
  Make (owner r) (created r) (url r) (votes r) (active_users r) (full_time_users r)
    (total_listening_time r) (full_users_time r) (total_anon_listening_time r).
End Platform.

(** [stream_report_request_object] *)
Module ReportRequest.
Record t := Make {
  requestor : string;
  reporter : string;
  reward_pct : Z
}.
#[global] Instance eta : Settable t := fun r =>
  Make (requestor r) (reporter r) (reward_pct r).
End ReportRequest.

(** [streaming_platform_vote_object] *)
Module PlatformVote.
Record t := Make {
  streaming_platform : Z;
  account : Z
}.
#[global] Instance eta : Settable t := fun r =>
  Make (streaming_platform r) (account r).
End PlatformVote.

(** [report_object] *)
Module Report.
Record t := Make {
  streaming_platform : Z;
  consumer : option Z;
  sp_user_id : option Z;
  content : Z;
  created : Z;
  play_time : Z;
  playlist_creator : option Z;
  spinning_platform : option Z;
  reward_pct : option Z
}.
#[global] Instance eta : Settable t := fun r =>
  Make (streaming_platform r) (consumer r) (sp_user_id r) (content r) (created r) (play_time r)
    (playlist_creator r) (spinning_platform r) (reward_pct r).
End Report.

(** [streaming_platform_user_object] *)
Module PlatformUser.
Record t := Make {
  streaming_platform : Z;
  sp_user_id : Z;
  total_listening_time : Z
}.
#[global] Instance eta : Settable t := fun r =>
  Make (streaming_platform r) (sp_user_id r) (total_listening_time r).
End PlatformUser.

(** [content_metadata_album_master] *)
Module AlbumMeta.
Record t := Make {
  part_of_album : bool;
  album_title : string;
  album_artist : list string;
  genre_1 : Z;
  genre_2 : option Z;
  country_of_origin : string;
  explicit_ : Z;
  p_line : string;
  c_line : string;
  upc_or_ean : Z;
  release_date : Z;
  release_year : Z;
  sales_start_date : Z;
  album_producer : option string;
  album_type : option string;
  master_label_name : string;
  display_label_name : string
}.
#[global] Instance eta : Settable t := fun r =>
  Make (part_of_album r) (album_title r) (album_artist r) (genre_1 r) (genre_2 r)
    (country_of_origin r) (explicit_ r) (p_line r) (c_line r) (upc_or_ean r) (release_date r)
    (release_year r) (sales_start_date r) (album_producer r) (album_type r) (master_label_name r)
    (display_label_name r).
End AlbumMeta.

(** [content_metadata_track_master::track_artist] *)
Module TrackArtist.
Record t := Make {
  artist : string;
  aliases : option (list string);
  ISNI : option Z
}.
#[global] Instance eta : Settable t := fun r =>
  Make (artist r) (aliases r) (ISNI r).
End TrackArtist.

(** [content_metadata_track_master] *)
Module TrackMeta.
Record t := Make {
  track_title : string;
  ISRC : string;
  track_artists : list TrackArtist.t;
  featured_artist : option string;
  featured_artist_ISNI : option Z;
  track_producer : option string;
  genre_1 : Z;
  genre_2 : option Z;
  p_line : string;
  track_no : Z;
  track_volume : Z;
  json_metadata : option string;
  track_duration : Z;
  samples : bool
}.
#[global] Instance eta : Settable t := fun r =>
  Make (track_title r) (ISRC r) (track_artists r) (featured_artist r) (featured_artist_ISNI r)
    (track_producer r) (genre_1 r) (genre_2 r) (p_line r) (track_no r) (track_volume r)
    (json_metadata r) (track_duration r) (samples r).
End TrackMeta.

(** [content_metadata_publisher::publisher] *)
Module Publisher.
Record t := Make {
  publisher : string;
  IPI_CAE : option string;
  ISNI : option Z
}.
#[global] Instance eta : Settable t := fun r =>
  Make (publisher r) (IPI_CAE r) (ISNI r).
End Publisher.

(** [content_metadata_publisher::writer] *)
Module Writer.
Record t := Make {
  writer : string;
  IPI_CAE : option string;
  ISNI : option Z;
  role : option Z;
  publisher : string
}.
#[global] Instance eta : Settable t := fun r =>
  Make (writer r) (IPI_CAE r) (ISNI r) (role r) (publisher r).
End Writer.

(** [content_metadata_publisher] *)
Module CompMeta.
Record t := Make {
  composition_title : string;
  alternate_composition_title : option string;
  ISWC : option string;
  third_party_publishers : bool;
  publishers : list Publisher.t;
  writers : list Writer.t;
  PRO : string
}.
#[global] Instance eta : Settable t := fun r =>
  Make (composition_title r) (alternate_composition_title r) (ISWC r) (third_party_publishers r)
    (publishers r) (writers r) (PRO r).
End CompMeta.

(** [distribution] *)
Module Distribution.
Record t := Make {
  payee : string;
  bp : Z
}.
#[global] Instance eta : Settable t := fun r =>
  Make (payee r) (bp r).
End Distribution.

(** [content_object] *)
Module Content.
Record t := Make {
  uploader : string;
  url : string;
  accumulated_balance_master : asset;
  accumulated_balance_comp : asset;
  album_meta : AlbumMeta.t;
  track_meta : TrackMeta.t;
  comp_meta : CompMeta.t;
  track_title : string;
  last_update : Z;
  created : Z;
  last_played : Z;
  distributions_master : list Distribution.t;
  distributions_comp : list Distribution.t;
  playing_reward : Z;
  publishers_share : Z;
  manage_master : authority;
  manage_comp : authority;
  times_played : Z;
  times_played_24 : Z;
  curation_rewards : bool;
  curation_reward_expiration : Z;
  allow_votes : bool;
  disabled : bool
}.
#[global] Instance eta : Settable t := fun r =>
  Make (uploader r) (url r) (accumulated_balance_master r) (accumulated_balance_comp r)
    (album_meta r) (track_meta r) (comp_meta r) (track_title r) (last_update r) (created r)
    (last_played r) (distributions_master r) (distributions_comp r) (playing_reward r)
    (publishers_share r) (manage_master r) (manage_comp r) (times_played r) (times_played_24 r)
    (curation_rewards r) (curation_reward_expiration r) (allow_votes r) (disabled r).
End Content.

(** [content_approve_object] *)
Module ContentApproval.
Record t := Make {
  content : string;
  approver : Z
}.
#[global] Instance eta : Settable t := fun r =>
  Make (content r) (approver r).
End ContentApproval.

(** [content_vote_object] *)
Module ContentVote.
Record t := Make {
  voter : Z;
  content : Z;
  weight : Z;
  num_changes : Z;
  marked_for_curation_reward : bool;
  last_update : Z
}.
#[global] Instance eta : Settable t := fun r =>
  Make (voter r) (content r) (weight r) (num_changes r) (marked_for_curation_reward r)
    (last_update r).
End ContentVote.

(** [asset_object] *)
Module AssetObject.
Record t := Make {
  current_supply : Z;
  symbol_string : string;
  precision : Z;
  issuer : Z;
  options : AssetOptions.t
}.
#[global] Instance eta : Settable t := fun r =>
  Make (current_supply r) (symbol_string r) (precision r) (issuer r) (options r).
End AssetObject.

(** [balance_object] *)
Module ClaimBalance.
Record t := Make {
  owner : Z;
  balance : asset;
  last_claim_date : Z
}.
#[global] Instance eta : Settable t := fun r =>
  Make (owner r) (balance r) (last_claim_date r).
End ClaimBalance.

(** ** Objects as their constructors leave them *)

Definition BTCM_GENESIS_TIME : Z := 1585422000.
Definition BTCM_MAX_PROXY_RECURSION_DEPTH : nat := 4.
Definition BTCM_MIN_ACCOUNT_CREATION_FEE : Z := 1.
Definition BTCM_MIN_STREAMING_PLATFORM_CREATION_FEE : Z := 100000000 * 1000000.
Definition BTCM_MIN_BLOCK_SIZE_LIMIT : Z := 1024 * 64.
Definition BTCM_DEFAULT_SBD_INTEREST_RATE : Z := 1000.
Definition BTCM_DELEGATION_RETURN_PERIOD : Z := 604800.
(** [time_point_sec::maximum()] *)
Definition max_time : Z := 0xffffffff.

Definition default_props : ChainProps.t :=
  ChainProps.Make (Asset BTCM_MIN_ACCOUNT_CREATION_FEE BTCM_SYMBOL)
    (Asset BTCM_MIN_STREAMING_PLATFORM_CREATION_FEE BTCM_SYMBOL)
    (BTCM_MIN_BLOCK_SIZE_LIMIT * 2) BTCM_DEFAULT_SBD_INTEREST_RATE.

Definition default_account : Account.t :=
  let vests := Asset 0 VESTS_SYMBOL in
  Account.Make "" empty_authority empty_authority empty_authority null_key "" "" 0 0 false false 0 0 "" 0
    0 0 0 empty BTCM_100_PERCENT 0 (Asset 0 BTCM_SYMBOL) (Asset 0 XUSD_SYMBOL) Uint128.zero 0 0
    vests vests vests empty vests vests vests max_time 0 0 0 (repeat 0 BTCM_MAX_PROXY_RECURSION_DEPTH)
    0 0 0 0 0 0 0 0 [] [] [].

Definition default_witness : Witness.t :=
  Witness.Make "" 0 "" 0 0 0 null_key default_props default_price 0 0 Uint128.zero Uint128.zero
    Uint128.max_value 0 0 0 BTCM_GENESIS_TIME.

Definition default_schedule : Schedule.t := Schedule.Make Uint128.zero 1 [] default_props 0.

Definition default_feed_history : FeedHistory.t := FeedHistory.Make default_price default_price [].

Definition default_hardforks : Hardforks.t := Hardforks.Make [] 0 0 0 0.

Definition default_dgpo : Dgpo.t :=
  let btcm := Asset 0 BTCM_SYMBOL in let xusd := Asset 0 XUSD_SYMBOL in
  Dgpo.Make 0 null_id 0 "" btcm btcm btcm xusd xusd btcm (Asset 0 VESTS_SYMBOL) btcm btcm 86400 0 0 0 0
    Uint128.zero 0 0 0 1 BTCM_DELEGATION_RETURN_PERIOD 0 0 0 0 0.

Definition default_platform : Platform.t := Platform.Make "" 0 "" 0 0 0 0 0 0.

(** ** The database *)

Record database := Database {
  dgpo : Dgpo.t;
  schedule : Schedule.t;
  feed_history : FeedHistory.t;
  hardforks : Hardforks.t;
  accounts : table Account.t;
  account_balances : table Balance.t;
  delegations : table Delegation.t;
  expirations : table Expiration.t;
  owner_histories : table OwnerHistory.t;
  recovery_requests : table RecoveryRequest.t;
  change_recoveries : table ChangeRecovery.t;
  witnesses : table Witness.t;
  witness_votes : table WitnessVote.t;
  convert_requests : table ConvertRequest.t;
  limit_orders : table LimitOrder.t;
  routes : table Route.t;
  platforms : table Platform.t;
  report_requests : table ReportRequest.t;
  platform_votes : table PlatformVote.t;
  reports : table Report.t;
  platform_users : table PlatformUser.t;
  contents : table Content.t;
  content_approvals : table ContentApproval.t;
  content_votes : table ContentVote.t;
  assets : table AssetObject.t;
  claim_balances : table ClaimBalance.t
}.
#[export] Instance eta_database : Settable database := fun r =>
  Database (dgpo r) (schedule r) (feed_history r) (hardforks r) (accounts r) (account_balances r) (delegations r)
    (expirations r) (owner_histories r) (recovery_requests r) (change_recoveries r) (witnesses r)
    (witness_votes r) (convert_requests r) (limit_orders r) (routes r) (platforms r)
    (report_requests r) (platform_votes r) (reports r) (platform_users r) (contents r)
    (content_approvals r) (content_votes r) (assets r) (claim_balances r).

(** Where the objects of a type are kept, and when two of them break a unique
    index. *)
Class Stored (V : Type) := {
  tbl : database -> table V;
  upd_tbl : (table V -> table V) -> database -> database;
  conflict : V -> V -> bool
}.

#[export] Instance stored_accounts : Stored Account.t := {|
  tbl := accounts;
  upd_tbl f d := d <| accounts ::= f |>;
  conflict a b := String.eqb (Account.name a) (Account.name b)
|}.
#[export] Instance stored_account_balances : Stored Balance.t := {|
  tbl := account_balances;
  upd_tbl f d := d <| account_balances ::= f |>;
  conflict a b := (Balance.owner a =? Balance.owner b) && (Balance.asset_type a =? Balance.asset_type b)
|}.
#[export] Instance stored_delegations : Stored Delegation.t := {|
  tbl := delegations;
  upd_tbl f d := d <| delegations ::= f |>;
  conflict a b := String.eqb (Delegation.delegator a) (Delegation.delegator b)
  && String.eqb (Delegation.delegatee a) (Delegation.delegatee b)
|}.
#[export] Instance stored_expirations : Stored Expiration.t := {|
  tbl := expirations;
  upd_tbl f d := d <| expirations ::= f |>;
  conflict _ _ := false
|}.
#[export] Instance stored_owner_histories : Stored OwnerHistory.t := {|
  tbl := owner_histories;
  upd_tbl f d := d <| owner_histories ::= f |>;
  conflict _ _ := false
|}.
#[export] Instance stored_recovery_requests : Stored RecoveryRequest.t := {|
  tbl := recovery_requests;
  upd_tbl f d := d <| recovery_requests ::= f |>;
  conflict _ _ := false
|}.
#[export] Instance stored_change_recoveries : Stored ChangeRecovery.t := {|
  tbl := change_recoveries;
  upd_tbl f d := d <| change_recoveries ::= f |>;
  conflict _ _ := false
|}.
#[export] Instance stored_witnesses : Stored Witness.t := {|
  tbl := witnesses;
  upd_tbl f d := d <| witnesses ::= f |>;
  conflict a b := String.eqb (Witness.owner a) (Witness.owner b)
|}.
#[export] Instance stored_witness_votes : Stored WitnessVote.t := {|
  tbl := witness_votes;
  upd_tbl f d := d <| witness_votes ::= f |>;
  conflict a b := (WitnessVote.witness a =? WitnessVote.witness b) && (WitnessVote.account a =? WitnessVote.account b)
|}.
#[export] Instance stored_convert_requests : Stored ConvertRequest.t := {|
  tbl := convert_requests;
  upd_tbl f d := d <| convert_requests ::= f |>;
  conflict a b := String.eqb (ConvertRequest.owner a) (ConvertRequest.owner b)
  && (ConvertRequest.requestid a =? ConvertRequest.requestid b)
|}.
#[export] Instance stored_limit_orders : Stored LimitOrder.t := {|
  tbl := limit_orders;
  upd_tbl f d := d <| limit_orders ::= f |>;
  conflict a b := String.eqb (LimitOrder.seller a) (LimitOrder.seller b)
  && (LimitOrder.orderid a =? LimitOrder.orderid b)
|}.
#[export] Instance stored_routes : Stored Route.t := {|
  tbl := routes;
  upd_tbl f d := d <| routes ::= f |>;
  conflict a b := (Route.from_account a =? Route.from_account b) && (Route.to_account a =? Route.to_account b)
|}.
#[export] Instance stored_platforms : Stored Platform.t := {|
  tbl := platforms;
  upd_tbl f d := d <| platforms ::= f |>;
  conflict a b := String.eqb (Platform.owner a) (Platform.owner b)
|}.
#[export] Instance stored_report_requests : Stored ReportRequest.t := {|
  tbl := report_requests;
  upd_tbl f d := d <| report_requests ::= f |>;
  conflict a b := String.eqb (ReportRequest.requestor a) (ReportRequest.requestor b)
  && String.eqb (ReportRequest.reporter a) (ReportRequest.reporter b)
|}.
#[export] Instance stored_platform_votes : Stored PlatformVote.t := {|
  tbl := platform_votes;
  upd_tbl f d := d <| platform_votes ::= f |>;
  conflict a b := (PlatformVote.streaming_platform a =? PlatformVote.streaming_platform b)
  && (PlatformVote.account a =? PlatformVote.account b)
|}.
#[export] Instance stored_reports : Stored Report.t := {|
  tbl := reports;
  upd_tbl f d := d <| reports ::= f |>;
  conflict _ _ := false
|}.
#[export] Instance stored_platform_users : Stored PlatformUser.t := {|
  tbl := platform_users;
  upd_tbl f d := d <| platform_users ::= f |>;
  conflict a b := (PlatformUser.streaming_platform a =? PlatformUser.streaming_platform b)
  && (PlatformUser.sp_user_id a =? PlatformUser.sp_user_id b)
|}.
#[export] Instance stored_contents : Stored Content.t := {|
  tbl := contents;
  upd_tbl f d := d <| contents ::= f |>;
  conflict a b := String.eqb (Content.url a) (Content.url b)
|}.
#[export] Instance stored_content_approvals : Stored ContentApproval.t := {|
  tbl := content_approvals;
  upd_tbl f d := d <| content_approvals ::= f |>;
  conflict a b := String.eqb (ContentApproval.content a) (ContentApproval.content b)
  || (ContentApproval.approver a =? ContentApproval.approver b)
|}.
#[export] Instance stored_content_votes : Stored ContentVote.t := {|
  tbl := content_votes;
  upd_tbl f d := d <| content_votes ::= f |>;
  conflict a b := (ContentVote.voter a =? ContentVote.voter b) && (ContentVote.content a =? ContentVote.content b)
|}.
#[export] Instance stored_assets : Stored AssetObject.t := {|
  tbl := assets;
  upd_tbl f d := d <| assets ::= f |>;
  conflict a b := String.eqb (AssetObject.symbol_string a) (AssetObject.symbol_string b)
|}.
#[export] Instance stored_claim_balances : Stored ClaimBalance.t := {|
  tbl := claim_balances;
  upd_tbl f d := d <| claim_balances ::= f |>;
  conflict _ _ := false
|}.
(** ** Access to the tables *)

(** A new object, put in the table under the next id; 48 bits of instance numbers
    do not run out. *)
Definition next_object {V} (t : table V) (v : V) : table V :=
  t <| indices ::= <[next_id t := v]> |> <| next_id ::= fun n => n + 1 |>.

Section Access.
Context {V : Type} {St : Stored V}.

Definition get_opt (d : database) (id : Z) : option V := indices (tbl d) !! id.

(** [get]: an exception when there is no such object. *)
Definition get (id : Z) : st database V :=
  d ← get_st; lift (of_option assert_exception (get_opt d id)).

(** Looking for the object with a key. *)
Definition lookup_where (p : V -> bool) (d : database) : option (Z * V) :=
  List.find (fun kv => p kv.2) (map_to_list (indices (tbl d))).
Definition find_where (p : V -> bool) : st database (option (Z * V)) := gets (lookup_where p).
Definition get_where (p : V -> bool) : st database (Z * V) :=
  d ← get_st; lift (of_option assert_exception (lookup_where p d)).

(** The objects in the order of an index; [le] compares the keys. *)
Definition in_order (le : Z * V -> Z * V -> Prop) `{!RelDecision le} (d : database) : list (Z * V) :=
  merge_sort le (map_to_list (indices (tbl d))).

(** [modify]: the lambda may throw.  No lambda of the modelled code changes a
    unique key. *)
Definition modify (id : Z) (f : V -> result V) : st database unit :=
  v ← get id;
  w ← lift (f v);
  modify_st (upd_tbl (fun t => t <| indices ::= <[id := w]> |>)).
Definition modify_pure (id : Z) (f : V -> V) : st database unit := modify id (fun v => Ok (f v)).

(** [create]: the new object is checked against the unique indexes. *)
Definition create (v : V) : st database Z :=
  d ← get_st;
  _ ← assert_st (negb (existsb (fun kv => conflict v kv.2) (map_to_list (indices (tbl d)))));
  _ ← modify_st (upd_tbl (fun t => next_object t v));
  mret (next_id (tbl (V:=V) d)).

Definition remove (id : Z) : st database unit :=
  modify_st (upd_tbl (fun t : table V => t <| indices ::= delete id |>)).
End Access.

(** [modify( get_dynamic_global_properties(), .. )] *)
Definition modify_dgpo (f : Dgpo.t -> result Dgpo.t) : st database unit :=
  d ← get_st;
  p ← lift (f (dgpo d));
  modify_st (fun d => d <| dgpo := p |>).

Definition head_block_time (d : database) : Z := Dgpo.time (dgpo d).
Definition head_block_num (d : database) : Z := Dgpo.head_block_number (dgpo d).

(** ** The accessors of database.cpp *)

Definition get_account (name : string) : st database (Z * Account.t) :=
  get_where (fun a => String.eqb (Account.name a) name).
Definition find_limit_order (name : string) (orderid : Z) : st database (option (Z * LimitOrder.t)) :=
  find_where (fun o => String.eqb (LimitOrder.seller o) name && (LimitOrder.orderid o =? orderid)).
Definition get_limit_order (name : string) (orderid : Z) : st database (Z * LimitOrder.t) :=
  get_where (fun o => String.eqb (LimitOrder.seller o) name && (LimitOrder.orderid o =? orderid)).
Definition get_witness (name : string) : st database (Z * Witness.t) :=
  get_where (fun w => String.eqb (Witness.owner w) name).
Definition find_witness (name : string) : st database (option (Z * Witness.t)) :=
  find_where (fun w => String.eqb (Witness.owner w) name).
Definition get_streaming_platform (name : string) : st database (Z * Platform.t) :=
  get_where (fun p => String.eqb (Platform.owner p) name).
Definition find_streaming_platform (name : string) : st database (option (Z * Platform.t)) :=
  find_where (fun p => String.eqb (Platform.owner p) name).
Definition get_content (url : string) : st database (Z * Content.t) :=
  get_where (fun c => String.eqb (Content.url c) url).
Definition get_asset (symbol : string) : st database (Z * AssetObject.t) :=
  get_where (fun a => String.eqb (AssetObject.symbol_string a) symbol).

(** ** Lemmas *)

Create HintDb state.

(** The table of one type is not touched by updates of another. *)
Class StoredOk (V : Type) `{St : Stored V} : Prop := {
  tbl_upd : forall f d, tbl (V:=V) (upd_tbl f d) = f (tbl d)
}.
#[export] Hint Extern 0 (StoredOk _) => (constructor; reflexivity) : typeclass_instances.

Section AccessFacts.
Context {V : Type} {St : Stored V} {Ok_ : StoredOk V}.
Implicit Types (d : database) (id : Z) (v w : V).

Lemma get_Ok id d v d' : get id d = Ok (v, d') <-> get_opt d id = Some v /\ d' = d.
Proof.
  unfold get. split; [intros H; run_inv|intros [H ->]].
  - unfold get_st in *. simplify_eq. done.
  - unfold mbind, st_bind, get_st. by rewrite H.
Qed.

Lemma lookup_where_Some p d id v : lookup_where p d = Some (id, v) -> get_opt d id = Some v /\ p v = true.
Proof.
  intros H. apply find_some in H as [Hin Hp]. split; [|done].
  by apply list_elem_of_In, elem_of_map_to_list in Hin.
Qed.

Lemma lookup_where_None p d id v : lookup_where p d = None -> get_opt d id = Some v -> p v = false.
Proof.
  intros H Hv. apply (find_none _ _ H (id, v)). by apply list_elem_of_In, elem_of_map_to_list.
Qed.

Lemma get_where_Ok p d kv d' : get_where p d = Ok (kv, d') <-> lookup_where p d = Some kv /\ d' = d.
Proof.
  unfold get_where, mbind, st_bind, get_st, lift, of_option. destruct (lookup_where p d); naive_solver.
Qed.

Lemma find_where_Ok p d o d' : find_where p d = Ok (o, d') <-> o = lookup_where p d /\ d' = d.
Proof. unfold find_where, gets. naive_solver. Qed.

(** What [modify], [create] and [remove] leave in the table. *)
Definition set_obj d id v : database := upd_tbl (fun t => t <| indices ::= <[id := v]> |>) d.

Lemma modify_Ok id f d u d' :
  modify id f d = Ok (u, d') <-> exists v w, get_opt d id = Some v /\ f v = Ok w /\ d' = set_obj d id w.
Proof.
  unfold modify, mbind, st_bind, lift, modify_st, set_obj, get, mbind, st_bind, get_st, lift, of_option.
  destruct (get_opt d id) as [v|]; [|naive_solver].
  destruct (f v) as [w|] eqn:E; [|split; [done|intros (v' & w' & [= ->] & Hw & _); rewrite Hw in E; discriminate E]].
  destruct u. split; [intros [= <-]; eauto|]. intros (v' & w' & [= ->] & Hw & ->). rewrite Hw in E. by injection E as ->.
Qed.

Lemma obj_modify_run id f d v w : get_opt d id = Some v -> f v = Ok w -> modify id f d = Ok (tt, set_obj d id w).
Proof. intros. apply modify_Ok. eauto. Qed.

Lemma obj_modify_eq id f d v : get_opt d id = Some v ->
  modify id f d = match f v with Ok w => Ok (tt, set_obj d id w) | Throw e => Throw e end.
Proof.
  intros H. unfold modify, mbind, st_bind, lift, modify_st, set_obj, get, mbind, st_bind, get_st, lift, of_option.
  rewrite H. by destruct (f v).
Qed.

Lemma create_Ok v d id d' : create v d = Ok (id, d') <->
  (forall i w, get_opt d i = Some w -> conflict v w = false) /\
  id = next_id (tbl (V:=V) d) /\ d' = upd_tbl (fun t => next_object t v) d.
Proof.
  unfold create, mbind, st_bind, get_st, assert_st, lift, fc_assert, modify_st, mret, st_ret.
  assert (negb (existsb (fun kv => conflict v kv.2) (map_to_list (indices (tbl d)))) = true <->
    forall i w, get_opt d i = Some w -> conflict v w = false) as Hiff.
  { rewrite negb_true_iff, <- not_true_iff_false, existsb_exists. split.
    - intros H i w Hw. apply not_true_iff_false. intros Hc. apply H. exists (i, w). split; [|done].
      by apply list_elem_of_In, elem_of_map_to_list.
    - intros H ([i w] & Hin & Hc). apply list_elem_of_In, elem_of_map_to_list in Hin.
      specialize (H i w Hin). cbn in Hc. congruence. }
  destruct (negb _); [|split; [done|]; intros (H & _); by apply Hiff in H].
  split; [intros [= <- <-]; split; [by apply Hiff|done]|]. by intros (_ & -> & ->).
Qed.

Lemma remove_Ok id d u d' : remove (V:=V) id d = Ok (u, d') <-> d' = upd_tbl (fun t : table V => t <| indices ::= delete id |>) d.
Proof. unfold remove, modify_st. destruct u. split; [by intros [= <-]|by intros ->]. Qed.

Lemma get_set_obj d id v i : get_opt (set_obj d id v) i = if decide (i = id) then Some v else get_opt d i.
Proof.
  unfold get_opt, set_obj. rewrite tbl_upd. cbn. destruct (decide (i = id)) as [->|].
  - apply lookup_insert_eq.
  - by apply lookup_insert_ne.
Qed.

(** The sum of a quantity over a table. *)
Definition total (f : V -> Z) d : Z := map_sum f (indices (tbl d)).

Lemma total_set_obj f d id v w : get_opt d id = Some v -> total f (set_obj d id w) = total f d - f v + f w.
Proof. intros H. unfold total, set_obj. rewrite tbl_upd. by apply map_sum_insert. Qed.

Lemma total_create f d v : get_opt d (next_id (tbl (V:=V) d)) = None ->
  total f (upd_tbl (fun t => next_object t v) d) = f v + total f d.
Proof. intros H. unfold total. rewrite tbl_upd. by apply map_sum_insert_new. Qed.

Lemma total_remove f d id v : get_opt d id = Some v ->
  total f (upd_tbl (fun t : table V => t <| indices ::= delete id |>) d) = total f d - f v.
Proof. intros H. unfold total. rewrite tbl_upd. by apply map_sum_delete. Qed.
End AccessFacts.

(** Rows of a table after it got a new one. *)
Lemma get_next {V} {S : Stored V} d d' (v : V) i : tbl (V:=V) d' = next_object (tbl d) v ->
  get_opt d' i = if decide (i = next_id (tbl (V:=V) d)) then Some v else get_opt d i.
Proof.
  intros E. unfold get_opt. rewrite E. cbn. case_decide as H; [subst; apply lookup_insert_eq|by apply lookup_insert_ne].
Qed.
Lemma get_same {V} {S : Stored V} d d' i : tbl (V:=V) d' = tbl d -> get_opt (V:=V) d' i = get_opt d i.
Proof. intros E. unfold get_opt. by rewrite E. Qed.

(** An index lists the rows of its table, in its order. *)
Section InOrder.
Context {V : Type} `{Stored V} (le : Z * V -> Z * V -> Prop) `{!RelDecision le}.

Lemma in_order_elem d i v : (i, v) ∈ in_order le d <-> get_opt d i = Some v.
Proof. unfold in_order, get_opt. rewrite merge_sort_Permutation. apply elem_of_map_to_list. Qed.

Lemma in_order_length d : length (in_order le d) = size (indices (tbl (V:=V) d)).
Proof. unfold in_order. rewrite merge_sort_Permutation. apply length_map_to_list. Qed.

Lemma in_order_nil d i v : in_order le d = [] -> get_opt d i <> Some v.
Proof. intros E Hi. apply in_order_elem in Hi. rewrite E in Hi. by apply elem_of_nil in Hi. Qed.

Lemma in_order_first d r l : Transitive le -> Total le -> in_order le d = r :: l ->
  get_opt d r.1 = Some r.2 /\ forall i v, get_opt d i = Some v -> (i, v) = r \/ le r (i, v).
Proof.
  intros Ht Hto E. split; [apply in_order_elem; rewrite E; destruct r; apply list_elem_of_here|].
  intros i v Hv. apply in_order_elem in Hv. pose proof (StronglySorted_merge_sort le (map_to_list (indices (tbl d)))) as Hs.
  fold (in_order le d) in Hs. rewrite E in Hs, Hv. apply StronglySorted_cons in Hs as [Hs _].
  apply elem_of_cons in Hv as [Hv|Hv]; [by left|right]. rewrite Forall_forall in Hs. by apply Hs.
Qed.
End InOrder.

Lemma modify_dgpo_Ok f d u d' : modify_dgpo f d = Ok (u, d') <->
  exists p, f (dgpo d) = Ok p /\ d' = d <| dgpo := p |>.
Proof.
  unfold modify_dgpo, mbind, st_bind, get_st, lift, modify_st. destruct u.
  destruct (f (dgpo d)) as [p|] eqn:E.
  - split; [intros [= <-]; eauto|]. by intros (p' & [= ->] & ->).
  - split; [done|]. by intros (p' & ? & _).
Qed.
