(* ===== verification/Sample.v ===== *)
(** * A small chain state

    The state the examples and witnesses of the later files run on: three accounts
    (0 alice, 1 bob, 2 nancy), of which alice is rich, two witnesses, one
    user-issued asset (id 3, issued by alice). *)

From S2P Require Import Prelude.
From S2P Require Import Uint128.
From S2P Require Import Asset.
From S2P Require Import UndoDatabase.
From S2P Require Import Authority.
From S2P Require Import ForkDatabase.
From S2P Require Import State.

Module Sample.

Definition account (name : string) (btcm vests : Z) : Account.t :=
  default_account <| Account.name := name |> <| Account.balance := Asset btcm BTCM_SYMBOL |>
    <| Account.vesting_shares := Asset vests VESTS_SYMBOL |>.

Definition alice : Account.t := account "alice" 1000 500.
Definition bob : Account.t := account "bob" 10 300 <| Account.proxy := "alice" |>.
Definition nancy : Account.t := account "nancy" 0 100.

Definition witness (owner : string) (votes : Z) : Witness.t :=
  default_witness <| Witness.owner := owner |> <| Witness.votes := votes |>.

Definition coin : AssetObject.t :=
  AssetObject.Make 100 "COIN" 6 0 (AssetOptions.Make 1000 0 0 0x4f 0 "").

Definition globals : Dgpo.t :=
  default_dgpo <| Dgpo.head_block_number := 1000 |> <| Dgpo.time := BTCM_GENESIS_TIME |>
    <| Dgpo.current_supply := Asset 2010 BTCM_SYMBOL |> <| Dgpo.virtual_supply := Asset 2010 BTCM_SYMBOL |>
    <| Dgpo.total_vesting_fund_btcm := Asset 1000 BTCM_SYMBOL |>
    <| Dgpo.total_vesting_shares := Asset 900 VESTS_SYMBOL |>.

Definition no_objects {V} : table V := Table 0 empty.

Definition state : database :=
  Database globals default_schedule default_feed_history
    (default_hardforks <| Hardforks.processed_hardforks := [BTCM_GENESIS_TIME] |>)
    (Table 3 (<[0 := alice <| Account.proxied_vsf_votes := [300; 0; 0; 0] |>
                           <| Account.witnesses_voted_for := 1 |>]> (<[1 := bob]> (<[2 := nancy]> empty))))
    (Table 1 (<[0 := Balance.Make 1 3 100]> empty))
    no_objects no_objects no_objects no_objects no_objects
    (Table 2 (<[0 := witness "alice" 800]> (<[1 := witness "nancy" 0]> empty)))
    (Table 1 (<[0 := WitnessVote.Make 0 0]> empty))
    no_objects no_objects no_objects no_objects no_objects no_objects no_objects no_objects no_objects
    no_objects no_objects
    (Table 4 (<[3 := coin]> empty)) no_objects.

(** A content whose master side goes to alice, 55 percent of what it earns. *)
Definition song : Content.t :=
  Content.Make "alice" "bmfs://song" (Asset 0 BTCM_SYMBOL) (Asset 0 BTCM_SYMBOL)
    (AlbumMeta.Make false "" [] 0 None "" 0 "" "" 0 0 0 0 None None "" "")
    (TrackMeta.Make "song" "" [] None None None 0 None "" 0 0 None 0 false)
    (CompMeta.Make "" None None false [] [] "")
    "song" 0 0 0 [Distribution.Make "alice" 10000] [] 4500 0 empty_authority empty_authority 1 1 false 0 true false.

(** The state after a call that returns. *)
Definition after {A} (m : st database A) (d : database) : database :=
  match m d with Ok (_, d') => d' | Throw _ => d end.

Lemma after_run (m : st database unit) d : is_ok (m d) = true -> m d = Ok (tt, after m d).
Proof. unfold after. by destruct (m d) as [[[] d']|]. Qed.

(** A property of every row of a concrete table. *)
Lemma table_all {V} `{Stored V} (P : Z -> V -> Prop) d l : map_to_list (indices (tbl (V:=V) d)) = l ->
  Forall (fun kv => P kv.1 kv.2) l -> forall i v, get_opt d i = Some v -> P i v.
Proof.
  intros <- Hl i v Hi. rewrite Forall_forall in Hl. apply (Hl (i, v)). by apply elem_of_map_to_list.
Qed.

End Sample.

Ltac each_row :=
  eapply Sample.table_all; [vm_compute; reflexivity|repeat (apply Forall_cons_2; [cbn [fst snd]|]); try apply Forall_nil_2].
