(* ===== verification/Balance.v ===== *)
(** * Balances and supplies

    Models the accounting functions of database.cpp: [adjust_balance],
    [adjust_supply], [get_balance], [pay_fee], [create_mbd], the bandwidth
    limits, [get_effective_vesting_shares], and the transfer evaluator of
    base_evaluator.cpp.  Accounts are passed by id, as the references of the code
    are to the objects in the table. *)

From S2P Require Import Prelude.
From S2P Require Import SafeInt.
From S2P Require Import Uint128.
From S2P Require Import Asset.
From S2P Require Import UndoDatabase.
From S2P Require Import State.

Definition BTCM_SECONDS_PER_YEAR : Z := 31536000.
Definition BTCM_SBD_INTEREST_COMPOUND_INTERVAL_SEC : Z := 2592000.
Definition BTCM_BLOCKS_PER_DAY : Z := 28800.
Definition BTCM_START_MINER_VOTING_BLOCK : Z := BTCM_BLOCKS_PER_DAY * 1.
Definition BTCM_BANDWIDTH_PRECISION : Z := 1000000.
Definition BTCM_BANDWIDTH_AVERAGE_WINDOW_SECONDS : Z := 604800.

(** [FC_ASSERT( a <= b )] and the like, on assets. *)
Definition assert_asset {S} (r : result bool) : st S unit := b ← lift r; assert_st b.

Module Balances.
Import AssetOps.
Section Balance.
Context {B : BoostMP}.

(** ** [adjust_balance] *)

(** The update of [mbd_seconds] and, once a month, the interest that is due. *)
Definition accrue (now rate : Z) (acnt : Account.t) : result (Account.t * option asset) :=
  if Account.mbd_seconds_last_update acnt =? now then Ok (acnt, None)
  else
    let elapsed := now - Account.mbd_seconds_last_update acnt in
    let secs := Uint128.add (Account.mbd_seconds acnt)
      (Uint128.mul (Uint128.of_int64 (amount (Account.mbd_balance acnt))) (Uint128.of_int64 elapsed)) in
    let acnt := acnt <| Account.mbd_seconds := secs |> <| Account.mbd_seconds_last_update := now |> in
    if Uint128.gtb secs (Uint128.of_int64 0)
       && (now - Account.mbd_last_interest_payment acnt >? BTCM_SBD_INTEREST_COMPOUND_INTERVAL_SEC)
    then
      interest ← Uint128.div secs (Uint128.of_uint64 BTCM_SECONDS_PER_YEAR);
      interest ← Uint128.div (Uint128.mul interest (Uint128.of_int32 rate)) (Uint128.of_int32 BTCM_100_PERCENT);
      i ← Uint128.to_uint64 interest;
      let interest_paid := Asset (i64 i) XUSD_SYMBOL in
      b ← asset_add (Account.mbd_balance acnt) interest_paid;
      Ok (acnt <| Account.mbd_balance := b |> <| Account.mbd_seconds := Uint128.zero |>
               <| Account.mbd_last_interest_payment := now |>, Some interest_paid)
    else Ok (acnt, None).

(** What interest adds to the supplies. *)
Definition pay_interest (feed : FeedHistory.t) (interest_paid : asset) (props : Dgpo.t) : result Dgpo.t :=
  s ← asset_add (Dgpo.current_mbd_supply props) interest_paid;
  v ← asset_mul interest_paid (FeedHistory.effective_median_history feed);
  v ← asset_add (Dgpo.virtual_supply props) v;
  Ok (props <| Dgpo.current_mbd_supply := s |> <| Dgpo.virtual_supply := v |>).

(** The row of [account_balance_index] of an account and an asset. *)
Definition find_balance (a id : Z) : st database (option (Z * Balance.t)) :=
  find_where (fun b => (Balance.owner b =? a) && (Balance.asset_type b =? id)).

Definition adjust_btcm (delta : asset) (acnt : Account.t) : result Account.t :=
  s ← Safe.add (amount (Account.balance acnt)) (amount delta);
  Ok (acnt <| Account.balance ::= fun b => b <| amount := s |> |>).

Definition adjust_mbd (a : Z) (delta : asset) : st database unit :=
  d ← get_st;
  acnt ← get (V:=Account.t) a;
  r ← lift (accrue (head_block_time d) (Dgpo.mbd_interest_rate (dgpo d)) acnt);
  _ ← match r.2 with
      | Some interest_paid => modify_dgpo (pay_interest (feed_history d) interest_paid)
      | None => mret tt
      end;
  b ← lift (asset_add (Account.mbd_balance r.1) delta);
  modify_pure a (fun _ => r.1 <| Account.mbd_balance := b |>).

(** A user-issued asset: one row per account and asset. *)
Definition adjust_user_asset (a : Z) (delta : asset) : st database unit :=
  if amount delta =? 0 then mret tt
  else
    itr ← find_balance a (asset_id delta);
    match itr with
    | None =>
        _ ← assert_st (amount delta >? 0);
        _ ← create (Balance.Make a (asset_id delta) (amount delta));
        mret tt
    | Some (i, b) =>
        _ ← (if amount delta <? 0 then
               n ← lift (asset_neg delta);
               assert_asset (asset_geb (Asset (Balance.balance b) (Balance.asset_type b)) n)
             else mret tt);
        modify i (fun b => s ← Safe.add (Balance.balance b) (amount delta); Ok (b <| Balance.balance := s |>))
    end.

Definition adjust_balance (a : Z) (delta : asset) : st database unit :=
  if asset_id delta =? BTCM_SYMBOL then modify a (adjust_btcm delta)
  else if asset_id delta =? XUSD_SYMBOL then adjust_mbd a delta
  else adjust_user_asset a delta.

(** ** [adjust_supply] *)

Definition adjust_supply_btcm (delta : asset) (adjust_vesting : bool) (props : Dgpo.t) : result Dgpo.t :=
  n ← (if adjust_vesting && (amount delta >? 0) then Safe.mul (amount delta) 9 else Ok 0);
  let new_vesting := Asset n BTCM_SYMBOL in
  s ← asset_add delta new_vesting;
  c ← asset_add (Dgpo.current_supply props) s;
  s ← asset_add delta new_vesting;
  v ← asset_add (Dgpo.virtual_supply props) s;
  f ← asset_add (Dgpo.total_vesting_fund_btcm props) new_vesting;
  Ok (props <| Dgpo.current_supply := c |> <| Dgpo.virtual_supply := v |> <| Dgpo.total_vesting_fund_btcm := f |>).

Definition adjust_supply_mbd (feed : FeedHistory.t) (delta : asset) (props : Dgpo.t) : result Dgpo.t :=
  c ← asset_add (Dgpo.current_mbd_supply props) delta;
  v ← asset_mul c (FeedHistory.effective_median_history feed);
  v ← asset_add v (Dgpo.current_supply props);
  Ok (props <| Dgpo.current_mbd_supply := c |> <| Dgpo.virtual_supply := v |>).

Definition adjust_supply (delta : asset) (adjust_vesting : bool) : st database unit :=
  d ← get_st;
  let adjust_vesting := if head_block_num d <? BTCM_BLOCKS_PER_DAY * 7 then false else adjust_vesting in
  if asset_id delta =? BTCM_SYMBOL then modify_dgpo (adjust_supply_btcm delta adjust_vesting)
  else if asset_id delta =? XUSD_SYMBOL then modify_dgpo (adjust_supply_mbd (feed_history d) delta)
  else throw assert_exception.

(** ** [get_balance], [pay_fee], [create_mbd] *)

Definition get_balance (a symbol : Z) : st database asset :=
  acnt ← get (V:=Account.t) a;
  if symbol =? BTCM_SYMBOL then mret (Account.balance acnt)
  else if symbol =? XUSD_SYMBOL then mret (Account.mbd_balance acnt)
  else
    itr ← find_balance a symbol;
    mret match itr with
         | None => Asset 0 symbol
         | Some (_, b) => Asset (Balance.balance b) (Balance.asset_type b)
         end.

Definition pay_fee (a : Z) (fee : asset) : st database unit :=
  _ ← assert_st (amount fee >=? 0);
  if amount fee =? 0 then mret tt
  else
    n ← lift (asset_neg fee); _ ← adjust_balance a n;
    n ← lift (asset_neg fee); adjust_supply n false.

Definition create_mbd (to_account : Z) (btcm : asset) : st database asset :=
  if amount btcm =? 0 then mret (Asset 0 XUSD_SYMBOL)
  else
    d ← get_st;
    let median_price := FeedHistory.actual_median_history (feed_history d) in
    if negb (is_null median_price) then
      mbd ← lift (asset_mul btcm median_price);
      _ ← adjust_balance to_account mbd;
      n ← lift (asset_neg btcm);
      _ ← adjust_supply n false;
      _ ← adjust_supply mbd false;
      mret mbd
    else
      _ ← adjust_balance to_account btcm;
      mret btcm.

(** ** Bandwidth *)

Definition get_effective_vesting_shares (account : Account.t) (vested_symbol : Z) : result asset :=
  if vested_symbol =? VESTS_SYMBOL then
    s ← asset_sub (Account.vesting_shares account) (Account.delegated_vesting_shares account);
    s ← asset_add s (Account.received_vesting_shares account);
    s ← asset_sub s (Account.redelegated_vesting_shares account);
    asset_add s (Account.rereceived_vesting_shares account)
  else Throw assert_exception.

Definition bandwidth_ok (vshares : u128) (average max_virtual total_vesting : Z) : bool :=
  Uint128.gtb (Uint128.mul vshares (Uint128.of_uint64 max_virtual))
    (Uint128.mul (Uint128.of_uint64 average) (Uint128.of_int64 total_vesting)).

Definition average_bandwidth_after (now n : Z) (acnt : Account.t) : Z :=
  let delta_time := now - Account.last_bandwidth_update acnt in
  if delta_time >=? BTCM_BANDWIDTH_AVERAGE_WINDOW_SECONDS then n
  else
    let old_weight := Account.average_bandwidth acnt in
    let old_weight := if delta_time >? 0 then
        u64 (old_weight * (BTCM_BANDWIDTH_AVERAGE_WINDOW_SECONDS - delta_time)) / BTCM_BANDWIDTH_AVERAGE_WINDOW_SECONDS
      else old_weight in
    u64 (old_weight + n).

Definition update_account_bandwidth (a trx_size : Z) : st database unit :=
  d ← get_st;
  let props := dgpo d in
  if amount (Dgpo.total_vesting_shares props) >? 0 then
    let now := head_block_time d in
    modify a (fun acnt =>
      let n := u64 (trx_size * BTCM_BANDWIDTH_PRECISION) in
      let acnt := acnt <| Account.lifetime_bandwidth ::= fun x => u64 (x + n) |> in
      let acnt := acnt <| Account.average_bandwidth := average_bandwidth_after now n acnt |> in
      e ← get_effective_vesting_shares acnt VESTS_SYMBOL;
      let account_vshares := Uint128.of_int64 (amount e) in
      let account_vshares := if Uint128.eqb account_vshares (Uint128.of_int32 0) then Uint128.of_int32 1
                             else account_vshares in
      _ ← fc_assert (bandwidth_ok account_vshares (Account.average_bandwidth acnt)
            (Dgpo.max_virtual_bandwidth props) (amount (Dgpo.total_vesting_shares props)));
      Ok (acnt <| Account.last_bandwidth_update := now |>))
  else mret tt.

Definition average_market_bandwidth_after (now n : Z) (acnt : Account.t) : Z :=
  let delta_time := now - Account.last_market_bandwidth_update acnt in
  if delta_time >=? BTCM_BANDWIDTH_AVERAGE_WINDOW_SECONDS then n
  else
    let old_weight := u64 (Account.average_market_bandwidth acnt * (BTCM_BANDWIDTH_AVERAGE_WINDOW_SECONDS - delta_time)) in
    let new_weight := u64 (delta_time * n) in
    u64 (old_weight + new_weight) / BTCM_BANDWIDTH_AVERAGE_WINDOW_SECONDS.

Definition update_account_market_bandwidth (a trx_size : Z) : st database unit :=
  d ← get_st;
  let props := dgpo d in
  if amount (Dgpo.total_vesting_shares props) >? 0 then
    let now := head_block_time d in
    modify a (fun acnt =>
      let n := u64 (trx_size * BTCM_BANDWIDTH_PRECISION) in
      let acnt := acnt <| Account.average_market_bandwidth := average_market_bandwidth_after now n acnt |> in
      e ← get_effective_vesting_shares acnt VESTS_SYMBOL;
      let account_vshares := Uint128.of_int64 (amount e) in
      _ ← fc_assert (Uint128.gtb account_vshares (Uint128.of_int64 0));
      _ ← fc_assert (bandwidth_ok account_vshares (Account.average_market_bandwidth acnt)
            (Dgpo.max_virtual_bandwidth props / 10) (amount (Dgpo.total_vesting_shares props)));
      Ok (acnt <| Account.last_market_bandwidth_update := now |>))
  else mret tt.

(** ** [transfer_evaluator] *)

Record transfer_operation := Transfer { from : string; to : string; amt : asset; memo : string }.

Definition transfer_apply (o : transfer_operation) : st database unit :=
  from_account ← get_account (from o);
  to_account ← get_account (to o);
  _ ← (if Account.active_challenged from_account.2 then
         d ← get_st;
         modify_pure from_account.1 (fun a =>
           a <| Account.active_challenged := false |> <| Account.last_active_proved := head_block_time d |>)
       else mret tt);
  if negb (asset_id (amt o) =? VESTS_SYMBOL) then
    b ← get_balance from_account.1 (asset_id (amt o));
    _ ← assert_asset (asset_geb b (amt o));
    n ← lift (asset_neg (amt o));
    _ ← adjust_balance from_account.1 n;
    adjust_balance to_account.1 (amt o)
  else throw assert_exception.

End Balance.
End Balances.
