(* ===== verification/BalanceFacts.v ===== *)
(** * Accounting facts

    For every asset, the gap between the recorded supply and everything that is
    held: [adjust_balance] and [adjust_supply] move it by exactly their delta, and
    a transfer leaves it alone. *)

From S2P Require Import Prelude.
From S2P Require Import SafeInt.
From S2P Require Import Uint128.
From S2P Require Import Asset.
From S2P Require Import UndoDatabase.
From S2P Require Import State.
From S2P Require Import Sample.
From S2P Require Import Balance.

(** ** Assets *)

Module AssetLemmas.
Import AssetOps.

Lemma asset_add_Ok a b c : asset_add a b = Ok c ->
  asset_id a = asset_id b /\ c = Asset (amount a + amount b) (asset_id a).
Proof.
  unfold asset_add. intros H. run_inv. split; [lia|].
  match goal with H : Safe.add _ _ = Ok _ |- _ => apply Safe.add_Ok in H as -> end. done.
Qed.

Lemma asset_sub_Ok a b c : asset_sub a b = Ok c ->
  asset_id a = asset_id b /\ c = Asset (amount a - amount b) (asset_id a).
Proof.
  unfold asset_sub. intros H. run_inv. split; [lia|].
  match goal with H : Safe.sub _ _ = Ok _ |- _ => apply Safe.sub_Ok in H as -> end. done.
Qed.

Lemma asset_neg_Ok a c : asset_neg a = Ok c -> c = Asset (- amount a) (asset_id a).
Proof.
  unfold asset_neg. intros H. run_inv.
  match goal with H : Safe.neg _ = Ok _ |- _ => apply Safe.neg_Ok in H as -> end. done.
Qed.

Lemma asset_geb_Ok a b r : asset_geb a b = Ok r ->
  asset_id a = asset_id b /\ (r = true <-> amount b <= amount a).
Proof.
  unfold asset_geb, asset_ltb. destruct (fc_assert _) eqn:E; [|done]. apply fc_assert_Ok in E.
  intros [= <-]. lia.
Qed.

Lemma assert_asset_Ok {S} r (s : S) u s' : assert_asset r s = Ok (u, s') -> r = Ok true /\ s' = s.
Proof. unfold assert_asset. intros H. run_inv. done. Qed.
End AssetLemmas.

(** Taking apart a run that goes through assets. *)
Ltac asset_inv :=
  repeat match goal with
  | H : AssetOps.asset_add _ _ = Ok _ |- _ => apply AssetLemmas.asset_add_Ok in H as [? ?]; subst
  | H : AssetOps.asset_sub _ _ = Ok _ |- _ => apply AssetLemmas.asset_sub_Ok in H as [? ?]; subst
  | H : AssetOps.asset_neg _ = Ok _ |- _ => apply AssetLemmas.asset_neg_Ok in H; subst
  | H : Safe.add _ _ = Ok _ |- _ => apply Safe.add_Ok in H; subst
  | H : Safe.sub _ _ = Ok _ |- _ => apply Safe.sub_Ok in H; subst
  | H : Safe.mul _ _ = Ok _ |- _ => apply Safe.mul_Ok in H; subst
  | H : Safe.neg _ = Ok _ |- _ => apply Safe.neg_Ok in H; subst
  end; cbn [amount asset_id] in *.

(** Taking apart a run on the chain state. *)
Ltac state_step :=
  match goal with
  | H : (_ ≫= _) _ = Ok _ |- _ => apply st_bind_Ok in H as (? & ? & ? & H)
  | H : (_ ≫= _) = Ok _ |- _ => apply bind_Ok in H as (? & ? & H)
  | H : get_st _ = Ok _ |- _ => injection H as <- <-
  | H : get _ _ = Ok _ |- _ => apply get_Ok in H as [? ->]
  | H : get_where _ _ = Ok _ |- _ => apply get_where_Ok in H as [? ->]
  | H : find_where _ _ = Ok _ |- _ => apply find_where_Ok in H as [? ->]
  | H : modify_dgpo _ _ = Ok _ |- _ => apply modify_dgpo_Ok in H as (? & ? & ->)
  | H : modify_pure _ _ _ = Ok _ |- _ => unfold modify_pure in H
  | H : modify _ _ _ = Ok _ |- _ => apply modify_Ok in H as (? & ? & ? & ? & ->)
  | H : create _ _ = Ok _ |- _ => apply create_Ok in H as (? & ? & ->)
  | H : remove _ _ = Ok _ |- _ => apply remove_Ok in H as ->
  | H : assert_asset _ _ = Ok _ |- _ => apply AssetLemmas.assert_asset_Ok in H as [? ->]
  | H : assert_st _ _ = Ok _ |- _ => apply assert_st_Ok in H as [? ->]
  | H : lift _ _ = Ok _ |- _ => apply lift_Ok in H as [? ->]
  | H : gets _ _ = Ok _ |- _ => apply gets_Ok in H as [? ->]
  | H : modify_st _ _ = Ok _ |- _ => apply modify_st_Ok in H as ->
  | H : mret _ _ = Ok _ |- _ => apply st_ret_Ok in H as [? ->]
  | H : fc_assert _ = Ok _ |- _ => apply fc_assert_Ok in H
  | H : throw _ _ = Ok _ |- _ => discriminate H
  | H : Throw _ = Ok _ |- _ => discriminate H
  | H : Ok _ = Ok _ |- _ => injection H; clear H; intros; subst
  end.
Ltac state_inv := repeat state_step; subst.

(** A lookup by name does not change the state. *)
Lemma get_account_Ok name d kv d' : get_account name d = Ok (kv, d') <->
  lookup_where (fun a => String.eqb (Account.name a) name) d = Some kv /\ d' = d.
Proof. apply get_where_Ok. Qed.

(** One statement at a time: [step H as p E] takes the first statement of the run
    [H] apart, [p] naming its value and [E] what is known of it. *)
Ltac settle E :=
  lazymatch type of E with
  | get_st _ = Ok _ => injection E as <- <-
  | gets _ _ = Ok _ => apply gets_Ok in E as [-> ->]
  | get _ _ = Ok _ => apply get_Ok in E as [E ->]
  | get_where _ _ = Ok _ => apply get_where_Ok in E as [E ->]
  | get_account _ _ = Ok _ => apply get_account_Ok in E as [E ->]
  | find_where _ _ = Ok _ => apply find_where_Ok in E as [-> ->]
  | assert_st _ _ = Ok _ => apply assert_st_Ok in E as [E ->]
  | assert_asset _ _ = Ok _ => apply AssetLemmas.assert_asset_Ok in E as [E ->]
  | lift _ _ = Ok _ => apply lift_Ok in E as [E ->]
  | mret _ _ = Ok _ => apply st_ret_Ok in E as [-> ->]
  | _ => idtac
  end.
Tactic Notation "step" ident(H) "as" simple_intropattern(p) ident(E) :=
  apply st_bind_Ok in H as (p & ? & E & H); settle E.
Tactic Notation "step" ident(H) := let E := fresh "E" in step H as ? E.

(** ** What is held *)

Module Supply.

Definition of_asset (id : Z) (a : asset) : Z := if asset_id a =? id then amount a else 0.
Definition order_holds (id : Z) (o : LimitOrder.t) : Z :=
  if asset_id (base (LimitOrder.sell_price o)) =? id then LimitOrder.for_sale o else 0.

(** What [validate_invariants] adds up for BTCM and XUSD. *)
Definition held_btcm (d : database) : Z :=
  total (fun a => amount (Account.balance a)) d
  + total (fun c => of_asset BTCM_SYMBOL (ConvertRequest.amount c)) d
  + total (order_holds BTCM_SYMBOL) d
  + total (fun b => amount (ClaimBalance.balance b)) d
  + total (fun c => amount (Content.accumulated_balance_master c) + amount (Content.accumulated_balance_comp c)) d
  + amount (Dgpo.total_vesting_fund_btcm (dgpo d)).
Definition held_mbd (d : database) : Z :=
  total (fun a => amount (Account.mbd_balance a)) d
  + total (fun c => of_asset XUSD_SYMBOL (ConvertRequest.amount c)) d
  + total (order_holds XUSD_SYMBOL) d.
Definition held_vests (d : database) : Z := total (fun a => amount (Account.vesting_shares a)) d.

(** A user-issued asset is held in balances and in orders. *)
Definition held_user (id : Z) (d : database) : Z :=
  total (fun b => if Balance.asset_type b =? id then Balance.balance b else 0) d
  + total (order_holds id) d.
Definition user_supply (id : Z) (d : database) : Z :=
  from_option AssetObject.current_supply 0 (get_opt d id).

(** Recorded supply minus what is held. *)
Definition gap (id : Z) (d : database) : Z :=
  if id =? BTCM_SYMBOL then amount (Dgpo.current_supply (dgpo d)) - held_btcm d
  else if id =? XUSD_SYMBOL then amount (Dgpo.current_mbd_supply (dgpo d)) - held_mbd d
  else if id =? VESTS_SYMBOL then amount (Dgpo.total_vesting_shares (dgpo d)) - held_vests d
  else user_supply id d - held_user id d.

(** What an asset counts for in the gap of [id].  VESTS are not kept in balances:
    a row for them would not count. *)
Definition counts (id : Z) (a : asset) : Z :=
  if (id =? asset_id a) && negb (id =? VESTS_SYMBOL) then amount a else 0.

(** The next id of a table is free. *)
Definition fresh (V : Type) `{Stored V} (d : database) : Prop := get_opt (V:=V) d (next_id (tbl (V:=V) d)) = None.

Lemma gap_set_account d a acnt acnt' id : get_opt d a = Some acnt ->
  gap id (set_obj d a acnt') = gap id d
    + (if id =? BTCM_SYMBOL then amount (Account.balance acnt) - amount (Account.balance acnt')
       else if id =? XUSD_SYMBOL then amount (Account.mbd_balance acnt) - amount (Account.mbd_balance acnt')
       else if id =? VESTS_SYMBOL then amount (Account.vesting_shares acnt) - amount (Account.vesting_shares acnt')
       else 0).
Proof.
  intros H. unfold gap, held_btcm, held_mbd, held_vests.
  rewrite !(total_set_obj (V:=Account.t) _ d a acnt acnt' H).
  change (dgpo (set_obj d a acnt')) with (dgpo d).
  change (user_supply id (set_obj d a acnt')) with (user_supply id d).
  change (held_user id (set_obj d a acnt')) with (held_user id d).
  change (total (V:=ConvertRequest.t) ?f (set_obj d a acnt')) with (total (V:=ConvertRequest.t) f d).
  change (total (V:=LimitOrder.t) ?f (set_obj d a acnt')) with (total (V:=LimitOrder.t) f d).
  change (total (V:=ClaimBalance.t) ?f (set_obj d a acnt')) with (total (V:=ClaimBalance.t) f d).
  change (total (V:=Content.t) ?f (set_obj d a acnt')) with (total (V:=Content.t) f d).
  repeat match goal with |- context [if ?b then _ else _] => destruct b end; lia.
Qed.

Lemma gap_set_dgpo d p id :
  gap id (d <| dgpo := p |>) = gap id d
    + (if id =? BTCM_SYMBOL then
         amount (Dgpo.current_supply p) - amount (Dgpo.current_supply (dgpo d))
         - (amount (Dgpo.total_vesting_fund_btcm p) - amount (Dgpo.total_vesting_fund_btcm (dgpo d)))
       else if id =? XUSD_SYMBOL then amount (Dgpo.current_mbd_supply p) - amount (Dgpo.current_mbd_supply (dgpo d))
       else if id =? VESTS_SYMBOL then amount (Dgpo.total_vesting_shares p) - amount (Dgpo.total_vesting_shares (dgpo d))
       else 0).
Proof.
  unfold gap, held_btcm. change (dgpo (d <| dgpo := p |>)) with p.
  change (user_supply id (d <| dgpo := p |>)) with (user_supply id d).
  change (held_user id (d <| dgpo := p |>)) with (held_user id d).
  change (held_mbd (d <| dgpo := p |>)) with (held_mbd d).
  change (held_vests (d <| dgpo := p |>)) with (held_vests d).
  change (total (V:=Account.t) ?f (d <| dgpo := p |>)) with (total (V:=Account.t) f d).
  change (total (V:=ConvertRequest.t) ?f (d <| dgpo := p |>)) with (total (V:=ConvertRequest.t) f d).
  change (total (V:=LimitOrder.t) ?f (d <| dgpo := p |>)) with (total (V:=LimitOrder.t) f d).
  change (total (V:=ClaimBalance.t) ?f (d <| dgpo := p |>)) with (total (V:=ClaimBalance.t) f d).
  change (total (V:=Content.t) ?f (d <| dgpo := p |>)) with (total (V:=Content.t) f d).
  repeat match goal with |- context [if ?b then _ else _] => destruct b end; lia.
Qed.

(** A row of [account_balance_index] only counts for its asset. *)
Lemma gap_user_only d d' id f :
  tbl (V:=LimitOrder.t) d' = tbl d -> tbl (V:=AssetObject.t) d' = tbl d -> tbl (V:=Account.t) d' = tbl d ->
  tbl (V:=ConvertRequest.t) d' = tbl d -> tbl (V:=ClaimBalance.t) d' = tbl d -> tbl (V:=Content.t) d' = tbl d ->
  dgpo d' = dgpo d ->
  (forall i, total (fun b => if Balance.asset_type b =? i then Balance.balance b else 0) d'
     = total (fun b => if Balance.asset_type b =? i then Balance.balance b else 0) d + f i) ->
  gap id d' = gap id d - (if (id =? BTCM_SYMBOL) || (id =? XUSD_SYMBOL) || (id =? VESTS_SYMBOL) then 0 else f id).
Proof.
  intros E1 E2 E3 E4 E5 E6 E7 Hf.
  unfold gap, held_btcm, held_mbd, held_vests, held_user, user_supply, get_opt. rewrite Hf.
  unfold total. rewrite E1, E2, E3, E4, E5, E6, E7.
  destruct (id =? BTCM_SYMBOL), (id =? XUSD_SYMBOL), (id =? VESTS_SYMBOL); cbn [orb]; lia.
Qed.

Section Moves.
Context {B : BoostMP}.
Import Balances.

(** ** What the accounting functions leave alone *)

(** A view of the state that accounts, balances and global properties are no part of. *)
Record money_frame {A} (f : database -> A) : Prop := {
  frame_accounts d t : f (d <| accounts := t |>) = f d;
  frame_balances d t : f (d <| account_balances := t |>) = f d;
  frame_dgpo d p : f (d <| dgpo := p |>) = f d
}.

Lemma frame_set_account {A} (f : database -> A) d a acnt : money_frame f -> f (set_obj (V:=Account.t) d a acnt) = f d.
Proof. intros Hf. apply (frame_accounts f Hf). Qed.

Lemma adjust_balance_frame {A} (f : database -> A) a delta d u d' :
  money_frame f -> adjust_balance a delta d = Ok (u, d') -> f d' = f d.
Proof.
  intros Hf H. unfold adjust_balance in H.
  destruct (_ =? BTCM_SYMBOL); [state_inv; by apply frame_set_account|]. destruct (_ =? XUSD_SYMBOL).
  - unfold adjust_mbd in H. apply st_bind_Ok in H as (? & ? & [= <- <-] & H).
    apply st_bind_Ok in H as (acnt & ? & Hg & H). apply get_Ok in Hg as [_ ->].
    apply st_bind_Ok in H as ([acnt' paid] & ? & Ha & H). apply lift_Ok in Ha as [_ ->].
    apply st_bind_Ok in H as (? & d1 & H1 & H). assert (f d1 = f d) as <-.
    { destruct paid; cbn in H1; state_inv; [by apply (frame_dgpo f Hf)|done]. }
    state_inv. by apply frame_set_account.
  - unfold adjust_user_asset in H. destruct (_ =? 0); [by state_inv|].
    unfold find_balance in H. do 2 state_step. subst. destruct (lookup_where _ d) as [[i b]|].
    + apply st_bind_Ok in H as (? & d1 & H1 & H).
      assert (d1 = d) as -> by (destruct (amount delta <? 0); by state_inv). state_inv. apply (frame_balances f Hf).
    + state_inv. apply (frame_balances f Hf).
Qed.

Lemma adjust_supply_frame {A} (f : database -> A) delta v d u d' :
  money_frame f -> adjust_supply delta v d = Ok (u, d') -> f d' = f d.
Proof.
  intros Hf H. unfold adjust_supply in H. do 2 state_step.
  destruct (_ =? _); [state_inv; apply (frame_dgpo f Hf)|]. destruct (_ =? _); [|discriminate].
  state_inv. apply (frame_dgpo f Hf).
Qed.

Lemma pay_fee_frame {A} (f : database -> A) a fee d u d' :
  money_frame f -> pay_fee a fee d = Ok (u, d') -> f d' = f d.
Proof.
  intros Hf H. unfold pay_fee in H. do 2 state_step. destruct (_ =? 0); [by state_inv|].
  apply st_bind_Ok in H as (? & ? & Hn & H). apply lift_Ok in Hn as [_ ->].
  apply st_bind_Ok in H as (? & d1 & H1 & H). apply (adjust_balance_frame f) in H1 as <-; [|done].
  apply st_bind_Ok in H as (? & ? & H2 & H). apply lift_Ok in H2 as [_ ->].
  by apply (adjust_supply_frame f) in H.
Qed.

Lemma create_mbd_frame {A} (f : database -> A) a btcm d r d' :
  money_frame f -> create_mbd a btcm d = Ok (r, d') -> f d' = f d.
Proof.
  intros Hf H. unfold create_mbd in H. destruct (_ =? 0); [by state_inv|].
  apply st_bind_Ok in H as (? & ? & [= <- <-] & H). destruct (negb _).
  - apply st_bind_Ok in H as (? & ? & H0 & H). apply lift_Ok in H0 as [_ ->].
    apply st_bind_Ok in H as (? & d1 & H1 & H). apply (adjust_balance_frame f) in H1 as <-; [|done].
    apply st_bind_Ok in H as (? & ? & H2 & H). apply lift_Ok in H2 as [_ ->].
    apply st_bind_Ok in H as (? & d2 & H3 & H). apply (adjust_supply_frame f) in H3 as <-; [|done].
    apply st_bind_Ok in H as (? & d3 & H4 & H). apply (adjust_supply_frame f) in H4 as <-; [|done]. by state_inv.
  - apply st_bind_Ok in H as (? & d1 & H1 & H). apply (adjust_balance_frame f) in H1 as <-; [|done]. by state_inv.
Qed.

(** ** Gaps *)

(** Moving the balance of one account moves the gap the other way. *)
Lemma gap_adjust_btcm a delta d u d' id :
  modify a (adjust_btcm delta) d = Ok (u, d') ->
  gap id d' = gap id d - (if id =? BTCM_SYMBOL then amount delta else 0).
Proof.
  intros H. state_inv. unfold adjust_btcm in *. state_inv. asset_inv.
  rewrite (gap_set_account _ _ x) by done. cbn.
  destruct (id =? BTCM_SYMBOL); [lia|]. repeat case_match; lia.
Qed.

Lemma accrue_balance now rate acnt acnt' paid : accrue now rate acnt = Ok (acnt', paid) ->
  Account.balance acnt' = Account.balance acnt /\ Account.vesting_shares acnt' = Account.vesting_shares acnt /\
  amount (Account.mbd_balance acnt') = amount (Account.mbd_balance acnt) + from_option amount 0 paid.
Proof.
  unfold accrue. destruct (_ =? _); [intros [= <- <-]; cbn; split_and!; lia || done|].
  destruct (_ && _); [|intros [= <- <-]; cbn; split_and!; lia || done].
  intros H. state_inv. asset_inv. done.
Qed.

Lemma gap_adjust_mbd a delta d u d' id : adjust_mbd a delta d = Ok (u, d') ->
  gap id d' = gap id d - (if id =? XUSD_SYMBOL then amount delta else 0).
Proof.
  intros H. unfold adjust_mbd in H. apply st_bind_Ok in H as (d0 & ? & [= <- <-] & H).
  apply st_bind_Ok in H as (acnt & ? & H0 & H). apply get_Ok in H0 as [Ha ->].
  apply st_bind_Ok in H as ([acnt' paid] & ? & H0 & H). apply lift_Ok in H0 as [H0 ->].
  apply accrue_balance in H0 as (E1 & E2 & E3). apply st_bind_Ok in H as (? & d1 & H1 & H). cbn [fst snd] in *.
  assert (get_opt (V:=Account.t) d1 a = Some acnt /\
    gap id d1 = gap id d + (if id =? XUSD_SYMBOL then from_option amount 0 paid else 0)) as [Ha1 Eg].
  { destruct paid as [interest_paid|]; [|state_inv; split; [done|cbn; destruct (_ =? _); lia]].
    unfold pay_interest in H1. state_inv. asset_inv. split; [done|].
    rewrite gap_set_dgpo. cbn. destruct (Z.eqb_spec id BTCM_SYMBOL) as [->|]; [cbn; lia|].
    destruct (Z.eqb_spec id XUSD_SYMBOL); [lia|]. destruct (id =? VESTS_SYMBOL); lia. }
  apply st_bind_Ok in H as (b & ? & H0 & H). apply lift_Ok in H0 as [[? ->]%AssetLemmas.asset_add_Ok ->].
  state_inv. rewrite (gap_set_account _ _ acnt), Eg by done.
  set (p := from_option amount 0 paid) in *. cbn. rewrite E1, E2, E3.
  destruct (Z.eqb_spec id BTCM_SYMBOL) as [->|]; [cbn; lia|].
  destruct (Z.eqb_spec id XUSD_SYMBOL); [lia|]. destruct (id =? VESTS_SYMBOL); lia.
Qed.

Lemma gap_adjust_user a delta d u d' id : fresh Balance.t d ->
  asset_id delta <> BTCM_SYMBOL -> asset_id delta <> XUSD_SYMBOL ->
  adjust_user_asset a delta d = Ok (u, d') -> gap id d' = gap id d - counts id delta.
Proof.
  intros Hfresh N0 N1 H. unfold adjust_user_asset in H.
  assert (Hfin : forall d', gap id d' = gap id d - (if (id =? BTCM_SYMBOL) || (id =? XUSD_SYMBOL) || (id =? VESTS_SYMBOL)
      then 0 else if asset_id delta =? id then amount delta else 0) ->
    gap id d' = gap id d - counts id delta).
  { intros d'' ->. unfold counts. rewrite (Z.eqb_sym (asset_id delta)).
    destruct (Z.eqb_spec id (asset_id delta)) as [->|]; [|by destruct (_ || _)].
    apply Z.eqb_neq in N0 as ->, N1 as ->. by destruct (_ =? VESTS_SYMBOL). }
  destruct (Z.eqb_spec (amount delta) 0).
  { state_inv. unfold counts. rewrite e. destruct (_ && _); lia. }
  unfold find_balance in H. do 2 state_step. subst.
  destruct (lookup_where _ d) as [[i b]|] eqn:El.
  - apply lookup_where_Some in El as [Eb Ek]. apply andb_true_iff in Ek as [_ Ek].
    apply Hfin. state_step. state_step.
    assert (x0 = d) as -> by (destruct (amount delta <? 0); state_inv; done). clear H0.
    state_inv. asset_inv. rewrite Eb in H. injection H as <-.
    apply (gap_user_only _ _ _ (fun i => if asset_id delta =? i then amount delta else 0)); try done.
    intros j. rewrite (total_set_obj _ _ _ b) by done. cbn. apply Z.eqb_eq in Ek. rewrite Ek.
    destruct (_ =? j); lia.
  - apply Hfin. state_inv. apply (gap_user_only _ _ _ (fun i => if asset_id delta =? i then amount delta else 0)); try done.
    intros j. rewrite total_create by done. cbn. destruct (_ =? j); lia.
Qed.

(** [adjust_balance] moves the gap of the asset by its delta, interest included. *)
Lemma gap_adjust a delta d u d' id : fresh Balance.t d -> adjust_balance a delta d = Ok (u, d') ->
  gap id d' = gap id d - counts id delta.
Proof.
  intros Hf H. unfold adjust_balance in H.
  destruct (Z.eqb_spec (asset_id delta) BTCM_SYMBOL) as [E|].
  { rewrite (gap_adjust_btcm a delta d u d' id H). unfold counts. rewrite E.
    by destruct (Z.eqb_spec id BTCM_SYMBOL) as [->|]. }
  destruct (Z.eqb_spec (asset_id delta) XUSD_SYMBOL) as [E|]; [|by apply (gap_adjust_user a delta d u)].
  rewrite (gap_adjust_mbd a delta d u d' id H). unfold counts. rewrite E.
  by destruct (Z.eqb_spec id XUSD_SYMBOL) as [->|].
Qed.

Lemma gap_adjust_balance a delta d u d' id : fresh Balance.t d -> asset_id delta <> VESTS_SYMBOL ->
  adjust_balance a delta d = Ok (u, d') ->
  gap id d' = gap id d - (if id =? asset_id delta then amount delta else 0).
Proof.
  intros Hf Hv H. rewrite (gap_adjust a delta d u d' id Hf H). unfold counts.
  destruct (Z.eqb_spec id (asset_id delta)) as [->|]; [|done]. by apply Z.eqb_neq in Hv as ->.
Qed.

(** [adjust_supply] moves it the other way; what it adds to the vesting fund is held. *)
Lemma gap_adjust_supply delta v d u d' id : adjust_supply delta v d = Ok (u, d') ->
  gap id d' = gap id d + (if id =? asset_id delta then amount delta else 0).
Proof.
  intros H. unfold adjust_supply in H. state_step. state_step.
  destruct (Z.eqb_spec (asset_id delta) BTCM_SYMBOL) as [E|].
  - unfold adjust_supply_btcm in H. state_inv. asset_inv. rewrite gap_set_dgpo, E. cbn.
    destruct (Z.eqb_spec id BTCM_SYMBOL); [lia|]. destruct (id =? XUSD_SYMBOL); [lia|]. destruct (_ =? _); lia.
  - destruct (Z.eqb_spec (asset_id delta) XUSD_SYMBOL) as [E|]; [|discriminate].
    unfold adjust_supply_mbd in H. state_inv. asset_inv. rewrite gap_set_dgpo, E. cbn.
    destruct (Z.eqb_spec id BTCM_SYMBOL) as [->|]; [cbn; lia|].
    destruct (Z.eqb_spec id XUSD_SYMBOL); [lia|]. destruct (_ =? _); lia.
Qed.

Lemma fresh_set_account d a acnt : fresh Balance.t (set_obj (V:=Account.t) d a acnt) <-> fresh Balance.t d.
Proof. done. Qed.

Lemma fresh_set_dgpo d p : fresh Balance.t (d <| dgpo := p |>) <-> fresh Balance.t d.
Proof. done. Qed.

(** Ids of a table are below the next one. *)
Definition ids_below (V : Type) `{Stored V} (d : database) : Prop :=
  forall i, is_Some (get_opt (V:=V) d i) -> i < next_id (tbl (V:=V) d).

Lemma ids_below_check {V} `{Stored V} d :
  forallb (fun kv => kv.1 <? next_id (tbl (V:=V) d)) (map_to_list (indices (tbl (V:=V) d))) = true -> ids_below V d.
Proof.
  intros Hc i [v Hv]. rewrite forallb_forall in Hc. apply Z.ltb_lt, (Hc (i, v)).
  by apply list_elem_of_In, elem_of_map_to_list.
Qed.

Lemma ids_below_fresh {V} `{Stored V} d : ids_below V d -> fresh V d.
Proof.
  intros Hb. unfold fresh. destruct (get_opt d _) as [v|] eqn:E; [|done].
  specialize (Hb _ (mk_is_Some _ _ E)). lia.
Qed.

Lemma ids_below_create {V} {S : Stored V} {S_ok : StoredOk V} d v :
  ids_below V d -> ids_below V (upd_tbl (fun t => next_object t v) d).
Proof.
  intros Hb i. unfold get_opt. rewrite tbl_upd. cbn. intros [w [[<- _]|[_ Hw]]%lookup_insert_Some]; [lia|].
  specialize (Hb i (mk_is_Some _ _ Hw)). lia.
Qed.

Lemma ids_below_remove {V} {S : Stored V} {S_ok : StoredOk V} d i :
  ids_below V d -> ids_below V (upd_tbl (fun t : table V => t <| indices ::= delete i |>) d).
Proof.
  intros Hb j. unfold get_opt. rewrite tbl_upd. cbn. intros [w [_ Hw]%lookup_delete_Some]. by apply Hb, (mk_is_Some _ _ Hw).
Qed.

Lemma ids_below_set {V} {S : Stored V} {S_ok : StoredOk V} d j v :
  is_Some (get_opt (V:=V) d j) -> ids_below V d -> ids_below V (set_obj d j v).
Proof.
  intros Hj Hb i. rewrite get_set_obj. unfold set_obj. rewrite tbl_upd. cbn.
  destruct (decide (i = j)) as [->|]; auto.
Qed.

Lemma ids_same {V} {S : Stored V} d d' : tbl (V:=V) d' = tbl d -> ids_below V d -> ids_below V d'.
Proof. intros E H i. rewrite (get_same d d' i E), E. apply H. Qed.
Lemma ids_next {V} {S : Stored V} d d' (v : V) : tbl (V:=V) d' = next_object (tbl d) v -> ids_below V d -> ids_below V d'.
Proof.
  intros E H i. rewrite (get_next d d' v i E), E. cbn. case_decide as Hi; [subst; lia|]. intros Hs. specialize (H i Hs). lia.
Qed.

Lemma ids_below_adjust a delta d u d' : ids_below Balance.t d ->
  adjust_balance a delta d = Ok (u, d') -> ids_below Balance.t d'.
Proof.
  intros Hb H. unfold adjust_balance in H.
  destruct (_ =? BTCM_SYMBOL); [state_inv; exact Hb|]. destruct (_ =? XUSD_SYMBOL).
  - unfold adjust_mbd in H. state_inv. destruct x3 as [acnt' [paid|]]; cbn in *; state_inv; exact Hb.
  - unfold adjust_user_asset in H. destruct (_ =? 0); [by state_inv|].
    unfold find_balance in H. do 2 state_step. subst. destruct (lookup_where _ d) as [[i b]|].
    + do 2 state_step. assert (x0 = d) as -> by (destruct (amount delta <? 0); state_inv; done).
      state_inv. by apply ids_below_set.
    + state_inv. by apply ids_below_create.
Qed.

Lemma gap_pay_fee a fee d u d' id : fresh Balance.t d -> asset_id fee <> VESTS_SYMBOL ->
  pay_fee a fee d = Ok (u, d') -> gap id d' = gap id d.
Proof.
  intros Hf Hv H. unfold pay_fee in H. state_step. state_step. destruct (_ =? 0); [by state_inv|].
  do 4 (try state_step). state_inv. asset_inv.
  repeat match goal with
  | H : adjust_balance _ _ _ = Ok _ |- _ => apply (gap_adjust_balance _ _ _ _ _ id) in H; [|done|done]
  | H : adjust_supply _ _ _ = Ok _ |- _ => apply (gap_adjust_supply _ _ _ _ _ id) in H
  end. cbn in *. destruct (id =? asset_id fee); lia.
Qed.

Lemma adjust_supply_symbol delta v d u d' : adjust_supply delta v d = Ok (u, d') ->
  asset_id delta = BTCM_SYMBOL \/ asset_id delta = XUSD_SYMBOL.
Proof.
  intros H. unfold adjust_supply in H. do 2 state_step.
  destruct (Z.eqb_spec (asset_id delta) BTCM_SYMBOL); [by left|].
  destruct (Z.eqb_spec (asset_id delta) XUSD_SYMBOL); [by right|discriminate].
Qed.

(** New XUSD is backed by the BTCM the caller gives up. *)
Lemma gap_create_mbd to btcm d r d' id : fresh Balance.t d -> asset_id btcm = BTCM_SYMBOL ->
  create_mbd to btcm d = Ok (r, d') ->
  gap id d' = gap id d - (if id =? BTCM_SYMBOL then amount btcm else 0).
Proof.
  intros Hf Hb H. unfold create_mbd in H. destruct (Z.eqb_spec (amount btcm) 0) as [E|].
  { state_inv. rewrite E. destruct (id =? _); lia. }
  apply st_bind_Ok in H as (d0 & ? & [= <- <-] & H). destruct (negb _).
  - apply st_bind_Ok in H as (mbd & ? & H0 & H). apply lift_Ok in H0 as [_ ->].
    apply st_bind_Ok in H as (? & d1 & H1 & H). apply st_bind_Ok in H as (neg & ? & H0 & H).
    apply lift_Ok in H0 as [->%AssetLemmas.asset_neg_Ok ->].
    apply st_bind_Ok in H as (? & d2 & H2 & H). apply st_bind_Ok in H as (? & d3 & H3 & H).
    apply st_ret_Ok in H as [_ ->]. pose proof (adjust_supply_symbol _ _ _ _ _ H3) as Hs.
    apply (gap_adjust_balance _ _ _ _ _ id) in H1; [|done|unfold VESTS_SYMBOL, BTCM_SYMBOL, XUSD_SYMBOL in *; lia].
    apply (gap_adjust_supply _ _ _ _ _ id) in H2. apply (gap_adjust_supply _ _ _ _ _ id) in H3. cbn in *.
    rewrite Hb in *. destruct (id =? asset_id mbd), (id =? BTCM_SYMBOL); lia.
  - apply st_bind_Ok in H as (? & d1 & H1 & H). apply st_ret_Ok in H as [_ ->].
    apply (gap_adjust_balance _ _ _ _ _ id) in H1; [by rewrite Hb in H1|done|by rewrite Hb].
Qed.

(** C18 The accounting of database.cpp, for every asset: [adjust_balance] moves the
    gap between recorded supply and holdings by minus its delta, interest on XUSD
    being added to both sides; [adjust_supply] moves it by plus its delta, the
    share added to the vesting fund being held; burning a fee leaves it alone; and
    creating XUSD moves it by the BTCM given up. *)
Theorem supply_accounting d u d' id (Hf : fresh Balance.t d) :
  (forall a delta, asset_id delta <> VESTS_SYMBOL -> adjust_balance a delta d = Ok (u, d') ->
     gap id d' = gap id d - (if id =? asset_id delta then amount delta else 0)) /\
  (forall delta v, adjust_supply delta v d = Ok (u, d') ->
     gap id d' = gap id d + (if id =? asset_id delta then amount delta else 0)) /\
  (forall a fee, asset_id fee <> VESTS_SYMBOL -> pay_fee a fee d = Ok (u, d') -> gap id d' = gap id d) /\
  (forall a btcm r, asset_id btcm = BTCM_SYMBOL -> create_mbd a btcm d = Ok (r, d') ->
     gap id d' = gap id d - (if id =? BTCM_SYMBOL then amount btcm else 0)).
Proof.
  split_and!; intros.
  - by eapply gap_adjust_balance.
  - by eapply gap_adjust_supply.
  - by eapply gap_pay_fee.
  - by eapply gap_create_mbd.
Qed.

(** ** Transfers *)

(** The liquid BTCM of an account. *)
Definition liquid (a : Z) (d : database) : Z := from_option (fun acnt => amount (Account.balance acnt)) 0 (get_opt d a).

Lemma liquid_adjust a x delta d u d' : asset_id delta = BTCM_SYMBOL -> adjust_balance a delta d = Ok (u, d') ->
  liquid x d' = liquid x d + (if x =? a then amount delta else 0).
Proof.
  intros E H. unfold adjust_balance in H. rewrite E in H. cbn in H. state_inv. unfold adjust_btcm in *.
  state_inv. asset_inv. unfold liquid. rewrite get_set_obj.
  destruct (decide (x = a)) as [->|Hn].
  - rewrite Z.eqb_refl. match goal with H : get_opt d a = Some _ |- _ => rewrite H end. done.
  - apply Z.eqb_neq in Hn as ->. lia.
Qed.

Lemma get_balance_state a id d b d' : get_balance a id d = Ok (b, d') -> d' = d.
Proof. unfold get_balance, find_balance. intros H. state_step. state_step. repeat case_match; by state_inv. Qed.

Lemma get_balance_btcm a d b d' : get_balance a BTCM_SYMBOL d = Ok (b, d') -> amount b = liquid a d.
Proof. unfold get_balance, liquid. intros H. state_step. state_step. cbn in H. state_inv. by rewrite H0. Qed.

(** Meeting a challenge by acting: only two fields change. *)
Definition answered (f : Z) (d : database) : database :=
  match get_opt (V:=Account.t) d f with
  | Some a => set_obj d f (a <| Account.active_challenged := false |> <| Account.last_active_proved := head_block_time d |>)
  | None => d
  end.

Lemma gap_answered f d id : gap id (answered f d) = gap id d.
Proof.
  unfold answered. destruct (get_opt d f) as [a|] eqn:E; [|done]. rewrite (gap_set_account _ _ a) by done. cbn.
  repeat case_match; lia.
Qed.

Lemma liquid_answered f x d : liquid x (answered f d) = liquid x d.
Proof.
  unfold answered. destruct (get_opt d f) as [a|] eqn:E; [|done]. unfold liquid. rewrite get_set_obj.
  destruct (decide (x = f)) as [->|]; [by rewrite E|done].
Qed.

Lemma ids_below_answered f d : ids_below Balance.t d -> ids_below Balance.t (answered f d).
Proof. unfold answered. by destruct (get_opt d f). Qed.

Lemma transfer_run o d d' : transfer_apply o d = Ok (tt, d') -> exists f fa t ta d1 b d2,
  lookup_where (fun a => String.eqb (Account.name a) (from o)) d = Some (f, fa) /\
  lookup_where (fun a => String.eqb (Account.name a) (to o)) d = Some (t, ta) /\
  asset_id (amt o) <> VESTS_SYMBOL /\ (d1 = d \/ d1 = answered f d) /\
  get_balance f (asset_id (amt o)) d1 = Ok (b, d1) /\ amount (amt o) <= amount b /\
  adjust_balance f (Asset (- amount (amt o)) (asset_id (amt o))) d1 = Ok (tt, d2) /\
  adjust_balance t (amt o) d2 = Ok (tt, d').
Proof.
  intros H. unfold transfer_apply in H.
  apply st_bind_Ok in H as ([f fa] & d0 & Hf & H). apply get_account_Ok in Hf as [Hf ->].
  apply st_bind_Ok in H as ([t ta] & d0 & Ht & H). apply get_account_Ok in Ht as [Ht ->].
  apply st_bind_Ok in H as (u & d1 & H1 & H). cbn [fst snd] in *.
  assert (d1 = d \/ d1 = answered f d) as Hd1.
  { destruct (Account.active_challenged fa); [right|left; by state_inv]. unfold answered. state_inv.
    match goal with H : get_opt d f = Some _ |- _ => by rewrite H end. }
  destruct (Z.eqb_spec (asset_id (amt o)) VESTS_SYMBOL); [discriminate|]. cbn [negb] in H.
  apply st_bind_Ok in H as (b & d2 & Hb & H). pose proof (get_balance_state _ _ _ _ _ Hb) as ->.
  do 3 state_step. state_step. state_step.
  match goal with H : AssetOps.asset_geb _ _ = Ok true |- _ => apply AssetLemmas.asset_geb_Ok in H as [_ Hle] end.
  match goal with H : AssetOps.asset_neg _ = Ok _ |- _ => apply AssetLemmas.asset_neg_Ok in H as -> end.
  match goal with H : adjust_balance f _ _ = Ok (?u, ?d) |- _ => destruct u; exists f, fa, t, ta, d1, b, d end.
  split_and!; try done. by apply Hle.
Qed.


(** A BTCM transfer between existing accounts fails in one way only. *)
Lemma adjust_btcm_fits a delta d acnt : get_opt d a = Some acnt -> asset_id delta = BTCM_SYMBOL ->
  is_int64 (amount (Account.balance acnt) + amount delta) -> exists d', adjust_balance a delta d = Ok (tt, d').
Proof.
  intros Ha E Hr. unfold adjust_balance. rewrite E. cbn. eexists. eapply obj_modify_run; [exact Ha|].
  unfold adjust_btcm. by rewrite Safe.add_fits.
Qed.

End Moves.

#[local] Existing Instance boost_reference.

Lemma sample_ids_below : ids_below Balance.t Sample.state /\ ids_below AssetObject.t Sample.state.
Proof. split; apply ids_below_check; vm_compute; reflexivity. Qed.

Lemma supply_accounting_witness :
  let d := Sample.state in
  gap BTCM_SYMBOL (Sample.after (Balances.adjust_balance 0 (Asset 5 BTCM_SYMBOL)) d) = -5 /\
  gap 3 (Sample.after (Balances.adjust_balance 0 (Asset 7 3)) d) = -7 /\
  gap BTCM_SYMBOL (Sample.after (Balances.adjust_supply (Asset 5 BTCM_SYMBOL) true) d) = 5 /\
  gap BTCM_SYMBOL (Sample.after (Balances.pay_fee 0 (Asset 5 BTCM_SYMBOL)) d) = 0.
Proof.
  pose proof (ids_below_fresh _ (proj1 sample_ids_below)) as Hf. cbn zeta. split_and!.
  - rewrite (proj1 (supply_accounting _ tt _ BTCM_SYMBOL Hf) 0 (Asset 5 BTCM_SYMBOL));
      [vm_compute; reflexivity|discriminate|apply Sample.after_run; vm_compute; reflexivity].
  - rewrite (proj1 (supply_accounting _ tt _ 3 Hf) 0 (Asset 7 3));
      [vm_compute; reflexivity|discriminate|apply Sample.after_run; vm_compute; reflexivity].
  - rewrite (proj1 (proj2 (supply_accounting _ tt _ BTCM_SYMBOL Hf)) (Asset 5 BTCM_SYMBOL) true);
      [vm_compute; reflexivity|apply Sample.after_run; vm_compute; reflexivity].
  - rewrite (proj1 (proj2 (proj2 (supply_accounting _ tt _ BTCM_SYMBOL Hf))) 0 (Asset 5 BTCM_SYMBOL));
      [vm_compute; reflexivity|discriminate|apply Sample.after_run; vm_compute; reflexivity].
Defined.


End Supply.
