(* ===== verification/AssetEval.v ===== *)
(** * User-issued assets

    Models libraries/chain/asset_evaluator.cpp and protocol/asset_ops.cpp: the
    validity of symbols and options, and the evaluators that create, issue,
    reserve and update assets. *)

From S2P Require Import Prelude.
From S2P Require Import SafeInt.
From S2P Require Import Uint128.
From S2P Require Import Asset.
From S2P Require Import UndoDatabase.
From S2P Require Import State.
From S2P Require Import Balance.

Definition BTCM_MIN_ASSET_SYMBOL_LENGTH : nat := 2.
Definition BTCM_MAX_ASSET_SYMBOL_LENGTH : nat := 13.
Definition BTCM_ASSET_CREATION_FEE : Z := 10 * 1000000.
Definition BTCM_SUBASSET_CREATION_FEE : Z := 10 * 1000000.
Definition ASSET_ISSUER_PERMISSION_MASK : Z := 0x7f.

Record asset_create_operation := AssetCreate {
  create_fee : asset;
  create_issuer : string;
  create_symbol : string;
  create_precision : Z;
  common_options : AssetOptions.t
}.
Record asset_update_operation := AssetUpdate {
  update_issuer : string;
  asset_to_update : Z;
  new_issuer : option string;
  new_options : AssetOptions.t
}.
Record asset_issue_operation := AssetIssue {
  issue_issuer : string;
  asset_to_issue : asset;
  issue_to_account : string
}.
Record asset_reserve_operation := AssetReserve {
  reserve_issuer : string;
  payer : string;
  amount_to_reserve : asset
}.

Module AssetEval.
Import AssetOps Balances.

(** ** asset_ops.cpp *)

(** The classes of the "C" locale. *)
Definition is_upper (c : ascii) : bool := let n := nat_of_ascii c in ((65 <=? n) && (n <=? 90))%nat.
Definition is_alpha (c : ascii) : bool :=
  let n := nat_of_ascii c in is_upper c || ((97 <=? n) && (n <=? 122))%nat.
Definition is_digit (c : ascii) : bool := let n := nat_of_ascii c in ((48 <=? n) && (n <=? 57))%nat.

Fixpoint symbol_loop (dot_already_present : bool) (l : list ascii) : bool :=
  match l with
  | [] => true
  | c :: l =>
      if (is_alpha c && is_upper c) || is_digit c then symbol_loop dot_already_present l
      else if Ascii.eqb c "."%char then
        if dot_already_present then false else symbol_loop true l
      else false
  end.

Definition is_valid_symbol (symbol : string) : bool :=
  let l := String.list_ascii_of_string symbol in
  if (length l <? BTCM_MIN_ASSET_SYMBOL_LENGTH)%nat then false
  else if (BTCM_MAX_ASSET_SYMBOL_LENGTH <? length l)%nat then false
  else match l with
       | c :: _ => if negb (is_alpha c) then false else symbol_loop false l
       | [] => false
       end.

Definition options_validate (o : AssetOptions.t) : result unit :=
  _ ← fc_assert (AssetOptions.max_supply o >? 0);
  _ ← fc_assert (AssetOptions.max_supply o <=? BTCM_MAX_SHARE_SUPPLY);
  _ ← fc_assert (AssetOptions.market_fee_percent o <=? BTCM_100_PERCENT);
  _ ← fc_assert ((0 <=? AssetOptions.max_market_fee o) && (AssetOptions.max_market_fee o <=? BTCM_MAX_SHARE_SUPPLY));
  fc_assert (Z.ldiff (AssetOptions.issuer_permissions o) ASSET_ISSUER_PERMISSION_MASK =? 0).

Definition create_validate (o : asset_create_operation) : result unit :=
  _ ← fc_assert (is_valid_symbol (create_symbol o));
  _ ← fc_assert (0 <=? amount (create_fee o));
  _ ← options_validate (common_options o);
  fc_assert (create_precision o <=? 12).

(** [FC_ASSERT( !"disabled" )] *)
Definition update_validate (o : asset_update_operation) : result unit := Throw assert_exception.

Definition amount_validate (a : asset) : result unit :=
  _ ← fc_assert (amount a <=? BTCM_MAX_SHARE_SUPPLY); fc_assert (0 <? amount a).
Definition reserve_validate (o : asset_reserve_operation) : result unit := amount_validate (amount_to_reserve o).
Definition issue_validate (o : asset_issue_operation) : result unit := amount_validate (asset_to_issue o).

(** ** asset_evaluator.cpp *)

Section Eval.
Context {B : BoostMP}.

(** [symbol.rfind( '.' )] and the text before it. *)
Definition prefix (symbol : string) : option string :=
  match list_find (fun c => c = "."%char) (rev (String.list_ascii_of_string symbol)) with
  | Some (i, _) => Some (String.string_of_list_ascii
      (take (String.length symbol - 1 - i) (String.list_ascii_of_string symbol)))
  | None => None
  end.

Definition find_symbol (symbol : string) : st database (option (Z * AssetObject.t)) :=
  find_where (fun a => String.eqb (AssetObject.symbol_string a) symbol).

Definition create_apply (op : asset_create_operation) : st database unit :=
  itr ← find_symbol (create_symbol op);
  _ ← assert_st (match itr with None => true | Some _ => false end);
  issuer ← get_account (create_issuer op);
  let is_sub := match prefix (create_symbol op) with Some _ => true | None => false end in
  let min_fee := Asset (if is_sub then BTCM_SUBASSET_CREATION_FEE else BTCM_ASSET_CREATION_FEE) XUSD_SYMBOL in
  _ ← assert_asset (asset_geb (create_fee op) min_fee);
  b ← get_balance issuer.1 (asset_id (create_fee op));
  _ ← assert_asset (asset_geb b (create_fee op));
  _ ← (match prefix (create_symbol op) with
       | Some p =>
           itr ← find_symbol p;
           kv ← lift (of_option assert_exception itr);
           assert_st (AssetObject.issuer kv.2 =? issuer.1)
       | None => mret tt
       end);
  _ ← pay_fee issuer.1 (create_fee op);
  _ ← create (AssetObject.Make 0 (create_symbol op) (create_precision op) issuer.1 (common_options op));
  mret tt.

Definition issue_apply (o : asset_issue_operation) : st database unit :=
  a ← get (V:=AssetObject.t) (asset_id (asset_to_issue o));
  issuer ← get_account (issue_issuer o);
  _ ← assert_st (issuer.1 =? AssetObject.issuer a);
  to_account ← get_account (issue_to_account o);
  s ← lift (Safe.add (AssetObject.current_supply a) (amount (asset_to_issue o)));
  _ ← assert_st (s <=? AssetOptions.max_supply (AssetObject.options a));
  _ ← adjust_balance to_account.1 (asset_to_issue o);
  modify (asset_id (asset_to_issue o)) (fun a =>
    s ← Safe.add (AssetObject.current_supply a) (amount (asset_to_issue o));
    Ok (a <| AssetObject.current_supply := s |>)).

Definition reserve_apply (o : asset_reserve_operation) : st database unit :=
  _ ← get (V:=AssetObject.t) (asset_id (amount_to_reserve o));
  payer_account ← get_account (payer o);
  n ← lift (asset_neg (amount_to_reserve o));
  _ ← adjust_balance payer_account.1 n;
  modify (asset_id (amount_to_reserve o)) (fun a =>
    s ← Safe.sub (AssetObject.current_supply a) (amount (amount_to_reserve o));
    Ok (a <| AssetObject.current_supply := s |>)).

(** [asset_object::validate]: [disable_force_settle] and [global_settle] are off. *)
Definition object_validate (a : AssetObject.t) : result unit :=
  _ ← fc_assert (Z.land (AssetOptions.flags (AssetObject.options a)) 0x30 =? 0);
  fc_assert (Z.land (AssetOptions.issuer_permissions (AssetObject.options a)) 0x30 =? 0).

Definition update_apply (o : asset_update_operation) : st database unit :=
  a ← get (V:=AssetObject.t) (asset_to_update o);
  _ ← lift (object_validate (a <| AssetObject.options := new_options o |>));
  issuer' ← (match new_issuer o with
             | Some n => kv ← get_account n; mret (Some kv.1)
             | None => mret None
             end);
  let old_permissions := AssetOptions.issuer_permissions (AssetObject.options a) in
  _ ← assert_st (Z.ldiff (AssetOptions.issuer_permissions (new_options o)) old_permissions =? 0);
  _ ← assert_st (Z.ldiff (Z.lxor (AssetOptions.flags (new_options o)) (AssetOptions.flags (AssetObject.options a)))
        old_permissions =? 0);
  issuer ← get_account (update_issuer o);
  _ ← assert_st (issuer.1 =? AssetObject.issuer a);
  modify_pure (asset_to_update o) (fun a =>
    let a := match issuer' with Some i => a <| AssetObject.issuer := i |> | None => a end in
    a <| AssetObject.options := new_options o |>).

End Eval.
End AssetEval.
