(* ===== verification/AssetEvalFacts.v ===== *)
(** * Facts about user-issued assets

    The grammar of symbols, the conservation of every user-issued asset, what an
    issuer can change, and two consequences of the missing checks of the
    reserve operation. *)

From S2P Require Import Prelude.
From S2P Require Import SafeInt.
From S2P Require Import Uint128.
From S2P Require Import Asset.
From S2P Require Import UndoDatabase.
From S2P Require Import Authority.
From S2P Require Import ForkDatabase.
From S2P Require Import State.
From S2P Require Import Sample.
From S2P Require Import Balance.
From S2P Require Import BalanceFacts.
From S2P Require Import AssetEval.

Module AssetEvalFacts.
Import AssetEval Balances Supply.

(** ** Symbols *)

Definition symbol_char (c : ascii) : Prop := is_upper c = true \/ is_digit c = true \/ c = "."%char.
Definition dots (l : list ascii) : nat := length (List.filter (fun c => Ascii.eqb c "."%char) l).

Lemma dot_class : is_alpha "."%char = false /\ is_upper "."%char = false /\ is_digit "."%char = false.
Proof. vm_compute. done. Qed.

Lemma digit_not_alpha c : is_digit c = true -> is_alpha c = false.
Proof. destruct c as [[] [] [] [] [] [] [] []]; vm_compute; congruence. Qed.

Lemma symbol_loop_spec b l : symbol_loop b l = true <->
  Forall symbol_char l /\ (dots l + (if b then 1 else 0) <= 1)%nat.
Proof.
  revert b. induction l as [|c l IH]; intros b; cbn [symbol_loop].
  { split; [|done]. split; [constructor|]. destruct b; cbn; lia. }
  unfold symbol_char. rewrite Forall_cons. fold symbol_char. unfold dots. cbn [List.filter].
  destruct (Ascii.eqb_spec c "."%char) as [->|Hc].
  - destruct dot_class as (-> & -> & ->). cbn [andb orb length]. fold (dots l). destruct b.
    + split; [done|]. intros [_ H]. lia.
    + rewrite IH. split; [intros [? ?]; split; [split; [auto|done]|lia]|]. intros [[_ ?] ?]. split; [done|lia].
  - fold (dots l). replace (is_alpha c && is_upper c) with (is_upper c) by (unfold is_alpha; destruct (is_upper c); [done|by rewrite andb_false_r]).
    destruct (is_upper c || is_digit c) eqn:E.
    + rewrite IH. apply orb_true_iff in E. split; [intros [? ?]; split; [split; [tauto|done]|done]|tauto].
    + apply orb_false_iff in E as [-> ->]. split; [done|]. intros [[[Hu|[Hu|Hu]] _] _]; congruence.
Qed.

(** The symbols accepted are exactly those of 2 to 13 characters that begin
    with an upper-case letter and hold upper-case letters, digits and at most one
    dot. *)
Lemma symbol_grammar symbol : is_valid_symbol symbol = true <->
  let l := String.list_ascii_of_string symbol in
  (2 <= length l <= 13)%nat /\ (exists c, hd_error l = Some c /\ is_upper c = true) /\
  Forall symbol_char l /\ (dots l <= 1)%nat.
Proof.
  unfold is_valid_symbol, BTCM_MIN_ASSET_SYMBOL_LENGTH, BTCM_MAX_ASSET_SYMBOL_LENGTH. cbn zeta.
  set (l := String.list_ascii_of_string symbol).
  destruct (Nat.ltb_spec (length l) 2); [split; [done|lia]|].
  destruct (Nat.ltb_spec 13 (length l)); [split; [done|lia]|].
  destruct l as [|c l]; [cbn in *; lia|]. cbn [hd_error].
  destruct (is_alpha c) eqn:Ea; cbn [negb].
  - rewrite symbol_loop_spec, Forall_cons. split.
    + intros [[Hc Hl] Hd]. split; [lia|]. split; [|split; [done|lia]]. exists c. split; [done|].
      destruct Hc as [?|[Hc| ->]]; [done| |by vm_compute in Ea].
      by rewrite digit_not_alpha in Ea.
    + intros (_ & _ & [? ?] & ?). split; [done|lia].
  - split; [done|]. intros (_ & (? & [= <-] & Hu) & _). unfold is_alpha in Ea. by rewrite Hu in Ea.
Qed.

(** The comment of the function also asks for a letter at the end. *)
Lemma symbol_may_end_with_dot : is_valid_symbol "BTC." = true /\ is_valid_symbol "BTC1" = true.
Proof. vm_compute. done. Qed.

(** ** Conservation *)

Lemma gap_set_asset d i a a' id : get_opt d i = Some a -> id <> BTCM_SYMBOL -> id <> VESTS_SYMBOL -> id <> XUSD_SYMBOL ->
  gap id (set_obj d i a') = gap id d
    + (if id =? i then AssetObject.current_supply a' - AssetObject.current_supply a else 0).
Proof.
  intros H N0 N1 N2. unfold gap. apply Z.eqb_neq in N0 as ->, N1 as ->, N2 as ->.
  change (held_user id (set_obj d i a')) with (held_user id d). unfold user_supply. rewrite get_set_obj.
  destruct (decide (id = i)) as [->|Hn]; [rewrite Z.eqb_refl, H; cbn; lia|]. apply Z.eqb_neq in Hn as ->. lia.
Qed.

Lemma gap_create_asset d a id : fresh AssetObject.t d -> AssetObject.current_supply a = 0 ->
  gap id (upd_tbl (fun t => next_object t a) d) = gap id d.
Proof.
  intros Hf Ha. unfold gap. change (held_user id (upd_tbl (fun t => next_object t a) d)) with (held_user id d).
  repeat (destruct (_ =? _); [reflexivity|]). f_equal. unfold user_supply, get_opt. rewrite tbl_upd. cbn.
  destruct (decide (id = next_id (tbl (V:=AssetObject.t) d))) as [->|].
  - rewrite lookup_insert_eq. unfold fresh, get_opt in Hf. cbn in *. by rewrite Hf.
  - by rewrite lookup_insert_ne.
Qed.

Section Eval.
Context {B : BoostMP}.

Lemma find_symbol_state s d o d' : find_symbol s d = Ok (o, d') -> d' = d.
Proof. unfold find_symbol. by intros [_ ->]%find_where_Ok. Qed.

Lemma get_opt_assets d d' i : assets d' = assets d -> get_opt (V:=AssetObject.t) d' i = get_opt d i.
Proof. unfold get_opt. cbn. by intros ->. Qed.

Lemma create_gap op d u d' id : ids_below Balance.t d -> ids_below AssetObject.t d ->
  asset_id (create_fee op) <> VESTS_SYMBOL -> create_apply op d = Ok (u, d') -> gap id d' = gap id d.
Proof.
  intros Hb Ha Hv H. unfold create_apply in H.
  step H as itr Hs. apply find_symbol_state in Hs as ->. step H. step H as issuer Hi. step H.
  step H as b Hg. apply get_balance_state in Hg as ->. step H.
  apply st_bind_Ok in H as (? & d1 & H2 & H).
  assert (d1 = d) as ->.
  { destruct (prefix _); [|by state_inv]. apply st_bind_Ok in H2 as (? & ? & ->%find_symbol_state & H2). by state_inv. }
  apply st_bind_Ok in H as (? & d1 & Hp & H). pose proof (pay_fee_frame assets _ _ _ _ _ ltac:(by constructor) Hp) as Ea.
  apply (gap_pay_fee _ _ _ _ _ id) in Hp; [|by apply ids_below_fresh|done]. rewrite <- Hp.
  state_inv. apply gap_create_asset; [|done]. apply ids_below_fresh in Ha. unfold fresh in *.
  rewrite (get_opt_assets d d1) by done. cbn in *. by rewrite Ea.
Qed.

Lemma issue_gap op d u d' id : ids_below Balance.t d -> id <> BTCM_SYMBOL -> id <> VESTS_SYMBOL -> id <> XUSD_SYMBOL ->
  asset_id (asset_to_issue op) <> VESTS_SYMBOL -> issue_apply op d = Ok (u, d') ->
  gap id d' = gap id d /\ exists a, get_opt (V:=AssetObject.t) d' (asset_id (asset_to_issue op)) = Some a /\
    AssetObject.current_supply a <= AssetOptions.max_supply (AssetObject.options a) /\
    exists o i, get_opt (V:=AssetObject.t) d (asset_id (asset_to_issue op)) = Some o /\
      lookup_where (fun x => String.eqb (Account.name x) (issue_issuer op)) d = Some (AssetObject.issuer o, i).
Proof.
  intros Hb N0 N1 N2 Hv H. unfold issue_apply in H.
  step H as a Ha. step H as [i ia] Hi. step H as ? He. step H as to_account Ht. step H as s Es. step H as ? Hm.
  apply st_bind_Ok in H as (? & d1 & Hadj & H).
  pose proof (adjust_balance_frame assets _ _ _ _ _ ltac:(by constructor) Hadj) as Ea.
  apply (gap_adjust_balance _ _ _ _ _ id) in Hadj; [|by apply ids_below_fresh|done]. state_inv. asset_inv.
  match goal with H : get_opt d1 _ = Some ?x |- _ => rewrite (get_opt_assets d d1), Ha in H by done; injection H as <- end.
  split.
  - rewrite (gap_set_asset _ _ a) by (done || by rewrite (get_opt_assets d d1)). rewrite Hadj. cbn.
    destruct (id =? _); lia.
  - eexists. rewrite get_set_obj, decide_True by done. split; [done|]. cbn. split; [lia|].
    exists a, ia. split; [done|]. cbn in *. rewrite Hi. do 2 f_equal. lia.
Qed.

Lemma reserve_gap op d u d' id : ids_below Balance.t d -> id <> BTCM_SYMBOL -> id <> VESTS_SYMBOL -> id <> XUSD_SYMBOL ->
  asset_id (amount_to_reserve op) <> VESTS_SYMBOL -> reserve_apply op d = Ok (u, d') -> gap id d' = gap id d.
Proof.
  intros Hb N0 N1 N2 Hv H. unfold reserve_apply in H.
  step H as a Ha. step H as p Hp. step H as n Hn. apply AssetLemmas.asset_neg_Ok in Hn as ->.
  apply st_bind_Ok in H as (? & d1 & Hadj & H). pose proof (adjust_balance_frame assets _ _ _ _ _ ltac:(by constructor) Hadj) as Ea.
  apply (gap_adjust_balance _ _ _ _ _ id) in Hadj; [|by apply ids_below_fresh|done]. state_inv. asset_inv.
  match goal with H : get_opt d1 _ = Some ?x |- _ => rewrite (get_opt_assets d d1), Ha in H by done; injection H as <- end.
  rewrite (gap_set_asset _ _ a) by (done || by rewrite (get_opt_assets d d1)). rewrite Hadj. cbn.
  destruct (id =? _); lia.
Qed.


Definition permissions (a : AssetObject.t) : Z := AssetOptions.issuer_permissions (AssetObject.options a).

(** An update never gives an issuer back a permission that was revoked, never
    flips a flag outside the permissions the asset still had, and is for the
    current issuer alone. *)
Lemma update_keeps_revocations o d d' (H : update_apply o d = Ok (tt, d')) :
  exists a a' i, get_opt (V:=AssetObject.t) d (asset_to_update o) = Some a /\
    get_opt (V:=AssetObject.t) d' (asset_to_update o) = Some a' /\
    lookup_where (fun x => String.eqb (Account.name x) (update_issuer o)) d = Some (AssetObject.issuer a, i) /\
    AssetObject.current_supply a' = AssetObject.current_supply a /\
    (forall n, Z.testbit (permissions a) n = false -> 0 <= n ->
       Z.testbit (permissions a') n = false /\
       Z.testbit (AssetOptions.flags (AssetObject.options a')) n
       = Z.testbit (AssetOptions.flags (AssetObject.options a)) n).
Proof.
  unfold update_apply in H. step H as a Ha. step H as ? Hr. clear Hr.
  apply st_bind_Ok in H as (issuer' & d1 & Hr & H).
  assert (d1 = d) as -> by (unfold get_account in Hr; destruct (new_issuer o); by state_inv). clear Hr.
  step H as ? Hp. step H as ? Hfl. step H as [i ia] Hi. step H as ? He.
  apply Z.eqb_eq in Hp, Hfl, He. cbn in He.
  state_inv. match goal with H : get_opt d _ = Some ?x |- _ => rewrite Ha in H; injection H as <- end.
  exists a. eexists. exists ia. rewrite get_set_obj, decide_True by done.
  split_and!; [done|done|done|by destruct issuer'|]. intros n Hn Hr.
  apply (f_equal (fun x => Z.testbit x n)) in Hp, Hfl.
  rewrite Z.ldiff_spec, Z.bits_0 in Hp, Hfl. rewrite Z.lxor_spec in Hfl. fold (permissions a) in *.
  rewrite Hn in Hp, Hfl. unfold permissions. destruct issuer'; cbn; rewrite andb_true_r in Hp, Hfl;
    (split; [done|]); by destruct (Z.testbit (AssetOptions.flags (new_options o)) n),
      (Z.testbit (AssetOptions.flags (AssetObject.options a)) n).
Qed.
End Eval.

#[local] Existing Instance boost_reference.


Lemma update_keeps_revocations_witness :
  let o := AssetUpdate "alice" 3 None (AssetOptions.Make 1000 0 0 0x0f 0 "") in
  update_apply o Sample.state = Ok (tt, Sample.after (update_apply o) Sample.state) /\
  exists a', get_opt (V:=AssetObject.t) (Sample.after (update_apply o) Sample.state) 3 = Some a' /\
    Z.testbit (permissions a') 5 = false.
Proof.
  cbn zeta. set (o := AssetUpdate _ _ _ _).
  assert (H : update_apply o Sample.state = Ok (tt, Sample.after (update_apply o) Sample.state))
    by (apply Sample.after_run; vm_compute; reflexivity).
  split; [exact H|]. destruct (update_keeps_revocations o _ _ H) as (a & a' & i & Ha & Ha' & _ & _ & Hr).
  exists a'. split; [exact Ha'|]. apply Hr; [|lia]. vm_compute in Ha. injection Ha as <-. reflexivity.
Defined.

(** ** What the reserve operation does not check *)

(** Nobody compares [issuer], whose authority is asked for, with the issuer of the
    asset or with [payer]: any account can destroy the units of any other. *)
Lemma reserve_by_anyone :
  let d' := Sample.after (reserve_apply (AssetReserve "nancy" "bob" (Asset 100 3))) Sample.state in
  map_to_list (indices (account_balances d')) = [(0, Balance.Make 1 3 0)].
Proof. vm_compute. reflexivity. Qed.

(** [adjust_balance] does not check a BTCM balance, and the payer's is not
    checked here: it goes below zero when there is an asset object for it. *)
Lemma reserve_negative_balance :
  let d := Sample.state <| assets := Table 4 (<[0 := Sample.coin]> empty) |> in
  liquid 2 d = 0 /\ liquid 2 (Sample.after (reserve_apply (AssetReserve "nancy" "nancy" (Asset 100 0))) d) = -100.
Proof. vm_compute. done. Qed.

End AssetEvalFacts.
