(* ===== verification/Votes.v ===== *)
(** * Votes

    Models the vote accounting of database.cpp ([adjust_proxied_witness_votes] in
    both forms, [adjust_witness_votes], [adjust_witness_vote],
    [adjust_streaming_platform_votes], [clear_witness_votes], ..) and the
    evaluators that vote and set proxies. *)

From S2P Require Import Prelude.
From S2P Require Import SafeInt.
From S2P Require Import Uint128.
From S2P Require Import Asset.
From S2P Require Import UndoDatabase.
From S2P Require Import Authority.
From S2P Require Import State.
From S2P Require Import Balance.

Definition BTCM_MAX_ACCOUNT_WITNESS_VOTES : Z := 30.
Definition BTCM_MAX_WITNESS_URL_LENGTH : nat := 2048.
Definition VIRTUAL_SCHEDULE_LAP_LENGTH2 : u128 := Uint128.max_value.
Definition BTCM_PROXY_TO_SELF_ACCOUNT : string := "".

Record account_witness_vote_operation := WitnessVoteOp { wv_account : string; wv_witness : string; wv_approve : bool }.
Record account_witness_proxy_operation := WitnessProxyOp { wp_account : string; wp_proxy : string }.
Record account_streaming_platform_vote_operation :=
  PlatformVoteOp { pv_account : string; pv_streaming_platform : string; pv_approve : bool }.
Record witness_update_operation := WitnessUpdateOp {
  wu_owner : string;
  wu_url : string;
  wu_block_signing_key : public_key;
  wu_props : ChainProps.t;
  wu_fee : asset
}.

Module Votes.

Definition witness_vote_weight (a : Account.t) : result Z :=
  Safe.accumulate (Account.proxied_vsf_votes a) (amount (Account.vesting_shares a)).
Definition proxied_vsf_votes_total (a : Account.t) : result Z := Safe.accumulate (Account.proxied_vsf_votes a) 0.

Section Votes.
Context {B : BoostMP}.

(** ** One object *)

Definition adjust_witness (wso : Schedule.t) (total_vesting_shares delta : Z) (w : Witness.t) : result Witness.t :=
  let now := Schedule.current_virtual_time wso in
  let delta_pos := Uint128.mul (Uint128.of_int64 (Witness.votes w)) (Uint128.sub now (Witness.virtual_last_update w)) in
  let position := Uint128.add (Witness.virtual_position w) delta_pos in
  v ← Safe.add (Witness.votes w) delta;
  _ ← fc_assert (v <=? total_vesting_shares);
  speed ← raw_int64 (v + 1);
  lap ← Uint128.div (Uint128.sub VIRTUAL_SCHEDULE_LAP_LENGTH2 position) (Uint128.of_int64 speed);
  let scheduled := Uint128.add now lap in
  Ok (w <| Witness.virtual_position := position |> <| Witness.virtual_last_update := now |>
        <| Witness.votes := v |>
        <| Witness.virtual_scheduled_time := if Uint128.ltb scheduled now then Uint128.max_value else scheduled |>).

Definition adjust_witness_vote (witness delta : Z) : st database unit :=
  d ← get_st;
  modify witness (adjust_witness (schedule d) (amount (Dgpo.total_vesting_shares (dgpo d))) delta).

Definition adjust_platform (total_vesting_shares delta : Z) (p : Platform.t) : result Platform.t :=
  v ← Safe.add (Platform.votes p) delta;
  _ ← fc_assert (v <=? total_vesting_shares);
  Ok (p <| Platform.votes := v |>).

Definition adjust_streaming_platform_vote (sp delta : Z) : st database unit :=
  d ← get_st;
  modify sp (adjust_platform (amount (Dgpo.total_vesting_shares (dgpo d))) delta).

(** ** Everything an account votes for *)

(** The rows of [by_account_witness] and [by_account_streaming_platform] for an account. *)
Definition by_witness (x y : Z * WitnessVote.t) : Prop := WitnessVote.witness x.2 <= WitnessVote.witness y.2.
#[export] Instance by_witness_dec : RelDecision by_witness.
Proof. unfold by_witness. solve_decision. Defined.
Definition witness_votes_of (a : Z) (d : database) : list (Z * WitnessVote.t) :=
  List.filter (fun kv => WitnessVote.account kv.2 =? a) (in_order by_witness d).

Definition by_platform (x y : Z * PlatformVote.t) : Prop :=
  PlatformVote.streaming_platform x.2 <= PlatformVote.streaming_platform y.2.
#[export] Instance by_platform_dec : RelDecision by_platform.
Proof. unfold by_platform. solve_decision. Defined.
Definition platform_votes_of (a : Z) (d : database) : list (Z * PlatformVote.t) :=
  List.filter (fun kv => PlatformVote.account kv.2 =? a) (in_order by_platform d).

Definition adjust_witness_votes (a delta : Z) : st database unit :=
  d ← get_st;
  for_each (witness_votes_of a d) (fun kv => adjust_witness_vote (WitnessVote.witness kv.2) delta).

Definition adjust_streaming_platform_votes (a delta : Z) : st database unit :=
  d ← get_st;
  for_each (platform_votes_of a d)
    (fun kv => adjust_streaming_platform_vote (PlatformVote.streaming_platform kv.2) delta).

Definition clear_witness_votes (a : Z) : st database unit :=
  d ← get_st;
  _ ← for_each (witness_votes_of a d) (fun kv => remove (V:=WitnessVote.t) kv.1);
  modify_pure a (fun acc => acc <| Account.witnesses_voted_for := 0 |>).

Definition clear_streaming_platform_votes (a : Z) : st database unit :=
  d ← get_st;
  _ ← for_each (platform_votes_of a d) (fun kv => remove (V:=PlatformVote.t) kv.1);
  modify_pure a (fun acc => acc <| Account.streaming_platforms_voted_for := 0 |>).

(** ** Through the proxies *)

(** [proxied_vsf_votes[i] += delta] *)
Definition add_proxied (i : nat) (delta : Z) (a : Account.t) : result Account.t :=
  v ← of_option undefined_behaviour (Account.proxied_vsf_votes a !! i);
  s ← Safe.add v delta;
  Ok (a <| Account.proxied_vsf_votes ::= <[i := s]> |>).

Definition nth_delta (delta : list Z) (i : nat) : result Z := of_option undefined_behaviour (delta !! i).

(** The form with one delta for each level of proxies; [room] is
    [BTCM_MAX_PROXY_RECURSION_DEPTH - depth]. *)
Fixpoint adjust_proxied_deltas (room : nat) (a : Z) (delta : list Z) : st database unit :=
  let depth := (BTCM_MAX_PROXY_RECURSION_DEPTH - room)%nat in
  acnt ← get (V:=Account.t) a;
  if negb (String.eqb (Account.proxy acnt) BTCM_PROXY_TO_SELF_ACCOUNT) then
    match room with
    | O => mret tt
    | S room' =>
        proxy ← get_account (Account.proxy acnt);
        _ ← modify proxy.1 (fun a =>
              foldM (fun a i => x ← nth_delta delta i; add_proxied (i + depth) x a) a (rev (seq 0 room)));
        adjust_proxied_deltas room' proxy.1 delta
    end
  else
    total_delta ← lift (foldM (fun t i => x ← nth_delta delta i; Safe.add t x) 0 (rev (seq 0 (S room))));
    _ ← adjust_witness_votes a total_delta;
    adjust_streaming_platform_votes a total_delta.

(** The form with the delta of the account alone. *)
Fixpoint adjust_proxied_delta (room : nat) (a delta : Z) : st database unit :=
  let depth := (BTCM_MAX_PROXY_RECURSION_DEPTH - room)%nat in
  acnt ← get (V:=Account.t) a;
  if negb (String.eqb (Account.proxy acnt) BTCM_PROXY_TO_SELF_ACCOUNT) then
    match room with
    | O => mret tt
    | S room' =>
        proxy ← get_account (Account.proxy acnt);
        _ ← modify proxy.1 (add_proxied depth delta);
        adjust_proxied_delta room' proxy.1 delta
    end
  else
    _ ← adjust_witness_votes a delta;
    adjust_streaming_platform_votes a delta.

(** Both are called with depth 0. *)
Definition adjust_proxied_witness_votes (a delta : Z) : st database unit :=
  adjust_proxied_delta BTCM_MAX_PROXY_RECURSION_DEPTH a delta.
Definition adjust_proxied_witness_votes_array (a : Z) (delta : list Z) : st database unit :=
  adjust_proxied_deltas BTCM_MAX_PROXY_RECURSION_DEPTH a delta.

(** ** Evaluators *)

Definition witness_update_apply (o : witness_update_operation) : st database unit :=
  _ ← get_account (wu_owner o);
  _ ← assert_st (String.length (wu_url o) <=? BTCM_MAX_WITNESS_URL_LENGTH)%nat;
  wit_itr ← find_witness (wu_owner o);
  match wit_itr with
  | Some (i, _) => modify_pure i (fun w =>
      w <| Witness.url := wu_url o |> <| Witness.signing_key := wu_block_signing_key o |>
        <| Witness.props := wu_props o |>)
  | None =>
      d ← get_st;
      _ ← create (default_witness <| Witness.owner := wu_owner o |> <| Witness.url := wu_url o |>
            <| Witness.signing_key := wu_block_signing_key o |> <| Witness.created := head_block_time d |>
            <| Witness.props := wu_props o |>);
      mret tt
  end.

(** [while( cprox->proxy.size() != 0 )]; the set holds at most
    [BTCM_MAX_PROXY_RECURSION_DEPTH] accounts when a turn begins and grows by one in
    each, so that many turns are enough. *)
Fixpoint check_proxy_chain (fuel : nat) (proxy_chain : gset Z) (cprox : Account.t) : st database unit :=
  if String.eqb (Account.proxy cprox) "" then mret tt
  else
    match fuel with
    | O => throw assert_exception
    | S fuel =>
        next_proxy ← get_account (Account.proxy cprox);
        _ ← assert_st (negb (bool_decide (next_proxy.1 ∈ proxy_chain)));
        let proxy_chain := {[next_proxy.1]} ∪ proxy_chain in
        _ ← assert_st (size proxy_chain <=? BTCM_MAX_PROXY_RECURSION_DEPTH)%nat;
        check_proxy_chain fuel proxy_chain next_proxy.2
    end.

Definition negate_all (l : list Z) : result (list Z) := foldM (fun acc x => y ← Safe.neg x; Ok (acc ++ [y])) [] l.

Definition account_witness_proxy_apply (o : account_witness_proxy_operation) : st database unit :=
  account ← get_account (wp_account o);
  _ ← assert_st (negb (String.eqb (Account.proxy account.2) (wp_proxy o)));
  delta ← lift (negate_all (amount (Account.vesting_shares account.2)
                  :: take BTCM_MAX_PROXY_RECURSION_DEPTH (Account.proxied_vsf_votes account.2)));
  _ ← adjust_proxied_witness_votes_array account.1 delta;
  if negb (String.eqb (wp_proxy o) "") then
    new_proxy ← get_account (wp_proxy o);
    _ ← check_proxy_chain BTCM_MAX_PROXY_RECURSION_DEPTH {[account.1; new_proxy.1]} new_proxy.2;
    _ ← clear_witness_votes account.1;
    _ ← clear_streaming_platform_votes account.1;
    _ ← modify_pure account.1 (fun a => a <| Account.proxy := wp_proxy o |>);
    delta ← lift (negate_all delta);
    adjust_proxied_witness_votes_array account.1 delta
  else modify_pure account.1 (fun a => a <| Account.proxy := wp_proxy o |>).

Definition find_witness_vote (account witness : Z) : st database (option (Z * WitnessVote.t)) :=
  find_where (fun v => (WitnessVote.account v =? account) && (WitnessVote.witness v =? witness)).

Definition account_witness_vote_apply (o : account_witness_vote_operation) : st database unit :=
  voter ← get_account (wv_account o);
  _ ← assert_st (String.eqb (Account.proxy voter.2) "");
  witness ← get_witness (wv_witness o);
  itr ← find_witness_vote voter.1 witness.1;
  match itr with
  | None =>
      _ ← assert_st (wv_approve o);
      _ ← assert_st (Account.witnesses_voted_for voter.2 <? BTCM_MAX_ACCOUNT_WITNESS_VOTES);
      _ ← create (WitnessVote.Make witness.1 voter.1);
      weight ← lift (witness_vote_weight voter.2);
      _ ← adjust_witness_vote witness.1 weight;
      modify_pure voter.1 (fun a => a <| Account.witnesses_voted_for ::= fun n => u16 (n + 1) |>)
  | Some (i, _) =>
      _ ← assert_st (negb (wv_approve o));
      weight ← lift (witness_vote_weight voter.2);
      weight ← lift (Safe.neg weight);
      _ ← adjust_witness_vote witness.1 weight;
      _ ← modify_pure voter.1 (fun a => a <| Account.witnesses_voted_for ::= fun n => u16 (n - 1) |>);
      remove (V:=WitnessVote.t) i
  end.

Definition find_platform_vote (account sp : Z) : st database (option (Z * PlatformVote.t)) :=
  find_where (fun v => (PlatformVote.account v =? account) && (PlatformVote.streaming_platform v =? sp)).

Definition account_streaming_platform_vote_apply (o : account_streaming_platform_vote_operation) : st database unit :=
  voter ← get_account (pv_account o);
  sp ← get_streaming_platform (pv_streaming_platform o);
  itr ← find_platform_vote voter.1 sp.1;
  match itr with
  | None =>
      _ ← assert_st (pv_approve o);
      _ ← assert_st (Account.streaming_platforms_voted_for voter.2 <? BTCM_MAX_ACCOUNT_WITNESS_VOTES);
      _ ← create (PlatformVote.Make sp.1 voter.1);
      weight ← lift (witness_vote_weight voter.2);
      _ ← adjust_streaming_platform_vote sp.1 weight;
      modify_pure voter.1 (fun a => a <| Account.streaming_platforms_voted_for ::= fun n => u16 (n + 1) |>)
  | Some (i, _) =>
      _ ← assert_st (negb (pv_approve o));
      weight ← lift (witness_vote_weight voter.2);
      weight ← lift (Safe.neg weight);
      _ ← adjust_streaming_platform_vote sp.1 weight;
      _ ← modify_pure voter.1 (fun a => a <| Account.streaming_platforms_voted_for ::= fun n => u16 (n - 1) |>);
      remove (V:=PlatformVote.t) i
  end.

End Votes.
End Votes.
