(* ===== verification/VotesFacts.v ===== *)
(** * Facts about votes

    The tally of a witness (or streaming platform) is at all times the sum of the
    weights of the accounts that vote for it, and what an account holds for others
    is the sum of what those who chose it as a proxy have.  An operation that
    changes one account makes the books wrong at one place; the accounting
    functions carry the difference up the chain of proxies until they are right
    again. *)

From S2P Require Import Prelude.
From S2P Require Import SafeInt.
From S2P Require Import Uint128.
From S2P Require Import Asset.
From S2P Require Import UndoDatabase.
From S2P Require Import Authority.
From S2P Require Import ForkDatabase.
From S2P Require Import State.
From S2P Require Import Sample.
From S2P Require Import Balance.
From S2P Require Import BalanceFacts.
From S2P Require Import Votes.

Module VotesFacts.
Import Votes.

(** ** The two kinds of vote *)

Class Ballot (V T : Type) := { voter : V -> Z; target : V -> Z; votes : T -> Z }.
#[export] Instance witness_ballot : Ballot WitnessVote.t Witness.t :=
  {| voter := WitnessVote.account; target := WitnessVote.witness; votes := Witness.votes |}.
#[export] Instance platform_ballot : Ballot PlatformVote.t Platform.t :=
  {| voter := PlatformVote.account; target := PlatformVote.streaming_platform; votes := Platform.votes |}.

(** What an account has of its own (level 0) and holds for others (levels 1 to 4). *)
Definition comp (k : nat) (a : Account.t) : Z :=
  match k with
  | O => amount (Account.vesting_shares a)
  | S k => nth k (Account.proxied_vsf_votes a) 0
  end.
Definition weight (a : Account.t) : Z :=
  amount (Account.vesting_shares a) + zsum (Account.proxied_vsf_votes a).
Definition weight_of (d : database) (i : Z) : Z := from_option weight 0 (get_opt (V:=Account.t) d i).

Section Ballots.
Context {V T : Type} {SV : Stored V} {SVok : StoredOk V} {ST : Stored T} {STok : StoredOk T} {Bl : Ballot V T}.
Implicit Types d : database.

Definition rows d (i t : Z) : Z := total (fun v : V => if (target v =? t) && (voter v =? i) then 1 else 0) d.
Definition tally d (t : Z) : Z := total (fun v : V => if target v =? t then weight_of d (voter v) else 0) d.

(** The tallies are right, except that [f] is missing for every vote of [i], and
    but for an offset. *)
Definition counted d (e : Z -> Z) (i f : Z) : Prop :=
  forall t w, get_opt (V:=T) d t = Some w -> votes w = tally d t - rows d i t * f - e t.

(** Who votes has no proxy. *)
Definition direct d : Prop := forall j v, get_opt (V:=V) d j = Some v ->
  exists a, get_opt d (voter v) = Some a /\ Account.proxy a = "".

Lemma rows_none d i t a : direct d -> get_opt d i = Some a -> Account.proxy a <> "" -> rows d i t = 0.
Proof.
  intros Hd Ha Hp. apply map_sum_zero. intros j v Hv. destruct (Hd j v Hv) as (b & Hb & Hbp).
  destruct (Z.eqb_spec (voter v) i) as [<-|]; [congruence|by rewrite andb_false_r].
Qed.

(** Changing one account changes the tallies it votes for. *)
Lemma tally_set_account d q b b' t : get_opt d q = Some b ->
  tbl (V:=V) (set_obj d q b') = tbl d ->
  tally (set_obj d q b') t = tally d t + rows d q t * (weight b' - weight b).
Proof.
  intros Hb E. unfold tally, rows, total. rewrite E, Z.mul_comm, <- map_sum_scale, <- map_sum_add.
  apply map_sum_ext. intros j v _. destruct (target v =? t); cbn [andb]; [|lia].
  unfold weight_of. rewrite get_set_obj. destruct (decide (voter v = q)) as [->|Hn].
  - rewrite Hb, Z.eqb_refl. cbn. lia.
  - apply Z.eqb_neq in Hn as ->. lia.
Qed.

(** Nobody voted for is unknown; [tallied] is all of it. *)
Definition nowhere : Z -> Z := fun _ => 0.
Definition bounded d : Prop := forall j v, get_opt (V:=V) d j = Some v -> target v < next_id (tbl (V:=T) d).
Definition tallied d : Prop :=
  direct d /\ counted d nowhere 0 0 /\ Supply.ids_below V d /\ bounded d /\ Supply.ids_below T d.
(** No candidate was added. *)
Definition no_more d d' : Prop :=
  next_id (tbl (V:=T) d') = next_id (tbl (V:=T) d) /\
  forall t, is_Some (get_opt (V:=T) d' t) -> is_Some (get_opt (V:=T) d t).

(** A view that the tables of candidates are no part of. *)
Definition ignores {X} (g : database -> X) : Prop := forall f d, g (upd_tbl (V:=T) f d) = g d.

(** The loop over the votes of an account. *)
Section Loop.
Variables (delta : Z) (adj : Z -> st database unit).
Hypothesis adj_spec : forall t d u d', adj t d = Ok (u, d') ->
  exists w w', get_opt d t = Some w /\ votes (Ballot:=Bl) w' = votes w + delta /\ d' = set_obj d t w'.

Definition count (l : list (Z * V)) (t : Z) : Z := zsum (List.map (fun kv => if target kv.2 =? t then 1 else 0) l).

Lemma adjust_all l : forall d u d', for_each l (fun kv => adj (target kv.2)) d = Ok (u, d') ->
  (forall X (g : database -> X), ignores g -> g d' = g d) /\
  (forall t w', get_opt d' t = Some w' -> exists w, get_opt d t = Some w /\ votes w' = votes w + count l t * delta) /\
  next_id (tbl (V:=T) d') = next_id (tbl (V:=T) d).
Proof.
  induction l as [|[j v] l IH]; intros d u d' H.
  - apply st_ret_Ok in H as [_ ->]. split; [done|]. split; [|done]. intros t w Hw. exists w. split; [done|]. cbn. lia.
  - apply st_bind_Ok in H as (u1 & d1 & H1 & H). apply adj_spec in H1 as (w1 & w1' & Hw1 & Hv & ->).
    destruct (IH _ _ _ H) as (Hg & Ht & Hnx). split; [|split; [|by rewrite Hnx; unfold set_obj; rewrite tbl_upd]].
    + intros X g Hi. rewrite (Hg X g Hi). apply Hi.
    + intros t w' Hw'. destruct (Ht t w' Hw') as (w & Hw & Hvw). rewrite get_set_obj in Hw. cbn [snd] in *.
      unfold count in *. cbn [List.map snd zsum foldr]. change (foldr Z.add 0) with zsum.
      destruct (decide (t = target v)) as [->|Hn].
      * injection Hw as ->. exists w1. split; [done|]. cbn [snd]. rewrite Z.eqb_refl. lia.
      * exists w. split; [done|]. cbn [snd]. destruct (Z.eqb_spec (target v) t); [congruence|]. lia.
Qed.
End Loop.

Lemma count_rows d i (le : Z * V -> Z * V -> Prop) `{!RelDecision le} t :
  count (List.filter (fun kv => voter kv.2 =? i) (in_order le d)) t = rows d i t.
Proof.
  unfold count, rows, total. rewrite zsum_filter.
  rewrite (map_sum_list _ _ (in_order le d)) by apply merge_sort_Permutation.
  f_equal. apply List.map_ext. intros [j v]. cbn. destruct (voter v =? i), (target v =? t); done.
Qed.

End Ballots.
Arguments tally V {T SV Bl} d t.
Arguments rows V {T SV Bl} d i t.
Arguments counted V T {SV ST Bl} d e i f.
Arguments direct V {T SV Bl} d.
Arguments bounded V T {SV ST Bl} d.
Arguments tallied V T {SV ST Bl} d.
Arguments no_more T {ST} d d'.
(** ** Votes cast directly *)

Section Direct.
Context {B : BoostMP}.

Lemma adjust_witness_Ok wso n x w w' : adjust_witness wso n x w = Ok w' ->
  Witness.votes w' = Witness.votes w + x /\ Witness.votes w' <= n /\ Witness.owner w' = Witness.owner w.
Proof. intros H. unfold adjust_witness in H. state_inv. asset_inv. cbn. split_and!; [done|lia|done]. Qed.

(** Whatever the votes, the next turn of a witness is never in the past. *)
Lemma adjust_witness_future wso n x w w' : Uint128.wf (Schedule.current_virtual_time wso) ->
  adjust_witness wso n x w = Ok w' ->
  Uint128.val (Schedule.current_virtual_time wso) <= Uint128.val (Witness.virtual_scheduled_time w').
Proof.
  intros Hwf H. unfold adjust_witness in H. state_inv. cbn. destruct (Uint128.ltb _ _) eqn:E.
  - apply Uint128.wf_bound in Hwf. change (Uint128.val Uint128.max_value) with (2 ^ 128 - 1). lia.
  - rewrite Uint128.ltb_spec in E by auto using Uint128.add_wf. lia.
Qed.

Lemma adjust_witness_vote_Ok t x d u d' : adjust_witness_vote t x d = Ok (u, d') ->
  exists w w' : Witness.t, get_opt d t = Some w /\ votes w' = votes w + x /\ d' = set_obj d t w'.
Proof.
  intros H. unfold adjust_witness_vote in H. step H. apply modify_Ok in H as (w & w' & Hw & Ha & ->).
  exists w, w'. apply adjust_witness_Ok in Ha as [Hv _]. done.
Qed.

Lemma adjust_platform_vote_Ok t x d u d' : adjust_streaming_platform_vote t x d = Ok (u, d') ->
  exists p p' : Platform.t, get_opt d t = Some p /\ votes p' = votes p + x /\ d' = set_obj d t p'.
Proof.
  intros H. unfold adjust_streaming_platform_vote in H. step H. apply modify_Ok in H as (p & p' & Hp & Ha & ->).
  exists p, p'. split; [done|]. split; [|done]. unfold adjust_platform in Ha. state_inv. asset_inv. done.
Qed.

Lemma counted_adjust {V T} `{Bl : Ballot V T} `{!Stored V, !Stored T} d d' e i x :
  (forall t, tally V d' t = tally V d t) ->
  (forall t w', get_opt (V:=T) d' t = Some w' -> exists w, get_opt d t = Some w /\ votes w' = votes w + rows V d i t * x) ->
  counted V T d e i x -> counted V T d' e 0 0.
Proof.
  intros Ht Hw Hc t w' Hw'. destruct (Hw t w' Hw') as (w & Hg & Hv). rewrite Ht, Hv, (Hc t w Hg). lia.
Qed.

Lemma adjust_witness_votes_Ok i x d u d' : adjust_witness_votes i x d = Ok (u, d') ->
  (forall X (g : database -> X), ignores (T:=Witness.t) g -> g d' = g d) /\
  (forall e, counted WitnessVote.t Witness.t d e i x -> counted WitnessVote.t Witness.t d' e 0 0) /\ no_more Witness.t d d'.
Proof.
  intros H. unfold adjust_witness_votes in H. step H. unfold witness_votes_of in H.
  destruct (adjust_all (V:=WitnessVote.t) (T:=Witness.t) x (fun t => adjust_witness_vote t x)
    (fun t => adjust_witness_vote_Ok t x) _ _ _ _ H) as (Hg & Ht & Hn).
  split; [exact Hg|]. split; [|split; [done|intros t [w' Hw']; destruct (Ht t w' Hw') as (w & Hw & _); by exists w]].
  intros e. apply counted_adjust.
  - intros t. by apply (Hg _ (fun d => tally WitnessVote.t d t)).
  - intros t w' Hw'. destruct (Ht t w' Hw') as (w & ? & Hv). exists w.
    split; [done|]. etrans; [exact Hv|]. do 2 f_equal. exact (count_rows (V:=WitnessVote.t) d i by_witness t).
Qed.

Lemma adjust_platform_votes_Ok i x d u d' : adjust_streaming_platform_votes i x d = Ok (u, d') ->
  (forall X (g : database -> X), ignores (T:=Platform.t) g -> g d' = g d) /\
  (forall e, counted PlatformVote.t Platform.t d e i x -> counted PlatformVote.t Platform.t d' e 0 0) /\ no_more Platform.t d d'.
Proof.
  intros H. unfold adjust_streaming_platform_votes in H. step H. unfold platform_votes_of in H.
  destruct (adjust_all (V:=PlatformVote.t) (T:=Platform.t) x (fun t => adjust_streaming_platform_vote t x)
    (fun t => adjust_platform_vote_Ok t x) _ _ _ _ H) as (Hg & Ht & Hn).
  split; [exact Hg|]. split; [|split; [done|intros t [w' Hw']; destruct (Ht t w' Hw') as (w & Hw & _); by exists w]].
  intros e. apply counted_adjust.
  - intros t. by apply (Hg _ (fun d => tally PlatformVote.t d t)).
  - intros t w' Hw'. destruct (Ht t w' Hw') as (w & ? & Hv). exists w.
    split; [done|]. etrans; [exact Hv|]. do 2 f_equal. exact (count_rows (V:=PlatformVote.t) d i by_platform t).
Qed.
End Direct.

(** ** Votes held for others *)

Definition held_for (d : database) (name : string) (k : nat) : Z :=
  total (fun a => if String.eqb (Account.proxy a) name then comp k a else 0) d.
(** What account [i] has not yet told its proxy. *)
Definition missing (d : database) (i : Z) (f : nat -> Z) (name : string) (k : nat) : Z :=
  from_option (fun a => if String.eqb (Account.proxy a) name then f k else 0) 0 (get_opt d i).

(** Names tell accounts apart and are not empty. *)
Record names_ok (d : database) : Prop := {
  names_unique i j a b : get_opt d i = Some a -> get_opt d j = Some b -> Account.name a = Account.name b -> i = j;
  names_nonempty i a : get_opt d i = Some a -> Account.name a <> ""
}.

Record proxies_ok (d : database) (e : string -> nat -> Z) (i : Z) (f : nat -> Z) : Prop := {
  proxied_length j a : get_opt d j = Some a -> length (Account.proxied_vsf_votes a) = BTCM_MAX_PROXY_RECURSION_DEPTH;
  proxied_sum j p k : get_opt d j = Some p -> (k < BTCM_MAX_PROXY_RECURSION_DEPTH)%nat ->
    comp (S k) p = held_for d (Account.name p) k - missing d i f (Account.name p) k - e (Account.name p) k
}.

(** [j] is the proxy of [i]. *)
Definition edge (d : database) (i j : Z) : Prop := exists a b,
  get_opt d i = Some a /\ get_opt d j = Some b /\ Account.name b = Account.proxy a.

(** Following proxies from every account ends. *)
Inductive rooted (d : database) : Z -> Prop :=
  | rooted_self i a : get_opt d i = Some a -> Account.proxy a = "" -> rooted d i
  | rooted_up i j : edge d i j -> rooted d j -> rooted d i.
Definition above (d : database) : Z -> Z -> Prop := tc (edge d).
Definition acyclic (d : database) : Prop := forall i a, get_opt (V:=Account.t) d i = Some a -> rooted d i.

Lemma edge_fun d i j k : names_ok d -> edge d i j -> edge d i k -> j = k.
Proof.
  intros Hn (a & b & Ha & Hb & Hab) (a' & b' & Ha' & Hb' & Hab'). rewrite Ha in Ha'. injection Ha' as <-.
  apply (names_unique d Hn j k b b'); congruence.
Qed.

Lemma edge_root d i j a : names_ok d -> edge d i j -> get_opt d i = Some a -> Account.proxy a <> "".
Proof.
  intros Hn (a' & b & Ha' & Hb & Hab) Ha. rewrite Ha in Ha'. injection Ha' as <-. rewrite <- Hab.
  by apply (names_nonempty d Hn j).
Qed.

Lemma above_inv d i k : above d i k -> exists j, edge d i j /\ (j = k \/ above d j k).
Proof. intros H. inversion H; subst; eauto. Qed.

Lemma rooted_not_above d i : names_ok d -> rooted d i -> ~ above d i i.
Proof.
  intros Hn Hr. induction Hr as [i a Ha Hp|i j He Hr IH]; intros Ha'.
  - apply above_inv in Ha' as (j & He & _). by apply (edge_root d i j a).
  - apply IH. apply above_inv in Ha' as (j' & He' & Hj). rewrite (edge_fun d i j' j) in Hj by done.
    destruct Hj as [->|Hj]; [by apply tc_once|]. by eapply tc_r.
Qed.

(** Only names and proxies matter for that. *)
Definition shape (a : Account.t) : string * string := (Account.name a, Account.proxy a).
Definition same_shape (d d' : database) : Prop := forall i, shape <$> get_opt d' i = shape <$> get_opt d i.

Lemma same_shape_refl d : same_shape d d.
Proof. done. Qed.
Lemma same_shape_trans d1 d2 d3 : same_shape d1 d2 -> same_shape d2 d3 -> same_shape d1 d3.
Proof. intros H1 H2 i. by rewrite H2. Qed.
Lemma same_shape_sym d d' : same_shape d d' -> same_shape d' d.
Proof. intros H i. by rewrite H. Qed.

Lemma same_shape_get d d' i a : same_shape d d' -> get_opt d i = Some a ->
  exists a', get_opt d' i = Some a' /\ shape a' = shape a.
Proof. intros H Ha. specialize (H i). rewrite Ha in H. apply fmap_Some in H as (a' & ? & ?). eauto. Qed.

Lemma shape_fields a a' : shape a' = shape a ->
  Account.name a' = Account.name a /\ Account.proxy a' = Account.proxy a.
Proof. unfold shape. intros [= E1 E2]. done. Qed.

Lemma edge_shape d d' i j : same_shape d d' -> edge d i j -> edge d' i j.
Proof.
  intros H (a & b & Ha & Hb & Hab). destruct (same_shape_get _ _ _ _ H Ha) as (a' & Ha' & Ea).
  destruct (same_shape_get _ _ _ _ H Hb) as (b' & Hb' & Eb). apply shape_fields in Ea as (_ & Ea).
  apply shape_fields in Eb as (Eb & _). exists a', b'. split_and!; [done|done|congruence].
Qed.

Lemma rooted_shape d d' i : same_shape d d' -> rooted d i -> rooted d' i.
Proof.
  intros H Hr. induction Hr as [i a Ha Hp|i j He Hr IH].
  - destruct (same_shape_get _ _ _ _ H Ha) as (a' & Ha' & (_ & E)%shape_fields).
    apply (rooted_self d' i a'); congruence.
  - apply (rooted_up d' i j); [by eapply edge_shape|done].
Qed.

Lemma acyclic_shape d d' : same_shape d d' -> acyclic d -> acyclic d'.
Proof.
  intros H Hc i a' Ha'. destruct (same_shape_get _ _ _ _ (same_shape_sym _ _ H) Ha') as (a & Ha & _).
  eapply rooted_shape; [done|]. by eapply Hc.
Qed.

Lemma names_shape d d' : same_shape d d' -> names_ok d -> names_ok d'.
Proof.
  intros H Hn. apply same_shape_sym in H. split.
  - intros i j a b Ha Hb E. destruct (same_shape_get _ _ _ _ H Ha) as (a0 & Ha0 & (Ea & _)%shape_fields).
    destruct (same_shape_get _ _ _ _ H Hb) as (b0 & Hb0 & (Eb & _)%shape_fields).
    apply (names_unique d Hn i j a0 b0); congruence.
  - intros i a Ha. destruct (same_shape_get _ _ _ _ H Ha) as (a0 & Ha0 & (Ea & _)%shape_fields).
    rewrite <- Ea. by apply (names_nonempty d Hn i).
Qed.

Lemma above_shape d d' i j : same_shape d d' -> above d i j -> above d' i j.
Proof.
  intros H. induction 1 as [i j He|i j k He _ IH]; [apply tc_once|eapply tc_l; [|exact IH]]; by eapply edge_shape.
Qed.

(** *** One step up *)

Definition with_proxied (l : list Z) (a : Account.t) : Account.t := a <| Account.proxied_vsf_votes := l |>.

Lemma proxies_carry d e i a q b l f f' : names_ok d -> proxies_ok d e i f ->
  get_opt d i = Some a -> get_opt d q = Some b -> Account.name b = Account.proxy a ->
  length l = BTCM_MAX_PROXY_RECURSION_DEPTH ->
  (forall k, (k < BTCM_MAX_PROXY_RECURSION_DEPTH)%nat -> nth k l 0 = nth k (Account.proxied_vsf_votes b) 0 + f k) ->
  f' 0%nat = 0 -> (forall k, f' (S k) = f k) ->
  proxies_ok (set_obj d q (with_proxied l b)) e q f'.
Proof.
  intros Hn Hok Ha Hb Hab Hlen Hl F0 FS.
  assert (Hc : forall k, (k < BTCM_MAX_PROXY_RECURSION_DEPTH)%nat -> comp k (with_proxied l b) = comp k b + f' k).
  { intros [|k] Hk; [cbn; lia|]. cbn. rewrite Hl, FS by lia. lia. }
  split.
  - intros j p. rewrite get_set_obj. destruct (decide (j = q)) as [->|]; [by intros [= <-]|apply (proxied_length d e i f Hok)].
  - intros j p k Hj Hk. assert (Hf : held_for (set_obj d q (with_proxied l b)) (Account.name p) k
      - missing (set_obj d q (with_proxied l b)) q f' (Account.name p) k = held_for d (Account.name p) k).
    { unfold held_for, missing. rewrite (total_set_obj _ d q b) by done. rewrite get_set_obj, decide_True by done. cbn [from_option].
      change (Account.proxy (with_proxied l b)) with (Account.proxy b).
      destruct (String.eqb _ _); [rewrite Hc by done|]; lia. }
    rewrite Hf. rewrite get_set_obj in Hj. destruct (decide (j = q)) as [->|Hn'].
    + injection Hj as <-. change (Account.name (with_proxied l b)) with (Account.name b).
      pose proof (proxied_sum d e i f Hok q b k Hb Hk) as E. unfold missing in E. rewrite Ha in E. cbn [from_option] in E.
      rewrite Hab, String.eqb_refl in E. cbn [comp] in *. cbn. rewrite Hl by done. rewrite Hab. lia.
    + rewrite (proxied_sum d e i f Hok j p k Hj Hk). unfold missing. rewrite Ha. cbn [from_option].
      destruct (String.eqb_spec (Account.proxy a) (Account.name p)) as [E|]; [|lia].
      exfalso. apply Hn'. apply (names_unique d Hn j q p b); congruence.
Qed.

(** *** The whole chain *)

Definition fsum (f : nat -> Z) : Z := f 0%nat + f 1%nat + f 2%nat + f 3%nat + f 4%nat.
(** The deltas of the code at a given depth. *)
Definition shifted (depth : nat) (delta : list Z) (k : nat) : Z :=
  if (k <? depth)%nat then 0 else nth (k - depth) delta 0.

Lemma four (l : list Z) : length l = BTCM_MAX_PROXY_RECURSION_DEPTH ->
  zsum l = nth 0 l 0 + nth 1 l 0 + nth 2 l 0 + nth 3 l 0.
Proof. destruct l as [|? [|? [|? [|? [|]]]]]; try done. intros _. unfold zsum. cbn. lia. Qed.

Lemma weight_with_proxied l b f : length l = BTCM_MAX_PROXY_RECURSION_DEPTH ->
  length (Account.proxied_vsf_votes b) = BTCM_MAX_PROXY_RECURSION_DEPTH ->
  (forall k, (k < BTCM_MAX_PROXY_RECURSION_DEPTH)%nat -> nth k l 0 = nth k (Account.proxied_vsf_votes b) 0 + f k) ->
  weight (with_proxied l b) - weight b = f 0%nat + f 1%nat + f 2%nat + f 3%nat.
Proof.
  intros H1 H2 H. unfold weight. cbn. rewrite !four by done. unfold BTCM_MAX_PROXY_RECURSION_DEPTH in H.
  rewrite !H by lia. lia.
Qed.

Lemma direct_shape {V T} `{Bl : Ballot V T} `{!Stored V} d d' : same_shape d d' -> tbl (V:=V) d' = tbl d ->
  direct V d -> direct V d'.
Proof.
  intros H E Hd j v. unfold get_opt at 1. rewrite E. intros Hj. destruct (Hd j v Hj) as (a & Ha & Hp).
  destruct (same_shape_get _ _ _ _ H Ha) as (a' & Ha' & (_ & Ep)%shape_fields). exists a'. split; [done|congruence].
Qed.

Lemma counted_carry {V T} `{Bl : Ballot V T} `{!Stored V, !Stored T} d e i a q b l f f' :
  tbl (V:=V) (set_obj d q (with_proxied l b)) = tbl d -> tbl (V:=T) (set_obj d q (with_proxied l b)) = tbl d ->
  direct V d -> get_opt d i = Some a -> Account.proxy a <> "" -> get_opt d q = Some b ->
  weight (with_proxied l b) - weight b = f' -> counted V T d e i f -> counted V T (set_obj d q (with_proxied l b)) e q f'.
Proof.
  intros EV ET Hd Ha Hp Hb Hw Hc t w. unfold get_opt. rewrite ET. intros Ht.
  rewrite (Hc t w Ht), (rows_none (T:=T) d i t a) by done. rewrite (tally_set_account d q b) by done.
  unfold rows, total. rewrite EV, Hw. lia.
Qed.

Record vote_frame {X} (g : database -> X) : Prop := {
  vf_accounts d t : g (d <| accounts := t |>) = g d;
  vf_witnesses d t : g (d <| witnesses := t |>) = g d;
  vf_platforms d t : g (d <| platforms := t |>) = g d
}.

Record adjusted (d d' : database) (i : Z) : Prop := {
  adj_rest j : with_proxied [] <$> get_opt d' j = with_proxied [] <$> get_opt d j;
  adj_above j : ~ above d i j -> get_opt (V:=Account.t) d' j = get_opt d j;
  adj_frame X (g : database -> X) : vote_frame g -> g d' = g d;
  adj_witnesses : no_more Witness.t d d';
  adj_platforms : no_more Platform.t d d'
}.

Lemma adj_shape d d' i : adjusted d d' i -> same_shape d d'.
Proof.
  intros H j. pose proof (f_equal (fmap shape) (adj_rest d d' i H j)) as E. by rewrite <- !option_fmap_compose in E.
Qed.

Definition zero : nat -> Z := fun _ => 0.

Section Chain.
Context {B : BoostMP}.

Lemma add_proxied_Ok i x a a' : add_proxied i x a = Ok a' ->
  exists v, Account.proxied_vsf_votes a !! i = Some v /\
    a' = with_proxied (<[i := v + x]> (Account.proxied_vsf_votes a)) a.
Proof. intros H. unfold add_proxied in H. state_inv. asset_inv. run_inv. eauto. Qed.

Lemma nth_insert (l : list Z) i x k : (i < length l)%nat -> nth k (<[i := x]> l) 0 = if (k =? i)%nat then x else nth k l 0.
Proof.
  intros Hi. rewrite !nth_lookup. destruct (Nat.eqb_spec k i) as [->|].
  - by rewrite list_lookup_insert_eq.
  - by rewrite list_lookup_insert_ne.
Qed.

Lemma add_levels n depth delta b b' : 
  foldM (fun a i => x ← nth_delta delta i; add_proxied (i + depth) x a) b (rev (seq 0 n)) = Ok b' ->
  exists l, b' = with_proxied l b /\ length l = length (Account.proxied_vsf_votes b) /\
    forall k, nth k l 0 = nth k (Account.proxied_vsf_votes b) 0 + (if (k <? n + depth)%nat then shifted depth delta k else 0).
Proof.
  revert b. induction n as [|n IH]; intros b H.
  - injection H as <-. exists (Account.proxied_vsf_votes b). split; [by destruct b|]. split; [done|]. intros k.
    unfold shifted. cbn [Nat.add]. destruct (k <? depth)%nat; lia.
  - rewrite seq_S, rev_app_distr in H. cbn [Nat.add] in H. apply bind_Ok in H as (b1 & H1 & H). apply bind_Ok in H1 as (x & Hx & H1).
    apply of_option_Ok in Hx. apply add_proxied_Ok in H1 as (v & Hv & ->). apply IH in H as (l & -> & Hlen & Hl).
    change (Account.proxied_vsf_votes (with_proxied ?x ?y)) with x in Hlen, Hl. rewrite length_insert in Hlen.
    exists l. split; [done|]. split; [done|]. intros k. rewrite Hl, nth_insert by (by eapply lookup_lt_Some).
    destruct (Nat.eqb_spec k (n + depth)) as [->|Hk].
    + destruct (Nat.ltb_spec (n + depth) (n + depth)); [lia|]. destruct (Nat.ltb_spec (n + depth) (S n + depth)); [|lia].
      unfold shifted. destruct (Nat.ltb_spec (n + depth) depth); [lia|].
      rewrite (nth_lookup_Some _ _ _ _ Hv). replace (n + depth - depth)%nat with n by lia.
      rewrite (nth_lookup_Some delta n 0 x) by done. lia.
    + destruct (Nat.ltb_spec k (n + depth)), (Nat.ltb_spec k (S n + depth)); lia.
Qed.

Lemma total_delta n delta t t' :
  foldM (fun t i => x ← nth_delta delta i; Safe.add t x) t (rev (seq 0 n)) = Ok t' ->
  t' = t + zsum (take n delta) /\ (n <= length delta)%nat.
Proof.
  revert t. induction n as [|n IH]; intros t H.
  - injection H as <-. change (zsum (take 0 delta)) with 0. split; lia.
  - rewrite seq_S, rev_app_distr in H. cbn [Nat.add] in H. apply bind_Ok in H as (t1 & H1 & H). apply bind_Ok in H1 as (x & Hx & H1).
    apply of_option_Ok in Hx. asset_inv. apply IH in H as [-> Hn]. apply lookup_lt_Some in Hx as Hl.
    rewrite (take_S_r _ _ x), zsum_app by done. change (zsum [x]) with (x + 0). split; lia.
Qed.

Lemma zero_ok d e i f : (forall k, (k < BTCM_MAX_PROXY_RECURSION_DEPTH)%nat -> f k = 0) ->
  proxies_ok d e i f -> proxies_ok d e 0 zero.
Proof.
  intros Hf H. split; [apply (proxied_length d e i f H)|]. intros j p k Hj Hk.
  rewrite (proxied_sum d e i f H j p k Hj Hk). unfold missing, zero. rewrite Hf by done.
  destruct (get_opt d i), (get_opt d 0); cbn; repeat destruct (String.eqb _ _); done.
Qed.

Lemma counted_zero {V T} `{Bl : Ballot V T} `{!Stored V, !Stored T} d e i f :
  (forall t, rows V d i t = 0) \/ f = 0 -> counted V T d e i f -> counted V T d e 0 0.
Proof. intros Hr H t w Hw. rewrite (H t w Hw). destruct Hr as [Hr| ->]; [rewrite Hr|]; lia. Qed.

(** Nothing is left when the chain ends in an account that votes. *)
Lemma settle_root d e i a f : names_ok d -> get_opt d i = Some a -> Account.proxy a = "" ->
  proxies_ok d e i f -> proxies_ok d e 0 zero.
Proof.
  intros Hn Ha Hp H. split; [apply (proxied_length d e i f H)|]. intros j p k Hj Hk.
  rewrite (proxied_sum d e i f H j p k Hj Hk). unfold missing, zero. rewrite Ha. cbn [from_option]. rewrite Hp.
  pose proof (names_nonempty d Hn j p Hj). destruct (String.eqb_spec "" (Account.name p)); [congruence|].
  destruct (get_opt d 0); cbn; [destruct (String.eqb _ _)|]; lia.
Qed.

Lemma adjusted_refl d i : adjusted d d i.
Proof. done. Qed.

Lemma set_proxied_shape d q b l : get_opt d q = Some b -> same_shape d (set_obj d q (with_proxied l b)).
Proof. intros Hb i. rewrite get_set_obj. destruct (decide (i = q)) as [->|]; [by rewrite Hb|done]. Qed.

(** The direct vote of an account without a proxy. *)
Lemma adjust_root_Ok i x d u d' :
  (_ ← adjust_witness_votes i x; adjust_streaming_platform_votes i x) d = Ok (u, d') ->
  adjusted d d' i /\ (forall j, get_opt (V:=Account.t) d' j = get_opt d j) /\
  (forall e, counted WitnessVote.t Witness.t d e i x -> counted WitnessVote.t Witness.t d' e 0 0) /\
  (forall e, counted PlatformVote.t Platform.t d e i x -> counted PlatformVote.t Platform.t d' e 0 0).
Proof.
  intros H. apply st_bind_Ok in H as (u1 & d1 & H1 & H).
  apply adjust_witness_votes_Ok in H1 as (Hg1 & Hc1 & Hm1). apply adjust_platform_votes_Ok in H as (Hg2 & Hc2 & Hm2).
  assert (forall j, get_opt (V:=Account.t) d' j = get_opt d j) as Hacc.
  { intros j. rewrite (Hg2 _ (fun d => get_opt (V:=Account.t) d j)) by done. by apply (Hg1 _ (fun d => get_opt (V:=Account.t) d j)). }
  split_and!.
  - split; [by intros j; rewrite Hacc|done| | |].
    + intros X g [Fa Fw Fp]. rewrite (Hg2 X g) by (intros f d0; apply Fp). apply Hg1. intros f d0. apply Fw.
    + rewrite (Hg2 _ (fun d' => no_more Witness.t d d')) by done. done.
    + rewrite <- (Hg1 _ (fun d => no_more Platform.t d d')) by done. done.
  - done.
  - intros e Hc. rewrite (Hg2 _ (fun d => counted WitnessVote.t Witness.t d e 0 0)) by done. auto.
  - intros e Hc. apply Hc2. rewrite (Hg1 _ (fun d => counted PlatformVote.t Platform.t d e i x)) by done. done.
Qed.

Lemma fsum_shifted room delta : (room <= BTCM_MAX_PROXY_RECURSION_DEPTH)%nat ->
  length delta = S BTCM_MAX_PROXY_RECURSION_DEPTH ->
  fsum (shifted (BTCM_MAX_PROXY_RECURSION_DEPTH - room) delta) = zsum (take (S room) delta).
Proof.
  intros Hr. destruct delta as [|? [|? [|? [|? [|? [|]]]]]]; try done. intros _.
  destruct room as [|[|[|[|[|]]]]]; cbv [BTCM_MAX_PROXY_RECURSION_DEPTH] in Hr; try lia;
    cbv [fsum shifted zsum BTCM_MAX_PROXY_RECURSION_DEPTH]; cbn; lia.
Qed.

(** Both outcomes of the accounting at one account. *)
Definition settled (d d' : database) (e : string -> nat -> Z) (i : Z) (f : nat -> Z) : Prop :=
  adjusted d d' i /\ proxies_ok d' e 0 zero /\
  (direct WitnessVote.t d -> forall e, counted WitnessVote.t Witness.t d e i (fsum f) -> counted WitnessVote.t Witness.t d' e 0 0) /\
  (direct PlatformVote.t d -> forall e, counted PlatformVote.t Platform.t d e i (fsum f) -> counted PlatformVote.t Platform.t d' e 0 0).

Lemma settled_root room e i a delta d u d' :
  let f := shifted (BTCM_MAX_PROXY_RECURSION_DEPTH - room) delta in
  (room <= BTCM_MAX_PROXY_RECURSION_DEPTH)%nat -> length delta = S BTCM_MAX_PROXY_RECURSION_DEPTH ->
  names_ok d -> proxies_ok d e i f -> get_opt d i = Some a -> Account.proxy a = "" ->
  (t ← lift (foldM (fun t i => x ← nth_delta delta i; Safe.add t x) 0 (rev (seq 0 (S room))));
   _ ← adjust_witness_votes i t; adjust_streaming_platform_votes i t) d = Ok (u, d') -> settled d d' e i f.
Proof.
  intros f Hr Hlen Hn Hok Ha Hp H. step H as t Ht. apply total_delta in Ht as [-> _].
  apply adjust_root_Ok in H as (Hadj & Hacc & Hw & Hpl). split; [done|]. split; [|split].
  - apply (settle_root d e i a f) in Hok; [|done..]. destruct Hok as [Hl Hs].
    assert (Ht : forall g, total (V:=Account.t) g d' = total g d).
    { intros g. unfold total. f_equal. apply map_eq. exact Hacc. }
    split; [intros j b; rewrite Hacc; apply Hl|]. intros j p k. rewrite Hacc. intros Hj Hk.
    unfold held_for, missing. rewrite Ht, Hacc. exact (Hs j p k Hj Hk).
  - intros _. unfold f. rewrite fsum_shifted by done. exact Hw.
  - intros _. unfold f. rewrite fsum_shifted by done. exact Hpl.
Qed.

Lemma adjusted_up d d' i q b l : names_ok d -> acyclic d -> edge d i q -> get_opt d q = Some b ->
  adjusted (set_obj d q (with_proxied l b)) d' q -> adjusted d d' i.
Proof.
  intros Hn Hc He Hb [Hs Ha Hf Hmw Hmp]. pose proof (set_proxied_shape d q b l Hb) as Hs0. split.
  - intros j. rewrite Hs, get_set_obj. destruct (decide (j = q)) as [->|]; [by rewrite Hb|done].
  - intros j Hj. rewrite Ha, get_set_obj, decide_False; [done| |].
    + intros ->. apply Hj. by apply tc_once.
    + intros Hab. apply Hj. eapply tc_l; [done|]. eapply above_shape; [|exact Hab]. by apply same_shape_sym.
  - intros X g Hg. rewrite (Hf X g Hg). apply (vf_accounts g Hg).
  - exact Hmw.
  - exact Hmp.
Qed.

Lemma adjust_deltas_Ok room : (room <= BTCM_MAX_PROXY_RECURSION_DEPTH)%nat -> forall e i delta d u d',
  let f := shifted (BTCM_MAX_PROXY_RECURSION_DEPTH - room) delta in
  length delta = S BTCM_MAX_PROXY_RECURSION_DEPTH -> names_ok d -> acyclic d -> proxies_ok d e i f ->
  adjust_proxied_deltas room i delta d = Ok (u, d') -> settled d d' e i f.
Proof.
  induction room as [|room IH]; intros Hroom e i delta d u d' f Hlen Hn Hcyc Hok H; cbn [adjust_proxied_deltas] in H;
    step H as a Ha; destruct (String.eqb_spec (Account.proxy a) BTCM_PROXY_TO_SELF_ACCOUNT) as [Hp|Hp]; cbn [negb] in H.
  - by eapply (settled_root 0).
  - apply st_ret_Ok in H as [_ ->]. split; [apply adjusted_refl|]. split; [|split].
    + eapply zero_ok; [|exact Hok]. intros k Hk. unfold f, shifted. rewrite Nat.sub_0_r.
      by apply Nat.ltb_lt in Hk as ->.
    + intros Hd e' Hc. eapply counted_zero; [|exact Hc]. left. intros t. by eapply rows_none.
    + intros Hd e' Hc. eapply counted_zero; [|exact Hc]. left. intros t. by eapply rows_none.
  - by eapply (settled_root (S room)).
  - step H as [q b] Hq. apply lookup_where_Some in Hq as [Hb Hname%String.eqb_eq]. cbn [fst snd] in *.
    apply st_bind_Ok in H as (u1 & d1 & H1 & H). apply modify_Ok in H1 as (b0 & b' & Hb0 & Hl & ->).
    rewrite Hb in Hb0. injection Hb0 as <-. apply add_levels in Hl as (l & -> & Hll & Hl).
    pose proof (proxied_length d e i f Hok q b Hb) as Hbl. rewrite Hbl in Hll.
    assert (Hlf : forall k, (k < BTCM_MAX_PROXY_RECURSION_DEPTH)%nat -> nth k l 0 = nth k (Account.proxied_vsf_votes b) 0 + f k).
    { intros k Hk. rewrite Hl. destruct (Nat.ltb_spec k (S room + (BTCM_MAX_PROXY_RECURSION_DEPTH - S room))); [done|lia]. }
    set (f' := shifted (BTCM_MAX_PROXY_RECURSION_DEPTH - room) delta).
    assert (F0 : f' 0%nat = 0).
    { unfold f', shifted. destruct (Nat.ltb_spec 0 (BTCM_MAX_PROXY_RECURSION_DEPTH - room)); [done|lia]. }
    assert (FS : forall k, f' (S k) = f k).
    { intros k. unfold f', f, shifted.
      replace (BTCM_MAX_PROXY_RECURSION_DEPTH - room)%nat with (S (BTCM_MAX_PROXY_RECURSION_DEPTH - S room)) by lia. done. }
    set (d1 := set_obj d q (with_proxied l b)) in *.
    assert (Hs : same_shape d d1) by by apply set_proxied_shape.
    assert (He : edge d i q) by (exists a, b; done).
    assert (Hw : weight (with_proxied l b) - weight b = fsum f').
    { rewrite (weight_with_proxied l b f) by done. unfold fsum. rewrite F0, !FS. lia. }
    destruct (IH ltac:(lia) e q delta d1 u d' Hlen) as (Hadj & Hpr & Hcw & Hcp).
    + by eapply names_shape.
    + by eapply acyclic_shape.
    + by apply (proxies_carry d e i a q b l f).
    + done.
    + split; [by eapply adjusted_up|]. split; [done|]. split.
      * intros Hd e' Hc. apply Hcw; [by eapply direct_shape|]. by eapply (counted_carry d e' i a).
      * intros Hd e' Hc. apply Hcp; [by eapply direct_shape|]. by eapply (counted_carry d e' i a).
Qed.
(** *** One delta or one for each level *)

Definition small (d : database) : Prop := forall i a, get_opt d i = Some a ->
  Forall is_int64 (Account.proxied_vsf_votes a) /\ length (Account.proxied_vsf_votes a) = BTCM_MAX_PROXY_RECURSION_DEPTH.

Lemma nth_zeros x r : (S r <= BTCM_MAX_PROXY_RECURSION_DEPTH)%nat -> nth_delta (x :: repeat 0 BTCM_MAX_PROXY_RECURSION_DEPTH) (S r) = Ok 0.
Proof. intros Hr. unfold BTCM_MAX_PROXY_RECURSION_DEPTH in *. destruct r as [|[|[|[|]]]]; [done..|lia]. Qed.

Lemma zeros_proxied r depth b x : (r + depth < BTCM_MAX_PROXY_RECURSION_DEPTH)%nat ->
  Forall is_int64 (Account.proxied_vsf_votes b) -> length (Account.proxied_vsf_votes b) = BTCM_MAX_PROXY_RECURSION_DEPTH ->
  foldM (fun a i => y ← nth_delta (x :: repeat 0 BTCM_MAX_PROXY_RECURSION_DEPTH) i; add_proxied (i + depth) y a) b
    (rev (seq 1 r)) = Ok b.
Proof.
  intros Hr Hs Hl. induction r as [|r IH]; [done|]. rewrite seq_S, rev_app_distr. cbn [rev app Nat.add foldM].
  rewrite nth_zeros by lia. cbn [mbind result_bind]. unfold add_proxied.
  destruct (lookup_lt_is_Some_2 (Account.proxied_vsf_votes b) (S r + depth)) as [v Hv]; [lia|].
  cbn [Nat.add] in Hv. rewrite Hv. cbn [of_option mbind result_bind].
  pose proof Hs as Hi. rewrite Forall_lookup in Hi. specialize (Hi _ _ Hv). rewrite Safe.add_fits, Z.add_0_r by (rewrite Z.add_0_r; done).
  cbn [mbind result_bind].
  replace (b <| Account.proxied_vsf_votes ::= <[S (r + depth) := v]> |>) with b; [apply IH; lia|].
  destruct b. unfold setter. cbn in *. f_equal. by rewrite list_insert_id.
Qed.

Lemma zeros_total r x : (r <= BTCM_MAX_PROXY_RECURSION_DEPTH)%nat ->
  foldM (fun t i => y ← nth_delta (x :: repeat 0 BTCM_MAX_PROXY_RECURSION_DEPTH) i; Safe.add t y) 0 (rev (seq 1 r)) = Ok 0.
Proof.
  intros Hr. induction r as [|r IH]; [done|]. rewrite seq_S, rev_app_distr. cbn [rev app Nat.add foldM].
  rewrite nth_zeros by lia. cbn [mbind result_bind]. apply IH. lia.
Qed.

Lemma small_set d q b i v x s : small d -> get_opt d q = Some b -> Account.proxied_vsf_votes b !! i = Some v ->
  is_int64 x -> Safe.add v x = Ok s ->
  small (set_obj d q (b <| Account.proxied_vsf_votes ::= <[i := s]> |>)).
Proof.
  intros Hd Hb Hv Hx Hs j a. rewrite get_set_obj. destruct (decide (j = q)) as [->|]; [|apply Hd].
  intros [= <-]. destruct (Hd q b Hb) as [Hf Hl].
  change (Account.proxied_vsf_votes _) with (<[i := s]> (Account.proxied_vsf_votes b)). split; [|by rewrite length_insert].
  pose proof (proj1 (Forall_lookup _ _) Hf _ _ Hv) as Hvi. apply Forall_insert; [done|]. exact (Safe.add_int64 _ _ _ Hvi Hx Hs).
Qed.

Lemma rev_seq_S n : rev (seq 0 (S n)) = rev (seq 1 n) ++ [0%nat].
Proof. done. Qed.

Lemma scalar_array room x : is_int64 x -> (room <= BTCM_MAX_PROXY_RECURSION_DEPTH)%nat -> forall i d, small d ->
  adjust_proxied_delta room i x d = adjust_proxied_deltas room i (x :: repeat 0 BTCM_MAX_PROXY_RECURSION_DEPTH) d.
Proof.
  intros Hx. assert (Htot : forall r, (r <= BTCM_MAX_PROXY_RECURSION_DEPTH)%nat -> foldM (fun t i =>
      y ← nth_delta (x :: repeat 0 BTCM_MAX_PROXY_RECURSION_DEPTH) i; Safe.add t y) 0 (rev (seq 0 (S r))) = Ok x).
  { intros r Hr. rewrite rev_seq_S, foldM_app, zeros_total by done. cbn. by rewrite Safe.add_fits. }
  induction room as [|room IH]; intros Hr i d Hd; cbn [adjust_proxied_delta adjust_proxied_deltas];
    (apply st_bind_ext; [|done]); intros a d0 Ha; exists a; split; [done| |done|]; apply get_Ok in Ha as [Ha ->].
  - by rewrite Htot.
  - destruct (negb _); [|by rewrite Htot].
    apply st_bind_ext; [|done]. intros [q b] d0 Hq. exists (q, b). split; [done|].
    apply get_account_Ok in Hq as [[Hb _]%lookup_where_Some ->]. cbn [fst].
    destruct (Hd q b Hb) as [Hf Hl].
    assert (Hstep : foldM (fun a i => y ← nth_delta (x :: repeat 0 BTCM_MAX_PROXY_RECURSION_DEPTH) i;
        add_proxied (i + (BTCM_MAX_PROXY_RECURSION_DEPTH - S room)) y a) b (rev (seq 0 (S room)))
      = add_proxied (BTCM_MAX_PROXY_RECURSION_DEPTH - S room) x b).
    { rewrite rev_seq_S, foldM_app, zeros_proxied by (done || lia). cbn. by destruct (add_proxied _ _ _). }
    apply st_bind_ext.
    + intros [] d1 H1. exists tt. pose proof H1 as (b0 & b' & Hb0 & Hadd & ->)%modify_Ok.
      rewrite Hb in Hb0. injection Hb0 as <-. split; [apply modify_Ok; exists b, b'; by rewrite Hstep|].
      apply IH; [lia|]. unfold add_proxied in Hadd. run_inv. by eapply small_set.
    + intros e. rewrite !(obj_modify_eq _ _ _ b Hb). by rewrite Hstep.
Qed.

(** The two forms of [adjust_proxied_witness_votes] agree: propagating one delta is
    propagating that delta for the account itself and none for the votes it holds. *)
Lemma proxied_forms_agree i x d (Hx : is_int64 x) (Hd : small d) :
  adjust_proxied_witness_votes i x d
  = adjust_proxied_witness_votes_array i (x :: repeat 0 BTCM_MAX_PROXY_RECURSION_DEPTH) d.
Proof.
  apply (scalar_array BTCM_MAX_PROXY_RECURSION_DEPTH); done.
Qed.
(** ** The books of the whole chain *)

Definition none : string -> nat -> Z := fun _ _ => 0.
Record books (d : database) : Prop := {
  bk_names : names_ok d;
  bk_acyclic : acyclic d;
  bk_proxies : proxies_ok d none 0 zero;
  bk_tallied : tallied WitnessVote.t Witness.t d
}.
(** The same for streaming platforms. *)
Definition platform_books (d : database) : Prop := tallied PlatformVote.t Platform.t d.

(** What the books say of one account. *)
Definition core (a : Account.t) : (string * string * asset) * list Z :=
  (shape a, Account.vesting_shares a, Account.proxied_vsf_votes a).
Definition same_core (d d' : database) : Prop := forall i, core <$> get_opt d' i = core <$> get_opt d i.

Lemma same_core_shape d d' : same_core d d' -> same_shape d d'.
Proof. intros H i. pose proof (f_equal (fmap (fun c => c.1.1)) (H i)) as E. by rewrite <- !option_fmap_compose in E. Qed.

Lemma same_core_get d d' i a : same_core d d' -> get_opt d' i = Some a -> exists a0, get_opt d i = Some a0 /\ core a = core a0.
Proof. intros H Ha. specialize (H i). rewrite Ha in H. symmetry in H. apply fmap_Some in H as (a0 & ? & ?). eauto. Qed.

Lemma core_set d i a a' : get_opt d i = Some a -> core a' = core a -> same_core d (set_obj d i a').
Proof. intros Ha E j. rewrite get_set_obj. destruct (decide (j = i)) as [->|]; [|done]. rewrite Ha. cbn. by rewrite E. Qed.

Lemma core_set_after d d1 i a a' : same_core d d1 -> get_opt d i = Some a -> core a' = core a ->
  same_core d (set_obj d1 i a').
Proof.
  intros H Ha E j. rewrite get_set_obj. destruct (decide (j = i)) as [->|]; [|apply H]. rewrite Ha. cbn. by rewrite E.
Qed.

Lemma total_core (f : Account.t -> Z) (g : (string * string * asset) * list Z -> Z) d d' :
  (forall a, f a = g (core a)) -> same_core d d' -> total f d' = total f d.
Proof.
  intros Hf H. unfold total.
  assert (Hg : forall m : gmap Z Account.t, map_sum f m = map_sum g (core <$> m)).
  { intros m. rewrite map_sum_fmap. apply map_sum_ext. auto. }
  rewrite !Hg. f_equal. apply map_eq. intros i. rewrite !lookup_fmap. apply (H i).
Qed.

Definition comp_core (k : nat) (c : (string * string * asset) * list Z) : Z :=
  match k with O => amount c.1.2 | S k => nth k c.2 0 end.

Lemma held_core d d' n k : same_core d d' -> held_for d' n k = held_for d n k.
Proof.
  apply (total_core _ (fun c => if String.eqb c.1.1.2 n then comp_core k c else 0)). intros a. by destruct k.
Qed.

Lemma proxies_core d d' e i f : same_core d d' -> proxies_ok d e i f -> proxies_ok d' e i f.
Proof.
  intros H Hok. split.
  - intros j a Ha. destruct (same_core_get _ _ _ _ H Ha) as (a0 & Ha0 & E).
    rewrite (f_equal snd E : Account.proxied_vsf_votes a = _). by apply (proxied_length d e i f Hok j).
  - intros j p k Hj Hk. destruct (same_core_get _ _ _ _ H Hj) as (p0 & Hp0 & E).
    rewrite (f_equal (fun c => c.1.1.1) E : Account.name p = _), (held_core d d') by done.
    rewrite (f_equal (comp_core (S k)) E : comp (S k) p = _). change (comp_core (S k) (core p0)) with (comp (S k) p0).
    rewrite (proxied_sum d e i f Hok j p0 k Hp0 Hk). f_equal. f_equal. unfold missing. specialize (H i).
    destruct (get_opt d i) as [a|], (get_opt d' i) as [a'|]; try done. injection H as H1 H2 H3 H4. cbn. by rewrite H2.
Qed.

Lemma weight_core d d' i : same_core d d' -> weight_of d' i = weight_of d i.
Proof.
  intros H. unfold weight_of. specialize (H i).
  destruct (get_opt d i) as [a|], (get_opt d' i) as [a'|]; try done. injection H as H1 H2 H3 H4. cbn. unfold weight. by rewrite H3, H4.
Qed.

Lemma tally_core {V T} `{Bl : Ballot V T} `{!Stored V} d d' t : same_core d d' -> tbl (V:=V) d' = tbl d ->
  tally V d' t = tally V d t.
Proof.
  intros H E. unfold tally, total. rewrite E. apply map_sum_ext. intros j v _. by rewrite (weight_core d d').
Qed.

Lemma counted_core {V T} `{Bl : Ballot V T} `{!Stored V, !Stored T} d d' e i f : same_core d d' ->
  tbl (V:=V) d' = tbl d -> tbl (V:=T) d' = tbl d -> counted V T d e i f -> counted V T d' e i f.
Proof.
  intros H EV ET Hc t w. unfold get_opt. rewrite ET. intros Hw. rewrite (Hc t w Hw), (tally_core d d') by done.
  unfold rows, total. by rewrite EV.
Qed.

(** *** One vote more, one vote less *)

(** The tables of accounts, votes and candidates are three. *)
Class BallotOk (V T : Type) `{SV : Stored V, ST : Stored T} : Prop := {
  accounts_votes f d : tbl (V:=Account.t) (upd_tbl (V:=V) f d) = tbl d;
  accounts_candidates f d : tbl (V:=Account.t) (upd_tbl (V:=T) f d) = tbl d;
  votes_accounts f d : tbl (V:=V) (upd_tbl (V:=Account.t) f d) = tbl d;
  votes_candidates f d : tbl (V:=V) (upd_tbl (V:=T) f d) = tbl d;
  candidates_accounts f d : tbl (V:=T) (upd_tbl (V:=Account.t) f d) = tbl d;
  candidates_votes f d : tbl (V:=T) (upd_tbl (V:=V) f d) = tbl d
}.
#[local] Hint Extern 0 (BallotOk _ _) => (constructor; reflexivity) : typeclass_instances.

Lemma same_core_tbl d d' : tbl (V:=Account.t) d' = tbl d -> same_core d d'.
Proof. intros E i. unfold get_opt. by rewrite E. Qed.

Section OneVote.
Context {V T : Type} {SV : Stored V} {SVok : StoredOk V} {ST : Stored T} {STok : StoredOk T} {Bl : Ballot V T} {BlOk : BallotOk V T}.

Lemma tally_create d (v : V) t : Supply.fresh V d ->
  tally V (upd_tbl (fun tb => next_object tb v) d) t
  = tally V d t + (if target v =? t then weight_of d (voter v) else 0).
Proof.
  intros Hf. unfold tally. rewrite (total_create _ d v Hf).
  assert (E : tbl (V:=Account.t) (upd_tbl (V:=V) (fun tb => next_object tb v) d) = tbl d) by apply accounts_votes.
  rewrite (weight_core d) by by apply same_core_tbl. rewrite Z.add_comm. f_equal. apply map_sum_ext. intros j w _.
  by rewrite (weight_core d) by by apply same_core_tbl.
Qed.

Lemma tally_remove d j (v : V) t : get_opt d j = Some v ->
  tally V (upd_tbl (fun tb : table V => tb <| indices ::= delete j |>) d) t
  = tally V d t - (if target v =? t then weight_of d (voter v) else 0).
Proof.
  intros Hj. unfold tally. rewrite (total_remove _ d j v Hj).
  assert (E : tbl (V:=Account.t) (upd_tbl (V:=V) (fun tb : table V => tb <| indices ::= delete j |>) d) = tbl d)
    by apply accounts_votes.
  rewrite (weight_core d) by by apply same_core_tbl. f_equal. apply map_sum_ext. intros k w _.
  by rewrite (weight_core d) by by apply same_core_tbl.
Qed.

Lemma tally_set_candidate d t (w : T) t' : tally V (set_obj d t w) t' = tally V d t'.
Proof. apply tally_core; [apply same_core_tbl, accounts_candidates|apply votes_candidates]. Qed.

(** A vote is recorded and its weight added, in whatever order. *)
Lemma counted_vote d d' t (w w' : T) (i x sign : Z) :
  (forall t', tally V d' t' = tally V d t' + (if t =? t' then sign * x else 0)) ->
  (forall t', get_opt (V:=T) d' t' = if decide (t' = t) then Some w' else get_opt d t') ->
  get_opt d t = Some w -> votes w' = votes w + sign * x ->
  counted V T d nowhere 0 0 -> counted V T d' nowhere 0 0.
Proof.
  intros Ht Hg Hw Hv Hc t' w2. rewrite Hg, Ht. unfold nowhere. destruct (decide (t' = t)) as [->|Hn].
  - intros [= <-]. rewrite Z.eqb_refl, Hv, (Hc t w Hw). unfold nowhere. lia.
  - intros H2. rewrite (Hc t' w2 H2). unfold nowhere. destruct (Z.eqb_spec t t'); [congruence|]. lia.
Qed.

Lemma direct_create d (v : V) a : direct V d -> get_opt d (voter v) = Some a -> Account.proxy a = "" ->
  direct V (upd_tbl (fun tb => next_object tb v) d).
Proof.
  intros Hd Ha Hp j w. unfold get_opt at 1. rewrite tbl_upd. cbn.
  assert (E : tbl (V:=Account.t) (upd_tbl (V:=V) (fun tb => next_object tb v) d) = tbl d) by apply accounts_votes.
  unfold get_opt. rewrite E. intros [[<- <-]|[_ Hj]]%lookup_insert_Some; [by exists a|]. by apply (Hd j w).
Qed.

Lemma direct_remove d j : direct V d -> direct V (upd_tbl (fun tb : table V => tb <| indices ::= delete j |>) d).
Proof.
  intros Hd k w. unfold get_opt at 1. rewrite tbl_upd. cbn.
  assert (E : tbl (V:=Account.t) (upd_tbl (V:=V) (fun tb : table V => tb <| indices ::= delete j |>) d) = tbl d) by apply accounts_votes.
  unfold get_opt. rewrite E. intros [_ Hk]%lookup_delete_Some. by apply (Hd k w).
Qed.

Lemma tallied_core d d' : same_core d d' -> tbl (V:=V) d' = tbl d -> tbl (V:=T) d' = tbl d -> tallied V T d -> tallied V T d'.
Proof.
  intros H EV ET (Hd & Hc & Hi & Hb & Hit). pose proof (same_core_shape _ _ H) as Hs.
  split_and!; [by eapply direct_shape|by eapply counted_core|..]; unfold Supply.ids_below, bounded, get_opt;
    by rewrite ?EV, ?ET.
Qed.

Lemma tallied_approve d t (w w' : T) (v : V) a : tallied V T d -> get_opt d (voter v) = Some a -> Account.proxy a = "" ->
  target v = t -> get_opt d t = Some w -> votes w' = votes w + weight a ->
  tallied V T (set_obj (upd_tbl (fun tb => next_object tb v) d) t w').
Proof.
  intros (Hd & Hc & Hi & Hb & Hit) Ha Hp <- Hw Hv. set (d1 := upd_tbl _ d).
  assert (E1 : tbl (V:=Account.t) d1 = tbl d) by apply accounts_votes.
  assert (E2 : same_core d1 (set_obj d1 (target v) w')) by (apply same_core_tbl, accounts_candidates).
  assert (E3 : tbl (V:=V) (set_obj d1 (target v) w') = tbl d1) by apply votes_candidates.
  assert (E4 : tbl (V:=T) d1 = tbl d) by apply candidates_votes.
  split_and!.
  - eapply direct_shape; [by apply same_core_shape|done|]. by eapply direct_create.
  - apply (counted_vote d _ (target v) w w' 0 (weight a) 1); [|intros t'; rewrite get_set_obj; unfold get_opt; by rewrite E4|done|lia|done].
    intros t'. rewrite tally_set_candidate. unfold d1. rewrite tally_create by by apply Supply.ids_below_fresh.
    unfold weight_of. rewrite Ha. cbn [from_option]. by rewrite Z.mul_1_l.
  - unfold Supply.ids_below, get_opt. rewrite E3. by apply Supply.ids_below_create.
  - assert (EN : next_id (tbl (V:=T) (set_obj d1 (target v) w')) = next_id (tbl (V:=T) d))
      by (unfold set_obj; rewrite tbl_upd; cbn; by rewrite E4).
    intros j u. rewrite EN. unfold get_opt. rewrite E3. unfold d1. rewrite tbl_upd. cbn.
    intros [[_ <-]|[_ Hj]]%lookup_insert_Some; [apply Hit; by exists w|by apply (Hb j)].
  - apply Supply.ids_below_set; unfold Supply.ids_below, get_opt; rewrite E4; [by exists w|exact Hit].
Qed.

Lemma tallied_reject d t j (w w' : T) (v : V) a a' : tallied V T d -> get_opt d (voter v) = Some a -> core a' = core a ->
  get_opt d j = Some v -> target v = t -> get_opt d t = Some w -> votes w' = votes w - weight a ->
  tallied V T (upd_tbl (fun tb : table V => tb <| indices ::= delete j |>) (set_obj (set_obj d t w') (voter v) a')).
Proof.
  intros (Hd & Hc & Hi & Hb & Hit) Ha Hcore Hj <- Hw Hv. set (d1 := set_obj d (target v) w').
  assert (E1 : tbl (V:=Account.t) d1 = tbl d) by apply accounts_candidates.
  assert (Ha1 : get_opt d1 (voter v) = Some a) by (unfold get_opt; by rewrite E1).
  set (d2 := set_obj d1 (voter v) a'). assert (C2 : same_core d1 d2) by by eapply core_set.
  assert (C : same_core d d2) by (intros i; rewrite C2; unfold get_opt; by rewrite E1).
  assert (EV : tbl (V:=V) d2 = tbl d) by (etrans; [apply votes_accounts|apply votes_candidates]).
  assert (ET : tbl (V:=T) d2 = tbl d1) by apply candidates_accounts.
  assert (Hj2 : get_opt d2 j = Some v) by (unfold get_opt; by rewrite EV).
  split_and!.
  - apply direct_remove. eapply direct_shape; [by apply same_core_shape|done|done].
  - apply (counted_vote d _ (target v) w w' 0 (weight a) (-1)); [| |done|lia|done].
    + intros t'. rewrite (tally_remove d2 j v) by done. rewrite (tally_core d d2) by done.
      rewrite (weight_core d d2) by done. unfold weight_of. rewrite Ha. cbn [from_option]. destruct (_ =? t'); lia.
    + intros t'. unfold get_opt at 1. rewrite candidates_votes, ET. apply (get_set_obj (V:=T)).
  - apply Supply.ids_below_remove. unfold Supply.ids_below, get_opt. rewrite EV. exact Hi.
  - intros k u. unfold get_opt. rewrite tbl_upd, EV, candidates_votes, ET. unfold d1, set_obj. rewrite tbl_upd. cbn.
    intros [_ Hk]%lookup_delete_Some. by apply (Hb k).
  - unfold Supply.ids_below, get_opt. rewrite candidates_votes, ET. apply Supply.ids_below_set; [by exists w|done].
Qed.

(** Clearing the votes of an account. *)
Lemma remove_all (l : list (Z * V)) : forall d u d', for_each l (fun kv => remove (V:=V) kv.1) d = Ok (u, d') ->
  (forall j, get_opt (V:=V) d' j = if bool_decide (j ∈ l.*1) then None else get_opt d j) /\
  next_id (tbl (V:=V) d') = next_id (tbl (V:=V) d) /\
  (forall X (g : database -> X), ignores (T:=V) g -> g d' = g d).
Proof.
  induction l as [|[i v] l IH]; intros d u d' H.
  - apply st_ret_Ok in H as [_ ->]. done.
  - apply st_bind_Ok in H as (u1 & d1 & H1 & H). apply remove_Ok in H1 as ->. apply IH in H as (Hg & Hn & Hf).
    split_and!.
    + intros j. rewrite Hg. unfold get_opt. rewrite tbl_upd. cbn. rewrite lookup_delete.
      case_bool_decide as H1; case_bool_decide as H2; try done.
      * exfalso. apply H2. by right.
      * apply elem_of_cons in H2 as [->|]; [by rewrite decide_True|done].
      * rewrite decide_False; [done|]. intros ->. apply H2. by left.
    + rewrite Hn, tbl_upd. done.
    + intros X g Hi. rewrite (Hf X g Hi). apply Hi.
Qed.

Lemma clear_all (le : Z * V -> Z * V -> Prop) `{!RelDecision le} d u d' i :
  for_each (List.filter (fun kv => voter kv.2 =? i) (in_order le d)) (fun kv => remove (V:=V) kv.1) d = Ok (u, d') ->
  indices (tbl (V:=V) d') = filter (fun kv => negb (voter kv.2 =? i) = true) (indices (tbl (V:=V) d)) /\
  next_id (tbl (V:=V) d') = next_id (tbl (V:=V) d) /\
  (forall X (g : database -> X), ignores (T:=V) g -> g d' = g d).
Proof.
  intros H. apply remove_all in H as (Hg & Hn & Hf). split; [|done]. apply map_eq. intros j.
  etrans; [apply Hg|]. unfold get_opt.
  assert (Hl : forall k v, (k, v) ∈ List.filter (fun kv => voter kv.2 =? i) (in_order le d)
    <-> indices (tbl (V:=V) d) !! k = Some v /\ voter v = i).
  { intros k v. rewrite list_elem_of_In, filter_In, <- list_elem_of_In. unfold in_order.
    rewrite merge_sort_Permutation, elem_of_map_to_list. cbn. by rewrite Z.eqb_eq. }
  destruct (indices (tbl (V:=V) d) !! j) as [v|] eqn:Ej.
  - destruct (Z.eqb_spec (voter v) i) as [E|E].
    + rewrite bool_decide_true. 2:{ apply list_elem_of_fmap. exists (j, v). split; [done|]. by apply Hl. }
      symmetry. apply map_lookup_filter_None. right. intros w. rewrite Ej. intros [= <-]. cbn. rewrite E, Z.eqb_refl. done.
    + rewrite bool_decide_false. 2:{ intros ([k w] & -> & [Hk Hw]%Hl)%list_elem_of_fmap. cbn in Ej. congruence. }
      symmetry. apply map_lookup_filter_Some. split; [done|]. cbn. by apply Z.eqb_neq in E as ->.
  - case_bool_decide; [|by rewrite map_lookup_filter, Ej]. by rewrite map_lookup_filter, Ej.
Qed.

(** The votes of [i] are gone: its weight is gone from the tallies. *)
Lemma tallied_cleared d d' i f x : same_core d d' ->
  indices (tbl (V:=V) d') = filter (fun kv => negb (voter kv.2 =? i) = true) (indices (tbl (V:=V) d)) ->
  next_id (tbl (V:=V) d') = next_id (tbl (V:=V) d) -> tbl (V:=T) d' = tbl d ->
  weight_of d i = f -> direct V d -> Supply.ids_below V d -> counted V T d nowhere i f ->
  direct V d' /\ counted V T d' nowhere i x /\ Supply.ids_below V d' /\
  (forall j v, get_opt (V:=V) d' j = Some v -> voter v <> i).
Proof.
  intros H EV En ET Hw Hd Hi Hc.
  assert (Hsub : forall j v, get_opt (V:=V) d' j = Some v -> get_opt d j = Some v /\ voter v <> i).
  { unfold get_opt. rewrite EV. intros j v [Hj Hv]%map_lookup_filter_Some. split; [done|]. cbn in Hv. lia. }
  assert (Hr : forall t, rows V d' i t = 0).
  { intros t. apply map_sum_zero. intros j v Hj. destruct (Hsub j v Hj) as [_ Hv].
    apply Z.eqb_neq in Hv as ->. by rewrite andb_false_r. }
  split_and!.
  - intros j v [Hj _]%Hsub. destruct (Hd j v Hj) as (a & Ha & Hp).
    destruct (same_shape_get _ _ _ _ (same_core_shape _ _ H) Ha) as (a' & Ha' & (_ & E)%shape_fields).
    exists a'. split; [done|congruence].
  - intros t w. unfold get_opt. rewrite ET. intros Hg. rewrite (Hc t w Hg), Hr. unfold nowhere.
    enough (tally V d' t = tally V d t - rows V d i t * f) by lia.
    unfold tally, rows, total. rewrite EV, (map_sum_filter (fun v => negb (voter v =? i))).
    rewrite (Z.mul_comm _ f), <- map_sum_scale. rewrite <- Z.add_opp_r, <- (Z.mul_1_l (map_sum _ _)), Z.mul_comm.
    rewrite Z.mul_1_r. replace (- map_sum (fun v => f * (if (target v =? t) && (voter v =? i) then 1 else 0)) (indices (tbl (V:=V) d)))
      with (map_sum (fun v => -1 * (f * (if (target v =? t) && (voter v =? i) then 1 else 0))) (indices (tbl (V:=V) d)))
      by (rewrite map_sum_scale; lia).
    rewrite <- map_sum_add. apply map_sum_ext. intros j v Hj. rewrite (weight_core d d') by done.
    destruct (Z.eqb_spec (voter v) i) as [E|E]; cbn [negb]; destruct (target v =? t); cbn [andb]; try lia. rewrite E. lia.
  - intros j [v Hj]. rewrite En. apply Hi. exists v. by apply Hsub.
  - intros j v Hj. by apply (Hsub j v Hj).
Qed.
End OneVote.

Lemma witness_vote_weight_Ok a w : witness_vote_weight a = Ok w -> w = weight a.
Proof. intros H. by apply Safe.accumulate_Ok in H. Qed.

Lemma get_witness_Ok n d kv d' : get_witness n d = Ok (kv, d') <->
  lookup_where (fun w => String.eqb (Witness.owner w) n) d = Some kv /\ d' = d.
Proof. apply get_where_Ok. Qed.
Lemma get_platform_Ok n d kv d' : get_streaming_platform n d = Ok (kv, d') <->
  lookup_where (fun w => String.eqb (Platform.owner w) n) d = Some kv /\ d' = d.
Proof. apply get_where_Ok. Qed.

Lemma books_tallied d : books d -> tallied WitnessVote.t Witness.t d.
Proof. apply bk_tallied. Qed.

Lemma books_intro d d' : same_core d d' -> tallied WitnessVote.t Witness.t d' -> books d -> books d'.
Proof.
  intros H Ht [Hn Ha Hp _]. pose proof (same_core_shape _ _ H) as Hs. split; try done.
  - by eapply names_shape.
  - by eapply acyclic_shape.
  - by eapply proxies_core.
Qed.

(** Casting or withdrawing a vote changes one tally, and one counter of the voter. *)
Lemma witness_vote_run o d d' : account_witness_vote_apply o d = Ok (tt, d') ->
  exists i a t w w' n, get_opt (V:=Account.t) d i = Some a /\ Account.proxy a = "" /\
    get_opt (V:=Witness.t) d t = Some w /\
    let a' := a <| Account.witnesses_voted_for := n |> in
    (wv_approve o = true /\ Witness.votes w' = Witness.votes w + weight a /\
       d' = set_obj (set_obj (upd_tbl (fun tb => next_object tb (WitnessVote.Make t i)) d) t w') i a')
    \/ (wv_approve o = false /\ Witness.votes w' = Witness.votes w - weight a /\
       exists j v, get_opt (V:=WitnessVote.t) d j = Some v /\ WitnessVote.account v = i /\ WitnessVote.witness v = t /\
       d' = upd_tbl (fun tb : table WitnessVote.t => tb <| indices ::= delete j |>) (set_obj (set_obj d t w') i a')).
Proof.
  intros H. unfold account_witness_vote_apply in H. step H as [i a] Ha. step H as ? Hp.
  apply lookup_where_Some in Ha as [Ha _]. cbn [fst snd] in *. apply String.eqb_eq in Hp.
  apply st_bind_Ok in H as ([t w] & ? & Hw & H). apply get_witness_Ok in Hw as [[Hw _]%lookup_where_Some ->].
  unfold find_witness_vote in H. step H as itr Hitr. destruct (lookup_where _ d) as [[j v]|] eqn:El.
  - apply lookup_where_Some in El as [Hj Hk]. cbn [fst snd] in *.
    step H as ? Happ. step H as wt Hwt. apply witness_vote_weight_Ok in Hwt as ->. step H as wn Hwn. asset_inv.
    apply st_bind_Ok in H as (? & d1 & H1 & H). apply adjust_witness_vote_Ok in H1 as (w0 & w' & Hw0 & Hv & ->).
    rewrite Hw in Hw0. injection Hw0 as <-. apply st_bind_Ok in H as (? & d2 & H2 & H).
    unfold modify_pure in H2. apply modify_Ok in H2 as (a0 & a' & Ha0 & [= <-] & ->). apply remove_Ok in H as ->.
    change (get_opt (set_obj d t w') i = Some a0) with (get_opt (V:=Account.t) d i = Some a0) in Ha0.
    rewrite Ha in Ha0. injection Ha0 as <-. exists i, a, t, w, w', (u16 (Account.witnesses_voted_for a - 1)).
    split_and!; try done. right. split; [by destruct (wv_approve o)|]. cbn in Hv. split; [lia|]. exists j, v.
    split_and!; [done|lia|lia|done].
  - step H as ? Happ. step H as ? Hn. apply st_bind_Ok in H as (j & d1 & H1 & H). apply create_Ok in H1 as (_ & _ & ->).
    step H as wt Hwt. apply witness_vote_weight_Ok in Hwt as ->.
    apply st_bind_Ok in H as (? & d1 & H1 & H). apply adjust_witness_vote_Ok in H1 as (w0 & w' & Hw0 & Hv & ->).
    change (get_opt (V:=Witness.t) d t = Some w0) in Hw0. rewrite Hw in Hw0. injection Hw0 as <-.
    unfold modify_pure in H. apply modify_Ok in H as (a0 & a' & Ha0 & [= <-] & ->).
    change (get_opt (V:=Account.t) d i = Some a0) in Ha0. rewrite Ha in Ha0. injection Ha0 as <-.
    exists i, a, t, w, w', (u16 (Account.witnesses_voted_for a + 1)). split_and!; try done. left. done.
Qed.

Lemma books_witness_vote o d d' : books d -> account_witness_vote_apply o d = Ok (tt, d') -> books d'.
Proof.
  intros Hb H. destruct (witness_vote_run o d d' H) as (i & a & t & w & w' & n & Ha & Hp & Hw & [(_ & Hv & ->)|(_ & Hv & j & v & Hj & Hi & Ht & ->)]);
    pose proof (books_tallied d Hb) as Htal.
  - apply (books_intro d); [|eapply tallied_core; [| | |by apply (tallied_approve d t w w' (WitnessVote.Make t i) a)]|done].
    + by apply (core_set_after d _ i a); [apply same_core_tbl| |].
    + by eapply core_set.
    + done.
    + done.
  - apply (books_intro d); [|subst i|done].
    + by apply (core_set_after d (set_obj d t w') i a); [apply same_core_tbl| |].
    + refine (tallied_reject d t j w w' v a _ Htal Ha _ Hj Ht Hw Hv). done.
Qed.

(** *** Choosing a proxy *)

Lemma negate_all_Ok l l' : negate_all l = Ok l' -> l' = List.map Z.opp l.
Proof.
  unfold negate_all. intros H.
  assert (Hg : forall acc, foldM (fun acc x => y ← Safe.neg x; Ok (acc ++ [y])) acc l = Ok l' -> l' = acc ++ List.map Z.opp l).
  { clear H. induction l as [|x l IH]; intros acc H; [injection H as <-; by rewrite app_nil_r|].
    apply bind_Ok in H as (acc1 & H1 & H). run_inv. asset_inv. rewrite (IH _ H), <- app_assoc. done. }
  exact (Hg [] H).
Qed.

(** All levels of an account, as the code collects them. *)
Definition levels (a : Account.t) : list Z := amount (Account.vesting_shares a) :: Account.proxied_vsf_votes a.

Lemma levels_comp a k : shifted 0 (levels a) k = comp k a.
Proof. unfold shifted. cbn. by rewrite Nat.sub_0_r. Qed.
Lemma levels_opp a k : shifted 0 (List.map Z.opp (levels a)) k = - comp k a.
Proof.
  unfold shifted. rewrite Nat.sub_0_r. change (0 <? 0)%nat with false. cbn [Nat.ltb Nat.leb].
  destruct (k <? 0)%nat eqn:E; [by apply Nat.ltb_lt in E; lia|].
  change 0 with (- 0) at 1. rewrite map_nth. by destruct k.
Qed.
Lemma fsum_weight a : length (Account.proxied_vsf_votes a) = BTCM_MAX_PROXY_RECURSION_DEPTH ->
  fsum (fun k => comp k a) = weight a.
Proof. intros H. unfold fsum, weight. rewrite four by done. cbn. lia. Qed.

Lemma proxies_ext d e e' i i' f f' : (forall n k, (k < BTCM_MAX_PROXY_RECURSION_DEPTH)%nat ->
    missing d i f n k + e n k = missing d i' f' n k + e' n k) ->
  proxies_ok d e i f -> proxies_ok d e' i' f'.
Proof.
  intros He H. split; [apply (proxied_length d e i f H)|]. intros j p k Hj Hk.
  rewrite (proxied_sum d e i f H j p k Hj Hk). specialize (He (Account.name p) k Hk). lia.
Qed.

Lemma missing_zero d i n k : missing d i zero n k = 0.
Proof. unfold missing, zero. destruct (get_opt d i); cbn; [by destruct (String.eqb _ _)|done]. Qed.

(** Taking an account out of the books leaves all of it pending. *)
Lemma take_out d d1 i a u : books d -> get_opt d i = Some a ->
  adjust_proxied_witness_votes_array i (List.map Z.opp (levels a)) d = Ok (u, d1) ->
  adjusted d d1 i /\ get_opt d1 i = Some a /\ proxies_ok d1 none i (fun k => comp k a) /\
  counted WitnessVote.t Witness.t d1 nowhere i (weight a) /\
  (direct PlatformVote.t d -> counted PlatformVote.t Platform.t d nowhere 0 0 ->
   counted PlatformVote.t Platform.t d1 nowhere i (weight a)).
Proof.
  intros [Hn Hacy Hp (Hd & Hc & _)] Ha H. pose proof (proxied_length d _ _ _ Hp i a Ha) as Hl.
  set (e := fun n (k : nat) => if String.eqb (Account.proxy a) n then comp k a else 0).
  set (f := shifted (BTCM_MAX_PROXY_RECURSION_DEPTH - BTCM_MAX_PROXY_RECURSION_DEPTH) (List.map Z.opp (levels a))).
  assert (Hf : forall k, f k = - comp k a) by (intros k; apply levels_opp).
  assert (Hs : fsum f = - weight a).
  { rewrite <- fsum_weight by done. unfold fsum. rewrite !Hf. lia. }
  destruct (adjust_deltas_Ok BTCM_MAX_PROXY_RECURSION_DEPTH (le_n _) e i (List.map Z.opp (levels a)) d u d1)
    as (Hadj & Hp1 & Hw1 & Hpl1); [by rewrite length_map; cbn; rewrite Hl|done|done| |exact H|].
  { eapply proxies_ext; [|exact Hp]. intros n k Hk. rewrite missing_zero. unfold missing. rewrite Ha. cbn [from_option].
    change (shifted _ _ k) with (f k). rewrite Hf. unfold e, none. destruct (String.eqb _ _); lia. }
  assert (Ha1 : get_opt d1 i = Some a).
  { rewrite (adj_above _ _ _ Hadj); [done|]. apply rooted_not_above; [done|]. by eapply Hacy. }
  split; [done|]. split; [done|]. split; [|split].
  - eapply proxies_ext; [|exact Hp1]. intros n k Hk. rewrite missing_zero. unfold missing. rewrite Ha1. cbn [from_option].
    unfold e, none. lia.
  - intros t w Hw. rewrite (Hw1 Hd (fun t => rows WitnessVote.t d i t * weight a)) with (t := t) (w := w); [|clear t w Hw|done].
    + unfold rows, total. rewrite (adj_frame _ _ _ Hadj _ (tbl (V:=WitnessVote.t))) by done. unfold nowhere. lia.
    + intros t w Hw. fold f. rewrite Hs, (Hc t w Hw). unfold nowhere. lia.
  - intros Hdp Hcp t w Hw.
    rewrite (Hpl1 Hdp (fun t => rows PlatformVote.t d i t * weight a)) with (t := t) (w := w); [|clear t w Hw|done].
    + unfold rows, total. rewrite (adj_frame _ _ _ Hadj _ (tbl (V:=PlatformVote.t))) by done. unfold nowhere. lia.
    + intros t w Hw. fold f. rewrite Hs, (Hcp t w Hw). unfold nowhere. lia.
Qed.

(** The new proxy is set while the account is out of the books. *)
Definition with_proxy (n : string) (a : Account.t) : Account.t := a <| Account.proxy := n |>.

Lemma set_proxy_pending d i a n : names_ok d -> get_opt d i = Some a -> proxies_ok d none i (fun k => comp k a) ->
  proxies_ok (set_obj d i (with_proxy n a)) none i (fun k => comp k a).
Proof.
  intros Hn Ha H. split.
  - intros j b. rewrite get_set_obj. destruct (decide (j = i)) as [->|]; [|apply (proxied_length d _ _ _ H)].
    intros [= <-]. exact (proxied_length d _ _ _ H i a Ha).
  - intros j p k Hj Hk.
    assert (Hp : exists p0, get_opt d j = Some p0 /\ Account.name p = Account.name p0 /\ comp (S k) p = comp (S k) p0).
    { rewrite get_set_obj in Hj. destruct (decide (j = i)) as [->|]; [injection Hj as <-; by exists a|by exists p]. }
    destruct Hp as (p0 & Hp0 & -> & ->). rewrite (proxied_sum d _ _ _ H j p0 k Hp0 Hk).
    unfold held_for, missing, none. rewrite (total_set_obj _ d i a) by done. rewrite get_set_obj, decide_True, Ha by done.
    cbn [from_option]. change (comp k (with_proxy n a)) with (comp k a).
    change (Account.proxy (with_proxy n a)) with n.
    destruct (String.eqb (Account.proxy a) _), (String.eqb n _); lia.
Qed.

Lemma set_proxy_names d i a n : names_ok d -> get_opt d i = Some a -> names_ok (set_obj d i (with_proxy n a)).
Proof.
  intros Hn Ha.
  assert (Hb : forall j b, get_opt (set_obj d i (with_proxy n a)) j = Some b -> exists b0, get_opt d j = Some b0 /\ Account.name b = Account.name b0).
  { intros j b. rewrite get_set_obj. destruct (decide (j = i)) as [->|]; [intros [= <-]; by exists a|by exists b]. }
  split.
  - intros j k b c (b0 & Hb0 & ->)%Hb (c0 & Hc0 & ->)%Hb. by apply (names_unique d Hn j k b0 c0).
  - intros j b (b0 & Hb0 & ->)%Hb. by apply (names_nonempty d Hn j).
Qed.

Lemma set_proxy_rooted d i a n : acyclic d -> get_opt d i = Some a ->
  rooted (set_obj d i (with_proxy n a)) i -> acyclic (set_obj d i (with_proxy n a)).
Proof.
  intros Hc Ha Hi j b Hj.
  assert (exists b0, get_opt (V:=Account.t) d j = Some b0) as [b0 Hb0].
  { rewrite get_set_obj in Hj. destruct (decide (j = i)) as [->|]; [by exists a|by exists b]. }
  specialize (Hc j b0 Hb0). clear b Hj b0 Hb0. induction Hc as [j b Hb Hp|j k He Hr IH].
  - destruct (decide (j = i)) as [->|Hn]; [done|]. apply (rooted_self _ j b); [|done]. by rewrite get_set_obj, decide_False.
  - destruct (decide (j = i)) as [->|Hn]; [done|]. apply (rooted_up _ j k); [|done].
    destruct He as (b & c & Hb & Hk & E). exists b. rewrite !get_set_obj, (decide_False (P:=j = i)) by done.
    destruct (decide (k = i)) as [->|]; [exists (with_proxy n a); split_and!; [done|done|]|by exists c].
    rewrite Ha in Hk. injection Hk as <-. done.
Qed.

(** The search for loops. *)
Lemma check_proxy_chain_Ok fuel : forall chain q b d u d' i a n, check_proxy_chain fuel chain b d = Ok (u, d') ->
  get_opt d i = Some a -> i ∈ chain -> q <> i -> get_opt d q = Some b ->
  d' = d /\ rooted (set_obj d i (with_proxy n a)) q.
Proof.
  induction fuel as [|fuel IH]; intros chain q b d u d' i a n H Ha Hi Hq Hb; cbn [check_proxy_chain] in H;
    destruct (String.eqb_spec (Account.proxy b) "") as [E|E].
  - apply st_ret_Ok in H as [_ ->]. split; [done|]. apply (rooted_self _ q b); [|done]. by rewrite get_set_obj, decide_False.
  - discriminate.
  - apply st_ret_Ok in H as [_ ->]. split; [done|]. apply (rooted_self _ q b); [|done]. by rewrite get_set_obj, decide_False.
  - step H as [r c] Hr. apply lookup_where_Some in Hr as [Hr Hname%String.eqb_eq]. cbn [fst snd] in *.
    step H as ? Hin. step H as ? Hsz. apply negb_true_iff, bool_decide_eq_false in Hin.
    assert (r <> i) as Hri by (intros ->; done).
    destruct (IH _ r c d u d' i a n H Ha) as [-> Hroot]; [by apply elem_of_union_r|done|done|].
    split; [done|]. apply (rooted_up _ q r); [|done]. exists b, c. by rewrite !get_set_obj, !decide_False.
Qed.

(** What clearing the votes of [i] leaves: [V] is the kind of vote. *)
Record cleared (V : Type) `{SV : Stored V} {T : Type} {Bl : Ballot V T} (d d' : database) (i : Z) : Prop := {
  cl_core : same_core d d';
  cl_rows : indices (tbl (V:=V) d') = filter (fun kv => negb (voter kv.2 =? i) = true) (indices (tbl (V:=V) d));
  cl_next : next_id (tbl (V:=V) d') = next_id (tbl (V:=V) d)
}.

Lemma clear_witness_votes_Ok i d u d' : clear_witness_votes i d = Ok (u, d') ->
  cleared WitnessVote.t d d' i /\ tbl (V:=Witness.t) d' = tbl d /\ tbl (V:=PlatformVote.t) d' = tbl d /\ tbl (V:=Platform.t) d' = tbl d.
Proof.
  intros H. unfold clear_witness_votes in H. step H. apply st_bind_Ok in H as (u1 & d1 & H1 & H).
  pose proof (clear_all (V:=WitnessVote.t) (T:=Witness.t) by_witness d u1 d1 i H1) as (Hr & Hn & Hf).
  unfold modify_pure in H. apply modify_Ok in H as (a & a' & Ha & [= <-] & ->).
  split; [|split; [|split]].
  - split; [|exact Hr|exact Hn]. intros j. rewrite get_set_obj.
    pose proof (Hf _ (tbl (V:=Account.t)) (fun _ _ => eq_refl)) as E. unfold get_opt in *. rewrite E in *.
    destruct (decide (j = i)) as [->|]; [|done]. by rewrite Ha.
  - exact (Hf _ (tbl (V:=Witness.t)) (fun _ _ => eq_refl)).
  - exact (Hf _ (tbl (V:=PlatformVote.t)) (fun _ _ => eq_refl)).
  - exact (Hf _ (tbl (V:=Platform.t)) (fun _ _ => eq_refl)).
Qed.

Lemma clear_platform_votes_Ok i d u d' : clear_streaming_platform_votes i d = Ok (u, d') ->
  cleared PlatformVote.t d d' i /\ tbl (V:=Platform.t) d' = tbl d /\ tbl (V:=WitnessVote.t) d' = tbl d /\ tbl (V:=Witness.t) d' = tbl d.
Proof.
  intros H. unfold clear_streaming_platform_votes in H. step H. apply st_bind_Ok in H as (u1 & d1 & H1 & H).
  pose proof (clear_all (V:=PlatformVote.t) (T:=Platform.t) by_platform d u1 d1 i H1) as (Hr & Hn & Hf).
  unfold modify_pure in H. apply modify_Ok in H as (a & a' & Ha & [= <-] & ->).
  split; [|split; [|split]].
  - split; [|exact Hr|exact Hn]. intros j. rewrite get_set_obj.
    pose proof (Hf _ (tbl (V:=Account.t)) (fun _ _ => eq_refl)) as E. unfold get_opt in *. rewrite E in *.
    destruct (decide (j = i)) as [->|]; [|done]. by rewrite Ha.
  - exact (Hf _ (tbl (V:=Platform.t)) (fun _ _ => eq_refl)).
  - exact (Hf _ (tbl (V:=WitnessVote.t)) (fun _ _ => eq_refl)).
  - exact (Hf _ (tbl (V:=Witness.t)) (fun _ _ => eq_refl)).
Qed.

(** Putting an account back in the books. *)
Lemma put_back d d' i a u : names_ok d -> acyclic d -> get_opt d i = Some a ->
  proxies_ok d none i (fun k => comp k a) -> adjust_proxied_witness_votes_array i (levels a) d = Ok (u, d') ->
  names_ok d' /\ acyclic d' /\ proxies_ok d' none 0 zero /\ adjusted d d' i /\
  (direct WitnessVote.t d -> counted WitnessVote.t Witness.t d nowhere i (weight a) -> counted WitnessVote.t Witness.t d' nowhere 0 0) /\
  (direct PlatformVote.t d -> counted PlatformVote.t Platform.t d nowhere i (weight a) -> counted PlatformVote.t Platform.t d' nowhere 0 0).
Proof.
  intros Hn Hc Ha Hp H. pose proof (proxied_length d _ _ _ Hp i a Ha) as Hl.
  set (f := shifted (BTCM_MAX_PROXY_RECURSION_DEPTH - BTCM_MAX_PROXY_RECURSION_DEPTH) (levels a)).
  assert (Hf : forall k, f k = comp k a) by (intros k; apply levels_comp).
  assert (Hs : fsum f = weight a) by (rewrite <- fsum_weight by done; unfold fsum; by rewrite !Hf).
  destruct (adjust_deltas_Ok BTCM_MAX_PROXY_RECURSION_DEPTH (le_n _) none i (levels a) d u d')
    as (Hadj & Hp1 & Hw1 & Hpl1); [by cbn; rewrite Hl|done|done| |exact H|].
  { eapply proxies_ext; [|exact Hp]. intros n k Hk. unfold missing. rewrite Ha. cbn [from_option].
    change (shifted _ _ k) with (f k). by rewrite Hf. }
  pose proof (adj_shape _ _ _ Hadj) as Hsh. fold f in Hw1, Hpl1. rewrite Hs in Hw1, Hpl1.
  split_and!; [by eapply names_shape|by eapply acyclic_shape|done|done|auto|auto].
Qed.

Lemma adjusted_direct {V T} `{Bl : Ballot V T} `{!Stored V} d d' i : vote_frame (tbl (V:=V)) -> adjusted d d' i ->
  direct V d -> direct V d' /\ (Supply.ids_below V d -> Supply.ids_below V d').
Proof.
  intros Hv Hadj Hd. pose proof (adj_frame _ _ _ Hadj _ _ Hv) as E.
  split; [eapply direct_shape; [by eapply adj_shape|done|done]|]. unfold Supply.ids_below, get_opt. by rewrite E.
Qed.

Lemma levels_take a : length (Account.proxied_vsf_votes a) = BTCM_MAX_PROXY_RECURSION_DEPTH ->
  amount (Account.vesting_shares a) :: take BTCM_MAX_PROXY_RECURSION_DEPTH (Account.proxied_vsf_votes a) = levels a.
Proof. intros H. unfold levels. by rewrite <- H, firstn_all. Qed.

(** No vote of [i] is left, so its weight does not matter. *)
Lemma direct_set_proxy {V T} `{Bl : Ballot V T} `{!Stored V} d i a n :
  (forall j v, get_opt (V:=V) d j = Some v -> voter v <> i) -> get_opt d i = Some a ->
  tbl (V:=V) (set_obj d i (with_proxy n a)) = tbl d -> direct V d -> direct V (set_obj d i (with_proxy n a)).
Proof.
  intros Hno Ha E Hd j v. unfold get_opt at 1. rewrite E. intros Hj. destruct (Hd j v Hj) as (b & Hb & Hp).
  exists b. rewrite get_set_obj, decide_False by by eapply Hno. done.
Qed.

Lemma counted_set_proxy {V T} `{Bl : Ballot V T} `{!Stored V, !Stored T} d e i a n x f :
  get_opt d i = Some a -> tbl (V:=V) (set_obj d i (with_proxy n a)) = tbl d ->
  tbl (V:=T) (set_obj d i (with_proxy n a)) = tbl d ->
  (forall t, rows V d i t * f = rows V d i t * x) -> counted V T d e i f ->
  counted V T (set_obj d i (with_proxy n a)) e i x.
Proof.
  intros Ha EV ET Hr Hc t w. unfold get_opt. rewrite ET. intros Hw. rewrite (Hc t w Hw), (tally_set_account d i a) by done.
  change (weight (with_proxy n a)) with (weight a). unfold rows, total in *. rewrite EV. rewrite Hr. lia.
Qed.

Lemma no_rows {V T} `{Bl : Ballot V T} `{!Stored V} d i t :
  (forall j v, get_opt (V:=V) d j = Some v -> voter v <> i) -> rows V d i t = 0.
Proof.
  intros Hno. apply map_sum_zero. intros j v Hj. apply Hno in Hj. apply Z.eqb_neq in Hj as ->. by rewrite andb_false_r.
Qed.

(** Both kinds of vote, account [i] being out of the books. *)
Definition pending (V T : Type) `{SV : Stored V, ST : Stored T, Bl : Ballot V T} (d : database) (i f : Z) : Prop :=
  direct V d /\ counted V T d nowhere i f /\ Supply.ids_below V d /\ bounded V T d /\ Supply.ids_below T d.

Lemma pending_tallied V T `{SV : Stored V, ST : Stored T, Bl : Ballot V T} d i : pending V T d i 0 <-> tallied V T d.
Proof.
  split; intros (Hd & Hc & Hr); (split; [done|split; [|done]]); intros t w Hw; rewrite (Hc t w Hw); lia.
Qed.

Lemma pending_adjusted {V T} `{SV : Stored V, ST : Stored T, Bl : Ballot V T} d d' i f f' :
  vote_frame (tbl (V:=V)) -> no_more T d d' -> adjusted d d' i ->
  (direct V d -> counted V T d nowhere i f -> counted V T d' nowhere i f') ->
  pending V T d i f -> pending V T d' i f'.
Proof.
  intros Hv [Hnx Hsub] Hadj Hcc (Hd & Hc & Hi & Hb & Hit). destruct (adjusted_direct d d' i Hv Hadj Hd) as [Hd' Hi'].
  split_and!; [done|auto|auto| |].
  - intros j v. unfold get_opt. rewrite Hnx, (adj_frame _ _ _ Hadj _ _ Hv). apply Hb.
  - intros t Ht. rewrite Hnx. auto.
Qed.

Lemma pending_take_out {V T} `{SV : Stored V, ST : Stored T, Bl : Ballot V T} d d' i f :
  vote_frame (tbl (V:=V)) -> no_more T d d' -> adjusted d d' i ->
  (direct V d -> counted V T d nowhere 0 0 -> counted V T d' nowhere i f) -> tallied V T d -> pending V T d' i f.
Proof.
  intros Hv Hm Hadj Hcc Ht. apply (pending_tallied V T d i) in Ht. eapply pending_adjusted; [done..| |exact Ht].
  intros Hd Hc. apply Hcc; [done|]. intros t w Hw. rewrite (Hc t w Hw). lia.
Qed.

Lemma pending_cleared {V T} `{SV : Stored V, ST : Stored T, Bl : Ballot V T} {SVok : StoredOk V} {STok : StoredOk T}
    {BlOk : BallotOk V T} d d' i f :
  weight_of d i = f -> cleared V (T:=T) d d' i -> tbl (V:=T) d' = tbl d -> pending V T d i f ->
  (forall x, pending V T d' i x) /\ (forall j v, get_opt (V:=V) d' j = Some v -> voter v <> i).
Proof.
  intros Hw [Hcore Hr Hn] ET (Hd & Hc & Hi & Hb & Hit).
  assert (Hx : forall x, _) by exact (fun x => tallied_cleared d d' i f x Hcore Hr Hn ET Hw Hd Hi Hc).
  split; [|apply (Hx 0)]. intros x. destruct (Hx x) as (Hd' & Hc' & Hi' & _). split_and!; try done.
  - intros j v. unfold get_opt. rewrite Hr, ET. intros [Hj _]%map_lookup_filter_Some. by apply (Hb j).
  - unfold Supply.ids_below, get_opt. by rewrite ET.
Qed.

Lemma pending_core {V T} `{SV : Stored V, ST : Stored T, Bl : Ballot V T} d d' i f : same_core d d' ->
  tbl (V:=V) d' = tbl d -> tbl (V:=T) d' = tbl d -> pending V T d i f -> pending V T d' i f.
Proof.
  intros H EV ET (Hd & Hc & Hi & Hb & Hit). pose proof (same_core_shape _ _ H) as Hs.
  split_and!; [by eapply direct_shape|by eapply counted_core|..]; unfold Supply.ids_below, bounded, get_opt;
    by rewrite ?EV, ?ET.
Qed.

Lemma pending_set_proxy {V T} `{SV : Stored V, ST : Stored T, Bl : Ballot V T} d i a n x :
  (forall j v, get_opt (V:=V) d j = Some v -> voter v <> i) -> get_opt d i = Some a ->
  tbl (V:=V) (set_obj d i (with_proxy n a)) = tbl d -> tbl (V:=T) (set_obj d i (with_proxy n a)) = tbl d ->
  pending V T d i x -> forall y, pending V T (set_obj d i (with_proxy n a)) i y.
Proof.
  intros Hno Ha EV ET (Hd & Hc & Hi & Hb & Hit) y. split_and!.
  - by apply direct_set_proxy.
  - apply (counted_set_proxy d nowhere i a n y x); [done..| |done]. intros t. by rewrite no_rows.
  - unfold Supply.ids_below, get_opt. by rewrite EV.
  - unfold bounded, get_opt. by rewrite EV, ET.
  - unfold Supply.ids_below, get_opt. by rewrite ET.
Qed.

Lemma no_votes_proxied {V} `{SV : Stored V} {T} {Bl : Ballot V T} d i a : direct V d -> get_opt d i = Some a -> Account.proxy a <> "" ->
  forall j v, get_opt (V:=V) d j = Some v -> voter v <> i.
Proof. intros Hd Ha Hp j v Hj E. destruct (Hd j v Hj) as (b & Hb & Hbp). congruence. Qed.

Lemma books_proxy o d d' : books d -> wp_proxy o <> wp_account o -> account_witness_proxy_apply o d = Ok (tt, d') ->
  books d' /\ (platform_books d -> platform_books d').
Proof.
  intros Hb Hself H. unfold account_witness_proxy_apply in H. step H as [i a] Ha. step H as ? Hch.
  apply lookup_where_Some in Ha as [Ha Hname%String.eqb_eq]. cbn [fst snd] in *.
  apply negb_true_iff, String.eqb_neq in Hch.
  pose proof (proxied_length d _ _ _ (bk_proxies d Hb) i a Ha) as Hl.
  step H as delta Hdelta. apply negate_all_Ok in Hdelta. rewrite levels_take in Hdelta by done. subst delta.
  apply st_bind_Ok in H as (u1 & d1 & H1 & H).
  destruct (take_out d d1 i a u1 Hb Ha H1) as (Hadj & Ha1 & Hp1 & Hcw & Hcp).
  pose proof (adj_shape _ _ _ Hadj) as Hsh. pose proof (names_shape _ _ Hsh (bk_names d Hb)) as Hn1.
  pose proof (acyclic_shape _ _ Hsh (bk_acyclic d Hb)) as Hacy1.
  assert (Hw1 : pending WitnessVote.t Witness.t d1 i (weight a)).
  { apply (pending_take_out d d1 i); [done|apply (adj_witnesses _ _ _ Hadj)|done|auto|apply (bk_tallied d Hb)]. }
  assert (Hpl1 : platform_books d -> pending PlatformVote.t Platform.t d1 i (weight a)).
  { intros Hpb. apply (pending_take_out d d1 i); [done|apply (adj_platforms _ _ _ Hadj)|done|auto|done]. }
  destruct (String.eqb_spec (wp_proxy o) "") as [Ep|Ep]; cbn [negb] in H.
  - (* no proxy any more *)
    unfold modify_pure in H. apply modify_Ok in H as (a1 & a' & Ha1' & [= <-] & ->). rewrite Ha1 in Ha1'. injection Ha1' as <-.
    rewrite Ep. change (a <| Account.proxy := "" |>) with (with_proxy "" a).
    assert (Hpa : Account.proxy a <> "") by congruence.
    assert (Hroot : rooted (set_obj d1 i (with_proxy "" a)) i).
    { apply (rooted_self _ i (with_proxy "" a)); [|done]. by rewrite get_set_obj, decide_True. }
    split; [split|intros Hpb].
    + by apply set_proxy_names.
    + by apply set_proxy_rooted.
    + apply (settle_root _ _ i (with_proxy "" a) (fun k => comp k a)); [by apply set_proxy_names|by rewrite get_set_obj, decide_True|done|].
      by apply set_proxy_pending.
    + apply (pending_tallied _ _ _ i). eapply pending_set_proxy; [|done..|exact Hw1].
      eapply no_votes_proxied; [apply Hw1|done|done].
    + specialize (Hpl1 Hpb). apply (pending_tallied _ _ _ i). eapply pending_set_proxy; [|done..|exact Hpl1].
      eapply no_votes_proxied; [apply Hpl1|done|done].
  - (* another proxy *)
    step H as [q b] Hq. apply lookup_where_Some in Hq as [Hq Hqn%String.eqb_eq]. cbn [fst snd] in *.
    apply st_bind_Ok in H as (u2 & d2 & H2 & H).
    assert (q <> i) as Hqi. { intros ->. rewrite Ha1 in Hq. injection Hq as <-. congruence. }
    destruct (check_proxy_chain_Ok _ _ q b d1 u2 d2 i a (wp_proxy o) H2 Ha1) as [-> Hroot];
      [apply elem_of_union_l; by apply elem_of_singleton|done|done|].
    apply st_bind_Ok in H as (u3 & d3 & H3 & H). apply clear_witness_votes_Ok in H3 as (Hcl3 & E3w & E3pv & E3p).
    apply st_bind_Ok in H as (u4 & d4 & H4 & H). apply clear_platform_votes_Ok in H4 as (Hcl4 & E4p & E4wv & E4w).
    apply st_bind_Ok in H as (u5 & d5 & H5 & H). unfold modify_pure in H5.
    apply modify_Ok in H5 as (a4 & a5 & Ha4 & [= <-] & ->).
    change (a4 <| Account.proxy := wp_proxy o |>) with (with_proxy (wp_proxy o) a4) in H.
    step H as delta Hdelta. apply negate_all_Ok in Hdelta.
    assert (Edelta : delta = levels a).
    { rewrite Hdelta, map_map. etrans; [|apply map_id]. apply List.map_ext. intros. lia. }
    rewrite Edelta in H.
    assert (C13 : same_core d1 d3) by apply (cl_core _ _ _ _ Hcl3). assert (C34 : same_core d3 d4) by apply (cl_core _ _ _ _ Hcl4).
    assert (C14 : same_core d1 d4) by (intros j; by rewrite C34).
    destruct (same_core_get _ _ _ _ C14 Ha4) as (a0 & Ha0 & Ecore). rewrite Ha1 in Ha0. injection Ha0 as <-.
    set (d5 := set_obj d4 i (with_proxy (wp_proxy o) a4)) in *. set (a5 := with_proxy (wp_proxy o) a4) in *.
    assert (Ha5 : get_opt d5 i = Some a5) by (unfold d5; by rewrite get_set_obj, decide_True).
    set (D := set_obj d1 i (with_proxy (wp_proxy o) a)).
    assert (CD : same_core D d5).
    { intros j. unfold D, d5, a5. rewrite !get_set_obj. destruct (decide (j = i)) as [->|]; [|apply C14].
      injection Ecore as E1 E2 E3 E4. unfold core, shape. cbn. by rewrite E1, E3, E4. }
    assert (Elev : levels a5 = levels a) by (injection Ecore as E1 E2 E3 E4; unfold levels; cbn; by rewrite E3, E4).
    assert (Ecomp : forall k, comp k a5 = comp k a) by (intros k; by rewrite <- !levels_comp, Elev).
    assert (HnD : names_ok D) by by apply set_proxy_names.
    assert (HpD : proxies_ok D none i (fun k => comp k a)) by by apply set_proxy_pending.
    assert (HaD : acyclic D).
    { apply set_proxy_rooted; [done|done|]. apply (rooted_up _ i q); [|done]. exists (with_proxy (wp_proxy o) a), b.
      by rewrite !get_set_obj, decide_True, decide_False. }
    rewrite <- Elev in H.
    destruct (put_back d5 d' i a5 tt) as (Hn' & Hacy' & Hp' & Hadj' & Hcw' & Hcp');
      [by eapply names_shape; [apply same_core_shape|]|by eapply acyclic_shape; [apply same_core_shape|]|done| |done|].
    { eapply proxies_ext; [|eapply proxies_core; [exact CD|exact HpD]]. intros n k _. unfold missing. rewrite Ha5. cbn. by rewrite Ecomp. }
    assert (Hw5 : forall y, pending WitnessVote.t Witness.t d5 i y).
    { destruct (pending_cleared (V:=WitnessVote.t) (T:=Witness.t) d1 d3 i (weight a)) as [Hx Hno];
        [unfold weight_of; by rewrite Ha1|exact Hcl3|done|done|].
      apply (pending_set_proxy d4 i a4 (wp_proxy o) 0); [|done..|].
      - intros j v. unfold get_opt. rewrite E4wv. apply Hno.
      - apply (pending_core d3 d4); [exact C34|exact E4wv|exact E4w|apply Hx]. }
    assert (Hp5 : platform_books d -> forall y, pending PlatformVote.t Platform.t d5 i y).
    { intros Hpb. specialize (Hpl1 Hpb).
      destruct (pending_cleared (V:=PlatformVote.t) (T:=Platform.t) d3 d4 i (weight a)) as [Hx Hno];
        [rewrite (weight_core d1 d3) by done; unfold weight_of; by rewrite Ha1|exact Hcl4|exact E4p|apply (pending_core d1 d3); [exact C13|exact E3pv|exact E3p|exact Hpl1]|].
      by apply (pending_set_proxy d4 i a4 (wp_proxy o) 0). }
    split; [split; [done|done|done|]|intros Hpb].
    + apply (pending_tallied _ _ _ i). apply (pending_adjusted d5 d' i (weight a5) 0);
        [done|apply (adj_witnesses _ _ _ Hadj')|done| |apply Hw5].
      intros Hd Hc t w Hw. rewrite (Hcw' Hd Hc t w Hw). lia.
    + apply (pending_tallied _ _ _ i). apply (pending_adjusted d5 d' i (weight a5) 0);
        [done|apply (adj_platforms _ _ _ Hadj')|done| |by apply Hp5].
      intros Hd Hc t w Hw. rewrite (Hcp' Hd Hc t w Hw). lia.
Qed.

Lemma pending_set_vesting {V T} `{SV : Stored V, ST : Stored T, Bl : Ballot V T} d i a a' :
  get_opt d i = Some a -> shape a' = shape a -> tbl (V:=V) (set_obj d i a') = tbl d ->
  tbl (V:=T) (set_obj d i a') = tbl d -> tallied V T d -> pending V T (set_obj d i a') i (weight a' - weight a).
Proof.
  intros Ha Hsh EV ET (Hd & Hc & Hi & Hb & Hit). split_and!.
  - eapply direct_shape; [|done|done]. intros j. rewrite get_set_obj.
    destruct (decide (j = i)) as [->|]; [rewrite Ha; cbn; by rewrite Hsh|done].
  - intros t w. unfold get_opt. rewrite ET. intros Hw. rewrite (Hc t w Hw), (tally_set_account d i a) by done.
    unfold rows, total. rewrite EV. lia.
  - unfold Supply.ids_below, get_opt. by rewrite EV.
  - unfold bounded, get_opt. by rewrite EV, ET.
  - unfold Supply.ids_below, get_opt. by rewrite ET.
Qed.

(** *** Gaining or losing shares *)

Lemma small_scalar room x : is_int64 x -> forall i d u d', small d -> adjust_proxied_delta room i x d = Ok (u, d') -> small d'.
Proof.
  intros Hx. induction room as [|room IH]; intros i d u d' Hd H; cbn [adjust_proxied_delta] in H; step H as a Ha;
    destruct (negb _).
  - by apply st_ret_Ok in H as [_ ->].
  - apply adjust_root_Ok in H as (_ & Hacc & _). intros j b. rewrite Hacc. apply Hd.
  - step H as [q b] Hq. apply lookup_where_Some in Hq as [Hb _]. cbn [fst] in H.
    apply st_bind_Ok in H as (u1 & d1 & H1 & H). apply modify_Ok in H1 as (b0 & b' & Hb0 & Hadd & ->).
    eapply IH; [|exact H]. unfold add_proxied in Hadd. run_inv. by eapply small_set.
  - apply adjust_root_Ok in H as (_ & Hacc & _). intros j b. rewrite Hacc. apply Hd.
Qed.

Definition with_vesting (v : asset) (a : Account.t) : Account.t := a <| Account.vesting_shares := v |>.

Lemma books_vesting i a v d d' : books d -> small d -> get_opt d i = Some a ->
  let x := amount v - amount (Account.vesting_shares a) in
  is_int64 x -> adjust_proxied_witness_votes i x (set_obj d i (with_vesting v a)) = Ok (tt, d') ->
  books d' /\ small d' /\ (platform_books d -> platform_books d').
Proof.
  intros Hb Hs Ha x Hx H. set (d1 := set_obj d i (with_vesting v a)) in *.
  assert (Hsh : same_shape d d1).
  { intros j. unfold d1. rewrite get_set_obj. destruct (decide (j = i)) as [->|]; [by rewrite Ha|done]. }
  assert (Ha1 : get_opt d1 i = Some (with_vesting v a)) by (unfold d1; by rewrite get_set_obj, decide_True).
  assert (Hs1 : small d1).
  { intros j b. unfold d1. rewrite get_set_obj. destruct (decide (j = i)) as [->|]; [intros [= <-]; exact (Hs i a Ha)|apply Hs]. }
  assert (Hwt : weight (with_vesting v a) - weight a = x) by (unfold x; change (weight (with_vesting v a)) with (amount v + zsum (Account.proxied_vsf_votes a)); unfold weight; lia).
  set (f := shifted (BTCM_MAX_PROXY_RECURSION_DEPTH - BTCM_MAX_PROXY_RECURSION_DEPTH) (x :: repeat 0 BTCM_MAX_PROXY_RECURSION_DEPTH)).
  assert (Hf : forall k, (k < BTCM_MAX_PROXY_RECURSION_DEPTH)%nat -> f k = comp k (with_vesting v a) - comp k a).
  { unfold BTCM_MAX_PROXY_RECURSION_DEPTH, f, shifted. intros [|[|[|[|]]]] Hk; try lia; cbn; unfold x; lia. }
  assert (Hfs : fsum f = x) by (unfold fsum, f, shifted; cbn; lia).
  assert (Hp1 : proxies_ok d1 none i f).
  { split; [intros j b Hj; by apply (Hs1 j)|]. intros j p k Hj Hk.
    assert (exists p0, get_opt d j = Some p0 /\ Account.name p = Account.name p0 /\ comp (S k) p = comp (S k) p0) as (p0 & Hp0 & -> & ->).
    { unfold d1 in Hj. rewrite get_set_obj in Hj. destruct (decide (j = i)) as [->|]; [injection Hj as <-; by exists a|by exists p]. }
    rewrite (proxied_sum d _ _ _ (bk_proxies d Hb) j p0 k Hp0 Hk), missing_zero. unfold held_for, missing, d1.
    rewrite (total_set_obj _ d i a) by done. rewrite get_set_obj, decide_True by done. cbn [from_option].
    change (Account.proxy (with_vesting v a)) with (Account.proxy a). destruct (String.eqb _ _); [rewrite Hf by done|]; lia. }
  assert (Hs' : small d') by by eapply (small_scalar BTCM_MAX_PROXY_RECURSION_DEPTH).
  rewrite proxied_forms_agree in H by done.
  destruct (adjust_deltas_Ok BTCM_MAX_PROXY_RECURSION_DEPTH (le_n _) none i (x :: repeat 0 BTCM_MAX_PROXY_RECURSION_DEPTH) d1 tt d' eq_refl
    (names_shape _ _ Hsh (bk_names d Hb)) (acyclic_shape _ _ Hsh (bk_acyclic d Hb)) Hp1 H) as (Hadj & Hp' & Hcw & Hcp).
  fold f in Hcw, Hcp. rewrite Hfs in Hcw, Hcp. pose proof (same_shape_trans _ _ _ Hsh (adj_shape _ _ _ Hadj)) as Hsh'.
  split; [split|split; [done|intros Hpb]].
  - eapply names_shape; [exact Hsh'|apply (bk_names d Hb)].
  - eapply acyclic_shape; [exact Hsh'|apply (bk_acyclic d Hb)].
  - done.
  - apply (pending_tallied _ _ _ i). apply (pending_adjusted d1 d' i x 0); [done|apply (adj_witnesses _ _ _ Hadj)|done| |].
    + intros Hd Hc t w Hw. rewrite (Hcw Hd nowhere Hc t w Hw). lia.
    + rewrite <- Hwt. exact (pending_set_vesting (V:=WitnessVote.t) (T:=Witness.t) d i a (with_vesting v a) Ha eq_refl eq_refl eq_refl (bk_tallied d Hb)).
  - apply (pending_tallied _ _ _ i). apply (pending_adjusted d1 d' i x 0); [done|apply (adj_platforms _ _ _ Hadj)|done| |].
    + intros Hd Hc t w Hw. rewrite (Hcp Hd nowhere Hc t w Hw). lia.
    + rewrite <- Hwt. exact (pending_set_vesting (V:=PlatformVote.t) (T:=Platform.t) d i a (with_vesting v a) Ha eq_refl eq_refl eq_refl Hpb).
Qed.

(** *** Candidates *)

Lemma tallied_same_votes {V T} `{SV : Stored V, ST : Stored T, Bl : Ballot V T} {STok : StoredOk T} {BlOk : BallotOk V T} d t (w w' : T) :
  get_opt d t = Some w -> votes w' = votes w -> tallied V T d -> tallied V T (set_obj d t w').
Proof.
  intros Hw Hv (Hd & Hc & Hi & Hb & Hit).
  assert (C : same_core d (set_obj d t w')) by apply same_core_tbl, accounts_candidates.
  assert (EV : tbl (V:=V) (set_obj d t w') = tbl d) by apply votes_candidates.
  split_and!.
  - eapply direct_shape; [by apply same_core_shape|done|done].
  - intros t' w2. rewrite get_set_obj, (tally_core d) by done. unfold rows, total. rewrite EV.
    destruct (decide (t' = t)) as [->|]; [|apply Hc]. intros [= <-]. rewrite Hv. by apply Hc.
  - unfold Supply.ids_below, get_opt. by rewrite EV.
  - unfold bounded, get_opt, set_obj in *. rewrite EV. rewrite tbl_upd. exact Hb.
  - apply Supply.ids_below_set; [by exists w|done].
Qed.

Lemma tallied_new_candidate {V T} `{SV : Stored V, ST : Stored T, Bl : Ballot V T} {STok : StoredOk T} {BlOk : BallotOk V T} d (w : T) :
  votes w = 0 -> tallied V T d -> tallied V T (upd_tbl (fun tb => next_object tb w) d).
Proof.
  intros Hv (Hd & Hc & Hi & Hb & Hit). set (d' := upd_tbl (V:=T) _ d).
  assert (C : same_core d d') by apply same_core_tbl, accounts_candidates.
  assert (EV : tbl (V:=V) d' = tbl d) by apply votes_candidates.
  split_and!.
  - eapply direct_shape; [by apply same_core_shape|done|done].
  - intros t w2. unfold get_opt, d'. rewrite tbl_upd. cbn. fold d'. rewrite (tally_core d) by done. unfold rows, total. rewrite EV.
    intros [[<- <-]|[_ Hw2]]%lookup_insert_Some; [|by apply Hc]. rewrite Hv. unfold nowhere, tally, total.
    rewrite map_sum_zero; [|intros j v Hj; apply Hb in Hj; destruct (Z.eqb_spec (target v) (next_id (tbl (V:=T) d))); [lia|done]]. rewrite map_sum_zero; [lia|].
    intros j v Hj. apply Hb in Hj. destruct (Z.eqb_spec (target v) (next_id (tbl (V:=T) d))); [lia|done].
  - unfold Supply.ids_below, get_opt. by rewrite EV.
  - intros j v. unfold get_opt. rewrite EV. intros Hj. apply Hb in Hj. unfold d'. rewrite tbl_upd. cbn. lia.
  - by apply Supply.ids_below_create.
Qed.

Lemma books_witness_update o d d' : books d -> witness_update_apply o d = Ok (tt, d') -> books d'.
Proof.
  intros Hb H. unfold witness_update_apply in H. step H as acnt Hacnt. step H as ? Hurl. clear Hacnt.
  apply st_bind_Ok in H as (itr & d1 & Hf & H). apply find_where_Ok in Hf as [-> ->].
  destruct (lookup_where _ d) as [[i w]|] eqn:El.
  - apply lookup_where_Some in El as [Hw _]. unfold modify_pure in H.
    apply modify_Ok in H as (w0 & w' & Hw0 & [= <-] & ->). rewrite Hw in Hw0. injection Hw0 as <-.
    apply (books_intro d); [by apply same_core_tbl|by apply (tallied_same_votes _ _ w); [| |apply bk_tallied]|done].
  - step H. apply st_bind_Ok in H as (j & d1 & H1 & H). apply create_Ok in H1 as (_ & _ & ->). apply st_ret_Ok in H as [_ ->].
    apply (books_intro d); [by apply same_core_tbl|by apply tallied_new_candidate; [|apply bk_tallied]|done].
Qed.

(** C21 Votes are counted right at all times: if every witness has the sum of the
    weights of the accounts that vote for it (own shares plus what is held for
    those who chose the account as proxy, four levels deep), proxies form no cycle
    and no account with a proxy has votes of its own, then all of that still holds
    after a vote is cast or withdrawn, after a proxy is set, changed or cleared,
    after an account's shares change and the change is propagated, and after a
    witness is registered or updated. *)
Theorem vote_accounting d d' (Hb : books d) :
  (forall o, account_witness_vote_apply o d = Ok (tt, d') -> books d') /\
  (forall o, wp_proxy o <> wp_account o -> account_witness_proxy_apply o d = Ok (tt, d') -> books d') /\
  (forall o, witness_update_apply o d = Ok (tt, d') -> books d') /\
  (forall i a v, small d -> get_opt d i = Some a -> is_int64 (amount v - amount (Account.vesting_shares a)) ->
     adjust_proxied_witness_votes i (amount v - amount (Account.vesting_shares a)) (set_obj d i (with_vesting v a)) = Ok (tt, d') ->
     books d').
Proof.
  split_and!; intros.
  - by eapply books_witness_vote.
  - by eapply books_proxy.
  - by eapply books_witness_update.
  - by eapply books_vesting.
Qed.


(** *** The search for loops ends *)

Lemma check_proxy_chain_fuel d n : forall m chain b,
  (S BTCM_MAX_PROXY_RECURSION_DEPTH - size chain <= n)%nat -> (S BTCM_MAX_PROXY_RECURSION_DEPTH - size chain <= m)%nat ->
  (size chain <= BTCM_MAX_PROXY_RECURSION_DEPTH)%nat ->
  check_proxy_chain n chain b d = check_proxy_chain m chain b d.
Proof.
  induction n as [|n IH]; intros m chain b Hn Hm Hc; [lia|]. destruct m as [|m]; [lia|]. cbn [check_proxy_chain].
  destruct (String.eqb _ _); [done|]. apply st_bind_ext; [|done]. intros [q c] d0 Hq. exists (q, c). split; [done|].
  apply get_account_Ok in Hq as [_ ->]. cbn [fst snd]. apply st_bind_ext; [|done]. intros [] d0 Hin. exists tt. split; [done|].
  apply assert_st_Ok in Hin as [Hin ->]. apply negb_true_iff, bool_decide_eq_false in Hin.
  assert (Hsz : size ({[q]} ∪ chain) = S (size chain)) by (rewrite size_union, size_singleton by set_solver; lia).
  apply st_bind_ext; [|done]. intros [] d0 Hs. exists tt. split; [done|]. apply assert_st_Ok in Hs as [Hs ->].
  apply Nat.leb_le in Hs. apply IH; lia.
Qed.

(** The search for proxy loops ends by itself: it is not the number of turns
    given to the model that stops it, and when it accepts a proxy, following
    proxies from there ends without meeting the account. *)
Lemma proxy_search_ends d i (a : Account.t) q (b : Account.t)
    (Ha : get_opt d i = Some a) (Hq : get_opt d q = Some b) (Hi : q <> i) :
  (forall fuel, (BTCM_MAX_PROXY_RECURSION_DEPTH <= fuel)%nat ->
     check_proxy_chain fuel {[i; q]} b d = check_proxy_chain BTCM_MAX_PROXY_RECURSION_DEPTH {[i; q]} b d) /\
  (forall u d', check_proxy_chain BTCM_MAX_PROXY_RECURSION_DEPTH {[i; q]} b d = Ok (u, d') ->
     d' = d /\ forall n, rooted (set_obj d i (with_proxy n a)) q).
Proof.
  assert (Hsz : size ({[i; q]} : gset Z) = 2%nat) by (rewrite size_union, !size_singleton by set_solver; done).
  split.
  - intros fuel Hf. apply check_proxy_chain_fuel; rewrite Hsz; unfold BTCM_MAX_PROXY_RECURSION_DEPTH in *; lia.
  - intros u d' H. split.
    + by apply (check_proxy_chain_Ok _ _ q b d u d' i a "" H); [|set_solver|..].
    + intros n. by apply (check_proxy_chain_Ok _ _ q b d u d' i a n H); [|set_solver|..].
Qed.
End Chain.

(** ** Examples *)

Lemma sample_get i a : get_opt (V:=Account.t) Sample.state i = Some a -> i = 0 \/ i = 1 \/ i = 2.
Proof. revert i a. each_row; auto. Qed.

Lemma sample_names : names_ok Sample.state.
Proof.
  split.
  - intros i j a b Ha Hb. pose proof (sample_get _ _ Ha) as Hi. pose proof (sample_get _ _ Hb) as Hj.
    destruct Hi as [->|[->| ->]], Hj as [->|[->| ->]]; vm_compute in Ha, Hb; injection Ha as <-; injection Hb as <-; done.
  - each_row; discriminate.
Qed.

Lemma sample_small : small Sample.state.
Proof. intros i a. revert i a. each_row; (split; [repeat constructor|]; done). Qed.

Lemma sample_edge : edge Sample.state 1 0.
Proof. do 2 eexists. split_and!; [vm_compute; reflexivity..|]. reflexivity. Qed.

Lemma sample_books : books Sample.state.
Proof.
  assert (Hroot : forall i, i = 0 \/ i = 2 -> rooted Sample.state i).
  { intros i [->| ->]; (eapply rooted_self; [vm_compute; reflexivity|reflexivity]). }
  split; [apply sample_names| | |split_and!].
  - intros i a Ha. destruct (sample_get i a Ha) as [->|[->| ->]]; [auto| |auto]. eapply rooted_up; [apply sample_edge|auto].
  - split; [each_row; done|]. intros j p k Hj Hk.
    destruct (sample_get j p Hj) as [->|[->| ->]]; vm_compute in Hj; injection Hj as <-;
      unfold BTCM_MAX_PROXY_RECURSION_DEPTH in Hk; (destruct k as [|[|[|[|]]]]; [vm_compute; reflexivity..|lia]).
  - intros j v. revert j v. each_row. eexists. split; [vm_compute; reflexivity|reflexivity].
  - intros t w. revert t w. each_row; vm_compute; reflexivity.
  - apply Supply.ids_below_check. vm_compute. reflexivity.
  - intros j v. revert j v. each_row. vm_compute. reflexivity.
  - apply Supply.ids_below_check. vm_compute. reflexivity.
Qed.

#[local] Existing Instance boost_reference.

Lemma vote_accounting_witness :
  let d := Sample.state in
  books (Sample.after (account_witness_vote_apply (WitnessVoteOp "nancy" "nancy" true)) d) /\
  books (Sample.after (account_witness_proxy_apply (WitnessProxyOp "bob" "nancy")) d) /\
  books (Sample.after (witness_update_apply (WitnessUpdateOp "bob" "u" 1 default_props (Asset 0 BTCM_SYMBOL))) d) /\
  books (Sample.after (adjust_proxied_witness_votes 1 (-20)) (set_obj d 1 (with_vesting (Asset 280 VESTS_SYMBOL) Sample.bob))).
Proof.
  cbn zeta. split_and!.
  - apply (proj1 (vote_accounting Sample.state _ sample_books) (WitnessVoteOp "nancy" "nancy" true)).
    apply Sample.after_run. vm_compute. reflexivity.
  - apply (proj1 (proj2 (vote_accounting Sample.state _ sample_books)) (WitnessProxyOp "bob" "nancy")); [discriminate|].
    apply Sample.after_run. vm_compute. reflexivity.
  - apply (proj1 (proj2 (proj2 (vote_accounting Sample.state _ sample_books))) (WitnessUpdateOp "bob" "u" 1 default_props (Asset 0 BTCM_SYMBOL))).
    apply Sample.after_run. vm_compute. reflexivity.
  - apply (proj2 (proj2 (proj2 (vote_accounting Sample.state _ sample_books))) 1 Sample.bob (Asset 280 VESTS_SYMBOL)).
    + apply sample_small.
    + vm_compute. reflexivity.
    + done.
    + apply Sample.after_run. vm_compute. reflexivity.
Defined.

Lemma proxied_forms_agree_witness : is_int64 (-20) /\ small Sample.state /\
  is_ok (adjust_proxied_witness_votes_array 1 [-20; 0; 0; 0; 0] Sample.state) = true.
Proof.
  pose proof sample_small as Hs.
  split; [done|]. split; [exact Hs|].
  change [-20; 0; 0; 0; 0] with (-20 :: repeat 0 BTCM_MAX_PROXY_RECURSION_DEPTH).
  rewrite <- (proxied_forms_agree 1 (-20) Sample.state ltac:(done) Hs). vm_compute. reflexivity.
Defined.

Lemma proxy_search_ends_witness : rooted (set_obj Sample.state 1 (with_proxy "nancy" Sample.bob)) 2.
Proof.
  refine (proj2 (proj2 (proxy_search_ends Sample.state 1 Sample.bob 2 Sample.nancy _ _ _) tt Sample.state _) "nancy");
    [vm_compute; reflexivity|vm_compute; reflexivity|done|vm_compute; reflexivity].
Defined.

(** A vote for a streaming platform does not ask that the voter have no proxy, so
    an account with a proxy can vote, drop its vote record by changing the proxy,
    and vote again: the platform keeps every vote. *)
Definition with_platform : database :=
  Sample.state <| platforms := Table 1 (<[0 := default_platform <| Platform.owner := "alice" |>]> empty) |>.
Definition inflate : st database unit :=
  _ ← account_streaming_platform_vote_apply (PlatformVoteOp "bob" "alice" true);
  _ ← account_witness_proxy_apply (WitnessProxyOp "bob" "nancy");
  account_streaming_platform_vote_apply (PlatformVoteOp "bob" "alice" true).

Lemma platform_votes_inflated :
  let d' := Sample.after inflate with_platform in
  (Platform.votes <$> get_opt d' 0) = Some 600 /\ tally PlatformVote.t d' 0 = 300 /\ weight_of d' 1 = 300.
Proof. vm_compute. done. Qed.

End VotesFacts.
