(* ===== verification/Social.v ===== *)
(** * Friends and scores

    Models the friendship and unfriend evaluators of btcm_evaluator.cpp and the
    scores of database.cpp ([get_scoring], [recalculate_score],
    [recursive_recalculate_score], [isqrt]).  The [std::set]s of ids are the
    ordered lists of [Flat]. *)

From S2P Require Import Prelude.
From S2P Require Import SafeInt.
From S2P Require Import Uint128.
From S2P Require Import Asset.
From S2P Require Import UndoDatabase.
From S2P Require Import Authority.
From S2P Require Import State.

Definition BTCM_1ST_LEVEL_SCORING_PERCENTAGE : Z := 50.
Definition BTCM_2ST_LEVEL_SCORING_PERCENTAGE : Z := 10.

Record friendship_operation := FriendshipOp { fr_who : string; fr_whom : string }.
Record unfriend_operation := UnfriendOp { un_who : string; un_whom : string }.

Module Social.

(** ** [detail::isqrt] *)

(** The [uint64_t]s [a] and [rem], the [uint32_t] [root]. *)
Record isqrt_state := Isqrt { sq_a : Z; sq_rem : Z; sq_root : Z }.

Definition isqrt_step (s : isqrt_state) : isqrt_state :=
  let root := u32 (Z.shiftl (sq_root s) 1) in
  let rem := u64 (Z.shiftl (sq_rem s) 2) in
  let rem := u64 (rem + Z.shiftr (sq_a s) 62) in
  let a := u64 (Z.shiftl (sq_a s) 2) in
  if root <? rem then
    let root := u32 (root + 1) in
    let rem := u64 (rem - root) in
    Isqrt a rem (u32 (root + 1))
  else Isqrt a rem root.

Definition isqrt (a : Z) : Z := Z.shiftr (sq_root (Nat.iter 32 isqrt_step (Isqrt a 0 0))) 1.

(** ** Scores *)

Definition get_scoring_vesting (a : Account.t) : Z := u64 (amount (Account.vesting_shares a)).

(** [isqrt( .. ) * percentage / 100], computed in 32 bits *)
Definition level_score (percentage : Z) (a : Account.t) : Z :=
  u32 (isqrt (get_scoring_vesting a) * percentage) / 100.

Definition add_level (percentage : Z) (d : database) (score id : Z) : result Z :=
  f ← of_option assert_exception (get_opt d id);
  Ok (u64 (score + level_score percentage f)).

(** [get_scoring] of an account; [recalculate_score] repeats its text. *)
Definition scoring (d : database) (ao : Account.t) : result Z :=
  score ← foldM (add_level BTCM_1ST_LEVEL_SCORING_PERCENTAGE d) (isqrt (get_scoring_vesting ao)) (Account.friends ao);
  foldM (add_level BTCM_2ST_LEVEL_SCORING_PERCENTAGE d) score (Account.second_level ao).

Definition recalculate_score (a : Z) : st database unit :=
  acc ← get (V:=Account.t) a;
  d ← get_st;
  score ← lift (scoring d acc);
  modify_pure a (fun ao => ao <| Account.score := score |>).

(** [ao.score += score_delta * percentage / 100]: the product is computed in
    [int64_t] and the sum in [uint64_t]. *)
Definition add_score (percentage score_delta : Z) (ao : Account.t) : Account.t :=
  ao <| Account.score ::= fun s => u64 (s + Z.quot (score_delta * percentage) 100) |>.

Definition recursive_recalculate_score (a delta : Z) : st database unit :=
  acc ← get (V:=Account.t) a;
  old_amount ← lift (Safe.sub (amount (Account.vesting_shares acc)) delta);
  let score_delta := isqrt (get_scoring_vesting acc) - isqrt (u64 old_amount) in
  _ ← modify_pure a (fun ao => ao <| Account.score ::= fun s => u64 (s + score_delta) |>);
  _ ← for_each (Account.friends acc)
        (fun f => modify_pure f (add_score BTCM_1ST_LEVEL_SCORING_PERCENTAGE score_delta));
  for_each (Account.second_level acc)
    (fun f => modify_pure f (add_score BTCM_2ST_LEVEL_SCORING_PERCENTAGE score_delta)).

(** [get_scoring] of a content: the mean score of its payees; the count is a [uint32_t]. *)
Definition add_payee (acc : Z * Z) (x : Distribution.t) : st database (Z * Z) :=
  a ← get_account (Distribution.payee x);
  mret (u32 (acc.1 + 1), u64 (acc.2 + Account.score a.2)).
Fixpoint add_payees (acc : Z * Z) (l : list Distribution.t) : st database (Z * Z) :=
  match l with
  | [] => mret acc
  | x :: l => acc ← add_payee acc x; add_payees acc l
  end.
Definition get_scoring_content (co : Content.t) : st database Z :=
  acc ← add_payees (0, 0) (Content.distributions_comp co);
  acc ← add_payees acc (Content.distributions_master co);
  mret (if acc.1 =? 0 then 0 else acc.2 / acc.1).

(** ** Evaluators *)

Definition ids_find (id : Z) (s : list Z) : bool := Flat.mem Z.ltb id s.
Definition ids_insert (id : Z) (s : list Z) : list Z := Flat.insert Z.ltb id s.
Definition ids_insert_all (ids s : list Z) : list Z := foldl (fun r id => Flat.insert Z.ltb id r) s ids.
Definition ids_erase (id : Z) (s : list Z) : list Z := Flat.erase Z.ltb id s.

(** [for( auto a3id : friends ) { .. second_level.insert( id ) .. }] *)
Definition extend_second_levels (friends : list Z) (id : Z) : st database unit :=
  for_each friends (fun a3id =>
    _ ← modify_pure a3id (fun a => a <| Account.second_level ::= ids_insert id |>);
    recalculate_score a3id).

Definition befriend (friend : Account.t) (id friend_id : Z) (a : Account.t) : Account.t :=
  a <| Account.friends ::= ids_insert friend_id |>
    <| Account.second_level ::= ids_insert_all (Account.friends friend) |>
    <| Account.second_level ::= ids_erase id |>.

Definition approve_friendship (a1 a2 : Z * Account.t) : st database unit :=
  _ ← extend_second_levels (Account.friends a2.2) a1.1;
  _ ← extend_second_levels (Account.friends a1.2) a2.1;
  f2 ← get (V:=Account.t) a2.1;
  _ ← modify_pure a1.1 (fun a => befriend f2 a1.1 a2.1 (a <| Account.waiting ::= ids_erase a2.1 |>));
  _ ← recalculate_score a1.1;
  f1 ← get (V:=Account.t) a1.1;
  _ ← modify_pure a2.1 (befriend f1 a2.1 a1.1);
  recalculate_score a2.1.

Definition friendship_apply (o : friendship_operation) : st database unit :=
  a1 ← get_account (fr_who o);
  a2 ← get_account (fr_whom o);
  if ids_find a2.1 (Account.friends a1.2) then mret tt
  else if ids_find a1.1 (Account.waiting a2.2) then mret tt
  else if ids_find a2.1 (Account.waiting a1.2) then
    approve_friendship a1 a2
  else modify_pure a2.1 (fun a => a <| Account.waiting ::= ids_insert a1.1 |>).

(** The friends of the friends of an account, without the account. *)
Definition add_friends_of (d : database) (s : list Z) (fid : Z) : result (list Z) :=
  f ← of_option assert_exception (get_opt (V:=Account.t) d fid);
  Ok (ids_insert_all (Account.friends f) s).
Definition new_sl_list (aid : Z) : st database (list Z) :=
  a ← get (V:=Account.t) aid;
  d ← get_st;
  l ← lift (foldM (add_friends_of d) [] (Account.friends a));
  mret (ids_erase aid l).

(** [a.second_level = new_sl_list] *)
Definition rebuild_second_level (aid : Z) : st database unit :=
  l ← new_sl_list aid;
  modify_pure aid (fun a => a <| Account.second_level := l |>).

Definition unlink (id : Z) (a : Account.t) : Account.t :=
  a <| Account.friends ::= ids_erase id |> <| Account.second_level := [] |>.

Definition rebuild_friends (a : Z) : st database unit :=
  acc ← get (V:=Account.t) a;
  for_each (Account.friends acc) (fun aid => _ ← rebuild_second_level aid; recalculate_score aid).

Definition remove_friendship (a1 a2 : Z) : st database unit :=
  _ ← modify_pure a2 (unlink a1);
  _ ← modify_pure a1 (unlink a2);
  _ ← rebuild_second_level a1;
  _ ← rebuild_second_level a2;
  _ ← recalculate_score a1;
  _ ← recalculate_score a2;
  _ ← rebuild_friends a1;
  rebuild_friends a2.

Definition unfriend_apply (o : unfriend_operation) : st database unit :=
  a1 ← get_account (un_who o);
  a2 ← get_account (un_whom o);
  if ids_find a1.1 (Account.waiting a2.2) then
    modify_pure a2.1 (fun a => a <| Account.waiting ::= ids_erase a1.1 |>)
  else if ids_find a2.1 (Account.waiting a1.2) then
    modify_pure a1.1 (fun a => a <| Account.waiting ::= ids_erase a2.1 |>)
  else if ids_find a1.1 (Account.friends a2.2) then
    remove_friendship a1.1 a2.1
  else mret tt.

End Social.
