(* ===== verification/SocialFacts.v ===== *)
(** * Friends and scores: facts

    The graph of friends after each operation, the invariant that makes a
    second-level list the friends of one's friends, and how exact scores are. *)

From S2P Require Import Prelude.
From S2P Require Import SafeInt.
From S2P Require Import Uint128.
From S2P Require Import Asset.
From S2P Require Import UndoDatabase.
From S2P Require Import Authority.
From S2P Require Import AuthorityFacts.
From S2P Require Import State.
From S2P Require Import Sample.
From S2P Require Import Balance.
From S2P Require Import BalanceFacts.
From S2P Require Import Social.

Module SocialFacts.
Import Social FlatFacts.

(** ** The integer square root *)

(** After [i] rounds the top [i] digits in base 4 are used up; [root] is twice
    their square root. *)
Definition sq_inv (x : Z) (i : nat) (s : isqrt_state) : Prop :=
  let top := x / 4 ^ (32 - Z.of_nat i) in
  exists r, 0 <= r < 2 ^ Z.of_nat i /\ sq_root s = 2 * r /\ sq_rem s = top - r * r /\ r * r <= top < (r + 1) * (r + 1) /\
  sq_a s = (x * 4 ^ Z.of_nat i) mod 2 ^ 64.

Lemma digit x i : 0 <= x < 2 ^ 64 -> 0 <= i < 32 ->
  x / 4 ^ (31 - i) = 4 * (x / 4 ^ (32 - i)) + ((x * 4 ^ i) mod 2 ^ 64) / 2 ^ 62.
Proof.
  intros Hx Hi.
  assert (4 ^ (32 - i) = 4 * 4 ^ (31 - i)) as Hp.
  { replace (32 - i) with (Z.succ (31 - i)) by lia. apply Z.pow_succ_r. lia. }
  assert (2 ^ 64 = 4 ^ i * 4 ^ (32 - i)) as H64.
  { rewrite <- Z.pow_add_r by lia. by replace (i + (32 - i)) with 32 by lia. }
  assert (2 ^ 62 = 4 ^ i * 4 ^ (31 - i)) as H62.
  { rewrite <- Z.pow_add_r by lia. by replace (i + (31 - i)) with 31 by lia. }
  assert (0 < 4 ^ i) by (apply Z.pow_pos_nonneg; lia). assert (0 < 4 ^ (31 - i)) by (apply Z.pow_pos_nonneg; lia).
  rewrite H64, (Z.mul_comm x), Z.mul_mod_distr_l, H62, Z.div_mul_cancel_l by lia.
  rewrite Hp, (Z.mul_comm 4 (4 ^ (31 - i))), Z.rem_mul_r, <- Z.div_div by lia.
  rewrite (Z.mul_comm (4 ^ (31 - i)) (_ mod 4)), Z.div_add by lia.
  rewrite (Z.div_small (x mod 4 ^ (31 - i))) by (apply Z.mod_pos_bound; lia).
  pose proof (Z.div_mod (x / 4 ^ (31 - i)) 4). lia.
Qed.

Lemma sq_step x i s : 0 <= x < 2 ^ 62 -> (i < 32)%nat -> sq_inv x i s -> sq_inv x (S i) (isqrt_step s).
Proof.
  intros Hx Hi (r & Hr & Hroot & Hrem & Htop & Ha). unfold sq_inv.
  replace (32 - Z.of_nat (S i)) with (31 - Z.of_nat i) by lia.
  pose proof (digit x (Z.of_nat i) ltac:(lia) ltac:(lia)) as Hd. cbn zeta in *.
  set (top := x / 4 ^ (32 - Z.of_nat i)) in *. set (c := ((x * 4 ^ Z.of_nat i) mod 2 ^ 64) / 2 ^ 62) in *.
  assert (0 <= c < 4) as Hc.
  { pose proof (Z.mod_pos_bound (x * 4 ^ Z.of_nat i) (2 ^ 64) ltac:(lia)). unfold c.
    split; [apply Z.div_pos; lia|apply Z.div_lt_upper_bound; lia]. }
  assert (2 ^ Z.of_nat i <= 2 ^ 31) as Hpow by (apply Z.pow_le_mono_r; lia).
  assert (2 ^ Z.of_nat (S i) = 2 * 2 ^ Z.of_nat i) as Hs by (rewrite Nat2Z.inj_succ; apply Z.pow_succ_r; lia).
  assert (top < 2 ^ 62) as Htb.
  { unfold top. apply Z.div_lt_upper_bound; [apply Z.pow_pos_nonneg; lia|].
    pose proof (Z.pow_pos_nonneg 4 (32 - Z.of_nat i)). nia. }
  assert (r < 2 ^ 31) as Hr31 by nia.
  assert (x / 4 ^ (31 - Z.of_nat i) < 2 ^ 62) as Htb'.
  { apply Z.div_lt_upper_bound; [apply Z.pow_pos_nonneg; lia|].
    pose proof (Z.pow_pos_nonneg 4 (31 - Z.of_nat i)). nia. }
  assert (sq_a (isqrt_step s) = (x * 4 ^ Z.of_nat (S i)) mod 2 ^ 64) as Ha'.
  { rewrite Nat2Z.inj_succ, Z.pow_succ_r by lia.
    replace (x * (4 * 4 ^ Z.of_nat i)) with (x * 4 ^ Z.of_nat i * 4) by lia.
    unfold isqrt_step. cbn zeta. destruct (_ <? _); cbn [sq_a];
      (rewrite Ha, Z.shiftl_mul_pow2 by lia; change (2 ^ 2) with 4; apply Z.mul_mod_idemp_l; lia). }
  rewrite Ha'. unfold isqrt_step. cbn zeta. clear Ha'.
  rewrite Hroot, Hrem, Ha, !Z.shiftl_mul_pow2, Z.shiftr_div_pow2 by lia. fold c.
  change (2 ^ 1) with 2. change (2 ^ 2) with 4.
  assert (2 * r < x / 4 ^ (31 - Z.of_nat i) \/ r = 0) as Hr4 by nia.
  rewrite (wrap_small 32 (2 * r * 2)) by nia.
  rewrite (wrap_small 64 ((top - r * r) * 4)) by nia.
  rewrite (wrap_small 64 ((top - r * r) * 4 + c)) by nia.
  destruct (_ <? _) eqn:E; cbn [sq_rem sq_root].
  - exists (2 * r + 1). assert (2 * r + 1 < 2 ^ 31) by nia.
    rewrite (wrap_small 32 (2 * r * 2 + 1)) by lia. rewrite (wrap_small 32 (_ + 1 + 1)) by lia.
    rewrite (wrap_small 64) by nia. nia.
  - exists (2 * r). nia.
Qed.

Lemma isqrt_below x : 0 <= x < 2 ^ 62 -> isqrt x = Z.sqrt x.
Proof.
  intros Hx.
  assert (forall i, (i <= 32)%nat -> sq_inv x i (Nat.iter i isqrt_step (Isqrt x 0 0))) as Hi.
  { induction i as [|i IH]; intros Hle; [|apply sq_step; [done|lia|apply IH; lia]].
    exists 0. change (Nat.iter 0 isqrt_step (Isqrt x 0 0)) with (Isqrt x 0 0). cbn [sq_rem sq_root sq_a].
    rewrite (Z.div_small x), (Z.mod_small (x * 4 ^ Z.of_nat 0)) by (change (4 ^ (32 - Z.of_nat 0)) with (2 ^ 64); lia).
    lia. }
  destruct (Hi 32%nat ltac:(lia)) as (r & Hr & Hroot & _ & Htop & _).
  change (4 ^ (32 - Z.of_nat 32)) with 1 in Htop. rewrite Z.div_1_r in Htop.
  unfold isqrt. rewrite Hroot, Z.shiftr_div_pow2 by lia. change (2 ^ 1) with 2.
  rewrite Z.mul_comm, Z.div_mul by lia. symmetry. apply Z.sqrt_unique. unfold Z.succ. lia.
Qed.

(** From 2^62 on the 32 bits of [root] are too few. *)
Lemma isqrt_overflows : isqrt (2 ^ 62) = 0 /\ Z.sqrt (2 ^ 62) = 2 ^ 31.
Proof. by vm_compute. Qed.

(** ** What the lists of an account hold *)

Definition lists (f : Account.t -> list Z) (d : database) (x : Z) : list Z := from_option f [] (get_opt d x).
Notation friends_of := (lists Account.friends).
Notation second_of := (lists Account.second_level).
Notation waiting_of := (lists Account.waiting).

Lemma lists_some f d x a : get_opt d x = Some a -> lists f d x = f a.
Proof. unfold lists. by intros ->. Qed.
Lemma lists_set f d i w x : lists f (set_obj d i w) x = if decide (x = i) then f w else lists f d x.
Proof. unfold lists. rewrite get_set_obj. by destruct (decide _). Qed.

(** Accounts are not created or removed, and their shares stay. *)
Definition shares (d : database) (x : Z) : option asset := Account.vesting_shares <$> get_opt d x.
Lemma shares_set d i a w x : get_opt d i = Some a -> Account.vesting_shares w = Account.vesting_shares a ->
  shares (set_obj d i w) x = shares d x.
Proof.
  intros Ha Hw. unfold shares. rewrite get_set_obj. destruct (decide (x = i)) as [->|]; [|done].
  rewrite Ha. cbn. by rewrite Hw.
Qed.

Lemma modify_pure_Ok i (f : Account.t -> Account.t) d u d' : modify_pure i f d = Ok (u, d') ->
  exists a, get_opt d i = Some a /\ d' = set_obj d i (f a).
Proof. intros H. apply modify_Ok in H as (a & w & Ha & [= <-] & ->). eauto. Qed.

Lemma recalculate_Ok i d u d' : recalculate_score i d = Ok (u, d') -> exists a s,
  get_opt d i = Some a /\ scoring d a = Ok s /\ d' = set_obj d i (a <| Account.score := s |>).
Proof.
  unfold recalculate_score. intros H. step H as a Ha. step H. step H as s Hs.
  apply modify_pure_Ok in H as (a' & Ha' & ->). simplify_eq. eauto.
Qed.

Lemma find_ids k s : ids_find k s = true <-> k ∈ s.
Proof. apply (mem_spec Z.ltb). Qed.
Lemma insert_ids k x s : x ∈ ids_insert k s <-> x = k \/ x ∈ s.
Proof. apply (insert_spec Z.ltb). Qed.
Lemma insert_all_ids ids x s : x ∈ ids_insert_all ids s <-> x ∈ ids \/ x ∈ s.
Proof. apply (foldl_insert_spec Z.ltb). Qed.
Lemma erase_ids k x s : x ∈ ids_erase k s <-> x <> k /\ x ∈ s.
Proof. apply (erase_spec Z.ltb). Qed.

(** ** Scores *)

(** The score the lists and the shares of an account give it. *)
Lemma scoring_ext d d' a a' : (forall x, shares d' x = shares d x) ->
  Account.vesting_shares a' = Account.vesting_shares a -> Account.friends a' = Account.friends a ->
  Account.second_level a' = Account.second_level a -> scoring d' a' = scoring d a.
Proof.
  intros Hsh Hv Hf Hs.
  assert (forall pct l score, foldM (add_level pct d') score l = foldM (add_level pct d) score l) as Hl.
  { intros pct. induction l as [|x l IH]; intros score; [done|]. cbn [foldM].
    assert (add_level pct d' score x = add_level pct d score x) as ->.
    { unfold add_level. specialize (Hsh x). unfold shares in Hsh. unfold level_score, get_scoring_vesting.
      destruct (get_opt d' x) as [b'|], (get_opt d x) as [b|]; simplify_eq; try done. cbn. by rewrite Hsh. }
    destruct (add_level pct d score x); [apply IH|done]. }
  unfold scoring, get_scoring_vesting. rewrite Hv, Hf, Hs, Hl.
  destruct (foldM _ _ _); [apply Hl|done].
Qed.

(** Every account outside [D] has the score its lists give. *)
Definition scored_but (D : Z -> Prop) (d : database) : Prop :=
  forall x (a : Account.t), ~ D x -> get_opt d x = Some a -> scoring d a = Ok (Account.score a).

Lemma scored_modify (D : Z -> Prop) i f d u d' :
  (forall a, Account.vesting_shares (f a) = Account.vesting_shares a) ->
  modify_pure i f d = Ok (u, d') -> scored_but D d -> scored_but (fun x => D x \/ x = i) d'.
Proof.
  intros Hf H Hs. apply modify_pure_Ok in H as (b & Hb & ->). intros x a Hx Ha.
  rewrite get_set_obj in Ha. destruct (decide (x = i)) as [->|]; [tauto|].
  rewrite <- (Hs x a) by tauto. apply scoring_ext; try done. intros y. by apply (shares_set _ _ b).
Qed.

Lemma scored_recalculate (D : Z -> Prop) i d u d' :
  recalculate_score i d = Ok (u, d') -> scored_but D d -> scored_but (fun x => D x /\ x <> i) d'.
Proof.
  intros H Hs. apply recalculate_Ok in H as (b & s & Hb & Hsb & ->). intros x a Hx Ha.
  assert (forall w, scoring (set_obj d i (b <| Account.score := s |>)) w = scoring d w) as Hsc.
  { intros w. apply scoring_ext; try done. intros y. by apply (shares_set _ _ b). }
  rewrite Hsc. rewrite get_set_obj in Ha. destruct (decide (x = i)) as [->|].
  - injection Ha as <-. cbn. by rewrite <- Hsb.
  - apply (Hs x a); tauto.
Qed.

Lemma scored_weaken (D D' : Z -> Prop) d : (forall x, D x -> D' x) -> scored_but D d -> scored_but D' d.
Proof. intros HD Hs x a Hx. apply Hs. naive_solver. Qed.

(** ** The loops over friends *)

(** What code that only touches second-level lists leaves alone, and which lists
    it makes. *)
Record relists (d d' : database) (second : Z -> Z -> Prop) : Prop := {
  re_friends : forall x, friends_of d' x = friends_of d x;
  re_waiting : forall x, waiting_of d' x = waiting_of d x;
  re_second : forall x y, y ∈ second_of d' x <-> second x y;
  re_names : forall x, Account.name <$> get_opt d' x = Account.name <$> get_opt d x
}.

Lemma relists_set d i a w : get_opt d i = Some a -> Account.friends w = Account.friends a ->
  Account.waiting w = Account.waiting a -> Account.name w = Account.name a ->
  relists d (set_obj d i w) (fun x y => if decide (x = i) then y ∈ Account.second_level w else y ∈ second_of d x).
Proof.
  intros Ha Hf Hw Hn. split; intros x.
  - rewrite lists_set. destruct (decide _) as [->|]; [|done]. by rewrite (lists_some _ _ _ a).
  - rewrite lists_set. destruct (decide _) as [->|]; [|done]. by rewrite (lists_some _ _ _ a).
  - intros y. rewrite lists_set. by destruct (decide _).
  - rewrite get_set_obj. destruct (decide _) as [->|]; [|done]. rewrite Ha. cbn. by rewrite Hn.
Qed.

Lemma relists_weaken d d' (S S' : Z -> Z -> Prop) : relists d d' S -> (forall x y, S x y <-> S' x y) -> relists d d' S'.
Proof. intros [] HS. split; auto. intros x y. rewrite <- HS. auto. Qed.

Lemma relists_trans d1 d2 d3 (S S' : Z -> Z -> Prop) : relists d1 d2 S -> relists d2 d3 S' -> relists d1 d3 S'.
Proof. intros [] []. split; try done; intros; congruence. Qed.

Lemma recalculate_relists i d u d' : recalculate_score i d = Ok (u, d') -> relists d d' (fun x y => y ∈ second_of d x).
Proof.
  intros H. apply recalculate_Ok in H as (a & s & Ha & _ & ->).
  eapply relists_weaken; [by apply (relists_set _ _ a)|]. intros x y. cbn.
  destruct (decide _) as [->|]; [|done]. by rewrite (lists_some _ _ _ a).
Qed.

Lemma extend_spec l id d u d' : extend_second_levels l id d = Ok (u, d') ->
  relists d d' (fun x y => (x ∈ l /\ y = id) \/ y ∈ second_of d x) /\
  (scored_but (fun _ => False) d -> scored_but (fun _ => False) d').
Proof.
  revert d. induction l as [|z l IH]; intros d H.
  - apply st_ret_Ok in H as [_ ->]. split; [|done]. split; try done. intros x y. set_solver.
  - apply st_bind_Ok in H as (u1 & d1 & H1 & H). apply st_bind_Ok in H1 as (u2 & d2 & Hm & Hr).
    apply IH in H as [HL HS]. pose proof (recalculate_relists _ _ _ _ Hr) as Hr2. split.
    + pose proof Hm as Hm'. apply modify_pure_Ok in Hm' as (a & Ha & ->).
      set (w := a <| Account.second_level ::= ids_insert id |>) in *.
      pose proof (relists_set d z a w Ha eq_refl eq_refl eq_refl) as Hz.
      eapply relists_weaken; [exact (relists_trans _ _ _ _ _ (relists_trans _ _ _ _ _ Hz Hr2) HL)|].
      intros x y. cbn beta. rewrite (re_second _ _ _ Hr2), (re_second _ _ _ Hz), elem_of_cons. cbn. destruct (decide (x = z)) as [->|]; [|naive_solver].
      rewrite insert_ids, (lists_some _ _ _ a) by done. naive_solver.
    + intros Hd. apply HS. eapply scored_weaken; [|eapply scored_recalculate, scored_modify, Hd; [exact Hr| |exact Hm]];
        [naive_solver|done].
Qed.

(** The friends of one's friends. *)
Definition two_steps (d : database) (x y : Z) : Prop := y <> x /\ exists f, f ∈ friends_of d x /\ y ∈ friends_of d f.

Lemma two_steps_ext d d' x y : (forall x, friends_of d' x = friends_of d x) -> two_steps d' x y <-> two_steps d x y.
Proof. intros H. unfold two_steps. setoid_rewrite H. done. Qed.

Lemma add_friends_spec d l s r : foldM (add_friends_of d) s l = Ok r ->
  forall y, y ∈ r <-> y ∈ s \/ exists f, f ∈ l /\ y ∈ friends_of d f.
Proof.
  revert s. induction l as [|z l IH]; intros s H y; [injection H as ->; set_solver|].
  cbn [foldM] in H. apply bind_Ok in H as (s1 & H1 & H). unfold add_friends_of in H1.
  apply bind_Ok in H1 as (f & Hf%of_option_Ok & [= <-]). rewrite (IH _ H), insert_all_ids.
  setoid_rewrite elem_of_cons. rewrite <- (lists_some Account.friends d z f Hf). naive_solver.
Qed.

Lemma rebuild_spec aid d u d' : rebuild_second_level aid d = Ok (u, d') ->
  relists d d' (fun x y => if decide (x = aid) then two_steps d x y else y ∈ second_of d x) /\
  (forall D, scored_but D d -> scored_but (fun x => D x \/ x = aid) d').
Proof.
  intros H. unfold rebuild_second_level in H. apply st_bind_Ok in H as (l & d1 & Hl & Hm).
  unfold new_sl_list in Hl. step Hl as a Ha. step Hl. step Hl as r Hr. apply st_ret_Ok in Hl as [-> ->].
  split; [|intros D HD; by eapply scored_modify; [|exact Hm|]].
  apply modify_pure_Ok in Hm as (a' & Ha' & ->). simplify_eq.
  eapply relists_weaken; [by apply (relists_set _ _ a)|]. intros x y. cbn.
  destruct (decide (x = aid)) as [->|]; [|done]. rewrite erase_ids, (add_friends_spec _ _ _ _ Hr).
  unfold two_steps. rewrite (lists_some _ _ _ a) by done. set_solver.
Qed.

Lemma rebuild_all_spec l d u d' :
  for_each l (fun aid => _ ← rebuild_second_level aid; recalculate_score aid) d = Ok (u, d') ->
  relists d d' (fun x y => if decide (x ∈ l) then two_steps d x y else y ∈ second_of d x) /\
  (scored_but (fun _ => False) d -> scored_but (fun _ => False) d').
Proof.
  revert d. induction l as [|z l IH]; intros d H.
  - apply st_ret_Ok in H as [_ ->]. split; [|done]. by split.
  - apply st_bind_Ok in H as (u1 & d1 & H1 & H). apply st_bind_Ok in H1 as (u2 & d2 & Hm & Hr).
    apply IH in H as [HL HS]. pose proof (recalculate_relists _ _ _ _ Hr) as Hr2.
    apply rebuild_spec in Hm as [Hz Hm]. split.
    + pose proof (relists_trans _ _ _ _ _ Hz Hr2) as H2.
      eapply relists_weaken; [exact (relists_trans _ _ _ _ _ H2 HL)|]. intros x y. cbn beta.
      pose proof (two_steps_ext d d1 x y (re_friends _ _ _ H2)) as Ht.
      pose proof (re_second _ _ _ Hr2 x y) as Hx2. pose proof (re_second _ _ _ Hz x y) as Hx1.
      destruct (decide (x ∈ z :: l)) as [Hx|Hx]; rewrite elem_of_cons in Hx;
        cbn in Hx1; repeat case_decide;
        first [exact Ht | exact (iff_trans Hx2 Hx1) | exfalso; clear Ht Hx1 Hx2; tauto].
    + intros Hd. apply HS. apply Hm, (scored_recalculate _ _ _ _ _ Hr) in Hd.
      eapply scored_weaken, Hd. naive_solver.
Qed.

(** ** Every lookup succeeds *)

Definition exists_account (d : database) (x : Z) : Prop := is_Some (get_opt (V:=Account.t) d x).
(** The lists hold ids of accounts. *)
Definition closed (d : database) : Prop :=
  forall x y, y ∈ friends_of d x \/ y ∈ second_of d x -> exists_account d y.

Lemma exists_names d d' x : Account.name <$> get_opt d' x = Account.name <$> get_opt d x ->
  exists_account d' x <-> exists_account d x.
Proof.
  unfold exists_account. destruct (get_opt d' x), (get_opt d x); try done; by rewrite !is_Some_alt.
Qed.

Lemma relists_exists d d' S x : relists d d' S -> exists_account d' x <-> exists_account d x.
Proof. intros HR. by apply exists_names, HR. Qed.

Lemma relists_closed d d' S : relists d d' S -> closed d -> (forall x y, S x y -> exists_account d y) -> closed d'.
Proof.
  intros HR Hc HS x y Hy. rewrite (re_friends _ _ _ HR), (re_second _ _ _ HR) in Hy.
  apply (relists_exists _ _ _ _ HR). destruct Hy as [Hy|Hy]; [apply (Hc x y); tauto|by apply (HS x)].
Qed.

Lemma exists_set d i (a w : Account.t) x : get_opt d i = Some a -> exists_account (set_obj d i w) x <-> exists_account d x.
Proof.
  intros Ha. unfold exists_account. rewrite get_set_obj. destruct (decide _) as [->|]; [|done].
  rewrite Ha. by rewrite !is_Some_alt.
Qed.

Lemma scoring_total d a : (forall y, y ∈ Account.friends a \/ y ∈ Account.second_level a -> exists_account d y) ->
  exists s, scoring d a = Ok s.
Proof.
  intros Hc.
  assert (forall pct l score, (forall y, y ∈ l -> exists_account d y) -> exists s, foldM (add_level pct d) score l = Ok s) as Hl.
  { intros pct. induction l as [|x l IH]; intros score Hx; [by exists score|]. cbn [foldM].
    destruct (Hx x) as [f Hf]; [set_solver|]. unfold add_level at 2. rewrite Hf. cbn. apply IH. set_solver. }
  destruct (Hl BTCM_1ST_LEVEL_SCORING_PERCENTAGE (Account.friends a) (isqrt (get_scoring_vesting a))) as [s Hs]; [set_solver|].
  destruct (Hl BTCM_2ST_LEVEL_SCORING_PERCENTAGE (Account.second_level a) s) as [s' Hs']; [set_solver|].
  exists s'. unfold scoring. by rewrite Hs.
Qed.

Lemma recalculate_total i d : closed d -> exists_account d i -> exists d', recalculate_score i d = Ok (tt, d').
Proof.
  intros Hc [a Ha]. destruct (scoring_total d a) as [s Hs].
  { intros y Hy. apply (Hc i). by rewrite !(lists_some _ _ _ a). }
  exists (set_obj d i (a <| Account.score := s |>)). unfold recalculate_score.
  rewrite (st_bind_run _ _ _ a d) by by apply get_Ok. rewrite (st_bind_run _ _ _ d d) by done.
  rewrite (st_bind_run _ _ _ s d) by by apply lift_Ok. by apply (obj_modify_run _ _ _ a).
Qed.

Lemma closed_set d i (a w : Account.t) : get_opt d i = Some a -> closed d ->
  (forall y, y ∈ Account.friends w \/ y ∈ Account.second_level w -> exists_account d y) -> closed (set_obj d i w).
Proof.
  intros Ha Hc Hw x y Hy. rewrite (exists_set _ _ a) by done. rewrite !lists_set in Hy.
  destruct (decide _); [by apply Hw|by apply (Hc x)].
Qed.

Lemma extend_total l id d : closed d -> exists_account d id -> (forall x, x ∈ l -> exists_account d x) ->
  exists d', extend_second_levels l id d = Ok (tt, d') /\ closed d'.
Proof.
  revert d. induction l as [|z l IH]; intros d Hc Hid Hl; [by exists d|].
  destruct (Hl z) as [a Ha]; [set_solver|].
  set (w := a <| Account.second_level ::= ids_insert id |>).
  assert (closed (set_obj d z w)) as Hc1.
  { apply (closed_set _ _ a); [done..|]. intros y. cbn. rewrite insert_ids. intros [Hy|[->|Hy]]; [| done |];
      apply (Hc z); rewrite !(lists_some _ _ _ a) by done; tauto. }
  destruct (recalculate_total z (set_obj d z w)) as [d2 H2]; [done|apply (exists_set _ _ a); [done|by exists a]|].
  pose proof (recalculate_relists _ _ _ _ H2) as Hr.
  assert (forall x, exists_account d2 x <-> exists_account d x) as He.
  { intros x. rewrite (relists_exists _ _ _ x Hr). by apply (exists_set _ _ a). }
  destruct (IH d2) as (d3 & H3 & Hc3).
  - apply (relists_closed _ _ _ Hr Hc1). intros x y Hy. apply (Hc1 x). tauto.
  - by apply He.
  - intros x Hx. apply He, Hl. set_solver.
  - exists d3. split; [|done]. unfold extend_second_levels in *. cbn [for_each].
    erewrite st_bind_run; [exact H3|]. erewrite st_bind_run; [exact H2|]. by apply (obj_modify_run _ _ _ a).
Qed.

Lemma rebuild_total aid d : closed d -> exists_account d aid ->
  exists d', rebuild_second_level aid d = Ok (tt, d') /\ closed d'.
Proof.
  intros Hc [a Ha].
  assert (forall l s, (forall x, x ∈ l -> exists_account d x) -> exists r, foldM (add_friends_of d) s l = Ok r) as Hl.
  { induction l as [|x l IH]; intros s Hx; [by exists s|]. cbn [foldM].
    destruct (Hx x) as [f Hf]; [set_solver|]. unfold add_friends_of at 2. rewrite Hf. cbn. apply IH. set_solver. }
  destruct (Hl (Account.friends a) []) as [r Hr].
  { intros x Hx. apply (Hc aid). rewrite (lists_some _ _ _ a) by done. tauto. }
  assert (rebuild_second_level aid d = Ok (tt, set_obj d aid (a <| Account.second_level := ids_erase aid r |>))) as Hrun.
  { unfold rebuild_second_level. erewrite st_bind_run; [by apply (obj_modify_run _ _ _ a)|].
    unfold new_sl_list. rewrite (st_bind_run _ _ _ a d) by by apply get_Ok. rewrite (st_bind_run _ _ _ d d) by done.
    by rewrite (st_bind_run _ _ _ r d) by by apply lift_Ok. }
  eexists. split; [exact Hrun|]. apply rebuild_spec in Hrun as [HR _].
  apply (relists_closed _ _ _ HR Hc). intros x y. destruct (decide _); [|intros Hy; apply (Hc x); tauto].
  intros (_ & f & _ & Hf). apply (Hc f). tauto.
Qed.

Lemma rebuild_all_total l d : closed d -> (forall x, x ∈ l -> exists_account d x) ->
  exists d', for_each l (fun aid => _ ← rebuild_second_level aid; recalculate_score aid) d = Ok (tt, d') /\ closed d'.
Proof.
  revert d. induction l as [|z l IH]; intros d Hc Hl; [by exists d|].
  destruct (rebuild_total z d) as (d1 & H1 & Hc1); [done|apply Hl; set_solver|].
  pose proof (rebuild_spec _ _ _ _ H1) as [HR1 _].
  destruct (recalculate_total z d1) as [d2 H2]; [done|apply (relists_exists _ _ _ _ HR1), Hl; set_solver|].
  pose proof (recalculate_relists _ _ _ _ H2) as HR2.
  destruct (IH d2) as (d3 & H3 & Hc3).
  - apply (relists_closed _ _ _ HR2 Hc1). intros x y Hy. apply (Hc1 x). tauto.
  - intros x Hx. apply (relists_exists _ _ _ _ HR2), (relists_exists _ _ _ _ HR1), Hl. set_solver.
  - exists d3. split; [|done]. cbn [for_each]. erewrite st_bind_run; [exact H3|].
    by erewrite st_bind_run; [exact H2|].
Qed.

(** ** The graph of friends and requests *)

Record social (d : database) : Prop := {
  mutual : forall x y, y ∈ friends_of d x -> x ∈ friends_of d y;
  not_self : forall x, x ∉ friends_of d x;
  levels : forall x y, y ∈ second_of d x <-> two_steps d x y;
  pending : forall x y, y ∈ waiting_of d x -> y ∉ friends_of d x;
  known_accounts : closed d
}.
Definition scored : database -> Prop := scored_but (fun _ => False).

(** What the lists mean: who is a friend of whom, and who asked whom. *)
Record graph := Graph { known : gset (Z * Z); asked : gset (Z * Z) }.

Definition befriend_spec (x y : Z) (g : graph) : graph :=
  if decide ((x, y) ∈ known g) then g
  else if decide ((x, y) ∈ asked g) then g
  else if decide ((y, x) ∈ asked g) then Graph (known g ∪ {[(x, y); (y, x)]}) (asked g ∖ {[(y, x)]})
  else Graph (known g) (asked g ∪ {[(x, y)]}).

Definition unfriend_spec (x y : Z) (g : graph) : graph :=
  if decide ((x, y) ∈ asked g) then Graph (known g) (asked g ∖ {[(x, y)]})
  else if decide ((y, x) ∈ asked g) then Graph (known g) (asked g ∖ {[(y, x)]})
  else Graph (known g ∖ {[(x, y); (y, x)]}) (asked g).

Record rep (d : database) (g : graph) : Prop := {
  rep_known : forall x y, (x, y) ∈ known g <-> y ∈ friends_of d x;
  rep_asked : forall x y, (x, y) ∈ asked g <-> x ∈ waiting_of d y
}.

(** An operation that only changes a waiting list. *)
Lemma set_waiting d i a w : get_opt d i = Some a -> Account.friends w = Account.friends a ->
  Account.second_level w = Account.second_level a -> Account.vesting_shares w = Account.vesting_shares a ->
  Account.score w = Account.score a -> (forall y, y ∈ Account.waiting w -> y ∉ Account.friends a) ->
  social d -> social (set_obj d i w) /\ (scored d -> scored (set_obj d i w)).
Proof.
  intros Ha Hf Hs Hv Hsc Hw [].
  assert (forall x, friends_of (set_obj d i w) x = friends_of d x) as Hf'.
  { intros x. rewrite lists_set. destruct (decide _) as [->|]; [|done]. by rewrite (lists_some _ _ _ a). }
  assert (forall x, second_of (set_obj d i w) x = second_of d x) as Hs'.
  { intros x. rewrite lists_set. destruct (decide _) as [->|]; [|done]. by rewrite (lists_some _ _ _ a). }
  split; [split|].
  - intros x y. rewrite !Hf'. apply mutual0.
  - intros x. rewrite !Hf'. apply not_self0.
  - intros x y. rewrite Hs', (two_steps_ext d) by done. apply levels0.
  - intros x y. rewrite Hf', lists_set. destruct (decide _) as [->|]; [|apply pending0].
    intros Hy. rewrite (lists_some _ _ _ a) by done. by apply Hw.
  - apply (closed_set _ _ a); [done..|]. intros y. rewrite Hf, Hs. intros Hy. apply (known_accounts0 i).
    by rewrite !(lists_some _ _ _ a).
  - intros Hd x b _ Hb. rewrite get_set_obj in Hb. unfold scored, scored_but in Hd.
    destruct (decide (x = i)) as [->|].
    + injection Hb as <-. rewrite Hsc, <- (Hd i a) by tauto. apply scoring_ext; try done.
      intros x. by apply (shares_set _ _ a).
    + rewrite <- (Hd x b) by tauto. apply scoring_ext; try done. intros y. by apply (shares_set _ _ a).
Qed.

(** *** The steps of an approved friendship *)

Lemma befriend_step d i j (a b f : Account.t) : get_opt d i = Some a ->
  Account.friends b = Account.friends a -> Account.second_level b = Account.second_level a ->
  let d' := set_obj d i (befriend f i j b) in forall v w,
  (w ∈ friends_of d' v <-> (v = i /\ w = j) \/ w ∈ friends_of d v) /\
  (w ∈ second_of d' v <-> if decide (v = i) then w <> i /\ (w ∈ Account.friends f \/ w ∈ second_of d i) else w ∈ second_of d v) /\
  waiting_of d' v = if decide (v = i) then Account.waiting b else waiting_of d v.
Proof.
  intros Ha Hf Hs d' v w. unfold d'. rewrite !lists_set. destruct (decide (v = i)) as [->|]; [|naive_solver].
  rewrite !(lists_some _ _ _ a) by done.
  change (Account.friends (befriend f i j b)) with (ids_insert j (Account.friends b)).
  change (Account.second_level (befriend f i j b)) with
    (ids_erase i (ids_insert_all (Account.friends f) (Account.second_level b))).
  change (Account.waiting (befriend f i j b)) with (Account.waiting b).
  rewrite insert_ids, erase_ids, insert_all_ids, Hf, Hs. naive_solver.
Qed.

Lemma befriend_closed d i j (a b f : Account.t) : get_opt d i = Some a -> closed d ->
  Account.friends b = Account.friends a -> Account.second_level b = Account.second_level a ->
  exists_account d j -> get_opt d j = Some f -> closed (set_obj d i (befriend f i j b)).
Proof.
  intros Ha Hc Hf Hs Hj Hfj v w. rewrite (exists_set _ _ a) by done.
  destruct (befriend_step d i j a b f Ha Hf Hs v w) as (-> & -> & _).
  rewrite <- (lists_some Account.friends _ _ _ Hfj).
  intros [[[-> ->]|H]|H]; [done|apply (Hc v); tauto|]. destruct (decide _); [|apply (Hc v); tauto].
  destruct H as [_ [H|H]]; [apply (Hc j)|apply (Hc i)]; tauto.
Qed.

(** One account takes the other as a friend. *)
Lemma befriend_half d i j g (a f : Account.t) : closed d -> get_opt d i = Some a -> get_opt d j = Some f ->
  (forall a, Account.friends (g a) = Account.friends a) ->
  (forall a, Account.second_level (g a) = Account.second_level a) ->
  (forall a, Account.vesting_shares (g a) = Account.vesting_shares a) ->
  exists d1 d', modify_pure i (fun a => befriend f i j (g a)) d = Ok (tt, d1) /\ recalculate_score i d1 = Ok (tt, d') /\
  closed d' /\ (scored d -> scored d') /\ (forall z, exists_account d' z <-> exists_account d z) /\
  forall v w,
  (w ∈ friends_of d' v <-> (v = i /\ w = j) \/ w ∈ friends_of d v) /\
  (w ∈ second_of d' v <-> if decide (v = i) then w <> i /\ (w ∈ friends_of d j \/ w ∈ second_of d i) else w ∈ second_of d v) /\
  waiting_of d' v = if decide (v = i) then Account.waiting (g a) else waiting_of d v.
Proof.
  intros Hc Ha Hf Hg1 Hg2 Hg3. set (d1 := set_obj d i (befriend f i j (g a))).
  assert (modify_pure i (fun a => befriend f i j (g a)) d = Ok (tt, d1)) as H1 by by apply (obj_modify_run _ _ _ a).
  assert (closed d1) as Hc1 by (apply (befriend_closed _ _ _ a); [auto..|by exists f|done]).
  assert (forall z, exists_account d1 z <-> exists_account d z) as He by (intros z; by apply (exists_set _ _ a)).
  destruct (recalculate_total i d1) as [d' H2]; [done|apply He; by exists a|].
  pose proof (recalculate_relists _ _ _ _ H2) as HR.
  exists d1, d'. split_and!; [done..| | | |].
  - apply (relists_closed _ _ _ HR Hc1). intros v w Hw. apply (Hc1 v). tauto.
  - intros Hs. eapply scored_weaken; [|eapply scored_recalculate, scored_modify, Hs; [exact H2| |exact H1]]; [naive_solver|exact Hg3].
  - intros z. by rewrite (relists_exists _ _ _ _ HR), He.
  - intros v w. rewrite (re_friends _ _ _ HR), (re_waiting _ _ _ HR), (re_second _ _ _ HR), (lists_some _ d j f) by done.
    by apply (befriend_step d i j a (g a) f).
Qed.

Section Approve.
Variables (x y : Z) (a1 a2 : Account.t) (d : database).
Hypothesis Hd : closed d.
Hypothesis Hx : get_opt d x = Some a1.
Hypothesis Hy : get_opt d y = Some a2.
Hypothesis Hxy : x <> y.

(** The second levels once the friends of both know the other one. *)
Definition extended (v w : Z) : Prop :=
  (v ∈ friends_of d x /\ w = y) \/ (v ∈ friends_of d y /\ w = x) \/ w ∈ second_of d v.

Lemma extend_both : exists d1 d2, extend_second_levels (Account.friends a2) x d = Ok (tt, d1) /\
  extend_second_levels (Account.friends a1) y d1 = Ok (tt, d2) /\ closed d2 /\ (scored d -> scored d2) /\
  relists d d2 extended.
Proof.
  destruct (extend_total (Account.friends a2) x d) as (d1 & H1 & Hc1); [done|by exists a1|intros z Hz; apply (Hd y);
    rewrite (lists_some _ _ _ a2) by done; tauto|].
  destruct (extend_spec _ _ _ _ _ H1) as [HR1 HS1].
  assert (forall z, exists_account d1 z <-> exists_account d z) as He1 by (intros z; apply (relists_exists _ _ _ _ HR1)).
  destruct (extend_total (Account.friends a1) y d1) as (d2 & H2 & Hc2); [done|apply He1; by exists a2|intros z Hz; apply He1, (Hd x);
    rewrite (lists_some _ _ _ a1) by done; tauto|].
  destruct (extend_spec _ _ _ _ _ H2) as [HR2 HS2]. exists d1, d2. split_and!; [done..|intros Hs; by apply HS2, HS1|].
  refine (relists_weaken _ _ _ _ (relists_trans _ _ _ _ _ HR1 HR2) _). intros v w. cbn beta.
  rewrite (re_second _ _ _ HR1). unfold extended. rewrite (lists_some _ d x a1), (lists_some _ d y a2) by done. done.
Qed.

Lemma approve_run : exists d', approve_friendship (x, a1) (y, a2) d = Ok (tt, d') /\ closed d' /\ (scored d -> scored d') /\
  forall v w,
  (w ∈ friends_of d' v <-> (v = x /\ w = y) \/ (v = y /\ w = x) \/ w ∈ friends_of d v) /\
  (w ∈ waiting_of d' v <-> ~ (v = x /\ w = y) /\ w ∈ waiting_of d v) /\
  (w ∈ second_of d' v <->
     if decide (v = y) then w <> y /\ (w ∈ friends_of d x \/ extended y w)
     else if decide (v = x) then w <> x /\ (w ∈ friends_of d y \/ extended x w) else extended v w).
Proof.
  destruct extend_both as (d1 & d2 & H1 & H2 & Hc2 & HS2 & HR).
  assert (exists_account d2 x) as [b1 Hb1] by (apply (relists_exists _ _ _ _ HR); by exists a1).
  assert (exists_account d2 y) as [b2 Hb2] by (apply (relists_exists _ _ _ _ HR); by exists a2).
  destruct (befriend_half d2 x y (fun a => a <| Account.waiting ::= ids_erase y |>) b1 b2)
    as (d3 & d4 & H3 & H4 & Hc4 & HS4 & He4 & HL4); [done..|].
  assert (exists_account d4 x) as [c1 Hc1] by (apply He4; by exists b1).
  assert (exists_account d4 y) as [c2 Hc2'] by (apply He4; by exists b2).
  destruct (befriend_half d4 y x (fun a => a) c2 c1) as (d5 & d6 & H5 & H6 & Hc6 & HS6 & He6 & HL6); [done..|].
  exists d6. split_and!; [|done|intros Hs; by apply HS6, HS4, HS2|].
  { unfold approve_friendship. cbn [fst snd].
    rewrite (st_bind_run _ _ _ _ _ H1), (st_bind_run _ _ _ _ _ H2), (st_bind_run _ _ _ b2 d2) by by apply get_Ok.
    rewrite (st_bind_run _ _ _ _ _ H3), (st_bind_run _ _ _ _ _ H4), (st_bind_run _ _ _ c1 d4) by by apply get_Ok.
    by rewrite (st_bind_run _ _ _ _ _ H5). }
  intros v w. destruct (HL6 v w) as (Hf6 & Hs6 & Hw6). destruct (HL4 v w) as (Hf4 & Hs4 & Hw4).
  rewrite Hf6, Hs6, Hw6. clear Hf6 Hs6 Hw6.
  rewrite <- (lists_some Account.waiting d4 y c2) by done.
  split_and!.
  - rewrite Hf4, (re_friends _ _ _ HR). tauto.
  - assert (waiting_of d4 v = if decide (v = x) then ids_erase y (waiting_of d x) else waiting_of d v) as Hwv.
    { rewrite Hw4, (re_waiting _ _ _ HR). destruct (decide _); [|done].
      rewrite <- (re_waiting _ _ _ HR), (lists_some _ d2 x b1) by done. done. }
    assert (w ∈ waiting_of d4 v <-> ~ (v = x /\ w = y) /\ w ∈ waiting_of d v) as Hv.
    { rewrite Hwv. destruct (decide (v = x)) as [->|]; [rewrite erase_ids|]; tauto. }
    destruct (decide (v = y)) as [->|]; exact Hv.
  - destruct (decide (v = y)) as [->|].
    + destruct (HL4 x w) as (-> & _). destruct (HL4 y w) as (_ & -> & _).
      rewrite decide_False by done. rewrite (re_friends _ _ _ HR), (re_second _ _ _ HR). naive_solver.
    + rewrite Hs4. destruct (decide (v = x)) as [->|]; rewrite ?(re_friends _ _ _ HR), (re_second _ _ _ HR); done.
Qed.

Lemma approve_social d' : social d -> y ∉ friends_of d x -> closed d' ->
  (forall v w,
  (w ∈ friends_of d' v <-> (v = x /\ w = y) \/ (v = y /\ w = x) \/ w ∈ friends_of d v) /\
  (w ∈ waiting_of d' v <-> ~ (v = x /\ w = y) /\ w ∈ waiting_of d v) /\
  (w ∈ second_of d' v <->
     if decide (v = y) then w <> y /\ (w ∈ friends_of d x \/ extended y w)
     else if decide (v = x) then w <> x /\ (w ∈ friends_of d y \/ extended x w) else extended v w)) ->
  x ∉ waiting_of d y -> social d'.
Proof.
  intros [Hm Hn Hl Hp _] Hxf Hc HL Hxw.
  assert (forall v w, w ∈ friends_of d' v <-> (v = x /\ w = y) \/ (v = y /\ w = x) \/ w ∈ friends_of d v) as HF
    by (intros; apply HL).
  split; [..|done].
  - intros v w. rewrite !HF. specialize (Hm v w). tauto.
  - intros v. rewrite HF. specialize (Hn v). intros [[]|[[]|]]; congruence.
  - intros v w. destruct (HL v w) as (_ & _ & ->). unfold two_steps, extended. setoid_rewrite HF. pose proof (Hn x) as Hnx. pose proof (Hn y) as Hny.
    assert (x ∉ friends_of d y) as Hyf by (intros ?%Hm; done).
    destruct (decide (v = y)) as [->|Hvy]; [|destruct (decide (v = x)) as [->|Hvx]];
      rewrite Hl; unfold two_steps.
    + split; [intros (Hw & [Hw1|[[]|[[]|(_ & f & Hf & Hw1)]]]); [|done..|]; split; try done; [exists x|exists f]; tauto|].
      intros (Hw & f & [[]|[[_ ->]|Hf]] & Hw'); [done|split; [done|]; left; destruct Hw' as [[]|[[]|]]; done|].
      split; [done|]. right. right. right. split; [done|]. exists f. split; [done|].
      destruct Hw' as [[-> ->]|[[-> ->]|]]; done.
    + split; [intros (Hw & [Hw1|[[]|[[]|(_ & f & Hf & Hw1)]]]); [|done..|]; split; try done; [exists y|exists f]; tauto|].
      intros (Hw & f & [[_ ->]|[[]|Hf]] & Hw'); [split; [done|]; left; destruct Hw' as [[]|[[]|]]; done|done|].
      split; [done|]. right. right. right. split; [done|]. exists f. split; [done|].
      destruct Hw' as [[-> ->]|[[-> ->]|]]; done.
    + split; [intros [[Hv ->]|[[Hv ->]|(Hw & f & Hf & Hw')]]; split; try done|].
      * exists x. apply Hm in Hv. tauto.
      * exists y. apply Hm in Hv. tauto.
      * exists f. tauto.
      * intros (Hw & f & [[]|[[]|Hf]] & Hw'); [done..|].
        destruct Hw' as [[-> ->]|[[-> ->]|Hw']]; [left; apply Hm in Hf; tauto|right; left; apply Hm in Hf; tauto|].
        right. right. split; [done|]. by exists f.
  - intros v w. destruct (HL v w) as (_ & -> & _). rewrite HF. intros [Hne Hw] [[-> ->]|[[-> ->]|Hw']]; [tauto|tauto|].
    by apply (Hp v w).
Qed.
End Approve.

(** C22 A friendship operation does to the graph of friends and pending requests what
    the abstract graph says: it is ignored between friends or when it repeats a
    request, it is a mutual friendship when it answers one, and else a request.  It
    always returns, it keeps friendship mutual, the second-level lists equal to
    the friends of friends, and every score equal to the one the lists give. *)
Theorem friendship_refines (o : friendship_operation) x y (a b : Account.t) d g :
  social d -> rep d g ->
  lookup_where (fun a => String.eqb (Account.name a) (fr_who o)) d = Some (x, a) ->
  lookup_where (fun a => String.eqb (Account.name a) (fr_whom o)) d = Some (y, b) ->
  exists d', friendship_apply o d = Ok (tt, d') /\ social d' /\ rep d' (befriend_spec x y g) /\ (scored d -> scored d').
Proof.
  intros Hd [HK HA] Hx Hy. pose proof (lookup_where_Some _ _ _ _ Hx) as [Ha _]. pose proof (lookup_where_Some _ _ _ _ Hy) as [Hb _].
  unfold friendship_apply.
  rewrite (st_bind_run _ _ _ (x, a) d), (st_bind_run _ _ _ (y, b) d) by by apply get_account_Ok. cbn [fst snd].
  pose proof (HK x y) as Hk. pose proof (HA x y) as Hxy. pose proof (HA y x) as Hyx.
  rewrite (lists_some _ d x a) in Hk by done. rewrite (lists_some _ d x a) in Hyx by done.
  rewrite (lists_some _ d y b) in Hxy by done.
  unfold befriend_spec. destruct (ids_find y (Account.friends a)) eqn:E1.
  { apply find_ids in E1. rewrite decide_True by by apply Hk. by exists d. }
  apply not_true_iff_false in E1. rewrite find_ids, <- Hk in E1. rewrite decide_False by done.
  destruct (ids_find x (Account.waiting b)) eqn:E2.
  { apply find_ids in E2. rewrite decide_True by by apply Hxy. by exists d. }
  apply not_true_iff_false in E2. rewrite find_ids, <- Hxy in E2. rewrite decide_False by done.
  destruct (ids_find y (Account.waiting a)) eqn:E3.
  - apply find_ids in E3. rewrite decide_True by by apply Hyx.
    assert (x <> y) as Hne by (intros ->; apply E2; by apply Hyx).
    destruct (approve_run x y a b d) as (d' & Hr & Hc & HS & HL); [apply Hd|done..|].
    exists d'. split_and!; [done| | |done].
    + apply (approve_social x y d Hne d'); [done| |done|done|]; [by rewrite <- HK|by rewrite <- HA].
    + split; intros v w; cbn [known asked].
      * destruct (HL v w) as (-> & _). rewrite <- HK, elem_of_union. set_solver.
      * destruct (HL w v) as (_ & -> & _). rewrite <- HA, elem_of_difference, elem_of_singleton. naive_solver.
  - apply not_true_iff_false in E3. rewrite find_ids, <- Hyx in E3. rewrite decide_False by done.
    set (w := b <| Account.waiting ::= ids_insert x |>).
    exists (set_obj d y w). split; [by apply (obj_modify_run _ _ _ b)|].
    destruct (set_waiting d y b w) as [Hs HS]; [done|done|done|done|done| |done|].
    { intros z. cbn. rewrite insert_ids, <- (lists_some Account.friends d y b) by done. intros [->|Hz].
      - intros Hf. apply (mutual d Hd), HK in Hf. done.
      - apply (pending d Hd). by rewrite (lists_some _ d y b). }
    split_and!; [done| |done]. split; intros v u; cbn [known asked].
    + rewrite HK, lists_set. destruct (decide _) as [->|]; [by rewrite (lists_some _ d y b)|done].
    + rewrite elem_of_union, elem_of_singleton, HA, lists_set. destruct (decide _) as [->|]; [|naive_solver].
      rewrite (lists_some _ d y b) by done. cbn. rewrite insert_ids. naive_solver.
Qed.

(** *** The end of a friendship *)

Lemma recalculate_run i d : closed d -> exists_account d i -> exists d', recalculate_score i d = Ok (tt, d') /\ closed d' /\
  relists d d' (fun x y => y ∈ second_of d x) /\
  forall D, scored_but D d -> scored_but (fun x => D x /\ x <> i) d'.
Proof.
  intros Hc Hi. destruct (recalculate_total i d Hc Hi) as [d' H]. exists d'.
  pose proof (recalculate_relists _ _ _ _ H) as HR. split_and!; [done| |done|].
  - apply (relists_closed _ _ _ HR Hc). intros v w Hw. apply (Hc v). tauto.
  - intros D. by apply (scored_recalculate D _ _ _ _ H).
Qed.

Lemma rebuild_run i d : closed d -> exists_account d i -> exists d', rebuild_second_level i d = Ok (tt, d') /\ closed d' /\
  relists d d' (fun x y => if decide (x = i) then two_steps d x y else y ∈ second_of d x) /\
  forall D, scored_but D d -> scored_but (fun x => D x \/ x = i) d'.
Proof.
  intros Hc Hi. destruct (rebuild_total i d Hc Hi) as (d' & H & Hc'). exists d'.
  by destruct (rebuild_spec _ _ _ _ H).
Qed.

Lemma rebuild_friends_run i d : closed d -> exists_account d i -> exists d', rebuild_friends i d = Ok (tt, d') /\ closed d' /\
  relists d d' (fun x y => if decide (x ∈ friends_of d i) then two_steps d x y else y ∈ second_of d x) /\
  (scored d -> scored d').
Proof.
  intros Hc [a Ha]. destruct (rebuild_all_total (Account.friends a) d) as (d' & H & Hc'); [done| |].
  { intros x Hx. apply (Hc i). rewrite (lists_some _ d i a) by done. tauto. }
  exists d'. rewrite (lists_some _ d i a) by done. destruct (rebuild_all_spec _ _ _ _ H) as [HR HS].
  split_and!; [|done..]. unfold rebuild_friends. by rewrite (st_bind_run _ _ _ a d) by by apply get_Ok.
Qed.

(** Code that rebuilds some lists leaves each list the old one or the friends of friends. *)
Lemma relists_rebuilt (P Q : Z -> Prop) `{!forall x, Decision (P x), !forall x, Decision (Q x)} d d1 d2 :
  relists d d1 (fun x y => if decide (P x) then two_steps d x y else y ∈ second_of d x) ->
  relists d1 d2 (fun x y => if decide (Q x) then two_steps d1 x y else y ∈ second_of d1 x) ->
  relists d d2 (fun x y => if decide (P x \/ Q x) then two_steps d x y else y ∈ second_of d x).
Proof.
  intros H1 H2. refine (relists_weaken _ _ _ _ (relists_trans _ _ _ _ _ H1 H2) _). intros x y. cbn beta.
  pose proof (two_steps_ext d d1 x y (re_friends _ _ _ H1)) as Ht. pose proof (re_second _ _ _ H1 x y) as Hs.
  cbn beta in Hs. repeat case_decide; tauto.
Qed.

Lemma relists_none d d' : relists d d' (fun x y => y ∈ second_of d x) ->
  relists d d' (fun x y => if decide (x ∈ []) then two_steps d x y else y ∈ second_of d x).
Proof. intros H. refine (relists_weaken _ _ _ _ H _). intros x y. by rewrite decide_False by set_solver. Qed.

Section Remove.
Variables (x y : Z) (a b : Account.t) (d : database).
Hypothesis Hd : closed d.
Hypothesis Hx : get_opt d x = Some a.
Hypothesis Hy : get_opt d y = Some b.
Hypothesis Hxy : x <> y.

Lemma unlink_step : let d2 := set_obj (set_obj d y (unlink x b)) x (unlink y a) in
  closed d2 /\ (scored d -> scored_but (fun v => v = x \/ v = y) d2) /\
  (forall z, exists_account d2 z <-> exists_account d z) /\
  forall v w, (w ∈ friends_of d2 v <-> w ∈ friends_of d v /\ ~ (v = x /\ w = y) /\ ~ (v = y /\ w = x)) /\
  (v <> x -> v <> y -> second_of d2 v = second_of d v) /\ waiting_of d2 v = waiting_of d v.
Proof.
  cbn zeta. set (d1 := set_obj d y (unlink x b)). assert (get_opt d1 x = Some a) as Hx1.
  { unfold d1. rewrite get_set_obj. by rewrite decide_False. }
  assert (modify_pure y (unlink x) d = Ok (tt, d1)) as H1 by by apply (obj_modify_run _ _ _ b).
  assert (modify_pure x (unlink y) d1 = Ok (tt, set_obj d1 x (unlink y a))) as H2 by by apply (obj_modify_run _ _ _ a).
  split_and!.
  - assert (closed d1) as Hc1.
    { apply (closed_set _ _ b); [done..|]. intros z [Hz|Hz%elem_of_nil]; [|done].
      change (Account.friends (unlink x b)) with (ids_erase x (Account.friends b)) in Hz. apply erase_ids in Hz as [_ Hz].
      apply (Hd y). rewrite (lists_some _ d y b) by done. tauto. }
    apply (closed_set _ _ a); [done..|]. intros z [Hz|Hz%elem_of_nil]; [|done].
    change (Account.friends (unlink y a)) with (ids_erase y (Account.friends a)) in Hz. apply erase_ids in Hz as [_ Hz].
    apply (Hc1 x). rewrite (lists_some _ d1 x a) by done. tauto.
  - intros Hs. eapply scored_weaken; [|eapply scored_modify, scored_modify, Hs; [|exact H2| |exact H1]; done]. naive_solver.
  - intros z. rewrite (exists_set _ _ a) by done. by apply (exists_set _ _ b).
  - intros v w. unfold d1. rewrite !lists_set.
    change (Account.friends (unlink y a)) with (ids_erase y (Account.friends a)).
    change (Account.friends (unlink x b)) with (ids_erase x (Account.friends b)).
    change (Account.waiting (unlink y a)) with (Account.waiting a).
    change (Account.waiting (unlink x b)) with (Account.waiting b).
    destruct (decide (v = x)) as [->|]; [|destruct (decide (v = y)) as [->|]].
    + rewrite !(lists_some _ d x a), erase_ids by done. naive_solver.
    + rewrite !(lists_some _ d y b), erase_ids by done. naive_solver.
    + naive_solver.
Qed.

Lemma remove_friendship_run : exists d2 d', remove_friendship x y d = Ok (tt, d') /\ closed d' /\ (scored d -> scored d') /\
  d2 = set_obj (set_obj d y (unlink x b)) x (unlink y a) /\
  relists d2 d' (fun v w => if decide (v = x \/ v = y \/ v ∈ friends_of d2 x \/ v ∈ friends_of d2 y)
                            then two_steps d2 v w else w ∈ second_of d2 v).
Proof.
  destruct unlink_step as (Hc2 & HS2 & He2 & _). exists (set_obj (set_obj d y (unlink x b)) x (unlink y a)).
  set (d2 := set_obj (set_obj d y _) x _) in *.
  destruct (rebuild_run x d2) as (d3 & H3 & Hc3 & HR3 & HS3); [done|apply He2; by exists a|].
  destruct (rebuild_run y d3) as (d4 & H4 & Hc4 & HR4 & HS4); [done|apply (relists_exists _ _ _ _ HR3), He2; by exists b|].
  pose proof (relists_rebuilt (fun v => v = x) (fun v => v = y) _ _ _ HR3 HR4) as R4.
  destruct (recalculate_run x d4) as (d5 & H5 & Hc5 & HR5 & HS5); [done|apply (relists_exists _ _ _ _ R4), He2; by exists a|].
  pose proof (relists_rebuilt _ (fun v => v ∈ []) _ _ _ R4 (relists_none _ _ HR5)) as R5.
  destruct (recalculate_run y d5) as (d6 & H6 & Hc6 & HR6 & HS6); [done|apply (relists_exists _ _ _ _ R5), He2; by exists b|].
  pose proof (relists_rebuilt _ (fun v => v ∈ []) _ _ _ R5 (relists_none _ _ HR6)) as R6.
  destruct (rebuild_friends_run x d6) as (d7 & H7 & Hc7 & HR7 & HS7); [done|apply (relists_exists _ _ _ _ R6), He2; by exists a|].
  pose proof (relists_rebuilt _ (fun v => v ∈ friends_of d6 x) _ _ _ R6 HR7) as R7.
  destruct (rebuild_friends_run y d7) as (d8 & H8 & Hc8 & HR8 & HS8); [done|apply (relists_exists _ _ _ _ R7), He2; by exists b|].
  pose proof (relists_rebuilt _ (fun v => v ∈ friends_of d7 y) _ _ _ R7 HR8) as R8.
  exists d8. split_and!; [|done| |done|].
  - unfold remove_friendship. rewrite (st_bind_run _ _ _ tt (set_obj d y (unlink x b))) by by apply (obj_modify_run _ _ _ b).
    rewrite (st_bind_run _ _ _ tt d2) by (apply (obj_modify_run _ _ _ a); [|done]; rewrite get_set_obj; by rewrite decide_False).
    rewrite (st_bind_run _ _ _ _ _ H3), (st_bind_run _ _ _ _ _ H4), (st_bind_run _ _ _ _ _ H5), (st_bind_run _ _ _ _ _ H6).
    by rewrite (st_bind_run _ _ _ _ _ H7).
  - intros Hs. apply HS8, HS7. eapply scored_weaken; [|apply HS6, HS5, HS4, HS3, HS2, Hs]. naive_solver.
  - refine (relists_weaken _ _ _ _ R8 _). intros v w.
    rewrite (re_friends _ _ _ R7), (re_friends _ _ _ R6). destruct (decide (v = x \/ v = y \/ _)) as [Hv|Hv].
    + rewrite decide_True; [done|]. tauto.
    + rewrite decide_False; [done|]. set_solver.
Qed.

Lemma remove_social d2 d' : social d -> closed d' ->
  d2 = set_obj (set_obj d y (unlink x b)) x (unlink y a) ->
  relists d2 d' (fun v w => if decide (v = x \/ v = y \/ v ∈ friends_of d2 x \/ v ∈ friends_of d2 y)
                            then two_steps d2 v w else w ∈ second_of d2 v) ->
  social d' /\ forall v w,
  (w ∈ friends_of d' v <-> w ∈ friends_of d v /\ ~ (v = x /\ w = y) /\ ~ (v = y /\ w = x)) /\
  waiting_of d' v = waiting_of d v.
Proof.
  intros [Hm Hn Hl Hp _] Hc -> HR. destruct unlink_step as (_ & _ & _ & HU). set (d2 := set_obj (set_obj d y _) x _) in *.
  assert (forall v w, w ∈ friends_of d' v <-> w ∈ friends_of d v /\ ~ (v = x /\ w = y) /\ ~ (v = y /\ w = x)) as HF.
  { intros v w. rewrite (re_friends _ _ _ HR). apply HU. }
  assert (forall v, waiting_of d' v = waiting_of d v) as HW.
  { intros v. rewrite (re_waiting _ _ _ HR). by apply (HU v 0). }
  split; [|intros v w; by split]. split; [..|done].
  - intros v w. rewrite !HF. specialize (Hm v w). tauto.
  - intros v. rewrite HF. specialize (Hn v). tauto.
  - intros v w. rewrite (re_second _ _ _ HR), (two_steps_ext d2 d') by apply HR.
    destruct (decide _) as [|Hv]; [done|]. assert (v <> x /\ v <> y) as [Hvx Hvy] by tauto.
    destruct (HU v w) as (_ & -> & _); [|done..]. rewrite Hl. unfold two_steps.
    assert (forall f u, f ∈ friends_of d v -> u ∈ friends_of d2 f <-> u ∈ friends_of d f) as Hf.
    { intros f u Hf. destruct (HU f u) as (-> & _). assert (f <> x /\ f <> y); [|naive_solver].
      split; intros ->; apply Hv; apply Hm in Hf; [right; right; left|right; right; right];
        (apply (HU _ v); split_and!; [done|naive_solver..]). }
    setoid_rewrite (proj1 (HU v _)). split; intros (Hw & f & Hf1 & Hf2); (split; [done|]); exists f.
    + split; [split; [done|naive_solver]|by apply Hf].
    + destruct Hf1 as [Hf1 _]. split; [done|]. by apply Hf.
  - intros v w. rewrite HW, HF. intros Hw [Hf _]. by apply (Hp v w).
Qed.
End Remove.

(** C23 An unfriend operation withdraws a request in either direction, or else ends the
    friendship, as the abstract graph says.  It always returns and keeps the same
    invariants. *)
Theorem unfriend_refines (o : unfriend_operation) x y (a b : Account.t) d g :
  social d -> rep d g ->
  lookup_where (fun a => String.eqb (Account.name a) (un_who o)) d = Some (x, a) ->
  lookup_where (fun a => String.eqb (Account.name a) (un_whom o)) d = Some (y, b) ->
  exists d', unfriend_apply o d = Ok (tt, d') /\ social d' /\ rep d' (unfriend_spec x y g) /\ (scored d -> scored d').
Proof.
  intros Hd [HK HA] Hx Hy. pose proof (lookup_where_Some _ _ _ _ Hx) as [Ha _]. pose proof (lookup_where_Some _ _ _ _ Hy) as [Hb _].
  unfold unfriend_apply.
  rewrite (st_bind_run _ _ _ (x, a) d), (st_bind_run _ _ _ (y, b) d) by by apply get_account_Ok. cbn [fst snd].
  pose proof (HA x y) as Hxy. pose proof (HA y x) as Hyx.
  rewrite (lists_some _ d x a) in Hyx by done. rewrite (lists_some _ d y b) in Hxy by done.
  assert (forall i j (c : Account.t), get_opt d i = Some c ->
    let d' := set_obj d i (c <| Account.waiting ::= ids_erase j |>) in
    social d' /\ rep d' (Graph (known g) (asked g ∖ {[(j, i)]})) /\ (scored d -> scored d')) as Hw.
  { intros i j c Hc d'. destruct (set_waiting d i c (c <| Account.waiting ::= ids_erase j |>)) as [Hs HS]; [done..| |done|].
    - intros z. cbn. rewrite erase_ids, <- (lists_some Account.friends d i c), <- (lists_some Account.waiting d i c) by done.
      intros [_ Hz]. by apply (pending d Hd).
    - split_and!; [done| |done]. split; intros v u; cbn [known asked].
      + unfold d'. rewrite HK, lists_set. destruct (decide _) as [->|]; [by rewrite (lists_some _ d i c)|done].
      + unfold d'. rewrite elem_of_difference, elem_of_singleton, HA, lists_set.
        destruct (decide _) as [->|]; [|naive_solver].
        rewrite (lists_some _ d i c) by done. cbn. rewrite erase_ids. naive_solver. }
  unfold unfriend_spec. destruct (ids_find x (Account.waiting b)) eqn:E1.
  { apply find_ids in E1. rewrite decide_True by by apply Hxy. eexists. split; [by apply (obj_modify_run _ _ _ b)|]. by apply Hw. }
  apply not_true_iff_false in E1. rewrite find_ids, <- Hxy in E1. rewrite decide_False by done.
  destruct (ids_find y (Account.waiting a)) eqn:E2.
  { apply find_ids in E2. rewrite decide_True by by apply Hyx. eexists. split; [by apply (obj_modify_run _ _ _ a)|]. by apply Hw. }
  apply not_true_iff_false in E2. rewrite find_ids, <- Hyx in E2. rewrite decide_False by done.
  destruct (ids_find x (Account.friends b)) eqn:E3.
  - apply find_ids in E3. rewrite <- (lists_some _ d y b) in E3 by done.
    assert (x <> y) as Hne by (intros ->; by apply (not_self d Hd y)).
    destruct (remove_friendship_run x y a b d) as (d2 & d' & Hr & Hc & HS & E & HR); [apply Hd|done..|].
    destruct (remove_social x y a b d (known_accounts _ Hd) Ha Hb Hne d2 d') as [Hs HL]; [done..|].
    exists d'. split_and!; [done..| |done]. split; intros v u; cbn [known asked].
    + destruct (HL v u) as [-> _]. rewrite elem_of_difference, HK. set_solver.
    + destruct (HL u v) as [_ ->]. apply HA.
  - apply not_true_iff_false in E3. rewrite find_ids, <- (lists_some _ d y b) in E3 by done.
    exists d. split_and!; [done..| |done]. split; intros v u; cbn [known asked]; [|apply HA].
    rewrite elem_of_difference, HK. split; [tauto|]. intros Hu. split; [done|].
    rewrite elem_of_union, !elem_of_singleton. intros [[= -> ->]|[= -> ->]]; [apply E3; by apply (mutual d Hd)|done].
Qed.

(** [detail::isqrt] returns the integer square root of every argument below 2^62; at
    2^62 its 32-bit root overflows and it returns 0. *)
Lemma isqrt_correct x : (0 <= x < 2 ^ 62 -> isqrt x = Z.sqrt x) /\ isqrt (2 ^ 62) = 0.
Proof. split; [apply isqrt_below|apply isqrt_overflows]. Qed.

Lemma isqrt_correct_witness : 0 <= 1000000 < 2 ^ 62 /\ isqrt 1000000 = 1000.
Proof. split; [done|]. etransitivity; [apply (isqrt_correct 1000000); done|]. reflexivity. Defined.

(** ** Examples *)

Lemma lists_row (f : Account.t -> list Z) (P : Z -> list Z -> Prop) d :
  (forall x (a : Account.t), get_opt d x = Some a -> P x (f a)) -> (forall x, P x []) -> forall x, P x (lists f d x).
Proof. intros Hd Hn x. unfold lists. destruct (get_opt d x) eqn:E; [by apply Hd|apply Hn]. Qed.

Lemma lists_rows (f : Account.t -> list Z) (Q : Z -> Z -> Prop) d :
  (forall x (a : Account.t), get_opt d x = Some a -> Forall (Q x) (f a)) -> forall x y, y ∈ lists f d x -> Q x y.
Proof.
  intros Hd x. apply Forall_forall. apply (lists_row f (fun x l => Forall (Q x) l)); [done|]. intros. apply Forall_nil_2.
Qed.
Ltac few := each_row; repeat constructor; set_solver.

(** Bob has asked alice, and then alice has accepted. *)
Definition requested : database := Sample.after (friendship_apply (FriendshipOp "bob" "alice")) Sample.state.
Definition befriended : database := Sample.after (friendship_apply (FriendshipOp "alice" "bob")) requested.

Lemma no_friends d : (forall x (a : Account.t), get_opt d x = Some a -> Account.friends a = [] /\ Account.second_level a = []) ->
  social d.
Proof.
  intros H. assert (forall x, friends_of d x = []) as HF.
  { apply (lists_row Account.friends (fun _ l => l = [])); [|done]. intros. by eapply H. }
  assert (forall x, second_of d x = []) as HS.
  { apply (lists_row Account.second_level (fun _ l => l = [])); [|done]. intros. by eapply H. }
  split; unfold two_steps, closed; setoid_rewrite HF; try setoid_rewrite HS; set_solver.
Qed.

Lemma friendship_refines_witness : exists d', friendship_apply (FriendshipOp "alice" "bob") requested = Ok (tt, d') /\
  social d' /\ rep d' (befriend_spec 0 1 (Graph empty {[(1, 0)]})).
Proof.
  destruct (friendship_refines (FriendshipOp "alice" "bob") 0 1
    (Sample.alice <| Account.proxied_vsf_votes := [300; 0; 0; 0] |> <| Account.witnesses_voted_for := 1 |>
       <| Account.waiting := [1] |>) Sample.bob requested (Graph empty {[(1, 0)]})) as (d' & H1 & H2 & H3 & _).
  - apply no_friends. each_row; done.
  - split; intros x y; cbn [known asked].
    + split; [set_solver|]. apply (lists_rows Account.friends (fun x y => (x, y) ∈ ∅)). few.
    + split; [intros [= -> ->]%elem_of_singleton; vm_compute; by constructor|]. apply (lists_rows Account.waiting (fun y x => (x, y) ∈ {[(1, 0)]})). few.
  - vm_compute. reflexivity.
  - vm_compute. reflexivity.
  - by exists d'.
Defined.

Lemma unfriend_refines_witness : exists d', unfriend_apply (UnfriendOp "bob" "alice") befriended = Ok (tt, d') /\
  social d' /\ rep d' (unfriend_spec 1 0 (Graph {[(0, 1); (1, 0)]} empty)).
Proof.
  assert (forall x y, y ∈ friends_of befriended x <-> (x = 0 /\ y = 1) \/ (x = 1 /\ y = 0)) as HF.
  { intros x y. split; [|intros [[-> ->]|[-> ->]]; vm_compute; by constructor]. 
    apply (lists_rows Account.friends (fun x y => (x = 0 /\ y = 1) \/ (x = 1 /\ y = 0))).
    each_row; repeat constructor; lia. }
  assert (forall x, second_of befriended x = []) as HS.
  { apply (lists_row Account.second_level (fun x l => l = [])); [each_row; done|done]. }
  assert (forall x, waiting_of befriended x = []) as HW.
  { apply (lists_row Account.waiting (fun x l => l = [])); [each_row; done|done]. }
  assert (social befriended) as Hs.
  { split.
    - intros x y. rewrite !HF. tauto.
    - intros x. rewrite HF. lia.
    - intros x y. rewrite HS. unfold two_steps. setoid_rewrite HF. split; [by intros ?%elem_of_nil|].
      intros (Hne & f & Hf & Hy). lia.
    - intros x y. rewrite HW. by intros ?%elem_of_nil.
    - intros x y. rewrite HS, HF. intros [[[-> ->]|[-> ->]]|?%elem_of_nil]; [..|done]; eexists; vm_compute; reflexivity. }
  assert (rep befriended (Graph {[(0, 1); (1, 0)]} empty)) as Hr.
  { clear Hs. split; intros x y; cbn [known asked].
    - rewrite HF, elem_of_union, !elem_of_singleton.
      split; [intros [[= -> ->]|[= -> ->]]; [by left|by right]|intros [[-> ->]|[-> ->]]; [by left|by right]].
    - rewrite HW. split; [by intros ?%elem_of_empty|by intros ?%elem_of_nil]. }
  eassert (lookup_where (fun a => String.eqb (Account.name a) "bob") befriended = Some (1, _)) as Hb by (vm_compute; reflexivity).
  eassert (lookup_where (fun a => String.eqb (Account.name a) "alice") befriended = Some (0, _)) as Ha by (vm_compute; reflexivity).
  destruct (unfriend_refines (UnfriendOp "bob" "alice") _ _ _ _ _ _ Hs Hr Hb Ha) as (d' & H1 & H2 & H3 & _).
  exists d'. exact (conj H1 (conj H2 H3)).
Defined.

(** Deposits that raise the root of an account's shares by one each time never reach
    the scores of its friends: half of one is rounded to zero. *)
Definition deposit (a vests : Z) : st database unit :=
  acc ← get (V:=Account.t) a;
  _ ← modify_pure a (fun acc => acc <| Account.vesting_shares := Asset vests VESTS_SYMBOL |>);
  recursive_recalculate_score a (vests - amount (Account.vesting_shares acc)).

Lemma friends_fall_behind :
  let d := Sample.after (_ ← deposit 0 529; _ ← deposit 0 576; _ ← deposit 0 625; deposit 0 676) befriended in
  option_map (fun bob => (Account.score bob, scoring d bob)) (get_opt (V:=Account.t) d 1) = Some (28, Ok 30).
Proof. vm_compute. reflexivity. Qed.

End SocialFacts.
