(* ===== verification/Vesting.v ===== *)
(** * Vesting

    Models the vesting fund: [create_vesting], [process_vesting_withdrawals] and
    [clear_expired_delegations] of database.cpp, [get_vesting_share_price] of
    global_property_object.hpp, and the evaluators of base_evaluator.cpp that vest,
    power down, route withdrawals and delegate.  The virtual operations that are
    pushed for observers are no part of the state. *)

From S2P Require Import Prelude.
From S2P Require Import SafeInt.
From S2P Require Import Uint128.
From S2P Require Import Asset.
From S2P Require Import UndoDatabase.
From S2P Require Import Authority.
From S2P Require Import State.
From S2P Require Import Balance.
From S2P Require Import Votes.
From S2P Require Import Social.

Definition BTCM_VESTING_WITHDRAW_INTERVALS : Z := 13.
Definition BTCM_VESTING_WITHDRAW_INTERVAL_SECONDS : Z := 60 * 60 * 24 * 7.
Definition BTCM_MAX_WITHDRAW_ROUTES : Z := 10.

Record transfer_to_vesting_operation := ToVestingOp { tv_from : string; tv_to : string; tv_amount : asset }.
Record withdraw_vesting_operation := WithdrawOp { wd_account : string; wd_vesting_shares : asset }.
Record set_withdraw_vesting_route_operation := RouteOp {
  sr_from_account : string;
  sr_to_account : string;
  sr_percent : Z;
  sr_auto_vest : bool
}.
Record delegate_vesting_shares_operation := DelegateOp {
  dv_delegator : string;
  dv_delegatee : string;
  dv_vesting_shares : asset
}.

Module Vesting.
Import AssetOps Balances Votes Social.

Definition get_vesting_share_price (p : Dgpo.t) : price :=
  if (amount (Dgpo.total_vesting_fund_btcm p) =? 0) || (amount (Dgpo.total_vesting_shares p) =? 0)
  then Price (Asset 1 BTCM_SYMBOL) (Asset 1 VESTS_SYMBOL)
  else Price (Dgpo.total_vesting_shares p) (Dgpo.total_vesting_fund_btcm p).

Section Vesting.
Context {B : BoostMP}.

(** ** [create_vesting] *)

Definition add_vests (n : asset) (a : Account.t) : result Account.t :=
  v ← asset_add (Account.vesting_shares a) n; Ok (a <| Account.vesting_shares := v |>).

Definition fund_vesting (btcm new_vesting : asset) (sp : bool) (props : Dgpo.t) : result Dgpo.t :=
  f ← asset_add (Dgpo.total_vesting_fund_btcm props) btcm;
  v ← asset_add (Dgpo.total_vesting_shares props) new_vesting;
  p ← (if sp then Safe.add (Dgpo.total_vested_by_platforms props) (amount new_vesting)
       else Ok (Dgpo.total_vested_by_platforms props));
  Ok (props <| Dgpo.total_vesting_fund_btcm := f |> <| Dgpo.total_vesting_shares := v |>
            <| Dgpo.total_vested_by_platforms := p |>).

Definition create_vesting (to_account : Z) (btcm : asset) : st database asset :=
  d ← get_st;
  new_vesting ← lift (asset_mul btcm (get_vesting_share_price (dgpo d)));
  _ ← modify to_account (add_vests new_vesting);
  to ← get (V:=Account.t) to_account;
  sp ← find_streaming_platform (Account.name to);
  _ ← modify_dgpo (fund_vesting btcm new_vesting (bool_decide (is_Some sp)));
  _ ← adjust_proxied_witness_votes to_account (amount new_vesting);
  _ ← recursive_recalculate_score to_account (amount new_vesting);
  mret new_vesting.

Definition transfer_to_vesting_apply (o : transfer_to_vesting_operation) : st database unit :=
  from_account ← get_account (tv_from o);
  to_account ← (if (0 <? String.length (tv_to o))%nat then get_account (tv_to o) else mret from_account);
  b ← get_balance from_account.1 BTCM_SYMBOL;
  _ ← assert_asset (asset_geb b (tv_amount o));
  n ← lift (asset_neg (tv_amount o));
  _ ← adjust_balance from_account.1 n;
  _ ← create_vesting to_account.1 (tv_amount o);
  mret tt.

(** ** Powering down *)

Definition stop_withdrawing (a : Account.t) : Account.t :=
  a <| Account.vesting_withdraw_rate := Asset 0 VESTS_SYMBOL |> <| Account.next_vesting_withdrawal := max_time |>
    <| Account.to_withdraw := 0 |> <| Account.withdrawn := 0 |>.

Definition start_withdrawing (now : Z) (shares : asset) (a : Account.t) : result Account.t :=
  r ← Safe.div (amount shares) BTCM_VESTING_WITHDRAW_INTERVALS;
  let rate := Asset (if r =? 0 then 1 else r) VESTS_SYMBOL in
  _ ← fc_assert (negb (asset_eqb (Account.vesting_withdraw_rate a) rate));
  Ok (a <| Account.vesting_withdraw_rate := rate |>
        <| Account.next_vesting_withdrawal := u32 (now + BTCM_VESTING_WITHDRAW_INTERVAL_SECONDS) |>
        <| Account.to_withdraw := amount shares |> <| Account.withdrawn := 0 |>).

Definition withdraw_vesting_apply (o : withdraw_vesting_operation) : st database unit :=
  account ← get_account (wd_account o);
  d ← get_st;
  _ ← assert_asset (asset_geb (Account.vesting_shares account.2) (Asset 0 VESTS_SYMBOL));
  free ← lift (asset_sub (Account.vesting_shares account.2) (Account.delegated_vesting_shares account.2));
  _ ← assert_asset (asset_geb free (wd_vesting_shares o));
  min_vests ← lift (asset_mul (ChainProps.account_creation_fee (Schedule.median_props (schedule d)))
                 (get_vesting_share_price (dgpo d)));
  m ← lift (raw_int64 (amount min_vests * 10));
  _ ← assert_asset (asset_gtb (Account.vesting_shares account.2) (Asset m (asset_id min_vests)));
  if amount (wd_vesting_shares o) <=? 0 then
    _ ← (if amount (wd_vesting_shares o) =? 0
         then assert_st (negb (amount (Account.vesting_withdraw_rate account.2) =? 0)) else mret tt);
    modify_pure account.1 stop_withdrawing
  else modify account.1 (start_withdrawing (head_block_time d) (wd_vesting_shares o)).

(** The rows of [by_withdraw_route] after the key (account, account 0). *)
Definition by_to_account (x y : Z * Route.t) : Prop := Route.to_account x.2 <= Route.to_account y.2.
#[export] Instance by_to_account_dec : RelDecision by_to_account.
Proof. unfold by_to_account. solve_decision. Defined.
Definition routes_of (a : Z) (d : database) : list (Z * Route.t) :=
  List.filter (fun kv => (Route.from_account kv.2 =? a) && (0 <? Route.to_account kv.2)) (in_order by_to_account d).

Definition total_percent (l : list (Z * Route.t)) : Z :=
  foldl (fun t kv => u16 (t + Route.percent kv.2)) 0 l.

Definition set_withdraw_vesting_route_apply (o : set_withdraw_vesting_route_operation) : st database unit :=
  from_account ← get_account (sr_from_account o);
  to_account ← get_account (sr_to_account o);
  itr ← find_where (fun r : Route.t =>
          (Route.from_account r =? from_account.1) && (Route.to_account r =? to_account.1));
  let route := Route.Make from_account.1 to_account.1 (sr_percent o) (sr_auto_vest o) in
  _ ← match itr with
      | None =>
          _ ← assert_st (negb (sr_percent o =? 0));
          _ ← assert_st (Account.withdraw_routes from_account.2 <? BTCM_MAX_WITHDRAW_ROUTES);
          _ ← create route;
          modify_pure from_account.1 (fun a => a <| Account.withdraw_routes ::= fun n => u16 (n + 1) |>)
      | Some (i, _) =>
          if sr_percent o =? 0 then
            _ ← remove (V:=Route.t) i;
            modify_pure from_account.1 (fun a => a <| Account.withdraw_routes ::= fun n => u16 (n - 1) |>)
          else modify_pure i (fun _ => route)
      end;
  d ← get_st;
  assert_st (total_percent (routes_of from_account.1 d) <=? BTCM_100_PERCENT).

(** ** [process_vesting_withdrawals] *)

Definition withdrawal_amount (a : Account.t) : result Z :=
  rest ← Safe.sub (Account.to_withdraw a) (Account.withdrawn a);
  if rest <? amount (Account.vesting_withdraw_rate a) then
    m ← Safe.rem (Account.to_withdraw a) (amount (Account.vesting_withdraw_rate a));
    Ok (Z.min (amount (Account.vesting_shares a)) m)
  else Ok (Z.min (amount (Account.vesting_shares a)) (amount (Account.vesting_withdraw_rate a))).

Definition route_share (to_withdraw percent : Z) : result Z :=
  q ← Uint128.div (Uint128.mul (Uint128.of_int64 to_withdraw) (Uint128.of_int32 percent))
        (Uint128.of_int32 BTCM_100_PERCENT);
  r ← Uint128.to_uint64 q;
  Ok (i64 r).

(** A deposit as vesting shares; the running total of the pass is returned. *)
Definition deposit_vests (to_withdraw : Z) (vests_deposited_as_vests : Z) (itr : Route.t) : st database Z :=
  if Route.auto_vest itr then
    to_deposit ← lift (route_share to_withdraw (Route.percent itr));
    sum ← lift (Safe.add vests_deposited_as_vests to_deposit);
    _ ← (if to_deposit >? 0 then
           to_account ← get (V:=Account.t) (Route.to_account itr);
           _ ← modify (Route.to_account itr) (fun a =>
                 v ← Safe.add (amount (Account.vesting_shares a)) to_deposit;
                 Ok (a <| Account.vesting_shares ::= fun s => s <| amount := v |> |>));
           _ ← adjust_proxied_witness_votes (Route.to_account itr) to_deposit;
           recursive_recalculate_score (Route.to_account itr) to_deposit
         else mret tt);
    mret sum
  else mret vests_deposited_as_vests.

Definition leave_fund (converted_btcm : asset) (vests : Z) (o : Dgpo.t) : result Dgpo.t :=
  f ← asset_sub (Dgpo.total_vesting_fund_btcm o) converted_btcm;
  v ← Safe.sub (amount (Dgpo.total_vesting_shares o)) vests;
  Ok (o <| Dgpo.total_vesting_fund_btcm := f |> <| Dgpo.total_vesting_shares ::= fun s => s <| amount := v |> |>).

(** A deposit as BTCM. *)
Definition deposit_btcm (to_withdraw : Z) (vests_deposited_as_btcm : Z) (itr : Route.t) : st database Z :=
  if negb (Route.auto_vest itr) then
    _ ← get (V:=Account.t) (Route.to_account itr);
    to_deposit ← lift (route_share to_withdraw (Route.percent itr));
    sum ← lift (Safe.add vests_deposited_as_btcm to_deposit);
    d ← get_st;
    converted_btcm ← lift (asset_mul (Asset to_deposit VESTS_SYMBOL) (get_vesting_share_price (dgpo d)));
    _ ← (if to_deposit >? 0 then
           _ ← modify (Route.to_account itr) (fun a =>
                 b ← asset_add (Account.balance a) converted_btcm; Ok (a <| Account.balance := b |>));
           modify_dgpo (leave_fund converted_btcm to_deposit)
         else mret tt);
    mret sum
  else mret vests_deposited_as_btcm.

(** One pass over the routes of an account. *)
Fixpoint over_routes (f : Z -> Route.t -> st database Z) (sum : Z) (l : list (Z * Route.t)) : st database Z :=
  match l with
  | [] => mret sum
  | r :: l => sum ← f sum r.2; over_routes f sum l
  end.

(** What the account itself gives and gets. *)
Definition pay_withdrawal (to_withdraw : Z) (converted_btcm : asset) (a : Account.t) : result Account.t :=
  v ← Safe.sub (amount (Account.vesting_shares a)) to_withdraw;
  b ← asset_add (Account.balance a) converted_btcm;
  w ← Safe.add (Account.withdrawn a) to_withdraw;
  let a := a <| Account.vesting_shares ::= fun s => s <| amount := v |> |> <| Account.balance := b |>
             <| Account.withdrawn := w |> in
  Ok (if (w >=? Account.to_withdraw a) || (v =? 0)
      then a <| Account.vesting_withdraw_rate ::= fun s => s <| amount := 0 |> |>
             <| Account.next_vesting_withdrawal := max_time |>
      else a <| Account.next_vesting_withdrawal ::= fun t => u32 (t + BTCM_VESTING_WITHDRAW_INTERVAL_SECONDS) |>).

Definition process_withdrawal (from_account : Z) : st database unit :=
  from ← get (V:=Account.t) from_account;
  to_withdraw ← lift (withdrawal_amount from);
  d ← get_st;
  vests_deposited_as_vests ← over_routes (deposit_vests to_withdraw) 0 (routes_of from_account d);
  d ← get_st;
  vests_deposited_as_btcm ← over_routes (deposit_btcm to_withdraw) 0 (routes_of from_account d);
  to_convert ← lift (Safe.sub to_withdraw vests_deposited_as_btcm);
  to_convert ← lift (Safe.sub to_convert vests_deposited_as_vests);
  _ ← assert_st (to_convert >=? 0);
  d ← get_st;
  converted_btcm ← lift (asset_mul (Asset to_convert VESTS_SYMBOL) (get_vesting_share_price (dgpo d)));
  _ ← modify from_account (pay_withdrawal to_withdraw converted_btcm);
  _ ← modify_dgpo (leave_fund converted_btcm to_convert);
  if to_withdraw >? 0 then
    n ← lift (Safe.neg to_withdraw);
    _ ← adjust_proxied_witness_votes from_account n;
    recursive_recalculate_score from_account n
  else mret tt.

(** [by_next_vesting_withdrawal]: where an iterator stands is the id of an account. *)
Definition by_next (x y : Z * Account.t) : Prop :=
  Account.next_vesting_withdrawal x.2 < Account.next_vesting_withdrawal y.2 \/
  (Account.next_vesting_withdrawal x.2 = Account.next_vesting_withdrawal y.2 /\ x.1 <= y.1).
#[export] Instance by_next_dec : RelDecision by_next.
Proof. unfold by_next. solve_decision. Defined.

(** [++current] *)
Definition after_id (id : Z) (l : list (Z * Account.t)) : option Z :=
  match list_find (fun kv => kv.1 = id) l with
  | Some (i, _) => fst <$> l !! S i
  | None => None
  end.

(** The weeks by which withdrawals are due; each turn of the loop makes one less. *)
Definition weeks_due (now : Z) (a : Account.t) : Z :=
  if Account.next_vesting_withdrawal a <=? now
  then (now - Account.next_vesting_withdrawal a) / BTCM_VESTING_WITHDRAW_INTERVAL_SECONDS + 1 else 0.
Definition withdrawals_due (d : database) : nat := Z.to_nat (total (weeks_due (head_block_time d)) d).

Fixpoint withdraw_loop (fuel : nat) (current : option Z) : st database unit :=
  match current with
  | None => mret tt
  | Some id =>
      d ← get_st;
      from_account ← get (V:=Account.t) id;
      if Account.next_vesting_withdrawal from_account <=? head_block_time d then
        match fuel with
        | O => throw undefined_behaviour
        | S fuel =>
            let next := after_id id (in_order by_next d) in
            _ ← process_withdrawal id;
            withdraw_loop fuel next
        end
      else mret tt
  end.

Definition process_vesting_withdrawals : st database unit :=
  d ← get_st;
  withdraw_loop (withdrawals_due d) (fst <$> head (in_order by_next d)).

End Vesting.
End Vesting.
