(* ===== verification/VestingFacts.v ===== *)
(** * Vesting: facts

    Vesting and powering down conserve BTCM and VESTS, never lower the value of a
    share, and follow the schedule of a withdrawal; the withdrawal loop ends. *)

From S2P Require Import Prelude.
From S2P Require Import SafeInt.
From S2P Require Import Uint128.
From S2P Require Import Uint128Facts.
From S2P Require Import Asset.
From S2P Require Import AssetFacts.
From S2P Require Import UndoDatabase.
From S2P Require Import Authority.
From S2P Require Import State.
From S2P Require Import Sample.
From S2P Require Import Balance.
From S2P Require Import BalanceFacts.
From S2P Require Import Votes.
From S2P Require Import Social.
From S2P Require Import Vesting.

(** ** Changes of votes and scores alone *)

Module Quiet.
Import Votes Social Supply.

(** An account without what votes and scores change. *)
Definition core (a : Account.t) : Account.t := a <| Account.score := 0 |> <| Account.proxied_vsf_votes := [] |>.

Record quiet (d d' : database) : Prop := {
  quiet_accounts : core <$> indices (accounts d') = core <$> indices (accounts d);
  quiet_next : next_id (accounts d') = next_id (accounts d);
  quiet_rest : d' = d <| accounts := accounts d' |> <| witnesses := witnesses d' |> <| platforms := platforms d' |>
}.

Lemma database_eta (d : database) : d <| accounts := accounts d |> <| witnesses := witnesses d |> <| platforms := platforms d |> = d.
Proof. by destruct d. Qed.

Lemma quiet_refl d : quiet d d.
Proof. split; [done..|]. by rewrite database_eta. Qed.

Lemma quiet_trans d1 d2 d3 : quiet d1 d2 -> quiet d2 d3 -> quiet d1 d3.
Proof.
  intros [H1 N1 E1] [H2 N2 E2]. split; [congruence..|].
  rewrite E2 at 1. rewrite E1 at 1. done.
Qed.

#[export] Instance quiet_preorder : PreOrder quiet.
Proof. split; [exact quiet_refl|exact quiet_trans]. Qed.

Lemma quiet_set d i (a w : Account.t) : get_opt d i = Some a -> core w = core a -> quiet d (set_obj d i w).
Proof.
  intros Ha Hw. split; [|done|by destruct d].
  change (accounts (set_obj d i w)) with (accounts d <| indices ::= <[i := w]> |>). cbn.
  rewrite fmap_insert, Hw, <- fmap_insert, insert_id; [done|]. exact Ha.
Qed.

Lemma quiet_get d d' i : quiet d d' -> core <$> get_opt (V:=Account.t) d' i = core <$> get_opt (V:=Account.t) d i.
Proof.
  intros [H _ _]. unfold get_opt. cbn. rewrite <- !lookup_fmap. by rewrite H.
Qed.

Lemma quiet_dgpo d d' : quiet d d' -> dgpo d' = dgpo d.
Proof. intros [_ _ ->]. done. Qed.

Lemma quiet_total d d' (f : Account.t -> Z) : (forall a, f (core a) = f a) -> quiet d d' -> total f d' = total f d.
Proof.
  intros Hf [H _ _]. unfold total. cbn.
  rewrite <- (map_sum_ext (fun a => f (core a)) f (indices (accounts d'))) by (intros; apply Hf).
  rewrite <- (map_sum_ext (fun a => f (core a)) f (indices (accounts d))) by (intros; apply Hf).
  by rewrite <- !(map_sum_fmap core), H.
Qed.

Lemma quiet_gap d d' id : quiet d d' -> gap id d' = gap id d.
Proof.
  intros Hq. unfold gap, held_btcm, held_mbd, held_vests.
  rewrite !(quiet_total d d') by done. rewrite (quiet_dgpo d d') by done. destruct Hq as [_ _ ->]. done.
Qed.

Lemma quiet_modify i f d u d' : (forall a w, f a = Ok w -> core w = core a) -> modify (V:=Account.t) i f d = Ok (u, d') -> quiet d d'.
Proof. intros Hf H. apply modify_Ok in H as (a & w & Ha & Hw & ->). apply (quiet_set d i a w); auto. Qed.

Lemma quiet_for_each {A} (l : list A) f d u d' : (forall x d u d', f x d = Ok (u, d') -> quiet d d') ->
  for_each l f d = Ok (u, d') -> quiet d d'.
Proof. intros Hf. apply (for_each_inv (quiet d)); [|reflexivity]. intros x s u1 s' _ Hs H. etransitivity; [exact Hs|eauto]. Qed.

Section Quiet.
Context {B : BoostMP}.

Lemma quiet_witness d i (w : Witness.t) : quiet d (set_obj d i w).
Proof. split; [done..|by destruct d]. Qed.
Lemma quiet_platform d i (p : Platform.t) : quiet d (set_obj d i p).
Proof. split; [done..|by destruct d]. Qed.

Lemma quiet_votes i x d u d' : adjust_proxied_witness_votes i x d = Ok (u, d') -> quiet d d'.
Proof.
  unfold adjust_proxied_witness_votes. generalize BTCM_MAX_PROXY_RECURSION_DEPTH at 1 as room.
  intros room. revert i d. induction room as [|room IH]; intros i d H; cbn [adjust_proxied_delta] in H;
    step H as a Ha; destruct (negb _).
  1: { apply st_ret_Ok in H as [_ ->]. reflexivity. }
  2: { step H as p Hp. apply st_bind_Ok in H as (u1 & d1 & H1 & H). etransitivity; [|by apply (IH p.1)].
       eapply quiet_modify; [|exact H1]. intros acc w Hw. unfold add_proxied in Hw.
       apply bind_Ok in Hw as (v & _ & Hw). apply bind_Ok in Hw as (s & _ & [= <-]). by destruct acc. }
  all: apply st_bind_Ok in H as (u1 & d1 & H1 & H); etransitivity.
  1, 3: unfold adjust_witness_votes in H1; step H1; eapply quiet_for_each; [|exact H1];
    intros kv e v e' He; unfold adjust_witness_vote in He; step He; apply modify_Ok in He as (? & ? & _ & _ & ->);
    apply quiet_witness.
  all: unfold adjust_streaming_platform_votes in H; step H; eapply quiet_for_each; [|exact H];
    intros kv e v e' He; unfold adjust_streaming_platform_vote in He; step He;
    apply modify_Ok in He as (? & ? & _ & _ & ->); apply quiet_platform.
Qed.

Lemma quiet_score i x d u d' : recursive_recalculate_score i x d = Ok (u, d') -> quiet d d'.
Proof.
  intros H. unfold recursive_recalculate_score in H. step H as a Ha. step H as old Ho.
  assert (forall i f d u d', (forall a, core (f a) = core a) -> modify_pure (V:=Account.t) i f d = Ok (u, d') -> quiet d d') as Hm.
  { intros j f e v e' Hf. apply quiet_modify. by intros b w [= <-]. }
  apply st_bind_Ok in H as (u1 & d1 & H1 & H). apply st_bind_Ok in H as (u2 & d2 & H2 & H).
  apply Hm in H1; [|by intros []]. etransitivity; [exact H1|]. etransitivity.
  - eapply quiet_for_each; [|exact H2]. intros ? ? ? ?. apply Hm. by intros [].
  - eapply quiet_for_each; [|exact H]. intros ? ? ? ?. apply Hm. by intros [].
Qed.
End Quiet.
End Quiet.

Module VestingFacts.
Import AssetOps Balances Votes Social Vesting Quiet Supply AssetFacts.

Section Facts.
Context {B : BoostMP} {BOk : BoostMPOk}.

(** ** Amounts *)

Lemma share_exact w p : amount_ok w -> 0 <= p <= BTCM_100_PERCENT -> route_share w p = Ok (w * p / BTCM_100_PERCENT).
Proof.
  unfold BTCM_100_PERCENT. intros Hw Hp. unfold route_share. change (Uint128.of_int32 BTCM_100_PERCENT) with (U128 0 10000).
  destruct (Uint128.mul_correct (Uint128.of_int64 w) (Uint128.of_int32 p)) as [Wm Vm].
  { apply Uint128.of_int64_wf. }
  { apply Uint128Facts.of_int32_wf. lia. }
  rewrite Uint128.of_int64_nonneg, Uint128Facts.of_int32_val in Vm by (done || lia).
  unfold amount_ok, int64_max in Hw. rewrite Z.mod_small in Vm by nia.
  destruct (Uint128Facts.div_correct (Uint128.mul (Uint128.of_int64 w) (Uint128.of_int32 p)) (U128 0 10000)) as (q & Hq & Wq & Vq);
    [done|done|done|]. rewrite Hq. cbn.
  change (Uint128.val (U128 0 10000)) with 10000 in Vq. rewrite Vm in Vq.
  assert (0 <= w * p / 10000 <= w) by (split; [apply Z.div_pos; nia|apply Z.div_le_upper_bound; nia]).
  rewrite to_uint64_spec by done. rewrite Vq. destruct (Z.ltb_spec (w * p / 10000) (2 ^ 64)); [|lia].
  cbn. rewrite i64_small by (unfold int64_max; lia). done.
Qed.

(** ** The value of a share *)

(** The fund and the shares it is divided into. *)
Definition fund (p : Dgpo.t) : Z := amount (Dgpo.total_vesting_fund_btcm p).
Definition vests (p : Dgpo.t) : Z := amount (Dgpo.total_vesting_shares p).
Record dg_ok (p : Dgpo.t) : Prop := {
  fund_symbol : asset_id (Dgpo.total_vesting_fund_btcm p) = BTCM_SYMBOL;
  vests_symbol : asset_id (Dgpo.total_vesting_shares p) = VESTS_SYMBOL;
  fund_bound : is_int64 (fund p);
  vests_bound : is_int64 (vests p)
}.

(** Shares left the fund, and a share left is worth no less than before. *)
Definition worth (p p' : Dgpo.t) : Prop :=
  dg_ok p' /\ vests p' <= vests p /\
  (0 < vests p' -> 0 < fund p -> 0 < fund p' /\ fund p * vests p' <= fund p' * vests p).

Lemma worth_refl p : dg_ok p -> worth p p.
Proof. unfold worth. intros. split_and!; [done|lia..]. Qed.

Lemma worth_trans p q r : worth p q -> worth q r -> worth p r.
Proof.
  intros (_ & H1 & W1) (Hok & H2 & W2). split_and!; [done|lia|]. intros Hr Hp.
  destruct (W1 ltac:(lia) Hp) as [Hq E1]. destruct (W2 Hr Hq) as [Hr' E2]. split; [done|].
  assert (0 < vests q) by lia. nia.
Qed.

(** The price of vesting shares, when there are any. *)
Lemma price_normal p : dg_ok p -> 0 < vests p -> 0 < fund p ->
  get_vesting_share_price p = Price (Asset (vests p) VESTS_SYMBOL) (Asset (fund p) BTCM_SYMBOL) /\
  price_ok (get_vesting_share_price p).
Proof.
  intros [E1 E2 B1 B2] Hv Hf. unfold is_int64 in *. unfold get_vesting_share_price. fold (fund p) (vests p).
  rewrite (proj2 (Z.eqb_neq (fund p) 0)), (proj2 (Z.eqb_neq (vests p) 0)) by lia. cbn [orb].
  rewrite <- E1, <- E2. unfold fund, vests in *.
  destruct (Dgpo.total_vesting_fund_btcm p) as [f fi], (Dgpo.total_vesting_shares p) as [v vi]. cbn in *. split; [done|].
  unfold price_ok. cbn. subst. split_and!; done || lia.
Qed.

Lemma shares_to_btcm p v c : dg_ok p -> 0 < vests p -> 0 < fund p -> 0 <= v <= vests p ->
  asset_mul (Asset v VESTS_SYMBOL) (get_vesting_share_price p) = Ok c ->
  c = Asset (v * fund p / vests p) BTCM_SYMBOL.
Proof.
  intros Hp Hv Hf Hr H. destruct (price_normal p Hp Hv Hf) as [E Hok]. pose proof Hp as []. unfold is_int64 in *.
  rewrite asset_mul_exact in H by (done || (unfold amount_ok; cbn; lia)). rewrite E in H. cbn in H.
  assert (0 <= v * fund p / vests p <= fund p) by (split; [apply Z.div_pos; nia|apply Z.div_le_upper_bound; nia]).
  destruct (_ <? _); [|done]. injection H as <-. by rewrite i64_small by lia.
Qed.

Lemma leave_worth p v c p' : dg_ok p -> 0 <= v <= int64_max -> is_int64 (amount c) ->
  asset_mul (Asset v VESTS_SYMBOL) (get_vesting_share_price p) = Ok c -> leave_fund c v p = Ok p' ->
  vests p' = vests p - v /\ fund p' = fund p - amount c /\ worth p p'.
Proof.
  intros Hp Hv Hi Hc H. unfold leave_fund in H. apply bind_Ok in H as (f & Hf & H). apply bind_Ok in H as (w & Hw & [= <-]).
  unfold asset_sub in Hf. apply bind_Ok in Hf as (? & Hs%fc_assert_Ok & Hf). apply bind_Ok in Hf as (y & Hy & [= <-]).
  pose proof Hp as [E1 E2 B1 B2]. unfold fund, vests in B1, B2.
  pose proof (Safe.sub_int64 _ _ _ B1 Hi Hy) as By.
  assert (is_int64 v) as Hvi by (unfold is_int64, int64_min, int64_max in *; lia).
  pose proof (Safe.sub_int64 _ _ _ B2 Hvi Hw) as Bw.
  apply Safe.sub_Ok in Hy as ->. apply Safe.sub_Ok in Hw as ->.
  split_and!; [done..|]. split_and!; [split; done|unfold vests; cbn; lia|]. unfold fund, vests. cbn. intros Hv' Hf'.
  apply shares_to_btcm in Hc as ->; [|done|unfold vests; lia|done|unfold vests; lia]. cbn. unfold fund, vests in *.
  set (F := amount (Dgpo.total_vesting_fund_btcm p)) in *. set (V := amount (Dgpo.total_vesting_shares p)) in *.
  assert (0 < V) by lia.
  pose proof (Z.mul_div_le (v * F) V) as Hm. assert (v * F / V < F) by (apply Z.div_lt_upper_bound; nia). nia.
Qed.

(** ** The accounting of withdrawals *)

Definition vesting_ok (a : Account.t) : Prop :=
  amount_ok (amount (Account.vesting_shares a)) /\ amount_ok (amount (Account.vesting_withdraw_rate a)) /\
  amount_ok (Account.to_withdraw a) /\ amount_ok (Account.withdrawn a) /\ 0 <= Account.next_vesting_withdrawal a.

Record vest_ok (d : database) : Prop := {
  ok_accounts : forall i a, get_opt d i = Some a -> vesting_ok a;
  ok_routes : forall i r, get_opt d i = Some r -> 0 <= Route.percent r <= BTCM_100_PERCENT;
  ok_dgpo : dg_ok (dgpo d)
}.

(** Where an account is in its withdrawal. *)
Definition sched (a : Account.t) : Z * asset * Z * Z :=
  (Account.next_vesting_withdrawal a, Account.vesting_withdraw_rate a, Account.to_withdraw a, Account.withdrawn a).

(** The state [d] is [d0] after deposits of [s] shares that are still in the account
    they come from. *)
Record track (d0 : database) (s : Z) (d : database) : Prop := {
  track_ok : vest_ok d;
  track_worth : worth (dgpo d0) (dgpo d);
  track_gap : forall id, gap id d = gap id d0 - (if id =? VESTS_SYMBOL then s else 0);
  track_sched : forall x, sched <$> get_opt d x = sched <$> get_opt d0 x;
  track_more : forall x a0 a, get_opt d0 x = Some a0 -> get_opt d x = Some a ->
    amount (Account.vesting_shares a0) <= amount (Account.vesting_shares a);
  track_time : head_block_time d = head_block_time d0;
  track_routes : routes d = routes d0
}.

Lemma track_refl d : vest_ok d -> track d 0 d.
Proof.
  intros Hd. split; try done.
  - apply worth_refl, Hd.
  - intros id. destruct (_ =? _); lia.
  - intros x a0 a H H'. rewrite H in H'. injection H' as <-. lia.
Qed.

Lemma quiet_field {A} (f : Account.t -> A) d d' : (forall a, f (core a) = f a) -> quiet d d' ->
  forall x, f <$> get_opt d' x = f <$> get_opt d x.
Proof.
  intros Hf Hq x. apply (quiet_get _ _ x) in Hq.
  destruct (get_opt d' x) as [a'|], (get_opt d x) as [a|]; try done. cbn in Hq |- *.
  apply (inj Some) in Hq. f_equal. rewrite <- (Hf a'), Hq. apply Hf.
Qed.

Lemma vest_ok_quiet d d' : quiet d d' -> vest_ok d -> vest_ok d'.
Proof.
  intros Hq [Ha Hr Hp]. split.
  - intros i a Hi. pose proof (quiet_get _ _ i Hq) as E. rewrite Hi in E. cbn in E.
    destruct (get_opt d i) as [b|] eqn:Eb; [|done]. apply (inj Some) in E. apply Ha in Eb.
    change (vesting_ok (core a)). rewrite E. exact Eb.
  - destruct Hq as [_ _ ->]. exact Hr.
  - by rewrite (quiet_dgpo _ _ Hq).
Qed.

Lemma track_quiet d0 s d d' : track d0 s d -> quiet d d' -> track d0 s d'.
Proof.
  intros [H1 H2 H3 H4 Hm H5 H6] Hq. split.
  - by apply (vest_ok_quiet d).
  - by rewrite (quiet_dgpo _ _ Hq).
  - intros id. by rewrite (quiet_gap _ _ _ Hq).
  - intros x. rewrite <- H4. by apply quiet_field.
  - intros x a0 a H0 Ha. pose proof (quiet_field (fun a => Account.vesting_shares a) _ _ (fun _ => eq_refl) Hq x) as E.
    rewrite Ha in E. destruct (get_opt d x) as [b|] eqn:Eb; [|done]. cbn in E. injection E as E.
    rewrite E. by apply (Hm x).
  - unfold head_block_time in *. by rewrite (quiet_dgpo _ _ Hq).
  - destruct Hq as [_ _ ->]. exact H6.
Qed.

(** An account moves [n] new shares and [c] BTCM in. *)
Lemma track_account d0 s s' d i (a w : Account.t) : track d0 s d -> get_opt d i = Some a -> vesting_ok w ->
  sched w = sched a ->
  Account.balance w = Account.balance a -> Account.mbd_balance w = Account.mbd_balance a ->
  amount (Account.vesting_shares a) <= amount (Account.vesting_shares w) ->
  s' = s + amount (Account.vesting_shares w) - amount (Account.vesting_shares a) -> track d0 s' (set_obj d i w).
Proof.
  intros [[H1 H1' H1''] H2 H3 H4 H4' H5 H6] Ha Hw Hn Hb Hm Hle ->. split; [split; [|done..]|done| | | |done|done].
  - intros j b. rewrite get_set_obj. destruct (decide (j = i)); [by intros [= <-]|apply H1].
  - intros id. rewrite (gap_set_account _ _ a w) by done. rewrite H3, Hb, Hm.
    destruct (Z.eqb_spec id BTCM_SYMBOL) as [->|]; [cbn; lia|]. destruct (Z.eqb_spec id XUSD_SYMBOL) as [->|]; [cbn; lia|].
    destruct (id =? VESTS_SYMBOL); lia.
  - intros x. rewrite <- H4, get_set_obj. destruct (decide (x = i)) as [->|]; [|done]. rewrite Ha. cbn. by rewrite Hn.
  - intros x a0 a1 Hx. rewrite get_set_obj. destruct (decide (x = i)) as [->|]; [|by apply H4'].
    intros [= <-]. specialize (H4' i a0 a Hx Ha). lia.
Qed.

Lemma modify_votes_score i n d u d' :
  (_ ← adjust_proxied_witness_votes i n; recursive_recalculate_score i n) d = Ok (u, d') -> quiet d d'.
Proof.
  intros H. apply st_bind_Ok in H as (? & d1 & H1 & H). etransitivity; [by eapply quiet_votes|by eapply quiet_score].
Qed.

Lemma deposit_vests_track d0 w sum r d sum' d' : track d0 sum d -> amount_ok w -> 0 <= Route.percent r <= BTCM_100_PERCENT ->
  deposit_vests w sum r d = Ok (sum', d') -> track d0 sum' d' /\ sum <= sum'.
Proof.
  intros Ht Hw Hr H. unfold deposit_vests in H. destruct (Route.auto_vest r); [|by apply st_ret_Ok in H as [-> ->]].
  rewrite (share_exact w _ Hw Hr) in H. step H as n Hn. injection Hn as <-. step H as s Hs. apply Safe.add_Ok in Hs as ->.
  set (n := w * Route.percent r / BTCM_100_PERCENT) in *.
  assert (0 <= n). { apply Z.div_pos; [|done]. unfold amount_ok in Hw. nia. }
  apply st_bind_Ok in H as (? & d1 & H1 & H). apply st_ret_Ok in H as [-> ->].
  destruct (Z.gtb_spec n 0).
  - step H1 as a Ha. apply st_bind_Ok in H1 as (? & d2 & Hm & H1). apply modify_votes_score in H1.
    apply modify_Ok in Hm as (a' & w' & Ha' & Hw' & ->). simplify_eq. apply bind_Ok in Hw' as (v & Hv & [= <-]).
    split; [|lia]. eapply track_quiet; [|exact H1].
    pose proof (ok_accounts _ (track_ok _ _ _ Ht) _ _ Ha) as (Hv1 & Hv2 & Hv3 & Hv4 & Hv5).
    assert (amount_ok v) as Hvok.
    { pose proof (Safe.add_int64 (amount (Account.vesting_shares a)) n v) as Hi. pose proof (Safe.add_Ok _ _ _ Hv).
      unfold amount_ok, is_int64, int64_min, int64_max in *.
      assert (n <= w) by (apply Z.div_le_upper_bound; unfold BTCM_100_PERCENT in *; nia).
      split; [lia|]. apply Hi; [lia..|done]. }
    pose proof (Safe.add_Ok _ _ _ Hv) as ->.
    apply (track_account _ sum _ _ _ a); try done; cbn; lia.
  - apply st_ret_Ok in H1 as [_ ->]. assert (n = 0) as -> by lia. rewrite Z.add_0_r. by split.
Qed.

Lemma asset_mul_int64 a p c : asset_mul a p = Ok c -> is_int64 (amount c).
Proof.
  assert (forall x num den id, scale x num den id = Ok c -> is_int64 (amount c)) as Hs.
  { intros x num den id H. unfold scale in H. apply bind_Ok in H as (? & _ & H). apply bind_Ok in H as (? & _ & H).
    apply bind_Ok in H as (? & _ & H). apply bind_Ok in H as (r & _ & [= <-]). cbn. unfold is_int64, to_signed.
    pose proof (Z.mod_pos_bound r (2 ^ 64)). change (2 ^ (64 - 1)) with 9223372036854775808. unfold int64_min, int64_max.
    destruct (_ <? _) eqn:E; lia. }
  unfold asset_mul. destruct (_ =? _); [apply Hs|]. destruct (_ =? _); [apply Hs|done].
Qed.

(** [n] shares turn into BTCM of the account [i]; [s'] of them were still its own. *)
Lemma track_leave d0 s s' d d1 d' i (a w : Account.t) n c p : track d0 s d -> 0 <= n <= int64_max ->
  asset_mul (Asset n VESTS_SYMBOL) (get_vesting_share_price (dgpo d)) = Ok c ->
  leave_fund c n (dgpo d) = Ok p -> get_opt d i = Some a -> vesting_ok w ->
  amount (Account.balance w) = amount (Account.balance a) + amount c ->
  Account.mbd_balance w = Account.mbd_balance a ->
  d1 = set_obj d i w -> d' = d1 <| dgpo := p |> ->
  s' = s + n + amount (Account.vesting_shares w) - amount (Account.vesting_shares a) ->
  vest_ok d' /\ worth (dgpo d0) (dgpo d') /\ (forall id, gap id d' = gap id d0 - (if id =? VESTS_SYMBOL then s' else 0)) /\
  (forall x, x <> i -> sched <$> get_opt d' x = sched <$> get_opt d0 x) /\
  head_block_time d' = head_block_time d0 /\ routes d' = routes d0.
Proof.
  intros [[H1 H1' H1''] H2 H3 H4 _ H5 H6] Hn Hc Hp Ha Hw Hb Hm -> -> ->.
  destruct (leave_worth _ _ _ _ H1'' Hn (asset_mul_int64 _ _ _ Hc) Hc Hp) as (Ev & Ef & Hworth).
  assert (amount (Dgpo.current_supply p) = amount (Dgpo.current_supply (dgpo d)) /\
    amount (Dgpo.current_mbd_supply p) = amount (Dgpo.current_mbd_supply (dgpo d)) /\ Dgpo.time p = Dgpo.time (dgpo d)) as (E1 & E2 & E3).
  { unfold leave_fund in Hp. apply bind_Ok in Hp as (? & _ & Hp). by apply bind_Ok in Hp as (? & _ & [= <-]). }
  split_and!.
  - split; [|done|apply Hworth]. intros j b. change (get_opt (V:=Account.t) (set_obj d i w <| dgpo := p |>) j) with (get_opt (V:=Account.t) (set_obj d i w) j).
    rewrite get_set_obj. destruct (decide (j = i)); [by intros [= <-]|apply H1].
  - by eapply worth_trans.
  - intros id. rewrite gap_set_dgpo. change (dgpo (set_obj d i w)) with (dgpo d).
    rewrite (gap_set_account _ _ a w) by done. rewrite H3, Hm, Hb, E1, E2. unfold fund, vests in *.
    destruct (Z.eqb_spec id BTCM_SYMBOL) as [->|]; [cbn; lia|]. destruct (Z.eqb_spec id XUSD_SYMBOL) as [->|]; [cbn; lia|].
    destruct (id =? VESTS_SYMBOL); lia.
  - intros x Hx. rewrite <- H4. change (get_opt (V:=Account.t) (set_obj d i w <| dgpo := p |>) x) with (get_opt (V:=Account.t) (set_obj d i w) x).
    rewrite get_set_obj. by rewrite decide_False.
  - unfold head_block_time in *. cbn. by rewrite E3.
  - exact H6.
Qed.

Lemma deposit_btcm_track d0 w sum r d sum' d' s : track d0 (s + sum) d -> amount_ok w -> 0 <= Route.percent r <= BTCM_100_PERCENT ->
  deposit_btcm w sum r d = Ok (sum', d') -> track d0 (s + sum') d' /\ sum <= sum'.
Proof.
  intros Ht Hw Hr H. unfold deposit_btcm in H. destruct (negb _); [|by apply st_ret_Ok in H as [-> ->]].
  step H as a Ha. rewrite (share_exact w _ Hw Hr) in H. step H as n Hn. injection Hn as <-.
  step H as s1 Hs1. apply Safe.add_Ok in Hs1 as ->. set (n := w * Route.percent r / BTCM_100_PERCENT) in *.
  assert (0 <= n <= w).
  { unfold BTCM_100_PERCENT, amount_ok in *. split; [apply Z.div_pos; nia|apply Z.div_le_upper_bound; nia]. }
  step H. step H as c Hc. apply st_bind_Ok in H as (? & d1 & H1 & H). apply st_ret_Ok in H as [-> ->].
  destruct (Z.gtb_spec n 0).
  - apply st_bind_Ok in H1 as (? & d2 & Hm & H1). apply modify_dgpo_Ok in H1 as (p & Hp & ->).
    apply modify_Ok in Hm as (a' & w' & Ha' & Hw' & ->). rewrite Ha in Ha'. injection Ha' as <-.
    apply bind_Ok in Hw' as (b & Hb & [= <-]). apply AssetLemmas.asset_add_Ok in Hb as [_ ->]. split; [|lia].
    set (a1 := a <| Account.balance := _ |>).
    destruct (track_leave d0 _ (s + (sum + n)) d _ _ _ a a1 n c p Ht ltac:(unfold amount_ok in *; lia) Hc Hp Ha
      (ok_accounts _ (track_ok _ _ _ Ht) _ _ Ha) eq_refl eq_refl eq_refl eq_refl ltac:(cbn; lia)) as (K1 & K2 & K3 & K4 & K5 & K6).
    split; try done; intros y.
    + rewrite <- (track_sched _ _ _ Ht).
      change (get_opt (V:=Account.t) (?e <| dgpo := p |>) y) with (get_opt (V:=Account.t) e y). rewrite get_set_obj.
      destruct (decide _) as [->|]; [by rewrite Ha|done].
    + intros a0 a2 Hy. change (get_opt (V:=Account.t) (?e <| dgpo := p |>) y) with (get_opt (V:=Account.t) e y).
      rewrite get_set_obj. destruct (decide _) as [->|]; [intros [= <-]; by apply (track_more _ _ _ Ht (Route.to_account r) a0 a)|].
      intros Hy'. by apply (track_more _ _ _ Ht y a0 a2).
  - apply st_ret_Ok in H1 as [_ ->]. assert (n = 0) as -> by lia. rewrite Z.add_0_r. by split.
Qed.

Lemma over_routes_inv (P : Z -> database -> Prop) f l s d s' d' :
  (forall sum r d sum' d', r ∈ l -> P sum d -> f sum r.2 d = Ok (sum', d') -> P sum' d' /\ sum <= sum') ->
  P s d -> over_routes f s l d = Ok (s', d') -> P s' d' /\ s <= s'.
Proof.
  revert s d. induction l as [|r l IH]; intros s d Hf Hs H; [apply st_ret_Ok in H as [-> ->]; by split|].
  apply st_bind_Ok in H as (s1 & d1 & H1 & H). apply Hf in H1 as [Hs1 Hle]; [|apply list_elem_of_here|done].
  apply (IH s1 d1) in H as [Hs2 Hle2]; [split; [done|lia]| |done].
  intros sum r' e sum' e' Hr'. apply Hf. by apply list_elem_of_further.
Qed.

Lemma routes_of_ok i d r : vest_ok d -> r ∈ routes_of i d -> 0 <= Route.percent r.2 <= BTCM_100_PERCENT.
Proof.
  intros Hd Hr. unfold routes_of in Hr. rewrite list_elem_of_In, filter_In, <- list_elem_of_In in Hr. destruct Hr as [Hr _].
  unfold in_order in Hr. rewrite merge_sort_Permutation in Hr. destruct r as [j r]. apply elem_of_map_to_list in Hr.
  by apply (ok_routes _ Hd j).
Qed.

Lemma withdrawal_amount_bounds a w : vesting_ok a -> withdrawal_amount a = Ok w -> 0 <= w <= amount (Account.vesting_shares a).
Proof.
  intros (H1 & H2 & H3 & H4 & H5) H. unfold withdrawal_amount in H. apply bind_Ok in H as (rest & Hr & H). unfold amount_ok in *.
  destruct (_ <? _); [|injection H as <-; lia]. apply bind_Ok in H as (m & Hm & [= <-]).
  unfold Safe.rem in Hm. destruct (_ =? 0) eqn:E; [done|]. destruct (_ && _); [done|]. injection Hm as <-.
  assert (0 <= Z.rem (Account.to_withdraw a) (amount (Account.vesting_withdraw_rate a))) by (apply Z.rem_nonneg; lia). lia.
Qed.

(** After a withdrawal. *)
Record withdrew (i : Z) (a : Account.t) (w : Z) (d d' : database) : Prop := {
  wd_ok : vest_ok d';
  wd_worth : worth (dgpo d) (dgpo d');
  wd_gap : forall id, gap id d' = gap id d;
  wd_others : forall x, x <> i -> sched <$> get_opt d' x = sched <$> get_opt d x;
  wd_time : head_block_time d' = head_block_time d;
  wd_self : exists a', get_opt d' i = Some a' /\ Account.to_withdraw a' = Account.to_withdraw a /\
    Account.withdrawn a' = Account.withdrawn a + w /\
    if (Account.withdrawn a' >=? Account.to_withdraw a) || (amount (Account.vesting_shares a') =? 0)
    then amount (Account.vesting_withdraw_rate a') = 0 /\ Account.next_vesting_withdrawal a' = max_time
    else Account.vesting_withdraw_rate a' = Account.vesting_withdraw_rate a /\
         Account.next_vesting_withdrawal a' = u32 (Account.next_vesting_withdrawal a + BTCM_VESTING_WITHDRAW_INTERVAL_SECONDS)
}.

Lemma pay_spec w c a a' : vesting_ok a -> 0 <= w <= amount (Account.vesting_shares a) -> pay_withdrawal w c a = Ok a' ->
  vesting_ok a' /\ amount (Account.balance a') = amount (Account.balance a) + amount c /\
  Account.mbd_balance a' = Account.mbd_balance a /\ amount (Account.vesting_shares a') = amount (Account.vesting_shares a) - w /\
  Account.to_withdraw a' = Account.to_withdraw a /\ Account.withdrawn a' = Account.withdrawn a + w /\
  if (Account.withdrawn a' >=? Account.to_withdraw a) || (amount (Account.vesting_shares a') =? 0)
  then amount (Account.vesting_withdraw_rate a') = 0 /\ Account.next_vesting_withdrawal a' = max_time
  else Account.vesting_withdraw_rate a' = Account.vesting_withdraw_rate a /\
       Account.next_vesting_withdrawal a' = u32 (Account.next_vesting_withdrawal a + BTCM_VESTING_WITHDRAW_INTERVAL_SECONDS).
Proof.
  intros (H1 & H2 & H3 & H4 & H5) Hw H. unfold pay_withdrawal in H. apply bind_Ok in H as (v & Hv & H). apply bind_Ok in H as (b & Hb & H).
  apply bind_Ok in H as (n & Hn & [= <-]). apply AssetLemmas.asset_add_Ok in Hb as [_ ->].
  assert (is_int64 n) as Hi by (eapply Safe.add_int64; [..|exact Hn]; unfold amount_ok, is_int64, int64_min, int64_max in *; lia).
  apply Safe.sub_Ok in Hv as ->. apply Safe.add_Ok in Hn as ->. unfold vesting_ok, amount_ok, is_int64 in *. cbn [amount] in *.
  match goal with |- context [if ?b then _ <| Account.vesting_withdraw_rate ::= _ |> <| _ := _ |> else _] =>
    change b with ((Account.withdrawn a + w >=? Account.to_withdraw a) || (amount (Account.vesting_shares a) - w =? 0)) end.
  pose proof (wrap_bounds 32 (Account.next_vesting_withdrawal a + BTCM_VESTING_WITHDRAW_INTERVAL_SECONDS)).
  destruct (_ || _) eqn:E; cbn -[Z.geb Z.eqb wrap]; rewrite E; split_and!; done || lia.
Qed.

Lemma process_withdrawal_spec i d d' : vest_ok d -> process_withdrawal i d = Ok (tt, d') ->
  exists a w, get_opt d i = Some a /\ withdrawal_amount a = Ok w /\ withdrew i a w d d'.
Proof.
  intros Hd H. unfold process_withdrawal in H. step H as a Ha. step H as w Hw. exists a, w. split_and!; [done..|].
  pose proof (ok_accounts _ Hd _ _ Ha) as Hok. pose proof (withdrawal_amount_bounds _ _ Hok Hw) as Hb.
  assert (amount_ok w) as Hwok by (destruct Hok; unfold amount_ok in *; lia).
  step H. apply st_bind_Ok in H as (s1 & d1 & H1 & H).
  apply (over_routes_inv (track d)) in H1 as [Ht1 Hs1]; [|intros sum r e sum' e' Hr He Hdep; eapply deposit_vests_track;
    [exact He|done|by eapply routes_of_ok|exact Hdep]|by apply track_refl].
  step H. apply st_bind_Ok in H as (s2 & d2 & H2 & H).
  apply (over_routes_inv (fun s => track d (s1 + s))) in H2 as [Ht2 Hs2]; [|intros sum r e sum' e' Hr He Hdep; eapply deposit_btcm_track;
    [exact He|done|by eapply routes_of_ok, Hr; apply Ht1|exact Hdep]|by rewrite Z.add_0_r].
  step H as t1 Ht. apply Safe.sub_Ok in Ht as ->. step H as t2 Ht. apply Safe.sub_Ok in Ht as ->. step H as u0 Hnn.
  step H. step H as c Hc. apply st_bind_Ok in H as (u1 & d3 & H3 & H). apply st_bind_Ok in H as (u2 & d4 & H4 & H).
  apply modify_Ok in H3 as (b & b' & Hgb & Hpay & ->). apply modify_dgpo_Ok in H4 as (p & Hp & ->).
  pose proof (ok_accounts _ (track_ok _ _ _ Ht2) _ _ Hgb) as Hbok.
  pose proof (track_more _ _ _ Ht2 i a b Ha Hgb) as Hmore.
  apply pay_spec in Hpay as (Hbok' & Hbal & Hmbd & Hv & Htw & Hwn & Hend); [|done|lia].
  pose proof (track_sched _ _ _ Ht2 i) as Es. rewrite Ha, Hgb in Es. cbn in Es. injection Es as E1 E2 E3 E4.
  destruct (track_leave d (s1 + s2) 0 d2 _ _ i b b' (w - s2 - s1) c p Ht2 ltac:(unfold amount_ok in *; lia) Hc Hp Hgb Hbok' Hbal Hmbd
    eq_refl eq_refl ltac:(lia)) as (K1 & K2 & K3 & K4 & K5 & K6).
  assert (quiet (set_obj d2 i b' <| dgpo := p |>) d') as Hq.
  { destruct (w >? 0); [|by apply st_ret_Ok in H as [_ ->]]. step H as n Hn. by apply modify_votes_score in H. }
  split.
  - by eapply vest_ok_quiet.
  - by rewrite (quiet_dgpo _ _ Hq).
  - intros id. rewrite (quiet_gap _ _ _ Hq), K3. destruct (id =? VESTS_SYMBOL); lia.
  - intros x Hx. rewrite (quiet_field sched _ _ (fun _ => eq_refl) Hq). by apply K4.
  - unfold head_block_time in *. by rewrite (quiet_dgpo _ _ Hq).
  - pose proof (quiet_field sched _ _ (fun _ => eq_refl) Hq i) as Ef.
    pose proof (quiet_field (fun a => Account.vesting_shares a) _ _ (fun _ => eq_refl) Hq i) as Eg.
    change (get_opt (V:=Account.t) (?e <| dgpo := p |>) i) with (get_opt (V:=Account.t) e i) in Ef, Eg.
    rewrite get_set_obj, decide_True in Ef, Eg by done. destruct (get_opt d' i) as [a'|]; [|done].
    cbn in Ef, Eg. injection Ef as F1 F2 F3 F4. injection Eg as Eg. exists a'. rewrite F1, F2, F3, F4, Eg, <- E1, <- E2, <- E3, <- E4.
    split_and!; [done..|]. by rewrite Hwn in Hend |- *.
Qed.

(** ** The loop *)

Definition WEEK : Z := BTCM_VESTING_WITHDRAW_INTERVAL_SECONDS.

Lemma weeks_nonneg now a : 0 <= weeks_due now a.
Proof.
  unfold weeks_due. destruct (Z.leb_spec (Account.next_vesting_withdrawal a) now); [|done].
  assert (0 <= (now - Account.next_vesting_withdrawal a) / BTCM_VESTING_WITHDRAW_INTERVAL_SECONDS); [|lia].
  apply Z.div_pos; [lia|done].
Qed.

(** The account that was due is due for one week less. *)
Lemma weeks_less i a w d d' : 0 <= head_block_time d -> head_block_time d + WEEK < 2 ^ 32 -> vest_ok d -> get_opt d i = Some a ->
  Account.next_vesting_withdrawal a <= head_block_time d -> withdrew i a w d d' ->
  total (weeks_due (head_block_time d')) d' < total (weeks_due (head_block_time d)) d.
Proof.
  intros H0 Hnow Hd Ha Hdue [_ _ _ Ho Ht (a' & Ha' & _ & _ & Hend)]. rewrite Ht. set (now := head_block_time d) in *.
  set (g := fun s : Z * asset * Z * Z => if s.1.1.1 <=? now then (now - s.1.1.1) / WEEK + 1 else 0).
  change (total (weeks_due now) d') with (map_sum (fun a => g (sched a)) (indices (accounts d'))).
  change (total (weeks_due now) d) with (map_sum (fun a => g (sched a)) (indices (accounts d))).
  rewrite <- !(map_sum_fmap sched g).
  assert (sched <$> indices (accounts d') = <[i := sched a']> (sched <$> indices (accounts d))) as ->.
  { apply map_eq. intros x. rewrite lookup_fmap. destruct (decide (x = i)) as [->|].
    - rewrite lookup_insert_eq. change (indices (accounts d') !! i) with (get_opt (V:=Account.t) d' i). by rewrite Ha'.
    - rewrite lookup_insert_ne, lookup_fmap by done. by apply (Ho x). }
  rewrite (map_sum_insert g _ i (sched a)) by (rewrite lookup_fmap; change (indices (accounts d) !! i) with (get_opt (V:=Account.t) d i); by rewrite Ha).
  assert (g (sched a') < g (sched a)); [|lia]. subst g. cbn -[Z.div].
  rewrite (proj2 (Z.leb_le _ _) Hdue). destruct (ok_accounts _ Hd _ _ Ha) as (_ & _ & _ & _ & Hn).
  assert (0 <= (now - Account.next_vesting_withdrawal a) / WEEK) by (apply Z.div_pos; [lia|done]).
  assert (BTCM_VESTING_WITHDRAW_INTERVAL_SECONDS = 604800) as Ew by done. unfold WEEK in *.
  destruct (_ || _); destruct Hend as [_ ->].
  - rewrite (proj2 (Z.leb_gt _ _)); [lia|]. unfold max_time. lia.
  - rewrite wrap_small by lia. destruct (Z.leb_spec (Account.next_vesting_withdrawal a + BTCM_VESTING_WITHDRAW_INTERVAL_SECONDS) now); [|lia].
    replace (now - (Account.next_vesting_withdrawal a + BTCM_VESTING_WITHDRAW_INTERVAL_SECONDS))
      with (now - Account.next_vesting_withdrawal a + -1 * BTCM_VESTING_WITHDRAW_INTERVAL_SECONDS) by lia.
    rewrite Z.div_add by done. lia.
Qed.

Lemma due_positive i a d : get_opt d i = Some a -> Account.next_vesting_withdrawal a <= head_block_time d -> (0 < withdrawals_due d)%nat.
Proof.
  intros Ha Hdue. unfold withdrawals_due.
  assert (weeks_due (head_block_time d) a <= total (weeks_due (head_block_time d)) d) as Hle.
  { apply (map_sum_lookup_le (weeks_due (head_block_time d)) _ i a); [|exact Ha]. intros. apply weeks_nonneg. }
  unfold weeks_due at 1 in Hle. rewrite (proj2 (Z.leb_le _ _) Hdue) in Hle.
  pose proof (Z.div_pos (head_block_time d - Account.next_vesting_withdrawal a) BTCM_VESTING_WITHDRAW_INTERVAL_SECONDS ltac:(lia) ltac:(done)). lia.
Qed.

Lemma loop_fuel n m c d : 0 <= head_block_time d -> head_block_time d + WEEK < 2 ^ 32 -> vest_ok d ->
  (withdrawals_due d <= n)%nat -> (withdrawals_due d <= m)%nat -> withdraw_loop n c d = withdraw_loop m c d.
Proof.
  revert m c d. induction n as [|n IH]; intros m c d H0 Hnow Hd Hn Hm; destruct c as [i|]; try (destruct m; done).
  - destruct m; [done|]. unfold withdraw_loop; fold withdraw_loop. apply st_bind_ext; [|done]. intros e e' [= <- <-].
    exists d. split; [done|]. apply st_bind_ext; [|done]. intros a d1 [Ha ->]%get_Ok. exists a. split; [by apply get_Ok|].
    destruct (Z.leb_spec (Account.next_vesting_withdrawal a) (head_block_time d)) as [Hdue|]; [|done].
    pose proof (due_positive i a d Ha Hdue). lia.
  - unfold withdraw_loop; fold withdraw_loop. destruct m as [|m].
    + apply st_bind_ext; [|done]. intros e e' [= <- <-].
      exists d. split; [done|]. apply st_bind_ext; [|done]. intros a d1 [Ha ->]%get_Ok. exists a. split; [by apply get_Ok|].
      destruct (Z.leb_spec (Account.next_vesting_withdrawal a) (head_block_time d)) as [Hdue|]; [|done].
      pose proof (due_positive i a d Ha Hdue). lia.
    + apply st_bind_ext; [|done]. intros e e' [= <- <-].
      exists d. split; [done|]. apply st_bind_ext; [|done]. intros a d1 [Ha ->]%get_Ok. exists a. split; [by apply get_Ok|].
      destruct (Z.leb_spec (Account.next_vesting_withdrawal a) (head_block_time d)) as [Hdue|]; [|done].
      apply st_bind_ext; [|done]. intros [] d' Hp. exists tt. split; [done|].
      destruct (process_withdrawal_spec _ _ _ Hd Hp) as (a1 & w & Ha1 & _ & Hw). rewrite Ha in Ha1. injection Ha1 as <-.
      pose proof (weeks_less _ _ _ _ _ H0 Hnow Hd Ha Hdue Hw) as Hless.
      assert (0 <= total (weeks_due (head_block_time d')) d') as Hnn by (apply map_sum_nonneg; intros; apply weeks_nonneg).
      apply IH; [by rewrite (wd_time _ _ _ _ _ Hw)..|apply Hw| |]; unfold withdrawals_due in *; lia.
Qed.

Lemma loop_spec n c d d' : vest_ok d -> withdraw_loop n c d = Ok (tt, d') ->
  vest_ok d' /\ worth (dgpo d) (dgpo d') /\ forall id, gap id d' = gap id d.
Proof.
  assert (vest_ok d -> vest_ok d /\ worth (dgpo d) (dgpo d) /\ forall id, gap id d = gap id d) as Hrefl.
  { intros Hd. split_and!; [done|apply worth_refl, Hd|done]. }
  revert c d Hrefl. induction n as [|n IH]; intros c d Hrefl Hd H;
    (destruct c as [i|]; [|apply st_ret_Ok in H as [_ ->]; by apply Hrefl]);
    unfold withdraw_loop in H; fold withdraw_loop in H; step H; step H as a Ha;
    (destruct (_ <=? _); [|apply st_ret_Ok in H as [_ ->]; by apply Hrefl]); [done|].
  apply st_bind_Ok in H as ([] & d1 & Hp & H). apply process_withdrawal_spec in Hp as (a1 & w & _ & _ & Hw); [|done].
  apply IH in H as (H1 & H2 & H3); [|intros Hd1; split_and!; [done|apply worth_refl, Hd1|done]|apply Hw]. split_and!; [done|by eapply worth_trans; [apply Hw|]|].
  intros id. rewrite H3. apply Hw.
Qed.

(** ** Vesting *)

Lemma create_vesting_gap i btcm d n d' id : create_vesting i btcm d = Ok (n, d') ->
  gap id d' = gap id d - (if id =? BTCM_SYMBOL then amount btcm else 0).
Proof.
  intros H. unfold create_vesting in H. step H. step H as m Hm. apply st_bind_Ok in H as (u1 & d1 & H1 & H).
  step H as to Hto. apply st_bind_Ok in H as (sp & d2 & H2 & H). unfold find_streaming_platform in H2.
  apply find_where_Ok in H2 as [-> ->]. apply st_bind_Ok in H as (u3 & d3 & H3 & H).
  apply modify_dgpo_Ok in H3 as (p & Hp & ->). apply st_bind_Ok in H as (u4 & d4 & H4 & H).
  apply st_bind_Ok in H as (u5 & d5 & H5 & H). apply st_ret_Ok in H as [-> ->].
  apply quiet_votes in H4. apply quiet_score in H5. rewrite (quiet_gap _ _ _ H5), (quiet_gap _ _ _ H4).
  apply modify_Ok in H1 as (a & w & Ha & Hw & ->). unfold add_vests in Hw. apply bind_Ok in Hw as (v & Hv & [= <-]).
  apply AssetLemmas.asset_add_Ok in Hv as [_ ->]. unfold fund_vesting in Hp.
  apply bind_Ok in Hp as (f & Hf & Hp). apply bind_Ok in Hp as (v & Hv & Hp). apply bind_Ok in Hp as (x & _ & [= <-]).
  apply AssetLemmas.asset_add_Ok in Hf as [_ ->]. apply AssetLemmas.asset_add_Ok in Hv as [_ ->].
  rewrite gap_set_dgpo, (gap_set_account _ _ a _ _ Ha). cbn.
  destruct (Z.eqb_spec id BTCM_SYMBOL) as [->|]; [cbn; lia|]. destruct (Z.eqb_spec id XUSD_SYMBOL) as [->|]; [cbn; lia|].
  destruct (id =? VESTS_SYMBOL); lia.
Qed.

(** New shares are bought at the price of the old ones, rounded down. *)
Lemma create_vesting_worth i c d n d' : dg_ok (dgpo d) -> 0 < vests (dgpo d) -> 0 < fund (dgpo d) -> amount_ok c ->
  create_vesting i (Asset c BTCM_SYMBOL) d = Ok (n, d') ->
  let q := c * vests (dgpo d) / fund (dgpo d) in
  n = Asset (i64 q) VESTS_SYMBOL /\ vests (dgpo d') = vests (dgpo d) + i64 q /\ fund (dgpo d') = fund (dgpo d) + c /\
  fund (dgpo d) * vests (dgpo d') <= fund (dgpo d') * vests (dgpo d).
Proof.
  intros Hok Hv Hf Hc H q. destruct (price_normal _ Hok Hv Hf) as [Ep Hp]. unfold create_vesting in H. step H.
  step H as m Hm. rewrite asset_mul_exact, Ep in Hm by (done || (rewrite Ep in Hp; done)). cbn in Hm. fold q in Hm.
  assert (0 <= q) as Hq0 by (apply Z.div_pos; [unfold amount_ok in Hc; nia|done]).
  destruct (Z.ltb_spec q (2 ^ 64)) as [Hq|]; [|done]. injection Hm as <-.
  apply st_bind_Ok in H as (u1 & d1 & H1 & H). step H as to Hto. apply st_bind_Ok in H as (sp & d2 & H2 & H).
  unfold find_streaming_platform in H2. apply find_where_Ok in H2 as [-> ->]. apply st_bind_Ok in H as (u3 & d3 & H3 & H).
  apply modify_dgpo_Ok in H3 as (p & Hpp & ->). apply st_bind_Ok in H as (u4 & d4 & H4 & H).
  apply st_bind_Ok in H as (u5 & d5 & H5 & H). apply st_ret_Ok in H as [-> ->].
  apply quiet_votes in H4. apply quiet_score in H5. rewrite (quiet_dgpo _ _ H5), (quiet_dgpo _ _ H4).
  apply modify_Ok in H1 as (a & w & Ha & Hw & ->). unfold fund_vesting in Hpp.
  apply bind_Ok in Hpp as (f & Hfa & Hpp). apply bind_Ok in Hpp as (v & Hva & Hpp). apply bind_Ok in Hpp as (x & _ & [= <-]).
  apply AssetLemmas.asset_add_Ok in Hfa as [_ ->]. apply AssetLemmas.asset_add_Ok in Hva as [_ ->].
  split_and!; [done..|]. change (vests (?p <| Dgpo.total_vesting_fund_btcm := _ |> <| Dgpo.total_vesting_shares := _ |> <| _ := _ |>)) with (vests p + i64 q).
  change (fund (dgpo (?e <| dgpo := ?p |>))) with (fund p). unfold fund, vests in *. cbn -[to_signed].
  assert (i64 q <= q).
  { unfold to_signed. pose proof (Z.mod_le q (2 ^ 64)). destruct (_ <? _); lia. }
  pose proof (Z.mul_div_le (c * amount (Dgpo.total_vesting_shares (dgpo d))) (amount (Dgpo.total_vesting_fund_btcm (dgpo d)))). fold q in H0. nia.
Qed.

Lemma transfer_to_vesting_gap o d d' id : asset_id (tv_amount o) = BTCM_SYMBOL ->
  transfer_to_vesting_apply o d = Ok (tt, d') -> gap id d' = gap id d.
Proof.
  intros Ho H. unfold transfer_to_vesting_apply in H. step H as f Hf. apply st_bind_Ok in H as (t & d1 & H1 & H).
  assert (d1 = d) as ->.
  { destruct (_ <? _)%nat; [by apply get_account_Ok in H1 as [_ ->]|by apply st_ret_Ok in H1 as [_ ->]]. }
  apply st_bind_Ok in H as (b & d2 & Hb & H). pose proof (get_balance_state _ _ _ _ _ Hb) as ->.
  step H as u1 Hge. step H as n Hn. apply AssetLemmas.asset_neg_Ok in Hn as ->.
  apply st_bind_Ok in H as (u2 & d3 & H2 & H). apply st_bind_Ok in H as (v & d4 & H3 & H). apply st_ret_Ok in H as [_ ->].
  rewrite (create_vesting_gap _ _ _ _ _ _ H3). unfold adjust_balance in H2. cbn [asset_id] in H2. rewrite Ho in H2. cbn in H2.
  rewrite (gap_adjust_btcm _ _ _ _ _ id H2). cbn. destruct (id =? BTCM_SYMBOL); lia.
Qed.

(** ** Properties *)

(** C24 Vesting creates and destroys nothing.  [create_vesting] moves BTCM into the fund
    and gives shares for it at the price of the others, rounded down; the transfer
    to vesting and a whole run of [process_vesting_withdrawals], with all its routes,
    leave the gap between recorded supply and holdings of every asset as it was; and
    none of them lowers what a share left in the fund is worth. *)
Theorem vesting_conserves d :
  (forall i c n d', dg_ok (dgpo d) -> 0 < vests (dgpo d) -> 0 < fund (dgpo d) -> amount_ok c ->
     create_vesting i (Asset c BTCM_SYMBOL) d = Ok (n, d') ->
     n = Asset (i64 (c * vests (dgpo d) / fund (dgpo d))) VESTS_SYMBOL /\
     fund (dgpo d) * vests (dgpo d') <= fund (dgpo d') * vests (dgpo d) /\
     forall id, gap id d' = gap id d - (if id =? BTCM_SYMBOL then c else 0)) /\
  (forall o d' id, asset_id (tv_amount o) = BTCM_SYMBOL -> transfer_to_vesting_apply o d = Ok (tt, d') ->
     gap id d' = gap id d) /\
  (forall d', vest_ok d -> process_vesting_withdrawals d = Ok (tt, d') ->
     vest_ok d' /\ worth (dgpo d) (dgpo d') /\ forall id, gap id d' = gap id d).
Proof.
  split_and!.
  - intros i c n d' Hok Hv Hf Hc H. destruct (create_vesting_worth _ _ _ _ _ Hok Hv Hf Hc H) as (E & _ & _ & Hw).
    split_and!; [done..|]. intros id. by rewrite (create_vesting_gap _ _ _ _ _ _ H).
  - intros o d' id. apply transfer_to_vesting_gap.
  - intros d' Hd H. unfold process_vesting_withdrawals in H. step H. by apply loop_spec in H.
Qed.

(** The loop of [process_vesting_withdrawals] ends: it takes at most one turn for each
    week by which a withdrawal is overdue, so that any larger bound on its turns gives
    the same run. *)
Lemma withdrawals_end d : 0 <= head_block_time d -> head_block_time d + WEEK < 2 ^ 32 -> vest_ok d ->
  forall n, (withdrawals_due d <= n)%nat ->
  withdraw_loop n (fst <$> head (in_order by_next d)) d = process_vesting_withdrawals d.
Proof.
  intros H0 Hn Hd n Hle. unfold process_vesting_withdrawals. rewrite (st_bind_run _ _ _ d d) by done.
  by apply loop_fuel.
Qed.

(** An account in the middle of a withdrawal: whole instalments are paid. *)
Definition on_schedule (a : Account.t) : Prop :=
  0 < amount (Account.vesting_withdraw_rate a) /\
  (amount (Account.vesting_withdraw_rate a) | Account.withdrawn a) /\ Account.withdrawn a <= Account.to_withdraw a.

Lemma on_schedule_amount a : vesting_ok a -> on_schedule a ->
  withdrawal_amount a = Ok (Z.min (amount (Account.vesting_shares a))
    (Z.min (amount (Account.vesting_withdraw_rate a)) (Account.to_withdraw a - Account.withdrawn a))).
Proof.
  intros (H1 & H2 & H3 & H4 & _) (Hr & [k Hk] & Hle). unfold withdrawal_amount. unfold amount_ok in *.
  rewrite Safe.sub_fits by (unfold is_int64, int64_min, int64_max in *; lia). cbn [mbind result_bind].
  set (r := amount (Account.vesting_withdraw_rate a)) in *. set (t := Account.to_withdraw a) in *.
  destruct (Z.ltb_spec (t - Account.withdrawn a) r); [|repeat f_equal; lia].
  unfold Safe.rem. rewrite (proj2 (Z.eqb_neq r 0)) by lia. rewrite (proj2 (Z.eqb_neq t Safe.min)).
  2: { change Safe.min with int64_min. unfold int64_min. lia. }
  cbn [andb mbind result_bind]. repeat f_equal.
  replace t with ((t - Account.withdrawn a) + k * r) at 1 by lia.
  rewrite Z.rem_add by (try apply Z.mul_nonneg_nonneg; nia). rewrite Z.rem_small; lia.
Qed.

End Facts.

#[local] Existing Instance boost_reference.
#[local] Instance boost_ok : BoostMPOk.
Proof.
  split; [done|]. intros. unfold m128_div, boost_reference.
  by rewrite (proj2 (Z.eqb_neq _ _)) by lia.
Qed.

(** Alice withdraws 130 shares and sends half of each instalment to bob as shares and
    a quarter to nancy as BTCM; a week has passed. *)
Definition powering_down : database :=
  Sample.after (
    _ ← withdraw_vesting_apply (WithdrawOp "alice" (Asset 130 VESTS_SYMBOL));
    _ ← set_withdraw_vesting_route_apply (RouteOp "alice" "bob" 5000 true);
    _ ← set_withdraw_vesting_route_apply (RouteOp "alice" "nancy" 2500 false);
    modify_dgpo (fun p => Ok (p <| Dgpo.time ::= fun t => t + WEEK |>))) Sample.state.

Lemma powering_down_ok : vest_ok powering_down.
Proof.
  split.
  - each_row; unfold vesting_ok, amount_ok, int64_max; cbn; lia.
  - each_row; unfold BTCM_100_PERCENT; cbn; lia.
  - split; [done..| |]; unfold is_int64; vm_compute; split; discriminate.
Qed.

Lemma vesting_conserves_witness :
  let d' := Sample.after process_vesting_withdrawals powering_down in
  gap BTCM_SYMBOL d' = 0 /\ gap VESTS_SYMBOL d' = 0 /\ vests (dgpo d') = 895 /\
  gap BTCM_SYMBOL (Sample.after (create_vesting 1 (Asset 10 BTCM_SYMBOL)) Sample.state) = -10.
Proof.
  cbn zeta. destruct (vesting_conserves powering_down) as (_ & _ & Hp).
  destruct (Hp (Sample.after process_vesting_withdrawals powering_down)) as (_ & _ & Hg).
  - exact powering_down_ok.
  - apply Sample.after_run. vm_compute. reflexivity.
  - rewrite !Hg. split_and!; [vm_compute; reflexivity..|].
    destruct (vesting_conserves Sample.state) as (Hc & _).
    destruct (Hc 1 10 (Asset 9 VESTS_SYMBOL) (Sample.after (create_vesting 1 (Asset 10 BTCM_SYMBOL)) Sample.state)) as (_ & _ & Hg2).
    + split; [done..| |]; unfold is_int64; vm_compute; split; discriminate.
    + vm_compute. reflexivity.
    + vm_compute. reflexivity.
    + vm_compute. split; discriminate.
    + vm_compute. reflexivity.
    + rewrite Hg2. vm_compute. reflexivity.
Defined.

Lemma withdrawals_end_witness : withdrawals_due powering_down = 1%nat /\
  withdraw_loop 5 (fst <$> head (in_order by_next powering_down)) powering_down = process_vesting_withdrawals powering_down.
Proof.
  split; [vm_compute; reflexivity|]. apply (withdrawals_end powering_down).
  - vm_compute. discriminate.
  - vm_compute. reflexivity.
  - exact powering_down_ok.
  - vm_compute. lia.
Defined.


(** A route to the account with the first id is accepted and then ignored. *)
Lemma route_to_first_account_ignored :
  let d := Sample.after (set_withdraw_vesting_route_apply (RouteOp "bob" "alice" 10000 true)) Sample.state in
  size (indices (routes d)) = 1%nat /\ routes_of 1 d = [].
Proof. vm_compute. done. Qed.

End VestingFacts.
