(* ===== verification/Delegations.v ===== *)
(** * Delegations of vesting shares

    Models [delegate_vesting_shares_evaluator] of base_evaluator.cpp and
    [clear_expired_delegations] of database.cpp: delegations, their return after a
    delay, and the shares a streaming platform's user passes on (redelegations). *)

From S2P Require Import Prelude.
From S2P Require Import SafeInt.
From S2P Require Import Uint128.
From S2P Require Import Asset.
From S2P Require Import UndoDatabase.
From S2P Require Import Authority.
From S2P Require Import State.
From S2P Require Import Balance.
From S2P Require Import Vesting.

Module Delegations.
Import AssetOps Vesting.

Section Delegations.
Context {B : BoostMP}.

Definition find_delegation (delegator delegatee : string) : st database (option (Z * Delegation.t)) :=
  find_where (fun x => String.eqb (Delegation.delegator x) delegator && String.eqb (Delegation.delegatee x) delegatee).

(** [a.delegated_vesting_shares += x], [a.received_vesting_shares += x] and [-= x] *)
Definition add_delegated (x : asset) (a : Account.t) : result Account.t :=
  s ← asset_add (Account.delegated_vesting_shares a) x; Ok (a <| Account.delegated_vesting_shares := s |>).
Definition sub_delegated (x : asset) (a : Account.t) : result Account.t :=
  s ← asset_sub (Account.delegated_vesting_shares a) x; Ok (a <| Account.delegated_vesting_shares := s |>).
Definition add_received (x : asset) (a : Account.t) : result Account.t :=
  s ← asset_add (Account.received_vesting_shares a) x; Ok (a <| Account.received_vesting_shares := s |>).
Definition sub_received (x : asset) (a : Account.t) : result Account.t :=
  s ← asset_sub (Account.received_vesting_shares a) x; Ok (a <| Account.received_vesting_shares := s |>).

(** Shares that may be delegated. *)
Definition available_shares (delegator : Account.t) : result asset :=
  s ← asset_sub (Account.vesting_shares delegator) (Account.delegated_vesting_shares delegator);
  w ← Safe.sub (Account.to_withdraw delegator) (Account.withdrawn delegator);
  asset_sub s (Asset w VESTS_SYMBOL).

(** *** Redelegations *)

Definition redelegated_part (delegation pct : Z) : result Z :=
  q ← Uint128.div (Uint128.mul (Uint128.of_int64 delegation) (Uint128.of_int32 pct)) (Uint128.of_int32 BTCM_100_PERCENT);
  Uint128.to_uint64 q.

(** One turn of the loop over the redelegations of the delegatee. *)
Definition redelegate_one (old_delegation new_delegation : Z) (acc : Account.t * list (Z * Z)) (r : Z * Redelegation.t)
    : result (Account.t * list (Z * Z)) :=
  old ← redelegated_part old_delegation (Redelegation.redelegate_pct r.2);
  now ← redelegated_part new_delegation (Redelegation.redelegate_pct r.2);
  let delta := i64 (now - old) in
  if delta =? 0 then Ok acc
  else
    x ← Safe.add (Redelegation.redelegated r.2) delta;
    t ← Safe.add (amount (Account.redelegated_vesting_shares acc.1)) delta;
    Ok (acc.1 <| Account.redelegations ::= <[r.1 := r.2 <| Redelegation.redelegated := x |>]> |>
              <| Account.redelegated_vesting_shares ::= fun s => s <| amount := t |> |>, acc.2 ++ [(r.1, delta)]).

Definition by_key {A} (x y : Z * A) : Prop := x.1 <= y.1.
#[export] Instance by_key_dec {A} : RelDecision (@by_key A).
Proof. unfold by_key. solve_decision. Defined.
Definition redelegations_of (a : Account.t) : list (Z * Redelegation.t) :=
  merge_sort by_key (map_to_list (Account.redelegations a)).

Definition redelegate_all (old new : Z) (a : Account.t) : result (Account.t * list (Z * Z)) :=
  foldM (redelegate_one old new) (a, []) (redelegations_of a).

Definition update_redelegations (delegatee old new : Z) : st database unit :=
  a ← get (V:=Account.t) delegatee;
  if negb (old =? new) && negb (bool_decide (Account.redelegations a = empty)) then
    r ← lift (redelegate_all old new a);
    _ ← modify_pure delegatee (fun _ => r.1);
    for_each r.2 (fun x => modify x.1 (fun acct =>
      t ← Safe.add (amount (Account.rereceived_vesting_shares acct)) x.2;
      Ok (acct <| Account.rereceived_vesting_shares ::= fun s => s <| amount := t |> |>)))
  else mret tt.

(** *** The evaluator *)

Definition create_delegation (delegator delegatee : Z * Account.t) (op : delegate_vesting_shares_operation)
    (available min_delegation : asset) : st database unit :=
  _ ← assert_asset (asset_geb available (dv_vesting_shares op));
  _ ← assert_asset (asset_geb (dv_vesting_shares op) min_delegation);
  d ← get_st;
  _ ← create (Delegation.Make (dv_delegator op) (dv_delegatee op) (dv_vesting_shares op) (head_block_time d));
  _ ← modify delegator.1 (add_delegated (dv_vesting_shares op));
  modify delegatee.1 (add_received (dv_vesting_shares op)).

Definition increase_delegation (delegator delegatee : Z * Account.t) (delegation : Z * Delegation.t)
    (op : delegate_vesting_shares_operation) (available min_update : asset) : st database asset :=
  delta ← lift (asset_sub (dv_vesting_shares op) (Delegation.vesting_shares delegation.2));
  _ ← assert_asset (asset_geb delta min_update);
  x ← lift (asset_sub (dv_vesting_shares op) (Delegation.vesting_shares delegation.2));
  _ ← assert_asset (asset_geb available x);
  _ ← modify delegator.1 (add_delegated delta);
  _ ← modify delegatee.1 (add_received delta);
  _ ← modify_pure delegation.1 (fun x => x <| Delegation.vesting_shares := dv_vesting_shares op |>);
  mret delta.

Definition decrease_delegation (delegatee : Z * Account.t) (delegation : Z * Delegation.t)
    (op : delegate_vesting_shares_operation) (min_update min_delegation : asset) : st database asset :=
  delta ← lift (asset_sub (Delegation.vesting_shares delegation.2) (dv_vesting_shares op));
  _ ← (if amount (dv_vesting_shares op) >? 0 then
         _ ← assert_asset (asset_geb delta min_update);
         assert_asset (asset_geb (dv_vesting_shares op) min_delegation)
       else assert_st (amount (Delegation.vesting_shares delegation.2) >? 0));
  d ← get_st;
  _ ← create (Expiration.Make (dv_delegator op) delta
        (Z.max (u32 (head_block_time d + Dgpo.delegation_return_period (dgpo d)))
               (Delegation.min_delegation_time delegation.2)));
  _ ← modify delegatee.1 (sub_received delta);
  _ ← (if amount (dv_vesting_shares op) >? 0
       then modify_pure delegation.1 (fun x => x <| Delegation.vesting_shares := dv_vesting_shares op |>)
       else remove (V:=Delegation.t) delegation.1);
  mret delta.

(** What the shares of streaming platforms gain. *)
Definition platform_delta (delegator_sp delegatee_sp : bool) (delta : Z) : result Z :=
  if negb delegator_sp && delegatee_sp then Ok delta
  else if delegator_sp && negb delegatee_sp then Safe.neg delta
  else Ok 0.

Definition delegate_vesting_shares_apply (op : delegate_vesting_shares_operation) : st database unit :=
  delegator ← get_account (dv_delegator op);
  delegatee ← get_account (dv_delegatee op);
  delegator_sp ← find_streaming_platform (dv_delegator op);
  delegatee_sp ← find_streaming_platform (dv_delegatee op);
  delegation ← find_delegation (dv_delegator op) (dv_delegatee op);
  available ← lift (available_shares delegator.2);
  d ← get_st;
  let fee := ChainProps.account_creation_fee (Schedule.median_props (schedule d)) in
  f ← lift (Safe.mul (amount fee) 10);
  min_delegation ← lift (asset_mul (Asset f BTCM_SYMBOL) (get_vesting_share_price (dgpo d)));
  min_update ← lift (asset_mul fee (get_vesting_share_price (dgpo d)));
  let sp1 := bool_decide (is_Some delegator_sp) in
  let sp2 := bool_decide (is_Some delegatee_sp) in
  r ← match delegation with
      | None =>
          _ ← create_delegation delegator delegatee op available min_delegation;
          x ← lift (platform_delta sp1 sp2 (amount (dv_vesting_shares op)));
          mret (0, x)
      | Some delegation =>
          inc ← lift (asset_geb (dv_vesting_shares op) (Delegation.vesting_shares delegation.2));
          let old := amount (Delegation.vesting_shares delegation.2) in
          if inc : bool then
            delta ← increase_delegation delegator delegatee delegation op available min_update;
            x ← lift (platform_delta sp1 sp2 (amount delta));
            mret (old, x)
          else
            delta ← decrease_delegation delegatee delegation op min_update min_delegation;
            x ← lift (if negb sp1 && sp2 then Safe.neg (amount delta) else Ok 0);
            mret (old, x)
      end;
  _ ← (if negb (r.2 =? 0) then modify_dgpo (fun p =>
         x ← Safe.add (Dgpo.total_vested_by_platforms p) r.2; Ok (p <| Dgpo.total_vested_by_platforms := x |>))
       else mret tt);
  update_redelegations delegatee.1 r.1 (amount (dv_vesting_shares op)).

(** ** [clear_expired_delegations] *)

Definition by_expiration (x y : Z * Expiration.t) : Prop :=
  Expiration.expiration x.2 < Expiration.expiration y.2 \/ (Expiration.expiration x.2 = Expiration.expiration y.2 /\ x.1 <= y.1).
#[export] Instance by_expiration_dec : RelDecision by_expiration.
Proof. unfold by_expiration. solve_decision. Defined.

Definition return_delegation (itr : Z * Expiration.t) : st database unit :=
  sp ← find_streaming_platform (Expiration.delegator itr.2);
  _ ← (if bool_decide (is_Some sp) then modify_dgpo (fun p =>
         x ← Safe.add (Dgpo.total_vested_by_platforms p) (amount (Expiration.vesting_shares itr.2));
         Ok (p <| Dgpo.total_vested_by_platforms := x |>))
       else mret tt);
  a ← get_account (Expiration.delegator itr.2);
  _ ← modify a.1 (sub_delegated (Expiration.vesting_shares itr.2));
  remove (V:=Expiration.t) itr.1.

(** Each turn removes a row. *)
Fixpoint clear_loop (fuel : nat) (now : Z) : st database unit :=
  d ← get_st;
  match in_order by_expiration d with
  | itr :: _ =>
      if Expiration.expiration itr.2 <? now then
        match fuel with
        | O => throw undefined_behaviour
        | S fuel => _ ← return_delegation itr; clear_loop fuel now
        end
      else mret tt
  | [] => mret tt
  end.

Definition clear_expired_delegations : st database unit :=
  d ← get_st;
  clear_loop (size (indices (expirations d))) (Dgpo.time (dgpo d)).

End Delegations.
End Delegations.
