(* ===== verification/DelegationFacts.v ===== *)
(** * Delegations: facts

    What an account has delegated and received is always the sum of its delegations,
    those on their way back included. *)

From S2P Require Import Prelude.
From S2P Require Import SafeInt.
From S2P Require Import Uint128.
From S2P Require Import Asset.
From S2P Require Import UndoDatabase.
From S2P Require Import Authority.
From S2P Require Import State.
From S2P Require Import Sample.
From S2P Require Import Balance.
From S2P Require Import BalanceFacts.
From S2P Require Import Vesting.
From S2P Require Import Delegations.

Module DelegationFacts.
Import AssetOps Vesting Delegations Supply.

(** What is delegated by [n], on its way back included, and to [n]. *)
Definition by_delegator (n : string) (x : Delegation.t) : Z :=
  if String.eqb (Delegation.delegator x) n then amount (Delegation.vesting_shares x) else 0.
Definition to_delegatee (n : string) (x : Delegation.t) : Z :=
  if String.eqb (Delegation.delegatee x) n then amount (Delegation.vesting_shares x) else 0.
Definition returning (n : string) (x : Expiration.t) : Z :=
  if String.eqb (Expiration.delegator x) n then amount (Expiration.vesting_shares x) else 0.
Definition given (d : database) (n : string) : Z := total (by_delegator n) d + total (returning n) d.
Definition taken (d : database) (n : string) : Z := total (to_delegatee n) d.

Definition unique_names (d : database) : Prop :=
  forall i j (a b : Account.t), get_opt d i = Some a -> get_opt d j = Some b -> Account.name a = Account.name b -> i = j.

Record delegations_ok (d : database) : Prop := {
  ok_names : unique_names d;
  ok_rows : ids_below Delegation.t d;
  ok_returns : ids_below Expiration.t d;
  ok_given : forall i (a : Account.t), get_opt d i = Some a -> amount (Account.delegated_vesting_shares a) = given d (Account.name a);
  ok_taken : forall i (a : Account.t), get_opt d i = Some a -> amount (Account.received_vesting_shares a) = taken d (Account.name a)
}.

(** From [d] to [d'] the accounts named [g] and [t] count [xa] more as delegated and [ya]
    more as received, and the rows [xr] and [yr]. *)
Record moved (g t : string) (xa ya xr yr : Z) (d d' : database) : Prop := {
  mv_accounts : forall i (a' : Account.t), get_opt d' i = Some a' -> exists a, get_opt d i = Some a /\ Account.name a' = Account.name a /\
    amount (Account.delegated_vesting_shares a') = amount (Account.delegated_vesting_shares a)
      + (if String.eqb (Account.name a) g then xa else 0) /\
    amount (Account.received_vesting_shares a') = amount (Account.received_vesting_shares a)
      + (if String.eqb (Account.name a) t then ya else 0);
  mv_given : forall n, given d' n = given d n + (if String.eqb n g then xr else 0);
  mv_taken : forall n, taken d' n = taken d n + (if String.eqb n t then yr else 0);
  mv_rows : ids_below Delegation.t d -> ids_below Delegation.t d';
  mv_returns : ids_below Expiration.t d -> ids_below Expiration.t d'
}.

Lemma moved_names g t xa ya xr yr d d' : moved g t xa ya xr yr d d' -> unique_names d -> unique_names d'.
Proof.
  intros [H _ _ _ _] Hu i j a b Ha Hb E. destruct (H _ _ Ha) as (a0 & Ha0 & E1 & _). destruct (H _ _ Hb) as (b0 & Hb0 & E2 & _).
  apply (Hu i j a0 b0); congruence.
Qed.

Lemma moved_ok g t x y d d' : moved g t x y x y d d' -> delegations_ok d -> delegations_ok d'.
Proof.
  intros Hm [H1 H2 H3 H4 H5]. pose proof (moved_names _ _ _ _ _ _ _ _ Hm H1) as Hu. destruct Hm as [Ha Hg Ht Hr Hb].
  split; auto; intros i a' Ha'; destruct (Ha _ _ Ha') as (a & Ha0 & -> & E1 & E2).
  - rewrite E1, Hg, (H4 _ _ Ha0). done.
  - rewrite E2, Ht, (H5 _ _ Ha0). done.
Qed.

Lemma moved_trans g t xa ya xr yr xa' ya' xr' yr' d1 d2 d3 :
  moved g t xa ya xr yr d1 d2 -> moved g t xa' ya' xr' yr' d2 d3 ->
  moved g t (xa + xa') (ya + ya') (xr + xr') (yr + yr') d1 d3.
Proof.
  intros [A1 G1 T1 R1 B1] [A2 G2 T2 R2 B2]. split; auto.
  - intros i a3 H3. destruct (A2 _ _ H3) as (a2 & H2 & E1 & E2 & E3). destruct (A1 _ _ H2) as (a1 & H1 & F1 & F2 & F3).
    exists a1. rewrite F1 in E1, E2, E3. split_and!; [done|done| |].
    + rewrite E2, F2. destruct (String.eqb (Account.name a1) g); lia.
    + rewrite E3, F3. destruct (String.eqb (Account.name a1) t); lia.
  - intros n. rewrite G2, G1. destruct (String.eqb n g); lia.
  - intros n. rewrite T2, T1. destruct (String.eqb n t); lia.
Qed.

Lemma moved_refl g t d : moved g t 0 0 0 0 d d.
Proof.
  split; auto; [intros i a Ha; exists a|intros n|intros n]; repeat destruct (String.eqb _ _); split_and?; try done; lia.
Qed.

(** The steps of the operations. *)
Section Steps.
Variables (g t : string) (d : database).

Lemma moved_account i (a w : Account.t) xa ya : unique_names d -> get_opt d i = Some a -> Account.name w = Account.name a ->
  (xa = 0 \/ Account.name a = g) -> (ya = 0 \/ Account.name a = t) ->
  amount (Account.delegated_vesting_shares w) = amount (Account.delegated_vesting_shares a) + xa ->
  amount (Account.received_vesting_shares w) = amount (Account.received_vesting_shares a) + ya ->
  moved g t xa ya 0 0 d (set_obj d i w).
Proof.
  intros Hu Ha Hn Hx Hy E1 E2. split; [|intros n; change (given (set_obj d i w) n) with (given d n); destruct (String.eqb _ _); lia|
    intros n; change (taken (set_obj d i w) n) with (taken d n); destruct (String.eqb _ _); lia|done|done].
  intros j b. rewrite get_set_obj. destruct (decide (j = i)) as [->|Hne].
  - intros [= <-]. exists a. split_and!; [done|done| |].
    + rewrite E1. destruct (String.eqb_spec (Account.name a) g); [done|]. destruct Hx; [lia|done].
    + rewrite E2. destruct (String.eqb_spec (Account.name a) t); [done|]. destruct Hy; [lia|done].
  - intros Hb. exists b. split_and!; [done|done| |].
    + destruct (String.eqb_spec (Account.name b) g) as [E|]; [|lia]. destruct Hx as [->|Hx]; [lia|].
      destruct Hne. apply (Hu j i b a); congruence.
    + destruct (String.eqb_spec (Account.name b) t) as [E|]; [|lia]. destruct Hy as [->|Hy]; [lia|].
      destruct Hne. apply (Hu j i b a); congruence.
Qed.

(** Rows alone. *)
Lemma moved_rows xr yr d' : accounts d' = accounts d ->
  (forall n, given d' n = given d n + (if String.eqb n g then xr else 0)) ->
  (forall n, taken d' n = taken d n + (if String.eqb n t then yr else 0)) ->
  (ids_below Delegation.t d -> ids_below Delegation.t d') -> (ids_below Expiration.t d -> ids_below Expiration.t d') ->
  moved g t 0 0 xr yr d d'.
Proof.
  intros Ha Hg Ht Hr Hb. split; try done. intros i a. unfold get_opt. cbn. rewrite Ha. intros H. exists a.
  repeat destruct (String.eqb _ _); split_and!; done || lia.
Qed.

Lemma moved_dgpo p : moved g t 0 0 0 0 d (d <| dgpo := p |>).
Proof. apply moved_rows; try done; intros n; destruct (String.eqb _ _); cbn; unfold given, taken; cbn; rewrite ?Z.add_0_r; done. Qed.

Lemma moved_modify i f u d' xa ya : unique_names d -> modify (V:=Account.t) i f d = Ok (u, d') ->
  (forall a w, f a = Ok w -> Account.name w = Account.name a /\
     amount (Account.delegated_vesting_shares w) = amount (Account.delegated_vesting_shares a) + xa /\
     amount (Account.received_vesting_shares w) = amount (Account.received_vesting_shares a) + ya) ->
  (forall a : Account.t, get_opt d i = Some a -> (xa = 0 \/ Account.name a = g) /\ (ya = 0 \/ Account.name a = t)) ->
  moved g t xa ya 0 0 d d'.
Proof.
  intros Hu H Hf Hn. apply modify_Ok in H as (a & w & Ha & Hw & ->). destruct (Hf _ _ Hw) as (E1 & E2 & E3).
  destruct (Hn _ Ha). by apply (moved_account i a w).
Qed.

End Steps.

Section Rows.
Variables (g t : string) (d : database).
Hypothesis Hrows : ids_below Delegation.t d.
Hypothesis Hreturns : ids_below Expiration.t d.

Lemma moved_create_delegation x now i d' : create (Delegation.Make g t x now) d = Ok (i, d') ->
  moved g t 0 0 (amount x) (amount x) d d'.
Proof.
  intros (_ & _ & ->)%create_Ok. set (v := Delegation.Make g t x now).
  apply moved_rows; [done| | |intros; by apply ids_below_create|done]; intros n.
  - unfold given. rewrite (total_create (by_delegator n) d v) by by apply ids_below_fresh.
    change (total (V:=Expiration.t) ?f (upd_tbl _ d)) with (total (V:=Expiration.t) f d).
    unfold by_delegator at 1. cbn [Delegation.delegator Delegation.vesting_shares v]. rewrite String.eqb_sym. destruct (String.eqb n g); lia.
  - unfold taken. rewrite (total_create (to_delegatee n) d v) by by apply ids_below_fresh.
    unfold to_delegatee at 1. cbn [Delegation.delegatee Delegation.vesting_shares v]. rewrite String.eqb_sym. destruct (String.eqb n t); lia.
Qed.

Lemma moved_set_delegation i v x u d' : get_opt d i = Some v -> Delegation.delegator v = g -> Delegation.delegatee v = t ->
  modify_pure i (fun v => v <| Delegation.vesting_shares := x |>) d = Ok (u, d') ->
  moved g t 0 0 (amount x - amount (Delegation.vesting_shares v)) (amount x - amount (Delegation.vesting_shares v)) d d'.
Proof.
  intros Hv Eg Et H. apply modify_Ok in H as (v' & w & Hv' & [= <-] & ->). rewrite Hv in Hv'. injection Hv' as <-.
  apply moved_rows; [done| | |intros; by apply ids_below_set; [exists v|]|done]; intros n.
  - unfold given. rewrite (total_set_obj (by_delegator n) d i v) by done.
    change (total (V:=Expiration.t) ?f (set_obj d i ?w)) with (total (V:=Expiration.t) f d).
    unfold by_delegator at 2 3. cbn [Delegation.delegator Delegation.vesting_shares setter]. rewrite Eg, (String.eqb_sym g).
    destruct (String.eqb n g); lia.
  - unfold taken. rewrite (total_set_obj (to_delegatee n) d i v) by done.
    unfold to_delegatee at 2 3. cbn [Delegation.delegatee Delegation.vesting_shares setter]. rewrite Et, (String.eqb_sym t).
    destruct (String.eqb n t); lia.
Qed.

Lemma moved_remove_delegation i v u d' : get_opt d i = Some v -> Delegation.delegator v = g -> Delegation.delegatee v = t ->
  remove (V:=Delegation.t) i d = Ok (u, d') ->
  moved g t 0 0 (- amount (Delegation.vesting_shares v)) (- amount (Delegation.vesting_shares v)) d d'.
Proof.
  intros Hv Eg Et H. apply remove_Ok in H as ->.
  apply moved_rows; [done| | |intros; by apply ids_below_remove|done]; intros n.
  - unfold given. rewrite (total_remove (by_delegator n) d i v) by done.
    change (total (V:=Expiration.t) ?f (upd_tbl (V:=Delegation.t) _ d)) with (total (V:=Expiration.t) f d).
    unfold by_delegator at 2. rewrite Eg, (String.eqb_sym g). destruct (String.eqb n g); lia.
  - unfold taken. rewrite (total_remove (to_delegatee n) d i v) by done.
    unfold to_delegatee at 2. rewrite Et, (String.eqb_sym t). destruct (String.eqb n t); lia.
Qed.

Lemma moved_create_return x e i d' : create (Expiration.Make g x e) d = Ok (i, d') -> moved g t 0 0 (amount x) 0 d d'.
Proof.
  intros (_ & _ & ->)%create_Ok. set (v := Expiration.Make g x e).
  apply moved_rows; [done| | |done|intros; by apply ids_below_create]; intros n.
  - unfold given. rewrite (total_create (returning n) d v) by by apply ids_below_fresh.
    change (total (V:=Delegation.t) ?f (upd_tbl _ d)) with (total (V:=Delegation.t) f d).
    unfold returning at 1. cbn [Expiration.delegator Expiration.vesting_shares v]. rewrite String.eqb_sym. destruct (String.eqb n g); lia.
  - change (taken (upd_tbl (V:=Expiration.t) _ d) n) with (taken d n). destruct (String.eqb n t); lia.
Qed.

Lemma moved_remove_return i v u d' : get_opt d i = Some v -> Expiration.delegator v = g ->
  remove (V:=Expiration.t) i d = Ok (u, d') -> moved g t 0 0 (- amount (Expiration.vesting_shares v)) 0 d d'.
Proof.
  intros Hv Eg H. apply remove_Ok in H as ->.
  apply moved_rows; [done| | |done|intros; by apply ids_below_remove]; intros n.
  - unfold given. rewrite (total_remove (returning n) d i v) by done.
    change (total (V:=Delegation.t) ?f (upd_tbl (V:=Expiration.t) _ d)) with (total (V:=Delegation.t) f d).
    unfold returning at 2. rewrite Eg, (String.eqb_sym g). destruct (String.eqb n g); lia.
  - change (taken (upd_tbl (V:=Expiration.t) _ d) n) with (taken d n). destruct (String.eqb n t); lia.
Qed.
End Rows.

Definition named (d : database) (i : Z) (n : string) : Prop :=
  forall a : Account.t, get_opt d i = Some a -> Account.name a = n.
Record well (d : database) : Prop := {
  well_names : unique_names d;
  well_rows : ids_below Delegation.t d;
  well_returns : ids_below Expiration.t d
}.

Lemma moved_named g t xa ya xr yr d d' i n : moved g t xa ya xr yr d d' -> named d i n -> named d' i n.
Proof. intros [H _ _ _ _] Hn a Ha. destruct (H _ _ Ha) as (a0 & Ha0 & -> & _). by apply Hn. Qed.
Lemma moved_well g t xa ya xr yr d d' : moved g t xa ya xr yr d d' -> well d -> well d'.
Proof. intros Hm []. split; [by eapply moved_names|by apply Hm..]. Qed.

Lemma account_named d n a : lookup_where (fun a => String.eqb (Account.name a) n) d = Some a -> unique_names d -> named d a.1 n.
Proof.
  intros H _ b Hb. destruct a as [i a]. apply lookup_where_Some in H as [Ha Hn]. cbn [fst] in Hb. rewrite Ha in Hb.
  injection Hb as <-. by apply String.eqb_eq.
Qed.

Lemma run_moved_eq g t xa ya xr yr xa' ya' xr' yr' d d' : moved g t xa ya xr yr d d' ->
  xa = xa' -> ya = ya' -> xr = xr' -> yr = yr' -> moved g t xa' ya' xr' yr' d d'.
Proof. by intros ? <- <- <- <-. Qed.

(** One more statement of a run. *)
Ltac then_moved Hm H2 :=
  eapply run_moved_eq; [eapply moved_trans; [exact Hm|exact H2]|lia..].

Section Evaluator.
Variables (g t : string).

Lemma add_delegated_moved i x d u d' : well d -> named d i g -> modify i (add_delegated x) d = Ok (u, d') ->
  moved g t (amount x) 0 0 0 d d'.
Proof.
  intros [Hu _ _] Hn H. eapply moved_modify; [done|exact H| |intros a Ha; split; [right; by apply Hn|by left]].
  intros a w Hw. unfold add_delegated in Hw. apply bind_Ok in Hw as (s & Hs & [= <-]).
  apply AssetLemmas.asset_add_Ok in Hs as [_ ->]. cbn. split_and!; [done|lia|lia].
Qed.
Lemma sub_delegated_moved i x d u d' : well d -> named d i g -> modify i (sub_delegated x) d = Ok (u, d') ->
  moved g t (- amount x) 0 0 0 d d'.
Proof.
  intros [Hu _ _] Hn H. eapply moved_modify; [done|exact H| |intros a Ha; split; [right; by apply Hn|by left]].
  intros a w Hw. unfold sub_delegated in Hw. apply bind_Ok in Hw as (s & Hs & [= <-]).
  apply AssetLemmas.asset_sub_Ok in Hs as [_ ->]. cbn. split_and!; [done|lia|lia].
Qed.
Lemma add_received_moved i x d u d' : well d -> named d i t -> modify i (add_received x) d = Ok (u, d') ->
  moved g t 0 (amount x) 0 0 d d'.
Proof.
  intros [Hu _ _] Hn H. eapply moved_modify; [done|exact H| |intros a Ha; split; [by left|right; by apply Hn]].
  intros a w Hw. unfold add_received in Hw. apply bind_Ok in Hw as (s & Hs & [= <-]).
  apply AssetLemmas.asset_add_Ok in Hs as [_ ->]. cbn. split_and!; [done|lia|lia].
Qed.
Lemma sub_received_moved i x d u d' : well d -> named d i t -> modify i (sub_received x) d = Ok (u, d') ->
  moved g t 0 (- amount x) 0 0 d d'.
Proof.
  intros [Hu _ _] Hn H. eapply moved_modify; [done|exact H| |intros a Ha; split; [by left|right; by apply Hn]].
  intros a w Hw. unfold sub_received in Hw. apply bind_Ok in Hw as (s & Hs & [= <-]).
  apply AssetLemmas.asset_sub_Ok in Hs as [_ ->]. cbn. split_and!; [done|lia|lia].
Qed.

(** An update of an account that no sum depends on. *)
Lemma neutral_moved i f d u d' : well d -> modify (V:=Account.t) i f d = Ok (u, d') ->
  (forall a w, f a = Ok w -> Account.name w = Account.name a /\
     Account.delegated_vesting_shares w = Account.delegated_vesting_shares a /\
     Account.received_vesting_shares w = Account.received_vesting_shares a) -> moved g t 0 0 0 0 d d'.
Proof.
  intros [Hu _ _] H Hf. eapply moved_modify; [done|exact H| |intros a Ha; split; by left].
  intros a w Hw. destruct (Hf _ _ Hw) as (-> & -> & ->). split_and!; [done|lia|lia].
Qed.

Lemma create_moved g' t' op av md d u d' : dv_delegator op = g -> dv_delegatee op = t -> well d -> named d g'.1 g -> named d t'.1 t ->
  create_delegation g' t' op av md d = Ok (u, d') ->
  let x := amount (dv_vesting_shares op) in moved g t x x x x d d'.
Proof.
  intros Eg Et Hw Hg Ht H. unfold create_delegation in H. step H as u1 E1. step H as u2 E2. step H.
  apply st_bind_Ok in H as (i & d1 & H1 & H). rewrite Eg, Et in H1. apply moved_create_delegation in H1; [|apply Hw..].
  pose proof (moved_well _ _ _ _ _ _ _ _ H1 Hw) as Hw1. pose proof (moved_named _ _ _ _ _ _ _ _ _ _ H1 Hg) as Hg1.
  pose proof (moved_named _ _ _ _ _ _ _ _ _ _ H1 Ht) as Ht1.
  apply st_bind_Ok in H as (u3 & d2 & H2 & H). apply add_delegated_moved in H2; [|done..].
  apply add_received_moved in H; [|by eapply moved_well|by eapply moved_named].
  pose proof (moved_trans _ _ _ _ _ _ _ _ _ _ _ _ _ H1 H2) as H12. then_moved H12 H.
Qed.

Lemma increase_moved g' t' row op av mu d x d' : well d -> named d g'.1 g -> named d t'.1 t ->
  get_opt d row.1 = Some row.2 -> Delegation.delegator row.2 = g -> Delegation.delegatee row.2 = t ->
  increase_delegation g' t' row op av mu d = Ok (x, d') -> moved g t (amount x) (amount x) (amount x) (amount x) d d'.
Proof.
  intros Hw Hg Ht Hrow Eg Et H. unfold increase_delegation in H. step H as y Hy. apply AssetLemmas.asset_sub_Ok in Hy as [_ ->].
  step H as u1 E1. step H as z Hz. step H as u2 E2. apply st_bind_Ok in H as (u3 & d1 & H1 & H).
  assert (get_opt (V:=Delegation.t) d1 row.1 = Some row.2) as Hrow1 by (apply modify_Ok in H1 as (? & ? & _ & _ & ->); exact Hrow).
  apply add_delegated_moved in H1; [|done..]. pose proof (moved_well _ _ _ _ _ _ _ _ H1 Hw) as Hw1.
  pose proof (moved_named _ _ _ _ _ _ _ _ _ _ H1 Ht) as Ht1. apply st_bind_Ok in H as (u4 & d2 & H2 & H).
  assert (get_opt (V:=Delegation.t) d2 row.1 = Some row.2) as Hrow2 by (apply modify_Ok in H2 as (? & ? & _ & _ & ->); exact Hrow1).
  apply add_received_moved in H2; [|done..]. pose proof (moved_well _ _ _ _ _ _ _ _ H2 Hw1) as [_ Hr2 Hb2].
  apply st_bind_Ok in H as (u5 & d3 & H3 & H). apply st_ret_Ok in H as [-> ->].
  eapply moved_set_delegation in H3; [|done..]. pose proof (moved_trans _ _ _ _ _ _ _ _ _ _ _ _ _ H1 H2) as H12.
  cbn [amount] in *. then_moved H12 H3.
Qed.

Lemma decrease_moved t' row op mu md d x d' : dv_delegator op = g -> well d -> named d t'.1 t -> 0 <= amount (dv_vesting_shares op) ->
  get_opt d row.1 = Some row.2 -> Delegation.delegator row.2 = g -> Delegation.delegatee row.2 = t ->
  decrease_delegation t' row op mu md d = Ok (x, d') -> moved g t 0 (- amount x) 0 (- amount x) d d'.
Proof.
  intros Eop Hw Ht Hnn Hrow Eg Et H. unfold decrease_delegation in H. step H as y Hy. apply AssetLemmas.asset_sub_Ok in Hy as [_ ->].
  apply st_bind_Ok in H as (u0 & d0 & H0 & H).
  assert (d0 = d) as ->.
  { destruct (_ >? 0); [step H0 as u1 E1; by apply AssetLemmas.assert_asset_Ok in H0 as [_ ->]|by apply assert_st_Ok in H0 as [_ ->]]. }
  step H. apply st_bind_Ok in H as (i & d1 & H1 & H). rewrite Eop in H1.
  assert (get_opt (V:=Delegation.t) d1 row.1 = Some row.2) as Hrow1 by (apply create_Ok in H1 as (_ & _ & ->); exact Hrow).
  apply (moved_create_return g t) in H1; [|apply Hw]. pose proof (moved_well _ _ _ _ _ _ _ _ H1 Hw) as Hw1.
  pose proof (moved_named _ _ _ _ _ _ _ _ _ _ H1 Ht) as Ht1. apply st_bind_Ok in H as (u2 & d2 & H2 & H).
  assert (get_opt (V:=Delegation.t) d2 row.1 = Some row.2) as Hrow2 by (apply modify_Ok in H2 as (? & ? & _ & _ & ->); exact Hrow1).
  apply sub_received_moved in H2; [|done..]. pose proof (moved_well _ _ _ _ _ _ _ _ H2 Hw1) as [_ Hr2 Hb2].
  apply st_bind_Ok in H as (u3 & d3 & H3 & H). apply st_ret_Ok in H as [-> ->].
  pose proof (moved_trans _ _ _ _ _ _ _ _ _ _ _ _ _ H1 H2) as H12. cbn [amount] in *.
  destruct (Z.gtb_spec (amount (dv_vesting_shares op)) 0).
  - eapply moved_set_delegation in H3; [|done..]. then_moved H12 H3.
  - eapply moved_remove_delegation in H3; [|done..]. then_moved H12 H3.
Qed.

Section Apply.
Context {B : BoostMP}.

Lemma neutral_for_each {A} (l : list A) f d u d' : well d ->
  (forall x d u d', well d -> f x d = Ok (u, d') -> moved g t 0 0 0 0 d d') -> for_each l f d = Ok (u, d') -> moved g t 0 0 0 0 d d'.
Proof.
  intros Hw Hf H. assert (moved g t 0 0 0 0 d d' /\ well d'); [|tauto]. revert H.
  apply (for_each_inv (fun e => moved g t 0 0 0 0 d e /\ well e)); [|split; [apply moved_refl|done]].
  intros x e v e' _ [Hm He] H. apply Hf in H; [|done]. split; [then_moved Hm H|by eapply moved_well].
Qed.

Lemma redelegate_neutral old new a r : redelegate_all old new a = Ok r ->
  Account.name r.1 = Account.name a /\ Account.delegated_vesting_shares r.1 = Account.delegated_vesting_shares a /\
  Account.received_vesting_shares r.1 = Account.received_vesting_shares a.
Proof.
  unfold redelegate_all. set (l := redelegations_of a). clearbody l. change a with ((a, []) : Account.t * list (Z * Z)).1 at 2 3 4.
  generalize ((a, []) : Account.t * list (Z * Z)) as s. induction l as [|x l IH]; intros s H; [by injection H as <-|].
  cbn [foldM] in H. apply bind_Ok in H as (s1 & H1 & H). destruct (IH _ H) as (-> & -> & ->).
  unfold redelegate_one in H1. apply bind_Ok in H1 as (o & _ & H1). apply bind_Ok in H1 as (n & _ & H1).
  destruct (_ =? 0); [by injection H1 as <-|]. apply bind_Ok in H1 as (v & _ & H1). by apply bind_Ok in H1 as (w & _ & [= <-]).
Qed.

Lemma redelegations_moved i old new d u d' : well d -> update_redelegations i old new d = Ok (u, d') -> moved g t 0 0 0 0 d d'.
Proof.
  intros Hw H. unfold update_redelegations in H. step H as a Ha.
  destruct (_ && _); [|apply st_ret_Ok in H as [_ ->]; apply moved_refl]. step H as r Hr. apply redelegate_neutral in Hr as (E1 & E2 & E3).
  apply st_bind_Ok in H as (u1 & d1 & H1 & H).
  assert (moved g t 0 0 0 0 d d1) as Hm1.
  { apply modify_Ok in H1 as (a' & w & Ha' & [= <-] & ->). rewrite Ha in Ha'. injection Ha' as <-.
    apply (moved_account _ _ d i a); [apply Hw|done|done|by left|by left|rewrite E2; lia|rewrite E3; lia]. }
  apply neutral_for_each in H; [then_moved Hm1 H|by eapply moved_well|].
  intros x e v e' He Hx. eapply neutral_moved; [done|exact Hx|]. intros b w Hb. by apply bind_Ok in Hb as (y & _ & [= <-]).
Qed.

Lemma delegate_moved op d d' : dv_delegator op = g -> dv_delegatee op = t -> 0 <= amount (dv_vesting_shares op) -> well d ->
  delegate_vesting_shares_apply op d = Ok (tt, d') -> exists x y, moved g t x y x y d d'.
Proof.
  intros Eg Et Hnn Hw H. unfold delegate_vesting_shares_apply in H. rewrite Eg, Et in H. step H as a1 Ha1. step H as a2 Ha2.
  pose proof (account_named _ _ _ Ha1 (well_names _ Hw)) as Hg. pose proof (account_named _ _ _ Ha2 (well_names _ Hw)) as Ht.
  apply st_bind_Ok in H as (sp1 & e & E & H). apply find_where_Ok in E as [_ ->].
  apply st_bind_Ok in H as (sp2 & e & E & H). apply find_where_Ok in E as [_ ->].
  apply st_bind_Ok in H as (row & e & Erow & H). apply find_where_Ok in Erow as [Erow ->].
  step H as av Eav. step H. step H as f Ef. step H as md Emd. step H as mu Emu. cbv zeta in H.
  apply st_bind_Ok in H as (r & d1 & Hr & H). apply st_bind_Ok in H as (u2 & d2 & H2 & H).
  assert (exists x y, moved g t x y x y d d1) as (x & y & Hm1).
  { destruct row as [row|].
    - destruct row as [i row]. symmetry in Erow. apply lookup_where_Some in Erow as [Erow Ek]. apply andb_true_iff in Ek as [Ek1 Ek2].
      apply String.eqb_eq in Ek1, Ek2. step Hr as inc Einc. destruct inc; apply st_bind_Ok in Hr as (x & d0 & Hx & Hr); step Hr as y Hy;
        apply st_ret_Ok in Hr as [_ ->].
      + exists (amount x), (amount x). by eapply (increase_moved a1 a2 (i, row)).
      + exists 0, (- amount x). by eapply (decrease_moved a2 (i, row)).
    - apply st_bind_Ok in Hr as (x & d0 & Hx & Hr). step Hr as y Hy. apply st_ret_Ok in Hr as [_ ->].
      eexists _, _. by eapply create_moved. }
  assert (moved g t 0 0 0 0 d1 d2) as Hm2.
  { destruct (negb (r.2 =? 0)); [|apply st_ret_Ok in H2 as [_ ->]; apply moved_refl].
    apply modify_dgpo_Ok in H2 as (p & _ & ->). apply moved_dgpo. }
  pose proof (moved_well _ _ _ _ _ _ _ _ Hm2 (moved_well _ _ _ _ _ _ _ _ Hm1 Hw)) as Hw2.
  apply redelegations_moved in H; [|done]. pose proof (moved_trans _ _ _ _ _ _ _ _ _ _ _ _ _ Hm1 Hm2) as H12.
  exists x, y. then_moved H12 H.
Qed.

Lemma return_moved i e d d' : g = Expiration.delegator e -> well d -> get_opt d i = Some e ->
  return_delegation (i, e) d = Ok (tt, d') ->
  moved g t (- amount (Expiration.vesting_shares e)) 0 (- amount (Expiration.vesting_shares e)) 0 d d' /\
  expirations d' = expirations d <| indices ::= delete i |>.
Proof.
  intros Eg Hw He H. unfold return_delegation in H. cbn [fst snd] in H. rewrite <- Eg in H.
  apply st_bind_Ok in H as (sp & e0 & E & H). apply find_where_Ok in E as [_ ->]. apply st_bind_Ok in H as (u1 & d1 & H1 & H).
  assert (moved g t 0 0 0 0 d d1 /\ expirations d1 = expirations d) as [Hm1 Ex1].
  { destruct (bool_decide _); [|apply st_ret_Ok in H1 as [_ ->]; split; [apply moved_refl|done]].
    apply modify_dgpo_Ok in H1 as (p & _ & ->). split; [apply moved_dgpo|done]. }
  pose proof (moved_well _ _ _ _ _ _ _ _ Hm1 Hw) as Hw1. step H as a Ha. pose proof (account_named _ _ _ Ha (well_names _ Hw1)) as Hn.
  apply st_bind_Ok in H as (u2 & d2 & H2 & H).
  assert (expirations d2 = expirations d1) as Ex2 by (apply modify_Ok in H2 as (? & ? & _ & _ & ->); done).
  apply sub_delegated_moved in H2; [|done..]. pose proof (moved_well _ _ _ _ _ _ _ _ H2 Hw1) as [_ Hr2 Hb2].
  pose proof H as H3. apply remove_Ok in H3 as ->. split; [|cbn; by rewrite Ex2, Ex1].
  assert (get_opt (V:=Expiration.t) d2 i = Some e) as He2 by (unfold get_opt; cbn; rewrite Ex2, Ex1; exact He).
  pose proof (moved_remove_return g t d2 i e _ _ He2 (eq_sym Eg) H) as H3.
  pose proof (moved_trans _ _ _ _ _ _ _ _ _ _ _ _ _ Hm1 H2) as H12. then_moved H12 H3.
Qed.
End Apply.
End Evaluator.

(** ** Delegations that come back *)

Lemma delegations_well d : delegations_ok d -> well d.
Proof. by intros []. Qed.

#[local] Instance by_expiration_trans : Transitive by_expiration.
Proof. intros x y z. unfold by_expiration. lia. Qed.
#[local] Instance by_expiration_total : Total by_expiration.
Proof. intros x y. unfold by_expiration. lia. Qed.

Lemma first_expires d r l : in_order by_expiration d = r :: l -> get_opt d r.1 = Some r.2 /\
  forall i e, get_opt d i = Some e -> Expiration.expiration r.2 <= Expiration.expiration e.
Proof.
  intros E. destruct (in_order_first by_expiration _ _ _ _ _ E) as [Hr Hmin]. split; [done|].
  intros i e He. destruct (Hmin _ _ He) as [<-|Hl]; [done|]. unfold by_expiration in Hl. cbn in Hl. lia.
Qed.

Lemma clear_spec n now d d' : delegations_ok d -> clear_loop n now d = Ok (tt, d') ->
  delegations_ok d' /\ forall i e, get_opt d' i = Some e -> now <= Expiration.expiration e.
Proof.
  revert d. induction n as [|n IH]; intros d Hd H; cbn [clear_loop] in H; step H;
    (destruct (in_order by_expiration d) as [|r l] eqn:E;
      [apply st_ret_Ok in H as [_ ->]; split; [done|]; intros i e He; by destruct (in_order_nil _ _ _ _ E He)|]);
    destruct (first_expires _ _ _ E) as [Hr Hmin];
    (destruct (Z.ltb_spec (Expiration.expiration r.2) now);
      [|apply st_ret_Ok in H as [_ ->]; split; [done|]; intros i e He; specialize (Hmin i e He); lia]); [done|].
  apply st_bind_Ok in H as ([] & d1 & H1 & H). destruct r as [i e].
  destruct (return_moved (Expiration.delegator e) "" i e d d1 eq_refl (delegations_well _ Hd) Hr H1) as [Hm _].
  apply (IH d1); [|done]. by eapply moved_ok.
Qed.

Lemma clear_fuel n m now d : well d -> (size (indices (expirations d)) <= n)%nat -> (size (indices (expirations d)) <= m)%nat ->
  clear_loop n now d = clear_loop m now d.
Proof.
  assert (forall d r l, in_order by_expiration d = r :: l -> (0 < size (indices (expirations d)))%nat) as Hpos.
  { intros e r l E. destruct (first_expires _ _ _ E) as [Hr _]. rewrite Nat.lt_nge. intros Hs.
    assert (size (indices (expirations e)) = 0%nat) as Hz by lia. apply map_size_empty_inv in Hz.
    unfold get_opt in Hr. cbn in Hr. rewrite Hz in Hr. by rewrite lookup_empty in Hr. }
  revert m d. induction n as [|n IH]; intros m d Hw Hn Hm; destruct m as [|m]; [done|..]; cbn [clear_loop];
    (apply st_bind_ext; [|done]); intros e e' [= <- <-]; exists d; (split; [done|]);
    destruct (in_order by_expiration d) as [|r l] eqn:E; try done; pose proof (Hpos _ _ _ E); [lia|lia|].
  destruct (_ <? now); [|done]. apply st_bind_ext; [|done]. intros [] d1 H1. exists tt. split; [done|].
  destruct (first_expires _ _ _ E) as [Hr _]. destruct r as [i e].
  destruct (return_moved (Expiration.delegator e) "" i e d d1 eq_refl Hw Hr H1) as [Hmv Ex].
  assert (size (indices (expirations d1)) = pred (size (indices (expirations d)))) as Hs.
  { rewrite Ex. cbn. apply map_size_delete_Some. by exists e. }
  apply IH; [by eapply moved_well|lia|lia].
Qed.


#[local] Existing Instance boost_reference.

(** Alice delegates 40 shares to nancy and takes 25 back. *)
Definition delegated : database :=
  Sample.after (
    _ ← delegate_vesting_shares_apply (DelegateOp "alice" "nancy" (Asset 40 VESTS_SYMBOL));
    delegate_vesting_shares_apply (DelegateOp "alice" "nancy" (Asset 15 VESTS_SYMBOL))) Sample.state.

Lemma sample_delegations : delegations_ok Sample.state.
Proof.
  split.
  - intros i j a b Ha Hb.
    assert (forall i (a : Account.t), get_opt Sample.state i = Some a ->
      (i = 0 /\ Account.name a = "alice"%string) \/ (i = 1 /\ Account.name a = "bob"%string) \/ (i = 2 /\ Account.name a = "nancy"%string)) as Hall.
    { each_row; naive_solver. }
    destruct (Hall _ _ Ha) as [[-> ->]|[[-> ->]|[-> ->]]], (Hall _ _ Hb) as [[-> ->]|[[-> ->]|[-> ->]]]; done.
  - apply ids_below_check. vm_compute. reflexivity.
  - apply ids_below_check. vm_compute. reflexivity.
  - each_row; vm_compute; reflexivity.
  - each_row; vm_compute; reflexivity.
Qed.


Lemma delegated_run : given delegated "alice" = 40 /\ taken delegated "nancy" = 15.
Proof. vm_compute. done. Qed.

End DelegationFacts.
