(* ===== verification/Invariants.v ===== *)
(** * The audit of the chain state

    Models [validate_invariants], [perform_vesting_share_split] and
    [retally_witness_vote_counts] of database.cpp. *)

From S2P Require Import Prelude.
From S2P Require Import SafeInt.
From S2P Require Import Uint128.
From S2P Require Import Asset.
From S2P Require Import UndoDatabase.
From S2P Require Import Authority.
From S2P Require Import State.
From S2P Require Import Balance.
From S2P Require Import Votes.
From S2P Require Import Vesting.

Module Invariants.
Import AssetOps Votes.

(** ** [validate_invariants] *)

(** The running totals. *)
Record totals := Totals {
  total_supply : asset;
  total_mbd : asset;
  total_vesting : asset;
  total_vsf_votes : Z;
  total_vested_by_sp : Z
}.
#[global] Instance eta_totals : Settable totals := fun r =>
  Totals (total_supply r) (total_mbd r) (total_vesting r) (total_vsf_votes r) (total_vested_by_sp r).

Definition add_supply (x : asset) (t : totals) : result totals :=
  s ← asset_add (total_supply t) x; Ok (t <| total_supply := s |>).
Definition add_mbd (x : asset) (t : totals) : result totals :=
  s ← asset_add (total_mbd t) x; Ok (t <| total_mbd := s |>).

(** The accounts in the order of [by_name]. *)
Definition by_name (x y : Z * Account.t) : Prop := String.leb (Account.name x.2) (Account.name y.2) = true.
#[export] Instance by_name_dec : RelDecision by_name.
Proof. unfold by_name. solve_decision. Defined.

(** The votes an account stands for. *)
Definition vsf_votes (a : Account.t) : result Z :=
  if String.eqb (Account.proxy a) BTCM_PROXY_TO_SELF_ACCOUNT then witness_vote_weight a
  else of_option undefined_behaviour (Account.proxied_vsf_votes a !! (BTCM_MAX_PROXY_RECURSION_DEPTH - 1)%nat).

Definition is_platform (name : string) (d : database) : bool :=
  bool_decide (is_Some (lookup_where (fun p : Platform.t => String.eqb (Platform.owner p) name) d)).

Definition count_account (d : database) (t : totals) (itr : Z * Account.t) : result totals :=
  t ← add_supply (Account.balance itr.2) t;
  t ← add_mbd (Account.mbd_balance itr.2) t;
  v ← asset_add (total_vesting t) (Account.vesting_shares itr.2);
  w ← vsf_votes itr.2;
  w ← Safe.add (total_vsf_votes t) w;
  p ← (if is_platform (Account.name itr.2) d then
         x ← Safe.sub (amount (Account.vesting_shares itr.2)) (amount (Account.delegated_vesting_shares itr.2));
         x ← Safe.add x (amount (Account.received_vesting_shares itr.2));
         Safe.add (total_vested_by_sp t) x
       else Ok (total_vested_by_sp t));
  Ok (t <| total_vesting := v |> <| total_vsf_votes := w |> <| total_vested_by_sp := p |>).

Definition count_convert (t : totals) (itr : Z * ConvertRequest.t) : result totals :=
  if asset_id (ConvertRequest.amount itr.2) =? BTCM_SYMBOL then add_supply (ConvertRequest.amount itr.2) t
  else if asset_id (ConvertRequest.amount itr.2) =? XUSD_SYMBOL then add_mbd (ConvertRequest.amount itr.2) t
  else Throw assert_exception.

Definition count_order (t : totals) (itr : Z * LimitOrder.t) : result totals :=
  let id := asset_id (base (LimitOrder.sell_price itr.2)) in
  if id =? BTCM_SYMBOL then add_supply (Asset (LimitOrder.for_sale itr.2) BTCM_SYMBOL) t
  else if id =? XUSD_SYMBOL then add_mbd (Asset (LimitOrder.for_sale itr.2) XUSD_SYMBOL) t
  else Ok t.

Definition count_claim (t : totals) (itr : Z * ClaimBalance.t) : result totals := add_supply (ClaimBalance.balance itr.2) t.

Definition count_content (t : totals) (itr : Z * Content.t) : result totals :=
  t ← add_supply (Content.accumulated_balance_master itr.2) t;
  add_supply (Content.accumulated_balance_comp itr.2) t.

(** The rows in the order of their ids, which the other loops follow. *)
Definition by_id {V} (x y : Z * V) : Prop := x.1 <= y.1.
#[export] Instance by_id_dec {V} : RelDecision (@by_id V).
Proof. unfold by_id. solve_decision. Defined.

Definition zero_totals : totals := Totals (Asset 0 BTCM_SYMBOL) (Asset 0 XUSD_SYMBOL) (Asset 0 VESTS_SYMBOL) 0 0.

Definition count_all (d : database) : result totals :=
  t ← foldM (count_account d) zero_totals (in_order by_name d);
  t ← foldM count_convert t (in_order by_id d);
  t ← foldM count_order t (in_order by_id d);
  t ← foldM count_claim t (in_order by_id d);
  t ← foldM count_content t (in_order by_id d);
  add_supply (Dgpo.total_vesting_fund_btcm (dgpo d)) t.

Section Validate.
Context {B : BoostMP}.

Definition validate_virtual_supply (d : database) : result unit :=
  let gpo := dgpo d in
  b ← asset_geb (Dgpo.virtual_supply gpo) (Dgpo.current_supply gpo);
  _ ← fc_assert b;
  if negb (is_null (FeedHistory.effective_median_history (feed_history d))) then
    v ← asset_mul (Dgpo.current_mbd_supply gpo) (FeedHistory.effective_median_history (feed_history d));
    v ← asset_add v (Dgpo.current_supply gpo);
    fc_assert (asset_eqb v (Dgpo.virtual_supply gpo))
  else Ok tt.

Definition validate_invariants (d : database) : result unit :=
  let gpo := dgpo d in
  _ ← foldM (fun _ (itr : Z * Witness.t) => fc_assert (Witness.votes itr.2 <? amount (Dgpo.total_vesting_shares gpo)))
        tt (in_order by_id d);
  t ← count_all d;
  _ ← fc_assert (asset_eqb (Dgpo.current_supply gpo) (total_supply t));
  _ ← fc_assert (asset_eqb (Dgpo.current_mbd_supply gpo) (total_mbd t));
  _ ← fc_assert (asset_eqb (Dgpo.total_vesting_shares gpo) (total_vesting t));
  _ ← fc_assert (amount (Dgpo.total_vesting_shares gpo) =? total_vsf_votes t);
  _ ← fc_assert (Dgpo.total_vested_by_platforms gpo =? total_vested_by_sp t);
  validate_virtual_supply d.

End Validate.

(** ** [perform_vesting_share_split] *)

Definition split_account (magnitude : Z) (a : Account.t) : result Account.t :=
  v ← Safe.mul (amount (Account.vesting_shares a)) magnitude;
  w ← Safe.mul (Account.withdrawn a) magnitude;
  t ← Safe.mul (Account.to_withdraw a) magnitude;
  r ← Safe.div t BTCM_VESTING_WITHDRAW_INTERVALS;
  l ← foldM (fun l i => x ← of_option undefined_behaviour (l !! i); x ← Safe.mul x magnitude; Ok (<[i := x]> l))
        (Account.proxied_vsf_votes a) (seq 0 BTCM_MAX_PROXY_RECURSION_DEPTH);
  Ok (a <| Account.vesting_shares ::= fun s => s <| amount := v |> |> <| Account.withdrawn := w |>
        <| Account.to_withdraw := t |>
        <| Account.vesting_withdraw_rate := Asset (if r =? 0 then 1 else r) VESTS_SYMBOL |>
        <| Account.proxied_vsf_votes := l |>).

Definition perform_vesting_share_split (magnitude : Z) : st database unit :=
  _ ← modify_dgpo (fun p =>
        v ← Safe.mul (amount (Dgpo.total_vesting_shares p)) magnitude;
        Ok (p <| Dgpo.total_vesting_shares ::= fun s => s <| amount := v |> |>));
  d ← get_st;
  for_each (in_order (by_id (V:=Account.t)) d) (fun account => modify account.1 (split_account magnitude)).

(** ** [retally_witness_vote_counts] *)

Definition count_votes (force : bool) (d : database) (a : Z * Account.t) : Z :=
  if force || negb (String.eqb (Account.proxy a.2) BTCM_PROXY_TO_SELF_ACCOUNT)
  then u16 (Z.of_nat (length (witness_votes_of a.1 d))) else 0.

Definition retally_witness_vote_counts (force : bool) : st database unit :=
  d ← get_st;
  for_each (in_order (by_id (V:=Account.t)) d) (fun a =>
    e ← get_st;
    let witnesses_voted_for := count_votes force e a in
    if negb (Account.witnesses_voted_for a.2 =? witnesses_voted_for)
    then modify_pure a.1 (fun account => account <| Account.witnesses_voted_for := witnesses_voted_for |>)
    else mret tt).

End Invariants.
