(* ===== verification/InvariantFacts.v ===== *)
(** * The audit of the chain state: facts

    What a state that passes [validate_invariants] satisfies, in terms of the gaps
    that the operations are proved to preserve. *)

From S2P Require Import Prelude.
From S2P Require Import SafeInt.
From S2P Require Import Uint128.
From S2P Require Import Asset.
From S2P Require Import UndoDatabase.
From S2P Require Import Authority.
From S2P Require Import State.
From S2P Require Import Sample.
From S2P Require Import Balance.
From S2P Require Import BalanceFacts.
From S2P Require Import Votes.
From S2P Require Import Vesting.
From S2P Require Import VestingFacts.
From S2P Require Import Invariants.

Module InvariantFacts.
Import AssetOps Votes Invariants Supply.

Lemma foldM_sum {A T} (f : T -> A -> result T) (q : T -> Z) (w : A -> Z) l t t' :
  (forall t x t', f t x = Ok t' -> q t' = q t + w x) -> foldM f t l = Ok t' -> q t' = q t + zsum (List.map w l).
Proof.
  intros Hf. revert t. induction l as [|x l IH]; intros t H; cbn [foldM] in H.
  - injection H as <-. unfold zsum. cbn. lia.
  - apply bind_Ok in H as (t1 & H1 & H). rewrite (IH _ H), (Hf _ _ _ H1). unfold zsum. cbn. lia.
Qed.

Lemma in_order_total {V} `{Stored V} (le : Z * V -> Z * V -> Prop) `{!RelDecision le} (w : V -> Z) d :
  zsum (List.map (fun kv => w kv.2) (in_order le d)) = total w d.
Proof. unfold total. symmetry. apply map_sum_list. apply merge_sort_Permutation. Qed.

(** One column of the totals over one table. *)
Lemma column {V} `{Stored V} (f : totals -> Z * V -> result totals) (q : totals -> Z) (w : V -> Z)
    (le : Z * V -> Z * V -> Prop) `{!RelDecision le} d t t' :
  (forall t x t', f t x = Ok t' -> q t' = q t + w x.2) -> foldM f t (in_order le d) = Ok t' -> q t' = q t + total w d.
Proof. intros Hf Hr. rewrite (foldM_sum f q (fun kv => w kv.2) _ _ _ Hf Hr). by rewrite in_order_total. Qed.

Definition supply_of (t : totals) : Z := amount (total_supply t).
Definition mbd_of (t : totals) : Z := amount (total_mbd t).
Definition vesting_of (t : totals) : Z := amount (total_vesting t).

Lemma add_supply_Ok x t t' : add_supply x t = Ok t' ->
  supply_of t' = supply_of t + amount x /\ mbd_of t' = mbd_of t /\ vesting_of t' = vesting_of t.
Proof. unfold add_supply. intros H. apply bind_Ok in H as (s & Hs & [= <-]). by apply AssetLemmas.asset_add_Ok in Hs as [_ ->]. Qed.
Lemma add_mbd_Ok x t t' : add_mbd x t = Ok t' ->
  supply_of t' = supply_of t /\ mbd_of t' = mbd_of t + amount x /\ vesting_of t' = vesting_of t.
Proof. unfold add_mbd. intros H. apply bind_Ok in H as (s & Hs & [= <-]). by apply AssetLemmas.asset_add_Ok in Hs as [_ ->]. Qed.

Lemma count_account_Ok d t x t' : count_account d t x = Ok t' ->
  supply_of t' = supply_of t + amount (Account.balance x.2) /\ mbd_of t' = mbd_of t + amount (Account.mbd_balance x.2) /\
  vesting_of t' = vesting_of t + amount (Account.vesting_shares x.2).
Proof.
  unfold count_account. intros H. apply bind_Ok in H as (t1 & (A1 & A2 & A3)%add_supply_Ok & H).
  apply bind_Ok in H as (t2 & (B1 & B2 & B3)%add_mbd_Ok & H). apply bind_Ok in H as (v & Hv & H).
  apply bind_Ok in H as (w & _ & H). apply bind_Ok in H as (w' & _ & H). apply bind_Ok in H as (p & _ & [= <-]).
  apply AssetLemmas.asset_add_Ok in Hv as [_ ->]. unfold supply_of, mbd_of, vesting_of in *. cbn. lia.
Qed.

Lemma count_convert_Ok t x t' : count_convert t x = Ok t' ->
  supply_of t' = supply_of t + of_asset BTCM_SYMBOL (ConvertRequest.amount x.2) /\
  mbd_of t' = mbd_of t + of_asset XUSD_SYMBOL (ConvertRequest.amount x.2) /\ vesting_of t' = vesting_of t + 0.
Proof.
  unfold count_convert, of_asset. destruct (Z.eqb_spec (asset_id (ConvertRequest.amount x.2)) BTCM_SYMBOL) as [->|].
  - intros (-> & -> & ->)%add_supply_Ok. cbn. lia.
  - destruct (Z.eqb_spec (asset_id (ConvertRequest.amount x.2)) XUSD_SYMBOL) as [E|]; [|done].
    intros (-> & -> & ->)%add_mbd_Ok. cbn. lia.
Qed.

Lemma count_order_Ok t x t' : count_order t x = Ok t' ->
  supply_of t' = supply_of t + order_holds BTCM_SYMBOL x.2 /\ mbd_of t' = mbd_of t + order_holds XUSD_SYMBOL x.2 /\
  vesting_of t' = vesting_of t + 0.
Proof.
  unfold count_order, order_holds. destruct (Z.eqb_spec (asset_id (base (LimitOrder.sell_price x.2))) BTCM_SYMBOL) as [->|].
  - intros (-> & -> & ->)%add_supply_Ok. cbn. lia.
  - destruct (Z.eqb_spec (asset_id (base (LimitOrder.sell_price x.2))) XUSD_SYMBOL) as [E|]; [|intros [= <-]; lia].
    intros (-> & -> & ->)%add_mbd_Ok. cbn. lia.
Qed.

Lemma count_claim_Ok t x t' : count_claim t x = Ok t' ->
  supply_of t' = supply_of t + amount (ClaimBalance.balance x.2) /\ mbd_of t' = mbd_of t + 0 /\ vesting_of t' = vesting_of t + 0.
Proof. intros (-> & -> & ->)%add_supply_Ok. lia. Qed.

Lemma count_content_Ok t x t' : count_content t x = Ok t' ->
  supply_of t' = supply_of t
    + (amount (Content.accumulated_balance_master x.2) + amount (Content.accumulated_balance_comp x.2)) /\
  mbd_of t' = mbd_of t + 0 /\ vesting_of t' = vesting_of t + 0.
Proof.
  unfold count_content. intros H. apply bind_Ok in H as (t1 & (A1 & A2 & A3)%add_supply_Ok & (B1 & B2 & B3)%add_supply_Ok). lia.
Qed.

Lemma total_zero {V} `{Stored V} d : total (V:=V) (fun _ => 0) d = 0.
Proof. by apply map_sum_zero. Qed.

Lemma count_all_Ok d t : count_all d = Ok t ->
  supply_of t = held_btcm d /\ mbd_of t = held_mbd d /\ vesting_of t = held_vests d.
Proof.
  unfold count_all. intros H. apply bind_Ok in H as (t1 & H1 & H). apply bind_Ok in H as (t2 & H2 & H).
  apply bind_Ok in H as (t3 & H3 & H). apply bind_Ok in H as (t4 & H4 & H). apply bind_Ok in H as (t5 & H5 & H).
  apply add_supply_Ok in H as (E1 & E2 & E3).
  pose proof (column _ supply_of
    (fun a => amount (Account.balance a)) _ _ _ _ (fun t x t' Hx => proj1 (count_account_Ok d t x t' Hx)) H1) as A1.
  pose proof (column _ mbd_of
    (fun a => amount (Account.mbd_balance a)) _ _ _ _ (fun t x t' Hx => proj1 (proj2 (count_account_Ok d t x t' Hx))) H1) as A2.
  pose proof (column _ vesting_of
    (fun a => amount (Account.vesting_shares a)) _ _ _ _ (fun t x t' Hx => proj2 (proj2 (count_account_Ok d t x t' Hx))) H1) as A3.
  pose proof (column _ supply_of
    (fun c => of_asset BTCM_SYMBOL (ConvertRequest.amount c)) _ _ _ _ (fun t x t' Hx => proj1 (count_convert_Ok t x t' Hx)) H2) as B1.
  pose proof (column _ mbd_of
    (fun c => of_asset XUSD_SYMBOL (ConvertRequest.amount c)) _ _ _ _ (fun t x t' Hx => proj1 (proj2 (count_convert_Ok t x t' Hx))) H2) as B2.
  pose proof (column _ vesting_of
    (fun _ => 0) _ _ _ _ (fun t x t' Hx => proj2 (proj2 (count_convert_Ok t x t' Hx))) H2) as B3.
  pose proof (column _ supply_of
    (order_holds BTCM_SYMBOL) _ _ _ _ (fun t x t' Hx => proj1 (count_order_Ok t x t' Hx)) H3) as C1.
  pose proof (column _ mbd_of
    (order_holds XUSD_SYMBOL) _ _ _ _ (fun t x t' Hx => proj1 (proj2 (count_order_Ok t x t' Hx))) H3) as C2.
  pose proof (column _ vesting_of
    (fun _ => 0) _ _ _ _ (fun t x t' Hx => proj2 (proj2 (count_order_Ok t x t' Hx))) H3) as C3.
  pose proof (column _ supply_of
    (fun b => amount (ClaimBalance.balance b)) _ _ _ _ (fun t x t' Hx => proj1 (count_claim_Ok t x t' Hx)) H4) as D1.
  pose proof (column _ mbd_of
    (fun _ => 0) _ _ _ _ (fun t x t' Hx => proj1 (proj2 (count_claim_Ok t x t' Hx))) H4) as D2.
  pose proof (column _ vesting_of
    (fun _ => 0) _ _ _ _ (fun t x t' Hx => proj2 (proj2 (count_claim_Ok t x t' Hx))) H4) as D3.
  pose proof (column _ supply_of
    (fun c => amount (Content.accumulated_balance_master c) + amount (Content.accumulated_balance_comp c)) _ _ _ _ (fun t x t' Hx => proj1 (count_content_Ok t x t' Hx)) H5) as F1.
  pose proof (column _ mbd_of
    (fun _ => 0) _ _ _ _ (fun t x t' Hx => proj1 (proj2 (count_content_Ok t x t' Hx))) H5) as F2.
  pose proof (column _ vesting_of
    (fun _ => 0) _ _ _ _ (fun t x t' Hx => proj2 (proj2 (count_content_Ok t x t' Hx))) H5) as F3.
  rewrite !total_zero in *. unfold held_btcm, held_mbd, held_vests. cbn in *. unfold supply_of, mbd_of, vesting_of in *. cbn in *. lia.
Qed.

Section Facts.
Context {B : BoostMP}.

(** C27 A state that passes the audit has no gap between the recorded supply and the
    holdings of BTCM, XUSD and VESTS, and no witness with as many votes as there are
    shares.  So every operation proved to keep the gaps keeps this much of the audit. *)
Theorem audit_sound d : validate_invariants d = Ok tt ->
  gap BTCM_SYMBOL d = 0 /\ gap XUSD_SYMBOL d = 0 /\ gap VESTS_SYMBOL d = 0 /\
  (forall i w, get_opt d i = Some w -> Witness.votes w < amount (Dgpo.total_vesting_shares (dgpo d))).
Proof.
  unfold validate_invariants. intros H. apply bind_Ok in H as (u & Hw & H). apply bind_Ok in H as (t & Ht & H).
  apply bind_Ok in H as (u1 & H1%fc_assert_Ok & H). apply bind_Ok in H as (u2 & H2%fc_assert_Ok & H).
  apply bind_Ok in H as (u3 & H3%fc_assert_Ok & _). apply count_all_Ok in Ht as (E1 & E2 & E3).
  unfold asset_eqb in *. unfold supply_of, mbd_of, vesting_of in *. split_and!.
  - unfold gap. cbn. lia.
  - unfold gap. cbn. lia.
  - unfold gap. cbn. lia.
  - assert (forall l, foldM (fun _ (itr : Z * Witness.t) => fc_assert (Witness.votes itr.2 <? amount (Dgpo.total_vesting_shares (dgpo d)))) tt l = Ok u ->
      forall kv, kv ∈ l -> Witness.votes kv.2 < amount (Dgpo.total_vesting_shares (dgpo d))) as Hall.
    { induction l as [|x l IH]; intros Hl kv Hkv; [by apply elem_of_nil in Hkv|]. cbn [foldM] in Hl.
      apply bind_Ok in Hl as ([] & Hx%fc_assert_Ok & Hl). apply elem_of_cons in Hkv as [->|Hkv]; [lia|by apply IH]. }
    intros i w Hi. apply (Hall _ Hw (i, w)). unfold in_order. rewrite merge_sort_Permutation.
    by apply elem_of_map_to_list.
Qed.
End Facts.

#[local] Existing Instance boost_reference.

Lemma audit_sound_witness : validate_invariants Sample.state = Ok tt /\ gap VESTS_SYMBOL Sample.state = 0.
Proof. split; [vm_compute; reflexivity|]. apply (audit_sound Sample.state). vm_compute. reflexivity. Defined.

(** Powering down does not update the shares vested by platforms: when the owner of a
    platform does it, a state that passed the audit no longer does. *)
Definition platform_powering_down : database :=
  VestingFacts.powering_down <| platforms := Table 1 (<[0 := default_platform <| Platform.owner := "alice" |>]> empty) |>
    <| dgpo ::= fun p => p <| Dgpo.total_vested_by_platforms := 500 |> |>.

Lemma platform_withdrawal_fails_audit :
  is_ok (validate_invariants platform_powering_down) = true /\
  is_ok (Vesting.process_vesting_withdrawals platform_powering_down) = true /\
  validate_invariants (Sample.after Vesting.process_vesting_withdrawals platform_powering_down) = Throw assert_exception.
Proof. vm_compute. done. Qed.

(** A share split multiplies what accounts hold and stand for but not the votes of the
    witnesses, and gives every account an instalment of a withdrawal. *)
Lemma share_split_forgets_votes :
  let d := Sample.after (perform_vesting_share_split 10) Sample.state in
  amount (Dgpo.total_vesting_shares (dgpo d)) = 9000 /\
  option_map Witness.votes (get_opt (V:=Witness.t) d 0) = option_map Witness.votes (get_opt (V:=Witness.t) Sample.state 0) /\
  option_map Account.vesting_withdraw_rate (get_opt (V:=Account.t) d 2) = Some (Asset 1 VESTS_SYMBOL).
Proof. vm_compute. done. Qed.

End InvariantFacts.
