(* ===== verification/Market.v ===== *)
(** * The internal market

    Models limit orders and conversions: [apply_order], [match], [fill_order],
    [cancel_order] and [clear_expired_orders] of database.cpp, [limit_order_object]
    of base_objects.hpp, and the evaluators of limit orders, conversions and price
    feeds of base_evaluator.cpp.  The references to orders are ids.  Only orders
    the loop of [apply_order] has passed, and the new one, are removed while it
    runs, so its iterators are the ids of the range at the start. *)

From S2P Require Import Prelude.
From S2P Require Import SafeInt.
From S2P Require Import Uint128.
From S2P Require Import Asset.
From S2P Require Import UndoDatabase.
From S2P Require Import Authority.
From S2P Require Import State.
From S2P Require Import Balance.

(** [assert( b )] of <cassert>, which only debug builds execute. *)
Definition cassert {S} (b : bool) : st S unit := if b then mret tt else throw undefined_behaviour.

Module Market.
Import AssetOps.
Import Balances.

Record limit_order_create_operation := CreateOp {
  lc_owner : string;
  lc_orderid : Z;
  lc_amount_to_sell : asset;
  lc_min_to_receive : asset;
  lc_fill_or_kill : bool;
  lc_expiration : Z
}.
Record limit_order_create2_operation := Create2Op {
  l2_owner : string;
  l2_orderid : Z;
  l2_amount_to_sell : asset;
  l2_fill_or_kill : bool;
  l2_exchange_rate : price;
  l2_expiration : Z
}.
Record limit_order_cancel_operation := CancelOp { lx_owner : string; lx_orderid : Z }.
Record convert_operation := ConvertOp { cv_owner : string; cv_requestid : Z; cv_amount : asset }.
Record feed_publish_operation := FeedOp { fp_publisher : string; fp_exchange_rate : price }.

Definition amount_for_sale (o : LimitOrder.t) : asset :=
  Asset (LimitOrder.for_sale o) (asset_id (base (LimitOrder.sell_price o))).

(** The index [by_price]: the greatest price first, then the id. *)
Definition by_price (x y : Z * LimitOrder.t) : Prop :=
  let p := LimitOrder.sell_price x.2 in
  let q := LimitOrder.sell_price y.2 in
  price_gtb p q = true \/ (price_gtb q p = false /\ x.1 <= y.1).
#[export] Instance by_price_dec : RelDecision by_price.
Proof. unfold by_price. solve_decision. Defined.

(** The index [by_expiration]; orders of one time are in the order of their ids. *)
Definition by_expiration (x y : Z * LimitOrder.t) : Prop :=
  LimitOrder.expiration x.2 < LimitOrder.expiration y.2
  \/ (LimitOrder.expiration x.2 = LimitOrder.expiration y.2 /\ x.1 <= y.1).
#[export] Instance by_expiration_dec : RelDecision by_expiration.
Proof. unfold by_expiration. solve_decision. Defined.

(** From [lower_bound( hi )] to [upper_bound( lo )]. *)
Definition in_range (hi lo p : price) : bool := negb (price_gtb p hi) && negb (price_gtb lo p).
Definition orders_between (hi lo : price) (d : database) : list Z :=
  fst <$> List.filter (fun kv => in_range hi lo (LimitOrder.sell_price kv.2)) (in_order by_price d).

Section Market.
Context {B : BoostMP}.

Definition amount_to_receive (o : LimitOrder.t) : result asset :=
  asset_mul (amount_for_sale o) (LimitOrder.sell_price o).

(** ** Matching *)

Definition cancel_order (order : Z) : st database unit :=
  o ← get (V:=LimitOrder.t) order;
  seller ← get_account (LimitOrder.seller o);
  _ ← adjust_balance seller.1 (amount_for_sale o);
  remove (V:=LimitOrder.t) order.

Definition fill_order (order : Z) (pays receives : asset) : st database bool :=
  o ← get (V:=LimitOrder.t) order;
  _ ← assert_st (asset_id (amount_for_sale o) =? asset_id pays);
  _ ← assert_st (negb (asset_id pays =? asset_id receives));
  seller ← get_account (LimitOrder.seller o);
  _ ← adjust_balance seller.1 receives;
  if asset_eqb pays (amount_for_sale o) then
    _ ← remove (V:=LimitOrder.t) order;
    mret true
  else
    _ ← modify order (fun b => s ← Safe.sub (LimitOrder.for_sale b) (amount pays); Ok (b <| LimitOrder.for_sale := s |>));
    o ← get (V:=LimitOrder.t) order;
    r ← lift (amount_to_receive o);
    if amount r =? 0 then _ ← cancel_order order; mret true else mret false.

(** What the new order receives and what the old one receives; each pays what the
    other receives. *)
Definition match_amounts (new_order old_order : LimitOrder.t) (match_price : price) : result (asset * asset) :=
  let new_order_for_sale := amount_for_sale new_order in
  let old_order_for_sale := amount_for_sale old_order in
  wanted ← asset_mul old_order_for_sale match_price;
  b ← asset_leb new_order_for_sale wanted;
  if (b : bool) then
    r ← asset_mul new_order_for_sale match_price;
    Ok (r, new_order_for_sale)
  else
    r ← asset_mul old_order_for_sale match_price;
    Ok (old_order_for_sale, r).

Definition match_orders (new_order old_order : Z) (match_price : price) : st database Z :=
  n ← get (V:=LimitOrder.t) new_order;
  o ← get (V:=LimitOrder.t) old_order;
  let id_of_quote p := asset_id (quote p) in
  let id_of_base p := asset_id (base p) in
  _ ← cassert (id_of_quote (LimitOrder.sell_price n) =? id_of_base (LimitOrder.sell_price o));
  _ ← cassert (id_of_base (LimitOrder.sell_price n) =? id_of_quote (LimitOrder.sell_price o));
  _ ← cassert ((LimitOrder.for_sale n >? 0) && (LimitOrder.for_sale o >? 0));
  _ ← cassert (id_of_quote match_price =? id_of_base (LimitOrder.sell_price n));
  _ ← cassert (id_of_base match_price =? id_of_base (LimitOrder.sell_price o));
  r ← lift (match_amounts n o match_price);
  let '(new_order_receives, old_order_receives) := r in
  let old_order_pays := new_order_receives in
  let new_order_pays := old_order_receives in
  _ ← cassert (asset_eqb new_order_pays (amount_for_sale n) || asset_eqb old_order_pays (amount_for_sale o));
  fn ← fill_order new_order new_order_pays new_order_receives;
  fo ← fill_order old_order old_order_pays old_order_receives;
  let result := Z.lor (Z.b2z fn) (Z.shiftl (Z.b2z fo) 1) in
  _ ← cassert (negb (result =? 0));
  mret result.

Fixpoint match_loop (new_order : Z) (range : list Z) : st database unit :=
  match range with
  | [] => mret tt
  | old_order :: range =>
      o ← get (V:=LimitOrder.t) old_order;
      r ← match_orders new_order old_order (LimitOrder.sell_price o);
      if Z.testbit r 0 then mret tt else match_loop new_order range
  end.

Definition apply_order (new_order : Z) : st database bool :=
  n ← get (V:=LimitOrder.t) new_order;
  let max_price := invert (LimitOrder.sell_price n) in
  hi ← lift (price_max (asset_id (base max_price)) (asset_id (quote max_price)));
  d ← get_st;
  _ ← match_loop new_order (orders_between hi max_price d);
  d ← get_st;
  mret (bool_decide (get_opt (V:=LimitOrder.t) d new_order = None)).

Fixpoint clear_orders_loop (fuel : nat) (now : Z) : st database unit :=
  d ← get_st;
  match in_order by_expiration d with
  | itr :: _ =>
      if LimitOrder.expiration itr.2 <? now then
        match fuel with
        | O => throw undefined_behaviour
        | S fuel => _ ← cancel_order itr.1; clear_orders_loop fuel now
        end
      else mret tt
  | [] => mret tt
  end.

(** Each turn removes an order. *)
Definition clear_expired_orders : st database unit :=
  d ← get_st;
  clear_orders_loop (length (in_order by_expiration d)) (head_block_time d).

(** ** What [validate] asks of the operations (protocol/base_operations.cpp) *)

Definition is_asset_type (a : asset) (id : Z) : bool := asset_id a =? id.

Definition limit_order_create_validate (o : limit_order_create_operation) : result unit :=
  _ ← fc_assert (Names.is_valid_account_name (lc_owner o));
  _ ← fc_assert (negb (is_asset_type (lc_min_to_receive o) VESTS_SYMBOL) && negb (is_asset_type (lc_amount_to_sell o) VESTS_SYMBOL));
  p ← make_price (lc_amount_to_sell o) (lc_min_to_receive o);
  validate p.

Definition limit_order_create2_validate (o : limit_order_create2_operation) : result unit :=
  _ ← fc_assert (Names.is_valid_account_name (l2_owner o));
  _ ← fc_assert (asset_id (l2_amount_to_sell o) =? asset_id (base (l2_exchange_rate o)));
  _ ← validate (l2_exchange_rate o);
  _ ← fc_assert (negb (is_asset_type (base (l2_exchange_rate o)) VESTS_SYMBOL)
        && negb (is_asset_type (quote (l2_exchange_rate o)) VESTS_SYMBOL));
  r ← asset_mul (l2_amount_to_sell o) (l2_exchange_rate o);
  fc_assert (amount r >? 0).

Definition limit_order_cancel_validate (o : limit_order_cancel_operation) : result unit :=
  fc_assert (Names.is_valid_account_name (lx_owner o)).

Definition convert_validate (o : convert_operation) : result unit :=
  _ ← fc_assert (Names.is_valid_account_name (cv_owner o));
  _ ← fc_assert (is_asset_type (cv_amount o) BTCM_SYMBOL);
  fc_assert (amount (cv_amount o) >? 0).

Definition feed_publish_validate (o : feed_publish_operation) : result unit :=
  _ ← fc_assert (Names.is_valid_account_name (fp_publisher o));
  let rate := fp_exchange_rate o in
  _ ← fc_assert ((is_asset_type (base rate) BTCM_SYMBOL && is_asset_type (quote rate) XUSD_SYMBOL)
        || (is_asset_type (base rate) XUSD_SYMBOL && is_asset_type (quote rate) BTCM_SYMBOL));
  validate rate.

(** ** The evaluators *)

Definition sell (owner : string) (orderid : Z) (amount_to_sell : asset) (rate : result price)
    (fill_or_kill : bool) (expiration : Z) : st database unit :=
  d ← get_st;
  _ ← assert_st (expiration >? head_block_time d);
  own ← get_account owner;
  b ← get_balance own.1 (asset_id amount_to_sell);
  _ ← assert_asset (asset_geb b amount_to_sell);
  n ← lift (asset_neg amount_to_sell);
  _ ← adjust_balance own.1 n;
  d ← get_st;
  p ← lift rate;
  order ← create (LimitOrder.Make (head_block_time d) expiration owner orderid (amount amount_to_sell) p);
  filled ← apply_order order;
  if fill_or_kill then assert_st filled else mret tt.

Definition get_price (o : limit_order_create_operation) : result price :=
  make_price (lc_amount_to_sell o) (lc_min_to_receive o).

Definition limit_order_create_apply (o : limit_order_create_operation) : st database unit :=
  sell (lc_owner o) (lc_orderid o) (lc_amount_to_sell o) (get_price o) (lc_fill_or_kill o) (lc_expiration o).

Definition limit_order_create2_apply (o : limit_order_create2_operation) : st database unit :=
  sell (l2_owner o) (l2_orderid o) (l2_amount_to_sell o) (Ok (l2_exchange_rate o)) (l2_fill_or_kill o) (l2_expiration o).

Definition limit_order_cancel_apply (o : limit_order_cancel_operation) : st database unit :=
  order ← get_limit_order (lx_owner o) (lx_orderid o);
  cancel_order order.1.

Definition feed_publish_apply (o : feed_publish_operation) : st database unit :=
  witness ← get_witness (fp_publisher o);
  d ← get_st;
  modify_pure witness.1 (fun w =>
    w <| Witness.mbd_exchange_rate := fp_exchange_rate o |>
      <| Witness.last_mbd_exchange_update := head_block_time d |>).

Definition convert_supplies (btcm amount_to_issue : asset) (feed : price) (p : Dgpo.t) : result Dgpo.t :=
  c ← asset_sub (Dgpo.current_supply p) btcm;
  m ← asset_add (Dgpo.current_mbd_supply p) amount_to_issue;
  v ← asset_sub (Dgpo.virtual_supply p) btcm;
  x ← asset_mul amount_to_issue feed;
  v ← asset_add v x;
  Ok (p <| Dgpo.current_supply := c |> <| Dgpo.current_mbd_supply := m |> <| Dgpo.virtual_supply := v |>).

Definition convert_apply (o : convert_operation) : st database unit :=
  owner ← get_account (cv_owner o);
  b ← get_balance owner.1 (asset_id (cv_amount o));
  _ ← assert_asset (asset_geb b (cv_amount o));
  n ← lift (asset_neg (cv_amount o));
  _ ← adjust_balance owner.1 n;
  d ← get_st;
  let feed := FeedHistory.effective_median_history (feed_history d) in
  _ ← assert_st (negb (is_null feed));
  amount_to_issue ← lift (asset_mul (cv_amount o) feed);
  _ ← adjust_balance owner.1 amount_to_issue;
  modify_dgpo (convert_supplies (cv_amount o) amount_to_issue feed).

(** [update_virtual_supply] of database.cpp *)
Definition virtual_supply_of (feed : price) (dgp : Dgpo.t) : result asset :=
  m ← (if is_null feed then Ok (Asset 0 BTCM_SYMBOL) else asset_mul (Dgpo.current_mbd_supply dgp) feed);
  asset_add (Dgpo.current_supply dgp) m.
Definition update_virtual_supply : st database unit :=
  d ← get_st;
  modify_dgpo (fun dgp =>
    v ← virtual_supply_of (FeedHistory.effective_median_history (feed_history d)) dgp;
    Ok (dgp <| Dgpo.virtual_supply := v |>)).

End Market.
End Market.
