(* ===== verification/MarketFacts.v ===== *)
(** * Facts about the market

    Limit orders and conversions neither create nor destroy units of any asset; a
    match never trades an order beyond its price; the book stays made of orders
    that ask for something, no two of which cross. *)

From S2P Require Import Prelude.
From S2P Require Import SafeInt.
From S2P Require Import Uint128.
From S2P Require Import Uint128Facts.
From S2P Require Import Asset.
From S2P Require Import AssetFacts.
From S2P Require Import UndoDatabase.
From S2P Require Import State.
From S2P Require Import Sample.
From S2P Require Import Balance.
From S2P Require Import BalanceFacts.
From S2P Require Import Market.

Module MarketFacts.
Import AssetOps.
Import Balances.
Import Market.
Import Supply.

(** ** Gaps *)

Lemma gap_orders d t id :
  gap id (d <| limit_orders := t |>) = gap id d
    - (if id =? VESTS_SYMBOL then 0 else map_sum (order_holds id) (indices t) - total (order_holds id) d).
Proof.
  unfold gap, held_btcm, held_mbd, held_user.
  change (total (V:=LimitOrder.t) ?f (d <| limit_orders := t |>)) with (map_sum f (indices t)).
  change (total (V:=Account.t) ?f (d <| limit_orders := t |>)) with (total (V:=Account.t) f d).
  change (total (V:=ConvertRequest.t) ?f (d <| limit_orders := t |>)) with (total (V:=ConvertRequest.t) f d).
  change (total (V:=ClaimBalance.t) ?f (d <| limit_orders := t |>)) with (total (V:=ClaimBalance.t) f d).
  change (total (V:=Content.t) ?f (d <| limit_orders := t |>)) with (total (V:=Content.t) f d).
  change (total (V:=Balance.t) ?f (d <| limit_orders := t |>)) with (total (V:=Balance.t) f d).
  change (user_supply id (d <| limit_orders := t |>)) with (user_supply id d).
  change (held_vests (d <| limit_orders := t |>)) with (held_vests d).
  change (dgpo (d <| limit_orders := t |>)) with (dgpo d).
  destruct (Z.eqb_spec id BTCM_SYMBOL) as [->|]; [change (BTCM_SYMBOL =? VESTS_SYMBOL) with false; cbn iota; lia|].
  destruct (Z.eqb_spec id XUSD_SYMBOL) as [->|]; [change (XUSD_SYMBOL =? VESTS_SYMBOL) with false; cbn iota; lia|].
  destruct (Z.eqb_spec id VESTS_SYMBOL); lia.
Qed.

Lemma holds_counts id o : (if id =? VESTS_SYMBOL then 0 else order_holds id o) = counts id (amount_for_sale o).
Proof.
  unfold order_holds, counts. cbn [amount_for_sale asset_id amount]. rewrite (Z.eqb_sym _ id).
  destruct (id =? VESTS_SYMBOL), (id =? asset_id _); done.
Qed.

Lemma gap_set_order d i o o' id : get_opt d i = Some o ->
  gap id (set_obj d i o') = gap id d + counts id (amount_for_sale o) - counts id (amount_for_sale o').
Proof.
  intros H. change (set_obj d i o') with (d <| limit_orders := tbl (V:=LimitOrder.t) (set_obj d i o') |>).
  rewrite gap_orders. change (map_sum _ _) with (total (order_holds id) (set_obj d i o')).
  rewrite (total_set_obj _ _ _ _ _ H), <-!holds_counts. destruct (id =? VESTS_SYMBOL); lia.
Qed.

Lemma gap_remove_order d i o id : get_opt d i = Some o ->
  gap id (upd_tbl (fun t : table LimitOrder.t => t <| indices ::= delete i |>) d) = gap id d + counts id (amount_for_sale o).
Proof.
  intros H. set (d' := upd_tbl _ d). change d' with (d <| limit_orders := tbl (V:=LimitOrder.t) d' |>).
  rewrite gap_orders. change (map_sum _ _) with (total (order_holds id) d'). unfold d'.
  rewrite (total_remove _ _ _ _ H), <-holds_counts. destruct (id =? VESTS_SYMBOL); lia.
Qed.

Lemma gap_create_order d o id : fresh LimitOrder.t d ->
  gap id (upd_tbl (fun t => next_object t o) d) = gap id d - counts id (amount_for_sale o).
Proof.
  intros H. set (d' := upd_tbl _ d). change d' with (d <| limit_orders := tbl (V:=LimitOrder.t) d' |>).
  rewrite gap_orders. change (map_sum _ _) with (total (order_holds id) d'). unfold d'.
  rewrite (total_create _ _ _ H), <-holds_counts. destruct (id =? VESTS_SYMBOL); lia.
Qed.

(** The tables that get new rows have their ids below the next one. *)
Definition books (d : database) : Prop := ids_below Balance.t d /\ ids_below LimitOrder.t d.

Section Market.
Context {B : BoostMP}.


(** ** What each operation does to the book *)

Definition orders (d : database) : gmap Z LimitOrder.t := indices (tbl (V:=LimitOrder.t) d).

Lemma adjust_orders a delta d u d' : adjust_balance a delta d = Ok (u, d') ->
  tbl (V:=LimitOrder.t) d' = tbl d.
Proof. intros H. by apply (adjust_balance_frame (fun d => limit_orders d)) in H. Qed.

Lemma adjust_books a delta d u d' id : books d -> adjust_balance a delta d = Ok (u, d') ->
  books d' /\ orders d' = orders d /\ gap id d' = gap id d - counts id delta.
Proof.
  intros [Hb Ho] H. pose proof (adjust_orders _ _ _ _ _ H) as Et. split_and!.
  - split; [by eapply ids_below_adjust|]. unfold ids_below, get_opt. by rewrite Et.
  - unfold orders. by rewrite Et.
  - eapply gap_adjust; [by apply ids_below_fresh|exact H].
Qed.

Lemma books_remove d i : books d -> books (upd_tbl (fun t : table LimitOrder.t => t <| indices ::= delete i |>) d).
Proof. intros [Hb Ho]. split; [exact Hb|by apply ids_below_remove]. Qed.

Lemma cancel_order_Ok i d u d' : books d -> cancel_order i d = Ok (u, d') ->
  exists o, orders d !! i = Some o /\ books d' /\ orders d' = delete i (orders d) /\ forall id, gap id d' = gap id d.
Proof.
  intros Hb H. unfold cancel_order in H. step H as o Eo. step H as [s sa] Es. cbn [fst] in H. step H as [] Ea.
  apply remove_Ok in H as ->. rename Ea into Ha. exists o.
  pose proof (fun id => adjust_books _ _ _ _ _ id Hb Ha) as Hx. destruct (Hx 0) as (Hb1 & Eo1 & _).
  split; [done|]. split; [by apply books_remove|]. split; [by rewrite <-Eo1|]. intros id.
  rewrite (gap_remove_order _ i o) by (unfold get_opt; fold (orders x); rewrite Eo1; exact Eo).
  destruct (Hx id) as (_ & _ & ->). lia.
Qed.

Definition less (o : LimitOrder.t) (x : Z) : LimitOrder.t := o <| LimitOrder.for_sale ::= fun y => y - x |>.

(** A fill pays the seller, takes what is paid out of the order, and removes the
    order when nothing is left or nothing could be asked for the rest. *)
Lemma fill_order_Ok i pays receives d r d' : books d -> fill_order i pays receives d = Ok (r, d') ->
  exists o, orders d !! i = Some o /\ asset_id (amount_for_sale o) = asset_id pays /\ books d' /\
    (forall id, gap id d' = gap id d - counts id receives + counts id pays) /\
    (if r then orders d' = delete i (orders d)
     else orders d' = <[i := less o (amount pays)]> (orders d) /\ amount pays <> LimitOrder.for_sale o /\
       exists a, amount_to_receive (less o (amount pays)) = Ok a /\ amount a <> 0).
Proof.
  intros Hb H. unfold fill_order in H. step H as o Eo. step H as [] Ei. step H as [] En. step H as [s sa] Es.
  cbn [fst] in H. step H as [] Ha. rename x into d1. apply Z.eqb_eq in Ei.
  pose proof (fun id => adjust_books _ _ _ _ _ id Hb Ha) as Hx. destruct (Hx 0) as (Hb1 & Eo1 & _).
  assert (get_opt d1 i = Some o) as Eg by (unfold get_opt; fold (orders d1); by rewrite Eo1).
  assert (forall id, gap id d1 = gap id d - counts id receives) as Hg by (intros id; apply Hx).
  exists o. split; [done|]. split; [done|]. destruct (asset_eqb _ _) eqn:Eq.
  - step H as [] Er. apply remove_Ok in Er as ->. apply st_ret_Ok in H as [-> ->]. split; [by apply books_remove|].
    split; [|by rewrite <-Eo1]. intros id. rewrite (gap_remove_order _ i o) by done. rewrite Hg.
    unfold asset_eqb in Eq. apply andb_true_iff in Eq as [E1%Z.eqb_eq E2%Z.eqb_eq].
    unfold counts. by rewrite E1, E2.
  - step H as [] Em. apply modify_Ok in Em as (o' & w & Eo' & Hw & ->). rewrite Eg in Eo'. injection Eo' as <-.
    apply bind_Ok in Hw as (x & ->%Safe.sub_Ok & [= <-]).
    change (o <| LimitOrder.for_sale := LimitOrder.for_sale o - amount pays |>) with (less o (amount pays)) in H.
    set (o' := less o (amount pays)) in *.
    assert (orders (set_obj d1 i o') = <[i := o']> (orders d)) as Eo2 by by rewrite <-Eo1.
    assert (books (set_obj d1 i o')) as Hb2.
    { split; [apply Hb1|]. apply ids_below_set; [by eexists|apply Hb1]. }
    assert (forall id, gap id (set_obj d1 i o') = gap id d - counts id receives + counts id pays) as Hg2.
    { intros id. rewrite (gap_set_order _ _ o) by done. rewrite Hg. unfold counts. cbn [amount_for_sale amount asset_id] in *.
      change (LimitOrder.for_sale o') with (LimitOrder.for_sale o - amount pays).
      change (LimitOrder.sell_price o') with (LimitOrder.sell_price o). rewrite <-Ei.
      destruct (_ && _), (_ && _); lia. }
    step H as o2 E2. rewrite get_set_obj, decide_True in E2 by done. injection E2 as <-. step H as a Er.
    destruct (Z.eqb_spec (amount a) 0) as [E0|E0].
    + step H as [] Ec. apply st_ret_Ok in H as [-> ->].
      destruct (cancel_order_Ok _ _ _ _ Hb2 Ec) as (o3 & _ & Hb3 & E3 & Hg3). split; [done|].
      split; [intros id; by rewrite Hg3|]. rewrite E3, Eo2. apply delete_insert_eq.
    + apply st_ret_Ok in H as [-> ->]. split; [done|]. split; [done|]. split; [done|]. split; [|by exists a].
      intros Ep. unfold asset_eqb in Eq. apply andb_false_iff in Eq as [Eq|Eq]; apply Z.eqb_neq in Eq; [by apply Eq|].
      by apply Eq.
Qed.

(** ** A match *)

Definition sells (o : LimitOrder.t) : Z := asset_id (base (LimitOrder.sell_price o)).
Definition asks (o : LimitOrder.t) : Z := asset_id (quote (LimitOrder.sell_price o)).

Lemma asset_mul_id a p r : asset_mul a p = Ok r ->
  asset_id r = if asset_id a =? asset_id (base p) then asset_id (quote p) else asset_id (base p).
Proof.
  unfold asset_mul, scale. intros H. destruct (_ =? asset_id (base p)); [run_inv; done|].
  destruct (_ =? _); [run_inv; done|discriminate].
Qed.

Lemma match_amounts_ids n o p nr odr : asset_id (quote p) = sells n -> asset_id (base p) = sells o ->
  match_amounts n o p = Ok (nr, odr) -> asset_id nr = sells o /\ asset_id odr = sells n.
Proof.
  intros Eq Eb H. unfold match_amounts in H. apply bind_Ok in H as (w & Hw & H). apply bind_Ok in H as (b & _ & H).
  destruct b; apply bind_Ok in H as (x & Hx%asset_mul_id & [= <- <-]); rewrite Hx; cbn [amount_for_sale asset_id];
    fold (sells n) (sells o); (split; [|congruence] || (split; [congruence|])).
  - rewrite Eb, Eq. destruct (Z.eqb_spec (sells n) (sells o)); congruence.
  - rewrite Eb, Z.eqb_refl. congruence.
Qed.

(** The book after an order has paid. *)
Definition settle (i : Z) (o : LimitOrder.t) (paid : Z) (filled : bool) (m : gmap Z LimitOrder.t) :=
  if filled then delete i m else <[i := less o paid]> m.

(** An order that is left is smaller, and something can still be asked for it. *)
Definition still_open (o : LimitOrder.t) (paid : Z) : Prop :=
  paid <> LimitOrder.for_sale o /\ exists a, amount_to_receive (less o paid) = Ok a /\ amount a <> 0.

Lemma fill_settles i o pays receives d r d' : books d -> orders d !! i = Some o ->
  fill_order i pays receives d = Ok (r, d') ->
  asset_id pays = sells o /\ asset_id pays <> asset_id receives /\ books d' /\
  orders d' = settle i o (amount pays) r (orders d) /\ (r = false -> still_open o (amount pays)) /\
  (forall id, gap id d' = gap id d - counts id receives + counts id pays).
Proof.
  intros Hb Ho H. pose proof H as H1. unfold fill_order in H1. step H1. step H1 as [] E1. step H1 as [] E2. clear H1 E1.
  destruct (fill_order_Ok _ _ _ _ _ _ Hb H) as (o' & Eo & Ei & Hb' & Hg & Hr). rewrite Ho in Eo. injection Eo as <-.
  split; [done|]. split; [by intros En; rewrite En, Z.eqb_refl in E2|]. split; [done|].
  unfold settle, still_open. destruct r; [done|]. destruct Hr as (-> & Hr). done.
Qed.

Lemma match_orders_Ok n o p d r d' : books d -> match_orders n o p d = Ok (r, d') ->
  exists no oo nr odr fn fo, orders d !! n = Some no /\ orders d !! o = Some oo /\ n <> o /\
    asks no = sells oo /\ sells no = asks oo /\ sells no <> sells oo /\
    match_amounts no oo p = Ok (nr, odr) /\
    (amount odr = LimitOrder.for_sale no \/ amount nr = LimitOrder.for_sale oo) /\
    (fn = false -> still_open no (amount odr)) /\ (fo = false -> still_open oo (amount nr)) /\
    r = Z.lor (Z.b2z fn) (Z.shiftl (Z.b2z fo) 1) /\ (fn = true \/ fo = true) /\
    orders d' = settle o oo (amount nr) fo (settle n no (amount odr) fn (orders d)) /\
    books d' /\ forall id, gap id d' = gap id d.
Proof.
  assert (forall b (d : database) u d', cassert b d = Ok (u, d') -> b = true /\ d' = d) as Hc.
  { unfold cassert. intros [] d0 [] d1 H; [apply st_ret_Ok in H as [_ ->]; done|discriminate]. }
  intros Hb H. unfold match_orders in H. step H as no En. step H as oo Eo.
  step H as [] E1. apply Hc in E1 as [E1%Z.eqb_eq ->]. step H as [] E2. apply Hc in E2 as [E2%Z.eqb_eq ->].
  step H as [] E3. apply Hc in E3 as [_ ->]. step H as [] E4. apply Hc in E4 as [E4%Z.eqb_eq ->].
  step H as [] E5. apply Hc in E5 as [E5%Z.eqb_eq ->]. step H as [nr odr] Em.
  destruct (match_amounts_ids _ _ _ _ _ E4 E5 Em) as [In Io].
  step H as [] E6. apply Hc in E6 as [E6 ->]. step H as fn Fn. step H as fo Fo. step H as [] E7. apply Hc in E7 as [E7 ->].
  apply st_ret_Ok in H as [-> ->].
  destruct (fill_settles _ _ _ _ _ _ _ Hb En Fn) as (P1 & P2 & P3 & P4 & P5 & P6).
  assert (n <> o) as Hno. { intros ->. apply P2. rewrite In, Io. congruence. }
  assert (orders x !! o = Some oo) as Eo'.
  { rewrite P4. unfold settle. destruct fn; [by rewrite lookup_delete_ne|by rewrite lookup_insert_ne]. }
  destruct (fill_settles _ _ _ _ _ _ _ P3 Eo' Fo) as (Q1 & Q2 & Q3 & Q4 & Q5 & Q6).
  exists no, oo, nr, odr, fn, fo. do 3 (split; [done|]). do 2 (split; [done|]). split; [congruence|]. split; [done|].
  split. { unfold asset_eqb in E6. cbn in E6. lia. }
  do 2 (split; [done|]). split; [done|]. split; [destruct fn, fo; auto|]. split; [by rewrite Q4, P4|]. split; [done|].
  intros id. rewrite Q6, P6. unfold counts. rewrite In, Io. destruct (_ && _), (_ && _); lia.
Qed.

(** ** Conservation *)

(** Nothing is created or destroyed on the way from [d] to [d']. *)
Definition conserved (d d' : database) : Prop := books d -> books d' /\ forall id, gap id d' = gap id d.

Lemma conserved_refl d : conserved d d.
Proof. done. Qed.
Lemma conserved_trans d1 d2 d3 : conserved d1 d2 -> conserved d2 d3 -> conserved d1 d3.
Proof. intros H1 H2 [Hb E1]%H1. destruct (H2 Hb) as [Hb' E2]. split; [done|]. intros id. by rewrite E2. Qed.

Lemma match_loop_conserved n l d u d' : match_loop n l d = Ok (u, d') -> conserved d d'.
Proof.
  revert d. induction l as [|o l IH]; intros d H; [apply st_ret_Ok in H as [_ ->]; apply conserved_refl|].
  cbn [match_loop] in H. step H as oo Eo. step H as r Er.
  eapply conserved_trans; [|destruct (Z.testbit r 0); [apply st_ret_Ok in H as [_ ->]; apply conserved_refl|by eapply IH]].
  intros Hb. by destruct (match_orders_Ok _ _ _ _ _ _ Hb Er) as (? & ? & ? & ? & ? & ? & _ & _ & _ & _ & _ & _ & _ & _ & _ & _ & _ & _ & _ & ? & ?).
Qed.

Lemma apply_order_conserved n d r d' : apply_order n d = Ok (r, d') -> conserved d d'.
Proof.
  intros H. unfold apply_order in H. step H. step H. step H. step H as [] El. step H. apply st_ret_Ok in H as [_ ->].
  by eapply match_loop_conserved.
Qed.

Lemma cancel_conserved i d u d' : cancel_order i d = Ok (u, d') -> conserved d d'.
Proof. intros H Hb. by destruct (cancel_order_Ok _ _ _ _ Hb H) as (? & _ & ? & _ & ?). Qed.

Lemma clear_loop_conserved n now d u d' : clear_orders_loop n now d = Ok (u, d') -> conserved d d'.
Proof.
  revert d. induction n as [|n IH]; intros d H; cbn [clear_orders_loop] in H; step H;
    (destruct (in_order by_expiration d) as [|itr l]; [apply st_ret_Ok in H as [_ ->]; apply conserved_refl|]);
    (destruct (_ <? now); [|apply st_ret_Ok in H as [_ ->]; apply conserved_refl]); [discriminate|].
  step H as [] Ec. eapply conserved_trans; [by eapply cancel_conserved|by eapply IH].
Qed.

(** The part of [sell] after the asset to sell has been taken from the owner. *)
Lemma sell_conserved owner orderid a rate fok exp d u d' :
  (forall p, rate = Ok p -> asset_id (base p) = asset_id a) ->
  sell owner orderid a rate fok exp d = Ok (u, d') -> conserved d d'.
Proof.
  intros Hr H Hb. unfold sell in H. step H. step H as [] E1. step H as [w wa] Ew. cbn [fst] in H. step H as b Eb.
  apply get_balance_state in Eb as ->. step H as [] E2. step H as n En. apply AssetLemmas.asset_neg_Ok in En as ->.
  step H as [] Ea. pose proof (fun id => adjust_books _ _ _ _ _ id Hb Ea) as Hx. destruct (Hx 0) as (Hb1 & _ & _).
  step H. step H as p Ep. step H as i Ei. apply create_Ok in Ei as (_ & _ & ->). step H as f Ef.
  set (v := LimitOrder.Make _ _ _ _ _ p) in *.
  assert (d' = x0) as ->. { destruct fok; [apply assert_st_Ok in H as [_ ->]|apply st_ret_Ok in H as [_ ->]]; done. }
  apply apply_order_conserved in Ef. destruct Ef as [Hb' Hg].
  { split; [apply Hb1|]. apply ids_below_create, Hb1. }
  split; [done|]. intros id. rewrite Hg, gap_create_order by by apply ids_below_fresh, Hb1.
  destruct (Hx id) as (_ & _ & ->). unfold counts. cbn [amount_for_sale asset_id amount LimitOrder.sell_price LimitOrder.for_sale v].
  rewrite (Hr p Ep). destruct (_ && _); lia.
Qed.

Lemma make_price_base a b p : make_price a b = Ok p -> p = Price a b.
Proof. unfold make_price. intros H. run_inv. done. Qed.

(** ** Conversion *)

Lemma adjust_mbd_symbol a delta d u d' : adjust_balance a delta d = Ok (u, d') ->
  asset_id (Dgpo.current_mbd_supply (dgpo d')) = asset_id (Dgpo.current_mbd_supply (dgpo d)).
Proof.
  intros H. unfold adjust_balance in H. destruct (_ =? BTCM_SYMBOL); [by state_inv|]. destruct (_ =? XUSD_SYMBOL).
  - unfold adjust_mbd in H. step H. step H as acnt Eg. step H as [acnt' paid] Ea. step H as [] Ep. rename x into d1.
    assert (asset_id (Dgpo.current_mbd_supply (dgpo d1)) = asset_id (Dgpo.current_mbd_supply (dgpo d))) as <-.
    { destruct paid; [|by apply st_ret_Ok in Ep as [_ ->]]. apply modify_dgpo_Ok in Ep as (q & Hq & ->).
      unfold pay_interest in Hq. run_inv. by asset_inv. }
    by state_inv.
  - unfold adjust_user_asset, find_balance in H. destruct (_ =? 0); [by apply st_ret_Ok in H as [_ ->]|]. step H.
    destruct (lookup_where _ d) as [[i b]|]; [|by state_inv].
    step H as [] E. assert (x = d) as -> by (destruct (amount delta <? 0); by state_inv). by state_inv.
Qed.

Lemma convert_conserved o d u d' : asset_id (cv_amount o) = BTCM_SYMBOL ->
  asset_id (Dgpo.current_mbd_supply (dgpo d)) = XUSD_SYMBOL ->
  convert_apply o d = Ok (u, d') -> conserved d d'.
Proof.
  intros Hs Hm H Hb. unfold convert_apply in H. step H as [w wa] Ew. cbn [fst] in H. step H as b Eb.
  apply get_balance_state in Eb as ->. step H as [] E1. step H as n En. apply AssetLemmas.asset_neg_Ok in En as ->.
  step H as [] Ea. pose proof (fun id => adjust_books _ _ _ _ _ id Hb Ea) as Hx. destruct (Hx 0) as (Hb1 & _ & _).
  step H as d1 Ed. step H as [] E2. step H as iss Ei. step H as [] Ec.
  pose proof (fun id => adjust_books _ _ _ _ _ id Hb1 Ec) as Hy. destruct (Hy 0) as (Hb2 & _ & _).
  apply modify_dgpo_Ok in H as (q & Hq & ->). split; [apply Hb2|]. intros id.
  rewrite gap_set_dgpo. destruct (Hy id) as (_ & _ & ->). destruct (Hx id) as (_ & _ & ->).
  pose proof (adjust_mbd_symbol _ _ _ _ _ Ea) as M1. pose proof (adjust_mbd_symbol _ _ _ _ _ Ec) as M2.
  unfold convert_supplies in Hq. run_inv. asset_inv. unfold counts. cbn [amount asset_id]. rewrite Hs.
  assert (asset_id iss = XUSD_SYMBOL) as -> by congruence.
  clear. destruct (Z.eqb_spec id BTCM_SYMBOL) as [->|]; [cbn; lia|].
  destruct (Z.eqb_spec id XUSD_SYMBOL) as [->|]; [cbn; lia|]. by destruct (id =? VESTS_SYMBOL); cbn; lia.
Qed.

(** ** Orders that ask for something *)

(** What an order gets at its own price. *)
Definition asking (o : LimitOrder.t) : Z :=
  LimitOrder.for_sale o * amount (quote (LimitOrder.sell_price o)) / amount (base (LimitOrder.sell_price o)).
Definition order_ok (o : LimitOrder.t) : Prop :=
  AssetFacts.price_ok (LimitOrder.sell_price o) /\
  0 < LimitOrder.for_sale o <= BTCM_MAX_SHARE_SUPPLY /\ 0 < asking o <= int64_max.

Lemma max_supply_fits : BTCM_MAX_SHARE_SUPPLY <= int64_max.
Proof. done. Qed.

(** Two orders that could trade: what one gives per unit is no more than what the
    other asks. *)
Definition crosses (a b : LimitOrder.t) : Prop :=
  asks a = sells b /\ sells a = asks b /\
  amount (quote (LimitOrder.sell_price a)) * amount (quote (LimitOrder.sell_price b))
    <= amount (base (LimitOrder.sell_price a)) * amount (base (LimitOrder.sell_price b)).

Lemma crosses_sym a b : crosses a b -> crosses b a.
Proof. unfold crosses. intros (-> & -> & ?). split_and!; [done|done|lia]. Qed.

Lemma div_mono x q b q' b' : 0 <= x -> 0 < b -> 0 < b' -> q * b' <= q' * b -> x * q / b <= x * q' / b'.
Proof.
  intros. apply Z.div_le_lower_bound; [lia|]. pose proof (Z.mul_div_le (x * q) b).
  assert (b' * (x * q / b) * b <= x * q' * b); [|nia]. nia.
Qed.

Context {BOk : BoostMPOk}.

(** A conversion within the bounds. *)
Lemma scale_div x num den id : 0 <= x <= int64_max -> 0 < num <= int64_max -> 0 < den <= int64_max ->
  x * num / den <= int64_max -> scale x num den id = Ok (Asset (x * num / den) id).
Proof. intros. apply AssetFacts.scale_small; unfold AssetFacts.amount_ok; lia. Qed.

Lemma order_receives o : order_ok o -> amount_to_receive o = Ok (Asset (asking o) (asks o)).
Proof.
  intros ((Hb & Hq & Hn) & Hf & Ha). pose proof max_supply_fits. unfold amount_to_receive, asset_mul. cbn [amount_for_sale amount asset_id].
  rewrite Z.eqb_refl. apply scale_div; unfold asking in *; lia.
Qed.

(** What is left of an order that has traded is such an order. *)
Lemma less_ok o x : order_ok o -> 0 <= x < LimitOrder.for_sale o -> still_open o x -> order_ok (less o x).
Proof.
  intros ((Hb & Hq & Hn) & Hf & Ha) Hx (_ & a & Hr & Hne). pose proof max_supply_fits. split; [done|].
  change (LimitOrder.for_sale (less o x)) with (LimitOrder.for_sale o - x). split; [lia|].
  unfold amount_to_receive, asset_mul in Hr. cbn [amount_for_sale amount asset_id] in Hr. rewrite Z.eqb_refl in Hr.
  change (LimitOrder.for_sale (less o x)) with (LimitOrder.for_sale o - x) in Hr. unfold asking in *.
  change (LimitOrder.for_sale (less o x)) with (LimitOrder.for_sale o - x).
  change (LimitOrder.sell_price (less o x)) with (LimitOrder.sell_price o) in *.
  set (q := amount (quote _)) in *. set (b := amount (base _)) in *.
  assert ((LimitOrder.for_sale o - x) * q / b <= LimitOrder.for_sale o * q / b) as Hle by (apply Z.div_le_mono; nia).
  rewrite scale_div in Hr by (try lia). injection Hr as <-. cbn in Hne.
  assert (0 <= (LimitOrder.for_sale o - x) * q / b) by (apply Z.div_pos; nia). lia.
Qed.

(** C29 The trade of two crossing orders, at the price of the one that was there
    first, is computed without overflow; each gives something and no more than it
    has, one of them gives all it has, and each receives at least what its own
    price asks for what it gives. *)
Theorem match_within_limits n o : order_ok n -> order_ok o -> crosses n o ->
  exists nr odr, match_amounts n o (LimitOrder.sell_price o) = Ok (Asset nr (sells o), Asset odr (sells n)) /\
    0 < odr <= LimitOrder.for_sale n /\ 0 < nr <= LimitOrder.for_sale o /\
    (odr = LimitOrder.for_sale n \/ nr = LimitOrder.for_sale o) /\
    odr * amount (quote (LimitOrder.sell_price n)) / amount (base (LimitOrder.sell_price n)) <= nr /\
    nr * amount (quote (LimitOrder.sell_price o)) / amount (base (LimitOrder.sell_price o)) <= odr.
Proof.
  intros ((Hb' & Hq' & Hn') & Hf' & Ha') Ho (Ea & Es & Hx). pose proof max_supply_fits. pose proof (order_receives o Ho) as Hr.
  destruct Ho as ((Hb & Hq & Hn) & Hf & Ha). unfold amount_to_receive in Hr. unfold match_amounts. rewrite Hr.
  cbn [mbind result_bind]. unfold asking in *. fold (asks o) (sells o) in Hn.
  set (q := amount (quote (LimitOrder.sell_price o))) in *. set (b := amount (base (LimitOrder.sell_price o))) in *.
  set (q' := amount (quote (LimitOrder.sell_price n))) in *. set (b' := amount (base (LimitOrder.sell_price n))) in *.
  set (N := LimitOrder.for_sale n) in *. set (O := LimitOrder.for_sale o) in *. set (W := O * q / b) in *.
  assert (asset_leb (amount_for_sale n) (Asset W (asks o)) = Ok (N <=? W)) as ->.
  { unfold asset_leb, asset_eqb, asset_ltb, amount_for_sale. cbn [amount asset_id]. fold (sells n) N. rewrite Es, Z.eqb_refl. cbn.
    destruct (Z.eqb_spec N W), (Z.ltb_spec N W), (Z.leb_spec N W); done || lia. }
  cbn [mbind result_bind]. pose proof (Z.mul_div_le (O * q) b) as HW. destruct (Z.leb_spec N W).
  - assert (N * b / q <= O) as HO. { apply Z.div_le_upper_bound; [lia|]. fold W in HW. nia. }
    assert (N * q' / b' <= N * b / q) as Hlim by (apply div_mono; lia).
    assert (asset_mul (amount_for_sale n) (LimitOrder.sell_price o) = Ok (Asset (N * b / q) (sells o))) as ->.
    { unfold asset_mul. cbn [amount_for_sale amount asset_id]. fold (sells n) (sells o) (asks o) N q b. rewrite Es.
      destruct (Z.eqb_spec (asks o) (sells o)); [congruence|]. rewrite Z.eqb_refl. apply scale_div; lia. }
    exists (N * b / q), N. cbn. unfold amount_for_sale. fold (sells n) N. split_and!; try lia; [done|].
    apply AssetFacts.floor_chain; lia.
  - exists O, W. cbn. unfold amount_for_sale. fold (sells o) O. rewrite Es. split_and!; try lia; [done|].
    transitivity (W * b / q); [apply div_mono; lia|apply AssetFacts.floor_chain; lia].
Qed.

(** ** The range of an order *)

Lemma price_gtb_spec p r : AssetFacts.price_ok p -> AssetFacts.price_ok r -> price_gtb p r = price_ltb r p.
Proof.
  intros Hp Hr. unfold price_gtb, price_leb.
  destruct (AssetFacts.price_trichotomy p r Hp Hr) as [(-> & -> & ->)|[(-> & -> & ->)|(-> & -> & ->)]]; done.
Qed.

(** An order that asks for something asks for no less than a unit for all there is. *)
Lemma order_bounded o : order_ok o ->
  amount (base (LimitOrder.sell_price o)) <= BTCM_MAX_SHARE_SUPPLY * amount (quote (LimitOrder.sell_price o)).
Proof.
  intros ((Hb & Hq & _) & Hf & Ha). unfold asking in Ha.
  pose proof (Z.mul_div_le (LimitOrder.for_sale o * amount (quote (LimitOrder.sell_price o))) (amount (base (LimitOrder.sell_price o)))). nia.
Qed.

(** The orders [apply_order] goes through are the ones that cross the new one. *)
Lemma in_range_crosses n o hi : order_ok n -> order_ok o ->
  price_max (asks n) (sells n) = Ok hi ->
  in_range hi (invert (LimitOrder.sell_price n)) (LimitOrder.sell_price o) = true <-> crosses n o.
Proof.
  intros Hon Hoo ->%make_price_base. pose proof (order_bounded n Hon) as Hbn. pose proof (order_bounded o Hoo) as Hbo.
  destruct Hon as (Hn & _), Hoo as (Ho & _). unfold in_range.
  set (hi := Price _ _). set (lo := invert _). destruct Hn as (Hn1 & Hn2 & Hn3), Ho as (Ho1 & Ho2 & Ho3).
  assert (AssetFacts.price_ok hi) as Hh.
  { unfold AssetFacts.price_ok, hi, BTCM_MAX_SHARE_SUPPLY, int64_max. cbn. split_and!; try lia. by apply not_eq_sym. }
  assert (AssetFacts.price_ok lo) as Hl by (unfold AssetFacts.price_ok, lo; cbn; split_and!; lia).
  rewrite !price_gtb_spec by done. rewrite andb_true_iff, !negb_true_iff, <-!not_true_iff_false.
  rewrite !AssetFacts.price_ltb_spec by done. unfold AssetFacts.same_market, hi, lo, crosses. cbn [base quote amount asset_id invert].
  fold (sells n) (sells o) (asks n) (asks o). unfold BTCM_MAX_SHARE_SUPPLY in *.
  set (bn := amount (base (LimitOrder.sell_price n))) in *. set (qn := amount (quote (LimitOrder.sell_price n))) in *.
  set (bo := amount (base (LimitOrder.sell_price o))) in *. set (qo := amount (quote (LimitOrder.sell_price o))) in *.
  split.
  - intros [H1 H2]. assert (asks n = sells o) by lia. assert (sells n = asks o) by lia.
    split_and!; [done|done|]. apply Z.nlt_ge. intros Hlt. apply H2. right; right. split; [lia|]. lia.
  - intros (E1 & E2 & Hx). split; intros [?|[?|[_ ?]]]; lia.
Qed.

Lemma orders_between_spec hi lo d :
  NoDup (orders_between hi lo d) /\
  forall i, i ∈ orders_between hi lo d <-> exists o, orders d !! i = Some o /\ in_range hi lo (LimitOrder.sell_price o) = true.
Proof.
  unfold orders_between, in_order.
  pose proof (merge_sort_Permutation by_price (map_to_list (indices (tbl (V:=LimitOrder.t) d)))) as Hp.
  set (l := merge_sort _ _) in *. split.
  - assert (NoDup l.*1) as Hl by (rewrite Hp; apply NoDup_fst_map_to_list). clear Hp.
    induction l as [|kv l IH]; [constructor|]. cbn in *. apply NoDup_cons in Hl as [Hni Hl].
    destruct (in_range _ _ _); cbn; [|auto]. apply NoDup_cons. split; [|auto].
    intros ([k v] & E & Hin%list_elem_of_In%filter_In)%list_elem_of_fmap. apply Hni. rewrite E. apply list_elem_of_fmap.
    exists (k, v). split; [done|]. by apply list_elem_of_In, Hin.
  - intros i. rewrite list_elem_of_fmap. split.
    + intros ([k o] & -> & Hin%list_elem_of_In%filter_In). destruct Hin as [Hin Hr]. exists o. split; [|done].
      apply elem_of_map_to_list. rewrite <-Hp. by apply list_elem_of_In.
    + intros (o & Ho & Hr). exists (i, o). split; [done|]. apply list_elem_of_In, filter_In. split; [|done].
      apply list_elem_of_In. rewrite Hp. by apply elem_of_map_to_list.
Qed.

(** ** The book *)

(** Every order asks for something, and no two of them cross. *)
Definition open_orders (m : gmap Z LimitOrder.t) : Prop :=
  forall i o, m !! i = Some o -> order_ok o.
Definition uncrossed_but (P : Z -> Prop) (m : gmap Z LimitOrder.t) : Prop :=
  forall i j a b, i <> j -> P i -> P j -> m !! i = Some a -> m !! j = Some b -> ~ crosses a b.
Definition book (d : database) : Prop :=
  books d /\ open_orders (orders d) /\ uncrossed_but (fun _ => True) (orders d).

(** While the new order [n] is matched, the ones that cross it are still to come. *)
Record matching (n : Z) (l : list Z) (d : database) : Prop := {
  matching_books : books d;
  matching_open : open_orders (orders d);
  matching_rest : uncrossed_but (fun i => i <> n) (orders d);
  matching_dup : NoDup l;
  matching_new : exists no, orders d !! n = Some no /\
    forall i o, i <> n -> orders d !! i = Some o -> crosses no o <-> i ∈ l
}.

(** An entry of the book after a trade: an old one, smaller or as it was. *)
Lemma settle_lookup i o x f m j a : m !! i = Some o -> settle i o x f m !! j = Some a ->
  exists a0, m !! j = Some a0 /\ LimitOrder.sell_price a = LimitOrder.sell_price a0 /\
    (j <> i -> a = a0) /\ (j = i -> f = false /\ a = less o x).
Proof.
  intros Ho. unfold settle. destruct f.
  - intros [Hn Hj]%lookup_delete_Some. exists a. done.
  - intros [[<- <-]|[Hn Hj]]%lookup_insert_Some; [exists o; done|exists a; split_and!; done || by intros ->].
Qed.

Lemma settle_open i o x f m : open_orders m -> m !! i = Some o -> 0 <= x <= LimitOrder.for_sale o ->
  (f = false -> still_open o x) -> open_orders (settle i o x f m).
Proof.
  intros Hm Ho Hx Hs j a (a0 & Ha0 & _ & Hne & Heq)%(settle_lookup _ _ _ _ _ _ _ Ho).
  destruct (decide (j = i)) as [->|Hn]; [|rewrite (Hne Hn); by eapply Hm].
  destruct (Heq eq_refl) as [-> ->]. pose proof (Hs eq_refl) as Hso. apply less_ok; [by eapply Hm| |done].
  destruct Hso as [Hd _]. lia.
Qed.

Lemma crosses_price a b a' b' : LimitOrder.sell_price a = LimitOrder.sell_price a' ->
  LimitOrder.sell_price b = LimitOrder.sell_price b' -> crosses a b -> crosses a' b'.
Proof. unfold crosses, asks, sells. by intros -> ->. Qed.

Lemma crosses_price_iff a b a' b' : LimitOrder.sell_price a = LimitOrder.sell_price a' ->
  LimitOrder.sell_price b = LimitOrder.sell_price b' -> crosses a b <-> crosses a' b'.
Proof. intros Ea Eb. split; by apply crosses_price. Qed.

Lemma settle_uncrossed P i o x f m : m !! i = Some o -> uncrossed_but P m -> uncrossed_but P (settle i o x f m).
Proof.
  intros Ho Hu j k a b Hjk Hj Hk (a0 & Ha & Pa & _)%(settle_lookup _ _ _ _ _ _ _ Ho) (b0 & Hb & Pb & _)%(settle_lookup _ _ _ _ _ _ _ Ho) Hx.
  apply (Hu j k a0 b0 Hjk Hj Hk Ha Hb). by apply (crosses_price a b).
Qed.

Lemma uncrossed_without n m : uncrossed_but (fun i => i <> n) m -> m !! n = None -> uncrossed_but (fun _ => True) m.
Proof.
  intros Hu Hn i j a b Hij _ _ Ha Hb. apply (Hu i j a b Hij); [..|done|done]; congruence.
Qed.

Lemma match_loop_book n l d u d' : matching n l d -> match_loop n l d = Ok (u, d') -> book d'.
Proof.
  revert d. induction l as [|o l IH]; intros d Hm H.
  { apply st_ret_Ok in H as [_ ->]. destruct Hm as [Hb Ho Hr _ (no & Hn & Hc)]. split_and!; [done..|].
    assert (forall i o, i <> n -> orders d !! i = Some o -> ~ crosses no o) as Hc'.
    { intros i o Hi Hio Hx. apply (Hc i o Hi Hio) in Hx. by apply elem_of_nil in Hx. }
    intros i j a b Hij _ _ Ha Hbj Hx. destruct (decide (i = n)) as [->|Hi].
    - rewrite Hn in Ha. injection Ha as <-. by apply (Hc' j b).
    - destruct (decide (j = n)) as [->|Hj]; [|by apply (Hr i j a b)].
      rewrite Hn in Hbj. injection Hbj as <-. apply crosses_sym in Hx. by apply (Hc' i a). }
  cbn [match_loop] in H. step H as oo Eo. step H as r Er. destruct Hm as [Hb Ho Hr Hd (no & Hn & Hc)].
  destruct (match_orders_Ok _ _ _ _ _ _ Hb Er) as (no' & oo' & nr & odr & fn & fo & En' & Eo' & Hne & _ & _ & _ & Em & _ & Hsn & Hso & -> & Hf & Eb & Hb' & _).
  rewrite Hn in En'. injection En' as <-. change (orders d !! o = Some oo) in Eo. rewrite Eo in Eo'. injection Eo' as <-.
  apply not_eq_sym in Hne as Hne'. pose proof (proj2 (Hc o oo Hne' Eo) (list_elem_of_here _ _)) as Hx.
  destruct (match_within_limits no oo (Ho _ _ Hn) (Ho _ _ Eo) Hx) as (nr0 & odr0 & Em' & Hodr & Hnr & _).
  rewrite Em in Em'. injection Em' as -> ->. cbn [amount] in *.
  set (m1 := settle n no odr0 fn (orders d)) in *.
  assert (m1 !! o = Some oo) as Eo1.
  { unfold m1, settle. destruct fn; [by rewrite lookup_delete_ne|by rewrite lookup_insert_ne]. }
  assert (open_orders (orders x)) as Ho'.
  { rewrite Eb. apply settle_open; [|done|lia|done]. apply settle_open; [done|done|lia|done]. }
  assert (uncrossed_but (fun i => i <> n) (orders x)) as Hr'.
  { rewrite Eb. apply settle_uncrossed; [done|]. by apply settle_uncrossed. }
  assert (orders x !! n = m1 !! n) as En1.
  { rewrite Eb. unfold settle. destruct fo; [by rewrite lookup_delete_ne|by rewrite lookup_insert_ne]. }
  apply NoDup_cons in Hd as [Hol Hd].
  destruct fn.
  - assert (Z.testbit (Z.lor (Z.b2z true) (Z.shiftl (Z.b2z fo) 1)) 0 = true) as Et by by destruct fo.
    rewrite Et in H. apply st_ret_Ok in H as [_ ->]. split_and!; [done..|]. apply (uncrossed_without n); [done|].
    rewrite En1. apply lookup_delete_eq.
  - destruct fo; [|by destruct Hf]. cbn in H. eapply IH, H. constructor; try done.
    exists (less no odr0). split; [rewrite En1; apply lookup_insert_eq|]. intros i a Hi Ha. rewrite Eb in Ha.
    change (delete o m1 !! i = Some a) in Ha. apply lookup_delete_Some in Ha as [Hio Ha]. unfold m1, settle in Ha. rewrite lookup_insert_ne in Ha by done.
    specialize (Hc i a Hi Ha). rewrite elem_of_cons in Hc. rewrite (crosses_price_iff no a (less no odr0) a) in Hc by done.
    rewrite Hc. split; [intros [->|]; done|by right].
Qed.

(** A new order in a book: matching ends in a book again, and the order counts as
    filled when it is gone. *)
Lemma apply_order_book n no d r d' : book d -> get_opt (V:=LimitOrder.t) d n = None -> order_ok no ->
  forall d1, d1 = upd_tbl (fun t : table LimitOrder.t => t <| indices ::= <[n := no]> |>) d -> books d1 ->
  apply_order n d1 = Ok (r, d') -> book d' /\ (r = true <-> orders d' !! n = None).
Proof.
  intros (Hb & Ho & Hu) Hn Hok d1 E1 Hb1 H. unfold apply_order in H. step H as no' En. step H as hi Eh. step H.
  step H as [] El. step H. apply st_ret_Ok in H as [-> ->]. split; [|by rewrite bool_decide_eq_true].
  assert (orders d1 = <[n := no]> (orders d)) as Eo by by rewrite E1.
  assert (no' = no) as ->.
  { change (orders d1 !! n = Some no') in En. rewrite Eo, lookup_insert_eq in En. by injection En. }
  destruct (orders_between_spec hi (invert (LimitOrder.sell_price no)) d1) as [Hnd Hin].
  eapply match_loop_book, El. constructor; [done|..|done|].
  - intros i o. rewrite Eo. intros [[<- <-]|[_ Hi]]%lookup_insert_Some; [done|by eapply Ho].
  - intros i j a b Hij Hi Hj. rewrite Eo, !lookup_insert_ne by done. by apply Hu.
  - exists no. split; [rewrite Eo; apply lookup_insert_eq|]. intros i o Hi Hio. rewrite Hin.
    assert (order_ok o) as Hoo. { rewrite Eo, lookup_insert_ne in Hio by done. by eapply Ho. }
    rewrite <-(in_range_crosses no o hi Hok Hoo Eh). split; [eauto|]. intros (o' & Eo' & Hr).
    rewrite Hio in Eo'. by injection Eo' as <-.
Qed.

Lemma sell_book owner orderid a rate fok exp d u d' p : rate = Ok p -> book d ->
  (forall created, order_ok (LimitOrder.Make created exp owner orderid (amount a) p)) ->
  sell owner orderid a rate fok exp d = Ok (u, d') -> book d'.
Proof.
  intros -> (Hb & Ho & Hu) Hok H. unfold sell in H. step H. step H as [] E1. step H as [w wa] Ew. cbn [fst] in H. step H as b Eb.
  apply get_balance_state in Eb as ->. step H as [] E2. step H as n En. step H as [] Ea.
  destruct (adjust_books _ _ _ _ _ 0 Hb Ea) as (Hb1 & Eo1 & _). step H. step H as p' Ep. injection Ep as <-.
  step H as i Ei. apply create_Ok in Ei as (_ & -> & ->). step H as f Ef.
  set (v := LimitOrder.Make _ _ _ _ _ p) in *. set (j := next_id _) in *.
  assert (d' = x0) as ->. { destruct fok; [apply assert_st_Ok in H as [_ ->]|apply st_ret_Ok in H as [_ ->]]; done. }
  set (d1 := upd_tbl (fun t => next_object t v) x) in *.
  assert (books d1) as Hb2 by (split; [apply Hb1|apply ids_below_create, Hb1]).
  set (y := x <| limit_orders := Table (next_id (limit_orders x) + 1) (orders x) |>).
  assert (book y) as Hby.
  { split; [|change (orders y) with (orders x); by rewrite Eo1]. split; [apply Hb1|].
    intros k Hk. destruct Hb1 as [_ Hb1]. specialize (Hb1 k Hk). unfold y. cbn. unfold tbl in Hb1. cbn in Hb1. lia. }
  eapply (apply_order_book j v y); [exact Hby| |apply Hok|reflexivity|exact Hb2|exact Ef].
  apply (ids_below_fresh x), Hb1.
Qed.

Lemma cancel_book i d u d' : book d -> cancel_order i d = Ok (u, d') -> book d' /\ orders d' = delete i (orders d).
Proof.
  intros (Hb & Ho & Hu) H. destruct (cancel_order_Ok _ _ _ _ Hb H) as (o & Hi & Hb' & E & _). split; [|done].
  split; [done|]. rewrite E. split.
  - intros j a [_ Ha]%lookup_delete_Some. by eapply Ho.
  - intros j k a b Hjk _ _ [_ Ha]%lookup_delete_Some [_ Hbk]%lookup_delete_Some. by apply (Hu j k).
Qed.

(** ** Expired orders *)

Definition live (now : Z) (kv : Z * LimitOrder.t) : Prop := now <= LimitOrder.expiration kv.2.
#[local] Instance live_dec now kv : Decision (live now kv).
Proof. unfold live. solve_decision. Defined.

Lemma expiration_order d : StronglySorted by_expiration (in_order by_expiration d).
Proof.
  apply StronglySorted_merge_sort; [intros x y z|intros x y]; unfold by_expiration; lia.
Qed.

Lemma in_expiry_order d i o : (i, o) ∈ in_order by_expiration d <-> orders d !! i = Some o.
Proof. unfold in_order. rewrite merge_sort_Permutation. apply elem_of_map_to_list. Qed.

(** The loop that removes the first order while it has expired leaves the orders
    that have not, whatever fuel it has beyond the number of orders. *)
Lemma clear_loop_orders n now d u d' : books d -> clear_orders_loop n now d = Ok (u, d') ->
  orders d' = filter (live now) (orders d).
Proof.
  revert d. induction n as [|n IH]; intros d Hb H; cbn [clear_orders_loop] in H; step H;
    pose proof (expiration_order d) as Hs; pose proof (in_expiry_order d) as Hin;
    (destruct (in_order by_expiration d) as [|[i o] l] eqn:El;
      [apply st_ret_Ok in H as [_ ->]; symmetry; apply map_filter_id; intros k v Hk; apply Hin in Hk; by apply elem_of_nil in Hk|]);
    cbn [snd fst] in H; (destruct (Z.ltb_spec (LimitOrder.expiration o) now) as [Hlt|Hge];
      [|apply st_ret_Ok in H as [_ ->]; symmetry; apply map_filter_id; intros k v Hk; unfold live; cbn [snd];
        apply Hin, elem_of_cons in Hk as [[= -> ->]|Hk]; [done|]; apply StronglySorted_cons in Hs as [Hs _];
        rewrite Forall_forall in Hs; specialize (Hs _ Hk); unfold by_expiration in Hs; cbn in Hs; lia]); [discriminate|].
  step H as [] Ec. destruct (cancel_order_Ok _ _ _ _ Hb Ec) as (o' & Ho & Hb' & E & _).
  rewrite (IH x Hb' H), E, map_filter_delete. apply delete_id, map_lookup_filter_None.
  right. intros v Hv Hl. assert (orders d !! i = Some o) as Hi by (apply Hin, list_elem_of_here).
  rewrite Hi in Hv. injection Hv as <-. unfold live in Hl. cbn in Hl. lia.
Qed.

(** The fuel of [clear_expired_orders] is enough: more of it changes nothing. *)
Lemma clear_loop_fuel n now d : books d -> (length (in_order by_expiration d) <= n)%nat ->
  clear_orders_loop n now d = clear_orders_loop (S n) now d.
Proof.
  revert d. induction n as [|n IH]; intros d Hb Hl; cbn [clear_orders_loop]; unfold mbind, st_bind, get_st;
    destruct (in_order by_expiration d) as [|[i o] l] eqn:El; [done|cbn in Hl; lia|done|].
  cbn [fst snd]. destruct (_ <? now); [|done]. destruct (cancel_order i d) as [[u d']|] eqn:Ec; [|done].
  destruct (cancel_order_Ok _ _ _ _ Hb Ec) as (o' & Ho & Hb' & E & _). apply IH; [done|].
  assert (forall d, length (in_order by_expiration d) = size (orders d)) as Hsize.
  { intros d0. unfold in_order. rewrite merge_sort_Permutation. apply length_map_to_list. }
  rewrite Hsize, E, map_size_delete_Some by by eexists. rewrite <-Hsize, El. cbn in *. lia.
Qed.

(** ** The operations of the market *)

Inductive market_op :=
  | Create (o : limit_order_create_operation)
  | Create2 (o : limit_order_create2_operation)
  | Cancel (o : limit_order_cancel_operation)
  | Convert (o : convert_operation)
  | Feed (o : feed_publish_operation)
  | Expire.

Definition validate_op (op : market_op) : result unit :=
  match op with
  | Create o => limit_order_create_validate o
  | Create2 o => limit_order_create2_validate o
  | Cancel o => limit_order_cancel_validate o
  | Convert o => convert_validate o
  | Feed o => feed_publish_validate o
  | Expire => Ok tt
  end.
Definition apply_op (op : market_op) : st database unit :=
  match op with
  | Create o => limit_order_create_apply o
  | Create2 o => limit_order_create2_apply o
  | Cancel o => limit_order_cancel_apply o
  | Convert o => convert_apply o
  | Feed o => feed_publish_apply o
  | Expire => clear_expired_orders
  end.

(** Amounts are 64-bit integers, and nobody has more to sell than there can be. *)
Definition sellable (a : asset) : Prop := int64_min <= amount a <= BTCM_MAX_SHARE_SUPPLY.
Definition asset_typed (a : asset) : Prop := is_int64 (amount a).
Definition typed_op (op : market_op) : Prop :=
  match op with
  | Create o => sellable (lc_amount_to_sell o) /\ asset_typed (lc_min_to_receive o)
  | Create2 o => sellable (l2_amount_to_sell o) /\ asset_typed (base (l2_exchange_rate o)) /\ asset_typed (quote (l2_exchange_rate o))
  | _ => True
  end.

(** A validated order, as the evaluator puts it in the book. *)
Lemma create_order_ok o : limit_order_create_validate o = Ok tt -> typed_op (Create o) -> exists p,
  get_price o = Ok p /\ asset_id (base p) = asset_id (lc_amount_to_sell o) /\
  forall created, order_ok (LimitOrder.Make created (lc_expiration o) (lc_owner o) (lc_orderid o) (amount (lc_amount_to_sell o)) p).
Proof.
  intros H [Hs Ht]. pose proof max_supply_fits. unfold limit_order_create_validate in H.
  apply bind_Ok in H as (_ & _ & H). apply bind_Ok in H as (_ & _ & H). apply bind_Ok in H as (p & Hp & H).
  unfold sellable, asset_typed in *. pose proof (make_price_base _ _ _ Hp) as ->. exists (Price (lc_amount_to_sell o) (lc_min_to_receive o)).
  split; [done|]. split; [done|]. apply AssetFacts.validate_ok in H; [|unfold is_int64; cbn; lia|done].
  intros created. split; [done|]. destruct H as (Hb & Hq & _). cbn in *. split; [lia|]. unfold asking. cbn.
  rewrite Z.mul_comm, Z.div_mul by lia. lia.
Qed.

Lemma create2_order_ok o : limit_order_create2_validate o = Ok tt -> typed_op (Create2 o) ->
  asset_id (base (l2_exchange_rate o)) = asset_id (l2_amount_to_sell o) /\
  forall created, order_ok (LimitOrder.Make created (l2_expiration o) (l2_owner o) (l2_orderid o) (amount (l2_amount_to_sell o)) (l2_exchange_rate o)).
Proof.
  intros H (Hs & Hb & Hq). pose proof max_supply_fits. unfold limit_order_create2_validate in H.
  apply bind_Ok in H as (_ & _ & H). apply bind_Ok in H as ([] & Hi%fc_assert_Ok & H). apply bind_Ok in H as ([] & Hv & H).
  apply bind_Ok in H as (_ & _ & H). apply bind_Ok in H as (r & Hr & H). apply fc_assert_Ok in H. apply Z.eqb_eq in Hi.
  unfold sellable, asset_typed in *. apply AssetFacts.validate_ok in Hv; [|done|done].
  pose proof Hv as Hp. destruct Hv as (Hb' & Hq' & Hn). split; [lia|]. intros created.
  assert (0 <= amount (l2_amount_to_sell o)) as Hpos.
  { apply Z.nlt_ge. intros Hlt. unfold asset_mul in Hr. rewrite Hi, Z.eqb_refl, AssetFacts.scale_negative in Hr by lia. discriminate. }
  split; [done|]. unfold asking. cbn [LimitOrder.for_sale LimitOrder.sell_price].
  unfold asset_mul in Hr. rewrite Hi, Z.eqb_refl, AssetFacts.scale_exact in Hr by (unfold AssetFacts.amount_ok; lia).
  destruct (Z.ltb_spec (amount (l2_amount_to_sell o) * amount (quote (l2_exchange_rate o)) / amount (base (l2_exchange_rate o))) (2 ^ 64)) as [Hlt|]; [|discriminate].
  injection Hr as <-. cbn [amount] in H.
  assert (forall q, 0 <= q < 2 ^ 64 -> i64 q > 0 -> 0 < q <= int64_max) as Hpos64.
  { intros q Hq0 Hi64. split; [destruct (Z.eqb_spec q 0) as [->|]; [done|lia]|]. apply Z.nlt_ge. intros Hbig.
    pose proof (AssetFacts.i64_neg q). unfold int64_max in *. lia. }
  assert (0 <= amount (l2_amount_to_sell o) * amount (quote (l2_exchange_rate o)) / amount (base (l2_exchange_rate o))) by (apply Z.div_pos; nia).
  assert (0 < amount (l2_amount_to_sell o)) by (destruct (Z.eqb_spec (amount (l2_amount_to_sell o)) 0) as [E|]; [rewrite E in H; done|lia]).
  split; [lia|]. apply Hpos64; lia.
Qed.

(** Every operation of the market, expiry included, neither creates nor destroys
    units of any asset: fills, refunds and what stays in the book add up. *)
Lemma market_conserves op d d' : books d -> asset_id (Dgpo.current_mbd_supply (dgpo d)) = XUSD_SYMBOL ->
  validate_op op = Ok tt -> typed_op op -> apply_op op d = Ok (tt, d') ->
  books d' /\ forall id, gap id d' = gap id d.
Proof.
  intros Hb Hm Hv Ht H. destruct op as [o|o|o|o|o|].
  - destruct (create_order_ok o Hv Ht) as (p & Ep & Ea & _). eapply sell_conserved; [|exact H|done]. intros p'. rewrite Ep. by intros [= <-].
  - destruct (create2_order_ok o Hv Ht) as [Ea _]. eapply sell_conserved; [|exact H|done]. by intros p' [= <-].
  - cbn in H. unfold limit_order_cancel_apply, get_limit_order in H. step H as [i x] E. by eapply cancel_conserved.
  - eapply convert_conserved; [|exact Hm|exact H|done]. cbn in Hv. unfold convert_validate in Hv.
    apply bind_Ok in Hv as (_ & _ & Hv). apply bind_Ok in Hv as ([] & E%fc_assert_Ok & _). by apply Z.eqb_eq in E.
  - cbn in H. unfold feed_publish_apply, get_witness in H. step H as [i w] E. step H. state_inv. done.
  - cbn in H. unfold clear_expired_orders in H. step H. by eapply clear_loop_conserved.
Qed.

Lemma book_same d d' : books d' -> orders d' = orders d -> book d -> book d'.
Proof. intros Hb E (_ & Ho & Hu). unfold book. by rewrite E. Qed.

Lemma clear_loop_book n now d u d' : book d -> clear_orders_loop n now d = Ok (u, d') -> book d'.
Proof.
  revert d. induction n as [|n IH]; intros d Hd H; cbn [clear_orders_loop] in H; step H;
    (destruct (in_order by_expiration d) as [|itr l]; [by apply st_ret_Ok in H as [_ ->]|]);
    (destruct (_ <? now); [|by apply st_ret_Ok in H as [_ ->]]); [discriminate|].
  step H as [] Ec. eapply IH; [|exact H]. by eapply cancel_book.
Qed.

Lemma clear_loop_more n k now d : books d -> (length (in_order by_expiration d) <= n)%nat ->
  clear_orders_loop (n + k) now d = clear_orders_loop n now d.
Proof.
  intros Hb Hl. induction k as [|k IH]; [by rewrite Nat.add_0_r|].
  rewrite Nat.add_succ_r, <-clear_loop_fuel by (done || lia). exact IH.
Qed.

Lemma convert_orders o d u d' : books d -> convert_apply o d = Ok (u, d') -> books d' /\ orders d' = orders d.
Proof.
  intros Hb H. unfold convert_apply in H. step H as [w wa] Ew. cbn [fst] in H. step H as b Eb.
  apply get_balance_state in Eb as ->. step H as [] E1. step H as n En. step H as [] Ea.
  destruct (adjust_books _ _ _ _ _ 0 Hb Ea) as (Hb1 & E1' & _).
  step H as d1 Ed. step H as [] E2. step H as iss Ei. step H as [] Ec.
  destruct (adjust_books _ _ _ _ _ 0 Hb1 Ec) as (Hb2 & E2' & _).
  apply modify_dgpo_Ok in H as (q & Hq & ->). split; [apply Hb2|]. by rewrite <-E1', <-E2'.
Qed.

(** C28 The book stays well formed: after any operation of the market every open order
    still asks for at least one unit, and no two open orders could trade with each
    other, so every possible trade has been made.  After the expiry of a block
    exactly the orders that have not expired are left, and its loop ends by itself. *)
Theorem order_book_invariant op d d' : book d -> validate_op op = Ok tt -> typed_op op -> apply_op op d = Ok (tt, d') ->
  book d' /\
  (op = Expire -> orders d' = filter (live (head_block_time d)) (orders d) /\
     forall n, clear_orders_loop (length (in_order by_expiration d) + n) (head_block_time d) d = Ok (tt, d')).
Proof.
  intros Hd Hv Ht H. destruct op as [o|o|o|o|o|]; (split; [|try discriminate]).
  - destruct (create_order_ok o Hv Ht) as (p & Ep & _ & Hok). eapply sell_book; [exact Ep|exact Hd|exact Hok|exact H].
  - destruct (create2_order_ok o Hv Ht) as [_ Hok]. eapply sell_book; [reflexivity|exact Hd|exact Hok|exact H].
  - cbn in H. unfold limit_order_cancel_apply, get_limit_order in H. step H as [i x] E. by eapply cancel_book.
  - destruct (convert_orders o d tt d' (proj1 Hd) H) as [Hb E]. by eapply book_same.
  - cbn in H. unfold feed_publish_apply, get_witness in H. step H as [i w] E. step H. state_inv. by eapply book_same; [apply Hd| |].
  - cbn in H. unfold clear_expired_orders in H. step H. by eapply clear_loop_book.
  - intros _. cbn in H. unfold clear_expired_orders in H. step H. split; [eapply clear_loop_orders; [apply Hd|exact H]|].
    intros n. by rewrite clear_loop_more by (apply Hd || done).
Qed.
End Market.

(** ** A market *)

#[local] Existing Instance boost_reference.
#[local] Instance boost_ok : BoostMPOk.
Proof. apply AssetFacts.boost_ok. Qed.

(** Bob sells 10 COIN at 2 BTCM each; alice offers 30 BTCM for 10 COIN. *)
Definition open_market : database :=
  Sample.state <| limit_orders := Table 1 (<[0 := LimitOrder.Make 0 max_time "bob" 7 10
    (Price (Asset 10 3) (Asset 20 BTCM_SYMBOL))]> empty) |>.
Definition bid : limit_order_create_operation :=
  CreateOp "alice" 1 (Asset 30 BTCM_SYMBOL) (Asset 10 3) false max_time.

Lemma open_market_book : book open_market.
Proof.
  split; [split; apply ids_below_check; vm_compute; reflexivity|]. split.
  - intros i o H. cbn in H. apply lookup_insert_Some in H as [[<- <-]|[_ H]]; [|by rewrite lookup_empty in H].
    unfold order_ok, AssetFacts.price_ok, asking, int64_max, BTCM_MAX_SHARE_SUPPLY. cbn. split_and!; lia || done.
  - intros i j a b Hij _ _ Ha Hb. cbn in Ha, Hb.
    apply lookup_insert_Some in Ha as [[<- _]|[_ H]]; [|by rewrite lookup_empty in H].
    apply lookup_insert_Some in Hb as [[<- _]|[_ H]]; [done|by rewrite lookup_empty in H].
Qed.

Lemma bid_ok : validate_op (Create bid) = Ok tt /\ typed_op (Create bid) /\
  apply_op (Create bid) open_market = Ok (tt, Sample.after (apply_op (Create bid)) open_market).
Proof.
  split; [vm_compute; reflexivity|]. split; [|apply Sample.after_run; vm_compute; reflexivity].
  unfold typed_op, sellable, asset_typed, is_int64, int64_min, int64_max, BTCM_MAX_SHARE_SUPPLY. cbn. lia.
Qed.

Lemma match_within_limits_witness :
  let n := LimitOrder.Make 0 max_time "alice" 1 30 (Price (Asset 30 BTCM_SYMBOL) (Asset 10 3)) in
  let o := LimitOrder.Make 0 max_time "bob" 7 10 (Price (Asset 10 3) (Asset 20 BTCM_SYMBOL)) in
  match_amounts n o (LimitOrder.sell_price o) = Ok (Asset 10 3, Asset 20 BTCM_SYMBOL) /\
  exists nr odr, match_amounts n o (LimitOrder.sell_price o) = Ok (Asset nr (sells o), Asset odr (sells n)).
Proof.
  intros n o. split; [vm_compute; reflexivity|].
  destruct (match_within_limits n o) as (nr & odr & H & _); [..|by exists nr, odr];
    unfold order_ok, crosses, AssetFacts.price_ok, asking, asks, sells, int64_max, BTCM_MAX_SHARE_SUPPLY; cbn; split_and!; lia || done.
Defined.

Lemma market_conserves_witness :
  let d' := Sample.after (apply_op (Create bid)) open_market in
  orders d' !! 0 = None /\ gap 3 d' = gap 3 open_market.
Proof.
  destruct bid_ok as (Hv & Ht & H). intros d'. split; [vm_compute; reflexivity|].
  refine (proj2 (market_conserves (Create bid) open_market d' _ _ Hv Ht H) 3); [apply open_market_book|vm_compute; reflexivity].
Defined.

Lemma order_book_invariant_witness :
  let d' := Sample.after (apply_op (Create bid)) open_market in
  LimitOrder.for_sale <$> orders d' !! 1 = Some 10 /\ book d'.
Proof.
  destruct bid_ok as (Hv & Ht & H). intros d'. split; [vm_compute; reflexivity|].
  exact (proj1 (order_book_invariant (Create bid) open_market d' open_market_book Hv Ht H)).
Defined.
End MarketFacts.
