(* ===== verification/Streaming.v ===== *)
(** * Streaming platforms and their reports

    Models the evaluators of btcm_evaluator.cpp that register platforms, let one
    platform report for another, and take in the reports of what was played, with
    [is_voted_streaming_platform] of database.cpp and the validation of the
    operations in protocol/btcm_operations.cpp.  The counters of listening time
    are 32 bits wide and wrap. *)

From S2P Require Import Prelude.
From S2P Require Import SafeInt.
From S2P Require Import Uint128.
From S2P Require Import Asset.
From S2P Require Import UndoDatabase.
From S2P Require Import Authority.
From S2P Require Import State.
From S2P Require Import Balance.
From S2P Require Import Delegations.

Definition BTCM_MAX_STREAMING_PLATFORM_URL_LENGTH : nat := 2048.
Definition BTCM_MAX_VOTED_STREAMING_PLATFORMS : nat := 10.

Module Streaming.
Import AssetOps.
Import Balances.
Import Delegations.

Record streaming_platform_update_operation := UpdateOp { su_owner : string; su_url : string; su_fee : asset }.
Record request_stream_reporting_operation := RequestOp {
  rs_requestor : string;
  rs_reporter : string;
  rs_reward_pct : Z;
  rs_redelegate_pct : Z
}.
Record cancel_stream_reporting_operation := CancelReportingOp { cs_requestor : string; cs_reporter : string }.
Record streaming_platform_report_operation := ReportOp {
  rp_streaming_platform : string;
  rp_consumer : string;
  rp_content : string;
  rp_playlist_creator : string;
  rp_play_time : Z;
  rp_dummy1 : Z;
  rp_dummy2 : Z;
  rp_spinning_platform : option string;
  rp_sp_user_id : option Z
}.

(** ** Validation *)

Definition request_stream_reporting_validate (o : request_stream_reporting_operation) : result unit :=
  _ ← fc_assert (Names.is_valid_account_name (rs_requestor o));
  _ ← fc_assert (Names.is_valid_account_name (rs_reporter o));
  _ ← fc_assert (negb (String.eqb (rs_reporter o) (rs_requestor o)));
  _ ← fc_assert ((rs_reward_pct o >=? 0) && (rs_reward_pct o <=? BTCM_100_PERCENT));
  fc_assert ((rs_redelegate_pct o >=? 0) && (rs_redelegate_pct o <=? BTCM_100_PERCENT)).

Definition cancel_stream_reporting_validate (o : cancel_stream_reporting_operation) : result unit :=
  _ ← fc_assert (Names.is_valid_account_name (cs_requestor o));
  _ ← fc_assert (Names.is_valid_account_name (cs_reporter o));
  fc_assert (negb (String.eqb (cs_reporter o) (cs_requestor o))).

Definition is_empty (s : string) : bool := (String.length s =? 0)%nat.

Definition streaming_platform_report_validate (o : streaming_platform_report_operation) : result unit :=
  _ ← fc_assert (Names.is_valid_account_name (rp_streaming_platform o));
  _ ← fc_assert (rp_play_time o >? 0);
  _ ← fc_assert ((rp_play_time o <=? 86400)
        || (is_empty (rp_consumer o) && negb (bool_decide (is_Some (rp_sp_user_id o)))));
  _ ← fc_assert (rp_dummy1 o =? 0);
  _ ← fc_assert (rp_dummy2 o =? 0);
  _ ← match rp_spinning_platform o with
      | Some spinner =>
          _ ← fc_assert (Names.is_valid_account_name spinner);
          fc_assert (negb (String.eqb spinner (rp_streaming_platform o)))
      | None => Ok tt
      end;
  match rp_sp_user_id o with
  | Some _ => fc_assert (is_empty (rp_consumer o))
  | None => Ok tt
  end.

(** ** Platforms *)

(** The index [by_vote_name]: most votes first, then the name. *)
Definition by_vote_name (x y : Z * Platform.t) : Prop :=
  Platform.votes y.2 < Platform.votes x.2 \/
  (Platform.votes x.2 = Platform.votes y.2 /\ String.leb (Platform.owner x.2) (Platform.owner y.2) = true).
#[export] Instance by_vote_name_dec : RelDecision by_vote_name.
Proof. unfold by_vote_name. solve_decision. Defined.

Definition is_voted_streaming_platform (name : string) (d : database) : bool :=
  existsb (fun kv => String.eqb (Platform.owner kv.2) name)
    (take BTCM_MAX_VOTED_STREAMING_PLATFORMS (in_order by_vote_name d)).

Definition get_voted_streaming_platforms (d : database) : list string :=
  (fun kv => Platform.owner kv.2) <$> take BTCM_MAX_VOTED_STREAMING_PLATFORMS (in_order by_vote_name d).

(** ** Reporting for another platform *)

Definition find_request (requestor reporter : string) : st database (option (Z * ReportRequest.t)) :=
  find_where (fun r => String.eqb (ReportRequest.requestor r) requestor && String.eqb (ReportRequest.reporter r) reporter).

Section Streaming.
Context {B : BoostMP}.

Definition streaming_platform_update_apply (o : streaming_platform_update_operation) : st database unit :=
  sp_account ← get_account (su_owner o);
  _ ← assert_st (String.length (su_url o) <=? BTCM_MAX_STREAMING_PLATFORM_URL_LENGTH)%nat;
  _ ← assert_asset (asset_geb (Account.balance sp_account.2) (su_fee o));
  wit_itr ← find_streaming_platform (su_owner o);
  match wit_itr with
  | Some (i, _) => modify_pure i (fun w : Platform.t => w <| Platform.url := su_url o |>)
  | None =>
      d ← get_st;
      _ ← assert_asset (asset_geb (su_fee o)
            (ChainProps.streaming_platform_update_fee (Schedule.median_props (schedule d))));
      _ ← create (Platform.Make (su_owner o) (head_block_time d) (su_url o) 0 0 0 0 0 0);
      _ ← pay_fee sp_account.1 (su_fee o);
      a ← get (V:=Account.t) sp_account.1;
      v ← lift (Safe.add (amount (Account.vesting_shares a)) (amount (Account.received_vesting_shares a)));
      vested ← lift (Safe.sub v (amount (Account.delegated_vesting_shares a)));
      if negb (vested =? 0) then
        modify_dgpo (fun dgpo =>
          x ← Safe.add (Dgpo.total_vested_by_platforms dgpo) vested;
          Ok (dgpo <| Dgpo.total_vested_by_platforms := x |>))
      else mret tt
  end.

(** The shares of the requestor that go to the reporter, and the change against
    what went to it before.  The loop checks the total as it goes. *)
Definition redelegation (received pct : Z) : result Z :=
  q ← Uint128.div (Uint128.mul (Uint128.of_int64 received) (Uint128.of_uint32 pct)) (Uint128.of_int32 BTCM_100_PERCENT);
  Uint128.to_uint64 q.

Definition check_total (reporter redelegated pct : Z) (acc : Z * Z * Z) (r : Z * Redelegation.t) : result (Z * Z * Z) :=
  let '(total_pct, prev_pct, redelegation_delta) := acc in
  acc ← (if r.1 =? reporter then
           x ← Safe.sub (i64 redelegated) (Redelegation.redelegated r.2);
           Ok (u32 (total_pct + pct), Redelegation.redelegate_pct r.2, x)
         else Ok (u32 (total_pct + Redelegation.redelegate_pct r.2), prev_pct, redelegation_delta));
  _ ← fc_assert (acc.1.1 <=? BTCM_100_PERCENT);
  Ok acc.

(** [redelegations[ reporter ]]: a new entry is empty. *)
Definition redelegate_to (reporter pct redelegation_delta : Z) (acct : Account.t) : result Account.t :=
  let old := default (Redelegation.Make 0 0) (Account.redelegations acct !! reporter) in
  x ← Safe.add (Redelegation.redelegated old) redelegation_delta;
  let entry := Redelegation.Make (u16 pct) x in
  _ ← (if Redelegation.redelegate_pct entry =? 0 then fc_assert (x =? 0) else Ok tt);
  t ← Safe.add (amount (Account.redelegated_vesting_shares acct)) redelegation_delta;
  Ok (acct <| Account.redelegations ::= (if Redelegation.redelegate_pct entry =? 0 then delete reporter else <[reporter := entry]>) |>
           <| Account.redelegated_vesting_shares ::= fun s => s <| amount := t |> |>).

Definition rereceive (delta : Z) (acct : Account.t) : result Account.t :=
  t ← Safe.add (amount (Account.rereceived_vesting_shares acct)) delta;
  Ok (acct <| Account.rereceived_vesting_shares ::= fun s => s <| amount := t |> |>).

Definition request_stream_reporting_apply (o : request_stream_reporting_operation) : st database unit :=
  requestor_sp ← get_streaming_platform (rs_requestor o);
  reporter_sp ← get_streaming_platform (rs_reporter o);
  requestor_ac ← get_account (rs_requestor o);
  reporter_ac ← get_account (rs_reporter o);
  let received := amount (Account.received_vesting_shares requestor_ac.2) in
  redelegated ← lift (redelegation received (rs_redelegate_pct o));
  _ ← assert_st (i64 redelegated <=? received);
  r ← lift (foldM (check_total reporter_ac.1 redelegated (rs_redelegate_pct o)) (0, 0, i64 redelegated)
              (redelegations_of requestor_ac.2));
  let '(total_pct, prev_pct, redelegation_delta) := r in
  srr ← find_request (rs_requestor o) (rs_reporter o);
  _ ← match srr with
      | Some (i, s) =>
          _ ← assert_st (negb (ReportRequest.reward_pct s =? rs_reward_pct o) || negb (rs_redelegate_pct o =? prev_pct));
          modify_pure i (fun s : ReportRequest.t => s <| ReportRequest.reward_pct := u16 (rs_reward_pct o) |>)
      | None =>
          _ ← create (ReportRequest.Make (rs_requestor o) (rs_reporter o) (u16 (rs_reward_pct o)));
          mret tt
      end;
  let old_redelegation := Account.redelegations requestor_ac.2 !! reporter_ac.1 in
  if negb (redelegation_delta =? 0) || (rs_redelegate_pct o >? 0)
     || match old_redelegation with
        | Some r => negb (Redelegation.redelegate_pct r =? rs_redelegate_pct o)
        | None => false
        end
  then
    _ ← modify requestor_ac.1 (redelegate_to reporter_ac.1 (rs_redelegate_pct o) redelegation_delta);
    if negb (redelegation_delta =? 0) then modify reporter_ac.1 (rereceive redelegation_delta) else mret tt
  else mret tt.

Definition cancel_stream_reporting_apply (o : cancel_stream_reporting_operation) : st database unit :=
  srr ← find_request (cs_requestor o) (cs_reporter o);
  match srr with
  | None => throw assert_exception
  | Some (i, _) =>
      _ ← remove (V:=ReportRequest.t) i;
      requestor_ac ← get_account (cs_requestor o);
      reporter_ac ← get_account (cs_reporter o);
      match Account.redelegations requestor_ac.2 !! reporter_ac.1 with
      | None => mret tt
      | Some r =>
          _ ← (if negb (Redelegation.redelegated r =? 0) then
                 modify reporter_ac.1 (fun acct =>
                   t ← Safe.sub (amount (Account.rereceived_vesting_shares acct)) (Redelegation.redelegated r);
                   Ok (acct <| Account.rereceived_vesting_shares ::= fun s => s <| amount := t |> |>))
               else mret tt);
          modify requestor_ac.1 (fun acct =>
            t ← Safe.sub (amount (Account.redelegated_vesting_shares acct)) (Redelegation.redelegated r);
            Ok (acct <| Account.redelegated_vesting_shares ::= fun s => s <| amount := t |> |>
                     <| Account.redelegations ::= delete reporter_ac.1 |>))
      end
  end.

End Streaming.

(** ** Reports *)

(** The counters a platform and the whole chain keep of the last day. *)
Record counters := Counters { active : Z; full_time : Z; total_time : Z; full_users : Z }.

Definition dgpo_counters (p : Dgpo.t) : counters :=
  Counters (Dgpo.active_users p) (Dgpo.full_time_users p) (Dgpo.total_listening_time p) (Dgpo.full_users_time p).
Definition set_dgpo_counters (c : counters) (p : Dgpo.t) : Dgpo.t :=
  p <| Dgpo.active_users := active c |> <| Dgpo.full_time_users := full_time c |>
    <| Dgpo.total_listening_time := total_time c |> <| Dgpo.full_users_time := full_users c |>.
Definition platform_counters (p : Platform.t) : counters :=
  Counters (Platform.active_users p) (Platform.full_time_users p) (Platform.total_listening_time p) (Platform.full_users_time p).
Definition set_platform_counters (c : counters) (p : Platform.t) : Platform.t :=
  p <| Platform.active_users := active c |> <| Platform.full_time_users := full_time c |>
    <| Platform.total_listening_time := total_time c |> <| Platform.full_users_time := full_users c |>.

(** Someone who had listened for [prev] seconds listens for [play_time] more. *)
Definition listen (prev play_time : Z) (c : counters) : counters :=
  let c :=
    if prev <? 3600 then
      let c := if prev =? 0 then Counters (u32 (active c + 1)) (full_time c) (total_time c) (full_users c) else c in
      if 3600 - prev >? play_time
      then Counters (active c) (full_time c) (total_time c) (u32 (full_users c + play_time))
      else Counters (active c) (u32 (full_time c + 1)) (total_time c) (u32 (full_users c + (3600 - prev)))
    else c in
  Counters (active c) (full_time c) (u32 (total_time c + play_time)) (full_users c).

Definition find_user (platform sp_user_id : Z) : st database (option (Z * PlatformUser.t)) :=
  find_where (fun u => (PlatformUser.streaming_platform u =? platform) && (PlatformUser.sp_user_id u =? sp_user_id)).

(** Who listened: an account, a user known to the platform (with its row if it has
    one), or nobody in particular. *)
Inductive listener :=
  | Registered (account : Z)
  | Pseudonymous (sp_user_id : Z) (row : option Z)
  | Anonymous.

Definition find_listener (spinner : Z) (o : streaming_platform_report_operation) : st database listener :=
  let fits (t : Z) := assert_st (u32 (rp_play_time o + t) <=? 86400) in
  if negb (is_empty (rp_consumer o)) then
    a ← get_account (rp_consumer o);
    _ ← fits (Account.total_listening_time a.2);
    mret (Registered a.1)
  else
    match rp_sp_user_id o with
    | Some u =>
        itr ← find_user spinner u;
        match itr with
        | Some (i, user) => _ ← fits (PlatformUser.total_listening_time user); mret (Pseudonymous u (Some i))
        | None => mret (Pseudonymous u None)
        end
    | None => mret Anonymous
    end.

Definition create_report (stp : Z) (spp : option Z) (reward_pct content : Z) (who : listener)
    (o : streaming_platform_report_operation) : st database unit :=
  d ← get_st;
  creator ← (if negb (is_empty (rp_playlist_creator o))
             then a ← get_account (rp_playlist_creator o); mret (Some a.1) else mret None);
  _ ← create (Report.Make stp (match who with Registered a => Some a | _ => None end)
        (rp_sp_user_id o) content (head_block_time d) (rp_play_time o) creator spp
        (match spp with Some _ => Some reward_pct | None => None end));
  mret tt.

(** The listener's own times, and what they were before: in all and on the platform. *)
Definition add_listening (spinner play_time : Z) (who : listener) : st database (Z * Z) :=
  match who with
  | Registered a =>
      acct ← get (V:=Account.t) a;
      let entry := Account.total_time_by_platform acct !! spinner in
      _ ← modify_pure a (fun a =>
            a <| Account.total_listening_time ::= fun t => u32 (t + play_time) |>
              <| Account.total_time_by_platform ::= <[spinner := match entry with
                   | None => play_time
                   | Some t => u32 (t + play_time)
                   end]> |>);
      mret (Account.total_listening_time acct, default 0 entry)
  | Pseudonymous u (Some i) =>
      user ← get (V:=PlatformUser.t) i;
      _ ← modify_pure i (fun sp : PlatformUser.t => sp <| PlatformUser.total_listening_time ::= fun t => u32 (t + play_time) |>);
      mret (PlatformUser.total_listening_time user, PlatformUser.total_listening_time user)
  | Pseudonymous u None =>
      _ ← create (PlatformUser.Make spinner u play_time);
      mret (0, 0)
  | Anonymous =>
      sp ← get (V:=Platform.t) spinner;
      _ ← modify_pure spinner (fun sp : Platform.t => sp <| Platform.total_anon_listening_time ::= fun t => u64 (t + play_time) |>);
      mret (Platform.total_anon_listening_time sp, Platform.total_anon_listening_time sp)
  end.

Definition streaming_platform_report_apply (o : streaming_platform_report_operation) : st database unit :=
  stp ← get_streaming_platform (rp_streaming_platform o);
  r ← match rp_spinning_platform o with
      | Some name =>
          spp ← get_streaming_platform name;
          srr ← find_request name (rp_streaming_platform o);
          match srr with
          | Some (_, s) => mret (Some spp.1, ReportRequest.reward_pct s)
          | None => throw assert_exception
          end
      | None => mret (None, 0)
      end;
  let '(spp, reward_pct) := r in
  let spinner := default stp.1 spp in
  who ← find_listener spinner o;
  d ← get_st;
  _ ← assert_st (is_voted_streaming_platform (rp_streaming_platform o) d);
  content ← get_content (rp_content o);
  _ ← assert_st (negb (Content.disabled content.2));
  _ ← create_report stp.1 spp reward_pct content.1 who o;
  prev ← add_listening spinner (rp_play_time o) who;
  _ ← modify_dgpo (fun dgpo => Ok (set_dgpo_counters (listen prev.1 (rp_play_time o) (dgpo_counters dgpo)) dgpo));
  _ ← modify_pure spinner (fun sp => set_platform_counters (listen prev.2 (rp_play_time o) (platform_counters sp)) sp);
  modify_pure content.1 (fun c : Content.t =>
    c <| Content.times_played ::= fun n => u64 (n + 1) |> <| Content.times_played_24 ::= fun n => u32 (n + 1) |>).

End Streaming.
