(* ===== verification/Rewards.v ===== *)
(** * Rewards and the funds of a block

    Models the part of database.cpp that pays out: [process_content_cashout] with
    its helpers, [pay_to_content], [pay_to_content_master], [pay_to_content_comp],
    [pay_to_platform], the inflation of a block ([process_funds],
    [get_content_reward], [get_producer_reward], [adjust_funds]) and
    [process_conversions].  The helpers hold references to objects, which are ids
    here, so that what they read is what the table holds at that time. *)

From S2P Require Import Prelude.
From S2P Require Import SafeInt.
From S2P Require Import Uint128.
From S2P Require Import Asset.
From S2P Require Import UndoDatabase.
From S2P Require Import Authority.
From S2P Require Import State.
From S2P Require Import Balance.
From S2P Require Import Vesting.
From S2P Require Import Streaming.

Definition BTCM_MINING_REWARD : asset := Asset 5000 BTCM_SYMBOL.
Definition BTCM_MIN_CONTENT_REWARD : asset := BTCM_MINING_REWARD.

Module Rewards.
Import AssetOps.
Import Balances.
Import Vesting.
Import Streaming.

(** [sp_helper]: the times listened on a platform, by account and by user. *)
Record sp_helper := Helper {
  sp : Z;
  sp_acct : Z;
  account_listening_times : list (Z * Z);
  user_listening_times : list (Z * Z);
  anon_listening_time : Z
}.
#[export] Instance eta_sp_helper : Settable sp_helper := fun r =>
  Helper (sp r) (sp_acct r) (account_listening_times r) (user_listening_times r) (anon_listening_time r).

Section Rewards.
Context {B : BoostMP}.

Definition get_vesting_stake (a : Account.t) : result Z :=
  s ← Safe.add (amount (Account.vesting_shares a)) (amount (Account.received_vesting_shares a));
  Safe.sub s (amount (Account.delegated_vesting_shares a)).

(** ** What a report earns *)

Definition calculate_report_reward (p : Dgpo.t) (total_payout : asset) (play_time : Z)
    (sp_acct : Account.t) (sp : Platform.t) (total_listening_time : Z) : result asset :=
  stake ← get_vesting_stake sp_acct;
  if (stake =? 0) || (amount total_payout =? 0) then Ok (Asset 0 (asset_id total_payout))
  else
    _ ← fc_assert (amount total_payout >? 0);
    let r := Uint128.mul (Uint128.of_int64 (amount total_payout)) (Uint128.of_uint32 play_time) in
    r ← Uint128.div (Uint128.mul r (Uint128.of_int64 stake)) (Uint128.of_int64 (Dgpo.total_vested_by_platforms p));
    r ← Uint128.div (Uint128.mul r (Uint128.of_uint64 (Z.min total_listening_time 3600)))
          (Uint128.of_uint32 (Platform.full_users_time sp));
    r ← Uint128.div r (Uint128.of_uint64 total_listening_time);
    x ← Uint128.to_uint64 r;
    Ok (Asset (i64 x) (asset_id total_payout)).

Definition adjust_listening_times (listening_times : list (Z * Z)) (consumer play_time : Z) : list (Z * Z) :=
  match Flat.find Z.ltb consumer listening_times with
  | None => Flat.set Z.ltb consumer play_time listening_times
  | Some listened => Flat.set Z.ltb consumer (u32 (listened + play_time)) listening_times
  end.

(** ** Statistics *)

(** What the counters lose when a listener's time falls; the deltas are unsigned. *)
Definition adjust_delta (time_before time_after : Z) (c : counters) : counters :=
  let time_before := u32 time_before in
  let time_after := u32 time_after in
  let c := Counters (active c) (full_time c) (u32 (total_time c + (time_before - time_after))) (full_users c) in
  if time_after <? 3600 then
    let c := if time_after =? 0 then Counters (u32 (active c + 1)) (full_time c) (total_time c) (full_users c) else c in
    if time_before >=? 3600
    then Counters (active c) (u32 (full_time c + 1)) (total_time c) (u32 (full_users c + (3600 - time_after)))
    else Counters (active c) (full_time c) (total_time c) (u32 (full_users c + (time_before - time_after)))
  else c.

Definition no_delta : counters := Counters 0 0 0 0.
Definition some_delta (c : counters) : bool :=
  (total_time c >? 0) || (full_users c >? 0) || (full_time c >? 0) || (active c >? 0).
Definition subtract (delta c : counters) : counters :=
  Counters (u32 (active c - active delta)) (u32 (full_time c - full_time delta))
    (u32 (total_time c - total_time delta)) (u32 (full_users c - full_users delta)).

(** The deltas of the platform and of the whole chain. *)
Definition delta_pair : Type := counters * counters.

Definition count_account (spinner : Z) (listened : Z * Z) (deltas : delta_pair) : st database delta_pair :=
  consumer ← get (V:=Account.t) listened.1;
  let global_time_before := Account.total_listening_time consumer in
  platform_time_before ← lift (of_option assert_exception (Account.total_time_by_platform consumer !! spinner));
  _ ← modify_pure listened.1 (fun a : Account.t =>
        let left_ := u32 (platform_time_before - listened.2) in
        a <| Account.total_listening_time ::= fun t => u32 (t - listened.2) |>
          <| Account.total_time_by_platform ::= (if left_ =? 0 then delete spinner else <[spinner := left_]>) |>);
  consumer ← get (V:=Account.t) listened.1;
  mret (adjust_delta platform_time_before (default 0 (Account.total_time_by_platform consumer !! spinner)) deltas.1,
        adjust_delta global_time_before (Account.total_listening_time consumer) deltas.2).

(** The iterator is dereferenced without a check. *)
Definition count_user (spinner : Z) (listened : Z * Z) (deltas : delta_pair) : st database delta_pair :=
  itr ← find_user spinner listened.1;
  match itr with
  | None => throw undefined_behaviour
  | Some (i, consumer) =>
      let global_time_before := PlatformUser.total_listening_time consumer in
      _ ← (if global_time_before =? listened.2 then remove (V:=PlatformUser.t) i
           else modify_pure i (fun a : PlatformUser.t =>
                  a <| PlatformUser.total_listening_time ::= fun t => u32 (t - listened.2) |>));
      mret (adjust_delta global_time_before (global_time_before - listened.2) deltas.1,
            adjust_delta global_time_before (global_time_before - listened.2) deltas.2)
  end.

Fixpoint over_times (f : Z * Z -> delta_pair -> st database delta_pair) (l : list (Z * Z)) (c : delta_pair) : st database delta_pair :=
  match l with
  | [] => mret c
  | x :: l => c ← f x c; over_times f l c
  end.

Definition count_platform (sph : Z * sp_helper) (global : counters) : st database counters :=
  c ← over_times (count_account sph.1) (account_listening_times sph.2) (no_delta, global);
  c ← over_times (count_user sph.1) (user_listening_times sph.2) c;
  p ← get (V:=Platform.t) (sp sph.2);
  let c :=
    if anon_listening_time sph.2 >? 0 then
      let before := Platform.total_anon_listening_time p in
      (adjust_delta before (before - anon_listening_time sph.2) c.1,
       adjust_delta before (before - anon_listening_time sph.2) c.2)
    else c in
  _ ← (if some_delta c.1 then
         modify_pure (sp sph.2) (fun o : Platform.t =>
           set_platform_counters (subtract c.1 (platform_counters o)) o
             <| Platform.total_anon_listening_time ::= fun t => u64 (t - anon_listening_time sph.2) |>)
       else mret tt);
  mret c.2.

Fixpoint count_platforms (platforms : list (Z * sp_helper)) (global : counters) : st database counters :=
  match platforms with
  | [] => mret global
  | sph :: platforms => global ← count_platform sph global; count_platforms platforms global
  end.

Definition adjust_statistics (platforms : list (Z * sp_helper)) : st database unit :=
  delta ← count_platforms platforms no_delta;
  if some_delta delta then
    modify_dgpo (fun o => Ok (set_dgpo_counters (subtract delta (dgpo_counters o)) o))
  else mret tt.

(** ** Payments *)

(** The two sides of a content are paid alike. *)
Record side := Side {
  distributions : Content.t -> list Distribution.t;
  accumulated : Content.t -> asset;
  set_accumulated : asset -> Content.t -> Content.t
}.
Definition master : side :=
  Side Content.distributions_master Content.accumulated_balance_master
    (fun a c => c <| Content.accumulated_balance_master := a |>).
Definition comp : side :=
  Side Content.distributions_comp Content.accumulated_balance_comp
    (fun a c => c <| Content.accumulated_balance_comp := a |>).

Definition pay_author (to_pay : asset) (di : Distribution.t) (total_paid : asset) : st database asset :=
  x ← lift (Safe.mul (amount to_pay) (Distribution.bp di));
  x ← lift (Safe.div x 10000);
  let author_reward := Asset x (asset_id to_pay) in
  total_paid ← lift (asset_add total_paid author_reward);
  let mbd_btcm := author_reward in
  vesting_btcm ← lift (asset_sub author_reward mbd_btcm);
  author ← get_account (Distribution.payee di);
  _ ← create_vesting author.1 vesting_btcm;
  _ ← create_mbd author.1 mbd_btcm;
  mret total_paid.

Fixpoint pay_authors (to_pay : asset) (l : list Distribution.t) (total_paid : asset) : st database asset :=
  match l with
  | [] => mret total_paid
  | di :: l => total_paid ← pay_author to_pay di total_paid; pay_authors to_pay l total_paid
  end.

(** An overpayment is only logged. *)
Definition pay_side (s : side) (co : Z) (payout : asset) : st database unit :=
  c ← get (V:=Content.t) co;
  if (length (distributions s c) =? 0)%nat then
    modify co (fun c => a ← asset_add (accumulated s c) payout; Ok (set_accumulated s a c))
  else
    to_pay ← lift (asset_add payout (accumulated s c));
    total_paid ← pay_authors to_pay (distributions s c) (Asset 0 (asset_id to_pay));
    _ ← lift (asset_gtb total_paid to_pay);
    to_pay ← lift (asset_sub to_pay total_paid);
    c ← get (V:=Content.t) co;
    if negb (asset_eqb (accumulated s c) to_pay) then modify_pure co (set_accumulated s to_pay) else mret tt.

Definition pay_to_content_master (co : Z) (payout : asset) : st database unit := pay_side master co payout.
Definition pay_to_content_comp (co : Z) (payout : asset) : st database unit := pay_side comp co payout.

Definition pay_to_platform (platform : Z) (payout : asset) : st database unit :=
  pl ← get (V:=Platform.t) platform;
  owner ← get_account (Platform.owner pl);
  let mbd_btcm := Asset 0 BTCM_SYMBOL in
  vesting_btcm ← lift (asset_sub payout mbd_btcm);
  _ ← create_vesting owner.1 vesting_btcm;
  _ ← create_mbd owner.1 mbd_btcm;
  mret tt.

Definition percent_of (a : asset) (percent : Z) : result asset :=
  x ← Safe.mul (amount a) percent;
  x ← Safe.div x BTCM_100_PERCENT;
  Ok (Asset x (asset_id a)).

Definition pay_to_content (content : Z) (payout : asset) : st database asset :=
  c ← get (V:=Content.t) content;
  platform_reward ← lift (percent_of payout (Content.playing_reward c));
  x ← lift (Safe.sub (amount payout) (amount platform_reward));
  let payout := Asset x (asset_id payout) in
  comp_reward ← lift (percent_of payout (Content.publishers_share c));
  master_reward ← lift (asset_sub payout comp_reward);
  _ ← pay_to_content_master content master_reward;
  paid ← lift (asset_add (Asset 0 BTCM_SYMBOL) master_reward);
  _ ← pay_to_content_comp content comp_reward;
  paid ← lift (asset_add paid comp_reward);
  _ ← modify_pure content (fun c : Content.t => c <| Content.times_played_24 ::= fun n => u32 (n - 1) |>);
  mret paid.

(** ** [process_content_cashout] *)

(** The index [by_created]. *)
Definition by_created (x y : Z * Report.t) : Prop :=
  Report.created x.2 < Report.created y.2 \/ (Report.created x.2 = Report.created y.2 /\ x.1 <= y.1).
#[export] Instance by_created_dec : RelDecision by_created.
Proof. unfold by_created. solve_decision. Defined.

Definition spinner_of (itr : Report.t) : Z := default (Report.streaming_platform itr) (Report.spinning_platform itr).

Definition helper_of (spinner : Z) (platforms : list (Z * sp_helper)) : st database sp_helper :=
  match Flat.find Z.ltb spinner platforms with
  | Some h => mret h
  | None =>
      p ← get (V:=Platform.t) spinner;
      a ← get_account (Platform.owner p);
      mret (Helper spinner a.1 [] [] 0)
  end.

(** The listener of a report: how long it listened on the platform, and what adds
    the report to the times of the helper. *)
Definition time_of (itr : Report.t) (spinner : Z) (h : sp_helper) : st database (Z * sp_helper) :=
  let anonymous (t : Z) := (t, h <| anon_listening_time ::= fun t => u64 (t + Report.play_time itr) |>) in
  match Report.consumer itr, Report.sp_user_id itr with
  | Some a, _ =>
      consumer_account ← get (V:=Account.t) a;
      t ← lift (of_option assert_exception (Account.total_time_by_platform consumer_account !! spinner));
      mret (t, h <| account_listening_times ::= fun l => adjust_listening_times l a (Report.play_time itr) |>)
  | None, Some u =>
      spu ← find_user spinner u;
      match spu with
      | Some (_, user) =>
          mret (PlatformUser.total_listening_time user,
                h <| user_listening_times ::= fun l => adjust_listening_times l (PlatformUser.sp_user_id user) (Report.play_time itr) |>)
      | None => mret (anonymous 0)
      end
  | None, None =>
      p ← get (V:=Platform.t) (sp h);
      mret (anonymous (Platform.total_anon_listening_time p))
  end.

(** The platforms' part of the reward of a report. *)
Definition pay_platforms (itr : Report.t) (platform_reward : asset) : st database unit :=
  reporter_reward ← match Report.spinning_platform itr, Report.reward_pct itr with
    | Some spinner, Some pct =>
        r ← lift (percent_of platform_reward pct);
        if amount platform_reward >? amount r then
          rest ← lift (asset_sub platform_reward r);
          _ ← pay_to_platform spinner rest;
          mret r
        else mret r
    | _, _ => mret platform_reward
    end;
  if amount reporter_reward >? 0 then pay_to_platform (Report.streaming_platform itr) reporter_reward else mret tt.

Definition cash_report (total_payout : asset) (itr : Z * Report.t) (acc : list (Z * sp_helper) * asset)
    : st database (list (Z * sp_helper) * asset) :=
  let '(platforms, paid) := acc in
  let spinner := spinner_of itr.2 in
  h ← helper_of spinner platforms;
  t ← time_of itr.2 spinner h;
  d ← get_st;
  acct ← get (V:=Account.t) (sp_acct h);
  p ← get (V:=Platform.t) (sp h);
  report_reward ← lift (calculate_report_reward (dgpo d) total_payout (Report.play_time itr.2) acct p t.1);
  content_payment ← pay_to_content (Report.content itr.2) report_reward;
  paid ← lift (asset_add paid content_payment);
  platform_reward ← lift (asset_sub report_reward content_payment);
  _ ← pay_platforms itr.2 platform_reward;
  paid ← lift (asset_add paid platform_reward);
  _ ← remove (V:=Report.t) itr.1;
  mret (Flat.set Z.ltb spinner t.2 platforms, paid).

Fixpoint cashout_loop (fuel : nat) (cashing_time : Z) (total_payout : asset) (acc : list (Z * sp_helper) * asset)
    : st database (list (Z * sp_helper) * asset) :=
  d ← get_st;
  match in_order by_created d with
  | itr :: _ =>
      if Report.created itr.2 <=? cashing_time then
        match fuel with
        | O => throw undefined_behaviour
        | S fuel => acc ← cash_report total_payout itr acc; cashout_loop fuel cashing_time total_payout acc
        end
      else mret acc
  | [] => mret acc
  end.

(** [now - fc::seconds(60*24*60)]; each turn removes a report. *)
Definition process_content_cashout (content_reward : asset) : st database asset :=
  d ← get_st;
  let cashing_time := u32 (head_block_time d - 60 * 24 * 60) in
  r ← cashout_loop (length (in_order by_created d)) cashing_time content_reward ([], Asset 0 BTCM_SYMBOL);
  _ ← adjust_statistics r.1;
  mret r.2.

(** ** The funds of a block *)

Definition add_funds (content_reward witness_pay vesting_reward : asset) (p : Dgpo.t) : result Dgpo.t :=
  f ← asset_add (Dgpo.total_vesting_fund_btcm p) vesting_reward;
  r ← asset_add (Dgpo.total_reward_fund_btcm p) content_reward;
  x ← asset_add content_reward witness_pay;
  x ← asset_add x vesting_reward;
  c ← asset_add (Dgpo.current_supply p) x;
  v ← asset_add (Dgpo.virtual_supply p) x;
  Ok (p <| Dgpo.total_vesting_fund_btcm := f |> <| Dgpo.total_reward_fund_btcm := r |>
        <| Dgpo.current_supply := c |> <| Dgpo.virtual_supply := v |>).
Definition process_funds (content_reward witness_pay vesting_reward : asset) : st database unit :=
  modify_dgpo (add_funds content_reward witness_pay vesting_reward).

Definition take_back (delta true_delta : asset) (p : Dgpo.t) : result Dgpo.t :=
  r ← asset_sub (Dgpo.total_reward_fund_btcm p) delta;
  c ← asset_sub (Dgpo.current_supply p) delta;
  v ← asset_sub (Dgpo.virtual_supply p) delta;
  x ← asset_sub delta true_delta;
  s ← asset_add (Dgpo.supply_delta p) x;
  Ok (p <| Dgpo.total_reward_fund_btcm := r |> <| Dgpo.current_supply := c |>
        <| Dgpo.virtual_supply := v |> <| Dgpo.supply_delta := s |>).
Definition adjust_funds (content_reward paid_to_content : asset) : st database unit :=
  let initial_content_allocation := content_reward in
  delta ← lift (asset_sub initial_content_allocation paid_to_content);
  true_delta ← lift (asset_sub content_reward paid_to_content);
  modify_dgpo (take_back delta true_delta).

Definition get_content_reward (d : database) : result asset :=
  x ← calc_percent_reward_per_day_0_2 BTCM_CONTENT_APR_PERCENT_0_2 (amount (Dgpo.virtual_supply (dgpo d)));
  let a := Asset x BTCM_SYMBOL in
  b ← asset_ltb a BTCM_MIN_CONTENT_REWARD;
  Ok (if b : bool then BTCM_MIN_CONTENT_REWARD else a).

Definition get_producer_reward : st database asset :=
  d ← get_st;
  let pay := BTCM_MINING_REWARD in
  witness_account ← get_account (Dgpo.current_witness (dgpo d));
  _ ← (if (head_block_num d >=? BTCM_START_MINER_VOTING_BLOCK) || (amount (Account.vesting_shares witness_account.2) =? 0) then
         _ ← create_vesting witness_account.1 pay; mret tt
       else
         a ← get_account (Account.name witness_account.2);
         modify a.1 (fun a => b ← asset_add (Account.balance a) pay; Ok (a <| Account.balance := b |>)));
  mret pay.

(** ** [process_conversions] *)

(** The index [by_conversion_date]. *)
Definition by_conversion_date (x y : Z * ConvertRequest.t) : Prop :=
  ConvertRequest.conversion_date x.2 < ConvertRequest.conversion_date y.2 \/
  (ConvertRequest.conversion_date x.2 = ConvertRequest.conversion_date y.2 /\ x.1 <= y.1).
#[export] Instance by_conversion_date_dec : RelDecision by_conversion_date.
Proof. unfold by_conversion_date. solve_decision. Defined.

Definition fill_conversion (median : price) (itr : Z * ConvertRequest.t) (net : asset * asset) : st database (asset * asset) :=
  user ← get_account (ConvertRequest.owner itr.2);
  amount_to_issue ← lift (asset_mul (ConvertRequest.amount itr.2) median);
  _ ← adjust_balance user.1 amount_to_issue;
  net_mbd ← lift (asset_add net.1 (ConvertRequest.amount itr.2));
  net_btcm ← lift (asset_add net.2 amount_to_issue);
  _ ← remove (V:=ConvertRequest.t) itr.1;
  mret (net_mbd, net_btcm).

Fixpoint conversion_loop (fuel : nat) (now : Z) (median : price) (net : asset * asset) : st database (asset * asset) :=
  d ← get_st;
  match in_order by_conversion_date d with
  | itr :: _ =>
      if ConvertRequest.conversion_date itr.2 <=? now then
        match fuel with
        | O => throw undefined_behaviour
        | S fuel => net ← fill_conversion median itr net; conversion_loop fuel now median net
        end
      else mret net
  | [] => mret net
  end.

Definition converted (median : price) (net : asset * asset) (p : Dgpo.t) : result Dgpo.t :=
  c ← asset_add (Dgpo.current_supply p) net.2;
  m ← asset_sub (Dgpo.current_mbd_supply p) net.1;
  v ← asset_add (Dgpo.virtual_supply p) net.2;
  x ← asset_mul net.1 median;
  v ← asset_sub v x;
  Ok (p <| Dgpo.current_supply := c |> <| Dgpo.current_mbd_supply := m |> <| Dgpo.virtual_supply := v |>).

Definition process_conversions : st database unit :=
  d ← get_st;
  let median := FeedHistory.effective_median_history (feed_history d) in
  if is_null median then mret tt
  else
    net ← conversion_loop (length (in_order by_conversion_date d)) (head_block_time d) median
            (Asset 0 XUSD_SYMBOL, Asset 0 BTCM_SYMBOL);
    modify_dgpo (converted median net).

(** The steps of [_apply_block] that move funds, in their order. *)
Definition pay_block : st database unit :=
  d ← get_st;
  content_reward ← lift (get_content_reward d);
  witness_pay ← get_producer_reward;
  _ ← process_funds content_reward witness_pay (Asset 0 BTCM_SYMBOL);
  _ ← process_conversions;
  paid_for_content ← process_content_cashout content_reward;
  adjust_funds content_reward paid_for_content.

End Rewards.
End Rewards.
