(* ===== verification/RewardFacts.v ===== *)
(** * Facts about rewards

    The funds of a block add up: what inflation adds to the supply is what the
    producer, the contents and the platforms get.  No report earns a negative
    amount, so that nothing is lost between the parts of a reward. *)

From S2P Require Import Prelude.
From S2P Require Import SafeInt.
From S2P Require Import Uint128.
From S2P Require Import Uint128Facts.
From S2P Require Import Asset.
From S2P Require Import AssetFacts.
From S2P Require Import UndoDatabase.
From S2P Require Import Authority.
From S2P Require Import State.
From S2P Require Import Sample.
From S2P Require Import Balance.
From S2P Require Import BalanceFacts.
From S2P Require Import Votes.
From S2P Require Import Social.
From S2P Require Import Vesting.
From S2P Require Import VestingFacts.
From S2P Require Import Streaming.
From S2P Require Import Rewards.

Module RewardFacts.
Import AssetOps Balances Votes Social Vesting Quiet Supply AssetFacts VestingFacts Streaming Rewards.

(** ** What payments leave alone *)

(** An account and a platform without what payments, votes and scores change. *)
Record listening := Listening {
  who : string;
  vested : Z;
  received : Z;
  delegated : Z;
  times : gmap Z Z
}.
Definition account_view (a : Account.t) : listening :=
  Listening (Account.name a) (amount (Account.vesting_shares a)) (amount (Account.received_vesting_shares a))
    (amount (Account.delegated_vesting_shares a)) (Account.total_time_by_platform a).
Definition platform_view (p : Platform.t) : Platform.t := p <| Platform.votes := 0 |>.
Definition funds_view (p : Dgpo.t) : asset * asset * Z :=
  (Dgpo.total_vesting_fund_btcm p, Dgpo.total_vesting_shares p, Dgpo.total_vested_by_platforms p).

Record view := View {
  v_accounts : gmap Z listening;
  v_platforms : gmap Z Platform.t;
  v_reports : gmap Z Report.t;
  v_users : gmap Z PlatformUser.t;
  v_contents : gmap Z Z;
  v_funds : asset * asset * Z
}.
Definition view_of (d : database) : view :=
  View (account_view <$> indices (accounts d)) (platform_view <$> indices (platforms d)) (indices (reports d))
    (indices (platform_users d)) (Content.playing_reward <$> indices (contents d)) (funds_view (dgpo d)).

Lemma fmap_set {V W} (f : V -> W) (t : gmap Z V) i v w : t !! i = Some v -> f w = f v -> f <$> <[i := w]> t = f <$> t.
Proof. intros Hv Hw. rewrite fmap_insert, Hw, <-fmap_insert. by rewrite insert_id. Qed.

Lemma view_account d i (a w : Account.t) : get_opt d i = Some a -> account_view w = account_view a ->
  view_of (set_obj d i w) = view_of d.
Proof.
  intros Ha Hw. unfold view_of. cbn -[account_view funds_view platform_view].
  f_equal. by apply (fmap_set account_view _ _ a).
Qed.

Lemma view_platform d i (p w : Platform.t) : get_opt d i = Some p -> platform_view w = platform_view p ->
  view_of (set_obj d i w) = view_of d.
Proof.
  intros Ha Hw. unfold view_of. cbn -[account_view funds_view platform_view].
  f_equal. by apply (fmap_set platform_view _ _ p).
Qed.

Lemma view_content d i (c w : Content.t) : get_opt d i = Some c -> Content.playing_reward w = Content.playing_reward c ->
  view_of (set_obj d i w) = view_of d.
Proof.
  intros Ha Hw. unfold view_of. cbn -[account_view funds_view platform_view].
  f_equal. by apply (fmap_set Content.playing_reward _ _ c).
Qed.

Lemma view_modify_account i f d u d' : (forall a w, f a = Ok w -> account_view w = account_view a) ->
  modify (V:=Account.t) i f d = Ok (u, d') -> view_of d' = view_of d.
Proof. intros Hf H. apply modify_Ok in H as (a & w & Ha & Hw & ->). apply (view_account d i a w); auto. Qed.

Lemma view_for_each {A} (l : list A) f d u d' : (forall x d u d', f x d = Ok (u, d') -> view_of d' = view_of d) ->
  for_each l f d = Ok (u, d') -> view_of d' = view_of d.
Proof.
  intros Hf. apply (for_each_inv (fun d' => view_of d' = view_of d)); [|done].
  intros x s u1 s' _ <- H. by eapply Hf.
Qed.

Section Views.
Context {B : BoostMP}.

Lemma view_votes i x d u d' : adjust_proxied_witness_votes i x d = Ok (u, d') -> view_of d' = view_of d.
Proof.
  unfold adjust_proxied_witness_votes. generalize BTCM_MAX_PROXY_RECURSION_DEPTH at 1 as room.
  intros room. revert i d. induction room as [|room IH]; intros i d H; cbn [adjust_proxied_delta] in H;
    step H as a Ha; destruct (negb _).
  1: { by apply st_ret_Ok in H as [_ ->]. }
  2: { step H as p Hp. apply st_bind_Ok in H as (u1 & d1 & H1 & H). rewrite (IH p.1 d1 H).
       eapply view_modify_account; [|exact H1]. intros acc w Hw. unfold add_proxied in Hw.
       apply bind_Ok in Hw as (v & _ & Hw). apply bind_Ok in Hw as (s & _ & [= <-]). by destruct acc. }
  all: apply st_bind_Ok in H as (u1 & d1 & H1 & H); transitivity (view_of d1).
  2, 4: unfold adjust_witness_votes in H1; step H1; eapply view_for_each; [|exact H1];
    intros kv e v e' He; unfold adjust_witness_vote in He; step He; by apply modify_Ok in He as (? & ? & _ & _ & ->).
  all: unfold adjust_streaming_platform_votes in H; step H; eapply view_for_each; [|exact H];
    intros kv e v e' He; unfold adjust_streaming_platform_vote in He; step He;
    apply modify_Ok in He as (p & w & Hp & Hw & ->); apply (view_platform e _ p w); [done|];
    unfold adjust_platform in Hw; apply bind_Ok in Hw as (y & _ & Hw); apply bind_Ok in Hw as (z & _ & [= <-]); by destruct p.
Qed.

Lemma view_score i x d u d' : recursive_recalculate_score i x d = Ok (u, d') -> view_of d' = view_of d.
Proof.
  intros H. unfold recursive_recalculate_score in H. step H as a Ha. step H as old Ho.
  assert (forall i f d u d', (forall a, account_view (f a) = account_view a) ->
    modify_pure (V:=Account.t) i f d = Ok (u, d') -> view_of d' = view_of d) as Hm.
  { intros j f e v e' Hf. apply view_modify_account. by intros b w [= <-]. }
  apply st_bind_Ok in H as (u1 & d1 & H1 & H). apply st_bind_Ok in H as (u2 & d2 & H2 & H).
  apply Hm in H1; [|by intros []]. transitivity (view_of d2); [|transitivity (view_of d1)]; [| |exact H1].
  - eapply view_for_each; [|exact H]. intros ? ? ? ?. apply Hm. by intros [].
  - eapply view_for_each; [|exact H2]. intros ? ? ? ?. apply Hm. by intros [].
Qed.

Lemma accrue_view now rate a a' paid : accrue now rate a = Ok (a', paid) -> account_view a' = account_view a.
Proof.
  unfold accrue. intros H. destruct (_ =? _); [by injection H as <- <-|]. destruct (_ && _); [|by injection H as <- <-].
  apply bind_Ok in H as (x & _ & H). apply bind_Ok in H as (y & _ & H). apply bind_Ok in H as (z & _ & H).
  apply bind_Ok in H as (w & _ & H). by injection H as <- <-.
Qed.

Lemma view_balance a delta d u d' : adjust_balance a delta d = Ok (u, d') -> view_of d' = view_of d.
Proof.
  intros H. unfold adjust_balance in H. destruct (_ =? BTCM_SYMBOL).
  { eapply view_modify_account; [|exact H]. intros b w Hw. unfold adjust_btcm in Hw. by apply bind_Ok in Hw as (s & _ & [= <-]). }
  destruct (_ =? XUSD_SYMBOL).
  - unfold adjust_mbd in H. step H. step H as acnt Eg. step H as r Ea. step H as [] Ep. rename x into d1.
    assert (view_of d1 = view_of d /\ accounts d1 = accounts d) as [<- Eac].
    { destruct r.2; [|by apply st_ret_Ok in Ep as [_ ->]]. apply modify_dgpo_Ok in Ep as (q & Hq & ->).
      unfold pay_interest in Hq. run_inv. done. }
    step H as b Eb. apply modify_Ok in H as (a0 & w & Ha & [= <-] & ->).
    apply (view_account d1 a acnt); [by unfold get_opt, tbl; cbn; rewrite Eac|]. destruct r as [r1 r2]. apply accrue_view in Ea. by destruct r1.
  - unfold adjust_user_asset, find_balance in H. destruct (_ =? 0); [by apply st_ret_Ok in H as [_ ->]|]. step H.
    destruct (lookup_where _ d) as [[i b]|]; [|by state_inv].
    step H as [] E. assert (x = d) as -> by (destruct (amount delta <? 0); by state_inv). by state_inv.
Qed.

Lemma view_supply delta d u d' : adjust_supply delta false d = Ok (u, d') -> view_of d' = view_of d.
Proof.
  intros H. unfold adjust_supply in H. step H. assert ((if head_block_num d <? BTCM_BLOCKS_PER_DAY * 7 then false else false) = false) as E by by destruct (_ <? _).
  rewrite E in H. destruct (_ =? BTCM_SYMBOL).
  - apply modify_dgpo_Ok in H as (p & Hp & ->). unfold adjust_supply_btcm in Hp. cbn [andb] in Hp. run_inv. asset_inv.
    unfold view_of. cbn -[account_view platform_view]. f_equal. unfold funds_view. cbn. rewrite Z.add_0_r.
    by destruct (Dgpo.total_vesting_fund_btcm (dgpo d)).
  - destruct (_ =? XUSD_SYMBOL); [|discriminate]. apply modify_dgpo_Ok in H as (p & Hp & ->). unfold adjust_supply_mbd in Hp. by run_inv.
Qed.

Lemma view_mbd i btcm d n d' : create_mbd i btcm d = Ok (n, d') -> view_of d' = view_of d.
Proof.
  intros H. unfold create_mbd in H. destruct (_ =? 0); [by apply st_ret_Ok in H as [_ ->]|]. step H. destruct (negb _).
  - step H as mbd Em. step H as [] E1. step H as n1 En. step H as [] E2. step H as [] E3. apply st_ret_Ok in H as [_ ->].
    apply view_balance in E1. apply view_supply in E2. apply view_supply in E3. congruence.
  - step H as [] E1. apply st_ret_Ok in H as [_ ->]. by apply view_balance in E1.
Qed.

(** ** What is spent *)

Lemma ids_below_supply delta v d u d' : ids_below Balance.t d -> adjust_supply delta v d = Ok (u, d') -> ids_below Balance.t d'.
Proof.
  intros Hb H. unfold adjust_supply in H. step H. destruct (_ =? BTCM_SYMBOL); [by state_inv|].
  destruct (_ =? XUSD_SYMBOL); [by state_inv|discriminate].
Qed.

Lemma ids_below_mbd i btcm d n d' : ids_below Balance.t d -> create_mbd i btcm d = Ok (n, d') -> ids_below Balance.t d'.
Proof.
  intros Hb H. unfold create_mbd in H. destruct (_ =? 0); [by apply st_ret_Ok in H as [_ ->]|]. step H. destruct (negb _).
  - step H as mbd Em. step H as [] E1. step H as n1 En. step H as [] E2. step H as [] E3. apply st_ret_Ok in H as [_ ->].
    eapply ids_below_supply, E3. eapply ids_below_supply, E2. by eapply ids_below_adjust.
  - step H as [] E1. apply st_ret_Ok in H as [_ ->]. by eapply ids_below_adjust.
Qed.

Lemma create_vesting_Ok i btcm d n d' : create_vesting i btcm d = Ok (n, d') ->
  exists a w p d1, asset_mul btcm (get_vesting_share_price (dgpo d)) = Ok n /\ get_opt d i = Some a /\ add_vests n a = Ok w /\
    fund_vesting btcm n (bool_decide (is_Some (lookup_where (fun p => String.eqb (Platform.owner p) (Account.name a)) d)))
      (dgpo d) = Ok p /\
    d1 = set_obj d i w <| dgpo := p |> /\ quiet d1 d' /\ view_of d' = view_of d1.
Proof.
  intros H. unfold create_vesting in H. step H. step H as m Hm. apply st_bind_Ok in H as (u1 & d1 & H1 & H).
  apply modify_Ok in H1 as (a & w & Ha & Hw & ->). step H as to Hto. unfold find_streaming_platform in H. step H as sp Hsp.
  apply st_bind_Ok in H as (u3 & d3 & H3 & H). apply modify_dgpo_Ok in H3 as (p & Hp & ->).
  step H as [] H4. step H as [] H5. apply st_ret_Ok in H as [-> ->].
  rewrite get_set_obj, decide_True in Hto by done. injection Hto as <-.
  exists a, w, p, (set_obj d i w <| dgpo := p |>). split; [done|]. split; [done|]. split; [done|]. split.
  { unfold add_vests in Hw. apply bind_Ok in Hw as (v & _ & Hv). set (w' := a <| Account.vesting_shares := v |>) in Hv.
    injection Hv as <-. exact Hp. }
  split; [done|]. split; [etransitivity; [by eapply quiet_votes|by eapply quiet_score]|].
  rewrite (view_score _ _ _ _ _ H5). by rewrite (view_votes _ _ _ _ _ H4).
Qed.

Lemma ids_below_vesting i btcm d n d' : ids_below Balance.t d -> create_vesting i btcm d = Ok (n, d') -> ids_below Balance.t d'.
Proof.
  intros Hb (a & w & p & d1 & _ & _ & _ & _ & -> & Hq & _)%create_vesting_Ok. destruct Hq as [_ _ ->]. exact Hb.
Qed.

(** [x] BTCM more are held, out of what the supply already counts. *)
Definition spent (x : Z) (d d' : database) : Prop :=
  (ids_below Balance.t d -> ids_below Balance.t d') /\
  (ids_below Balance.t d -> forall id, gap id d' = gap id d - (if id =? BTCM_SYMBOL then x else 0)).

Lemma spent_0 d : spent 0 d d.
Proof. split; [done|]. intros _ id. destruct (_ =? _); lia. Qed.

Lemma spent_trans x y z d1 d2 d3 : spent x d1 d2 -> spent y d2 d3 -> z = x + y -> spent z d1 d3.
Proof.
  intros [I1 G1] [I2 G2] ->. split; [auto|]. intros Hb id. rewrite G2, G1 by auto. destruct (_ =? _); lia.
Qed.

Lemma spent_vesting i btcm d n d' : create_vesting i btcm d = Ok (n, d') -> spent (amount btcm) d d'.
Proof.
  intros H. split; [intros; by eapply ids_below_vesting|]. intros _ id. by rewrite (create_vesting_gap _ _ _ _ _ _ H).
Qed.

Lemma spent_mbd i btcm d n d' : asset_id btcm = BTCM_SYMBOL -> create_mbd i btcm d = Ok (n, d') -> spent (amount btcm) d d'.
Proof.
  intros Hs H. split; [intros; by eapply ids_below_mbd|]. intros Hb id.
  apply (gap_create_mbd i btcm d n); [by apply ids_below_fresh|done|done].
Qed.

(** ** Payments to contents and platforms *)

Definition held_content (c : Content.t) : Z :=
  amount (Content.accumulated_balance_master c) + amount (Content.accumulated_balance_comp c).

Lemma gap_set_content d i (c w : Content.t) id : get_opt d i = Some c ->
  gap id (set_obj d i w) = gap id d - (if id =? BTCM_SYMBOL then held_content w - held_content c else 0).
Proof.
  intros H. unfold gap, held_btcm. rewrite (total_set_obj (V:=Content.t) _ d i c w H). fold (held_content c) (held_content w).
  change (dgpo (set_obj d i w)) with (dgpo d). change (held_mbd (set_obj d i w)) with (held_mbd d).
  change (held_vests (set_obj d i w)) with (held_vests d). change (user_supply id (set_obj d i w)) with (user_supply id d).
  change (held_user id (set_obj d i w)) with (held_user id d).
  change (total (V:=ConvertRequest.t) ?f (set_obj d i w)) with (total (V:=ConvertRequest.t) f d).
  change (total (V:=LimitOrder.t) ?f (set_obj d i w)) with (total (V:=LimitOrder.t) f d).
  change (total (V:=ClaimBalance.t) ?f (set_obj d i w)) with (total (V:=ClaimBalance.t) f d).
  change (total (V:=Account.t) ?f (set_obj d i w)) with (total (V:=Account.t) f d).
  destruct (id =? BTCM_SYMBOL); [lia|]. repeat case_match; lia.
Qed.

(** What the two sides of a content have in common. *)
Record side_ok (s : side) : Prop := {
  set_held : forall a c, held_content (set_accumulated s a c) = held_content c + amount a - amount (accumulated s c);
  set_reward : forall a c, Content.playing_reward (set_accumulated s a c) = Content.playing_reward c
}.
Lemma master_ok : side_ok master.
Proof. split; intros a []; unfold held_content; cbn; lia. Qed.
Lemma comp_ok : side_ok comp.
Proof. split; intros a []; unfold held_content; cbn; lia. Qed.

(** The result of a payment: what was spent, and what it left alone. *)
Definition paid_out (x : Z) (d d' : database) : Prop := spent x d d' /\ view_of d' = view_of d.

Lemma paid_trans x y z d1 d2 d3 : paid_out x d1 d2 -> paid_out y d2 d3 -> z = x + y -> paid_out z d1 d3.
Proof. intros [S1 V1] [S2 V2] E. split; [by eapply spent_trans|congruence]. Qed.

Lemma paid_0 d : paid_out 0 d d.
Proof. split; [apply spent_0|done]. Qed.

Lemma paid_content s d i c a : side_ok s -> get_opt d i = Some c ->
  paid_out (amount a - amount (accumulated s c)) d (set_obj d i (set_accumulated s a c)).
Proof.
  intros Hs Hc. split; [split; [done|]; intros _ id; rewrite (gap_set_content _ _ c) by done; rewrite set_held by done|].
  - destruct (id =? BTCM_SYMBOL); lia.
  - apply (view_content _ _ c); [done|]. by apply set_reward.
Qed.

Context {BOk : BoostMPOk}.

(** Nothing is bought for nothing, at a price that is defined. *)
Definition priced (d : database) : Prop :=
  dg_ok (dgpo d) /\ 0 < vests (dgpo d) /\ 0 < fund (dgpo d).

Lemma priced_view d d' : view_of d' = view_of d -> priced d -> priced d'.
Proof.
  intros E. unfold priced. apply (f_equal v_funds) in E. cbn in E. unfold funds_view in E. injection E as E1 E2 _.
  intros ([A1 A2 A3 A4] & Hv & Hf). unfold vests, fund in *. rewrite E1, E2. split; [|done]. split; unfold fund, vests in *; by rewrite ?E1, ?E2.
Qed.

Lemma vesting_0 i d n d' : priced d -> create_vesting i (Asset 0 BTCM_SYMBOL) d = Ok (n, d') -> paid_out 0 d d'.
Proof.
  intros (Hd & Hv & Hf) H. split; [by apply (spent_vesting _ _ _ _ _ H)|].
  destruct (create_vesting_worth i 0 d n d' Hd Hv Hf ltac:(unfold amount_ok, int64_max; lia) H) as (-> & _).
  destruct (create_vesting_Ok _ _ _ _ _ H) as (a & w & p & d1 & _ & Ha & Hw & Hp & -> & _ & ->).
  rewrite Z.mul_0_l, Z.div_0_l in * by lia. change (i64 0) with 0 in *.
  unfold add_vests in Hw. run_inv. apply AssetLemmas.asset_add_Ok in H0 as [_ ->]. unfold fund_vesting in Hp.
  apply bind_Ok in Hp as (f & Hfa & Hp). apply bind_Ok in Hp as (v & Hva & Hp). apply bind_Ok in Hp as (x & Hx & [= <-]).
  apply AssetLemmas.asset_add_Ok in Hfa as [_ ->]. apply AssetLemmas.asset_add_Ok in Hva as [_ ->].
  unfold view_of. cbn -[account_view platform_view funds_view]. f_equal.
  - apply (fmap_set account_view _ _ a); [done|]. unfold account_view. cbn. by rewrite Z.add_0_r.
  - assert (x = Dgpo.total_vested_by_platforms (dgpo d)) as ->.
    { destruct (bool_decide _); [apply Safe.add_Ok in Hx as ->; cbn; lia|by injection Hx as <-]. }
    unfold funds_view. cbn. rewrite !Z.add_0_r. by destruct (Dgpo.total_vesting_fund_btcm (dgpo d)), (Dgpo.total_vesting_shares (dgpo d)).
Qed.

Lemma pay_author_Ok to_pay di t d t' d' : priced d -> asset_id to_pay = BTCM_SYMBOL -> asset_id t = BTCM_SYMBOL ->
  pay_author to_pay di t d = Ok (t', d') ->
  asset_id t' = BTCM_SYMBOL /\ paid_out (amount t' - amount t) d d' /\ contents d' = contents d.
Proof.
  intros Hp Hs Ht H. unfold pay_author in H. step H as y Ey. step H as z Ez. step H as t1 Et. rewrite Hs in *.
  step H as vb Evb. step H as au Eau. step H as nv Env. step H as nm Enm. apply st_ret_Ok in H as [-> ->].
  apply AssetLemmas.asset_add_Ok in Et as [_ ->]. apply AssetLemmas.asset_sub_Ok in Evb as [_ ->]. cbn [amount asset_id] in *.
  rewrite Z.sub_diag in Env. split; [done|]. split.
  - eapply (paid_trans 0 z); [by eapply vesting_0| |lia]. split; [by apply (spent_mbd au.1 (Asset z BTCM_SYMBOL) x nm x0)|by eapply view_mbd].
  - apply (create_mbd_frame (fun d => contents d)) in Enm; [|done]. rewrite Enm.
    apply create_vesting_Ok in Env as (a & w & p & d1 & _ & _ & _ & _ & -> & Hq & _). by destruct Hq as [_ _ ->].
Qed.

Lemma pay_authors_Ok to_pay l t d t' d' : priced d -> asset_id to_pay = BTCM_SYMBOL -> asset_id t = BTCM_SYMBOL ->
  pay_authors to_pay l t d = Ok (t', d') ->
  asset_id t' = BTCM_SYMBOL /\ paid_out (amount t' - amount t) d d' /\ contents d' = contents d.
Proof.
  revert t d. induction l as [|di l IH]; intros t d Hp Hs Ht H; cbn [pay_authors] in H.
  { apply st_ret_Ok in H as [-> ->]. split; [done|]. split; [|done]. rewrite Z.sub_diag. apply paid_0. }
  step H as t1 E1. destruct (pay_author_Ok _ _ _ _ _ _ Hp Hs Ht E1) as (Ht1 & P1 & C1).
  apply IH in H as (Ht' & P2 & C2); [|by eapply priced_view; [apply P1|]|done|done].
  split; [done|]. split; [eapply paid_trans; [exact P1|exact P2|lia]|congruence].
Qed.

Lemma pay_side_Ok s co payout d u d' : side_ok s -> priced d -> asset_id payout = BTCM_SYMBOL ->
  pay_side s co payout d = Ok (u, d') -> paid_out (amount payout) d d'.
Proof.
  intros Hs Hp Hb H. unfold pay_side in H. step H as c Ec. destruct (_ =? 0)%nat.
  { apply modify_Ok in H as (c' & w & Ec' & Hw & ->). rewrite Ec in Ec'. injection Ec' as <-.
    apply bind_Ok in Hw as (a & Ha & [= <-]). apply AssetLemmas.asset_add_Ok in Ha as [_ ->].
    pose proof (paid_content s d co c (Asset (amount (accumulated s c) + amount payout) (asset_id (accumulated s c))) Hs Ec) as P.
    cbn [amount] in P. by replace (amount (accumulated s c) + amount payout - amount (accumulated s c)) with (amount payout) in P by lia. }
  step H as tp Etp. apply AssetLemmas.asset_add_Ok in Etp as [Ei ->]. step H as tot Etot. cbn [amount asset_id] in *. rewrite Hb in *.
  apply pay_authors_Ok in Etot as (It & P1 & C1); [|done..]. cbn [amount] in P1.
  step H as bb Ebb. step H as tp' Etp'. apply AssetLemmas.asset_sub_Ok in Etp' as [_ ->]. cbn [amount asset_id] in *.
  step H as c2 Ec2. assert (get_opt x co = Some c) as Eqc by by (unfold get_opt, tbl; cbn; rewrite C1).
  rewrite Eqc in Ec2. injection Ec2 as <-.
  set (a := Asset _ BTCM_SYMBOL) in H.
  assert (x = d' /\ a = accumulated s c \/ d' = set_obj x co (set_accumulated s a c)) as [[<- Ea]| ->].
  { destruct (asset_eqb (accumulated s c) a) eqn:Ee; cbn [negb] in H.
    - apply st_ret_Ok in H as [_ ->]. left. split; [done|]. unfold asset_eqb in Ee. apply andb_true_iff in Ee as [E1%Z.eqb_eq E2%Z.eqb_eq].
      destruct (accumulated s c), a. cbn in *. congruence.
    - right. unfold modify_pure in H. apply modify_Ok in H as (c' & w & Ec' & [= <-] & ->). rewrite Eqc in Ec'. by injection Ec' as <-. }
  - apply (f_equal amount) in Ea. unfold a in Ea. cbn in Ea. replace (amount payout) with (amount tot - 0) by lia. exact P1.
  - eapply paid_trans; [exact P1|by apply paid_content|]. unfold a. cbn. lia.
Qed.

Lemma percent_of_Ok a p r : percent_of a p = Ok r -> r = Asset (Z.quot (amount a * p) BTCM_100_PERCENT) (asset_id a).
Proof.
  unfold percent_of. intros H. apply bind_Ok in H as (x & Hx & H). apply bind_Ok in H as (y & Hy & [= <-]).
  apply Safe.mul_Ok in Hx as ->. by apply Safe.div_Ok in Hy as [_ ->].
Qed.
End Views.
End RewardFacts.
