(* ===== verification/CashoutFacts.v ===== *)
(** * Facts about the payout of a block

    What a report earns is within what a block pays for an hour, so that no part
    of it is negative; the payout of the reports, the producer's reward, inflation
    and the conversions that fall due add up. *)

From S2P Require Import Prelude.
From S2P Require Import SafeInt.
From S2P Require Import Uint128.
From S2P Require Import Uint128Facts.
From S2P Require Import Asset.
From S2P Require Import AssetFacts.
From S2P Require Import UndoDatabase.
From S2P Require Import Authority.
From S2P Require Import State.
From S2P Require Import Sample.
From S2P Require Import Balance.
From S2P Require Import BalanceFacts.
From S2P Require Import Votes.
From S2P Require Import Social.
From S2P Require Import Vesting.
From S2P Require Import VestingFacts.
From S2P Require Import Streaming.
From S2P Require Import Rewards.
From S2P Require Import RewardFacts.

Module CashoutFacts.
Import AssetOps Balances Votes Social Vesting Quiet Supply AssetFacts VestingFacts Streaming Rewards RewardFacts.

(** ** States in which reports can be paid *)

Definition stake (l : listening) : Z := vested l + received l - delegated l.

(** The time that a report is measured by: its listener's, on the platform that played. *)
Inductive listened (v : view) (r : Report.t) : Z -> Prop :=
  | by_account a l t : Report.consumer r = Some a -> v_accounts v !! a = Some l ->
      times l !! spinner_of r = Some t -> listened v r t
  | by_user u i x : Report.consumer r = None -> Report.sp_user_id r = Some u -> v_users v !! i = Some x ->
      PlatformUser.streaming_platform x = spinner_of r -> PlatformUser.sp_user_id x = u ->
      listened v r (PlatformUser.total_listening_time x)
  | anonymously p : Report.consumer r = None -> Report.sp_user_id r = None ->
      v_platforms v !! spinner_of r = Some p -> listened v r (Platform.total_anon_listening_time p).

Definition report_ok (v : view) (r : Report.t) : Prop :=
  0 <= Report.play_time r < 2 ^ 32 /\
  (forall pct, Report.reward_pct r = Some pct -> 0 <= pct <= BTCM_100_PERCENT) /\
  (forall t, listened v r t -> Report.play_time r <= t < 2 ^ 64).

(** [T] is what the block pays for a day of contents. *)
Record view_ok (T : Z) (v : view) : Prop := {
  some_fund : 0 < amount v.(v_funds).1.1 <= int64_max;
  some_vests : 0 < amount v.(v_funds).1.2 <= int64_max;
  funds_symbols : asset_id v.(v_funds).1.1 = BTCM_SYMBOL /\ asset_id v.(v_funds).1.2 = VESTS_SYMBOL;
  price_bound : 3600 * T * amount v.(v_funds).1.2 <= int64_max * amount v.(v_funds).1.1;
  total_bound : v.(v_funds).2 <= int64_max;
  stakes_ok : forall i j l p, v_accounts v !! i = Some l -> v_platforms v !! j = Some p -> who l = Platform.owner p ->
    0 <= stake l <= v.(v_funds).2;
  contents_ok : forall i x, v_contents v !! i = Some x -> 0 <= x <= BTCM_100_PERCENT;
  reports_ok : forall i r, v_reports v !! i = Some r -> report_ok v r
}.

Definition payable (T : Z) (d : database) : Prop := 0 <= T /\ 3600 * T <= int64_max /\ view_ok T (view_of d).

Lemma view_account_lookup d i a : get_opt d i = Some a -> v_accounts (view_of d) !! i = Some (account_view a).
Proof. intros H. cbn -[account_view]. rewrite lookup_fmap. unfold get_opt, tbl in H. cbn in H. by rewrite H. Qed.
Lemma view_platform_lookup d i p : get_opt d i = Some p -> v_platforms (view_of d) !! i = Some (platform_view p).
Proof. intros H. cbn -[platform_view]. rewrite lookup_fmap. unfold get_opt, tbl in H. cbn in H. by rewrite H. Qed.
Lemma view_content_lookup d i (c : Content.t) : get_opt d i = Some c ->
  v_contents (view_of d) !! i = Some (Content.playing_reward c).
Proof. intros H. cbn. rewrite lookup_fmap. unfold get_opt, tbl in H. cbn in H. by rewrite H. Qed.

Lemma flat_find_elem {V} k (v : V) m : Flat.find Z.ltb k m = Some v -> (k, v) ∈ m.
Proof.
  induction m as [|[y w] m IH]; cbn; [done|]. destruct (_ && _) eqn:E; intros H; [|set_solver].
  injection H as ->. assert (k = y) as -> by lia. set_solver.
Qed.

Lemma flat_set_elem {V} k (v : V) m x : x ∈ Flat.set Z.ltb k v m -> x = (k, v) \/ x ∈ m.
Proof.
  induction m as [|[y w] m IH]; cbn; [set_solver|]. destruct (k <? y); [set_solver|]. destruct (y <? k); set_solver.
Qed.

Section Payout.
Context {B : BoostMP} {BOk : BoostMPOk}.

Lemma payable_priced T d : payable T d -> priced d.
Proof.
  intros (HT & _ & [H1 H2 H3 _ _ _ _ _]). unfold priced, fund, vests. cbn in *. split; [|lia].
  unfold int64_max in *. split; unfold fund, vests, is_int64, int64_min, int64_max; first [apply H3|lia].
Qed.

(** ** What a report earns *)

Lemma of_int64_small x : 0 <= x <= int64_max -> Uint128.val (Uint128.of_int64 x) = x.
Proof.
  unfold int64_max. intros. rewrite Uint128.of_int64_val by (unfold is_int64, int64_min, int64_max; lia).
  by rewrite Z.mod_small by lia.
Qed.

Lemma uint_small x : 0 <= x < 2 ^ 64 -> Uint128.wf (U128 0 (u64 x)) /\ Uint128.val (U128 0 (u64 x)) = x.
Proof. intros H. unfold Uint128.wf, Uint128.val, wrap; cbn [hi lo]. rewrite Z.mod_small by lia. lia. Qed.

(** A step of the computation cannot exceed the same step without wrapping. *)
Lemma mul_le a b x y : Uint128.wf a -> Uint128.wf b -> Uint128.val a <= x -> Uint128.val b <= y ->
  Uint128.wf (Uint128.mul a b) /\ 0 <= Uint128.val (Uint128.mul a b) <= x * y.
Proof.
  intros Ha Hb Hx Hy. destruct (Uint128.mul_correct a b Ha Hb) as [Hw ->]. split; [done|].
  pose proof (Uint128.wf_bound a Ha). pose proof (Uint128.wf_bound b Hb).
  pose proof (Z.mod_pos_bound (Uint128.val a * Uint128.val b) (2 ^ 128)).
  pose proof (Z.mod_le (Uint128.val a * Uint128.val b) (2 ^ 128)). nia.
Qed.

Lemma div_le a b r x : Uint128.wf a -> Uint128.wf b -> Uint128.val a <= x -> Uint128.div a b = Ok r ->
  Uint128.wf r /\ 1 <= Uint128.val b /\ 0 <= Uint128.val r <= x / Uint128.val b.
Proof.
  intros Ha Hb Hx H. pose proof (Uint128.wf_bound a Ha). pose proof (Uint128.wf_bound b Hb).
  destruct (Z.eq_dec (Uint128.val b) 0) as [E|E]; [by rewrite (Uint128Facts.div_zero a b Ha Hb E) in H|].
  destruct (Uint128Facts.div_correct a b Ha Hb E) as (q & Eq & Hq & Hval). rewrite Eq in H. injection H as <-.
  rewrite Hval. split; [done|]. split; [lia|]. split; [apply Z.div_pos; lia|apply Z.div_le_mono; lia].
Qed.

Lemma stake_Ok a x : get_vesting_stake a = Ok x -> x = stake (account_view a).
Proof.
  unfold get_vesting_stake, stake. intros H. apply bind_Ok in H as (s & Hs & H). apply Safe.add_Ok in Hs as ->.
  apply Safe.sub_Ok in H as ->. done.
Qed.

Lemma report_bound T v p total_payout a sp r pt t : view_ok T v -> v_funds v = funds_view p ->
  0 <= pt < 2 ^ 32 -> 0 <= t < 2 ^ 64 -> (t <> 0 -> pt <= t) -> amount total_payout = T -> 0 <= T -> 3600 * T <= int64_max ->
  0 <= stake (account_view a) <= Dgpo.total_vested_by_platforms p ->
  calculate_report_reward p total_payout pt a sp t = Ok r -> asset_id r = asset_id total_payout /\ 0 <= amount r <= 3600 * T.
Proof.
  intros Hv Hp Hpt Ht Htp ET HT0 HT2 Hst H. assert (0 <= T <= int64_max) as HT by lia. unfold calculate_report_reward in H. apply bind_Ok in H as (s & Hs & H).
  apply stake_Ok in Hs. rewrite ET in H. pose proof (total_bound T v Hv) as Htv. rewrite Hp in Htv. cbn in Htv.
  destruct (_ || _) eqn:E0; [injection H as <-; cbn; lia|]. apply orb_false_iff in E0 as [Es ETz].
  apply Z.eqb_neq in Es, ETz. rewrite <-Hs in Hst. set (tv := Dgpo.total_vested_by_platforms p) in *.
  apply bind_Ok in H as (u & _ & H). apply bind_Ok in H as (r1 & H1 & H). apply bind_Ok in H as (r2 & H2 & H).
  apply bind_Ok in H as (r3 & H3 & H). apply bind_Ok in H as (x & Hx & [= <-]). cbn [asset_id amount]. split; [done|].
  pose proof (Uint128.of_int64_wf T) as W1. pose proof (of_int64_small T HT) as V1.
  assert (Uint128.wf (Uint128.of_uint32 pt) /\ Uint128.val (Uint128.of_uint32 pt) = pt) as [W2 V2].
  { unfold Uint128.of_uint32, Uint128.wf, Uint128.val, wrap; cbn [hi lo]. rewrite Z.mod_small by lia. lia. }
  pose proof (Uint128.of_int64_wf s) as W3. pose proof (of_int64_small s ltac:(lia)) as V3.
  pose proof (Uint128.of_int64_wf tv) as W4. pose proof (of_int64_small tv ltac:(lia)) as V4.
  destruct (uint_small (Z.min t 3600)) as [W5 V5]; [lia|]. destruct (uint_small t) as [W6 V6]; [lia|].
  destruct (mul_le _ _ T pt W1 W2) as [W7 V7]; [lia..|]. destruct (mul_le _ _ (T * pt) s W7 W3) as [W8 V8]; [lia..|].
  destruct (div_le _ _ r1 _ W8 W4 (proj2 V8) H1) as (W9 & _ & V9). rewrite V4 in V9.
  assert (T * pt * s / tv <= T * pt) by (apply Z.div_le_upper_bound; nia).
  destruct (mul_le r1 _ (T * pt) 3600 W9 W5) as [W10 V10]; [lia..| rewrite V5; lia|].
  assert (Uint128.wf (Uint128.of_uint32 (Platform.full_users_time sp))) as W11.
  { unfold Uint128.of_uint32, Uint128.wf, wrap; cbn [hi lo].
    pose proof (Z.mod_pos_bound (Platform.full_users_time sp) (2 ^ 32)). lia. }
  destruct (div_le _ _ r2 _ W10 W11 (proj2 V10) H2) as (W12 & Hf & V12).
  assert (T * pt * 3600 / Uint128.val (Uint128.of_uint32 (Platform.full_users_time sp)) <= T * pt * 3600).
  { apply Z.div_le_upper_bound; [lia|]. nia. }
  destruct (div_le _ _ r3 (T * pt * 3600) W12 W6 ltac:(lia) H3) as (W13 & Hf2 & V13).
  rewrite V6 in V13, Hf2. specialize (Htp ltac:(lia)).
  assert (T * pt * 3600 / t <= 3600 * T) by (apply Z.div_le_upper_bound; nia).
  unfold Uint128.to_uint64 in Hx. apply bind_Ok in Hx as (u2 & Hhi & [= <-]). apply fc_assert_Ok in Hhi.
  apply Z.eqb_eq in Hhi. assert (lo r3 = Uint128.val r3) as -> by (unfold Uint128.val; lia).
  rewrite i64_small by lia. lia.
Qed.
(** ** What payments keep *)

Lemma add_bound a b c : a <= int64_max -> b <= int64_max -> Safe.add a b = Ok c -> c <= int64_max.
Proof.
  unfold Safe.add, Safe.max, int64_max. intros Ha Hb H.
  destruct (_ && _) eqn:E in H; [done|]. destruct (_ && _) in H; [done|]. injection H as <-. lia.
Qed.

Lemma asset_add_bound a b c : amount a <= int64_max -> amount b <= int64_max -> asset_add a b = Ok c -> amount c <= int64_max.
Proof. unfold asset_add. intros Ha Hb H. run_inv. cbn. eapply add_bound; [exact Ha|exact Hb|eassumption]. Qed.

(** What no payment changes: names and times, platforms, users and contents. *)
Definition fixed (v : view) : gmap Z (string * gmap Z Z) * gmap Z Platform.t * gmap Z PlatformUser.t * gmap Z Z :=
  ((fun l => (who l, times l)) <$> v_accounts v, v_platforms v, v_users v, v_contents v).

Lemma report_ok_fixed v v' r : fixed v' = fixed v -> report_ok v r -> report_ok v' r.
Proof.
  unfold fixed. intros E (H1 & H2 & H3). injection E as E1 E2 E3 _. split; [done|]. split; [done|].
  intros t Ht. apply H3. destruct Ht as [a l t Hc Ha Ht|u i x Hc Hu Hx Hs Hi|p Hc Hu Hp].
  - apply (f_equal (lookup a)) in E1. rewrite !lookup_fmap, Ha in E1. cbn in E1.
    destruct (v_accounts v !! a) as [l'|] eqn:Ea; [|done]. cbn in E1. injection E1 as E1' E1.
    eapply by_account; [done..|]. congruence.
  - eapply by_user; [done..| |done|done]. by rewrite <-E3.
  - eapply anonymously; [done..|]. by rewrite <-E2.
Qed.

(** [x] BTCM were paid, and payments can go on. *)
Definition pays (T x : Z) (d d' : database) : Prop :=
  payable T d' /\ spent x d d' /\ fixed (view_of d') = fixed (view_of d) /\ v_reports (view_of d') = v_reports (view_of d).

Lemma pays_trans T x y z d1 d2 d3 : pays T x d1 d2 -> pays T y d2 d3 -> z = x + y -> pays T z d1 d3.
Proof.
  intros (_ & S1 & F1 & R1) (P & S2 & F2 & R2) E. split; [done|]. split; [by eapply spent_trans|]. split; congruence.
Qed.

Lemma pays_0 T d : payable T d -> pays T 0 d d.
Proof. intros. split; [done|]. split; [apply spent_0|done]. Qed.

Lemma paid_pays T x d d' : payable T d -> paid_out x d d' -> pays T x d d'.
Proof. intros (H1 & H2 & H3) [Hs Hv]. unfold pays, payable. by rewrite Hv. Qed.

Lemma view_vesting d i w p : view_of (set_obj d i w <| dgpo := p |>) =
  View (<[i := account_view w]> (v_accounts (view_of d))) (v_platforms (view_of d)) (v_reports (view_of d))
    (v_users (view_of d)) (v_contents (view_of d)) (funds_view p).
Proof. unfold view_of. cbn -[account_view platform_view funds_view]. by rewrite fmap_insert. Qed.

(** An account gets [q] shares, which are paid for. *)
Lemma view_ok_vesting T v i l q x f s : view_ok T v -> v_accounts v !! i = Some l -> 0 <= q ->
  f.1.1 = Asset (amount v.(v_funds).1.1 + x) BTCM_SYMBOL -> f.1.2 = Asset (amount v.(v_funds).1.2 + q) VESTS_SYMBOL ->
  0 <= x -> amount f.1.1 <= int64_max -> amount f.1.2 <= int64_max -> f.2 <= int64_max ->
  amount v.(v_funds).1.1 * amount f.1.2 <= amount f.1.1 * amount v.(v_funds).1.2 ->
  f.2 = v.(v_funds).2 + (if s : bool then q else 0) ->
  (s = false -> forall j p, v_platforms v !! j = Some p -> who l <> Platform.owner p) ->
  fixed (View (<[i := Listening (who l) (vested l + q) (received l) (delegated l) (times l)]> (v_accounts v))
           (v_platforms v) (v_reports v) (v_users v) (v_contents v) f) = fixed v /\
  view_ok T (View (<[i := Listening (who l) (vested l + q) (received l) (delegated l) (times l)]> (v_accounts v))
           (v_platforms v) (v_reports v) (v_users v) (v_contents v) f).
Proof.
  intros HV Hl Hq Ef Ev Hx Bf Bv Bt Hw Et Hs. set (v' := View _ _ _ _ _ _).
  assert (fixed v' = fixed v) as F.
  { unfold fixed, v'. cbn. by rewrite (fmap_set (fun l => (who l, times l)) _ i l). }
  split; [done|]. destruct HV as [V1 V2 V3 V4 V5 V6 V7 V8].
  assert (amount f.1.1 = amount (v_funds v).1.1 + x) as Af by (by rewrite Ef).
  assert (amount f.1.2 = amount (v_funds v).1.2 + q) as Av by (by rewrite Ev).
  constructor; cbn [v' v_funds v_accounts v_platforms v_contents v_reports].
  1, 2: lia.
  - by rewrite Ef, Ev.
  - set (F1 := amount f.1.1) in *. set (W1 := amount f.1.2) in *. set (F0 := amount (v_funds v).1.1) in *.
    set (W0 := amount (v_funds v).1.2) in *. unfold int64_max in *. nia.
  - done.
  - intros j k m p Hm Hp E. assert (v_platforms v !! k = Some p) as Hp' by exact Hp. clear Hp.
    destruct (decide (j = i)) as [->|Hj].
    + rewrite lookup_insert_eq in Hm. injection Hm as <-. cbn in E. specialize (V6 i k l p Hl Hp' E). unfold stake in *. cbn.
      destruct s; [lia|]. by destruct (Hs eq_refl k p).
    + rewrite lookup_insert_ne in Hm by done. specialize (V6 j k m p Hm Hp' E). destruct s; lia.
  - exact V7.
  - intros k r Hr. eapply report_ok_fixed; [exact F|]. by eapply V8.
Qed.

Lemma pays_vesting T i btcm d n d' : payable T d -> asset_id btcm = BTCM_SYMBOL -> 0 <= amount btcm <= 3600 * T ->
  create_vesting i btcm d = Ok (n, d') -> pays T (amount btcm) d d'.
Proof.
  intros HP Hb Hc H. pose proof (payable_priced _ _ HP) as (Hd & Hv & Hf). destruct HP as (HT & HT2 & HV).
  destruct btcm as [c id]. cbn in Hb, Hc |- *. subst id.
  destruct (create_vesting_worth i c d n d' Hd Hv Hf ltac:(unfold amount_ok; lia) H) as (En & Ev & Ef & Hw).
  set (q := c * vests (dgpo d) / fund (dgpo d)) in *.
  pose proof (price_bound T _ HV) as HB. cbn in HB. fold (vests (dgpo d)) (fund (dgpo d)) in HB.
  assert (0 <= q <= int64_max) as Hq.
  { split; [apply Z.div_pos; nia|]. apply Z.div_le_upper_bound; nia. }
  rewrite i64_small in * by done. pose proof (spent_vesting _ _ _ _ _ H) as Hs.
  destruct (create_vesting_Ok _ _ _ _ _ H) as (a & w & p & d1 & _ & Ha & Hw' & Hp & -> & _ & EV).
  rewrite view_vesting in EV. unfold add_vests in Hw'. apply bind_Ok in Hw' as (av & Hav & Hw').
  apply AssetLemmas.asset_add_Ok in Hav as [_ ->]. injection Hw' as <-. subst n. cbn [amount asset_id] in *.
  unfold fund_vesting in Hp. set (s := bool_decide _) in Hp.
  apply bind_Ok in Hp as (f & Hfa & Hp). apply bind_Ok in Hp as (v & Hva & Hp). apply bind_Ok in Hp as (x & Hx & [= <-]).
  pose proof (asset_add_bound _ (Asset c BTCM_SYMBOL) _ (proj2 (some_fund T _ HV)) ltac:(cbn; lia) Hfa) as Bf.
  pose proof (asset_add_bound _ (Asset q VESTS_SYMBOL) _ (proj2 (some_vests T _ HV)) ltac:(cbn; lia) Hva) as Bv.
  apply AssetLemmas.asset_add_Ok in Hfa as [_ ->]. apply AssetLemmas.asset_add_Ok in Hva as [_ ->]. cbn [amount asset_id] in *.
  pose proof (funds_symbols T _ HV) as [S1 S2]. cbn in S1, S2. rewrite S1, S2 in *.
  assert (x = Dgpo.total_vested_by_platforms (dgpo d) + (if s then q else 0) /\ x <= int64_max) as [Ex Bx].
  { destruct s; [pose proof (add_bound _ _ _ (total_bound T _ HV) (proj2 Hq) Hx); apply Safe.add_Ok in Hx as ->; split; [done|lia]|].
    injection Hx as <-. split; [lia|exact (total_bound T _ HV)]. }
  pose proof (view_account_lookup d i a Ha) as Hl.
  destruct (view_ok_vesting T (view_of d) i (account_view a) q c
    (Asset (fund (dgpo d) + c) BTCM_SYMBOL, Asset (vests (dgpo d) + q) VESTS_SYMBOL, x) s) as [F HV']; cbn; try done; try lia.
  - rewrite Ev, Ef in Hw. unfold fund, vests in *. lia.
  - intros Hn j pp Hpp Heq. apply bool_decide_eq_false in Hn. apply Hn. rewrite lookup_fmap in Hpp.
    destruct (indices (platforms d) !! j) as [p0|] eqn:Ep; [|done]. injection Hpp as <-.
    destruct (lookup_where _ _) as [|] eqn:El; [eauto|]. exfalso. eapply (lookup_where_None (V:=Platform.t)) in El; [|exact Ep].
    cbn in Heq. by rewrite Heq, String.eqb_refl in El.
  - unfold pays, payable. rewrite EV. split_and!; try done.
Qed.
(** ** Paying contents and platforms *)

Lemma pay_to_platform_Ok T i payout d u d' : payable T d -> asset_id payout = BTCM_SYMBOL ->
  0 <= amount payout <= 3600 * T -> pay_to_platform i payout d = Ok (u, d') -> pays T (amount payout) d d'.
Proof.
  intros HP Hb Hc H. unfold pay_to_platform in H. step H as p Hp. step H as v Hv. step H as w Hw. step H as n Hn.
  unfold create_mbd in H. cbn in H. apply AssetLemmas.asset_sub_Ok in Hw as [_ ->]. rewrite Z.sub_0_r in Hn.
  apply st_ret_Ok in H as [_ ->]. by apply (pays_vesting T _ _ _ _ _ HP) in Hn.
Qed.

Lemma times_played_paid d i u d' :
  modify_pure i (fun c : Content.t => c <| Content.times_played_24 ::= fun n => u32 (n - 1) |>) d = Ok (u, d') -> paid_out 0 d d'.
Proof.
  intros H. apply modify_Ok in H as (c & w & Hc & [= <-] & ->). split; [split; [done|]; intros _ id|by apply (view_content _ _ c)].
  rewrite (gap_set_content _ _ c) by done. unfold held_content. cbn. destruct (_ =? _); lia.
Qed.

Lemma pay_to_content_Ok T i payout d r d' : payable T d -> asset_id payout = BTCM_SYMBOL -> 0 <= amount payout ->
  pay_to_content i payout d = Ok (r, d') ->
  asset_id r = BTCM_SYMBOL /\ 0 <= amount r <= amount payout /\ pays T (amount r) d d'.
Proof.
  intros HP Hb Hc H. pose proof (payable_priced _ _ HP) as Hpr. unfold pay_to_content in H. step H as c Ec.
  assert (0 <= Content.playing_reward c <= BTCM_100_PERCENT) as Hr.
  { destruct HP as (_ & _ & HV). eapply contents_ok; [exact HV|]. by apply view_content_lookup. }
  step H as pr Ep. apply percent_of_Ok in Ep as ->. step H as x Ex. apply Safe.sub_Ok in Ex as ->.
  step H as cr Ecr. apply percent_of_Ok in Ecr as ->. step H as mr Emr. cbn [amount asset_id] in *.
  apply AssetLemmas.asset_sub_Ok in Emr as [_ ->]. cbn [amount asset_id] in *. rewrite Hb in *.
  set (q := Z.quot (amount payout * Content.playing_reward c) BTCM_100_PERCENT) in *.
  assert (0 <= q <= amount payout) as Hq.
  { unfold q, BTCM_100_PERCENT in *. rewrite Z.quot_div_nonneg by nia. split; [apply Z.div_pos; nia|].
    apply Z.div_le_upper_bound; nia. }
  set (k := Z.quot ((amount payout - q) * Content.publishers_share c) BTCM_100_PERCENT) in *.
  step H as [] E1. step H as p1 Ep1. step H as [] E2. step H as p2 Ep2. step H as [] E3. apply st_ret_Ok in H as [-> ->].
  apply AssetLemmas.asset_add_Ok in Ep1 as [_ ->]. apply AssetLemmas.asset_add_Ok in Ep2 as [_ ->]. cbn [amount asset_id] in *.
  apply (pay_side_Ok master) in E1; [|exact master_ok|done|done].
  apply (pay_side_Ok comp) in E2; [|exact comp_ok|by eapply priced_view; [apply E1|]|done]. apply times_played_paid in E3.
  cbn [amount] in *. split; [done|]. split; [lia|]. apply paid_pays; [done|].
  eapply (paid_trans (amount payout - q - k) k); [exact E1|eapply (paid_trans k 0); [exact E2|exact E3|lia]|lia].
Qed.
Lemma pay_platforms_Ok T r w d u d' : payable T d -> asset_id w = BTCM_SYMBOL -> 0 <= amount w <= 3600 * T ->
  (forall pct, Report.reward_pct r = Some pct -> 0 <= pct <= BTCM_100_PERCENT) ->
  pay_platforms r w d = Ok (u, d') -> pays T (amount w) d d'.
Proof.
  intros HP Hb Hc Hr H. unfold pay_platforms in H. apply st_bind_Ok in H as (rest & d1 & H1 & H).
  assert (asset_id rest = BTCM_SYMBOL /\ 0 <= amount rest <= amount w /\ pays T (amount w - amount rest) d d1) as (Ib & Bb & P1).
  { destruct (Report.spinning_platform r) as [sp|]; [destruct (Report.reward_pct r) as [pct|]|].
    2, 3: apply st_ret_Ok in H1 as [-> ->]; rewrite Z.sub_diag; split_and!; [done|lia|lia|by apply pays_0].
    step H1 as y Ey. apply percent_of_Ok in Ey as ->. specialize (Hr pct eq_refl). cbn [amount asset_id] in *.
    set (q := Z.quot (amount w * pct) BTCM_100_PERCENT) in *.
    assert (0 <= q <= amount w) as Hq.
    { unfold q, BTCM_100_PERCENT in *. rewrite Z.quot_div_nonneg by nia. split; [apply Z.div_pos; nia|].
      apply Z.div_le_upper_bound; nia. }
    destruct (amount w >? q) eqn:Eq.
    - step H1 as z Ez. step H1 as [] E1. apply st_ret_Ok in H1 as [-> ->]. apply AssetLemmas.asset_sub_Ok in Ez as [_ ->].
      cbn [amount asset_id] in *. apply (pay_to_platform_Ok T) in E1; [done| |done|cbn; lia..].
      done.
    - apply st_ret_Ok in H1 as [-> ->]. cbn [amount asset_id]. replace (amount w - q) with 0 by lia. split; [done|]. split; [lia|]. by apply pays_0. }
  destruct (Z.gtb_spec (amount rest) 0).
  - apply (pay_to_platform_Ok T) in H; [|apply P1|done|lia]. eapply pays_trans; [exact P1|exact H|lia].
  - apply st_ret_Ok in H as [_ ->]. by replace (amount w - amount rest) with (amount w) in P1 by lia.
Qed.
(** ** The loop over reports *)

(** A helper is for its platform and the account that owns it. *)
Definition helper_ok (v : view) (kh : Z * sp_helper) : Prop :=
  sp kh.2 = kh.1 /\ exists l p, v_accounts v !! sp_acct kh.2 = Some l /\ v_platforms v !! kh.1 = Some p /\ who l = Platform.owner p.
Definition helpers_ok (v : view) (l : list (Z * sp_helper)) : Prop := forall kh, kh ∈ l -> helper_ok v kh.

Lemma helper_ok_fixed v v' kh : fixed v' = fixed v -> helper_ok v kh -> helper_ok v' kh.
Proof.
  unfold fixed. intros E (H & l & p & Hl & Hp & Ho). injection E as E1 E2 _ _. split; [done|].
  apply (f_equal (lookup (sp_acct kh.2))) in E1. rewrite !lookup_fmap, Hl in E1.
  destruct (v_accounts v' !! sp_acct kh.2) as [l'|]; [|done]. injection E1 as E1 _. exists l', p. rewrite E2. split_and!; congruence.
Qed.

Lemma helper_of_Ok k l d h d' : helpers_ok (view_of d) l -> helper_of k l d = Ok (h, d') ->
  d' = d /\ helper_ok (view_of d) (k, h).
Proof.
  intros Hl H. unfold helper_of in H. destruct (Flat.find Z.ltb k l) as [h'|] eqn:E.
  - apply st_ret_Ok in H as [-> ->]. split; [done|]. apply Hl. by apply flat_find_elem.
  - step H as p Hp. apply st_bind_Ok in H as ([j a] & d1 & Ha & H). apply get_account_Ok in Ha as [Ha ->].
    apply st_ret_Ok in H as [-> ->]. apply lookup_where_Some in Ha as [Ha Hn]. apply String.eqb_eq in Hn. split; [done|].
    split; [done|]. exists (account_view a), (platform_view p). cbn [fst snd sp_acct].
    split; [by apply view_account_lookup|]. split; [by apply view_platform_lookup|]. exact Hn.
Qed.

Lemma time_of_Ok r h d th d' : sp h = spinner_of r -> time_of r (spinner_of r) h d = Ok (th, d') ->
  d' = d /\ sp th.2 = sp h /\ sp_acct th.2 = sp_acct h /\ (listened (view_of d) r th.1 \/ th.1 = 0).
Proof.
  intros Hs H. unfold time_of in H. destruct (Report.consumer r) as [a|] eqn:Ec; [|destruct (Report.sp_user_id r) as [u|] eqn:Eu].
  - step H as acc Ea. step H as t Et. apply st_ret_Ok in H as [-> ->]. split_and!; try done. left.
    eapply by_account; [done|by apply view_account_lookup|]. by apply of_option_Ok in Et.
  - unfold find_user in H. apply st_bind_Ok in H as (o & d1 & Ho & H). apply find_where_Ok in Ho as [-> ->].
    destruct (lookup_where _ d) as [[i x]|] eqn:Ex; apply st_ret_Ok in H as [-> ->]; [|by split_and!; try done; right].
    apply lookup_where_Some in Ex as [Hx E]. apply andb_true_iff in E as [E1%Z.eqb_eq E2%Z.eqb_eq]. split_and!; try done. left.
    by eapply by_user.
  - step H as p Ep. apply st_ret_Ok in H as [-> ->]. split_and!; try done. left. rewrite Hs in Ep.
    pose proof (view_platform_lookup _ _ _ Ep). by eapply (anonymously _ _ (platform_view p)).
Qed.
(** A report is paid and removed. *)
Definition cashed (T x : Z) (d d' : database) : Prop :=
  payable T d' /\ spent x d d' /\ fixed (view_of d') = fixed (view_of d).

Lemma remove_report T i d u d' : payable T d -> remove (V:=Report.t) i d = Ok (u, d') -> cashed T 0 d d'.
Proof.
  intros (H1 & H2 & [V1 V2 V3 V4 V5 V6 V7 V8]) ->%remove_Ok. split; [split; [done|split; [done|]]|].
  - split; try done. intros j r Hr. cbn in Hr. apply lookup_delete_Some in Hr as [_ Hr].
    apply (report_ok_fixed (view_of d)); [done|]. by eapply V8.
  - split; [|done]. split; [done|]. intros _ id. change (gap id (upd_tbl _ d)) with (gap id d). destruct (_ =? _); lia.
Qed.

Lemma pays_cashed T x d d' : pays T x d d' -> cashed T x d d'.
Proof. by intros (? & ? & ? & _). Qed.

Lemma cashed_trans T x y z d1 d2 d3 : cashed T x d1 d2 -> cashed T y d2 d3 -> z = x + y -> cashed T z d1 d3.
Proof. intros (_ & S1 & F1) (P & S2 & F2) E. split; [done|]. split; [by eapply spent_trans|congruence]. Qed.

Lemma set_helper_ok v k h l : helpers_ok v l -> helper_ok v (k, h) -> helpers_ok v (Flat.set Z.ltb k h l).
Proof. intros Hl Hh kh Hkh. apply flat_set_elem in Hkh as [->|Hkh]; auto. Qed.

Lemma cash_report_Ok T total i r l paid l' paid' d d' : payable T d -> amount total = T -> asset_id total = BTCM_SYMBOL ->
  asset_id paid = BTCM_SYMBOL -> helpers_ok (view_of d) l -> get_opt d i = Some r ->
  cash_report total (i, r) (l, paid) d = Ok ((l', paid'), d') ->
  asset_id paid' = BTCM_SYMBOL /\ helpers_ok (view_of d') l' /\ cashed T (amount paid' - amount paid) d d' /\
  indices (reports d') = delete i (indices (reports d)).
Proof.
  intros HP ET Hb Hpb Hl Hr H. pose proof HP as (HT & HT2 & HV). unfold cash_report in H. cbn [fst snd] in H.
  assert (report_ok (view_of d) r) as (Hpt & Hpct & Hlis).
  { eapply reports_ok; [exact HV|]. exact Hr. }
  apply st_bind_Ok in H as (h & d1 & Hh & H). apply (helper_of_Ok _ _ _ _ _ Hl) in Hh as [-> Hh].
  apply st_bind_Ok in H as (th & d1 & Ht & H). apply time_of_Ok in Ht as (-> & Es & Ea & Ht); [|apply Hh].
  destruct Hh as (Hs & la & lp & Hla & Hlp & Ho). cbn [fst snd] in *.
  step H. step H as acct Hacct. step H as p Hp. step H as rr Hrr.
  pose proof (view_account_lookup _ _ _ Hacct) as Hla'. rewrite Hla in Hla'. injection Hla' as ->.
  assert (asset_id rr = BTCM_SYMBOL /\ 0 <= amount rr <= 3600 * T) as [Ib Bb].
  { rewrite <-Hb. eapply (report_bound T (view_of d) (dgpo d)); [exact HV|done|exact Hpt| | |exact ET|done|done| |exact Hrr].
    - destruct Ht as [Ht| ->]; [specialize (Hlis _ Ht)|]; lia.
    - destruct Ht as [Ht| ->]; [specialize (Hlis _ Ht)|]; lia.
    - by eapply (stakes_ok T _ HV). }
  step H as cp E1. step H as pd Epd. step H as pr Epr. step H as [] E2. step H as pd2 Epd2. step H as [] E3. pose proof E3 as R3. apply remove_Ok in R3.
  apply st_ret_Ok in H as [[= -> ->] ->].
  apply AssetLemmas.asset_add_Ok in Epd as [_ ->]. apply AssetLemmas.asset_sub_Ok in Epr as [_ ->].
  apply AssetLemmas.asset_add_Ok in Epd2 as [_ ->]. cbn [amount asset_id] in *.
  apply (pay_to_content_Ok T) in E1 as (Ic & Bc & P1); [|done|done|lia].
  apply (pay_platforms_Ok T) in E2; [|apply P1|done|cbn; lia|done]. cbn [amount] in E2.
  apply (remove_report T) in E3; [|apply E2].
  pose proof (cashed_trans _ _ _ (amount rr) _ _ _ (pays_cashed _ _ _ _ P1) (pays_cashed _ _ _ _ E2) ltac:(lia)) as P3.
  pose proof (cashed_trans _ _ _ (amount rr) _ _ _ P3 E3 ltac:(lia)) as P4.
  assert (v_reports (view_of x0) = v_reports (view_of d)) as ER by (destruct P1 as (_ & _ & _ & <-); by destruct E2 as (_ & _ & _ & <-)).
  split; [done|]. split; [|split; [by replace (amount paid + amount cp + (amount rr - amount cp) - amount paid) with (amount rr) by lia|]].
  2: { cbn in ER. by rewrite R3, <-ER. }
  apply set_helper_ok; [intros kh Hkh|]; (eapply helper_ok_fixed; [apply P4|]); [by apply Hl|].
  split; [cbn; congruence|]. exists (account_view acct), lp. cbn [fst snd]. rewrite Ea. done.
Qed.

Lemma cashout_loop_Ok T fuel now total l paid r d d' : payable T d -> amount total = T -> asset_id total = BTCM_SYMBOL ->
  asset_id paid = BTCM_SYMBOL -> helpers_ok (view_of d) l -> cashout_loop fuel now total (l, paid) d = Ok (r, d') ->
  asset_id r.2 = BTCM_SYMBOL /\ cashed T (amount r.2 - amount paid) d d'.
Proof.
  intros HP ET Hb. revert l paid d HP. induction fuel as [|fuel IH]; intros l paid d HP Hpb Hl H; cbn [cashout_loop] in H; step H;
    (destruct (in_order by_created d) as [|[i r0] rest] eqn:E;
      [|destruct (_ <=? _); [|apply st_ret_Ok in H as [-> ->]; cbn; rewrite Z.sub_diag; split; [done|apply pays_cashed; by apply pays_0]]]).
  1, 3: apply st_ret_Ok in H as [-> ->]; cbn; rewrite Z.sub_diag; split; [done|apply pays_cashed; by apply pays_0].
  { done. }
  assert (get_opt d i = Some r0) as Hr by (apply (in_order_elem by_created); rewrite E; set_solver).
  apply st_bind_Ok in H as ([l1 p1] & d1 & H1 & H). eapply (cash_report_Ok T) in H1 as (I1 & L1 & C1 & _); [|done..].
  apply IH in H as (I2 & C2); [|apply C1|done|done]. split; [done|]. eapply cashed_trans; [exact C1|exact C2|lia].
Qed.
(** Which reports are left, and that the loop ends. *)
#[local] Instance by_created_trans : Transitive by_created.
Proof. intros x y z. unfold by_created. lia. Qed.
#[local] Instance by_created_total : Total by_created.
Proof. intros x y. unfold by_created. lia. Qed.

Lemma cashout_left T fuel now total l paid r d d' : payable T d -> amount total = T -> asset_id total = BTCM_SYMBOL ->
  asset_id paid = BTCM_SYMBOL -> helpers_ok (view_of d) l -> cashout_loop fuel now total (l, paid) d = Ok (r, d') ->
  forall i x, get_opt d' i = Some x <-> get_opt d i = Some x /\ now < Report.created x.
Proof.
  intros HP ET Hb. revert l paid d HP. induction fuel as [|fuel IH]; intros l paid d HP Hpb Hl H i x; cbn [cashout_loop] in H; step H;
    destruct (in_order by_created d) as [|[j r0] rest] eqn:E.
  1, 3: apply st_ret_Ok in H as [_ ->]; by split; [intros Hx|intros [Hx _]]; destruct (in_order_nil _ _ _ _ E Hx).
  all: destruct (in_order_first by_created _ _ _ _ _ E) as [Hr Hmin]; cbn [snd fst] in *;
    destruct (Z.leb_spec (Report.created r0) now);
      [|apply st_ret_Ok in H as [_ ->]; split; [intros Hx; split; [done|]|by intros [? _]];
        destruct (Hmin _ _ Hx) as [[= -> ->]|Hle]; [done|unfold by_created in Hle; cbn in Hle; lia]].
  { done. }
  apply st_bind_Ok in H as ([l1 p1] & d1 & H1 & H). eapply (cash_report_Ok T) in H1 as (I1 & L1 & C1 & R1); [|done..].
  rewrite (IH _ _ _ (proj1 C1) I1 L1 H i x). unfold get_opt in *. cbn in *. rewrite R1, lookup_delete_Some.
  split; [by intros [[_ ?] ?]|]. intros [Hx Hlt]. split; [split; [|done]|done]. intros ->. rewrite Hr in Hx. injection Hx as <-. lia.
Qed.

Lemma cashout_fuel T n m now total l paid d : payable T d -> amount total = T -> asset_id total = BTCM_SYMBOL ->
  asset_id paid = BTCM_SYMBOL -> helpers_ok (view_of d) l -> (length (in_order by_created d) <= n)%nat ->
  (length (in_order by_created d) <= m)%nat ->
  cashout_loop n now total (l, paid) d = cashout_loop m now total (l, paid) d.
Proof.
  intros HP ET Hb. revert m l paid d HP. induction n as [|n IH]; intros m l paid d HP Hpb Hl Hn Hm;
    (destruct m as [|m]; [try done|]; cbn [cashout_loop]; (apply st_bind_ext; [|done]); intros e e' [= <- <-]; exists d; (split; [done|]);
    destruct (in_order by_created d) as [|[j r0] rest] eqn:E; try done; try (cbn in *; lia)).
  cbn [fst snd]. destruct (_ <=? now); [|done]. apply st_bind_ext; [|done]. intros [l1 p1] d1 H1. exists (l1, p1). split; [done|].
  assert (get_opt d j = Some r0) as Hr by (apply (in_order_elem by_created); rewrite E; set_solver).
  eapply (cash_report_Ok T) in H1 as (I1 & L1 & C1 & R1); [|done..]. apply IH; [apply C1|done|done|..].
  all: rewrite (in_order_length by_created); cbn; rewrite R1, map_size_delete_Some by by exists r0.
  1, 2: rewrite <-E, (in_order_length by_created) in Hn, Hm; cbn in Hn, Hm; lia.
Qed.
End Payout.
End CashoutFacts.
