(* ===== verification/FundsFacts.v ===== *)
(** * Facts about the funds of a block

    What inflation adds to the supply is what the producer, the contents and the
    platforms get, whatever the block does with it; conversions burn what they
    issue; the statistics move no funds. *)

From S2P Require Import Prelude.
From S2P Require Import SafeInt.
From S2P Require Import Uint128.
From S2P Require Import Asset.
From S2P Require Import AssetFacts.
From S2P Require Import UndoDatabase.
From S2P Require Import Authority.
From S2P Require Import State.
From S2P Require Import Sample.
From S2P Require Import Balance.
From S2P Require Import BalanceFacts.
From S2P Require Import Vesting.
From S2P Require Import VestingFacts.
From S2P Require Import Streaming.
From S2P Require Import Rewards.
From S2P Require Import RewardFacts.
From S2P Require Import CashoutFacts.

Module FundsFacts.
Import AssetOps Balances Vesting Quiet Supply AssetFacts VestingFacts Streaming Rewards RewardFacts CashoutFacts.

(** Every gap moves by [g]. *)
Definition moves (g : Z -> Z) (d d' : database) : Prop :=
  (ids_below Balance.t d -> ids_below Balance.t d') /\
  (ids_below Balance.t d -> forall id, gap id d' = gap id d + g id).

Lemma moves_trans g h k d1 d2 d3 : moves g d1 d2 -> moves h d2 d3 -> (forall id, k id = g id + h id) -> moves k d1 d3.
Proof. intros [I1 G1] [I2 G2] E. split; [auto|]. intros Hb id. rewrite G2, G1, E by auto. lia. Qed.

(** [x] BTCM more in the supply, and [y] XUSD. *)
Definition only (x y : Z) (id : Z) : Z := if id =? BTCM_SYMBOL then x else if id =? XUSD_SYMBOL then y else 0.

Lemma only_add x y x' y' id : only (x + x') (y + y') id = only x y id + only x' y' id.
Proof. unfold only. destruct (_ =? _); [done|]. destruct (_ =? _); lia. Qed.

Lemma moves_only x y x' y' d1 d2 d3 z w : moves (only x y) d1 d2 -> moves (only x' y') d2 d3 -> z = x + x' -> w = y + y' ->
  moves (only z w) d1 d3.
Proof. intros H1 H2 -> ->. eapply moves_trans; [exact H1|exact H2|]. intros id. apply only_add. Qed.

Lemma spent_moves x d d' : spent x d d' <-> moves (only (- x) 0) d d'.
Proof.
  unfold spent, moves, only. split; intros [H1 H2]; (split; [done|]); intros Hb id; rewrite (H2 Hb); destruct (_ =? BTCM_SYMBOL); try lia.
  all: destruct (_ =? XUSD_SYMBOL); lia.
Qed.

Lemma moves_dgpo d p x y :
  amount (Dgpo.current_supply p) - amount (Dgpo.current_supply (dgpo d))
    - (amount (Dgpo.total_vesting_fund_btcm p) - amount (Dgpo.total_vesting_fund_btcm (dgpo d))) = x ->
  amount (Dgpo.current_mbd_supply p) - amount (Dgpo.current_mbd_supply (dgpo d)) = y ->
  amount (Dgpo.total_vesting_shares p) = amount (Dgpo.total_vesting_shares (dgpo d)) ->
  moves (only x y) d (d <| dgpo := p |>).
Proof.
  intros <- <- E. split; [done|]. intros _ id. rewrite gap_set_dgpo. unfold only.
  destruct (_ =? BTCM_SYMBOL); [done|]. destruct (_ =? XUSD_SYMBOL); [done|]. destruct (_ =? VESTS_SYMBOL); lia.
Qed.

Lemma moves_account d i (a w : Account.t) x : get_opt d i = Some a ->
  amount (Account.balance w) = amount (Account.balance a) + x -> amount (Account.mbd_balance w) = amount (Account.mbd_balance a) ->
  amount (Account.vesting_shares w) = amount (Account.vesting_shares a) -> moves (only (- x) 0) d (set_obj d i w).
Proof.
  intros Ha E1 E2 E3. split; [done|]. intros _ id. rewrite (gap_set_account _ _ a) by done. unfold only.
  destruct (_ =? BTCM_SYMBOL); [lia|]. destruct (_ =? XUSD_SYMBOL); [lia|]. destruct (_ =? VESTS_SYMBOL); lia.
Qed.

Lemma moves_same d d' : (forall id, gap id d' = gap id d) ->
  (ids_below Balance.t d -> ids_below Balance.t d') -> moves (only 0 0) d d'.
Proof. intros H1 H2. split; [done|]. intros _ id. rewrite H1. unfold only. destruct (_ =? _); [lia|]. destruct (_ =? _); lia. Qed.

Lemma moves_00 d1 d2 d3 : moves (only 0 0) d1 d2 -> moves (only 0 0) d2 d3 -> moves (only 0 0) d1 d3.
Proof. intros H1 H2. by apply (moves_only 0 0 0 0 d1 d2 d3). Qed.

(** ** Statistics *)

(** No funds and no reports are touched. *)
Definition counted (d d' : database) : Prop := moves (only 0 0) d d' /\ reports d' = reports d.

Lemma counted_trans d1 d2 d3 : counted d1 d2 -> counted d2 d3 -> counted d1 d3.
Proof. intros [M1 R1] [M2 R2]. split; [by eapply moves_00|congruence]. Qed.

Lemma counted_same d d' : reports d' = reports d -> (forall id, gap id d' = gap id d) ->
  (ids_below Balance.t d -> ids_below Balance.t d') -> counted d d'.
Proof. intros. split; [by apply moves_same|done]. Qed.

Lemma over_times_counted (f : Z * Z -> delta_pair -> st database delta_pair) (l : list (Z * Z)) c c' d d' :
  (forall x c c' d d', f x c d = Ok (c', d') -> counted d d') ->
  over_times f l c d = Ok (c', d') -> counted d d'.
Proof.
  intros Hf. revert c d. induction l as [|x l IH]; intros c d H; cbn [over_times] in H.
  { apply st_ret_Ok in H as [_ ->]. by apply counted_same. }
  step H as c1 E1. eapply counted_trans; [by eapply Hf|by eapply IH].
Qed.

Lemma count_account_counted k x c c' d d' : count_account k x c d = Ok (c', d') -> counted d d'.
Proof.
  intros H. unfold count_account in H. step H as a Ea. step H as t Et. step H as [] E1. step H as a2 Ea2.
  apply st_ret_Ok in H as [_ ->]. apply modify_Ok in E1 as (b & w & Eb & [= <-] & ->).
  split; [|done]. change 0 with (- 0) at 1. by apply (moves_account d x.1 b); cbn; try lia.
Qed.

Lemma count_user_counted k x c c' d d' : count_user k x c d = Ok (c', d') -> counted d d'.
Proof.
  intros H. unfold count_user, find_user in H. apply st_bind_Ok in H as (o & d1 & Ho & H). apply find_where_Ok in Ho as [-> ->].
  destruct (lookup_where _ d) as [[i u]|]; [|done]. step H as [] E1. apply st_ret_Ok in H as [_ ->].
  destruct (_ =? _); [apply remove_Ok in E1 as ->|apply modify_Ok in E1 as (? & ? & _ & _ & ->)]; by apply counted_same.
Qed.

Lemma adjust_statistics_counted l d u d' : adjust_statistics l d = Ok (u, d') -> counted d d'.
Proof.
  intros H. unfold adjust_statistics in H. apply st_bind_Ok in H as (delta & d1 & H1 & H).
  assert (counted d d1) as M1.
  { clear H. revert d H1. generalize no_delta. induction l as [|[k h] l IH]; intros c d H; cbn [count_platforms] in H.
    { apply st_ret_Ok in H as [_ ->]. by apply counted_same. }
    step H as c1 E1. apply IH in H. eapply counted_trans; [clear H|exact H].
    unfold count_platform in E1. apply st_bind_Ok in E1 as (c2 & d2 & E2 & E1). apply st_bind_Ok in E1 as (c3 & d3 & E3 & E1).
    apply over_times_counted in E2; [|apply count_account_counted]. apply over_times_counted in E3; [|apply count_user_counted].
    eapply counted_trans; [exact E2|eapply counted_trans; [exact E3|]].
    step E1 as p Ep. step E1 as [] E4. apply st_ret_Ok in E1 as [_ ->].
    destruct (some_delta _); [apply modify_Ok in E4 as (? & ? & _ & _ & ->)|apply st_ret_Ok in E4 as [_ ->]]; by apply counted_same. }
  destruct (some_delta delta); [|by apply st_ret_Ok in H as [_ ->]].
  eapply counted_trans; [exact M1|]. apply modify_dgpo_Ok in H as (p & [= <-] & ->).
  split; [by apply moves_dgpo; cbn; try lia|done].
Qed.
(** ** Conversions *)

Lemma gap_remove_request d i c id : get_opt d i = Some c ->
  gap id (upd_tbl (fun t : table ConvertRequest.t => t <| indices ::= delete i |>) d) = gap id d +
    only (of_asset BTCM_SYMBOL (ConvertRequest.amount c)) (of_asset XUSD_SYMBOL (ConvertRequest.amount c)) id.
Proof.
  intros H. unfold gap, held_btcm, held_mbd, only. rewrite !(total_remove (V:=ConvertRequest.t) _ _ _ _ H).
  set (d' := upd_tbl _ d). change (dgpo d') with (dgpo d). change (user_supply id d') with (user_supply id d).
  change (held_user id d') with (held_user id d). change (held_vests d') with (held_vests d).
  change (total (V:=LimitOrder.t) ?f d') with (total (V:=LimitOrder.t) f d).
  change (total (V:=Account.t) ?f d') with (total (V:=Account.t) f d).
  change (total (V:=ClaimBalance.t) ?f d') with (total (V:=ClaimBalance.t) f d).
  change (total (V:=Content.t) ?f d') with (total (V:=Content.t) f d).
  destruct (_ =? BTCM_SYMBOL); [lia|]. destruct (_ =? XUSD_SYMBOL); [lia|]. destruct (_ =? VESTS_SYMBOL); lia.
Qed.

Section Funds.
Context {B : BoostMP}.

Definition net_ok (net : asset * asset) : Prop := asset_id net.1 = XUSD_SYMBOL /\ asset_id net.2 = BTCM_SYMBOL.

(** A request is burnt and paid. *)
Definition converting (net net' : asset * asset) (d d' : database) : Prop :=
  net_ok net' /\ view_of d' = view_of d /\
  moves (only (amount net.2 - amount net'.2) (amount net'.1 - amount net.1)) d d'.

Lemma converting_refl net d : net_ok net -> converting net net d d.
Proof. intros H. split; [done|]. split; [done|]. rewrite !Z.sub_diag. by apply moves_same. Qed.

Lemma fill_conversion_Ok median i r net net' d d' : net_ok net -> get_opt d i = Some r ->
  fill_conversion median (i, r) net d = Ok (net', d') -> converting net net' d d'.
Proof.
  intros [N1 N2] Hr H. unfold fill_conversion in H. cbn [fst snd] in H. step H as u Hu. step H as iss Hi. step H as [] E1.
  step H as n1 En1. step H as n2 En2. step H as [] E2. apply st_ret_Ok in H as [-> ->].
  apply AssetLemmas.asset_add_Ok in En1 as [I1 ->]. apply AssetLemmas.asset_add_Ok in En2 as [I2 ->].
  assert (get_opt x i = Some r) as Hr'.
  { unfold get_opt, tbl in *. cbn in *. by rewrite (adjust_balance_frame (fun d => convert_requests d) _ _ _ _ _ ltac:(by constructor) E1). }
  split; [done|]. cbn [fst snd amount]. apply remove_Ok in E2 as ->. split.
  { pose proof (view_balance _ _ _ _ _ E1) as E. exact E. }
  apply (moves_only (- amount iss) 0 0 (amount (ConvertRequest.amount r)) d x); [| |lia..].
  - split; [intros; by eapply ids_below_adjust|]. intros Hb id. rewrite (gap_adjust_balance _ _ _ _ _ _ (ids_below_fresh _ Hb)) by (done || by rewrite <-I2, N2).
    rewrite <-I2, N2. unfold only. destruct (_ =? BTCM_SYMBOL); [lia|]. destruct (_ =? XUSD_SYMBOL); lia.
  - split; [done|]. intros _ id. rewrite (gap_remove_request _ _ r) by done. unfold of_asset. by rewrite <-I1, N1.
Qed.

Lemma conversion_loop_Ok fuel now median net net' d d' : net_ok net ->
  conversion_loop fuel now median net d = Ok (net', d') -> converting net net' d d'.
Proof.
  revert net d. induction fuel as [|fuel IH]; intros net d HN H; cbn [conversion_loop] in H; step H;
    destruct (in_order by_conversion_date d) as [|[i r] rest] eqn:E.
  1, 3: apply st_ret_Ok in H as [-> ->]; by apply converting_refl.
  all: destruct (_ <=? now); [|apply st_ret_Ok in H as [-> ->]; by apply converting_refl].
  { done. }
  assert (get_opt d i = Some r) as Hr by (apply (in_order_elem by_conversion_date); rewrite E; set_solver).
  step H as n1 E1. apply (fill_conversion_Ok _ _ _ _ _ _ _ HN Hr) in E1 as (N1 & V1 & M1).
  apply IH in H as (N2 & V2 & M2); [|done]. split; [done|]. split; [congruence|].
  eapply moves_trans; [exact M1|exact M2|]. intros id. rewrite <-only_add. f_equal; lia.
Qed.

Lemma process_conversions_Ok d u d' : process_conversions d = Ok (u, d') ->
  view_of d' = view_of d /\ moves (only 0 0) d d'.
Proof.
  intros H. unfold process_conversions in H. step H. destruct (is_null _).
  { apply st_ret_Ok in H as [_ ->]. split; [done|by apply moves_same]. }
  step H as net E1. apply conversion_loop_Ok in E1 as ([N1 N2] & V1 & M1); [|done]. cbn [amount fst snd] in M1.
  apply modify_dgpo_Ok in H as (p & Hp & ->). unfold converted in Hp.
  apply bind_Ok in Hp as (c & Hc & Hp). apply bind_Ok in Hp as (m & Hm & Hp). apply bind_Ok in Hp as (v & Hv & Hp).
  apply bind_Ok in Hp as (y & Hy & Hp). apply bind_Ok in Hp as (z & Hz & [= <-]).
  apply AssetLemmas.asset_add_Ok in Hc as [_ ->]. apply AssetLemmas.asset_sub_Ok in Hm as [_ ->]. split; [exact V1|].
  eapply (moves_only _ _ (amount net.2) (- amount net.1)); [exact M1| |lia..]. apply moves_dgpo; cbn; lia.
Qed.

(** ** Inflation *)

Lemma process_funds_Ok cr wp d u d' : process_funds cr wp (Asset 0 BTCM_SYMBOL) d = Ok (u, d') ->
  view_of d' = view_of d /\ moves (only (amount cr + amount wp) 0) d d'.
Proof.
  intros H. apply modify_dgpo_Ok in H as (p & Hp & ->). unfold add_funds in Hp.
  apply bind_Ok in Hp as (f & Hf & Hp). apply bind_Ok in Hp as (r & Hr & Hp). apply bind_Ok in Hp as (x & Hx & Hp).
  apply bind_Ok in Hp as (y & Hy & Hp). apply bind_Ok in Hp as (c & Hc & Hp). apply bind_Ok in Hp as (v & Hv & [= <-]).
  apply AssetLemmas.asset_add_Ok in Hf as [_ ->]. apply AssetLemmas.asset_add_Ok in Hx as [_ ->].
  apply AssetLemmas.asset_add_Ok in Hy as [_ ->]. apply AssetLemmas.asset_add_Ok in Hc as [_ ->]. split.
  - unfold view_of. cbn -[account_view platform_view]. f_equal. unfold funds_view. cbn. rewrite Z.add_0_r.
    by destruct (Dgpo.total_vesting_fund_btcm (dgpo d)).
  - apply moves_dgpo; cbn; lia.
Qed.

Lemma adjust_funds_Ok cr paid d u d' : adjust_funds cr paid d = Ok (u, d') ->
  moves (only (amount paid - amount cr) 0) d d'.
Proof.
  intros H. unfold adjust_funds in H. step H as delta E1. step H as td E2. apply modify_dgpo_Ok in H as (p & Hp & ->).
  unfold take_back in Hp. apply bind_Ok in Hp as (f & Hf & Hp). apply bind_Ok in Hp as (c & Hc & Hp).
  apply bind_Ok in Hp as (v & Hv & Hp). apply bind_Ok in Hp as (x & Hx & Hp). apply bind_Ok in Hp as (s & Hs & [= <-]).
  apply AssetLemmas.asset_sub_Ok in E1 as [_ ->]. apply AssetLemmas.asset_sub_Ok in Hc as [_ ->]. apply moves_dgpo; cbn; lia.
Qed.

Context {BOk : BoostMPOk}.

Lemma get_content_reward_Ok d r : get_content_reward d = Ok r -> asset_id r = BTCM_SYMBOL /\ 5000 <= amount r.
Proof.
  intros H. unfold get_content_reward in H. apply bind_Ok in H as (x & _ & H). apply bind_Ok in H as (b & Hb & [= <-]).
  destruct b; [done|]. cbn. unfold asset_ltb in Hb. split; [done|]. cbn in Hb. injection Hb as Hb. lia.
Qed.

Lemma producer_Ok T r d d' : payable T d -> 5000 <= T -> get_producer_reward d = Ok (r, d') ->
  r = BTCM_MINING_REWARD /\ payable T d' /\ moves (only (-5000) 0) d d'.
Proof.
  intros HP HT H. unfold get_producer_reward in H. step H. step H as w Hw. step H as [] E1. apply st_ret_Ok in H as [-> ->].
  split; [done|]. destruct (_ || _).
  - step E1 as n En. apply st_ret_Ok in E1 as [_ ->]. apply (pays_vesting T) in En as (P & S & _); [|done..|cbn; lia].
    split; [done|]. by apply spent_moves in S.
  - step E1 as a Ea. split.
    + eassert (view_of _ = view_of d) as EV; [eapply view_modify_account; [|exact E1]|by unfold payable; rewrite EV].
      cbn beta. intros b w' Hb. apply bind_Ok in Hb as (y & _ & [= <-]). by destruct b.
    + apply modify_Ok in E1 as (b & w' & Hb & Hw' & ->). apply bind_Ok in Hw' as (s & Hs & [= <-]).
      apply AssetLemmas.asset_add_Ok in Hs as [_ ->]. by apply (moves_account d _ b _ 5000).
Qed.
(** What a block pays out is what it adds to the supply: the producer's reward,
    inflation, conversions and the payout of every report due leave the gap between
    the recorded supply and the holdings of each asset as it was, in any state
    whose reports, stakes and shares are within the bounds of [payable]. *)
Lemma pay_block_gap d d' content_reward : get_content_reward d = Ok content_reward ->
  payable (amount content_reward) d -> ids_below Balance.t d -> pay_block d = Ok (tt, d') ->
  forall id, gap id d' = gap id d.
Proof.
  intros Hcr HP Hb H id. unfold pay_block in H. step H. rewrite Hcr in H. step H as cr Ecr. injection Ecr as <-.
  destruct (get_content_reward_Ok _ _ Hcr) as [Ic Bc]. step H as wp E1. apply (producer_Ok _ _ _ _ HP Bc) in E1 as (-> & P1 & M1).
  step H as [] E2. apply process_funds_Ok in E2 as [V2 M2]. step H as [] E3. apply process_conversions_Ok in E3 as [V3 M3].
  step H as paid E4. unfold process_content_cashout in E4. step E4. step E4 as r E5. step E4 as [] E6. apply st_ret_Ok in E4 as [-> ->].
  apply (cashout_loop_Ok (amount content_reward)) in E5 as [I5 (_ & S5 & _)];
    [|unfold payable; rewrite V3, V2; exact P1|done|done|done|by intros kh Hkh%elem_of_nil].
  apply spent_moves in S5. apply adjust_statistics_counted in E6 as [E6 _]. apply adjust_funds_Ok in H. cbn [amount] in *.
  pose proof (moves_only _ _ _ _ _ _ _ _ _ M1 M2 eq_refl eq_refl) as N2.
  pose proof (moves_only _ _ _ _ _ _ _ _ _ N2 M3 eq_refl eq_refl) as N3.
  pose proof (moves_only _ _ _ _ _ _ _ _ _ N3 S5 eq_refl eq_refl) as N5.
  pose proof (moves_only _ _ _ _ _ _ _ _ _ N5 E6 eq_refl eq_refl) as N6.
  destruct (moves_only _ _ _ _ _ _ _ _ _ N6 H eq_refl eq_refl) as [_ HG].
  rewrite (HG Hb). unfold only. change (amount BTCM_MINING_REWARD) with 5000.
  destruct (_ =? _); [lia|]. destruct (_ =? _); lia.
Qed.
End Funds.

(** ** A block *)

#[local] Existing Instance boost_reference.
#[local] Instance boost_ok : BoostMPOk.
Proof. apply AssetFacts.boost_ok. Qed.

(** Bob listened to the song for ten minutes on nancy's platform, the day before. *)
Definition played : database :=
  Sample.state <| dgpo ::= (fun p => p <| Dgpo.current_witness := "alice" |> <| Dgpo.total_vested_by_platforms := 100 |>
      <| Dgpo.total_listening_time := 600 |> <| Dgpo.full_users_time := 600 |> <| Dgpo.active_users := 1 |>) |>
    <| accounts ::= (fun t => t <| indices ::= <[1 := Sample.bob <| Account.total_listening_time := 600 |>
        <| Account.total_time_by_platform := {[0 := 600]} |>]> |>) |>
    <| platforms := Table 1 {[0 := Platform.Make "nancy" 0 "" 0 1 0 600 600 0]} |>
    <| contents := Table 1 {[0 := Sample.song]} |>
    <| reports := Table 1 {[0 := Report.Make 0 (Some 1) None 0 1000 600 None None None]} |>.

Lemma each_of {V} (P : Z -> V -> Prop) (m : gmap Z V) l : map_to_list m = l ->
  Forall (fun kv => P kv.1 kv.2) l -> forall i v, m !! i = Some v -> P i v.
Proof.
  intros <- Hl i v Hi. rewrite Forall_forall in Hl. apply (Hl (i, v)). by apply elem_of_map_to_list.
Qed.

Ltac each_of :=
  refine (each_of _ _ _ _ _); [vm_compute; reflexivity|repeat (apply Forall_cons_2; [cbn [fst snd]|]); try apply Forall_nil_2].

Lemma played_payable : payable 5000 played.
Proof.
  split; [lia|]. split; [unfold int64_max; lia|]. split; try done.
  - intros i j l p Hl Hp. revert j p Hp. each_of. revert i l Hl. each_of; intros E; vm_compute in E |- *; done.
  - each_of. vm_compute. done.
  - each_of. split; [cbn; lia|]. split; [done|]. intros t Ht. destruct Ht as [a l t Ha Hl Ht|u i x Hc|p Hc _ _]; [|done..].
    injection Ha as <-. vm_compute in Hl. injection Hl as <-. vm_compute in Ht. injection Ht as <-. cbn. lia.
Qed.

Lemma pay_block_example : is_ok (pay_block played) = true /\
  amount (Account.balance (default default_account (get_opt (Sample.after pay_block played) 0))) = 8750 /\
  forall id, gap id (Sample.after pay_block played) = gap id played.
Proof.
  split; [vm_compute; reflexivity|]. split; [vm_compute; reflexivity|].
  apply (pay_block_gap played _ BTCM_MIN_CONTENT_REWARD); [vm_compute; reflexivity|exact played_payable| |].
  - by apply ids_below_check.
  - apply Sample.after_run. vm_compute. reflexivity.
Defined.

End FundsFacts.
