(* ===== verification/Blocks.v ===== *)
(** * Blocks: slots, the witness schedule, irreversibility, feeds

    Models the part of database.cpp that a block drives besides its transactions:
    slot times, [validate_block_header], [update_global_dynamic_data],
    [update_signing_witness], [update_last_irreversible_block],
    [update_witness_schedule4] with its shuffle and version votes,
    [update_median_witness_props], [update_median_feed], [update_virtual_supply]
    and the hardfork machinery.  [std::sort] is a sort by the same key: what the
    code takes from the sorted vector is a value of the key. *)

From S2P Require Import Prelude.
From S2P Require Import SafeInt.
From S2P Require Import Uint128.
From S2P Require Import Asset.
From S2P Require Import UndoDatabase.
From S2P Require Import Authority.
From S2P Require Import ForkDatabase.
From S2P Require Import State.
From S2P Require Import Balance.
From S2P Require Import Votes.

Definition BTCM_BLOCK_INTERVAL : Z := 3.
Definition BTCM_MAX_VOTED_WITNESSES : nat := 20.
Definition BTCM_MAX_RUNNER_WITNESSES : nat := 1.
Definition BTCM_MAX_MINERS : nat := BTCM_MAX_VOTED_WITNESSES + BTCM_MAX_RUNNER_WITNESSES.
Definition BTCM_HARDFORK_REQUIRED_WITNESSES : Z := 17.
Definition BTCM_IRREVERSIBLE_THRESHOLD : Z := 51 * (BTCM_100_PERCENT / 100).
Definition BTCM_MAX_UNDO_HISTORY : Z := 10000.
Definition BTCM_MAX_RESERVE_RATIO : Z := 20000.
Definition BTCM_FEED_INTERVAL_BLOCKS : Z := 60 * 60 / BTCM_BLOCK_INTERVAL.
Definition BTCM_FEED_HISTORY_WINDOW : nat := 24 * 7.
Definition BTCM_MAX_FEED_AGE : Z := 7 * 24 * 60 * 60.
Definition BTCM_MIN_FEEDS : nat := 1.
Definition BTCM_NUM_HARDFORKS : Z := 0.

(** [static_variant< void_t, version, hardfork_version_vote >] *)
Inductive block_header_extension :=
  | void_extension
  | version_extension (v : Z)
  | hardfork_extension (hf_version hf_time : Z).

(** What the chain reads of a [signed_block].  The digest, the key recovered from
    the signature and the serialized size are computed by other libraries. *)
Record signed_block := SignedBlock {
  sb_previous : block_id;
  sb_timestamp : Z;
  sb_witness : string;
  sb_extensions : list block_header_extension;
  sb_digest : Z;
  sb_signee : public_key;
  sb_size : Z
}.
#[export] Instance signed_block_data : BlockData signed_block := {| previous := sb_previous; digest := sb_digest |}.

Module Blocks.
Import AssetOps.

Definition modify_schedule (f : Schedule.t -> result Schedule.t) : st database unit :=
  d ← get_st; s ← lift (f (schedule d)); modify_st (fun d => d <| schedule := s |>).
Definition modify_feed_history (f : FeedHistory.t -> result FeedHistory.t) : st database unit :=
  d ← get_st; s ← lift (f (feed_history d)); modify_st (fun d => d <| feed_history := s |>).
Definition modify_hardforks (f : Hardforks.t -> result Hardforks.t) : st database unit :=
  d ← get_st; s ← lift (f (hardforks d)); modify_st (fun d => d <| hardforks := s |>).

(** ** Slots *)

Definition get_slot_time (slot_num : Z) (d : database) : Z :=
  if slot_num =? 0 then 0
  else if head_block_num d =? 0 then u32 (Dgpo.time (dgpo d) + u32 (slot_num * BTCM_BLOCK_INTERVAL))
  else
    let head_block_abs_slot := head_block_time d / BTCM_BLOCK_INTERVAL in
    let head_slot_time := u32 (head_block_abs_slot * BTCM_BLOCK_INTERVAL) in
    u32 (head_slot_time + u32 (slot_num * BTCM_BLOCK_INTERVAL)).

Definition get_slot_at_time (when : Z) (d : database) : Z :=
  let first_slot_time := get_slot_time 1 d in
  if when <? first_slot_time then 0
  else u32 (Z.quot (when - first_slot_time) BTCM_BLOCK_INTERVAL + 1).

(** The remainder of a division by zero is undefined. *)
Definition get_scheduled_witness (slot_num : Z) (d : database) : result string :=
  let current_aslot := u64 (Dgpo.current_aslot (dgpo d) + slot_num) in
  let witnesses := Schedule.current_shuffled_witnesses (schedule d) in
  of_option undefined_behaviour (witnesses !! Z.to_nat (current_aslot mod Z.of_nat (length witnesses))).

Definition witness_participation_rate (d : database) : Z :=
  u32 (BTCM_100_PERCENT * Uint128.popcount (Dgpo.recent_slots_filled (dgpo d)) / 128).

(** The two checks can be skipped. *)
Definition validate_block_header (skip_signature skip_schedule : bool) (b : signed_block) : st database (Z * Witness.t) :=
  d ← get_st;
  _ ← assert_st (bool_decide (Dgpo.head_block_id (dgpo d) = sb_previous b));
  _ ← assert_st (head_block_time d <? sb_timestamp b);
  witness ← get_witness (sb_witness b);
  _ ← (if skip_signature then mret tt
       else assert_st (sb_signee b =? Witness.signing_key witness.2));
  _ ← (if skip_schedule then mret tt
       else
         let slot_num := get_slot_at_time (sb_timestamp b) d in
         _ ← assert_st (slot_num >? 0);
         scheduled_witness ← lift (get_scheduled_witness slot_num d);
         assert_st (String.eqb (Witness.owner witness.2) scheduled_witness));
  mret witness.

Definition process_extension (witness : string) (e : block_header_extension) : st database unit :=
  match e with
  | void_extension => mret tt
  | version_extension reported =>
      w ← get_witness witness;
      if negb (reported =? Witness.running_version w.2)
      then modify_pure w.1 (fun w : Witness.t => w <| Witness.running_version := reported |>)
      else mret tt
  | hardfork_extension hf_version hf_time =>
      w ← get_witness witness;
      if negb (hf_version =? Witness.hardfork_version_vote w.2) || negb (hf_time =? Witness.hardfork_time_vote w.2)
      then modify_pure w.1 (fun w : Witness.t =>
             w <| Witness.hardfork_version_vote := Z.land hf_version 0xFFFF0000 |> <| Witness.hardfork_time_vote := hf_time |>)
      else mret tt
  end.
Definition process_header_extensions (b : signed_block) : st database unit :=
  for_each (sb_extensions b) (process_extension (sb_witness b)).

(** ** Missed blocks and bandwidth *)

(** Witnesses that missed a slot; one that has missed a day of them loses its key. *)
Definition miss_block (head_block_num : Z) (w : Witness.t) : Witness.t :=
  let w := w <| Witness.total_missed ::= fun n => u32 (n + 1) |> in
  if u64 (head_block_num - Witness.last_confirmed_block_num w) >? BTCM_BLOCKS_PER_DAY
  then w <| Witness.signing_key := null_key |> else w.

Definition miss_slot (b : signed_block) (i : nat) : st database unit :=
  d ← get_st;
  name ← lift (get_scheduled_witness (Z.of_nat i + 1) d);
  witness_missed ← get_witness name;
  if String.eqb (Witness.owner witness_missed.2) (sb_witness b) then mret tt
  else modify_pure witness_missed.1 (miss_block (head_block_num d)).

(** One slot, filled or not, enters the window of 128 and one leaves it. *)
Definition fill_slot (filled : bool) (p : Dgpo.t) : Dgpo.t :=
  let gone := Z.land (hi (Dgpo.recent_slots_filled p)) 0x8000000000000000 in
  p <| Dgpo.participation_count ::= fun n => u8 (n - (if gone =? 0 then 0 else 1)) |>
    <| Dgpo.recent_slots_filled ::= fun s => Uint128.add (Uint128.shl_int s 1) (Uint128.of_int32 (Z.b2z filled)) |>
    <| Dgpo.participation_count ::= fun n => u8 (n + Z.b2z filled) |>.
Definition fill_slots (missed_blocks : nat) (p : Dgpo.t) : Dgpo.t :=
  Nat.iter missed_blocks (fill_slot false) (fill_slot true p).

Definition adjust_reserve_ratio (p : Dgpo.t) : Dgpo.t :=
  if Dgpo.head_block_number p mod 20 =? 0 then
    let p := if Dgpo.average_block_size p >? Dgpo.maximum_block_size p / 4
             then p <| Dgpo.current_reserve_ratio ::= fun r => r / 2 |>
             else p <| Dgpo.current_reserve_ratio ::= fun r => u64 (r + 1) |> in
    if Dgpo.current_reserve_ratio p >? BTCM_MAX_RESERVE_RATIO
    then p <| Dgpo.current_reserve_ratio := BTCM_MAX_RESERVE_RATIO |> else p
  else p.

Definition max_virtual_bandwidth (p : Dgpo.t) : Z :=
  u64 (u64 (u64 (Dgpo.maximum_block_size p * Dgpo.current_reserve_ratio p) * BTCM_BANDWIDTH_PRECISION)
       * BTCM_BANDWIDTH_AVERAGE_WINDOW_SECONDS) / BTCM_BLOCK_INTERVAL.

Definition take_block (b : signed_block) (missed_blocks : nat) (p : Dgpo.t) : Dgpo.t :=
  let p := fill_slots missed_blocks p in
  let p := p <| Dgpo.head_block_number := block_num b |> <| Dgpo.head_block_id := block_id_of b |>
    <| Dgpo.time := sb_timestamp b |>
    <| Dgpo.current_aslot ::= fun s => u64 (s + u32 (Z.of_nat missed_blocks + 1)) |>
    <| Dgpo.average_block_size ::= fun a => u32 (u64 (u32 (99 * a) + sb_size b) / 100) |> in
  let p := adjust_reserve_ratio p in
  p <| Dgpo.max_virtual_bandwidth := max_virtual_bandwidth p |>.

(** The undo and the fork database are told the length returned.  A block of no
    slot runs into an [assert]. *)
Definition update_global_dynamic_data (skip_undo_history_check : bool) (b : signed_block) : st database Z :=
  d ← get_st;
  missed_blocks ←
    (if negb (head_block_time d =? 0) then
       let slot := get_slot_at_time (sb_timestamp b) d in
       _ ← (if slot =? 0 then throw undefined_behaviour else mret tt);
       let missed_blocks := Z.to_nat (slot - 1) in
       _ ← for_each (seq 0 missed_blocks) (miss_slot b);
       mret missed_blocks
     else mret 0%nat);
  _ ← modify_dgpo (fun p => Ok (take_block b missed_blocks p));
  d ← get_st;
  let reversible := u32 (head_block_num d - Dgpo.last_irreversible_block_num (dgpo d)) in
  _ ← (if skip_undo_history_check then mret tt
       else if reversible <? BTCM_MAX_UNDO_HISTORY then mret tt else throw undo_database_exception);
  mret (u32 (reversible + 1)).

Definition update_signing_witness (signing_witness : Z) (b : signed_block) : st database unit :=
  d ← get_st;
  let new_block_aslot := u64 (Dgpo.current_aslot (dgpo d) + get_slot_at_time (sb_timestamp b) d) in
  modify_pure signing_witness (fun w : Witness.t =>
    w <| Witness.last_aslot := new_block_aslot |> <| Witness.last_confirmed_block_num := block_num b |>).

(** ** Order statistics *)

Definition by_key {A} (key : A -> Z) (x y : A) : Prop := key x <= key y.
#[export] Instance by_key_dec {A} (key : A -> Z) : RelDecision (by_key key).
Proof. intros x y. unfold by_key. apply _. Defined.

(** [v[ n ]] after sorting [v] by a key; reading past the end is undefined. *)
Definition nth_by {A} (key : A -> Z) (n : nat) (v : list A) : result A :=
  of_option undefined_behaviour (merge_sort (by_key key) v !! n).
Definition median_by {A} (key : A -> Z) (v : list A) : result A := nth_by key (length v / 2) v.

Fixpoint get_witnesses (names : list string) : st database (list (Z * Witness.t)) :=
  match names with
  | [] => mret []
  | n :: names => w ← get_witness n; l ← get_witnesses names; mret (w :: l)
  end.

(** ** Irreversibility *)

Definition irreversible_offset (n : nat) : nat :=
  Z.to_nat ((BTCM_100_PERCENT - BTCM_IRREVERSIBLE_THRESHOLD) * Z.of_nat n / BTCM_100_PERCENT).

Definition update_last_irreversible_block : st database unit :=
  d ← get_st;
  if head_block_num d <? BTCM_START_MINER_VOTING_BLOCK then
    modify_dgpo (fun p => Ok (
      if Dgpo.head_block_number p >? Z.of_nat BTCM_MAX_MINERS
      then p <| Dgpo.last_irreversible_block_num := Dgpo.head_block_number p - Z.of_nat BTCM_MAX_MINERS |> else p))
  else
    wit_objs ← get_witnesses (Schedule.current_shuffled_witnesses (schedule d));
    w ← lift (nth_by (fun w : Z * Witness.t => Witness.last_confirmed_block_num w.2)
                (irreversible_offset (length wit_objs)) wit_objs);
    let new_last_irreversible_block_num := u32 (Witness.last_confirmed_block_num w.2) in
    if new_last_irreversible_block_num >? Dgpo.last_irreversible_block_num (dgpo d)
    then modify_dgpo (fun p => Ok (p <| Dgpo.last_irreversible_block_num := new_last_irreversible_block_num |>))
    else mret tt.

(** ** The witness schedule *)

(** The indexes [by_vote_name] and [by_schedule_time]. *)
Definition by_vote_name (x y : Z * Witness.t) : Prop :=
  Witness.votes y.2 < Witness.votes x.2 \/
  (Witness.votes x.2 = Witness.votes y.2 /\ String.leb (Witness.owner x.2) (Witness.owner y.2) = true).
#[export] Instance by_vote_name_dec : RelDecision by_vote_name.
Proof. unfold by_vote_name. solve_decision. Defined.
Definition by_schedule_time (x y : Z * Witness.t) : Prop :=
  let tx := Witness.virtual_scheduled_time x.2 in let ty := Witness.virtual_scheduled_time y.2 in
  Uint128.ltb tx ty = true \/ (Uint128.eqb tx ty = true /\ x.1 <= y.1).
#[export] Instance by_schedule_time_dec : RelDecision by_schedule_time.
Proof. unfold by_schedule_time. solve_decision. Defined.
Definition by_id (x y : Z * Witness.t) : Prop := x.1 <= y.1.
#[export] Instance by_id_dec : RelDecision by_id.
Proof. unfold by_id. solve_decision. Defined.

Definition can_sign (w : Witness.t) : bool := negb (Witness.signing_key w =? null_key).

(** The witnesses with the most votes, of those that have a key. *)
Definition voted_witnesses (d : database) : list (Z * Witness.t) :=
  take BTCM_MAX_VOTED_WITNESSES (List.filter (fun w => can_sign w.2) (in_order by_vote_name d)).

Record runners := Runners { new_virtual_time : u128; active : list string; processed : list Z }.

(** The witnesses next in virtual time fill what is left of the schedule. *)
Fixpoint run_witnesses (l : list (Z * Witness.t)) (selected_voted : list Z) (witness_count : nat) (r : runners) : runners :=
  match l with
  | [] => r
  | w :: l =>
      if (witness_count <? BTCM_MAX_MINERS)%nat then
        let r := Runners (Witness.virtual_scheduled_time w.2) (active r) (processed r ++ [w.1]) in
        if negb (can_sign w.2) then run_witnesses l selected_voted witness_count r
        else if bool_decide (w.1 ∈ selected_voted) then run_witnesses l selected_voted witness_count r
        else run_witnesses l selected_voted (S witness_count)
               (Runners (new_virtual_time r) (active r ++ [Witness.owner w.2]) (processed r))
      else r
  end.

Definition select_witnesses (d : database) : runners :=
  let selected_voted := voted_witnesses d in
  run_witnesses (in_order by_schedule_time d) selected_voted.*1 (length selected_voted)
    (Runners (Schedule.current_virtual_time (schedule d)) ((fun w => Witness.owner w.2) <$> selected_voted) []).

Section Schedule.
Context {B : BoostMP}.

Definition lap (votes : Z) : result u128 :=
  speed ← raw_int64 (votes + 1);
  Uint128.div VIRTUAL_SCHEDULE_LAP_LENGTH2 (Uint128.of_int64 speed).

Definition reset_witness (now : u128) (w : Witness.t) : result Witness.t :=
  t ← lap (Witness.votes w);
  Ok (w <| Witness.virtual_position := Uint128.zero |> <| Witness.virtual_last_update := now |>
        <| Witness.virtual_scheduled_time := t |>).
Definition reset_virtual_schedule_time : st database unit :=
  _ ← modify_schedule (fun o => Ok (o <| Schedule.current_virtual_time := Uint128.zero |>));
  d ← get_st;
  for_each (in_order by_id d) (fun w => modify w.1 (reset_witness (Schedule.current_virtual_time (schedule d)))).

(** Stops when the virtual time overflows. *)
Fixpoint advance_witnesses (processed : list Z) (new_virtual_time : u128) : st database bool :=
  match processed with
  | [] => mret false
  | i :: processed =>
      w ← get (V:=Witness.t) i;
      t ← lift (lap (Witness.votes w));
      let new_virtual_scheduled_time := Uint128.add new_virtual_time t in
      if Uint128.ltb new_virtual_scheduled_time new_virtual_time then mret true
      else
        _ ← modify_pure i (fun w : Witness.t =>
              w <| Witness.virtual_position := Uint128.zero |> <| Witness.virtual_last_update := new_virtual_time |>
                <| Witness.virtual_scheduled_time := new_virtual_scheduled_time |>);
        advance_witnesses processed new_virtual_time
  end.

(** *** Versions *)

Definition count_key {K} (lt : K -> K -> bool) (k : K) (m : list (K * Z)) : list (K * Z) :=
  Flat.set lt k (match Flat.find lt k m with None => 1 | Some n => u32 (n + 1) end) m.
Definition vote_ltb (x y : Z * Z) : bool := (x.1 <? y.1) || ((x.1 =? y.1) && (x.2 <? y.2)).

Definition witness_versions (l : list (Z * Witness.t)) : list (Z * Z) :=
  foldl (fun m w => count_key Z.gtb (Witness.running_version w.2) m) [] l.
Definition hardfork_version_votes (l : list (Z * Witness.t)) : list (Z * Z * Z) :=
  foldl (fun m w => count_key vote_ltb (Witness.hardfork_version_vote w.2, Witness.hardfork_time_vote w.2) m) [] l.

(** The highest version that enough witnesses run, or run at least. *)
Fixpoint majority_of (versions : list (Z * Z)) (witnesses_on_version : Z) : option Z :=
  match versions with
  | [] => None
  | (v, n) :: versions =>
      let witnesses_on_version := witnesses_on_version + n in
      if witnesses_on_version >=? BTCM_HARDFORK_REQUIRED_WITNESSES then Some v else majority_of versions witnesses_on_version
  end.

Definition tally_hardforks (votes : list (Z * Z * Z)) (hpo : Hardforks.t) : Hardforks.t :=
  match List.find (fun v => v.2 >=? BTCM_HARDFORK_REQUIRED_WITNESSES) votes with
  | Some v => hpo <| Hardforks.next_hardfork := v.1.1 |> <| Hardforks.next_hardfork_time := v.1.2 |>
  | None => hpo <| Hardforks.next_hardfork := Hardforks.current_hardfork_version hpo |>
  end.

(** *** The shuffle *)

Definition xorshift (now_hi : Z) (i : nat) : Z :=
  let k := u64 (now_hi + u64 (Z.of_nat i * 2685821657736338717)) in
  let k := Z.lxor k (Z.shiftr k 12) in
  let k := Z.lxor k (u64 (Z.shiftl k 25)) in
  let k := Z.lxor k (Z.shiftr k 27) in
  u64 (k * 2685821657736338717).

Definition swap {A} (i j : nat) (l : list A) : list A :=
  match l !! i, l !! j with
  | Some x, Some y => <[j := x]> (<[i := y]> l)
  | _, _ => l
  end.

Definition shuffle_step {A} (now_hi : Z) (l : list A) (i : nat) : list A :=
  let jmax := Z.of_nat (length l) - Z.of_nat i in
  swap i (i + Z.to_nat (xorshift now_hi i mod jmax)) l.
Definition shuffle {A} (now : Z) (l : list A) : list A :=
  foldl (shuffle_step (u64 (Z.shiftl now 32))) l (seq 0 (length l)).

(** *** Median properties *)

Definition update_median_witness_props : st database unit :=
  d ← get_st;
  active ← get_witnesses (Schedule.current_shuffled_witnesses (schedule d));
  let props (w : Z * Witness.t) := Witness.props w.2 in
  fee ← lift (median_by (fun w => amount (ChainProps.account_creation_fee (props w))) active);
  _ ← modify_schedule (fun o => Ok (o <| Schedule.median_props ::= fun m =>
        m <| ChainProps.account_creation_fee := ChainProps.account_creation_fee (props fee) |> |>));
  sp_fee ← lift (median_by (fun w => amount (ChainProps.streaming_platform_update_fee (props w))) active);
  _ ← modify_schedule (fun o => Ok (o <| Schedule.median_props ::= fun m =>
        m <| ChainProps.streaming_platform_update_fee := ChainProps.streaming_platform_update_fee (props sp_fee) |> |>));
  size ← lift (median_by (fun w => ChainProps.maximum_block_size (props w)) active);
  _ ← modify_dgpo (fun p => Ok (p <| Dgpo.maximum_block_size := ChainProps.maximum_block_size (props size) |>));
  rate ← lift (median_by (fun w => ChainProps.mbd_interest_rate (props w)) active);
  modify_dgpo (fun p => Ok (p <| Dgpo.mbd_interest_rate := ChainProps.mbd_interest_rate (props rate) |>)).

Definition update_witness_schedule4 : st database unit :=
  d ← get_st;
  let r := select_witnesses d in
  reset_virtual_time ← advance_witnesses (processed r) (new_virtual_time r);
  new_virtual_time ← (if reset_virtual_time : bool then _ ← reset_virtual_schedule_time; mret Uint128.zero
                      else mret (new_virtual_time r));
  _ ← assert_st (length (active r) <=? BTCM_MAX_MINERS)%nat;
  current ← get_witnesses (Schedule.current_shuffled_witnesses (schedule d));
  let majority_version := default (Schedule.majority_version (schedule d)) (majority_of (witness_versions current) 0) in
  _ ← modify_hardforks (fun h => Ok (tally_hardforks (hardfork_version_votes current) h));
  _ ← modify_schedule (fun o => Ok (
        let l := shuffle (head_block_time d) (active r) in
        o <| Schedule.current_shuffled_witnesses := l |> <| Schedule.current_virtual_time := new_virtual_time |>
          <| Schedule.next_shuffle_block_num := u32 (head_block_num d + Z.of_nat (length l)) |>
          <| Schedule.majority_version := majority_version |>));
  update_median_witness_props.

Definition update_witness_schedule : st database unit :=
  d ← get_st;
  if head_block_num d mod Z.of_nat BTCM_MAX_MINERS =? 0 then update_witness_schedule4 else mret tt.

End Schedule.

(** ** Price feeds *)

Definition price_order (x y : price) : Prop := price_ltb y x = false.
#[export] Instance price_order_dec : RelDecision price_order.
Proof. unfold price_order. solve_decision. Defined.

Definition median_price (l : list price) : result price :=
  of_option undefined_behaviour (merge_sort price_order l !! (length l / 2)%nat).

(** The age of a feed is compared with a time in the future. *)
Definition usable_feed (now : Z) (wit : Witness.t) : bool :=
  (Witness.last_mbd_exchange_update wit <? now + BTCM_MAX_FEED_AGE) && negb (is_null (Witness.mbd_exchange_rate wit)).

Definition push_price (median_feed : price) (history : list price) : list price :=
  let history := history ++ [median_feed] in
  if (BTCM_FEED_HISTORY_WINDOW <? length history)%nat then tail history else history.

(** The price is raised until all XUSD are 5% of the market at most. *)
Definition limit_price (p : Dgpo.t) (median : price) : result price :=
  if amount (Dgpo.current_mbd_supply p) >? 0 then
    let effective := if negb (asset_id (base median) =? XUSD_SYMBOL) then invert median else median in
    x ← Safe.mul 19 (amount (Dgpo.current_mbd_supply p));
    let max_price := Price (Asset x XUSD_SYMBOL) (Dgpo.current_supply p) in
    Ok (if price_gtb max_price effective then max_price else effective)
  else Ok median.

Definition record_feed (p : Dgpo.t) (median_feed : price) (fho : FeedHistory.t) : result FeedHistory.t :=
  let history := push_price median_feed (FeedHistory.price_history fho) in
  median ← median_price history;
  effective ← limit_price p median;
  Ok (FeedHistory.Make median effective history).

Definition update_median_feed : st database unit :=
  d ← get_st;
  if negb (head_block_num d mod BTCM_FEED_INTERVAL_BLOCKS =? 0) then mret tt
  else
    wits ← get_witnesses (Schedule.current_shuffled_witnesses (schedule d));
    let feeds := (fun w : Z * Witness.t => Witness.mbd_exchange_rate w.2) <$>
                   List.filter (fun w => usable_feed (head_block_time d) w.2) wits in
    if (BTCM_MIN_FEEDS <=? length feeds)%nat then
      median_feed ← lift (median_price feeds);
      modify_feed_history (record_feed (dgpo d) median_feed)
    else mret tt.

Section VirtualSupply.
Context {B : BoostMP}.

Definition virtual_supply_of (f : FeedHistory.t) (p : Dgpo.t) : result Dgpo.t :=
  let median := FeedHistory.effective_median_history f in
  x ← (if is_null median then Ok (Asset 0 BTCM_SYMBOL) else asset_mul (Dgpo.current_mbd_supply p) median);
  v ← asset_add (Dgpo.current_supply p) x;
  Ok (p <| Dgpo.virtual_supply := v |>).
Definition update_virtual_supply : st database unit :=
  d ← get_st; modify_dgpo (virtual_supply_of (feed_history d)).
End VirtualSupply.

(** ** Hardforks *)

(** [_hardfork_times] and [_hardfork_versions] *)
Definition hardfork_times : list Z := [BTCM_GENESIS_TIME].
Definition hardfork_versions : list Z := [0].
Definition nth_of (l : list Z) (i : Z) : result Z :=
  if i <? 0 then Throw undefined_behaviour else of_option undefined_behaviour (l !! Z.to_nat i).

Definition process_hardfork (hardfork : Z) (hfp : Hardforks.t) : result Hardforks.t :=
  _ ← fc_assert (hardfork =? Hardforks.last_hardfork hfp + 1);
  _ ← fc_assert (Z.of_nat (length (Hardforks.processed_hardforks hfp)) =? hardfork);
  t ← nth_of hardfork_times hardfork;
  v ← nth_of hardfork_versions hardfork;
  let processed := Hardforks.processed_hardforks hfp ++ [t] in
  last ← nth_of processed hardfork;
  _ ← fc_assert (last =? t);
  Ok (hfp <| Hardforks.processed_hardforks := processed |> <| Hardforks.last_hardfork := hardfork |>
          <| Hardforks.current_hardfork_version := v |>).
Definition apply_hardfork (hardfork : Z) : st database unit := modify_hardforks (process_hardfork hardfork).

Definition has_hardfork (hardfork : Z) (d : database) : bool :=
  Z.of_nat (length (Hardforks.processed_hardforks (hardforks d))) >? hardfork.

Fixpoint hardfork_loop (fuel : nat) : st database unit :=
  d ← get_st;
  v ← lift (nth_of hardfork_versions (Hardforks.last_hardfork (hardforks d)));
  if (v <? Hardforks.next_hardfork (hardforks d)) && (Hardforks.next_hardfork_time (hardforks d) <=? head_block_time d) then
    if Hardforks.last_hardfork (hardforks d) <? BTCM_NUM_HARDFORKS then
      _ ← apply_hardfork (Hardforks.last_hardfork (hardforks d) + 1);
      match fuel with
      | O => throw undefined_behaviour
      | S fuel => hardfork_loop fuel
      end
    else throw unknown_hardfork_exception
  else mret tt.

(** Each turn processes one of [BTCM_NUM_HARDFORKS]. *)
Definition process_hardforks : st database unit := hardfork_loop (Z.to_nat BTCM_NUM_HARDFORKS).

End Blocks.
