(* ===== verification/BlockFacts.v ===== *)
(** * Facts about blocks

    A time always belongs to the same witness, whichever block is the head; the
    participation count is the number of slots filled; what is irreversible was
    confirmed by enough witnesses and stays so; the schedule is a shuffle of the
    witnesses that votes and virtual time select. *)

From S2P Require Import Prelude.
From S2P Require Import SafeInt.
From S2P Require Import Uint128.
From S2P Require Import Uint128Facts.
From S2P Require Import Asset.
From S2P Require Import AssetFacts.
From S2P Require Import UndoDatabase.
From S2P Require Import Authority.
From S2P Require Import ForkDatabase.
From S2P Require Import State.
From S2P Require Import Sample.
From S2P Require Import Balance.
From S2P Require Import BalanceFacts.
From S2P Require Import Votes.
From S2P Require Import Blocks.

Module BlockFacts.
Import AssetOps Blocks.

#[local] Ltac Zify.zify_post_hook ::= Z.div_mod_to_equations.

(** ** Slots *)

(** Times that no slot computed here wraps around. *)
Record clock_ok (d : database) : Prop := {
  time_pos : 0 < head_block_time d;
  time_far : head_block_time d + 3 < 2 ^ 32;
  aslot_ok : 0 <= Dgpo.current_aslot (dgpo d) < 2 ^ 64;
  genesis_aligned : head_block_num d = 0 -> head_block_time d mod 3 = 0
}.

(** Slots are counted from the slot of the head block. *)
Lemma slot_time n d : clock_ok d -> 0 < n -> head_block_time d + 3 * n < 2 ^ 32 ->
  get_slot_time n d = 3 * (head_block_time d / 3 + n).
Proof.
  intros [H1 H2 _ H3] Hn Hw. unfold get_slot_time, BTCM_BLOCK_INTERVAL. unfold head_block_time in *. set (h := Dgpo.time (dgpo d)) in *.
  rewrite (proj2 (Z.eqb_neq n 0)) by lia. unfold wrap. rewrite (Z.mod_small (n * 3)) by lia.
  destruct (Z.eqb_spec (head_block_num d) 0) as [E|E].
  - specialize (H3 E). rewrite Z.mod_small by lia. lia.
  - rewrite (Z.mod_small (h / 3 * 3)) by lia. rewrite Z.mod_small by lia. lia.
Qed.

Lemma slot_at t d : clock_ok d -> head_block_time d <= t < 2 ^ 32 -> get_slot_at_time t d = t / 3 - head_block_time d / 3.
Proof.
  intros Hd Ht. pose proof Hd as [H1 H2 _ _]. unfold get_slot_at_time. rewrite slot_time by (done || lia).
  unfold BTCM_BLOCK_INTERVAL. set (h := head_block_time d) in *. destruct (Z.ltb_spec t (3 * (h / 3 + 1))); [lia|].
  rewrite Z.quot_div_nonneg by lia. unfold wrap. rewrite Z.mod_small by lia. lia.
Qed.
(** ** Participation *)

(** The window of slots and the count of those that were filled. *)
Definition participation_ok (p : Dgpo.t) : Prop :=
  Uint128.wf (Dgpo.recent_slots_filled p) /\
  Dgpo.participation_count p = Uint128.bit_count 128 (Uint128.val (Dgpo.recent_slots_filled p)).

Lemma bit_count_snoc n x (b : bool) : Uint128.bit_count (S n) (2 * x + Z.b2z b) = Z.b2z b + Uint128.bit_count n x.
Proof.
  cbn [Uint128.bit_count]. assert ((2 * x + Z.b2z b) mod 2 = Z.b2z b) as -> by (destruct b; cbn; lia).
  by assert ((2 * x + Z.b2z b) / 2 = x) as -> by (destruct b; cbn; lia).
Qed.

(** The highest of [n + 1] bits counted apart. *)
Lemma bit_count_top n x : 0 <= x < 2 ^ Z.of_nat (S n) ->
  Uint128.bit_count (S n) x = Uint128.bit_count n (x mod 2 ^ Z.of_nat n) + x / 2 ^ Z.of_nat n.
Proof.
  intros Hx. rewrite <-Nat.add_1_r. pose proof (Z.div_mod x (2 ^ Z.of_nat n)) as E.
  assert (0 < 2 ^ Z.of_nat n) as Hp by (apply Z.pow_pos_nonneg; lia).
  pose proof (Z.mod_pos_bound x (2 ^ Z.of_nat n) Hp) as Hm. rewrite Nat2Z.inj_succ, Z.pow_succ_r in Hx by lia.
  assert (0 <= x / 2 ^ Z.of_nat n < 2) as Hq by (split; [apply Z.div_pos; lia|apply Z.div_lt_upper_bound; lia]).
  rewrite E at 1 by lia. rewrite (Z.mul_comm (2 ^ _)), Uint128Facts.bit_count_app by done. f_equal.
  assert (x / 2 ^ Z.of_nat n = 0 \/ x / 2 ^ Z.of_nat n = 1) as [-> | ->] by lia; done.
Qed.

(** [recent_slots_filled.hi & 0x8000000000000000] is the highest bit. *)
Lemma top_bit a : Uint128.wf a ->
  (if Z.land (hi a) 0x8000000000000000 =? 0 then 0 else 1) = Uint128.val a / 2 ^ 127.
Proof.
  intros [Hh Hl]. assert (Z.land (hi a) (2 ^ 63) = Z.b2z (Z.testbit (hi a) 63) * 2 ^ 63) as E.
  { apply Z.bits_inj'. intros n Hn. rewrite Z.land_spec, Z.pow2_bits_eqb by lia. destruct (Z.eqb_spec 63 n) as [<-|Hne].
    - destruct (Z.testbit (hi a) 63); [by rewrite Z.mul_1_l, Z.pow2_bits_true|by rewrite Z.bits_0].
    - rewrite andb_false_r. destruct (Z.testbit (hi a) 63); [by rewrite Z.mul_1_l, Z.pow2_bits_false|by rewrite Z.bits_0]. }
  change 0x8000000000000000 with (2 ^ 63). rewrite E. unfold Uint128.val.
  assert ((hi a * 2 ^ 64 + lo a) / 2 ^ 127 = hi a / 2 ^ 63) as -> by lia.
  rewrite Z.testbit_spec' by lia.
  assert (hi a / 2 ^ 63 = 0 \/ hi a / 2 ^ 63 = 1) as [-> | ->] by lia; done.
Qed.

Lemma fill_slot_ok filled p : participation_ok p -> participation_ok (fill_slot filled p) /\
  Uint128.val (Dgpo.recent_slots_filled (fill_slot filled p)) =
    (2 * Uint128.val (Dgpo.recent_slots_filled p) + Z.b2z filled) mod 2 ^ 128.
Proof.
  intros [Hw Hc]. unfold participation_ok, fill_slot. set (a := Dgpo.recent_slots_filled p) in *.
  change (Dgpo.recent_slots_filled (?q <| Dgpo.participation_count ::= ?f |>)) with (Dgpo.recent_slots_filled q).
  set (a' := Uint128.add (Uint128.shl_int a 1) (Uint128.of_int32 (Z.b2z filled))).
  match goal with |- context [Dgpo.recent_slots_filled ?q] => change (Dgpo.recent_slots_filled q) with a' end.
  match goal with |- context [Dgpo.participation_count ?q] => change (Dgpo.participation_count q) with
    (u8 (u8 (Dgpo.participation_count p - (if Z.land (hi a) 0x8000000000000000 =? 0 then 0 else 1)) + Z.b2z filled)) end.
  rewrite top_bit, Hc by done. pose proof (Uint128.wf_bound a Hw) as Hb.
  destruct (Uint128.shl_int_correct a 1 Hw ltac:(lia)) as [Hs Es].
  assert (0 <= Z.b2z filled < 2) as Hf by (destruct filled; cbn; lia).
  assert (Uint128.val a' = (2 * Uint128.val a + Z.b2z filled) mod 2 ^ 128) as Ev.
  { unfold a'. rewrite Uint128.add_val by (done || by apply Uint128Facts.of_int32_wf; lia).
    rewrite Es, Uint128Facts.of_int32_val by lia. change (2 ^ 1) with 2. rewrite Zplus_mod_idemp_l. f_equal. lia. }
  split; [|done]. split; [apply Uint128.add_wf|]. rewrite Ev.
  rewrite (bit_count_top 127 (Uint128.val a)) by (change (Z.of_nat 128) with 128; lia). change (Z.of_nat 127) with 127.
  set (V := Uint128.val a) in *. set (l := V mod 2 ^ 127).
  assert ((2 * V + Z.b2z filled) mod 2 ^ 128 = 2 * l + Z.b2z filled) as -> by (unfold l; lia).
  rewrite (bit_count_snoc 127 l filled). pose proof (Uint128Facts.bit_count_bounds 127 l) as B127. change (Z.of_nat 127) with 127 in B127.
  replace (Uint128.bit_count 127 l + V / 2 ^ 127 - V / 2 ^ 127) with (Uint128.bit_count 127 l) by lia.
  unfold wrap. rewrite (Z.mod_small (Uint128.bit_count 127 l)) by lia. rewrite Z.mod_small by lia. lia.
Qed.
(** The bits of [recent_slots_filled] after a block and the slots missed before it. *)
Lemma fill_slots_ok n p : participation_ok p -> participation_ok (fill_slots n p) /\
  Uint128.val (Dgpo.recent_slots_filled (fill_slots n p)) =
    (2 * Uint128.val (Dgpo.recent_slots_filled p) + 1) * 2 ^ Z.of_nat n mod 2 ^ 128.
Proof.
  intros Hp. unfold fill_slots. induction n as [|n [IH1 IH2]].
  - cbn [Nat.iter]. rewrite Z.mul_1_r. by apply (fill_slot_ok true).
  - rewrite Nat.iter_succ. destruct (fill_slot_ok false _ IH1) as [H1 H2]. split; [done|]. rewrite H2, IH2. cbn [Z.b2z].
    rewrite Z.add_0_r, Zmult_mod_idemp_r. f_equal. rewrite Nat2Z.inj_succ, Z.pow_succ_r by lia. ring.
Qed.

(** What [take_block] leaves to the other counters. *)
Lemma take_block_fields b n p :
  Dgpo.recent_slots_filled (take_block b n p) = Dgpo.recent_slots_filled (fill_slots n p) /\
  Dgpo.participation_count (take_block b n p) = Dgpo.participation_count (fill_slots n p) /\
  Dgpo.time (take_block b n p) = sb_timestamp b /\ Dgpo.head_block_number (take_block b n p) = block_num b /\
  Dgpo.current_aslot (take_block b n p) = u64 (Dgpo.current_aslot p + u32 (Z.of_nat n + 1)).
Proof.
  unfold take_block. assert (forall n, Dgpo.current_aslot (fill_slots n p) = Dgpo.current_aslot p) as E by (intros m; by induction m).
  rewrite <-(E n). generalize (fill_slots n p) as q. intros q. unfold adjust_reserve_ratio. repeat case_match; done.
Qed.

(** ** The head of the chain *)

Lemma miss_slot_keeps b i d u d' : miss_slot b i d = Ok (u, d') -> dgpo d' = dgpo d /\ schedule d' = schedule d.
Proof.
  unfold miss_slot, get_witness. intros H. step H. step H as n En. step H as w Ew. destruct (String.eqb _ _).
  - by apply st_ret_Ok in H as [_ ->].
  - by apply modify_Ok in H as (? & ? & _ & _ & ->).
Qed.

Lemma update_dynamic_Ok skip b d r d' : head_block_time d <> 0 -> update_global_dynamic_data skip b d = Ok (r, d') ->
  get_slot_at_time (sb_timestamp b) d <> 0 /\ schedule d' = schedule d /\
  dgpo d' = take_block b (Z.to_nat (get_slot_at_time (sb_timestamp b) d - 1)) (dgpo d) /\
  r = u32 (u32 (head_block_num d' - Dgpo.last_irreversible_block_num (dgpo d')) + 1) /\
  (skip = false -> u32 (head_block_num d' - Dgpo.last_irreversible_block_num (dgpo d')) < BTCM_MAX_UNDO_HISTORY).
Proof.
  intros Hh H. unfold update_global_dynamic_data in H. step H. rewrite (proj2 (Z.eqb_neq _ 0) Hh) in H. cbn [negb] in H.
  step H as missed Em. step Em as [] E0. destruct (Z.eqb_spec (get_slot_at_time (sb_timestamp b) d) 0) as [|Hs]; [done|].
  apply st_ret_Ok in E0 as [_ ->]. step Em as [] Ef. apply st_ret_Ok in Em as [-> ->].
  apply (for_each_inv (fun e => dgpo e = dgpo d /\ schedule e = schedule d)) in Ef as [E1 E2]; [|intros i e v e' _ [<- <-] He; by eapply miss_slot_keeps|done].
  step H as [] Ed. apply modify_dgpo_Ok in Ed as (p & [= <-] & ->). step H. step H as [] Ec. apply st_ret_Ok in H as [-> ->].
  set (e := x0 <| dgpo := _ |>) in *. assert (dgpo e = take_block b (Z.to_nat (get_slot_at_time (sb_timestamp b) d - 1)) (dgpo d)) as Ee.
  { unfold e. cbn -[take_block]. by rewrite E1. }
  destruct skip; [apply st_ret_Ok in Ec as [_ ->]; by split_and!|].
  destruct (Z.ltb_spec (u32 (head_block_num e - Dgpo.last_irreversible_block_num (dgpo e))) BTCM_MAX_UNDO_HISTORY); [|done].
  apply st_ret_Ok in Ec as [_ ->]. by split_and!.
Qed.


(** ** Irreversibility *)

#[local] Instance by_key_trans {A} (key : A -> Z) : Transitive (by_key key).
Proof. intros x y z. unfold by_key. lia. Qed.
#[local] Instance by_key_total {A} (key : A -> Z) : Total (by_key key).
Proof. intros x y. unfold by_key. lia. Qed.

(** How many have a key of at least [k]. *)
Definition reach {A} (key : A -> Z) (k : Z) (v : list A) : nat := length (List.filter (fun x => k <=? key x) v).

#[local] Instance reach_perm {A} (key : A -> Z) k : Proper ((≡ₚ) ==> eq) (reach key k).
Proof.
  unfold reach. intros v0 w0. induction 1 as [|x v w _ IH|x y v|v w u _ IH1 _ IH2]; cbn; [done| | |lia].
  - destruct (_ <=? _); cbn; lia.
  - by destruct (_ <=? _), (_ <=? _).
Qed.

(** In a sorted vector the element at [n] splits it. *)
Lemma sorted_reach {A} (key : A -> Z) (v : list A) n x : StronglySorted (by_key key) v -> v !! n = Some x ->
  (length v - n <= reach key (key x) v)%nat /\ forall k, key x < k -> (reach key k v < length v - n)%nat.
Proof.
  intros Hs. revert n. induction Hs as [|y v Hs IH Hall]; intros n Hn; [done|]. rewrite Forall_forall in Hall.
  assert (forall k, (reach key k v <= length v)%nat) as Hle by (intros; apply List.filter_length_le).
  destruct n as [|n]; cbn in Hn.
  - injection Hn as ->. split.
    + unfold reach. rewrite forallb_filter_id; [cbn; lia|]. apply forallb_forall. intros z [<-|Hz]; [lia|].
      apply list_elem_of_In in Hz. specialize (Hall _ Hz). unfold by_key in Hall. lia.
    + intros k Hk. unfold reach in *. cbn. destruct (Z.leb_spec k (key x)); [lia|]. specialize (Hle k). cbn in *. lia.
  - destruct (IH n Hn) as [I1 I2]. split.
    + unfold reach in *. cbn. destruct (_ <=? key y); cbn; lia.
    + intros k Hk. specialize (I2 k Hk). unfold reach in *. cbn. assert (key y <= key x) as Hy.
      { apply (Hall x). by eapply list_elem_of_lookup_2. }
      destruct (Z.leb_spec k (key y)); [lia|]. lia.
Qed.

Lemma nth_by_reach {A} (key : A -> Z) n (v : list A) x : nth_by key n v = Ok x ->
  x ∈ v /\ (length v - n <= reach key (key x) v)%nat /\ forall k, key x < k -> (reach key k v < length v - n)%nat.
Proof.
  unfold nth_by. intros H%of_option_Ok. pose proof (merge_sort_Permutation (by_key key) v) as Hp. split.
  - rewrite <-Hp. by eapply list_elem_of_lookup_2.
  - destruct (sorted_reach key (merge_sort (by_key key) v) n x) as [H1 H2]; [apply StronglySorted_merge_sort; apply _|done|].
    rewrite Hp in H1. split; [done|]. intros k Hk. specialize (H2 k Hk). by rewrite Hp in H2.
Qed.
Lemma get_witnesses_same names d l d' : get_witnesses names d = Ok (l, d') -> d' = d /\ length l = length names.
Proof.
  revert l. induction names as [|n names IH]; intros l H; cbn [get_witnesses] in H; unfold get_witness in H.
  { by apply st_ret_Ok in H as [-> ->]. }
  step H as w Ew. step H as l1 El. apply st_ret_Ok in H as [-> ->]. apply IH in El as [-> E]. split; [done|]. cbn. by rewrite E.
Qed.

(** What a witness has confirmed. *)
Definition confirmed (w : Z * Witness.t) : Z := Witness.last_confirmed_block_num w.2.

Lemma offset_reach n m : (n - irreversible_offset n <= m)%nat <-> 51 * Z.of_nat n <= 100 * Z.of_nat m.
Proof.
  unfold irreversible_offset, BTCM_IRREVERSIBLE_THRESHOLD, BTCM_100_PERCENT. change (10000 - 51 * (10000 / 100)) with 4900. lia.
Qed.

(** C33 What is irreversible was confirmed, and stays irreversible: once voting has started the
    last irreversible block never goes back, it moves exactly to the highest block
    that 51 percent of the scheduled witnesses have confirmed, and the update always returns
    when there are witnesses; before that it trails the head by 21 blocks. *)
Theorem irreversible_confirmed d wits : get_witnesses (Schedule.current_shuffled_witnesses (schedule d)) d = Ok (wits, d) ->
  wits <> [] -> (forall w, w ∈ wits -> 0 <= confirmed w < 2 ^ 32) ->
  exists lib, update_last_irreversible_block d = Ok (tt, d <| dgpo ::= (fun p => p <| Dgpo.last_irreversible_block_num := lib |>) |>) /\
  let old := Dgpo.last_irreversible_block_num (dgpo d) in
  if head_block_num d <? BTCM_START_MINER_VOTING_BLOCK
  then lib = (if head_block_num d >? 21 then head_block_num d - 21 else old)
  else old <= lib /\
    (old < lib -> 51 * Z.of_nat (length wits) <= 100 * Z.of_nat (reach confirmed lib wits)) /\
    (forall k, lib < k -> 100 * Z.of_nat (reach confirmed k wits) < 51 * Z.of_nat (length wits)).
Proof.
  intros Hw Hn Hc. unfold update_last_irreversible_block.
  assert (forall d, d <| dgpo ::= (fun p => p <| Dgpo.last_irreversible_block_num := Dgpo.last_irreversible_block_num (dgpo d) |>) |> = d) as Hid.
  { intros e. destruct e as [p]. by destruct p. }
  rewrite (st_bind_run _ _ _ d d) by done. destruct (Z.ltb_spec (head_block_num d) BTCM_START_MINER_VOTING_BLOCK) as [Hs|Hs].
  - eexists. split; [|reflexivity]. unfold modify_dgpo. unfold mbind, st_bind, get_st, lift, modify_st. cbn iota beta.
    change (Dgpo.head_block_number (dgpo d)) with (head_block_num d). change (Z.of_nat BTCM_MAX_MINERS) with 21.
    destruct (head_block_num d >? 21); [by destruct d|]. rewrite Hid. by destruct d.
  - rewrite (st_bind_run _ _ _ _ _ Hw).
    destruct (nth_by confirmed (irreversible_offset (length wits)) wits) as [w|e] eqn:En.
    2: { unfold nth_by, of_option in En. destruct (_ !! _) eqn:El; [done|]. apply lookup_ge_None in El.
         rewrite (merge_sort_Permutation (by_key confirmed)) in El. destruct wits as [|w0 wits]; [done|].
         unfold irreversible_offset, BTCM_IRREVERSIBLE_THRESHOLD, BTCM_100_PERCENT in El.
         change (10000 - 51 * (10000 / 100)) with 4900 in El. cbn [length] in El. lia. }
    fold confirmed. unfold lift at 1. unfold mbind at 1, st_bind at 1. change (fun w : Z * Witness.t => Witness.last_confirmed_block_num w.2) with confirmed.
    rewrite En. cbn iota beta. apply nth_by_reach in En as (Hin & Hr & Hk). specialize (Hc _ Hin).
    change (Witness.last_confirmed_block_num w.2) with (confirmed w). unfold wrap. rewrite Z.mod_small by lia.
    destruct (Z.gtb_spec (confirmed w) (Dgpo.last_irreversible_block_num (dgpo d))) as [Hg|Hg].
    + exists (confirmed w). split; [by destruct d|]. split; [lia|]. split; [intros _; by apply offset_reach|].
      intros k Hk'. specialize (Hk k Hk'). pose proof (offset_reach (length wits) (reach confirmed k wits)). lia.
    + eexists. split; [by rewrite Hid|]. split; [lia|]. split; [lia|].
      intros k Hk'. specialize (Hk k ltac:(lia)). pose proof (offset_reach (length wits) (reach confirmed k wits)). lia.
Qed.
(** ** The shuffle *)

Lemma delete_insert_same {A} i (y : A) l : (i < length l)%nat -> <[i := y]> l ≡ₚ y :: delete i l.
Proof.
  revert i. induction l as [|x l IH]; intros i Hi; cbn in Hi; [lia|]. destruct i as [|i]; [done|].
  cbn. rewrite IH by lia. constructor.
Qed.

Lemma swap_perm {A} i j (l : list A) : swap i j l ≡ₚ l.
Proof.
  unfold swap. destruct (l !! i) as [x|] eqn:Ei; [|done]. destruct (l !! j) as [y|] eqn:Ej; [|done].
  pose proof (lookup_lt_Some _ _ _ Ei) as Hi. pose proof (lookup_lt_Some _ _ _ Ej) as Hj.
  rewrite (delete_insert_same j) by (by rewrite length_insert).
  destruct (decide (i = j)) as [<-|Hij].
  - rewrite Ei in Ej. injection Ej as <-. rewrite (list_insert_id l i x) by done. by rewrite <-delete_Permutation.
  - assert (<[i := y]> l !! j = Some y) as Hy by by rewrite list_lookup_insert_ne.
    assert (delete j (<[i := y]> l) ≡ₚ delete i l) as ->; [|symmetry; by apply delete_Permutation].
    apply (Permutation_cons_inv (a:=y)). etransitivity; [symmetry; by apply delete_Permutation|by apply delete_insert_same].
Qed.

Lemma shuffle_perm {A} now (l : list A) : shuffle now l ≡ₚ l.
Proof.
  unfold shuffle. generalize (seq 0 (length l)) as s. generalize (u64 (Z.shiftl now 32)) as k. intros k s. revert l.
  induction s as [|i s IH]; intros l; cbn [foldl]; [done|]. rewrite IH. apply swap_perm.
Qed.

(** ** The selection *)

(** The witnesses the schedule consists of, said directly: the twenty with the most
    votes of those that have a key, then those with a key that are next in virtual
    time, up to twenty-one. *)
Definition next_witnesses (d : database) : list (Z * Witness.t) :=
  let voted := voted_witnesses d in
  take (BTCM_MAX_MINERS - length voted)
    (List.filter (fun w => can_sign w.2 && negb (bool_decide (w.1 ∈ voted.*1))) (in_order by_schedule_time d)).
Definition selected_witnesses (d : database) : list (Z * Witness.t) := voted_witnesses d ++ next_witnesses d.

Lemma run_active l sel n r : active (run_witnesses l sel n r) = active r ++ ((fun w => Witness.owner w.2) <$>
  take (BTCM_MAX_MINERS - n) (List.filter (fun w => can_sign w.2 && negb (bool_decide (w.1 ∈ sel))) l)).
Proof.
  revert n r. induction l as [|w l IH]; intros n r; cbn [run_witnesses List.filter].
  { by rewrite take_nil, app_nil_r. }
  destruct (Nat.ltb_spec n BTCM_MAX_MINERS) as [Hn|Hn].
  2: { by rewrite (proj2 (Nat.sub_0_le _ _) Hn), app_nil_r. }
  destruct (can_sign w.2); cbn [negb andb]; [|by rewrite IH]. destruct (bool_decide _); cbn [negb]; [by rewrite IH|].
  rewrite IH. cbn [active]. replace (BTCM_MAX_MINERS - n)%nat with (S (BTCM_MAX_MINERS - S n)) by lia.
  cbn [take fmap list_fmap]. by rewrite <-app_assoc.
Qed.

Lemma select_active d : active (select_witnesses d) = (fun w => Witness.owner w.2) <$> selected_witnesses d.
Proof. unfold select_witnesses, selected_witnesses, next_witnesses. by rewrite run_active, fmap_app. Qed.

Lemma voted_length d : (length (voted_witnesses d) <= BTCM_MAX_VOTED_WITNESSES)%nat.
Proof. unfold voted_witnesses. rewrite length_take. lia. Qed.

Lemma selected_length d : (length (selected_witnesses d) <= BTCM_MAX_MINERS)%nat.
Proof.
  unfold selected_witnesses, next_witnesses. rewrite length_app, length_take. pose proof (voted_length d).
  unfold BTCM_MAX_MINERS in *. lia.
Qed.

Lemma filter_elem {A} (f : A -> bool) l x : x ∈ List.filter f l <-> x ∈ l /\ f x = true.
Proof. rewrite !list_elem_of_In. apply filter_In. Qed.

Lemma take_elem {A} n (l : list A) x : x ∈ take n l -> x ∈ l.
Proof. intros H. rewrite <-(take_drop n l). apply elem_of_app. by left. Qed.

Lemma selected_row d w : w ∈ selected_witnesses d -> get_opt d w.1 = Some w.2 /\ can_sign w.2 = true.
Proof.
  intros [H|H]%elem_of_app; apply take_elem, filter_elem in H as [H Hf].
  - split; [|done]. destruct w. by apply in_order_elem in H.
  - apply andb_true_iff in Hf as [Hf _]. split; [|done]. destruct w. by apply in_order_elem in H.
Qed.

Lemma order_ids {le : Z * Witness.t -> Z * Witness.t -> Prop} `{!RelDecision le} d : NoDup (in_order le d).*1.
Proof. unfold in_order. rewrite merge_sort_Permutation. apply NoDup_fst_map_to_list. Qed.

Lemma filter_ids (f : Z * Witness.t -> bool) n (l : list (Z * Witness.t)) : NoDup l.*1 -> NoDup (take n (List.filter f l)).*1.
Proof.
  intros H. rewrite fmap_take. eapply sublist_NoDup; [|apply sublist_take]. eapply sublist_NoDup; [exact H|].
  clear H. induction l as [|x l IH]; cbn; [constructor|]. destruct (f x); cbn; by constructor.
Qed.

Lemma selected_ids d : NoDup (selected_witnesses d).*1.
Proof.
  unfold selected_witnesses. rewrite fmap_app. apply NoDup_app. split; [apply filter_ids, order_ids|]. split; [|apply filter_ids, order_ids].
  intros i Hi (w & -> & Hw)%list_elem_of_fmap. apply take_elem, filter_elem in Hw as [_ Hw].
  apply andb_true_iff in Hw as [_ Hw]. apply negb_true_iff, bool_decide_eq_false in Hw. done.
Qed.
(** A name has one witness. *)
Definition owners_unique (d : database) : Prop := forall i j (w v : Witness.t),
  get_opt d i = Some w -> get_opt d j = Some v -> Witness.owner w = Witness.owner v -> i = j.

Lemma owners_nodup d l : owners_unique d -> (forall w, w ∈ l -> get_opt d w.1 = Some w.2) -> NoDup l.*1 ->
  NoDup ((fun w : Z * Witness.t => Witness.owner w.2) <$> l).
Proof.
  intros Hu. induction l as [|w l IH]; intros Hl Hd; cbn in *; [constructor|]. apply NoDup_cons in Hd as [Hn Hd]. constructor.
  - intros (v & E & Hv)%list_elem_of_fmap. apply Hn. apply list_elem_of_fmap. exists v. split; [|done].
    apply (Hu w.1 v.1 w.2 v.2); [|by apply Hl; right|done]. by apply Hl; left.
  - apply IH; [|done]. intros v Hv. by apply Hl; right.
Qed.

(** ** Virtual time *)

(** A witness without its place in virtual time. *)
Definition settled (w : Witness.t) : Witness.t :=
  w <| Witness.virtual_last_update := Uint128.zero |> <| Witness.virtual_position := Uint128.zero |>
    <| Witness.virtual_scheduled_time := Uint128.zero |>.

(** Only places in virtual time change. *)
Record drifted (d d' : database) : Prop := {
  drift_dgpo : dgpo d' = dgpo d;
  drift_names : Schedule.current_shuffled_witnesses (schedule d') = Schedule.current_shuffled_witnesses (schedule d);
  drift_rows : settled <$> indices (witnesses d') = settled <$> indices (witnesses d)
}.

Lemma drifted_refl d : drifted d d.
Proof. by split. Qed.
Lemma drifted_trans d1 d2 d3 : drifted d1 d2 -> drifted d2 d3 -> drifted d1 d3.
Proof. intros [A1 A2 A3] [B1 B2 B3]. split; congruence. Qed.

Lemma drifted_set d i (w v : Witness.t) : get_opt d i = Some w -> settled v = settled w -> drifted d (set_obj d i v).
Proof.
  intros Hw Hv. split; [done..|]. unfold get_opt in Hw. cbn in *. rewrite fmap_insert, Hv, <-fmap_insert.
  by rewrite insert_id.
Qed.

Lemma drifted_modify i f d u d' : (forall w v, f w = Ok v -> settled v = settled w) ->
  modify (V:=Witness.t) i f d = Ok (u, d') -> drifted d d'.
Proof. intros Hf H. apply modify_Ok in H as (w & v & Hw & Hv & ->). eapply drifted_set; [exact Hw|eauto]. Qed.

Lemma drifted_row d d' i w : drifted d d' -> get_opt d i = Some w -> exists v, get_opt d' i = Some v /\ settled v = settled w.
Proof.
  intros [_ _ H] Hw. apply (f_equal (lookup i)) in H. rewrite !lookup_fmap in H. unfold get_opt in *. cbn in *. rewrite Hw in H.
  destruct (indices (witnesses d') !! i) as [v|]; [|done]. apply (inj Some) in H. by exists v.
Qed.

Lemma modify_schedule_Ok f d u d' : modify_schedule f d = Ok (u, d') -> exists s, f (schedule d) = Ok s /\ d' = d <| schedule := s |>.
Proof.
  unfold modify_schedule, mbind, st_bind, get_st, lift, modify_st. destruct (f (schedule d)) as [s|]; [|done]. intros [= _ <-]. by exists s.
Qed.

Section Scheduling.
Context {B : BoostMP}.

Lemma advance_drifted l t d r d' : advance_witnesses l t d = Ok (r, d') -> drifted d d'.
Proof.
  revert d. induction l as [|i l IH]; intros d H; cbn [advance_witnesses] in H.
  { apply st_ret_Ok in H as [_ ->]. apply drifted_refl. }
  step H as w Ew. step H as t' Et. destruct (Uint128.ltb _ _); [apply st_ret_Ok in H as [_ ->]; apply drifted_refl|].
  step H as [] E1. eapply drifted_trans; [|by eapply IH]. eapply drifted_modify; [|exact E1]. by intros a b [= <-].
Qed.

Lemma reset_drifted d u d' : reset_virtual_schedule_time d = Ok (u, d') -> drifted d d'.
Proof.
  intros H. unfold reset_virtual_schedule_time in H. step H as [] E1. apply modify_schedule_Ok in E1 as (s & [= <-] & ->).
  step H. eapply drifted_trans; [|eapply (for_each_inv (drifted _)); [|apply drifted_refl|exact H]].
  - by split.
  - intros w e v e' _ He Hm. eapply drifted_trans; [exact He|]. eapply drifted_modify; [|exact Hm].
    intros a b Hb. unfold reset_witness in Hb. apply bind_Ok in Hb as (t & _ & [= <-]). done.
Qed.

(** ** Medians *)

Definition is_median {A} (key : A -> Z) (x : Z) (v : list A) : Prop :=
  (length v - length v / 2 <= reach key x v)%nat /\ forall k, x < k -> (reach key k v < length v - length v / 2)%nat.

Lemma get_witnesses_ext names d d' l : witnesses d' = witnesses d -> get_witnesses names d = Ok (l, d) ->
  get_witnesses names d' = Ok (l, d').
Proof.
  intros E. revert l. induction names as [|n names IH]; intros l H; cbn [get_witnesses] in *.
  { by apply st_ret_Ok in H as [-> _]. }
  unfold get_witness in *. step H as w Ew. step H as l1 El. apply st_ret_Ok in H as [-> ->].
  rewrite (st_bind_run _ _ _ w d'); [|apply get_where_Ok; split; [|done]; rewrite <-Ew; unfold lookup_where; cbn; by rewrite E].
  by rewrite (st_bind_run _ _ _ _ _ (IH _ El)).
Qed.

Definition medians_ok (d : database) : Prop :=
  exists wits, get_witnesses (Schedule.current_shuffled_witnesses (schedule d)) d = Ok (wits, d) /\
  let props (w : Z * Witness.t) := Witness.props w.2 in
  let median := Schedule.median_props (schedule d) in
  is_median (fun w => amount (ChainProps.account_creation_fee (props w))) (amount (ChainProps.account_creation_fee median)) wits /\
  is_median (fun w => amount (ChainProps.streaming_platform_update_fee (props w)))
    (amount (ChainProps.streaming_platform_update_fee median)) wits /\
  is_median (fun w => ChainProps.maximum_block_size (props w)) (Dgpo.maximum_block_size (dgpo d)) wits /\
  is_median (fun w => ChainProps.mbd_interest_rate (props w)) (Dgpo.mbd_interest_rate (dgpo d)) wits.

Lemma median_by_Ok {A} (key : A -> Z) v x : median_by key v = Ok x -> is_median key (key x) v.
Proof. intros H. apply nth_by_reach in H as [_ H]. exact H. Qed.

Lemma update_medians d u d' : update_median_witness_props d = Ok (u, d') ->
  medians_ok d' /\ witnesses d' = witnesses d /\
  Schedule.current_shuffled_witnesses (schedule d') = Schedule.current_shuffled_witnesses (schedule d) /\
  Schedule.next_shuffle_block_num (schedule d') = Schedule.next_shuffle_block_num (schedule d) /\
  Dgpo.head_block_number (dgpo d') = Dgpo.head_block_number (dgpo d).
Proof.
  intros H. unfold update_median_witness_props in H. step H. step H as wits Ew. pose proof (get_witnesses_same _ _ _ _ Ew) as [-> _].
  step H as f Ef. step H as [] E1. step H as g Eg. step H as [] E2. step H as m Em. step H as [] E3. step H as q Eq.
  apply modify_schedule_Ok in E1 as (s1 & [= <-] & ->). apply modify_schedule_Ok in E2 as (s2 & [= <-] & ->). apply modify_dgpo_Ok in E3 as (p3 & [= <-] & ->).
  apply modify_dgpo_Ok in H as (p4 & [= <-] & ->). split; [|done]. exists wits.
  split; [by eapply get_witnesses_ext; [|exact Ew]|]. apply median_by_Ok in Ef, Eg, Em, Eq. done.
Qed.
(** C34 A new schedule is a shuffle of the witnesses selected: the twenty with the most votes
    and those next in virtual time, each of whom has a key and is there once; the
    next shuffle is due after one slot for each, and every property of the chain
    the schedule votes on becomes the median of what its witnesses ask for. *)
Theorem schedule_selects d d' : owners_unique d -> update_witness_schedule4 d = Ok (tt, d') ->
  let names := Schedule.current_shuffled_witnesses (schedule d') in
  names ≡ₚ ((fun w => Witness.owner w.2) <$> selected_witnesses d) /\
  NoDup names /\ (length names <= BTCM_MAX_MINERS)%nat /\
  (forall n, n ∈ names -> exists i w, get_opt d' i = Some w /\ Witness.owner w = n /\ can_sign w = true) /\
  Schedule.next_shuffle_block_num (schedule d') = u32 (head_block_num d + Z.of_nat (length names)) /\
  medians_ok d'.
Proof.
  intros Hu H. unfold update_witness_schedule4 in H. step H. step H as reset E1. apply advance_drifted in E1.
  step H as now E2. assert (drifted d x0) as D.
  { destruct reset; [|apply st_ret_Ok in E2 as [_ ->]; done]. step E2 as [] E3. apply st_ret_Ok in E2 as [_ ->].
    eapply drifted_trans; [exact E1|by eapply reset_drifted]. }
  step H as [] E3. step H as cur E4. apply get_witnesses_same in E4 as [-> _]. step H as [] E5.
  unfold modify_hardforks in E5. step E5. step E5 as h Eh. apply modify_st_Ok in E5 as ->.
  step H as [] E6. apply modify_schedule_Ok in E6 as (s & [= <-] & ->). apply update_medians in H as (Hm & Ew & En & Ex & Eh2).
  rewrite En, Ex.
  set (names := Schedule.current_shuffled_witnesses _).
  assert (names ≡ₚ ((fun w => Witness.owner w.2) <$> selected_witnesses d)) as Hp by (unfold names; cbn; rewrite shuffle_perm; by rewrite select_active).
  split; [done|]. split; [|split; [|split; [|split; [|done]]]].
  - rewrite Hp. apply (owners_nodup d); [done| |apply selected_ids]. intros w Hw. by apply selected_row.
  - rewrite Hp, length_fmap. apply selected_length.
  - intros n Hn. rewrite Hp in Hn. apply list_elem_of_fmap in Hn as (w & -> & Hw). apply selected_row in Hw as [Hr Hc].
    destruct (drifted_row d x0 _ _ D Hr) as (v & Hv & E). exists w.1, v. split.
    + unfold get_opt in *. cbn in *. by rewrite Ew.
    + apply (f_equal (fun w => (Witness.owner w, Witness.signing_key w))) in E. cbn in E. injection E as Eo Ek.
      split; [done|]. unfold can_sign in *. by rewrite Ek.
  - reflexivity.
Qed.
End Scheduling.

(** ** What the code does not do *)

(** A feed never is too old: its time is compared with one a week ahead. *)
Lemma feed_age_never_checked now w : Witness.last_mbd_exchange_update w <= now ->
  usable_feed now w = negb (is_null (Witness.mbd_exchange_rate w)).
Proof.
  intros H. unfold usable_feed. by assert (Witness.last_mbd_exchange_update w <? now + BTCM_MAX_FEED_AGE = true) as ->
    by (unfold BTCM_MAX_FEED_AGE; lia).
Qed.

(** The maximum bandwidth of 128 kB blocks wraps as soon as the reserve ratio is 233. *)
Lemma bandwidth_wraps : let p r := default_dgpo <| Dgpo.maximum_block_size := 131072 |> <| Dgpo.current_reserve_ratio := r |> in
  max_virtual_bandwidth (p 233) < max_virtual_bandwidth (p 232) / 100.
Proof. vm_compute. reflexivity. Qed.

(** ** A block *)

#[local] Existing Instance boost_reference.

(** Two witnesses with keys take turns; nancy missed her slot. *)
Definition two_witnesses : database :=
  Sample.state <| witnesses ::= (fun t => t <| indices ::= fun m => (fun w => w <| Witness.signing_key := 5 |>) <$> m |>) |>
    <| schedule ::= (fun o => o <| Schedule.current_shuffled_witnesses := ["alice"; "nancy"] |>) |>.
Definition late_block : signed_block := SignedBlock (BlockId 0 0) (BTCM_GENESIS_TIME + 7) "alice" [] 77 5 200.

Lemma two_witnesses_clock : clock_ok two_witnesses.
Proof. by split. Qed.



(** A day later, alice has confirmed block 29000 and nancy 28990. *)
Definition voting : database :=
  two_witnesses <| dgpo ::= (fun p => p <| Dgpo.head_block_number := 29000 |>) |>
    <| witnesses ::= (fun t => t <| indices ::= fun m => (fun w : Witness.t =>
         w <| Witness.last_confirmed_block_num := if String.eqb (Witness.owner w) "alice" then 29000 else 28990 |>) <$> m |>) |>.

Lemma irreversible_confirmed_witness : exists lib wits,
  get_witnesses ["alice"; "nancy"] voting = Ok (wits, voting) /\
  update_last_irreversible_block voting = Ok (tt, voting <| dgpo ::= (fun p => p <| Dgpo.last_irreversible_block_num := lib |>) |>) /\
  0 <= lib /\ forall k, lib < k -> 100 * Z.of_nat (reach confirmed k wits) < 102.
Proof.
  destruct (get_witnesses ["alice"; "nancy"] voting) as [[wits d]|e] eqn:E; [|exfalso; by vm_compute in E].
  pose proof (get_witnesses_same _ _ _ _ E) as [-> _]. pose proof E as E'. vm_compute in E'. injection E' as Ew.
  destruct (irreversible_confirmed voting wits E) as (lib & H1 & H2).
  - by subst.
  - subst. intros w Hw. rewrite !elem_of_cons, elem_of_nil in Hw. destruct Hw as [->|[->|[]]]; by vm_compute.
  - exists lib, wits. split; [done|]. split; [exact H1|]. change (head_block_num voting <? BTCM_START_MINER_VOTING_BLOCK) with false in H2.
    destruct H2 as (H2 & _ & H3). split; [done|]. subst wits. exact H3.
Defined.

Lemma schedule_selects_witness : is_ok (update_witness_schedule4 two_witnesses) = true /\
  Schedule.current_shuffled_witnesses (schedule (Sample.after update_witness_schedule4 two_witnesses)) ≡ₚ ["alice"; "nancy"].
Proof.
  split; [vm_compute; reflexivity|].
  destruct (schedule_selects two_witnesses (Sample.after update_witness_schedule4 two_witnesses)) as [H _].
  - assert (forall i w, get_opt two_witnesses i = Some w -> i = if String.eqb (Witness.owner w) "alice" then 0 else 1) as Hr
      by (refine (Sample.table_all _ _ _ _ _); [vm_compute; reflexivity|repeat constructor]).
    intros i j w v Hi%Hr Hj%Hr E. by rewrite Hi, Hj, E.
  - apply Sample.after_run. vm_compute. reflexivity.
  - etransitivity; [exact H|]. vm_compute. reflexivity.
Defined.
End BlockFacts.
