(* ===== verification/Accounts.v ===== *)
(** * Accounts and their recovery

    Models the account operations of protocol/base_operations.cpp and their
    evaluators in base_evaluator.cpp: creating accounts, with and without a
    delegation, updating their authorities, challenging and proving them, and the
    recovery of an account whose owner key is lost, with
    [update_owner_authority] and [account_recovery_processing] of database.cpp. *)

From S2P Require Import Prelude.
From S2P Require Import SafeInt.
From S2P Require Import Uint128.
From S2P Require Import Asset.
From S2P Require Import UndoDatabase.
From S2P Require Import Authority.
From S2P Require Import State.
From S2P Require Import Balance.
From S2P Require Import Vesting.
From S2P Require Import Delegations.
From S2P Require Import Blocks.

Definition BTCM_OWNER_AUTH_RECOVERY_PERIOD : Z := 30 * 24 * 60 * 60.
Definition BTCM_ACCOUNT_RECOVERY_REQUEST_EXPIRATION_PERIOD : Z := 24 * 60 * 60.
Definition BTCM_OWNER_UPDATE_LIMIT : Z := 60 * 60.
Definition BTCM_ACTIVE_CHALLENGE_FEE : asset := Asset 20000 BTCM_SYMBOL.
Definition BTCM_ACTIVE_CHALLENGE_COOLDOWN : Z := 24 * 60 * 60.
Definition BTCM_CREATE_ACCOUNT_DELEGATION_RATIO : Z := 5.
Definition BTCM_CREATE_ACCOUNT_DELEGATION_TIME : Z := 30 * 24 * 60 * 60.
Definition BTCM_TEMP_ACCOUNT : string := "temp".

Module Accounts.
Import AssetOps.
Import Balances.
Import Vesting.
Import Delegations.
Import Blocks.

Record account_create_operation := AccountCreateOp {
  ac_fee : asset;
  ac_creator : string;
  ac_new_account_name : string;
  ac_owner : authority;
  ac_active : authority;
  ac_basic : authority;
  ac_memo_key : public_key;
  ac_json_metadata : string
}.
Record account_create_with_delegation_operation := AccountDelegateOp {
  ad_fee : asset;
  ad_delegation : asset;
  ad_creator : string;
  ad_new_account_name : string;
  ad_owner : authority;
  ad_active : authority;
  ad_basic : authority;
  ad_memo_key : public_key;
  ad_json_metadata : string
}.
Record account_update_operation := AccountUpdateOp {
  au_account : string;
  au_owner : option authority;
  au_active : option authority;
  au_basic : option authority;
  au_memo_key : public_key;
  au_json_metadata : string
}.
Record challenge_authority_operation := ChallengeOp { ch_challenger : string; ch_challenged : string; ch_require_owner : bool }.
Record prove_authority_operation := ProveOp { pa_challenged : string; pa_require_owner : bool }.
Record request_account_recovery_operation := RequestRecoveryOp {
  rr_recovery_account : string;
  rr_account_to_recover : string;
  rr_new_owner_authority : authority
}.
Record recover_account_operation := RecoverOp {
  rc_account_to_recover : string;
  rc_new_owner_authority : authority;
  rc_recent_owner_authority : authority
}.
Record change_recovery_account_operation := ChangeRecoveryOp { cr_account_to_recover : string; cr_new_recovery_account : string }.

(** ** Validation *)

Section Validate.
Context {B : BoostMP} {T : TextChecks}.

Definition is_asset_type (a : asset) (id : Z) : bool := asset_id a =? id.
Definition validate_json (json : string) : result unit :=
  if (0 <? String.length json)%nat then _ ← fc_assert (is_utf8 json); fc_assert (json_is_valid json) else Ok tt.
Definition assert_geb (a b : asset) : result unit := x ← asset_geb a b; fc_assert x.

Definition account_create_validate (o : account_create_operation) : result unit :=
  _ ← fc_assert (Names.is_valid_account_name (ac_new_account_name o));
  _ ← fc_assert (is_asset_type (ac_fee o) BTCM_SYMBOL);
  _ ← Names.validate (ac_owner o);
  _ ← Names.validate (ac_active o);
  _ ← Names.validate (ac_basic o);
  _ ← validate_json (ac_json_metadata o);
  assert_geb (ac_fee o) (Asset 0 BTCM_SYMBOL).

Definition account_create_with_delegation_validate (o : account_create_with_delegation_operation) : result unit :=
  _ ← fc_assert (Names.is_valid_account_name (ad_new_account_name o));
  _ ← fc_assert (Names.is_valid_account_name (ad_creator o));
  _ ← fc_assert (is_asset_type (ad_fee o) BTCM_SYMBOL);
  _ ← fc_assert (is_asset_type (ad_delegation o) VESTS_SYMBOL);
  _ ← Names.validate (ad_owner o);
  _ ← Names.validate (ad_active o);
  _ ← Names.validate (ad_basic o);
  _ ← validate_json (ad_json_metadata o);
  _ ← assert_geb (ad_fee o) (Asset 0 BTCM_SYMBOL);
  assert_geb (ad_delegation o) (Asset 0 VESTS_SYMBOL).

Definition validate_opt (a : option authority) : result unit := match a with Some a => Names.validate a | None => Ok tt end.
Definition account_update_validate (o : account_update_operation) : result unit :=
  _ ← fc_assert (negb (String.eqb (au_account o) BTCM_TEMP_ACCOUNT));
  _ ← fc_assert (Names.is_valid_account_name (au_account o));
  _ ← validate_opt (au_owner o);
  _ ← validate_opt (au_active o);
  _ ← validate_opt (au_basic o);
  validate_json (au_json_metadata o).

Definition challenge_authority_validate (o : challenge_authority_operation) : result unit :=
  _ ← fc_assert (Names.is_valid_account_name (ch_challenger o));
  _ ← fc_assert (Names.is_valid_account_name (ch_challenged o));
  fc_assert (negb (String.eqb (ch_challenged o) (ch_challenger o))).
Definition prove_authority_validate (o : prove_authority_operation) : result unit :=
  fc_assert (Names.is_valid_account_name (pa_challenged o)).
Definition request_account_recovery_validate (o : request_account_recovery_operation) : result unit :=
  _ ← fc_assert (Names.is_valid_account_name (rr_recovery_account o));
  _ ← fc_assert (Names.is_valid_account_name (rr_account_to_recover o));
  Names.validate (rr_new_owner_authority o).
Definition recover_account_validate (o : recover_account_operation) : result unit :=
  _ ← fc_assert (Names.is_valid_account_name (rc_account_to_recover o));
  _ ← fc_assert (negb (bool_decide (rc_new_owner_authority o = rc_recent_owner_authority o)));
  _ ← fc_assert (negb (Names.is_impossible (rc_new_owner_authority o)));
  _ ← fc_assert (negb (Names.is_impossible (rc_recent_owner_authority o)));
  _ ← fc_assert (negb (weight_threshold (rc_new_owner_authority o) =? 0));
  _ ← Names.validate (rc_new_owner_authority o);
  Names.validate (rc_recent_owner_authority o).
Definition change_recovery_account_validate (o : change_recovery_account_operation) : result unit :=
  _ ← fc_assert (Names.is_valid_account_name (cr_account_to_recover o));
  fc_assert (Names.is_valid_account_name (cr_new_recovery_account o)).
End Validate.

(** ** Creating accounts *)

Section Evaluators.
Context {B : BoostMP} {T : TextChecks}.

Definition check_json (json : string) : st database unit :=
  if (0 <? String.length json)%nat then assert_st (json_is_valid json) else mret tt.

Definition new_account (now : Z) (name : string) (owner active basic : authority) (memo_key : public_key) (json : string) : Account.t :=
  default_account <| Account.name := name |> <| Account.owner := owner |> <| Account.active := active |>
    <| Account.basic := basic |> <| Account.memo_key := memo_key |> <| Account.last_owner_update := 0 |>
    <| Account.created := now |> <| Account.last_vote_time := now |> <| Account.json_metadata := json |>.

(** [c.balance -= o.fee] *)
Definition charge (fee : asset) (c : Account.t) : result Account.t :=
  b ← asset_sub (Account.balance c) fee; Ok (c <| Account.balance := b |>).

Definition vest_fee (i : Z) (fee : asset) : st database unit :=
  if amount fee >? 0 then _ ← create_vesting i fee; mret tt else mret tt.

Definition account_create_apply (o : account_create_operation) : st database unit :=
  _ ← check_json (ac_json_metadata o);
  creator ← get_account (ac_creator o);
  d ← get_st;
  _ ← (if head_block_num d >? 0 then
         _ ← assert_asset (asset_geb (Account.balance creator.2) (ac_fee o));
         assert_asset (asset_geb (ac_fee o) (ChainProps.account_creation_fee (Schedule.median_props (schedule d))))
       else mret tt);
  _ ← modify creator.1 (charge (ac_fee o));
  i ← create (new_account (head_block_time d) (ac_new_account_name o) (ac_owner o) (ac_active o) (ac_basic o)
                (ac_memo_key o) (ac_json_metadata o) <| Account.recovery_account := ac_creator o |>);
  vest_fee i (ac_fee o).

Definition accounts_exist (l : list (string * Z)) : st database unit :=
  for_each l (fun a => _ ← get_account a.1; mret tt).

(** What a fee is worth as a delegation. *)
Definition delegation_worth (fee : Z) (p : price) : result asset :=
  n ← Safe.mul fee BTCM_CREATE_ACCOUNT_DELEGATION_RATIO; asset_mul (Asset n BTCM_SYMBOL) p.

Definition account_create_with_delegation_apply (o : account_create_with_delegation_operation) : st database unit :=
  creator ← get_account (ad_creator o);
  d ← get_st;
  let fee := ChainProps.account_creation_fee (Schedule.median_props (schedule d)) in
  _ ← assert_asset (asset_geb (Account.balance creator.2) (ad_fee o));
  available ← lift (available_shares creator.2);
  _ ← assert_asset (asset_geb available (ad_delegation o));
  target_delegation ← lift (delegation_worth (amount fee) (get_vesting_share_price (dgpo d)));
  worth ← lift (delegation_worth (amount (ad_fee o)) (get_vesting_share_price (dgpo d)));
  current_delegation ← lift (asset_add worth (ad_delegation o));
  _ ← assert_asset (asset_geb current_delegation target_delegation);
  _ ← accounts_exist (account_auths (ad_owner o));
  _ ← accounts_exist (account_auths (ad_active o));
  _ ← accounts_exist (account_auths (ad_basic o));
  _ ← modify creator.1 (fun c => c ← charge (ad_fee o) c; add_delegated (ad_delegation o) c);
  i ← create (new_account (head_block_time d) (ad_new_account_name o) (ad_owner o) (ad_active o) (ad_basic o)
                (ad_memo_key o) (ad_json_metadata o) <| Account.received_vesting_shares := ad_delegation o |>);
  _ ← (if amount (ad_delegation o) >? 0 then
         _ ← create (Delegation.Make (ad_creator o) (ad_new_account_name o) (ad_delegation o)
               (u32 (head_block_time d + BTCM_CREATE_ACCOUNT_DELEGATION_TIME)));
         mret tt
       else mret tt);
  vest_fee i (ad_fee o).

(** ** Updating and challenging *)

Definition update_owner_authority (i : Z) (owner_authority : authority) : st database unit :=
  account ← get (V:=Account.t) i;
  d ← get_st;
  let now := head_block_time d in
  _ ← create (OwnerHistory.Make (Account.name account) (Account.owner account) now);
  modify_pure i (fun a : Account.t => a <| Account.owner := owner_authority |> <| Account.last_owner_update := now |>).

Definition is_given (a : option authority) : bool := match a with Some _ => true | None => false end.

Definition update_account (now : Z) (o : account_update_operation) (acc : Account.t) : Account.t :=
  let acc := match au_active o with Some a => acc <| Account.active := a |> | None => acc end in
  let acc := match au_basic o with Some a => acc <| Account.basic := a |> | None => acc end in
  let acc := if negb (au_memo_key o =? null_key) then acc <| Account.memo_key := au_memo_key o |> else acc in
  let acc := if (is_given (au_active o) || is_given (au_owner o)) && Account.active_challenged acc
             then acc <| Account.active_challenged := false |> <| Account.last_active_proved := now |> else acc in
  if (0 <? String.length (au_json_metadata o))%nat then acc <| Account.json_metadata := au_json_metadata o |> else acc.

Definition account_update_apply (o : account_update_operation) : st database unit :=
  _ ← check_json (au_json_metadata o);
  _ ← assert_st (negb (String.eqb (au_account o) BTCM_TEMP_ACCOUNT));
  account ← get_account (au_account o);
  d ← get_st;
  _ ← match au_owner o with
      | Some owner =>
          _ ← assert_st (head_block_time d - Account.last_owner_update account.2 >? BTCM_OWNER_UPDATE_LIMIT);
          update_owner_authority account.1 owner
      | None => mret tt
      end;
  modify_pure account.1 (update_account (head_block_time d) o).

Definition challenge_authority_apply (o : challenge_authority_operation) : st database unit :=
  challenged ← get_account (ch_challenged o);
  challenger ← get_account (ch_challenger o);
  if ch_require_owner o then throw assert_exception
  else
    _ ← assert_asset (asset_geb (Account.balance challenger.2) BTCM_ACTIVE_CHALLENGE_FEE);
    _ ← assert_st (negb (Account.owner_challenged challenged.2 || Account.active_challenged challenged.2));
    d ← get_st;
    _ ← assert_st (head_block_time d - Account.last_active_proved challenged.2 >? BTCM_ACTIVE_CHALLENGE_COOLDOWN);
    n ← lift (asset_neg BTCM_ACTIVE_CHALLENGE_FEE);
    _ ← adjust_balance challenger.1 n;
    to ← get_account (ch_challenged o);
    _ ← create_vesting to.1 BTCM_ACTIVE_CHALLENGE_FEE;
    modify_pure challenged.1 (fun a : Account.t => a <| Account.active_challenged := true |>).

Definition prove_authority_apply (o : prove_authority_operation) : st database unit :=
  challenged ← get_account (pa_challenged o);
  _ ← assert_st (Account.owner_challenged challenged.2 || Account.active_challenged challenged.2);
  d ← get_st;
  let now := head_block_time d in
  modify_pure challenged.1 (fun a : Account.t =>
    let a := a <| Account.active_challenged := false |> <| Account.last_active_proved := now |> in
    if pa_require_owner o then a <| Account.owner_challenged := false |> <| Account.last_owner_proved := now |> else a).

(** ** Recovery *)

(** The account whose request an account accepts: the one it named, or the witness
    with the most votes. *)
Definition is_recovery_account (name : string) (a : Account.t) : st database unit :=
  if (0 <? String.length (Account.recovery_account a))%nat then assert_st (String.eqb (Account.recovery_account a) name)
  else
    d ← get_st;
    match in_order Blocks.by_vote_name d with
    | w :: _ => assert_st (String.eqb (Witness.owner w.2) name)
    | [] => throw undefined_behaviour
    end.

Definition find_request (name : string) : st database (option (Z * RecoveryRequest.t)) :=
  find_where (fun r => String.eqb (RecoveryRequest.account_to_recover r) name).

Definition request_account_recovery_apply (o : request_account_recovery_operation) : st database unit :=
  account_to_recover ← get_account (rr_account_to_recover o);
  _ ← is_recovery_account (rr_recovery_account o) account_to_recover.2;
  request ← find_request (rr_account_to_recover o);
  d ← get_st;
  let expires := u32 (head_block_time d + BTCM_ACCOUNT_RECOVERY_REQUEST_EXPIRATION_PERIOD) in
  match request with
  | None =>
      _ ← assert_st (negb (Names.is_impossible (rr_new_owner_authority o)));
      _ ← assert_st (negb (weight_threshold (rr_new_owner_authority o) =? 0));
      _ ← create (RecoveryRequest.Make (rr_account_to_recover o) (rr_new_owner_authority o) expires);
      mret tt
  | Some (i, _) =>
      if weight_threshold (rr_new_owner_authority o) =? 0 then remove (V:=RecoveryRequest.t) i
      else
        _ ← assert_st (negb (Names.is_impossible (rr_new_owner_authority o)));
        modify_pure i (fun r : RecoveryRequest.t =>
          r <| RecoveryRequest.new_owner_authority := rr_new_owner_authority o |> <| RecoveryRequest.expires := expires |>)
  end.

(** The history of an account has the authority. *)
Definition was_owner (name : string) (a : authority) (d : database) : bool :=
  existsb (fun h => String.eqb (OwnerHistory.account h.2) name && bool_decide (OwnerHistory.previous_owner_authority h.2 = a))
    (map_to_list (indices (owner_histories d))).

Definition recover_account_apply (o : recover_account_operation) : st database unit :=
  account ← get_account (rc_account_to_recover o);
  d ← get_st;
  _ ← assert_st (head_block_time d - Account.last_account_recovery account.2 >? BTCM_OWNER_UPDATE_LIMIT);
  request ← find_request (rc_account_to_recover o);
  match request with
  | None => throw assert_exception
  | Some (i, r) =>
      _ ← assert_st (bool_decide (RecoveryRequest.new_owner_authority r = rc_new_owner_authority o));
      _ ← assert_st (was_owner (rc_account_to_recover o) (rc_recent_owner_authority o) d);
      _ ← remove (V:=RecoveryRequest.t) i;
      _ ← update_owner_authority account.1 (rc_new_owner_authority o);
      modify_pure account.1 (fun a : Account.t => a <| Account.last_account_recovery := head_block_time d |>)
  end.

Definition find_change (name : string) : st database (option (Z * ChangeRecovery.t)) :=
  find_where (fun r => String.eqb (ChangeRecovery.account_to_recover r) name).

Definition change_recovery_account_apply (o : change_recovery_account_operation) : st database unit :=
  _ ← get_account (cr_new_recovery_account o);
  account_to_recover ← get_account (cr_account_to_recover o);
  request ← find_change (cr_account_to_recover o);
  d ← get_st;
  let effective_on := u32 (head_block_time d + BTCM_OWNER_AUTH_RECOVERY_PERIOD) in
  match request with
  | None =>
      _ ← create (ChangeRecovery.Make (cr_account_to_recover o) (cr_new_recovery_account o) effective_on);
      mret tt
  | Some (i, _) =>
      if negb (String.eqb (Account.recovery_account account_to_recover.2) (cr_new_recovery_account o)) then
        modify_pure i (fun r : ChangeRecovery.t =>
          r <| ChangeRecovery.recovery_account := cr_new_recovery_account o |> <| ChangeRecovery.effective_on := effective_on |>)
      else remove (V:=ChangeRecovery.t) i
  end.

(** ** What each block expires *)

Definition by_expires (x y : Z * RecoveryRequest.t) : Prop :=
  RecoveryRequest.expires x.2 < RecoveryRequest.expires y.2 \/ (RecoveryRequest.expires x.2 = RecoveryRequest.expires y.2 /\ x.1 <= y.1).
#[export] Instance by_expires_dec : RelDecision by_expires.
Proof. unfold by_expires. solve_decision. Defined.
Definition by_id (x y : Z * OwnerHistory.t) : Prop := x.1 <= y.1.
#[export] Instance by_id_dec : RelDecision by_id.
Proof. unfold by_id. solve_decision. Defined.
Definition by_effective_date (x y : Z * ChangeRecovery.t) : Prop :=
  ChangeRecovery.effective_on x.2 < ChangeRecovery.effective_on y.2 \/
  (ChangeRecovery.effective_on x.2 = ChangeRecovery.effective_on y.2 /\ x.1 <= y.1).
#[export] Instance by_effective_date_dec : RelDecision by_effective_date.
Proof. unfold by_effective_date. solve_decision. Defined.

(** Take rows off the front of an index while they are due; each turn removes one. *)
Fixpoint expire_loop {V} `{Stored V} (le : Z * V -> Z * V -> Prop) `{!RelDecision le} (due : V -> bool)
    (act : Z * V -> st database unit) (fuel : nat) : st database unit :=
  d ← get_st;
  match in_order le d with
  | row :: _ =>
      if due row.2 then
        match fuel with
        | O => throw undefined_behaviour
        | S fuel => _ ← act row; expire_loop le due act fuel
        end
      else mret tt
  | [] => mret tt
  end.
Definition expire_all {V} `{Stored V} (le : Z * V -> Z * V -> Prop) `{!RelDecision le} (due : database -> V -> bool)
    (act : Z * V -> st database unit) : st database unit :=
  d ← get_st; expire_loop le (due d) act (size (indices (tbl (V:=V) d))).

Definition apply_change (row : Z * ChangeRecovery.t) : st database unit :=
  a ← get_account (ChangeRecovery.account_to_recover row.2);
  _ ← modify_pure a.1 (fun a : Account.t => a <| Account.recovery_account := ChangeRecovery.recovery_account row.2 |>);
  remove (V:=ChangeRecovery.t) row.1.

Definition request_due (d : database) (r : RecoveryRequest.t) : bool := RecoveryRequest.expires r <=? head_block_time d.
Definition history_due (d : database) (h : OwnerHistory.t) : bool :=
  u32 (OwnerHistory.last_valid_time h + BTCM_OWNER_AUTH_RECOVERY_PERIOD) <? head_block_time d.
Definition change_due (d : database) (r : ChangeRecovery.t) : bool := ChangeRecovery.effective_on r <=? head_block_time d.

Definition account_recovery_processing : st database unit :=
  _ ← expire_all by_expires request_due (fun row => remove (V:=RecoveryRequest.t) row.1);
  _ ← expire_all by_id history_due (fun row => remove (V:=OwnerHistory.t) row.1);
  expire_all by_effective_date change_due apply_change.
End Evaluators.
End Accounts.
