(* ===== verification/AccountFacts.v ===== *)
(** * Accounts: facts

    What the account operations and the processing of a block do to the part of the
    state that recovery depends on: names, owners and recovery accounts, the history
    of owners, the requests and the announced changes. *)

From S2P Require Import Prelude.
From S2P Require Import SafeInt.
From S2P Require Import Uint128.
From S2P Require Import Asset.
From S2P Require Import UndoDatabase.
From S2P Require Import Authority.
From S2P Require Import State.
From S2P Require Import Sample.
From S2P Require Import Balance.
From S2P Require Import BalanceFacts.
From S2P Require Import Vesting.
From S2P Require Import VestingFacts.
From S2P Require Import Delegations.
From S2P Require Import DelegationFacts.
From S2P Require Import Blocks.
From S2P Require Import Accounts.

Module AccountFacts.
Import AssetOps Balances Vesting Quiet Delegations DelegationFacts Blocks Accounts Supply.

(** ** Taking expired rows *)

Section Expire.
Context {V : Type} {S : Stored V} {SOk : StoredOk V}.
Context (le : Z * V -> Z * V -> Prop) `{!RelDecision le} `{!Transitive le} `{!Total le}.
Context (due : V -> bool) (act : Z * V -> st database unit) (R : database -> database -> Prop) `{!PreOrder R}.

(** What the rows are after the expired ones are gone. *)
Definition kept (v : option V) : option V := v ≫= fun v => if due v then None else Some v.

Hypothesis act_removes : forall row e e', get_opt e row.1 = Some row.2 -> act row e = Ok (tt, e') ->
  indices (tbl (V:=V) e') = delete row.1 (indices (tbl (V:=V) e)) /\ R e e'.

(** The rows that are due come first. *)
Definition due_first (d : database) : Prop := forall i j v w, get_opt d i = Some v -> get_opt d j = Some w ->
  le (i, v) (j, w) -> due w = true -> due v = true.

Lemma act_get row e e' i : get_opt e row.1 = Some row.2 -> act row e = Ok (tt, e') ->
  get_opt e' i = if decide (i = row.1) then None else get_opt (V:=V) e i.
Proof.
  intros Hr H. destruct (act_removes _ _ _ Hr H) as [E _]. unfold get_opt. rewrite E.
  destruct (decide (i = row.1)) as [->|]; [apply lookup_delete_eq|by apply lookup_delete_ne].
Qed.

Lemma expire_spec n d d' : due_first d -> expire_loop le due act n d = Ok (tt, d') ->
  R d d' /\ forall i, get_opt d' i = kept (get_opt d i).
Proof.
  revert d. induction n as [|n IH]; intros d Hd H; cbn [expire_loop] in H; step H.
  all: destruct (in_order le d) as [|row l] eqn:E.
  1, 3: apply st_ret_Ok in H as [_ ->]; split; [reflexivity|]; intros i; destruct (get_opt d i) as [v|] eqn:Hv;
    [by apply (in_order_nil _ _ _ _ E) in Hv|done].
  all: destruct (in_order_first le d row l) as [Hr Hmin]; [apply _..|done|]; destruct (due row.2) eqn:Er.
  2, 4: apply st_ret_Ok in H as [_ ->]; split; [reflexivity|]; intros i; destruct (get_opt d i) as [v|] eqn:Hv; [|done];
    cbn; destruct (due v) eqn:Ev; [|done]; destruct (Hmin _ _ Hv) as [<-|Hle]; [cbn in Er; congruence|];
    rewrite (Hd row.1 i row.2 v) in Er by (destruct row; done); done.
  - done.
  - apply st_bind_Ok in H as ([] & d1 & H1 & H). destruct (act_removes _ _ _ Hr H1) as [_ HR].
    apply IH in H as [HR' Hk].
    + split; [by etransitivity|]. intros i. rewrite Hk, (act_get row d) by done. destruct (decide _) as [->|]; [|done].
      rewrite Hr. cbn. by rewrite Er.
    + intros i j v w. rewrite (act_get row d d1 i), (act_get row d d1 j) by done. intros Hi Hj. repeat case_decide; try done. by apply (Hd i j v w).
Qed.

(** With a turn for every row the loop ends. *)
Lemma expire_ends n d (P : database -> Prop) : P d ->
  (forall row e, P e -> get_opt e row.1 = Some row.2 -> due row.2 = true -> exists e', act row e = Ok (tt, e') /\ P e') ->
  (size (indices (tbl (V:=V) d)) <= n)%nat -> exists d', expire_loop le due act n d = Ok (tt, d') /\ P d'.
Proof.
  intros HP Hact. revert d HP. induction n as [|n IH]; intros d HP Hn; cbn [expire_loop]; unfold mbind, st_bind, get_st.
  all: destruct (in_order le d) as [|row l] eqn:E; [by exists d|].
  all: destruct (in_order_first le d row l) as [Hr _]; [apply _..|done|]; destruct (due row.2) eqn:Er; [|by exists d].
  - pose proof (in_order_length le d) as Hl. rewrite E in Hl. cbn in Hl. lia.
  - destruct (Hact row d) as (e & He & HPe); [done..|]. rewrite He. apply IH; [done|].
    destruct (act_removes _ _ _ Hr He) as [-> _]. rewrite map_size_delete_Some by (eexists; exact Hr). lia.
Qed.
End Expire.

(** ** What the account operations leave alone *)

(** What recovery depends on in an account. *)
Definition sec (a : Account.t) : string * authority * string := (Account.name a, Account.owner a, Account.recovery_account a).
Definition seen (d : database) : gmap Z (string * authority * string) := sec <$> indices (accounts d).

Record same_accounts (d d' : database) : Prop := {
  sa_seen : seen d' = seen d;
  sa_next : next_id (accounts d') = next_id (accounts d);
  sa_histories : owner_histories d' = owner_histories d;
  sa_requests : recovery_requests d' = recovery_requests d;
  sa_changes : change_recoveries d' = change_recoveries d;
  sa_time : head_block_time d' = head_block_time d
}.
#[export] Instance same_accounts_preorder : PreOrder same_accounts.
Proof. split; [done|]. intros x y z [] []. split; congruence. Qed.

Lemma same_set d i (a w : Account.t) : get_opt d i = Some a -> sec w = sec a -> same_accounts d (set_obj d i w).
Proof.
  intros Ha Hw. split; try done. unfold seen.
  change (indices (accounts (set_obj d i w))) with (<[i:=w]> (indices (accounts d))).
  rewrite fmap_insert, Hw, <- fmap_insert, insert_id; [done|]. exact Ha.
Qed.
Lemma same_modify i f d u d' : (forall a w, f a = Ok w -> sec w = sec a) -> modify (V:=Account.t) i f d = Ok (u, d') -> same_accounts d d'.
Proof. intros Hf H. apply modify_Ok in H as (a & w & Ha & Hw & ->). apply (same_set d i a w); auto. Qed.
Lemma same_modify_pure i f d u d' : (forall a, sec (f a) = sec a) -> modify_pure (V:=Account.t) i f d = Ok (u, d') -> same_accounts d d'.
Proof. intros Hf. apply same_modify. by intros a w [= <-]. Qed.
Lemma same_quiet d d' : quiet d d' -> same_accounts d d'.
Proof.
  intros Hq. pose proof (quiet_dgpo _ _ Hq) as Ed. destruct Hq as [Ha Hn E]. split; [|done|..|by unfold head_block_time; rewrite Ed].
  2-4: by rewrite E.
  unfold seen. apply map_eq. intros i. rewrite !lookup_fmap. apply (f_equal (lookup i)) in Ha. rewrite !lookup_fmap in Ha.
  destruct (indices (accounts d') !! i) as [a'|], (indices (accounts d) !! i) as [a|]; cbn in *; try done.
  f_equal. injection Ha. intros. unfold sec. congruence.
Qed.
Lemma same_dgpo f d u d' : (forall p q, f p = Ok q -> Dgpo.time q = Dgpo.time p) -> modify_dgpo f d = Ok (u, d') -> same_accounts d d'.
Proof. intros Hf H. apply modify_dgpo_Ok in H as (p & Hp & ->). split; try done. by apply Hf in Hp. Qed.

Section Calm.
Context {B : BoostMP}.

Lemma same_btcm i x d u d' : asset_id x = BTCM_SYMBOL -> adjust_balance i x d = Ok (u, d') -> same_accounts d d'.
Proof.
  intros E. unfold adjust_balance. rewrite E. change (BTCM_SYMBOL =? BTCM_SYMBOL) with true. cbn iota.
  apply same_modify. intros a w Hw. unfold adjust_btcm in Hw. by apply bind_Ok in Hw as (? & _ & [= <-]).
Qed.

Lemma same_create_vesting i x d n d' : create_vesting i x d = Ok (n, d') -> same_accounts d d'.
Proof.
  intros H. unfold create_vesting in H. step H. step H as nv Env. apply st_bind_Ok in H as (u1 & d1 & H1 & H).
  apply same_modify in H1; [|intros a w Hw; unfold add_vests in Hw; by apply bind_Ok in Hw as (? & _ & [= <-])].
  step H as a Ha. unfold find_streaming_platform in H. apply st_bind_Ok in H as (sp & d2 & Hsp & H). apply find_where_Ok in Hsp as [-> ->].
  apply st_bind_Ok in H as (u2 & d2 & H2 & H). apply same_dgpo in H2.
  2: { intros p q Hq. unfold fund_vesting in Hq. do 3 (apply bind_Ok in Hq as (? & _ & Hq)). by injection Hq as <-. }
  apply st_bind_Ok in H as (u3 & d3 & H3 & H). apply quiet_votes, same_quiet in H3.
  apply st_bind_Ok in H as (u4 & d4 & H4 & H). apply quiet_score, same_quiet in H4. apply st_ret_Ok in H as [_ ->].
  by rewrite H1, H2, H3, H4.
Qed.

Lemma same_vest_fee i x d u d' : vest_fee i x d = Ok (u, d') -> same_accounts d d'.
Proof.
  intros H. unfold vest_fee in H. destruct (_ >? 0); [|by apply st_ret_Ok in H as [_ ->]].
  apply st_bind_Ok in H as (n & d1 & H1 & H). apply st_ret_Ok in H as [_ ->]. by apply same_create_vesting in H1.
Qed.
End Calm.

(** ** What they change *)

(** An account is added. *)
Record grown (new : string * authority * string) (d d' : database) : Prop := {
  gr_fresh : forall i (a : Account.t), get_opt d i = Some a -> Account.name a <> new.1.1;
  gr_seen : seen d' = <[next_id (accounts d) := new]> (seen d);
  gr_next : next_id (accounts d') = next_id (accounts d) + 1;
  gr_histories : owner_histories d' = owner_histories d;
  gr_requests : recovery_requests d' = recovery_requests d;
  gr_changes : change_recoveries d' = change_recoveries d;
  gr_time : head_block_time d' = head_block_time d
}.

(** The account [i] gets the owner [w]; its old owner goes to the history. *)
Record replaced (i : Z) (a : Account.t) (w : authority) (d d' : database) : Prop := {
  rp_account : get_opt d i = Some a;
  rp_seen : seen d' = <[i := (Account.name a, w, Account.recovery_account a)]> (seen d);
  rp_next : next_id (accounts d') = next_id (accounts d);
  rp_histories : owner_histories d' = next_object (owner_histories d) (OwnerHistory.Make (Account.name a) (Account.owner a) (head_block_time d));
  rp_changes : change_recoveries d' = change_recoveries d;
  rp_time : head_block_time d' = head_block_time d
}.

Lemma same_grown d1 d2 d3 d4 new : same_accounts d1 d2 -> grown new d2 d3 -> same_accounts d3 d4 -> grown new d1 d4.
Proof.
  intros [A1 A2 A3 A4 A5 A6] [H1 H2 H3 H4 H5 H6 H7] [B1 B2 B3 B4 B5 B6]. split; try congruence.
  intros i a Ha. apply (f_equal (lookup i)) in A1. unfold seen in A1. rewrite !lookup_fmap in A1.
  change (indices (accounts d1) !! i) with (get_opt (V:=Account.t) d1 i) in A1. rewrite Ha in A1.
  destruct (indices (accounts d2) !! i) as [a2|] eqn:Ea; [|done]. injection A1. intros. specialize (H1 _ _ Ea). congruence.
Qed.

Lemma create_grown (w : Account.t) d i d' : create w d = Ok (i, d') -> grown (sec w) d d'.
Proof.
  intros (Hc & _ & ->)%create_Ok. split; try done; [|by unfold seen; cbn; rewrite fmap_insert].
  intros j a Ha E. specialize (Hc _ _ Ha). cbn in Hc, E. by apply String.eqb_neq in Hc.
Qed.

Lemma replace_owner i w d u d' : update_owner_authority i w d = Ok (u, d') ->
  exists a, replaced i a w d d' /\ recovery_requests d' = recovery_requests d.
Proof.
  intros H. unfold update_owner_authority in H. step H as a Ha. step H. step H as j Ej. apply create_Ok in Ej as (_ & _ & ->).
  set (d1 := upd_tbl _ d) in H. apply modify_Ok in H as (a' & b & Ha' & [= <-] & ->).
  change (get_opt (V:=Account.t) d1 i) with (get_opt (V:=Account.t) d i) in Ha'. rewrite Ha in Ha'. injection Ha' as <-.
  exists a. split; [split|]; try done. unfold seen, d1. cbn. by rewrite fmap_insert.
Qed.

Lemma replaced_same i a w d d1 d' : replaced i a w d d1 -> same_accounts d1 d' -> replaced i a w d d'.
Proof. intros [] []. split; congruence. Qed.

Lemma named_account n d i a d' : get_account n d = Ok ((i, a), d') -> get_opt d i = Some a /\ Account.name a = n /\ d' = d.
Proof. intros [H ->]%get_account_Ok. apply lookup_where_Some in H as [Ha Hn]. by apply String.eqb_eq in Hn. Qed.

Lemma exist_state (l : list (string * Z)) d u d' : accounts_exist l d = Ok (u, d') -> d' = d.
Proof.
  apply (for_each_inv (fun d' => d' = d)); [|done]. intros x s v s' _ -> H. step H as a Ha. by apply st_ret_Ok in H as [_ ->].
Qed.
Lemma json_state {T : TextChecks} s d u d' : check_json s d = Ok (u, d') -> d' = d.
Proof. unfold check_json. intros H. destruct (_ <? _)%nat; [by apply assert_st_Ok in H as [_ ->]|by apply st_ret_Ok in H as [_ ->]]. Qed.

Section Effects.
Context {B : BoostMP} {T : TextChecks}.

Lemma charge_sec x a w : charge x a = Ok w -> sec w = sec a.
Proof. unfold charge. intros H. by apply bind_Ok in H as (? & _ & [= <-]). Qed.

Lemma account_create_grown o d d' : account_create_apply o d = Ok (tt, d') ->
  grown (ac_new_account_name o, ac_owner o, ac_creator o) d d'.
Proof.
  intros H. unfold account_create_apply in H. apply st_bind_Ok in H as ([] & d1 & H1 & H). apply json_state in H1 as ->.
  step H as c Ec. step H. apply st_bind_Ok in H as ([] & d1 & H1 & H).
  assert (d1 = d) as ->.
  { destruct (_ >? 0); [|by apply st_ret_Ok in H1 as [_ ->]]. step H1 as [] E1. by apply AssetLemmas.assert_asset_Ok in H1 as [_ ->]. }
  apply st_bind_Ok in H as ([] & d2 & H2 & H). apply same_modify in H2; [|apply charge_sec].
  apply st_bind_Ok in H as (i & d3 & H3 & H). apply create_grown in H3. apply same_vest_fee in H. by apply (same_grown d d2 d3 d').
Qed.

Lemma account_delegate_grown o d d' : account_create_with_delegation_apply o d = Ok (tt, d') ->
  grown (ad_new_account_name o, ad_owner o, "") d d'.
Proof.
  intros H. unfold account_create_with_delegation_apply in H. step H as c Ec. step H. step H as [] E1. step H as av Eav. step H as [] E2.
  step H as tg Etg. step H as wo Ewo. step H as cu Ecu. step H as [] E3.
  do 3 (apply st_bind_Ok in H as ([] & ? & E & H); apply exist_state in E as ->).
  apply st_bind_Ok in H as ([] & d2 & H2 & H). apply same_modify in H2.
  2: { intros a w Hw. apply bind_Ok in Hw as (b & Hb & Hw). apply charge_sec in Hb. unfold add_delegated in Hw.
       by apply bind_Ok in Hw as (? & _ & [= <-]). }
  apply st_bind_Ok in H as (i & d3 & H3 & H). apply create_grown in H3.
  apply st_bind_Ok in H as ([] & d4 & H4 & H).
  assert (same_accounts d3 d4) as H5.
  { destruct (_ >? 0); [|by apply st_ret_Ok in H4 as [_ ->]]. step H4 as j Ej. apply st_ret_Ok in H4 as [_ ->].
    by apply create_Ok in Ej as (_ & _ & ->). }
  apply same_vest_fee in H. apply (same_grown d d2 d3 d'); [done..|by etransitivity].
Qed.

Lemma update_sec now o a : sec (update_account now o a) = sec a.
Proof. unfold update_account. by repeat case_match. Qed.

Lemma account_update_effect o d d' : account_update_apply o d = Ok (tt, d') ->
  match au_owner o with
  | None => same_accounts d d'
  | Some w => exists i a, replaced i a w d d' /\ Account.name a = au_account o /\ recovery_requests d' = recovery_requests d /\
      head_block_time d - Account.last_owner_update a > BTCM_OWNER_UPDATE_LIMIT
  end.
Proof.
  intros H. unfold account_update_apply in H. apply st_bind_Ok in H as ([] & d1 & H1 & H). apply json_state in H1 as ->.
  step H as [] E1. apply st_bind_Ok in H as ([i a] & d1 & Ha & H). apply named_account in Ha as (Ha & Hn & ->). cbn [fst snd] in *. step H.
  apply st_bind_Ok in H as ([] & d1 & H1 & H). apply same_modify_pure in H; [|apply update_sec].
  destruct (au_owner o) as [w|].
  - step H1 as [] Et. apply replace_owner in H1 as (a' & H1 & Hr). exists i, a'.
    pose proof (rp_account _ _ _ _ _ H1) as Ha'. rewrite Ha in Ha'. injection Ha' as <-.
    split_and!; [by eapply replaced_same|done|by rewrite (sa_requests _ _ H)|lia].
  - by apply st_ret_Ok in H1 as [_ ->].
Qed.

Lemma challenge_effect o d d' : challenge_authority_apply o d = Ok (tt, d') -> same_accounts d d'.
Proof.
  intros H. unfold challenge_authority_apply in H. step H as a Ea. step H as c Ec. destruct (ch_require_owner o); [done|].
  step H as [] E1. step H as [] E2. step H. step H as [] E3. step H as n En.
  apply st_bind_Ok in H as ([] & d1 & H1 & H). apply same_btcm in H1.
  2: { by apply AssetLemmas.asset_neg_Ok in En as ->. }
  step H as to Eto. apply st_bind_Ok in H as (v & d2 & H2 & H). apply same_create_vesting in H2.
  apply same_modify_pure in H; [|done]. by rewrite H1, H2.
Qed.

Lemma prove_effect o d d' : prove_authority_apply o d = Ok (tt, d') -> same_accounts d d'.
Proof.
  intros H. unfold prove_authority_apply in H. step H as a Ea. step H as [] E1. step H. apply same_modify_pure in H; [done|].
  intros b. by destruct (pa_require_owner o).
Qed.
End Effects.

(** The account [a] takes recovery requests from [name]. *)
Definition recovers (d : database) (a : Account.t) (name : string) : Prop :=
  if (0 <? String.length (Account.recovery_account a))%nat then Account.recovery_account a = name
  else exists w l, in_order by_vote_name d = w :: l /\ Witness.owner w.2 = name.

Lemma is_recovery_Ok name a d u d' : is_recovery_account name a d = Ok (u, d') -> recovers d a name /\ d' = d.
Proof.
  unfold is_recovery_account, recovers. intros H. destruct (_ <? _)%nat.
  - apply assert_st_Ok in H as [H ->]. by apply String.eqb_eq in H.
  - step H. destruct (in_order by_vote_name d) as [|w l]; [done|]. apply assert_st_Ok in H as [H ->].
    apply String.eqb_eq in H. eauto.
Qed.

Definition request_of (d : database) (n : string) : option (Z * RecoveryRequest.t) :=
  lookup_where (fun r => String.eqb (RecoveryRequest.account_to_recover r) n) d.
Definition change_of (d : database) (n : string) : option (Z * ChangeRecovery.t) :=
  lookup_where (fun r => String.eqb (ChangeRecovery.account_to_recover r) n) d.

Section Recovery.
Context {B : BoostMP} {T : TextChecks}.

Lemma request_effect o d d' : request_account_recovery_apply o d = Ok (tt, d') ->
  (exists i a, get_opt d i = Some a /\ Account.name a = rr_account_to_recover o /\ recovers d a (rr_recovery_account o)) /\
  let row := RecoveryRequest.Make (rr_account_to_recover o) (rr_new_owner_authority o)
    (u32 (head_block_time d + BTCM_ACCOUNT_RECOVERY_REQUEST_EXPIRATION_PERIOD)) in
  match request_of d (rr_account_to_recover o) with
  | None => d' = upd_tbl (fun t => next_object t row) d
  | Some (i, _) => if weight_threshold (rr_new_owner_authority o) =? 0
      then d' = upd_tbl (fun t : table RecoveryRequest.t => t <| indices ::= delete i |>) d else d' = set_obj d i row
  end.
Proof.
  intros H. unfold request_account_recovery_apply in H.
  apply st_bind_Ok in H as ([i a] & d1 & Ha & H). apply named_account in Ha as (Ha & Hn & ->). cbn [fst snd] in *.
  apply st_bind_Ok in H as ([] & d1 & H1 & H). apply is_recovery_Ok in H1 as [Hr ->]. split; [by exists i, a|].
  unfold find_request in H. apply st_bind_Ok in H as (q & d1 & Hq & H). apply find_where_Ok in Hq as [-> ->]. step H.
  unfold request_of. destruct (lookup_where _ d) as [[j r]|] eqn:Er.
  - apply lookup_where_Some in Er as [Hr' Hn']. apply String.eqb_eq in Hn'. destruct (_ =? 0); [by apply remove_Ok in H|]. step H as [] E1.
    apply modify_Ok in H as (r' & w & Hr2 & [= <-] & ->). rewrite Hr' in Hr2. injection Hr2 as <-. f_equal. destruct r. cbn in *. by subst.
  - step H as [] E1. step H as [] E2. step H as j Ej. apply st_ret_Ok in H as [_ ->]. by apply create_Ok in Ej as (_ & _ & ->).
Qed.

Lemma recover_effect o d d' : recover_account_apply o d = Ok (tt, d') ->
  exists i a j r, replaced i a (rc_new_owner_authority o) d d' /\ Account.name a = rc_account_to_recover o /\
    head_block_time d - Account.last_account_recovery a > BTCM_OWNER_UPDATE_LIMIT /\
    request_of d (rc_account_to_recover o) = Some (j, r) /\ RecoveryRequest.new_owner_authority r = rc_new_owner_authority o /\
    was_owner (rc_account_to_recover o) (rc_recent_owner_authority o) d = true /\
    recovery_requests d' = recovery_requests d <| indices ::= delete j |>.
Proof.
  intros H. unfold recover_account_apply in H.
  apply st_bind_Ok in H as ([i a] & d1 & Ha & H). apply named_account in Ha as (Ha & Hn & ->). cbn [fst snd] in *.
  step H. step H as [] E1. unfold find_request in H. apply st_bind_Ok in H as (q & d1 & Hq & H). apply find_where_Ok in Hq as [-> ->].
  change (lookup_where _ d) with (request_of d (rc_account_to_recover o)) in H.
  destruct (request_of d (rc_account_to_recover o)) as [[j r]|]; [|done].
  step H as [] E2. step H as [] E3. apply st_bind_Ok in H as ([] & d1 & H1 & H). apply remove_Ok in H1 as ->.
  apply st_bind_Ok in H as ([] & d2 & H2 & H). apply replace_owner in H2 as (a' & H2 & Hr).
  pose proof (rp_account _ _ _ _ _ H2) as Ha'. change (get_opt (V:=Account.t) d i = Some a') in Ha'. rewrite Ha in Ha'. injection Ha' as <-.
  apply same_modify_pure in H; [|done]. exists i, a, j, r. split_and!; [|done|lia|done|by apply bool_decide_eq_true in E2|done|].
  - apply (replaced_same _ _ _ _ d2); [by destruct H2|done].
  - by rewrite (sa_requests _ _ H), Hr.
Qed.

Lemma change_effect o d d' : change_recovery_account_apply o d = Ok (tt, d') ->
  exists i a, get_opt d i = Some a /\ Account.name a = cr_account_to_recover o /\
  let row := ChangeRecovery.Make (cr_account_to_recover o) (cr_new_recovery_account o)
    (u32 (head_block_time d + BTCM_OWNER_AUTH_RECOVERY_PERIOD)) in
  match change_of d (cr_account_to_recover o) with
  | None => d' = upd_tbl (fun t => next_object t row) d
  | Some (j, _) => if String.eqb (Account.recovery_account a) (cr_new_recovery_account o)
      then d' = upd_tbl (fun t : table ChangeRecovery.t => t <| indices ::= delete j |>) d else d' = set_obj d j row
  end.
Proof.
  intros H. unfold change_recovery_account_apply in H. step H as nw Enw.
  apply st_bind_Ok in H as ([i a] & d1 & Ha & H). apply named_account in Ha as (Ha & Hn & ->). cbn [fst snd] in *.
  unfold find_change in H. apply st_bind_Ok in H as (q & d1 & Hq & H). apply find_where_Ok in Hq as [-> ->]. step H.
  exists i, a. split; [done|]. split; [done|]. change (lookup_where _ d) with (change_of d (cr_account_to_recover o)) in H.
  cbv zeta. destruct (change_of d (cr_account_to_recover o)) as [[j r]|] eqn:Er.
  - apply lookup_where_Some in Er as [Hr' Hn']. apply String.eqb_eq in Hn'. destruct (String.eqb _ _); cbn [negb] in H; [by apply remove_Ok in H|].
    apply modify_Ok in H as (r' & w & Hr2 & [= <-] & ->). rewrite Hr' in Hr2. injection Hr2 as <-. f_equal. destruct r. cbn in *. by subst.
  - step H as j Ej. apply st_ret_Ok in H as [_ ->]. by apply create_Ok in Ej as (_ & _ & ->).
Qed.
End Recovery.

(** ** What a block expires *)

#[local] Instance by_expires_transitive : Transitive by_expires.
Proof. intros x y z. unfold by_expires. lia. Qed.
#[local] Instance by_expires_total : Total by_expires.
Proof. intros x y. unfold by_expires. lia. Qed.
#[local] Instance by_history_transitive : Transitive Accounts.by_id.
Proof. intros x y z. unfold Accounts.by_id. lia. Qed.
#[local] Instance by_history_total : Total Accounts.by_id.
Proof. intros x y. unfold Accounts.by_id. lia. Qed.
#[local] Instance by_effective_transitive : Transitive by_effective_date.
Proof. intros x y z. unfold by_effective_date. lia. Qed.
#[local] Instance by_effective_total : Total by_effective_date.
Proof. intros x y. unfold by_effective_date. lia. Qed.

(** Only requests go, or only histories. *)
Definition requests_only (d d' : database) : Prop :=
  d' = d <| recovery_requests := recovery_requests d' |> /\ next_id (recovery_requests d') = next_id (recovery_requests d).
Definition histories_only (d d' : database) : Prop :=
  d' = d <| owner_histories := owner_histories d' |> /\ next_id (owner_histories d') = next_id (owner_histories d).
#[local] Instance requests_only_preorder : PreOrder requests_only.
Proof. split; [by intros []|]. intros x y z [E1 N1] [E2 N2]. split; [|congruence]. rewrite E2 at 1. rewrite E1 at 1. done. Qed.
#[local] Instance histories_only_preorder : PreOrder histories_only.
Proof. split; [by intros []|]. intros x y z [E1 N1] [E2 N2]. split; [|congruence]. rewrite E2 at 1. rewrite E1 at 1. done. Qed.

(** The change that is due for the account [n], and the accounts after all of them. *)
Definition due_change (now : Z) (d : database) (n : string) : option (Z * ChangeRecovery.t) :=
  lookup_where (fun r => (ChangeRecovery.effective_on r <=? now) && String.eqb (ChangeRecovery.account_to_recover r) n) d.
Definition settle (now : Z) (d : database) (x : string * authority * string) : string * authority * string :=
  match due_change now d x.1.1 with Some (_, r) => (x.1, ChangeRecovery.recovery_account r) | None => x end.
Definition settled (now : Z) (d : database) : gmap Z (string * authority * string) := settle now d <$> seen d.

Definition one_change (d : database) : Prop := forall i j (r s : ChangeRecovery.t), get_opt d i = Some r -> get_opt d j = Some s ->
  ChangeRecovery.account_to_recover r = ChangeRecovery.account_to_recover s -> i = j.
Definition known_change (d : database) : Prop := forall j (r : ChangeRecovery.t), get_opt d j = Some r ->
  exists i a, get_opt d i = Some a /\ Account.name a = ChangeRecovery.account_to_recover r.

Lemma due_change_spec now d n i r : one_change d -> get_opt d i = Some r -> ChangeRecovery.effective_on r <= now ->
  ChangeRecovery.account_to_recover r = n -> due_change now d n = Some (i, r).
Proof.
  intros H1 Hr Hd Hn. unfold due_change. destruct (lookup_where _ d) as [[j s]|] eqn:E.
  - apply lookup_where_Some in E as [Hs Hc]. apply andb_true_iff in Hc as [_ Hc]. apply String.eqb_eq in Hc.
    assert (j = i) as -> by (apply (H1 j i s r); congruence). congruence.
  - apply (lookup_where_None _ _ _ _ E) in Hr. apply andb_false_iff in Hr as [Hr|Hr]; [lia|]. by apply String.eqb_neq in Hr.
Qed.
Lemma due_change_None now d n : (forall i r, get_opt d i = Some r -> ChangeRecovery.account_to_recover r = n -> now < ChangeRecovery.effective_on r) ->
  due_change now d n = None.
Proof.
  intros H. unfold due_change. destruct (lookup_where _ d) as [[j s]|] eqn:E; [|done].
  apply lookup_where_Some in E as [Hs Hc]. apply andb_true_iff in Hc as [Hd Hc]. apply String.eqb_eq in Hc. specialize (H _ _ Hs Hc). lia.
Qed.

(** One change settles what it is due for. *)
Record settling (now : Z) (d d' : database) : Prop := {
  st_seen : one_change d -> unique_names d -> settled now d' = settled now d /\ one_change d' /\ unique_names d';
  st_next : next_id (accounts d') = next_id (accounts d) /\ next_id (change_recoveries d') = next_id (change_recoveries d);
  st_histories : owner_histories d' = owner_histories d;
  st_requests : recovery_requests d' = recovery_requests d;
  st_time : head_block_time d' = head_block_time d
}.
#[local] Instance settling_preorder now : PreOrder (settling now).
Proof.
  split; [done|]. intros x y z [A1 [A2 A3] A4 A5 A6] [B1 [B2 B3] B4 B5 B6]. split; try (split; congruence); try congruence.
  intros H1 H2. destruct (A1 H1 H2) as (E & H3 & H4). destruct (B1 H3 H4) as (E' & H5 & H6). split; [congruence|done].
Qed.

Lemma seen_get d i : seen d !! i = sec <$> get_opt d i.
Proof. apply lookup_fmap. Qed.

Lemma names_set d i (a w : Account.t) : get_opt d i = Some a -> Account.name w = Account.name a -> unique_names d -> unique_names (set_obj d i w).
Proof.
  intros Ha Hn Hu j k b c. rewrite !get_set_obj. do 2 case_decide; intros [= <-] [= <-] || intros [= <-] Hc || intros Hb [= <-] || intros Hb Hc; intros E; subst; try done.
  - apply (Hu i k a c); congruence.
  - apply (Hu j i b a); congruence.
  - by apply (Hu j k b c).
Qed.

Lemma apply_change_settles now row d d' : get_opt d row.1 = Some row.2 -> ChangeRecovery.effective_on row.2 <= now ->
  apply_change row d = Ok (tt, d') ->
  indices (change_recoveries d') = delete row.1 (indices (change_recoveries d)) /\ settling now d d'.
Proof.
  intros Hr Hd H. unfold apply_change in H. apply st_bind_Ok in H as ([i a] & d1 & Ha & H). apply named_account in Ha as (Ha & Hn & ->).
  cbn [fst snd] in *. apply st_bind_Ok in H as ([] & d1 & H1 & H). apply modify_Ok in H1 as (a' & w & Ha' & [= <-] & ->).
  rewrite Ha in Ha'. injection Ha' as <-. apply remove_Ok in H as ->. split; [done|]. split; [|done..]. intros Ho Hu.
  set (w := a <| Account.recovery_account := _ |>). set (d1 := set_obj d i w). set (d2 := upd_tbl _ d1).
  assert (forall j (r : ChangeRecovery.t), get_opt d2 j = Some r <-> j <> row.1 /\ get_opt d j = Some r) as Hrows.
  { intros j r. unfold get_opt, d2. cbn. rewrite lookup_delete_Some. naive_solver. }
  split; [|split].
  - unfold settled. apply map_eq. intros j. rewrite !lookup_fmap, !seen_get.
    change (get_opt (V:=Account.t) d2 j) with (get_opt (V:=Account.t) d1 j). unfold d1 at 1. rewrite get_set_obj.
    case_decide as Hj.
    + subst j. rewrite Ha. cbn. unfold settle at 2. cbn [fst sec]. rewrite (due_change_spec now d (Account.name a) row.1 row.2) by done.
      unfold settle, w. cbn [fst snd sec Account.name setter]. rewrite due_change_None; [done|].
      intros k r [Hk Hr2]%Hrows E. destruct Hk. apply (Ho k row.1 r row.2); congruence.
    + destruct (get_opt (V:=Account.t) d j) as [b|] eqn:Eb; [|done]. cbn. f_equal. unfold settle, sec; cbn [fst snd].
      assert (Account.name b <> ChangeRecovery.account_to_recover row.2) as Hb.
      { intros E. apply Hj. apply (Hu j i b a); congruence. }
      destruct (due_change now d (Account.name b)) as [[k r]|] eqn:E.
      * unfold due_change in E. apply lookup_where_Some in E as [Hk Hc]. apply andb_true_iff in Hc as [Hc1 Hc2]. apply String.eqb_eq in Hc2.
        rewrite (due_change_spec now d2 _ k r); [done| |apply Hrows; split; [|done]; congruence|lia|done].
        intros x y rx ry [_ Hx]%Hrows [_ Hy]%Hrows. by apply Ho.
      * rewrite due_change_None; [done|]. intros k r [_ Hk]%Hrows Ek. unfold due_change in E.
        apply (lookup_where_None _ _ _ _ E) in Hk. apply andb_false_iff in Hk as [Hk|Hk]; [lia|]. by apply String.eqb_neq in Hk.
  - intros x y rx ry [_ Hx]%Hrows [_ Hy]%Hrows. by apply Ho.
  - by apply (names_set d i a w).
Qed.

(** The histories are in the order of their ids. *)
Definition in_sequence (d : database) : Prop := forall i j (h k : OwnerHistory.t), get_opt d i = Some h -> get_opt d j = Some k ->
  i <= j -> OwnerHistory.last_valid_time h <= OwnerHistory.last_valid_time k.
Definition times_ok (d : database) : Prop := forall i (h : OwnerHistory.t), get_opt d i = Some h ->
  0 <= OwnerHistory.last_valid_time h /\ OwnerHistory.last_valid_time h + BTCM_OWNER_AUTH_RECOVERY_PERIOD < 2 ^ 32.

Lemma history_due_eq d h : 0 <= OwnerHistory.last_valid_time h -> OwnerHistory.last_valid_time h + BTCM_OWNER_AUTH_RECOVERY_PERIOD < 2 ^ 32 ->
  history_due d h = (OwnerHistory.last_valid_time h + BTCM_OWNER_AUTH_RECOVERY_PERIOD <? head_block_time d).
Proof. intros H1 H2. unfold history_due. unfold u32, BTCM_OWNER_AUTH_RECOVERY_PERIOD in *. by rewrite Z.mod_small by lia. Qed.

Record processed (d d' : database) : Prop := {
  pr_requests : forall i, get_opt d' i = kept (request_due d) (get_opt d i);
  pr_histories : forall i, get_opt d' i = kept (history_due d) (get_opt d i);
  pr_changes : forall i, get_opt d' i = kept (change_due d) (get_opt d i);
  pr_seen : seen d' = settled (head_block_time d) d;
  pr_next : next_id (accounts d') = next_id (accounts d);
  pr_next_requests : next_id (recovery_requests d') = next_id (recovery_requests d);
  pr_next_histories : next_id (owner_histories d') = next_id (owner_histories d);
  pr_next_changes : next_id (change_recoveries d') = next_id (change_recoveries d);
  pr_time : head_block_time d' = head_block_time d
}.

Lemma processing_run d d' : account_recovery_processing d = Ok (tt, d') -> exists d1 d2 : database,
  expire_all by_expires request_due (fun row => remove (V:=RecoveryRequest.t) row.1) d = Ok (tt, d1) /\
  expire_all Accounts.by_id history_due (fun row => remove (V:=OwnerHistory.t) row.1) d1 = Ok (tt, d2) /\
  expire_all by_effective_date change_due apply_change d2 = Ok (tt, d').
Proof.
  intros H. unfold account_recovery_processing in H. apply st_bind_Ok in H as ([] & d1 & H1 & H).
  apply st_bind_Ok in H as ([] & d2 & H2 & H). eauto.
Qed.

Lemma requests_expire d d' : expire_all by_expires request_due (fun row => remove (V:=RecoveryRequest.t) row.1) d = Ok (tt, d') ->
  requests_only d d' /\ forall i, get_opt d' i = kept (request_due d) (get_opt (V:=RecoveryRequest.t) d i).
Proof.
  intros H. unfold expire_all in H. step H. eapply (expire_spec by_expires (request_due d) _ requests_only); [| |exact H].
  - intros row e e' _ He. apply remove_Ok in He as ->. by split.
  - intros i j v w _ _ Hle. unfold by_expires, request_due in *. cbn in *. lia.
Qed.

Lemma histories_expire d d' : in_sequence d -> times_ok d ->
  expire_all Accounts.by_id history_due (fun row => remove (V:=OwnerHistory.t) row.1) d = Ok (tt, d') ->
  histories_only d d' /\ forall i, get_opt d' i = kept (history_due d) (get_opt (V:=OwnerHistory.t) d i).
Proof.
  intros Hs Ht H. unfold expire_all in H. step H. eapply (expire_spec Accounts.by_id (history_due d) _ histories_only); [| |exact H].
  - intros row e e' _ He. apply remove_Ok in He as ->. by split.
  - intros i j v w Hv Hw Hle. specialize (Hs i j v w Hv Hw Hle). destruct (Ht _ _ Hv), (Ht _ _ Hw).
    rewrite !history_due_eq by done. lia.
Qed.

Lemma changes_settle d d' : one_change d -> unique_names d -> expire_all by_effective_date change_due apply_change d = Ok (tt, d') ->
  seen d' = settled (head_block_time d) d /\ settling (head_block_time d) d d' /\
  forall i, get_opt d' i = kept (change_due d) (get_opt (V:=ChangeRecovery.t) d i).
Proof.
  intros Ho Hu H. unfold expire_all in H. step H.
  assert (settling (head_block_time d) d d' /\ forall i, get_opt d' i = kept (change_due d) (get_opt (V:=ChangeRecovery.t) d i)) as [Hst Hk].
  { revert H. generalize (size (indices (tbl (V:=ChangeRecovery.t) d))). intros n H.
    set (due := fun r => ChangeRecovery.effective_on r <=? head_block_time d).
    (* only rows that are due are applied *)
    assert (forall n e e', expire_loop by_effective_date due apply_change n e = Ok (tt, e') ->
      settling (head_block_time d) e e' /\ forall i, get_opt e' i = kept due (get_opt (V:=ChangeRecovery.t) e i)) as Hloop; [|by apply (Hloop n)].
    clear n H. intros n e e' H.
    set (act := fun row : Z * ChangeRecovery.t => if due row.2 then apply_change row else throw assert_exception).
    assert (expire_loop by_effective_date due act n e = expire_loop by_effective_date due apply_change n e) as Eact.
    { clear H e'. revert e. induction n as [|n IH]; intros e; cbn [expire_loop]; unfold mbind, st_bind, get_st;
        destruct (in_order by_effective_date e) as [|row l]; try done. unfold act at 1. destruct (due row.2); [|done].
      destruct (apply_change row e) as [[[] e1]|]; [apply IH|done]. }
    rewrite <- Eact in H. eapply (expire_spec by_effective_date due act (settling (head_block_time d))); [| |exact H].
    - intros row f f' Hr Hf. unfold act in Hf. destruct (due row.2) eqn:Ed; [|done]. apply apply_change_settles; [done| |done].
      unfold due in Ed. lia.
    - intros i j v w _ _ Hle. unfold by_effective_date, due in *. cbn in *. lia. }
  split; [|done]. destruct (st_seen _ _ _ Hst Ho Hu) as (E & _ & _). rewrite <- E. symmetry. apply map_eq. intros i.
  unfold settled. rewrite lookup_fmap. destruct (seen d' !! i) as [x|]; [|done]. cbn. f_equal. unfold settle.
  rewrite due_change_None; [done|]. intros k r Hr _. rewrite Hk in Hr. destruct (get_opt d k) as [s|]; [|done]. cbn in Hr.
  unfold change_due in Hr. destruct (_ <=? _) eqn:Ed; [done|]. injection Hr as <-. lia.
Qed.

Lemma processing_effect d d' : in_sequence d -> times_ok d -> one_change d -> unique_names d ->
  account_recovery_processing d = Ok (tt, d') -> processed d d'.
Proof.
  intros Hs Ht Ho Hu (d1 & d2 & H1 & H2 & H3)%processing_run.
  apply requests_expire in H1 as [[E1 N1] K1]. assert (in_sequence d1 /\ times_ok d1) as [Hs1 Ht1] by (by rewrite E1).
  apply (histories_expire _ _ Hs1 Ht1) in H2 as [[E2 N2] K2].
  assert (one_change d2 /\ unique_names d2) as [Ho2 Hu2] by (by rewrite E2, E1).
  destruct (changes_settle _ _ Ho2 Hu2 H3) as (E3 & [_ [A1 A2] A3 A4 A5] & K3).
  assert (head_block_time d2 = head_block_time d) as Et by (by rewrite E2, E1).
  split.
  - intros i. rewrite <- K1. unfold get_opt. cbn. by rewrite A4, E2.
  - intros i. assert (get_opt (V:=OwnerHistory.t) d' i = get_opt d2 i) as -> by (unfold get_opt; cbn; by rewrite A3).
    rewrite K2, E1. done.
  - intros i. rewrite K3, E2, E1. done.
  - rewrite E3, Et. by rewrite E2, E1.
  - rewrite A1. by rewrite E2, E1.
  - by rewrite A4, E2.
  - by rewrite A3, N2, E1.
  - rewrite A2. by rewrite E2, E1.
  - by rewrite A5, Et.
Qed.

Lemma processing_ends d : known_change d -> exists d', account_recovery_processing d = Ok (tt, d').
Proof.
  intros Hk. unfold account_recovery_processing.
  assert (forall row (e e' : database), get_opt (V:=RecoveryRequest.t) e row.1 = Some row.2 -> remove (V:=RecoveryRequest.t) row.1 e = Ok (tt, e') ->
    indices (recovery_requests e') = delete row.1 (indices (recovery_requests e)) /\ requests_only e e') as Hrq.
  { intros row e e' _ He. apply remove_Ok in He as ->. by split. }
  destruct (expire_ends by_expires (request_due d) _ requests_only Hrq (size (indices (recovery_requests d))) d known_change Hk)
    as (d1 & H1 & Hk1); [|done|].
  { intros row e He _ _. eexists. split; [by apply remove_Ok|done]. }
  assert (forall row (e e' : database), get_opt (V:=OwnerHistory.t) e row.1 = Some row.2 -> remove (V:=OwnerHistory.t) row.1 e = Ok (tt, e') ->
    indices (owner_histories e') = delete row.1 (indices (owner_histories e)) /\ histories_only e e') as Hh.
  { intros row e e' _ He. apply remove_Ok in He as ->. by split. }
  destruct (expire_ends Accounts.by_id (history_due d1) _ histories_only Hh (size (indices (owner_histories d1))) d1 known_change Hk1)
    as (d2 & H2 & Hk2); [|done|].
  { intros row e He _ _. eexists. split; [by apply remove_Ok|done]. }
  assert (forall row (e e' : database), get_opt (V:=ChangeRecovery.t) e row.1 = Some row.2 -> apply_change row e = Ok (tt, e') ->
    indices (change_recoveries e') = delete row.1 (indices (change_recoveries e)) /\ True) as Hc.
  { intros row e e' Hr He. split; [|done]. unfold apply_change in He. step He as a Ha. apply st_bind_Ok in He as ([] & e1 & H & He).
    apply modify_Ok in H as (? & ? & _ & _ & ->). by apply remove_Ok in He as ->. }
  destruct (expire_ends by_effective_date (change_due d2) apply_change (fun _ _ => True) Hc (size (indices (change_recoveries d2))) d2
    known_change Hk2) as (d3 & H3 & _); [|done|].
  - intros row e He Hr _. destruct (He _ _ Hr) as (i & a & Ha & Hn). unfold apply_change, get_account. unfold mbind at 1, st_bind at 1.
    unfold get_where, mbind at 1, st_bind at 1, get_st at 1. unfold lift, of_option.
    destruct (lookup_where _ e) as [[j b]|] eqn:E; [|by apply (lookup_where_None _ _ _ _ E) in Ha; apply String.eqb_neq in Ha].
    apply lookup_where_Some in E as [Hb Hbn]. cbn [fst].
    rewrite (st_bind_run _ _ _ tt (set_obj e j (b <| Account.recovery_account := ChangeRecovery.recovery_account row.2 |>)))
      by by eapply obj_modify_run.
    eexists. split; [by apply remove_Ok|]. intros k r Hk'.
    assert (get_opt e k = Some r) as Hk3. { unfold get_opt in *. cbn in *. by apply lookup_delete_Some in Hk' as [_ ?]. }
    destruct (He _ _ Hk3) as (x & c & Hxc & Hcn). exists x. set (w := b <| Account.recovery_account := _ |>).
    exists (if decide (x = j) then w else c). change (get_opt (V:=Account.t) (set_obj e j w) x = Some (if decide (x = j) then w else c) /\
      Account.name (if decide (x = j) then w else c) = ChangeRecovery.account_to_recover r).
    rewrite get_set_obj. case_decide as Hx; [|done]. split; [done|]. subst. rewrite Hb in Hxc. by injection Hxc as <-.
  - exists d3. unfold expire_all. rewrite (st_bind_run _ _ _ tt d1) by exact H1. rewrite (st_bind_run _ _ _ tt d2) by exact H2. exact H3.
Qed.
End AccountFacts.
