(* ===== verification/RecoveryFacts.v ===== *)
(** * Recovery of accounts: facts

    Who can change the owner of an account.  The account operations, the passing of
    blocks and everything else that happens on the chain are the steps of a run; what
    holds in the states of a run says when a recovery is possible. *)

From S2P Require Import Prelude.
From S2P Require Import SafeInt.
From S2P Require Import Uint128.
From S2P Require Import Asset.
From S2P Require Import UndoDatabase.
From S2P Require Import Authority.
From S2P Require Import State.
From S2P Require Import Sample.
From S2P Require Import Balance.
From S2P Require Import BalanceFacts.
From S2P Require Import Vesting.
From S2P Require Import VestingFacts.
From S2P Require Import Delegations.
From S2P Require Import DelegationFacts.
From S2P Require Import Blocks.
From S2P Require Import Accounts.
From S2P Require Import AccountFacts.

Module RecoveryFacts.
Import AssetOps Balances Delegations DelegationFacts Blocks Accounts Supply AccountFacts.

(** ** Runs *)

Inductive account_operation :=
  | Create (o : account_create_operation)
  | CreateDelegated (o : account_create_with_delegation_operation)
  | Update (o : account_update_operation)
  | Challenge (o : challenge_authority_operation)
  | Prove (o : prove_authority_operation)
  | Request (o : request_account_recovery_operation)
  | Recover (o : recover_account_operation)
  | Change (o : change_recovery_account_operation).

Definition apply_account {B : BoostMP} {T : TextChecks} (op : account_operation) : st database unit :=
  match op with
  | Create o => account_create_apply o
  | CreateDelegated o => account_create_with_delegation_apply o
  | Update o => account_update_apply o
  | Challenge o => challenge_authority_apply o
  | Prove o => prove_authority_apply o
  | Request o => request_account_recovery_apply o
  | Recover o => recover_account_apply o
  | Change o => change_recovery_account_apply o
  end.

Definition at_time (t : Z) (d : database) : database := d <| dgpo ::= fun p => p <| Dgpo.time := t |> |>.
(** Head block times that leave room for the period of 30 days in 32 bits. *)
Definition clock_ok (t : Z) : Prop := 0 <= t /\ t + BTCM_OWNER_AUTH_RECOVERY_PERIOD < 2 ^ 32.

(** An account operation; a block, which moves the clock and then expires rows; and
    everything else, which leaves alone what recovery depends on. *)
Inductive event := Do (op : account_operation) | Block | Elsewhere.
Section Runs.
Context {B : BoostMP} {T : TextChecks}.

Inductive step : event -> database -> database -> Prop :=
  | step_do op d d' : apply_account op d = Ok (tt, d') -> step (Do op) d d'
  | step_block t d d1 d' : same_accounts (at_time t d) d1 -> head_block_time d <= t -> clock_ok t ->
      account_recovery_processing d1 = Ok (tt, d') -> step Block d d'
  | step_elsewhere d d' : same_accounts d d' -> step Elsewhere d d'.

(** The events of a run so far, the last one first, each with the state it found. *)
Inductive run (d0 : database) : list (database * event) -> database -> Prop :=
  | run_start : run d0 [] d0
  | run_step tr d ev d' : run d0 tr d -> step ev d d' -> run d0 ((d, ev) :: tr) d'.
End Runs.

(** ** What holds in the states of a run *)

(** The event replaces the owner of [n]. *)
Definition ousts (ev : event) (n : string) : Prop :=
  match ev with
  | Do (Update o) => au_account o = n /\ is_given (au_owner o) = true
  | Do (Recover o) => rc_account_to_recover o = n
  | _ => False
  end.
Definition owned (d : database) (n : string) (w : authority) : Prop :=
  exists i a, get_opt d i = Some a /\ Account.name a = n /\ Account.owner a = w.

(** What the rows of the three tables record. *)
Definition ousted (tr : list (database * event)) (h : OwnerHistory.t) : Prop := exists e ev, (e, ev) ∈ tr /\
  ousts ev (OwnerHistory.account h) /\ owned e (OwnerHistory.account h) (OwnerHistory.previous_owner_authority h) /\
  head_block_time e = OwnerHistory.last_valid_time h.
Definition asked (tr : list (database * event)) (r : RecoveryRequest.t) : Prop := exists e q i a, (e, Do (Request q)) ∈ tr /\
  get_opt e i = Some a /\ Account.name a = RecoveryRequest.account_to_recover r /\ recovers e a (rr_recovery_account q) /\
  rr_account_to_recover q = RecoveryRequest.account_to_recover r /\ rr_new_owner_authority q = RecoveryRequest.new_owner_authority r /\
  RecoveryRequest.expires r = head_block_time e + BTCM_ACCOUNT_RECOVERY_REQUEST_EXPIRATION_PERIOD.
Definition announced (tr : list (database * event)) (r : ChangeRecovery.t) : Prop := exists e q, (e, Do (Change q)) ∈ tr /\
  cr_account_to_recover q = ChangeRecovery.account_to_recover r /\ cr_new_recovery_account q = ChangeRecovery.recovery_account r /\
  ChangeRecovery.effective_on r = head_block_time e + BTCM_OWNER_AUTH_RECOVERY_PERIOD.

Record histories_ok (tr : list (database * event)) (d : database) : Prop := {
  hs_ids : ids_below OwnerHistory.t d;
  hs_rows : forall i h, get_opt d i = Some h -> 0 <= OwnerHistory.last_valid_time h <= head_block_time d /\
    head_block_time d <= OwnerHistory.last_valid_time h + BTCM_OWNER_AUTH_RECOVERY_PERIOD /\ ousted tr h;
  hs_sequence : in_sequence d
}.
(** Rows that wait for their time, one for each account. *)
Record pending_ok {V} `{Stored V} (key : V -> string) (expiry : V -> Z) (origin : list (database * event) -> V -> Prop)
    (tr : list (database * event)) (d : database) : Prop := {
  pn_ids : ids_below V d;
  pn_rows : forall i v, get_opt d i = Some v -> head_block_time d < expiry v /\ origin tr v;
  pn_one : forall i j v w, get_opt d i = Some v -> get_opt d j = Some w -> key v = key w -> i = j
}.
Definition requests_ok := pending_ok RecoveryRequest.account_to_recover RecoveryRequest.expires asked.
Definition changes_ok := pending_ok ChangeRecovery.account_to_recover ChangeRecovery.effective_on announced.
Record safe (tr : list (database * event)) (d : database) : Prop := {
  sf_clock : clock_ok (head_block_time d);
  sf_names : unique_names d;
  sf_ids : ids_below Account.t d;
  sf_histories : histories_ok tr d;
  sf_requests : requests_ok tr d;
  sf_changes : changes_ok tr d;
  sf_known : known_change d
}.

Lemma seen_row d i x : seen d !! i = Some x <-> exists a, get_opt d i = Some a /\ sec a = x.
Proof. rewrite seen_get. destruct (get_opt d i) as [a|]; cbn; [|naive_solver]. split; [intros [= <-]; eauto|]. by intros (b & [= <-] & <-). Qed.

(** What depends on the accounts depends on their view only. *)
Lemma names_seen d : unique_names d <-> forall i j x y, seen d !! i = Some x -> seen d !! j = Some y -> x.1.1 = y.1.1 -> i = j.
Proof.
  split; intros H i j.
  - intros x y (a & Ha & <-)%seen_row (b & Hb & <-)%seen_row. by apply H.
  - intros a b Ha Hb. apply (H i j (sec a) (sec b)); apply seen_row; eauto.
Qed.
Lemma ids_seen d : ids_below Account.t d <-> forall i x, seen d !! i = Some x -> i < next_id (accounts d).
Proof.
  split; intros H i.
  - intros x (a & Ha & _)%seen_row. apply (H i). by exists a.
  - intros [a Ha]. apply (H i (sec a)). apply seen_row. eauto.
Qed.
Lemma known_seen d : known_change d <-> forall j (r : ChangeRecovery.t), get_opt d j = Some r ->
  exists i x, seen d !! i = Some x /\ x.1.1 = ChangeRecovery.account_to_recover r.
Proof.
  split; intros H j r Hr; destruct (H _ _ Hr) as (i & x & Hx & Hn).
  - exists i, (sec x). split; [|done]. apply seen_row. eauto.
  - apply seen_row in Hx as (a & Ha & <-). exists i, a. done.
Qed.

Lemma ids_kept {V} {S : Stored V} d d' due : next_id (tbl (V:=V) d') = next_id (tbl (V:=V) d) ->
  (forall i, get_opt (V:=V) d' i = kept due (get_opt d i)) -> ids_below V d -> ids_below V d'.
Proof.
  intros E K H i. rewrite K, E. destruct (get_opt d i) as [v|] eqn:Ev; [|by intros [? [=]]]. intros _. apply (H i). by exists v.
Qed.
Lemma kept_Some {V} (due : V -> bool) o v : kept due o = Some v <-> o = Some v /\ due v = false.
Proof. unfold kept. destruct o as [w|]; cbn; [|by split; [|intros []]].
  destruct (due w) eqn:E; split; [done|intros [[= <-] ?]; congruence|by intros [= <-]|by intros [[= <-] _]].
Qed.

Section Preservation.
Variables (tr : list (database * event)) (d d' : database).

Lemma histories_frame : owner_histories d' = owner_histories d -> head_block_time d' = head_block_time d ->
  histories_ok tr d -> histories_ok tr d'.
Proof.
  intros E Et [H1 H2 H3]. change (tbl (V:=OwnerHistory.t) d' = tbl d) in E. split; [by eapply ids_same|..].
  - intros i h. rewrite (get_same d d' i E), Et. apply H2.
  - intros i j h k. rewrite (get_same d d' i E), (get_same d d' j E). apply H3.
Qed.
Lemma histories_add h : clock_ok (head_block_time d) -> owner_histories d' = next_object (owner_histories d) h ->
  head_block_time d' = head_block_time d -> OwnerHistory.last_valid_time h = head_block_time d -> ousted tr h ->
  histories_ok tr d -> histories_ok tr d'.
Proof.
  intros Hc E Et Hv Ho [H1 H2 H3]. change (tbl (V:=OwnerHistory.t) d' = next_object (tbl d) h) in E. split; [by eapply ids_next|..].
  - intros i k. rewrite (get_next d d' h i E), Et. case_decide; [|apply H2]. intros [= <-]. rewrite Hv. destruct Hc.
    unfold BTCM_OWNER_AUTH_RECOVERY_PERIOD in *. split_and!; done || lia.
  - intros i j k l. rewrite (get_next d d' h i E), (get_next d d' h j E). do 2 case_decide; intros Hk Hl Hij.
    + simplify_eq. lia.
    + assert (j < next_id (owner_histories d)) by (apply (H1 j); by exists l). cbn in *. lia.
    + injection Hl as <-. destruct (H2 _ _ Hk). lia.
    + by apply (H3 i j).
Qed.

End Preservation.

Section Pending.
Context {V : Type} {St : Stored V} {SOk : StoredOk V}.
Variables (key : V -> string) (expiry : V -> Z) (origin : list (database * event) -> V -> Prop).
Variables (tr : list (database * event)) (d d' : database).
Notation ok := (pending_ok key expiry origin tr).
Hypothesis same_time : head_block_time d' = head_block_time d.

(** A row added, rewritten or removed. *)
Lemma pending_add r : tbl (V:=V) d' = next_object (tbl d) r -> head_block_time d < expiry r -> origin tr r ->
  lookup_where (fun v => String.eqb (key v) (key r)) d = None -> ok d -> ok d'.
Proof.
  intros E He Ha Hn [H1 H2 H3]. assert (forall i s, get_opt d i = Some s -> key s <> key r) as Hf.
  { intros i s Hs Es. apply (lookup_where_None _ _ _ _ Hn) in Hs. by apply String.eqb_neq in Hs. }
  split; [by eapply ids_next|..].
  - intros i s. rewrite (get_next d d' r i E), same_time. case_decide; [|apply H2]. by intros [= <-].
  - intros i j s t. rewrite (get_next d d' r i E), (get_next d d' r j E). do 2 case_decide; intros Hs Ht Eq; simplify_eq; try done.
    + by destruct (Hf _ _ Ht).
    + by destruct (Hf _ _ Hs).
    + by apply (H3 i j s t).
Qed.
Lemma pending_set j r s : d' = set_obj d j r -> get_opt d j = Some s -> key s = key r -> head_block_time d < expiry r -> origin tr r ->
  ok d -> ok d'.
Proof.
  intros E Hs Es He Ha [H1 H2 H3]. split; [by rewrite E; apply ids_below_set; [exists s|]|..].
  - intros i t. rewrite same_time, E, get_set_obj. case_decide; [by intros [= <-]|apply H2].
  - intros x y u v. rewrite E, !get_set_obj. do 2 case_decide; intros Hu Hv Eq; simplify_eq; try done.
    + apply (H3 j y s v); congruence.
    + apply (H3 x j u s); congruence.
    + by apply (H3 x y u v).
Qed.
Lemma pending_sub : next_id (tbl (V:=V) d') = next_id (tbl (V:=V) d) -> (forall i (r : V), get_opt d' i = Some r -> get_opt d i = Some r) ->
  ok d -> ok d'.
Proof.
  intros E Hs [H1 H2 H3]. split.
  - intros i [r Hr]. rewrite E. apply (H1 i). exists r. auto.
  - intros i r Hr. rewrite same_time. eauto.
  - intros i j r s Hr Hs'. apply (H3 i j); auto.
Qed.
Lemma pending_frame : tbl (V:=V) d' = tbl d -> ok d -> ok d'.
Proof. intros E. apply pending_sub; [by rewrite E|]. intros i r. by rewrite (get_same d d' i E). Qed.
End Pending.

Lemma pending_more {V} {S : Stored V} key expiry (origin : list (database * event) -> V -> Prop) tr x d :
  (forall v, origin tr v -> origin (x :: tr) v) -> pending_ok key expiry origin tr d -> pending_ok key expiry origin (x :: tr) d.
Proof. intros Ho [H1 H2 H3]. split; [done| |done]. intros i v Hv. destruct (H2 _ _ Hv). auto. Qed.

(** A run that goes on keeps what was recorded. *)
Lemma safe_more tr x d : safe tr d -> safe (x :: tr) d.
Proof.
  intros [H1 H2 H3 [I1 I2 I3] H5 H6 H7]. split; try done.
  - split; try done. intros i h Hh. destruct (I2 _ _ Hh) as (? & ? & e & ev & Hin & Ho). split_and!; try lia. exists e, ev. split; [by right|done].
  - eapply pending_more; [|exact H5]. intros r (e & q & i & a & Hin & Ha). exists e, q, i, a. split; [by right|done].
  - eapply pending_more; [|exact H6]. intros r (e & q & Hin & Ha). exists e, q. split; [by right|done].
Qed.

(** The same names. *)
Definition name_of (x : string * authority * string) : string := x.1.1.
Definition kin (d d' : database) : Prop := forall i, name_of <$> seen d' !! i = name_of <$> seen d !! i.

Lemma kin_names d d' : kin d d' -> unique_names d -> unique_names d'.
Proof.
  intros Hk. rewrite !names_seen. intros H i j x y Hx Hy E. pose proof (Hk i) as Hi. pose proof (Hk j) as Hj. rewrite Hx in Hi. rewrite Hy in Hj.
  destruct (seen d !! i) as [u|] eqn:Eu; [|done]. destruct (seen d !! j) as [v|] eqn:Ev; [|done]. injection Hi. injection Hj. unfold name_of. intros.
  apply (H i j u v); congruence.
Qed.
Lemma kin_ids d d' : kin d d' -> next_id (accounts d') = next_id (accounts d) -> ids_below Account.t d -> ids_below Account.t d'.
Proof.
  intros Hk E. rewrite !ids_seen. intros H i x Hx. pose proof (Hk i) as Hi. rewrite Hx in Hi. destruct (seen d !! i) as [u|] eqn:Eu; [|done].
  rewrite E. eauto.
Qed.
Lemma kin_known d d' : kin d d' -> (forall j (r : ChangeRecovery.t), get_opt d' j = Some r ->
  exists i x, seen d !! i = Some x /\ name_of x = ChangeRecovery.account_to_recover r) -> known_change d'.
Proof.
  intros Hk H. rewrite known_seen. intros j r Hr. destruct (H _ _ Hr) as (i & x & Hx & Hn). pose proof (Hk i) as Hi. rewrite Hx in Hi.
  destruct (seen d' !! i) as [u|] eqn:Eu; [|done]. injection Hi as Hi. exists i, u. split; [done|]. by rewrite <- Hn.
Qed.
Lemma kin_seen d d' : seen d' = seen d -> kin d d'.
Proof. intros E i. by rewrite E. Qed.
Lemma kin_replaced i a w d d' : replaced i a w d d' -> kin d d'.
Proof.
  intros [Ha E _ _ _ _] j. rewrite E. destruct (decide (j = i)) as [->|]; [|by rewrite lookup_insert_ne by done].
  rewrite lookup_insert_eq, seen_get, Ha. done.
Qed.
Lemma kin_settled now d d' : seen d' = settled now d -> kin d d'.
Proof.
  intros E i. rewrite E. unfold settled. rewrite lookup_fmap. destruct (seen d !! i) as [x|]; [|done]. cbn. f_equal.
  unfold settle. by destruct (due_change now d x.1.1) as [[]|].
Qed.

Lemma safe_same tr d d' : same_accounts d d' -> safe tr d -> safe tr d'.
Proof.
  intros [E1 E2 E3 E4 E5 E6] [H1 H2 H3 H4 H5 H6 H7]. apply kin_seen in E1 as Hk. split.
  - by rewrite E6.
  - by apply (kin_names d).
  - by apply (kin_ids d).
  - by apply (histories_frame tr d).
  - by eapply pending_frame.
  - by eapply pending_frame.
  - apply (kin_known d); [done|]. intros j r. rewrite (get_same (V:=ChangeRecovery.t) d d' j) by exact E5. by apply known_seen.
Qed.

Lemma safe_grown tr new d d' : grown new d d' -> safe tr d -> safe tr d'.
Proof.
  intros [E0 E1 E2 E3 E4 E5 E6] [H1 H2 H3 H4 H5 H6 H7]. rewrite names_seen in H2. rewrite ids_seen in H3.
  assert (seen d !! next_id (accounts d) = None) as Hn. { destruct (seen d !! _) eqn:E; [|done]. apply H3 in E. lia. }
  assert (forall i x, seen d !! i = Some x -> x.1.1 <> new.1.1) as Hf. { intros i x (a & Ha & <-)%seen_row. by apply (E0 i). }
  split.
  - by rewrite E6.
  - rewrite names_seen, E1. intros i j x y [[<- <-]|[_ Hx]]%lookup_insert_Some [[<- <-]|[_ Hy]]%lookup_insert_Some E; [done|..].
    + by destruct (Hf _ _ Hy).
    + by destruct (Hf _ _ Hx).
    + by apply (H2 i j x y).
  - rewrite ids_seen, E1, E2. intros i x [[<- _]|[_ Hx]]%lookup_insert_Some; [lia|]. apply H3 in Hx. lia.
  - by apply (histories_frame tr d).
  - by eapply pending_frame.
  - by eapply pending_frame.
  - rewrite known_seen, E1. intros j r. rewrite (get_same (V:=ChangeRecovery.t) d d' j) by exact E5. intros Hr.
    destruct (proj1 (known_seen d) H7 _ _ Hr) as (i & x & Hx & Hx'). exists i, x. split; [|done]. apply lookup_insert_Some. right. split; [|done].
    intros <-. congruence.
Qed.

Lemma safe_replaced tr i a w d d' : replaced i a w d d' -> ousted tr (OwnerHistory.Make (Account.name a) (Account.owner a) (head_block_time d)) ->
  requests_ok tr d' -> safe tr d -> safe tr d'.
Proof.
  intros Hr Ho Hrq [H1 H2 H3 H4 H5 H6 H7]. pose proof (kin_replaced _ _ _ _ _ Hr) as Hk. destruct Hr as [E0 E1 E2 E3 E4 E5]. split; try done.
  - by rewrite E5.
  - by apply (kin_names d).
  - by apply (kin_ids d).
  - by eapply histories_add.
  - by eapply pending_frame.
  - apply (kin_known d); [done|]. intros j r. rewrite (get_same (V:=ChangeRecovery.t) d d' j) by exact E4. by apply known_seen.
Qed.

Lemma safe_processed tr d d' : clock_ok (head_block_time d) -> processed d d' -> unique_names d -> ids_below Account.t d ->
  ids_below OwnerHistory.t d -> (forall i h, get_opt d i = Some h -> 0 <= OwnerHistory.last_valid_time h <= head_block_time d /\ ousted tr h) ->
  in_sequence d -> ids_below RecoveryRequest.t d -> (forall i r, get_opt d i = Some r -> asked tr r) ->
  (forall i j (r s : RecoveryRequest.t), get_opt d i = Some r -> get_opt d j = Some s ->
     RecoveryRequest.account_to_recover r = RecoveryRequest.account_to_recover s -> i = j) ->
  ids_below ChangeRecovery.t d -> (forall i r, get_opt d i = Some r -> announced tr r) -> one_change d -> known_change d -> safe tr d'.
Proof.
  intros Hc [K1 K2 K3 E1 N1 N2 N3 N4 Et] H1 H2 H3 H4 H5 H6 H7 H8 H9 H10 H11 H12.
  assert (kin d d') as Hk by by eapply kin_settled. split.
  - by rewrite Et.
  - by apply (kin_names d).
  - by apply (kin_ids d).
  - split; [by eapply ids_kept|..].
    + intros i h [Hh Hd]%(eq_trans (eq_sym (K2 i)))%kept_Some. destruct (H4 _ _ Hh) as [? ?]. rewrite Et.
      rewrite history_due_eq in Hd; destruct Hc; unfold BTCM_OWNER_AUTH_RECOVERY_PERIOD in *; [|lia..]. split_and!; done || lia.
    + intros i j h k [Hh _]%(eq_trans (eq_sym (K2 i)))%kept_Some [Hk' _]%(eq_trans (eq_sym (K2 j)))%kept_Some. by apply (H5 i j).
  - split; [by eapply ids_kept|..].
    + intros i r [Hr Hd]%(eq_trans (eq_sym (K1 i)))%kept_Some. rewrite Et. unfold request_due in Hd. split; [lia|eauto].
    + intros i j r s [Hr _]%(eq_trans (eq_sym (K1 i)))%kept_Some [Hs _]%(eq_trans (eq_sym (K1 j)))%kept_Some. by apply H8.
  - split; [by eapply ids_kept|..].
    + intros i r [Hr Hd]%(eq_trans (eq_sym (K3 i)))%kept_Some. rewrite Et. unfold change_due in Hd. split; [lia|eauto].
    + intros i j r s [Hr _]%(eq_trans (eq_sym (K3 i)))%kept_Some [Hs _]%(eq_trans (eq_sym (K3 j)))%kept_Some. by apply H11.
  - apply (kin_known d); [done|]. intros j r [Hr _]%(eq_trans (eq_sym (K3 j)))%kept_Some. by apply (proj1 (known_seen d) H12 j).
Qed.

Section Safety.
Context {B : BoostMP} {T : TextChecks}.

Lemma in_period t p : clock_ok t -> 0 < p <= BTCM_OWNER_AUTH_RECOVERY_PERIOD -> u32 (t + p) = t + p /\ t < t + p.
Proof. unfold clock_ok, BTCM_OWNER_AUTH_RECOVERY_PERIOD, u32. intros [] ?. rewrite Z.mod_small by lia. lia. Qed.

Lemma safe_request tr o d d' : request_account_recovery_apply o d = Ok (tt, d') -> safe tr d -> safe ((d, Do (Request o)) :: tr) d'.
Proof.
  intros H Hs. apply request_effect in H as ((i & a & Ha & Hn & Hr) & H). pose proof (sf_clock _ _ Hs) as Hc.
  apply (safe_more _ (d, Do (Request o))) in Hs. destruct Hs as [H1 H2 H3 H4 H5 H6 H7].
  destruct (in_period _ BTCM_ACCOUNT_RECOVERY_REQUEST_EXPIRATION_PERIOD Hc) as [Eu Hlt]; [done|]. cbv zeta in H. rewrite Eu in H.
  set (row := RecoveryRequest.Make _ _ _) in H.
  assert (asked ((d, Do (Request o)) :: tr) row) as Hrow. { exists d, o, i, a. split_and!; [by left|done..]. }
  destruct (request_of d (rr_account_to_recover o)) as [[j r]|] eqn:Er.
  - unfold request_of in Er. apply lookup_where_Some in Er as [Hr' Hn']. apply String.eqb_eq in Hn'.
    destruct (_ =? 0); subst d'; (split; [done..|by apply (histories_frame _ d)| |by apply (pending_frame ChangeRecovery.account_to_recover ChangeRecovery.effective_on announced _ d)|done]).
    + eapply pending_sub; [| | |exact H5]; [done|done|]. intros k s. unfold get_opt. cbn. rewrite lookup_delete_Some. by intros [].
    + by apply (pending_set RecoveryRequest.account_to_recover RecoveryRequest.expires asked _ d (set_obj (V:=RecoveryRequest.t) d j row) ltac:(done) j row r).
  - subst d'. split; [done..|by apply (histories_frame _ d)| |by apply (pending_frame ChangeRecovery.account_to_recover ChangeRecovery.effective_on announced _ d)|done]. by apply (pending_add RecoveryRequest.account_to_recover RecoveryRequest.expires asked _ d (upd_tbl (V:=RecoveryRequest.t) (fun t => next_object t row) d) ltac:(done) row).
Qed.

Lemma safe_change tr o d d' : change_recovery_account_apply o d = Ok (tt, d') -> safe tr d -> safe ((d, Do (Change o)) :: tr) d'.
Proof.
  intros H Hs. apply change_effect in H as (i & a & Ha & Hn & H). pose proof (sf_clock _ _ Hs) as Hc.
  apply (safe_more _ (d, Do (Change o))) in Hs. destruct Hs as [H1 H2 H3 H4 H5 H6 H7].
  destruct (in_period _ BTCM_OWNER_AUTH_RECOVERY_PERIOD Hc) as [Eu Hlt]; [done|]. cbv zeta in H. rewrite Eu in H.
  set (row := ChangeRecovery.Make _ _ _) in H.
  assert (announced ((d, Do (Change o)) :: tr) row) as Hrow. { exists d, o. split_and!; [by left|done..]. }
  destruct (change_of d (cr_account_to_recover o)) as [[j r]|] eqn:Er.
  - unfold change_of in Er. apply lookup_where_Some in Er as [Hr' Hn']. apply String.eqb_eq in Hn'.
    destruct (String.eqb _ _); subst d'; (split; [done..|by apply (histories_frame _ d)|by apply (pending_frame RecoveryRequest.account_to_recover RecoveryRequest.expires asked _ d)| |]).
    + eapply pending_sub; [| | |exact H6]; [done|done|]. intros k s. unfold get_opt. cbn. rewrite lookup_delete_Some. by intros [].
    + intros k s Hk. unfold get_opt in Hk. cbn in Hk. apply lookup_delete_Some in Hk as [_ Hk]. by apply (H7 k).
    + by apply (pending_set ChangeRecovery.account_to_recover ChangeRecovery.effective_on announced _ d (set_obj (V:=ChangeRecovery.t) d j row) ltac:(done) j row r).
    + intros k s. rewrite get_set_obj. case_decide; [intros [= <-]; by exists i, a|apply H7].
  - subst d'. split; [done..|by apply (histories_frame _ d)|by apply (pending_frame RecoveryRequest.account_to_recover RecoveryRequest.expires asked _ d)| |]; [by apply (pending_add ChangeRecovery.account_to_recover ChangeRecovery.effective_on announced _ d (upd_tbl (V:=ChangeRecovery.t) (fun t => next_object t row) d) ltac:(done) row)|].
    intros k s. rewrite (get_next d _ row k) by done. case_decide; [intros [= <-]; by exists i, a|apply H7].
Qed.

Lemma safe_block tr t d d1 d' : same_accounts (at_time t d) d1 -> head_block_time d <= t -> clock_ok t ->
  account_recovery_processing d1 = Ok (tt, d') -> safe tr d -> safe tr d'.
Proof.
  intros [E1 E2 E3 E4 E5 E6] Ht Hc H [H1 H2 H3 [I1 I2 I3] [J1 J2 J3] [K1 K2 K3] H7].
  change (head_block_time (at_time t d)) with t in E6.
  assert (kin d d1) as Hk by (by apply kin_seen). assert (unique_names d1) as Hu by (by apply (kin_names d)).
  assert (forall i, get_opt d1 i = get_opt (V:=OwnerHistory.t) d i) as Gh by (intros; by apply get_same).
  assert (forall i, get_opt d1 i = get_opt (V:=RecoveryRequest.t) d i) as Gr by (intros; by apply get_same).
  assert (forall i, get_opt d1 i = get_opt (V:=ChangeRecovery.t) d i) as Gc by (intros; by apply get_same).
  assert (in_sequence d1) as Hseq by (intros i j h k; rewrite !Gh; apply I3).
  assert (times_ok d1) as Htm. { intros i h. rewrite Gh. intros Hh. destruct (I2 _ _ Hh) as (? & _). destruct Hc. lia. }
  assert (one_change d1) as Ho1 by (intros i j r s; rewrite !Gc; apply K3).
  apply (safe_processed tr d1).
  - by rewrite E6.
  - by apply processing_effect.
  - done.
  - by apply (kin_ids d).
  - by apply (ids_same d).
  - intros i h. rewrite Gh. intros Hh. destruct (I2 _ _ Hh) as (? & _ & ?). split; [lia|done].
  - done.
  - by apply (ids_same d).
  - intros i r. rewrite Gr. intros Hr. by apply J2 in Hr as [_ ?].
  - intros i j r s. rewrite !Gr. apply J3.
  - by apply (ids_same d).
  - intros i r. rewrite Gc. intros Hr. by apply K2 in Hr as [_ ?].
  - done.
  - apply (kin_known d); [done|]. intros j r. rewrite Gc. by apply (proj1 (known_seen d) H7 j).
Qed.

Lemma safe_step tr ev d d' : step ev d d' -> safe tr d -> safe ((d, ev) :: tr) d'.
Proof.
  intros [op e e' H|t e e1 e' H1 H2 H3 H4|e e' H] Hs.
  - destruct op as [o|o|o|o|o|o|o|o]; cbn in H.
    + apply account_create_grown in H. by apply safe_more, (safe_grown _ _ _ _ H).
    + apply account_delegate_grown in H. by apply safe_more, (safe_grown _ _ _ _ H).
    + apply account_update_effect in H. destruct (au_owner o) as [w|] eqn:Ew.
      * destruct H as (i & a & Hr & Hn & Hrq & _). pose proof (rp_account _ _ _ _ _ Hr) as Ha.
        apply (safe_replaced _ _ _ _ _ _ Hr).
        -- exists e, (Do (Update o)). split_and!; [by left|cbn; rewrite Ew; done|by exists i, a|done].
        -- apply (safe_more _ (e, Do (Update o))), sf_requests in Hs. eapply pending_frame; [exact (rp_time _ _ _ _ _ Hr)|exact Hrq|exact Hs].
        -- by apply safe_more.
      * by apply safe_more, (safe_same _ _ _ H).
    + apply challenge_effect in H. by apply safe_more, (safe_same _ _ _ H).
    + apply prove_effect in H. by apply safe_more, (safe_same _ _ _ H).
    + by apply safe_request.
    + apply recover_effect in H as (i & a & j & r & Hr & Hn & _ & _ & _ & _ & Hrq). pose proof (rp_account _ _ _ _ _ Hr) as Ha.
      apply (safe_replaced _ _ _ _ _ _ Hr).
      * exists e, (Do (Recover o)). split_and!; [by left|done|by exists i, a|done].
      * apply (safe_more _ (e, Do (Recover o))), sf_requests in Hs. eapply pending_sub; [exact (rp_time _ _ _ _ _ Hr)| | |exact Hs].
        -- cbn. by rewrite Hrq.
        -- intros k s. unfold get_opt. cbn. rewrite Hrq. cbn. rewrite lookup_delete_Some. by intros [].
      * by apply safe_more.
    + by apply safe_change.
  - apply safe_more. by apply (safe_block tr t e e1 e').
  - by apply safe_more, (safe_same _ _ _ H).
Qed.

(** A chain on which no recovery is under way. *)
Record starting (d : database) : Prop := {
  stt_clock : clock_ok (head_block_time d);
  stt_names : unique_names d;
  stt_ids : ids_below Account.t d;
  stt_histories : forall i, get_opt (V:=OwnerHistory.t) d i = None;
  stt_requests : forall i, get_opt (V:=RecoveryRequest.t) d i = None;
  stt_changes : forall i, get_opt (V:=ChangeRecovery.t) d i = None
}.

Lemma run_safe d0 tr d : starting d0 -> run d0 tr d -> safe tr d.
Proof.
  intros [S1 S2 S3 S4 S5 S6] H. induction H as [|tr d ev d' H IH Hst]; [|by apply safe_step].
  split; [done..| | | |].
  - split; intros i; [rewrite S4; by intros [? [=]]|intros h; by rewrite S4|intros j h k; by rewrite S4].
  - split; intros i; [rewrite S5; by intros [? [=]]|intros h; by rewrite S5|intros j h k; by rewrite S5].
  - split; intros i; [rewrite S6; by intros [? [=]]|intros h; by rewrite S6|intros j h k; by rewrite S6].
  - intros j r. by rewrite S6.
Qed.
End Safety.

Section Theorems.
Context {B : BoostMP} {T : TextChecks}.

Lemma was_owner_spec n w d : was_owner n w d = true <-> exists i h, get_opt d i = Some h /\ OwnerHistory.account h = n /\ OwnerHistory.previous_owner_authority h = w.
Proof.
  unfold was_owner. rewrite existsb_exists. split.
  - intros ([i h] & Hin & Hc). apply list_elem_of_In, elem_of_map_to_list in Hin. apply andb_true_iff in Hc as [H1 H2].
    apply String.eqb_eq in H1. apply bool_decide_eq_true in H2. by exists i, h.
  - intros (i & h & Hh & <- & <-). exists (i, h). split; [by apply list_elem_of_In, elem_of_map_to_list|]. cbn.
    by rewrite String.eqb_refl, bool_decide_eq_true_2.
Qed.

Lemma owned_seen d n w : owned d n w <-> exists i r, seen d !! i = Some (n, w, r).
Proof.
  split.
  - intros (i & a & Ha & <- & <-). exists i, (Account.recovery_account a). apply seen_row. by exists a.
  - intros (i & r & (a & Ha & E)%seen_row). injection E. intros. by exists i, a.
Qed.

(** C37 Whoever recovers an account knows an owner authority it had until at most thirty
    days ago and that an update or a recovery replaced, and a request of the recovery
    account of that time, made less than a day ago, names the new one; the account
    then has it, every other account keeps its owner, and the request is used up. *)
Theorem recovery_authorised d0 tr d o d' : starting d0 -> run d0 tr d -> recover_account_apply o d = Ok (tt, d') ->
  (exists e ev, (e, ev) ∈ tr /\ ousts ev (rc_account_to_recover o) /\
     owned e (rc_account_to_recover o) (rc_recent_owner_authority o) /\
     head_block_time e <= head_block_time d <= head_block_time e + BTCM_OWNER_AUTH_RECOVERY_PERIOD) /\
  (exists e q i a, (e, Do (Request q)) ∈ tr /\ get_opt e i = Some a /\ Account.name a = rc_account_to_recover o /\
     recovers e a (rr_recovery_account q) /\ rr_account_to_recover q = rc_account_to_recover o /\
     rr_new_owner_authority q = rc_new_owner_authority o /\
     head_block_time d < head_block_time e + BTCM_ACCOUNT_RECOVERY_REQUEST_EXPIRATION_PERIOD) /\
  owned d' (rc_account_to_recover o) (rc_new_owner_authority o) /\
  (forall m w, m <> rc_account_to_recover o -> owned d m w <-> owned d' m w) /\
  request_of d' (rc_account_to_recover o) = None.
Proof.
  intros H0 Hrun H. pose proof (run_safe _ _ _ H0 Hrun) as [_ _ _ [_ I2 _] [_ J2 J3] _ _].
  apply recover_effect in H as (i & a & j & r & Hr & Hn & _ & Hq & Hw & Hh & Hrq). unfold request_of in Hq.
  apply lookup_where_Some in Hq as [Hj Hjn]. apply String.eqb_eq in Hjn. split_and!.
  - apply was_owner_spec in Hh as (k & h & Hk & <- & <-). destruct (I2 _ _ Hk) as (Ht & Hp & e & ev & Hin & Ho & Hown & Et).
    exists e, ev. rewrite Et. split_and!; done || lia.
  - destruct (J2 _ _ Hj) as [Hlt (e & q & k & b & Hin & Hb & Hbn & Hrec & Hqa & Hqn & He)].
    exists e, q, k, b. split_and!; try done; congruence || lia.
  - apply owned_seen. exists i, (Account.recovery_account a). rewrite (rp_seen _ _ _ _ _ Hr), Hn. apply lookup_insert_eq.
  - intros m w Hm. rewrite !owned_seen, (rp_seen _ _ _ _ _ Hr).
    assert (seen d !! i = Some (sec a)) as Hs. { apply seen_row. exists a. split; [by apply (rp_account _ _ _ _ _ Hr)|done]. }
    split; intros (k & x & Hx); exists k, x.
    + destruct (decide (k = i)) as [->|]; [|by rewrite lookup_insert_ne by done]. rewrite Hs in Hx. injection Hx. congruence.
    + apply lookup_insert_Some in Hx as [[_ Hx]|[_ Hx]]; [|done]. congruence.
  - unfold request_of. destruct (lookup_where _ d') as [[k s]|] eqn:E; [|done]. apply lookup_where_Some in E as [Hs Hsn].
    apply String.eqb_eq in Hsn. unfold get_opt in Hs. cbn in Hs. rewrite Hrq in Hs. cbn in Hs. apply lookup_delete_Some in Hs as [Hk Hs].
    destruct Hk. apply (J3 j k r s Hj Hs). congruence.
Qed.

(** What a step can make of an account. *)
Inductive becomes (ev : event) (d d' : database) (a : Account.t) : string * authority * string -> Prop :=
  | stays : becomes ev d d' a (sec a)
  | updated o w : ev = Do (Update o) -> au_account o = Account.name a -> au_owner o = Some w ->
      head_block_time d - Account.last_owner_update a > BTCM_OWNER_UPDATE_LIMIT ->
      becomes ev d d' a (Account.name a, w, Account.recovery_account a)
  | recovered o : ev = Do (Recover o) -> rc_account_to_recover o = Account.name a ->
      becomes ev d d' a (Account.name a, rc_new_owner_authority o, Account.recovery_account a)
  | transferred j (r : ChangeRecovery.t) : ev = Block -> get_opt d j = Some r -> ChangeRecovery.account_to_recover r = Account.name a ->
      ChangeRecovery.effective_on r <= head_block_time d' ->
      becomes ev d d' a (Account.name a, Account.owner a, ChangeRecovery.recovery_account r).

Lemma seen_same d d' i (a : Account.t) : seen d' = seen d -> get_opt d i = Some a -> seen d' !! i = Some (sec a).
Proof. intros -> Ha. apply seen_row. by exists a. Qed.
Lemma seen_grown new d d' i (a : Account.t) : ids_below Account.t d -> grown new d d' -> get_opt d i = Some a -> seen d' !! i = Some (sec a).
Proof.
  intros Hb Hg Ha. rewrite (gr_seen _ _ _ Hg), lookup_insert_ne; [apply seen_row; by exists a|].
  intros E. pose proof (Hb i (mk_is_Some _ _ Ha)) as Hlt. cbn in Hlt. lia.
Qed.
Lemma seen_replaced k b w d d' i (a : Account.t) : replaced k b w d d' -> get_opt d i = Some a ->
  k = i /\ b = a /\ seen d' !! i = Some (Account.name a, w, Account.recovery_account a) \/ seen d' !! i = Some (sec a).
Proof.
  intros [Hb E _ _ _ _] Ha. rewrite E. destruct (decide (k = i)) as [->|Hk].
  - left. rewrite Ha in Hb. injection Hb as <-. by rewrite lookup_insert_eq.
  - right. rewrite lookup_insert_ne by done. apply seen_row. by exists a.
Qed.
Lemma becomes_block tr t d d1 d' i (a : Account.t) : safe tr d -> same_accounts (at_time t d) d1 -> head_block_time d <= t -> clock_ok t ->
  account_recovery_processing d1 = Ok (tt, d') -> get_opt d i = Some a -> exists x, seen d' !! i = Some x /\ becomes Block d d' a x.
Proof.
  intros [H1 H2 H3 [I1 I2 I3] _ [K1 K2 K3] _] [E1 _ E3 _ E5 E6] Ht Hc Hpr Ha. change (head_block_time (at_time t d)) with t in E6.
  assert (forall k, get_opt d1 k = get_opt (V:=OwnerHistory.t) d k) as Gh by (intros; by apply get_same).
  assert (forall k, get_opt d1 k = get_opt (V:=ChangeRecovery.t) d k) as Gc by (intros; by apply get_same).
  apply processing_effect in Hpr as [_ _ _ P4 _ _ _ _ P9].
  - rewrite E6 in P9. rewrite P4, E6. unfold settled. rewrite lookup_fmap, (seen_same d d1 i a E1 Ha). cbn. eexists. split; [done|].
    unfold settle. destruct (due_change t d1 _) as [[j r]|] eqn:Er; [|constructor]. unfold due_change in Er.
    apply lookup_where_Some in Er as [Hr Hd]. apply andb_true_iff in Hd as [Hd Hn]. apply String.eqb_eq in Hn. rewrite Gc in Hr.
    apply (transferred _ _ _ _ j r); [done|done|done|lia].
  - intros j k h h'. rewrite !Gh. apply I3.
  - intros j h. rewrite Gh. intros Hh. destruct (I2 _ _ Hh) as (? & _). destruct Hc. lia.
  - intros j k r s. rewrite !Gc. apply K3.
  - by apply (kin_names d); [apply kin_seen|].
Qed.

Lemma step_becomes tr ev d d' i (a : Account.t) : safe tr d -> step ev d d' -> get_opt d i = Some a ->
  exists x, seen d' !! i = Some x /\ becomes ev d d' a x.
Proof.
  intros Hs Hst. destruct Hst as [op d d' H|t d d1 d' H1 H2 H3 H4|d d' H]; intros Ha.
  - assert (seen d' = seen d -> exists x, seen d' !! i = Some x /\ becomes (Do op) d d' a x) as Hsame.
    { intros E. exists (sec a). split; [by apply (seen_same d)|constructor]. }
    assert (forall new, grown new d d' -> exists x, seen d' !! i = Some x /\ becomes (Do op) d d' a x) as Hgrown.
    { intros new Hg. exists (sec a). split; [|constructor]. by apply (seen_grown new d); [apply (sf_ids tr)| |]. }
    destruct op as [o|o|o|o|o|o|o|o]; cbn in H.
    + by apply account_create_grown in H as ?%Hgrown.
    + by apply account_delegate_grown in H as ?%Hgrown.
    + apply account_update_effect in H. destruct (au_owner o) as [w|] eqn:Ew; [|by apply Hsame; destruct H].
      destruct H as (k & b & Hr & Hn & _ & Ht). destruct (seen_replaced _ _ _ _ _ i a Hr Ha) as [(-> & -> & Hx)|Hx]; eexists; (split; [exact Hx|]);
        [by eapply updated|constructor].
    + by apply challenge_effect, sa_seen in H as ?%Hsame.
    + by apply prove_effect, sa_seen in H as ?%Hsame.
    + apply request_effect in H as [_ H]. apply Hsame. cbv zeta in H. destruct (request_of d _) as [[j r]|]; [destruct (_ =? 0)|]; by subst d'.
    + apply recover_effect in H as (k & b & j & r & Hr & Hn & _). destruct (seen_replaced _ _ _ _ _ i a Hr Ha) as [(-> & -> & Hx)|Hx];
        eexists; (split; [exact Hx|]); [by apply recovered|constructor].
    + apply change_effect in H as (k & b & _ & _ & H). apply Hsame. cbv zeta in H.
      destruct (change_of d _) as [[j r]|]; [destruct (String.eqb _ _)|]; by subst d'.
  - by apply (becomes_block tr t d d1).
  - exists (sec a). split; [apply (seen_same d); [apply H|done]|constructor].
Qed.


(** C39 Whatever happened before, the processing of recoveries in a block ends without an
    error; it drops exactly the requests that have expired and the owners replaced more
    than thirty days ago, though it looks at the histories in the order of their ids,
    and it applies and drops exactly the announced changes that are due. *)
Theorem expiry_exact d0 tr d t d1 : starting d0 -> run d0 tr d -> same_accounts (at_time t d) d1 -> head_block_time d <= t -> clock_ok t ->
  exists d', account_recovery_processing d1 = Ok (tt, d') /\
    (forall i r, get_opt d' i = Some r <-> get_opt d i = Some r /\ t < RecoveryRequest.expires r) /\
    (forall i h, get_opt d' i = Some h <-> get_opt d i = Some h /\ t <= OwnerHistory.last_valid_time h + BTCM_OWNER_AUTH_RECOVERY_PERIOD) /\
    (forall i r, get_opt d' i = Some r <-> get_opt d i = Some r /\ t < ChangeRecovery.effective_on r) /\
    seen d' = settled t d.
Proof.
  intros H0 Hrun Hsa Ht Hc. destruct (run_safe _ _ _ H0 Hrun) as [S1 S2 S3 [I1 I2 I3] S5 [K1 K2 K3] S7].
  destruct Hsa as [E1 _ E3 E4 E5 E6]. change (head_block_time (at_time t d)) with t in E6.
  assert (forall k, get_opt d1 k = get_opt (V:=OwnerHistory.t) d k) as Gh by (intros; by apply get_same).
  assert (forall k, get_opt d1 k = get_opt (V:=RecoveryRequest.t) d k) as Gr by (intros; by apply get_same).
  assert (forall k, get_opt d1 k = get_opt (V:=ChangeRecovery.t) d k) as Gc by (intros; by apply get_same).
  assert (kin d d1) as Hk by by apply kin_seen.
  destruct (processing_ends d1) as (d' & Hd').
  { apply (kin_known d); [done|]. intros j r. rewrite Gc. by apply known_seen. }
  exists d'. split; [done|]. apply processing_effect in Hd' as [P1 P2 P3 P4 _ _ _ _ P9].
  - split_and!.
    + intros i r. rewrite P1, Gr, kept_Some. unfold request_due. rewrite E6. apply and_iff_compat_l. lia.
    + intros i h. rewrite P2, Gh, kept_Some. split; intros [Hh Hd]; (split; [done|]); destruct (I2 _ _ Hh) as (? & _);
        destruct Hc; rewrite history_due_eq, E6 in * by lia; lia.
    + intros i r. rewrite P3, Gc, kept_Some. unfold change_due. rewrite E6. apply and_iff_compat_l. lia.
    + rewrite P4, E6. unfold settled. rewrite E1. apply map_fmap_ext. intros k x _. unfold settle, due_change, lookup_where.
      cbn [tbl stored_change_recoveries]. by rewrite E5.
  - intros j k h h'. rewrite !Gh. apply I3.
  - intros j h. rewrite Gh. intros Hh. destruct (I2 _ _ Hh) as (? & _). destruct Hc. lia.
  - intros j k r s. rewrite !Gc. apply K3.
  - by apply (kin_names d).
Qed.
End Theorems.

(** ** A recovery *)

#[local] Existing Instance boost_reference.
#[local] Instance any_text : TextChecks := {| is_utf8 _ := true; json_is_valid _ := true |}.

Definition first_key : authority := Auth 1 [] [(1, 1)].
Definition stolen : authority := Auth 1 [] [(66, 1)].
Definition fresh_key : authority := Auth 1 [] [(2, 1)].

(** alice named bob her recovery account; a thief replaces her owner key. *)
Definition before_theft : database := Sample.state <| accounts ::= fun t => t <| indices ::=
  <[0 := Sample.alice <| Account.owner := first_key |> <| Account.recovery_account := "bob" |>]> |> |>.
Definition theft : account_update_operation := AccountUpdateOp "alice" (Some stolen) None None null_key "".
Definition call_for_help : request_account_recovery_operation := RequestRecoveryOp "bob" "alice" fresh_key.
Definition take_back : recover_account_operation := RecoverOp "alice" fresh_key first_key.
Definition new_friend : change_recovery_account_operation := ChangeRecoveryOp "alice" "nancy".

Definition robbed : database := Sample.after (apply_account (Update theft)) before_theft.
Definition announced_change : database := Sample.after (apply_account (Change new_friend)) robbed.
Definition helped : database := Sample.after (apply_account (Request call_for_help)) announced_change.

Lemma before_theft_starting : starting before_theft.
Proof.
  split; [by split|..].
  - intros i j a b Ha Hb.
    assert (forall i (a : Account.t), get_opt before_theft i = Some a ->
      (i = 0 /\ Account.name a = "alice"%string) \/ (i = 1 /\ Account.name a = "bob"%string) \/ (i = 2 /\ Account.name a = "nancy"%string)) as Hall.
    { each_row; naive_solver. }
    destruct (Hall _ _ Ha) as [[-> ->]|[[-> ->]|[-> ->]]], (Hall _ _ Hb) as [[-> ->]|[[-> ->]|[-> ->]]]; done.
  - by apply ids_below_check.
  - done.
  - done.
  - done.
Qed.

Definition story : list (database * event) :=
  [(announced_change, Do (Request call_for_help)); (robbed, Do (Change new_friend)); (before_theft, Do (Update theft))].
Lemma story_run : run before_theft story helped.
Proof.
  repeat (apply run_step; [|constructor; apply Sample.after_run; vm_compute; reflexivity]). constructor.
Qed.

Lemma recovery_authorised_witness :
  recover_account_apply take_back helped = Ok (tt, Sample.after (recover_account_apply take_back) helped) /\
  owned (Sample.after (recover_account_apply take_back) helped) "alice" fresh_key.
Proof.
  assert (recover_account_apply take_back helped = Ok (tt, Sample.after (recover_account_apply take_back) helped)) as H
    by (apply Sample.after_run; vm_compute; reflexivity).
  split; [exact H|].
  destruct (recovery_authorised before_theft story helped take_back _ before_theft_starting story_run H) as (_ & _ & Ho & _). exact Ho.
Defined.


(** Thirty days later the announced change takes effect. *)
Definition next_month : Z := head_block_time robbed + BTCM_OWNER_AUTH_RECOVERY_PERIOD.
Lemma expiry_exact_witness : exists d', account_recovery_processing (at_time next_month helped) = Ok (tt, d') /\
  seen d' !! 0 = Some ("alice", stolen, "nancy") /\ is_Some (get_opt (V:=OwnerHistory.t) d' 0) /\ get_opt (V:=RecoveryRequest.t) d' 0 = None.
Proof.
  destruct (expiry_exact before_theft story helped next_month (at_time next_month helped)) as (d' & H & Hr & Hh & _ & Hs).
  - exact before_theft_starting.
  - exact story_run.
  - reflexivity.
  - vm_compute. discriminate.
  - by split.
  - exists d'. split; [exact H|]. split; [rewrite Hs; vm_compute; reflexivity|]. split.
    + eexists. apply Hh. split; [vm_compute; reflexivity|vm_compute; discriminate].
    + destruct (get_opt d' 0) as [r|] eqn:E; [|done]. apply Hr in E as [E Ht]. vm_compute in E. injection E as <-. by vm_compute in Ht.
Defined.
End RecoveryFacts.
