(* ===== verification/CreationFacts.v ===== *)
(** * Creating accounts: facts

    A new account takes the fee of its creator into its vesting shares, and a
    delegation given with it enters the books of both accounts; nothing is created
    and nothing lost. *)

From S2P Require Import Prelude.
From S2P Require Import SafeInt.
From S2P Require Import Uint128.
From S2P Require Import Asset.
From S2P Require Import UndoDatabase.
From S2P Require Import Authority.
From S2P Require Import State.
From S2P Require Import Sample.
From S2P Require Import Balance.
From S2P Require Import BalanceFacts.
From S2P Require Import Vesting.
From S2P Require Import VestingFacts.
From S2P Require Import Delegations.
From S2P Require Import DelegationFacts.
From S2P Require Import Invariants.
From S2P Require Import Blocks.
From S2P Require Import Accounts.
From S2P Require Import AccountFacts.

Module CreationFacts.
Import AssetOps Balances Vesting Quiet Delegations DelegationFacts Invariants Accounts AccountFacts Supply.

Section Creation.
Context {B : BoostMP} {T : TextChecks}.

(** ** Funds *)

Lemma gap_new_account d (w : Account.t) i d' id : ids_below Account.t d -> create w d = Ok (i, d') ->
  amount (Account.balance w) = 0 -> amount (Account.mbd_balance w) = 0 -> amount (Account.vesting_shares w) = 0 ->
  gap id d' = gap id d.
Proof.
  intros Hb (_ & _ & ->)%create_Ok E1 E2 E3. pose proof (ids_below_fresh _ Hb) as Hf. set (d' := upd_tbl _ d).
  unfold gap, held_btcm, held_mbd, held_vests. change (dgpo d') with (dgpo d).
  change (user_supply id d') with (user_supply id d). change (held_user id d') with (held_user id d).
  change (total (V:=ConvertRequest.t) ?f d') with (total (V:=ConvertRequest.t) f d).
  change (total (V:=LimitOrder.t) ?f d') with (total (V:=LimitOrder.t) f d).
  change (total (V:=ClaimBalance.t) ?f d') with (total (V:=ClaimBalance.t) f d).
  change (total (V:=Content.t) ?f d') with (total (V:=Content.t) f d).
  unfold d'. rewrite !(total_create (V:=Account.t) _ d w Hf), E1, E2, E3. done.
Qed.

Lemma gap_charge i x f d u d' id : asset_id x = BTCM_SYMBOL ->
  (forall a w, f a = Ok w -> exists c, charge x a = Ok c /\ Account.balance w = Account.balance c /\
     Account.mbd_balance w = Account.mbd_balance a /\ Account.vesting_shares w = Account.vesting_shares a) ->
  modify (V:=Account.t) i f d = Ok (u, d') -> gap id d' = gap id d + (if id =? BTCM_SYMBOL then amount x else 0).
Proof.
  intros Hx Hf H. apply modify_Ok in H as (a & w & Ha & Hw & ->). destruct (Hf _ _ Hw) as (c & Hc & E1 & E2 & E3).
  unfold charge in Hc. apply bind_Ok in Hc as (b & Hb & [= <-]). apply AssetLemmas.asset_sub_Ok in Hb as [_ ->].
  rewrite (gap_set_account _ _ a _ _ Ha), E1, E2, E3. cbn. destruct (id =? BTCM_SYMBOL); [lia|]. destruct (id =? XUSD_SYMBOL); [lia|].
  destruct (id =? VESTS_SYMBOL); lia.
Qed.

Lemma charge_rest x a w : charge x a = Ok w ->
  Account.mbd_balance w = Account.mbd_balance a /\ Account.vesting_shares w = Account.vesting_shares a.
Proof. unfold charge. intros H. by apply bind_Ok in H as (b & _ & [= <-]). Qed.

Lemma gap_vest_fee i x d u d' id : amount x >= 0 -> vest_fee i x d = Ok (u, d') -> gap id d' = gap id d - (if id =? BTCM_SYMBOL then amount x else 0).
Proof.
  intros Hx H. unfold vest_fee in H. destruct (Z.gtb_spec (amount x) 0).
  - step H as n En. apply st_ret_Ok in H as [_ ->]. by rewrite (VestingFacts.create_vesting_gap _ _ _ _ _ id En).
  - apply st_ret_Ok in H as [_ ->]. destruct (_ =? _); lia.
Qed.

Lemma assert_geb_Ok a b u : assert_geb a b = Ok u -> amount a >= amount b.
Proof.
  unfold assert_geb. intros H. apply bind_Ok in H as (x & Hx & H). apply fc_assert_Ok in H as ->. apply AssetLemmas.asset_geb_Ok in Hx as [_ Hx]. lia.
Qed.
Lemma create_fee o : account_create_validate o = Ok tt -> asset_id (ac_fee o) = BTCM_SYMBOL /\ amount (ac_fee o) >= 0.
Proof.
  unfold account_create_validate. intros H. apply bind_Ok in H as (? & _ & H). apply bind_Ok in H as (? & H1 & H).
  do 4 (apply bind_Ok in H as (? & _ & H)). apply assert_geb_Ok in H. apply fc_assert_Ok in H1. unfold is_asset_type in H1.
  split; [lia|exact H].
Qed.
Lemma delegate_fee o : account_create_with_delegation_validate o = Ok tt -> asset_id (ad_fee o) = BTCM_SYMBOL /\ amount (ad_fee o) >= 0 /\
  amount (ad_delegation o) >= 0.
Proof.
  unfold account_create_with_delegation_validate. intros H. do 2 apply bind_Ok in H as (? & _ & H). apply bind_Ok in H as (? & H1 & H).
  do 5 apply bind_Ok in H as (? & _ & H). apply bind_Ok in H as (? & H2 & H). apply assert_geb_Ok in H, H2. apply fc_assert_Ok in H1.
  unfold is_asset_type in H1. split_and!; [lia|exact H2|exact H].
Qed.

Lemma account_create_gap_fee o d d' id : ids_below Account.t d -> asset_id (ac_fee o) = BTCM_SYMBOL -> amount (ac_fee o) >= 0 ->
  account_create_apply o d = Ok (tt, d') ->
  gap id d' = gap id d.
Proof.
  intros Hb Hx Hn H. unfold account_create_apply in H. apply st_bind_Ok in H as ([] & d1 & H1 & H). apply json_state in H1 as ->.
  step H as c Ec. step H. apply st_bind_Ok in H as ([] & d1 & H1 & H).
  assert (d1 = d) as ->.
  { destruct (_ >? 0); [|by apply st_ret_Ok in H1 as [_ ->]]. step H1 as [] E1. by apply AssetLemmas.assert_asset_Ok in H1 as [_ ->]. }
  apply st_bind_Ok in H as ([] & d2 & H2 & H). apply st_bind_Ok in H as (i & d3 & H3 & H).
  assert (ids_below Account.t d2) as Hb2.
  { apply modify_Ok in H2 as (a & w & Ha & _ & ->). by apply ids_below_set; [exists a|]. }
  rewrite (gap_vest_fee _ _ _ _ _ id Hn H), (gap_new_account _ _ _ _ id Hb2 H3) by done.
  rewrite (gap_charge c.1 (ac_fee o) (charge (ac_fee o)) d tt d2 id Hx); [| |exact H2].
  2: { intros a w Hw. exists w. split_and!; [done|done|by apply charge_rest in Hw as []..]. }
  destruct (_ =? _); lia.
Qed.
Lemma account_create_gap o d d' id : ids_below Account.t d -> account_create_validate o = Ok tt -> account_create_apply o d = Ok (tt, d') ->
  gap id d' = gap id d.
Proof. intros Hb [Hx Hn]%create_fee H. by eapply account_create_gap_fee. Qed.

(** What a creation with a delegation does, statement by statement. *)
Record created (o : account_create_with_delegation_operation) (d d' : database) : Prop := {
  cd_run : exists creator (w : Account.t) i d1 d2 d3,
    lookup_where (fun a => String.eqb (Account.name a) (ad_creator o)) d = Some creator /\
    modify creator.1 (fun c => c ← charge (ad_fee o) c; add_delegated (ad_delegation o) c) d = Ok (tt, d1) /\
    create w d1 = Ok (i, d2) /\
    (if amount (ad_delegation o) >? 0 then exists now j, create (Delegation.Make (ad_creator o) (ad_new_account_name o) (ad_delegation o) now) d2 = Ok (j, d3)
     else d3 = d2) /\
    vest_fee i (ad_fee o) d3 = Ok (tt, d') /\ Account.name w = ad_new_account_name o /\
    w = new_account (head_block_time d) (ad_new_account_name o) (ad_owner o) (ad_active o) (ad_basic o) (ad_memo_key o) (ad_json_metadata o)
          <| Account.received_vesting_shares := ad_delegation o |>
}.

Lemma delegate_run o d d' : account_create_with_delegation_apply o d = Ok (tt, d') -> created o d d'.
Proof.
  intros H. unfold account_create_with_delegation_apply in H. step H as c Ec. step H. step H as [] E1. step H as av Eav. step H as [] E2.
  step H as tg Etg. step H as wo Ewo. step H as cu Ecu. step H as [] E3.
  do 3 (apply st_bind_Ok in H as ([] & ? & E & H); apply exist_state in E as ->).
  apply st_bind_Ok in H as ([] & d2 & H2 & H). apply st_bind_Ok in H as (i & d3 & H3 & H). apply st_bind_Ok in H as ([] & d4 & H4 & H).
  constructor. do 6 eexists. split; [exact Ec|]. split; [exact H2|]. split; [exact H3|]. split; [|by split].
  destruct (_ >? 0); [|by apply st_ret_Ok in H4 as [_ ->]]. step H4 as j Ej. apply st_ret_Ok in H4 as [_ ->]. by exists (u32 (head_block_time d + BTCM_CREATE_ACCOUNT_DELEGATION_TIME)), j.
Qed.

Lemma account_delegate_gap o d d' id : ids_below Account.t d -> account_create_with_delegation_validate o = Ok tt ->
  account_create_with_delegation_apply o d = Ok (tt, d') -> gap id d' = gap id d.
Proof.
  intros Hb (Hx & Hn & _)%delegate_fee H. apply delegate_run in H as [(c & w & i & d1 & d2 & d3 & _ & H1 & H2 & H3 & H4 & _ & Ew)].
  assert (ids_below Account.t d1) as Hb1.
  { apply modify_Ok in H1 as (a & v & Ha & _ & ->). by apply ids_below_set; [exists a|]. }
  rewrite (gap_vest_fee _ _ _ _ _ id Hn H4). assert (gap id d3 = gap id d2) as ->.
  { destruct (_ >? 0); [|by subst]. destruct H3 as (now & j & H3). by apply create_Ok in H3 as (_ & _ & ->). }
  rewrite (gap_new_account _ _ _ _ id Hb1 H2) by by subst w.
  pose proof (fun Hf => gap_charge _ (ad_fee o) _ d tt d1 id Hx Hf H1) as ->; [destruct (_ =? _); lia|].
  intros a v Hv. apply bind_Ok in Hv as (b & Hb' & Hv). exists b. split; [done|]. unfold add_delegated in Hv. apply bind_Ok in Hv as (s & _ & [= <-]).
  by apply charge_rest in Hb' as [].
Qed.

(** ** Books of delegations *)

Lemma moved_quiet g t d d' : unique_names d -> quiet d d' -> moved g t 0 0 0 0 d d'.
Proof.
  intros Hu Hq. pose proof (quiet_get d d') as Hg. destruct Hq as [Ha Hn E]. split.
  - intros i a' Ha'. specialize (Hg i (Build_quiet _ _ Ha Hn E)). rewrite Ha' in Hg. destruct (get_opt (V:=Account.t) d i) as [a|]; [|done].
    injection Hg. intros. exists a. assert (Account.delegated_vesting_shares a' = Account.delegated_vesting_shares a) as -> by congruence.
    assert (Account.received_vesting_shares a' = Account.received_vesting_shares a) as -> by congruence.
    repeat destruct (String.eqb _ _); split_and!; done || lia.
  - intros n. assert (given d' n = given d n) as -> by by rewrite E. destruct (String.eqb _ _); lia.
  - intros n. assert (taken d' n = taken d n) as -> by by rewrite E. destruct (String.eqb _ _); lia.
  - by rewrite E.
  - by rewrite E.
Qed.

Lemma moved_vest_fee i x d d' : well d -> vest_fee i x d = Ok (tt, d') -> moved "" "" 0 0 0 0 d d'.
Proof.
  intros Hw H. unfold vest_fee in H. destruct (_ >? 0); [|apply st_ret_Ok in H as [_ ->]; apply moved_refl].
  apply st_bind_Ok in H as (n & d1 & H & E). apply st_ret_Ok in E as [_ ->].
  unfold create_vesting in H. step H. step H as nv Env. apply st_bind_Ok in H as (u1 & e1 & H1 & H).
  eapply (neutral_moved "" "") in H1; [|done|].
  2: { intros a w Hv. unfold add_vests in Hv. by apply bind_Ok in Hv as (? & _ & [= <-]). }
  pose proof (moved_well _ _ _ _ _ _ _ _ H1 Hw) as Hw1.
  step H as a Ha. unfold find_streaming_platform in H. apply st_bind_Ok in H as (sp & e2 & Hsp & H). apply find_where_Ok in Hsp as [-> ->].
  apply st_bind_Ok in H as (u2 & e2 & H2 & H). apply modify_dgpo_Ok in H2 as (p & _ & ->).
  pose proof (moved_trans _ _ _ _ _ _ _ _ _ _ _ _ _ H1 (moved_dgpo "" "" _ p)) as M1.
  pose proof (moved_well _ _ _ _ _ _ _ _ M1 Hw) as Hw2.
  apply st_bind_Ok in H as (u3 & e3 & H3 & H). apply quiet_votes, (moved_quiet "" "") in H3; [|apply Hw2].
  pose proof (moved_trans _ _ _ _ _ _ _ _ _ _ _ _ _ M1 H3) as M2. pose proof (moved_well _ _ _ _ _ _ _ _ M2 Hw) as Hw3.
  apply st_bind_Ok in H as (u4 & e4 & H4 & H). apply quiet_score, (moved_quiet "" "") in H4; [|apply Hw3]. apply st_ret_Ok in H as [_ ->].
  exact (moved_trans _ _ _ _ _ _ _ _ _ _ _ _ _ M2 H4).
Qed.

(** No row names an account that does not exist. *)
Definition rows_known (d : database) : Prop :=
  forall n, (forall i (a : Account.t), get_opt d i = Some a -> Account.name a <> n) -> given d n = 0 /\ taken d n = 0.

(** The accounts [g] and [t] are [x] ahead of the books. *)
Definition ahead (g t : string) (x : Z) (d : database) : Prop := forall i (a : Account.t), get_opt d i = Some a ->
  amount (Account.delegated_vesting_shares a) = given d (Account.name a) + (if String.eqb (Account.name a) g then x else 0) /\
  amount (Account.received_vesting_shares a) = taken d (Account.name a) + (if String.eqb (Account.name a) t then x else 0).

Lemma ahead_entered g t x d d' : ahead g t x d -> moved g t 0 0 x x d d' -> unique_names d -> ids_below Delegation.t d ->
  ids_below Expiration.t d -> delegations_ok d'.
Proof.
  intros Ha M Hu Hr Hb. pose proof (moved_names _ _ _ _ _ _ _ _ M Hu) as Hu'. destruct M as [A G T' R S].
  split; [done|by apply R|by apply S|..]; intros i a' Ha'; destruct (A _ _ Ha') as (a & Ha0 & En & E1 & E2); destruct (Ha _ _ Ha0) as [F1 F2].
  - rewrite En, G, E1, F1. repeat destruct (String.eqb _ _); lia.
  - rewrite En, T', E2, F2. repeat destruct (String.eqb _ _); lia.
Qed.

Section NewAccount.
Variables (k i : Z) (c c1 w : Account.t) (x : Z) (d d2 : database).
Hypothesis Hok : delegations_ok d.
Hypothesis Hknown : rows_known d.
Hypothesis Hc : get_opt d k = Some c.
Hypothesis c1_name : Account.name c1 = Account.name c.
Hypothesis c1_delegated : amount (Account.delegated_vesting_shares c1) = amount (Account.delegated_vesting_shares c) + x.
Hypothesis c1_received : Account.received_vesting_shares c1 = Account.received_vesting_shares c.
Hypothesis Hcreate : create w (set_obj d k c1) = Ok (i, d2).
Hypothesis w_delegated : amount (Account.delegated_vesting_shares w) = 0.
Hypothesis w_received : amount (Account.received_vesting_shares w) = x.

Lemma new_name j (a : Account.t) : get_opt d j = Some a -> Account.name a <> Account.name w.
Proof.
  pose proof Hcreate as (Hf & _ & _)%create_Ok. intros Ha En. destruct (decide (j = k)) as [->|Hj].
  - rewrite Hc in Ha. injection Ha as <-. specialize (Hf k c1). rewrite get_set_obj, decide_True in Hf by done.
    specialize (Hf eq_refl). cbn in Hf. apply String.eqb_neq in Hf. congruence.
  - specialize (Hf j a). rewrite get_set_obj, decide_False in Hf by done. specialize (Hf Ha). cbn in Hf. apply String.eqb_neq in Hf. congruence.
Qed.

Lemma accounts_after j (a : Account.t) : get_opt d2 j = Some a -> a = w \/ j = k /\ a = c1 \/ j <> k /\ get_opt d j = Some a.
Proof.
  pose proof Hcreate as (_ & _ & E)%create_Ok. rewrite E, (get_next (set_obj d k c1) _ w) by done. case_decide; [intros [= <-]; by left|].
  rewrite get_set_obj. case_decide; [intros [= <-]|intros Ha]; right; [by left|by right].
Qed.

Lemma names_after : unique_names d2.
Proof.
  pose proof Hcreate as (Hf & _ & E)%create_Ok. assert (unique_names (set_obj d k c1)) as Hu by by (apply (names_set d k c); [| |apply Hok]).
  intros j l a b. rewrite E, (get_next (set_obj d k c1) _ w j), (get_next (set_obj d k c1) _ w l) by done.
  do 2 case_decide; intros Ha Hb En; simplify_eq; try done.
  - specialize (Hf _ _ Hb). cbn in Hf. by apply String.eqb_neq in Hf.
  - specialize (Hf _ _ Ha). cbn in Hf. apply String.eqb_neq in Hf. congruence.
  - by apply (Hu j l a b).
Qed.

Lemma books_after n : given d2 n = given d n /\ taken d2 n = taken d n.
Proof. pose proof Hcreate as (_ & _ & ->)%create_Ok. done. Qed.

Lemma ahead_after : ahead (Account.name c) (Account.name w) x d2.
Proof.
  intros j a Ha. destruct (books_after (Account.name a)) as [-> ->]. destruct Hok as [H1 H2 H3 H4 H5].
  apply accounts_after in Ha as [->|[[-> ->]|[Hj Ha]]].
  - destruct (Hknown (Account.name w) new_name) as [-> ->]. rewrite w_delegated, w_received, String.eqb_refl.
    destruct (String.eqb_spec (Account.name w) (Account.name c)) as [E|]; [by destruct (new_name _ _ Hc)|lia].
  - rewrite c1_name, c1_delegated, c1_received, String.eqb_refl, (H4 _ _ Hc), (H5 _ _ Hc).
    destruct (String.eqb_spec (Account.name c) (Account.name w)) as [E|]; [by destruct (new_name _ _ Hc)|lia].
  - rewrite (H4 _ _ Ha), (H5 _ _ Ha). destruct (String.eqb_spec (Account.name a) (Account.name w)) as [E|]; [by destruct (new_name _ _ Ha)|].
    destruct (String.eqb_spec (Account.name a) (Account.name c)) as [E|]; [|lia]. destruct Hj. by apply (H1 j k a c).
Qed.

(** Rows still name accounts that exist only, the new one included. *)
Lemma known_after d3 : ids_below Account.t d -> accounts d3 = accounts d2 -> moved (Account.name c) (Account.name w) 0 0 x x d2 d3 -> rows_known d3.
Proof.
  pose proof Hcreate as (_ & _ & E)%create_Ok. intros Hids Ea [_ G T' _ _] n Hn. rewrite G, T'. destruct (books_after n) as [-> ->].
  assert (forall j (a : Account.t), get_opt d2 j = Some a -> Account.name a <> n) as Hn2.
  { change (tbl (V:=Account.t) d3 = tbl d2) in Ea. intros j a Ha. apply (Hn j). by rewrite (get_same d2 d3 j Ea). }
  assert (forall j, get_opt d2 j = if decide (j = next_id (accounts d)) then Some w else if decide (j = k) then Some c1 else get_opt d j) as Hget.
  { intros j. rewrite E, (get_next (set_obj d k c1) _ w j), get_set_obj by done. done. }
  assert (Account.name w <> n) as Hw by (apply (Hn2 (next_id (accounts d))); by rewrite Hget, decide_True).
  assert (forall j (a : Account.t), get_opt d j = Some a -> Account.name a <> n) as Hn0.
  { intros j a Ha. pose proof (Hids j (mk_is_Some _ _ Ha)) as Hj. cbn in Hj. destruct (decide (j = k)) as [->|Hjk].
    - rewrite Hc in Ha. injection Ha as <-. rewrite <- c1_name. apply (Hn2 k). rewrite Hget, decide_False by lia. by rewrite decide_True.
    - apply (Hn2 j). rewrite Hget, !decide_False by lia. done. }
  destruct (Hknown n Hn0) as [-> ->]. destruct (String.eqb_spec n (Account.name c)) as [->|]; [by destruct (Hn0 _ _ Hc)|].
  destruct (String.eqb_spec n (Account.name w)); [congruence|done].
Qed.
End NewAccount.

Lemma delegate_books o d d' : delegations_ok d -> rows_known d -> ids_below Account.t d -> account_create_with_delegation_validate o = Ok tt ->
  account_create_with_delegation_apply o d = Ok (tt, d') -> delegations_ok d'.
Proof.
  intros Hok Hk Hids (_ & _ & Hx)%delegate_fee H. apply delegate_run in H as [(c & w & i & d1 & d2 & d3 & Hc & H1 & H2 & H3 & H4 & Hn & Ew)].
  apply modify_Ok in H1 as (c0 & c1 & Hc0 & Hc1 & ->). destruct c as [k c]. apply lookup_where_Some in Hc as [Hc Ecn]. apply String.eqb_eq in Ecn.
  cbn [fst] in *. rewrite Hc in Hc0. injection Hc0 as <-. apply bind_Ok in Hc1 as (c' & Hch & Hc1).
  unfold charge in Hch. apply bind_Ok in Hch as (b & _ & [= <-]). unfold add_delegated in Hc1. apply bind_Ok in Hc1 as (s & Hs & [= <-]).
  apply AssetLemmas.asset_add_Ok in Hs as [_ ->]. set (c1 := _ <| Account.delegated_vesting_shares := _ |>) in H2.
  set (x := amount (ad_delegation o)) in *.
  assert (ahead (Account.name c) (Account.name w) x d2) as Ha by (apply (ahead_after k i c c1 w x d d2); try done; by subst w).
  assert (unique_names d2) as Hu by (apply (names_after k i c c1 w x d d2); try done; by subst w).
  pose proof H2 as (_ & _ & E)%create_Ok. pose proof Hok as [_ Hr Hb _ _].
  assert (ids_below Delegation.t d2 /\ ids_below Expiration.t d2) as [Hr2 Hb2] by by rewrite E.
  assert (moved (Account.name c) (Account.name w) 0 0 x x d2 d3) as M.
  { destruct (Z.gtb_spec x 0).
    - destruct H3 as (now & j & H3). rewrite <- Ecn, <- Hn in H3. by apply moved_create_delegation in H3.
    - replace x with 0 by lia. subst d3. apply moved_refl. }
  pose proof (ahead_entered _ _ _ _ _ Ha M Hu Hr2 Hb2) as Hok3. apply moved_vest_fee in H4; [|by apply delegations_well].
  by eapply moved_ok.
Qed.

(** Creating an account neither creates nor loses funds of any asset: the fee goes
    into the vesting fund, where the new account gets shares for it.  A delegation given
    with it is in the books of both accounts, and the creator could spare both. *)
Lemma creation_conserves d : ids_below Account.t d ->
  (forall o d', account_create_validate o = Ok tt -> account_create_apply o d = Ok (tt, d') -> forall id, gap id d' = gap id d) /\
  (forall o d', account_create_with_delegation_validate o = Ok tt -> account_create_with_delegation_apply o d = Ok (tt, d') ->
     (forall id, gap id d' = gap id d) /\
     (delegations_ok d -> rows_known d -> delegations_ok d') /\
     exists i c, get_opt d i = Some c /\ Account.name c = ad_creator o /\ amount (ad_fee o) <= amount (Account.balance c) /\
       amount (ad_delegation o) <= amount (Account.vesting_shares c) - amount (Account.delegated_vesting_shares c)
         - (Account.to_withdraw c - Account.withdrawn c)).
Proof.
  intros Hb. split; [intros o d' Hv H id; by eapply account_create_gap|]. intros o d' Hv H.
  split_and!; [intros id; by eapply account_delegate_gap|intros Hok Hk; by eapply delegate_books|].
  unfold account_create_with_delegation_apply in H. apply st_bind_Ok in H as ([i c] & d1 & Hc & H). apply named_account in Hc as (Hc & Hn & ->).
  cbn [fst snd] in *. step H. step H as [] E1. step H as av Eav. step H as [] E2. exists i, c. split_and!; [done|done|..].
  - apply AssetLemmas.asset_geb_Ok in E1 as [_ E1]. lia.
  - apply AssetLemmas.asset_geb_Ok in E2 as [_ E2]. unfold available_shares in Eav. apply bind_Ok in Eav as (s & Hs & Eav).
    apply bind_Ok in Eav as (w & Hw & Eav). apply AssetLemmas.asset_sub_Ok in Hs as [_ ->], Eav as [_ ->].
    apply Safe.sub_Ok in Hw as ->. cbn in E2. lia.
Qed.
End Creation.

#[local] Existing Instance boost_reference.
#[local] Instance any_text : TextChecks := {| is_utf8 _ := true; json_is_valid _ := true |}.

Definition new_member : account_create_with_delegation_operation :=
  AccountDelegateOp (Asset 20 BTCM_SYMBOL) (Asset 30 VESTS_SYMBOL) "alice" "carol" (Auth 1 [] [(3, 1)]) empty_authority empty_authority 3 "".

Lemma sample_known : rows_known Sample.state.
Proof. intros n _. split; vm_compute; reflexivity. Qed.

Lemma creation_conserves_witness :
  gap BTCM_SYMBOL (Sample.after (account_create_with_delegation_apply new_member) Sample.state) = gap BTCM_SYMBOL Sample.state /\
  taken (Sample.after (account_create_with_delegation_apply new_member) Sample.state) "carol" = 30.
Proof.
  split; [|vm_compute; reflexivity].
  destruct (creation_conserves Sample.state) as [_ H]; [by apply ids_below_check|].
  destruct (H new_member (Sample.after (account_create_with_delegation_apply new_member) Sample.state)) as (Hg & _ & _).
  - vm_compute. reflexivity.
  - apply Sample.after_run. vm_compute. reflexivity.
  - apply Hg.
Defined.

(** ** What the code lets happen *)

(** An account created with a delegation has no recovery account, so that it is the
    witness with the most votes that can ask for its recovery; one created without has
    its creator. *)
Lemma creator_not_recovery_account :
  let d := Sample.after (account_create_with_delegation_apply new_member) Sample.state in
  option_map Account.recovery_account (get_opt d 3) = Some ""%string /\
  is_ok (request_account_recovery_apply (RequestRecoveryOp "alice" "carol" (Auth 1 [] [(4, 1)])) d) = true /\
  is_ok (request_account_recovery_apply (RequestRecoveryOp "nancy" "carol" (Auth 1 [] [(4, 1)])) d) = false.
Proof. vm_compute. done. Qed.

(** When the creator owns a streaming platform, the shares it delegates to the new
    account stay in the total of what platforms have: a state that passed the audit no
    longer does.  Returned, they are even added to it. *)
Definition platform_creator : database :=
  Sample.state <| platforms := Table 1 (<[0 := default_platform <| Platform.owner := "alice" |>]> empty) |>
    <| dgpo ::= fun p => p <| Dgpo.total_vested_by_platforms := 500 |> |>.

Lemma platform_creation_fails_audit :
  is_ok (validate_invariants platform_creator) = true /\
  is_ok (account_create_with_delegation_apply new_member platform_creator) = true /\
  validate_invariants (Sample.after (account_create_with_delegation_apply new_member) platform_creator) = Throw assert_exception.
Proof. vm_compute. done. Qed.
End CreationFacts.
