(* ===== verification/Content.v ===== *)
(** * Contents

    Models the operations on contents of protocol/btcm_operations.cpp and their
    evaluators in btcm_evaluator.cpp: publishing, editing, disabling and approving
    a content, voting for it, and the claims on genesis balances.  The checks of
    UTF-8 and JSON and the addresses of a key belong to other libraries. *)

From S2P Require Import Prelude.
From S2P Require Import SafeInt.
From S2P Require Import Uint128.
From S2P Require Import Asset.
From S2P Require Import UndoDatabase.
From S2P Require Import Authority.
From S2P Require Import State.
From S2P Require Import Balance.
From S2P Require Import Vesting.
From S2P Require Import Rewards.

Definition BTCM_MAX_URL_LENGTH : nat := 127.
Definition BTCM_MIN_VOTE_INTERVAL_SEC : Z := 3.
Definition BTCM_MAX_VOTE_CHANGES : Z := 5.

(** The addresses that belong to a key: its own and those of the old forms. *)
Class Addresses := { addresses_of : public_key -> list Z }.

Module Contents.
Import AssetOps.
Import Balances.
Import Rewards.

Record management_vote := ManagementVote { voter : string; percentage : Z }.

Record content_operation := ContentOp {
  co_uploader : string;
  co_url : string;
  co_album_meta : AlbumMeta.t;
  co_track_meta : TrackMeta.t;
  co_comp_meta : CompMeta.t;
  co_distributions : list Distribution.t;
  co_management : list management_vote;
  co_management_threshold : Z;
  co_management_comp : option (list management_vote);
  co_distributions_comp : option (list Distribution.t);
  co_management_threshold_comp : option Z;
  co_playing_reward : Z;
  co_publishers_share : Z
}.
Record content_update_operation := ContentUpdateOp {
  cu_side : Z;
  cu_url : string;
  cu_album_meta : option AlbumMeta.t;
  cu_track_meta : option TrackMeta.t;
  cu_comp_meta : option CompMeta.t;
  cu_new_distributions : list Distribution.t;
  cu_new_management : list management_vote;
  cu_new_threshold : Z;
  cu_new_playing_reward : Z;
  cu_new_publishers_share : Z
}.
Record content_disable_operation := ContentDisableOp { cd_url : string }.
Record content_approve_operation := ContentApproveOp { ca_approver : string; ca_url : string }.
Record vote_operation := VoteOp { vo_voter : string; vo_url : string; vo_weight : Z }.
Record balance_claim_operation := BalanceClaimOp {
  bc_deposit_to_account : string;
  bc_balance_to_claim : Z;
  bc_balance_owner_key : public_key;
  bc_total_claimed : asset
}.

(** [side_t] *)
Definition side_master : Z := 0.
Definition side_publisher : Z := 1.

(** ** Validation *)

Definition validate_url (url : string) : result unit :=
  _ ← fc_assert (String.length url <? BTCM_MAX_URL_LENGTH)%nat;
  fc_assert (String.prefix "bmfs://" url).

Section Validate.
Context {T : TextChecks}.

Definition title_ok (s : string) : result unit :=
  _ ← fc_assert ((0 <? String.length s)%nat && (String.length s <? 256)%nat);
  fc_assert (is_utf8 s).
Definition album_validate_meta (a : AlbumMeta.t) : result unit := title_ok (AlbumMeta.album_title a).
Definition track_validate_meta (t : TrackMeta.t) : result unit :=
  _ ← title_ok (TrackMeta.track_title t);
  match TrackMeta.json_metadata t with
  | Some j => _ ← fc_assert (is_utf8 j); fc_assert (json_is_valid j)
  | None => Ok tt
  end.

(** The sum of the shares, in 32 bits. *)
Definition add_share (total : Z) (d : Distribution.t) : result Z :=
  _ ← fc_assert (Names.is_valid_account_name (Distribution.payee d));
  Ok (u32 (total + Distribution.bp d)).
Definition add_vote (total : Z) (v : management_vote) : result Z :=
  _ ← fc_assert (Names.is_valid_account_name (voter v));
  Ok (u32 (total + percentage v)).
Definition validate_distributions (l : list Distribution.t) : result unit :=
  total_vote ← foldM add_share 0 l;
  fc_assert ((total_vote =? 0) || (total_vote =? 10000)).
Definition validate_management (l : list management_vote) : result unit :=
  total_vote ← foldM add_vote 0 l;
  fc_assert (total_vote =? 100).

Definition content_validate (o : content_operation) : result unit :=
  _ ← fc_assert (Names.is_valid_account_name (co_uploader o));
  _ ← album_validate_meta (co_album_meta o);
  _ ← track_validate_meta (co_track_meta o);
  _ ← validate_url (co_url o);
  _ ← validate_distributions (co_distributions o);
  _ ← validate_management (co_management o);
  _ ← match co_distributions_comp o with
      | Some l => if CompMeta.third_party_publishers (co_comp_meta o) then validate_distributions l else Ok tt
      | None => Ok tt
      end;
  _ ← (if CompMeta.third_party_publishers (co_comp_meta o) then
         match co_management_comp o, co_management_threshold_comp o with
         | Some l, Some _ => validate_management l
         | _, _ => Throw assert_exception
         end
       else Ok tt);
  _ ← fc_assert (co_playing_reward o <? 10000);
  fc_assert (co_publishers_share o <? 10000).

Definition validate_if {A} (f : A -> result unit) (x : option A) : result unit :=
  match x with Some x => f x | None => Ok tt end.
Definition is_set {A} (x : option A) : bool := match x with Some _ => true | None => false end.

Definition content_update_validate (o : content_update_operation) : result unit :=
  _ ← validate_url (cu_url o);
  _ ← (if cu_side o =? side_publisher then
         _ ← fc_assert (negb (is_set (cu_album_meta o)));
         fc_assert (negb (is_set (cu_track_meta o)))
       else Ok tt);
  _ ← validate_if album_validate_meta (cu_album_meta o);
  _ ← validate_if track_validate_meta (cu_track_meta o);
  _ ← (if (0 <? length (cu_new_distributions o))%nat then
         total_vote ← foldM add_share 0 (cu_new_distributions o);
         fc_assert (total_vote =? 10000)
       else Ok tt);
  _ ← (if (0 <? length (cu_new_management o))%nat then validate_management (cu_new_management o) else Ok tt);
  _ ← fc_assert (cu_new_playing_reward o <? 10000);
  fc_assert (cu_new_publishers_share o <? 10000).
End Validate.

Definition content_disable_validate (o : content_disable_operation) : result unit := validate_url (cd_url o).
Definition content_approve_validate (o : content_approve_operation) : result unit :=
  _ ← fc_assert (Names.is_valid_account_name (ca_approver o));
  validate_url (ca_url o).
Definition vote_validate (o : vote_operation) : result unit :=
  _ ← fc_assert (Names.is_valid_account_name (vo_voter o));
  _ ← fc_assert (Z.abs (vo_weight o) <=? BTCM_100_PERCENT);
  validate_url (vo_url o).
Definition balance_claim_validate (o : balance_claim_operation) : result unit :=
  fc_assert (negb (bc_balance_owner_key o =? null_key)).

(** ** Publishing and editing *)

Definition payees_exist (l : list Distribution.t) : st database unit :=
  for_each l (fun d => _ ← get_account (Distribution.payee d); mret tt).
Definition voters_exist (l : list management_vote) : st database unit :=
  for_each l (fun m => _ ← get_account (voter m); mret tt).

(** [account_auths[ m.voter ] = m.percentage]: a weight has 16 bits. *)
Definition manage (a : authority) (l : list management_vote) (threshold : Z) : authority :=
  Auth threshold (foldl (fun auths m => Flat.set String.ltb (voter m) (u16 (percentage m)) auths) (account_auths a) l)
    (key_auths a).

Definition new_content (now : Z) (o : content_operation) (mgmt_comp : list management_vote) (threshold_comp : Z) : Content.t :=
  let third := CompMeta.third_party_publishers (co_comp_meta o) in
  {| Content.uploader := co_uploader o;
     Content.url := co_url o;
     Content.accumulated_balance_master := Asset 0 BTCM_SYMBOL;
     Content.accumulated_balance_comp := Asset 0 BTCM_SYMBOL;
     Content.album_meta := co_album_meta o;
     Content.track_meta := co_track_meta o;
     Content.comp_meta := co_comp_meta o;
     Content.track_title := TrackMeta.track_title (co_track_meta o);
     Content.last_update := now;
     Content.created := now;
     Content.last_played := 0;
     Content.distributions_master := co_distributions o;
     Content.distributions_comp := if third then default [] (co_distributions_comp o) else [];
     Content.playing_reward := co_playing_reward o;
     Content.publishers_share := if third then co_publishers_share o else 0;
     Content.manage_master := manage empty_authority (co_management o) (co_management_threshold o);
     Content.manage_comp := if third then manage empty_authority mgmt_comp threshold_comp else empty_authority;
     Content.times_played := 0;
     Content.times_played_24 := 0;
     Content.curation_rewards := true;
     Content.curation_reward_expiration := 0;
     Content.allow_votes := true;
     Content.disabled := false |}.

Definition find_content (url : string) : st database (option (Z * Content.t)) :=
  find_where (fun c => String.eqb (Content.url c) url).

Definition content_apply (o : content_operation) : st database unit :=
  itr ← find_content (co_url o);
  _ ← assert_st (negb (is_set itr));
  auth ← get_account (co_uploader o);
  _ ← assert_st (negb (Account.owner_challenged auth.2 || Account.active_challenged auth.2));
  _ ← payees_exist (co_distributions o);
  _ ← match co_distributions_comp o with Some l => payees_exist l | None => mret tt end;
  _ ← voters_exist (co_management o);
  comp ← (if CompMeta.third_party_publishers (co_comp_meta o) then
            match co_management_comp o, co_management_threshold_comp o with
            | Some l, Some t => _ ← voters_exist l; mret (l, t)
            | _, _ => throw assert_exception
            end
          else mret ([], 0));
  d ← get_st;
  _ ← create (new_content (head_block_time d) o comp.1 comp.2);
  mret tt.

(** [third_party_publishers] never changes. *)
Definition edit_side (o : content_update_operation) (con : Content.t) : Content.t :=
  let third := CompMeta.third_party_publishers (Content.comp_meta con) in
  let con :=
    if cu_side o =? side_master then
      let con := match cu_album_meta o with Some a => con <| Content.album_meta := a |> | None => con end in
      let con := match cu_track_meta o with
                 | Some t => con <| Content.track_meta := t |> <| Content.track_title := TrackMeta.track_title t |>
                 | None => con
                 end in
      let con := match cu_comp_meta o with
                 | Some m => if third then con else con <| Content.comp_meta := m |>
                 | None => con
                 end in
      let con := if (0 <? length (cu_new_distributions o))%nat
                 then con <| Content.distributions_master := cu_new_distributions o |> else con in
      if (0 <? length (cu_new_management o))%nat
      then con <| Content.manage_master ::= fun a =>
             manage (a <| account_auths := [] |>) (cu_new_management o) (cu_new_threshold o) |>
      else con
    else
      let con := match cu_comp_meta o with Some m => con <| Content.comp_meta := m |> | None => con end in
      let con := if (0 <? length (cu_new_distributions o))%nat
                 then con <| Content.distributions_comp := cu_new_distributions o |> else con in
      if (0 <? length (cu_new_management o))%nat
      then con <| Content.manage_comp ::= fun a =>
             manage (a <| account_auths := [] |>) (cu_new_management o) (cu_new_threshold o) |>
      else con in
  con <| Content.comp_meta ::= fun m => m <| CompMeta.third_party_publishers := third |> |>.

Definition edit (now : Z) (o : content_update_operation) (con : Content.t) : Content.t :=
  let con := edit_side o con in
  let con := if cu_new_playing_reward o >? 0 then con <| Content.playing_reward := cu_new_playing_reward o |> else con in
  let con := if cu_new_publishers_share o >? 0 then con <| Content.publishers_share := cu_new_publishers_share o |> else con in
  con <| Content.last_update := now |>.

Section Apply.
Context {B : BoostMP}.

Definition content_update_apply (o : content_update_operation) : st database unit :=
  content ← get_content (cu_url o);
  let c := content.2 in
  _ ← assert_st (negb (Content.disabled c));
  _ ← assert_st (CompMeta.third_party_publishers (Content.comp_meta c) || (cu_side o =? side_master));
  _ ← payees_exist (cu_new_distributions o);
  _ ← voters_exist (cu_new_management o);
  let accumulated_balances :=
    if cu_side o =? side_master then Content.accumulated_balance_master c else Content.accumulated_balance_comp c in
  d ← get_st;
  _ ← modify_pure content.1 (edit (head_block_time d) o);
  if (0 <? length (cu_new_distributions o))%nat && (amount accumulated_balances >? 0) then
    if cu_side o =? side_master then pay_to_content_master content.1 (Asset 0 BTCM_SYMBOL)
    else pay_to_content_comp content.1 (Asset 0 BTCM_SYMBOL)
  else mret tt.
End Apply.

Definition content_disable_apply (o : content_disable_operation) : st database unit :=
  content ← get_content (cd_url o);
  _ ← assert_st (negb (Content.disabled content.2));
  modify_pure content.1 (fun co : Content.t => co <| Content.disabled := true |>).

Definition content_approve_apply (o : content_approve_operation) : st database unit :=
  content ← get_content (ca_url o);
  _ ← assert_st (negb (Content.disabled content.2));
  appr ← get_account (ca_approver o);
  _ ← create (ContentApproval.Make (ca_url o) appr.1);
  mret tt.

(** ** Votes for contents *)

Definition find_vote (content voter : Z) : st database (option (Z * ContentVote.t)) :=
  find_where (fun v => (ContentVote.content v =? content) && (ContentVote.voter v =? voter)).

Definition vote_content (o : vote_operation) (voter : Z) (now : Z) : st database unit :=
  content ← get_content (vo_url o);
  _ ← assert_st (negb (Content.disabled content.2));
  _ ← (if vo_weight o >? 0 then assert_st (Content.allow_votes content.2) else mret tt);
  itr ← find_vote content.1 voter;
  match itr with
  | Some (i, v) =>
      _ ← assert_st (ContentVote.num_changes v <? BTCM_MAX_VOTE_CHANGES);
      _ ← assert_st (negb (ContentVote.weight v =? vo_weight o));
      modify_pure i (fun cv : ContentVote.t =>
        cv <| ContentVote.weight := vo_weight o |> <| ContentVote.last_update := now |>
           <| ContentVote.num_changes ::= fun n => to_signed 8 (n + 1) |>)
  | None =>
      _ ← assert_st (negb (vo_weight o =? 0));
      _ ← create (ContentVote.Make voter content.1 (vo_weight o) 0 false now);
      mret tt
  end.

Definition vote_apply (o : vote_operation) : st database unit :=
  voter ← get_account (vo_voter o);
  _ ← assert_st (negb (Account.owner_challenged voter.2 || Account.active_challenged voter.2));
  d ← get_st;
  let elapsed_seconds := head_block_time d - Account.last_vote_time voter.2 in
  _ ← assert_st (elapsed_seconds >=? BTCM_MIN_VOTE_INTERVAL_SEC);
  let now := head_block_time d in
  _ ← modify_pure voter.1 (fun a : Account.t => a <| Account.last_vote_time := now |>);
  if (0 <? String.length (vo_url o))%nat then vote_content o voter.1 now else mret tt.

(** ** Claims *)

Section Claims.
Context {B : BoostMP} {A : Addresses}.

Definition balance_claim_apply (op : balance_claim_operation) : st database unit :=
  balance ← get (V:=ClaimBalance.t) (bc_balance_to_claim op);
  gettie ← get_account (bc_deposit_to_account op);
  _ ← assert_st (existsb (Z.eqb (ClaimBalance.owner balance)) (addresses_of (bc_balance_owner_key op)));
  _ ← assert_asset (asset_leb (bc_total_claimed op) (ClaimBalance.balance balance));
  less ← lift (asset_ltb (bc_total_claimed op) (ClaimBalance.balance balance));
  _ ← (if less : bool then
         d ← get_st;
         modify (bc_balance_to_claim op) (fun b =>
           x ← asset_sub (ClaimBalance.balance b) (bc_total_claimed op);
           Ok (b <| ClaimBalance.balance := x |> <| ClaimBalance.last_claim_date := head_block_time d |>))
       else remove (V:=ClaimBalance.t) (bc_balance_to_claim op));
  adjust_balance gettie.1 (bc_total_claimed op).
End Claims.

End Contents.
