(* ===== verification/ContentFacts.v ===== *)
(** * Facts about contents

    Contents keep their type, their identity and their number of sides under every
    operation, and a disabled one is final; the operations on contents and claims
    move no funds from nowhere; a vote is accepted exactly when its conditions hold. *)

From S2P Require Import Prelude.
From S2P Require Import SafeInt.
From S2P Require Import Uint128.
From S2P Require Import Asset.
From S2P Require Import AssetFacts.
From S2P Require Import UndoDatabase.
From S2P Require Import Authority.
From S2P Require Import State.
From S2P Require Import Sample.
From S2P Require Import Balance.
From S2P Require Import BalanceFacts.
From S2P Require Import Vesting.
From S2P Require Import VestingFacts.
From S2P Require Import Rewards.
From S2P Require Import RewardFacts.
From S2P Require Import Content.

Module ContentFacts.
Import AssetOps Balances Vesting Quiet Supply AssetFacts VestingFacts Rewards RewardFacts Contents.

Inductive content_op :=
  | Publish (o : content_operation)
  | Update (o : content_update_operation)
  | Disable (o : content_disable_operation)
  | Approve (o : content_approve_operation)
  | Vote (o : vote_operation)
  | Claim (o : balance_claim_operation).

(** ** Types *)

Definition third_party (c : Content.t) : bool := CompMeta.third_party_publishers (Content.comp_meta c).

(** The shares are percentages, and what has one side has nothing on the other. *)
Definition typed (c : Content.t) : Prop :=
  0 <= Content.playing_reward c < 10000 /\ 0 <= Content.publishers_share c < 10000 /\
  (third_party c = false -> Content.distributions_comp c = [] /\ Content.manage_comp c = empty_authority).

(** What identifies a content. *)
Definition identity (c : Content.t) : string * string * Z * bool :=
  (Content.url c, Content.uploader c, Content.created c, third_party c).

(** Unsigned fields of the operations. *)
Definition op_typed (op : content_op) : Prop :=
  match op with
  | Publish o => 0 <= co_playing_reward o /\ 0 <= co_publishers_share o
  | Update o => 0 <= cu_new_playing_reward o /\ 0 <= cu_new_publishers_share o
  | _ => True
  end.

(** From a content to what an operation makes of it. *)
Definition evolves (c c' : Content.t) : Prop :=
  identity c' = identity c /\ (typed c -> typed c') /\ (Content.disabled c = true -> c' = c).

Lemma evolves_refl c : evolves c c.
Proof. done. Qed.

Definition urls_unique (d : database) : Prop := forall i j (c e : Content.t),
  get_opt d i = Some c -> get_opt d j = Some e -> Content.url c = Content.url e -> i = j.

(** Every content evolves, and new ones are typed and have a new URL. *)
Record contents_evolve (d d' : database) : Prop := {
  evolve_old : forall i c, get_opt d i = Some c -> exists c', get_opt d' i = Some c' /\ evolves c c';
  evolve_new : forall i c', get_opt (V:=Content.t) d' i = Some c' -> get_opt (V:=Content.t) d i = None -> typed c';
  evolve_urls : urls_unique d -> urls_unique d'
}.

Lemma evolve_same d d' : contents d' = contents d -> contents_evolve d d'.
Proof.
  intros E. split; unfold urls_unique, get_opt, tbl; cbn; rewrite E; [|congruence|done].
  intros i c Hc. by exists c.
Qed.

Lemma evolve_set d i (c w : Content.t) : get_opt d i = Some c -> evolves c w -> contents_evolve d (set_obj d i w).
Proof.
  intros Hc Hw. split.
  - intros j v Hv. rewrite get_set_obj. destruct (decide (j = i)) as [->|]; [|by exists v].
    rewrite Hc in Hv. injection Hv as <-. by exists w.
  - intros j v Hv Hn. rewrite get_set_obj in Hv. destruct (decide (j = i)); congruence.
  - intros Hu. destruct Hw as [Hi _]. injection Hi as Ei _ _ _.
    assert (forall j v, get_opt (set_obj d i w) j = Some v -> exists v', get_opt d j = Some v' /\ Content.url v' = Content.url v) as Hback.
    { intros j v Hv. rewrite get_set_obj in Hv. destruct (decide (j = i)) as [->|]; [injection Hv as <-; by exists c|by exists v]. }
    intros j k v z (v' & Hv & Ev)%Hback (z' & Hz & Ez)%Hback E. apply (Hu j k v' z'); congruence.
Qed.

Lemma edit_identity now o c : (third_party c || (cu_side o =? side_master)) = true ->
  identity (edit now o c) = identity c.
Proof.
  intros _. unfold identity, third_party, edit, edit_side.
  destruct (cu_side o =? _), (cu_album_meta o), (cu_track_meta o), (cu_comp_meta o), (0 <? length (cu_new_distributions o))%nat,
    (0 <? length (cu_new_management o))%nat, (cu_new_playing_reward o >? 0), (cu_new_publishers_share o >? 0),
    (CompMeta.third_party_publishers (Content.comp_meta c)); reflexivity.
Qed.

Lemma edit_typed now o c : (third_party c || (cu_side o =? side_master)) = true ->
  0 <= cu_new_playing_reward o < 10000 -> 0 <= cu_new_publishers_share o < 10000 -> typed c -> typed (edit now o c).
Proof.
  intros Hs Hr Hp (T1 & T2 & T3). unfold typed, third_party in *. unfold edit, edit_side.
  destruct (cu_side o =? _), (cu_album_meta o), (cu_track_meta o), (cu_comp_meta o), (0 <? length (cu_new_distributions o))%nat,
    (0 <? length (cu_new_management o))%nat, (cu_new_playing_reward o >? 0), (cu_new_publishers_share o >? 0),
    (CompMeta.third_party_publishers (Content.comp_meta c)); cbn in *; split_and!; try lia; first [done|apply T3; done|idtac].
Qed.

Lemma edit_evolves now o c : (third_party c || (cu_side o =? side_master)) = true -> Content.disabled c = false ->
  0 <= cu_new_playing_reward o < 10000 -> 0 <= cu_new_publishers_share o < 10000 -> evolves c (edit now o c).
Proof.
  intros Hs Hd Hr Hp. split; [by apply edit_identity|]. split; [by apply edit_typed|congruence].
Qed.
Lemma evolve_trans d1 d2 d3 : contents_evolve d1 d2 -> contents_evolve d2 d3 -> contents_evolve d1 d3.
Proof.
  intros [O1 N1 U1] [O2 N2 U2].
  assert (forall c1 c2 c3, evolves c1 c2 -> evolves c2 c3 -> evolves c1 c3) as Ht.
  { intros c1 c2 c3 (I1 & T1 & D1) (I2 & T2 & D2). split; [congruence|]. split; [auto|]. intros E. rewrite D2 by (by rewrite D1). auto. }
  split.
  - intros i c Hc. destruct (O1 _ _ Hc) as (c1 & H1 & E1). destruct (O2 _ _ H1) as (c2 & H2 & E2). exists c2. split; [done|]. by eapply Ht.
  - intros i c3 H3 Hn. destruct (get_opt (V:=Content.t) d2 i) as [c2|] eqn:E2; [|by eapply N2].
    specialize (N1 _ _ E2 Hn). destruct (O2 _ _ E2) as (c3' & H3' & (_ & T3 & _)). rewrite H3 in H3'. injection H3' as <-. auto.
  - auto.
Qed.

Lemma evolve_create d o mc tc : ids_below Content.t d -> 0 <= co_playing_reward o < 10000 -> 0 <= co_publishers_share o < 10000 ->
  lookup_where (fun c => String.eqb (Content.url c) (co_url o)) d = None ->
  contents_evolve d (upd_tbl (fun t => next_object t (new_content (head_block_time d) o mc tc)) d).
Proof.
  intros Hb Hr Hp Hn. split.
  - intros i c Hc. exists c. split; [|apply evolves_refl]. unfold get_opt. cbn. rewrite lookup_insert_ne; [exact Hc|].
    intros <-. apply ids_below_fresh in Hb. unfold fresh in Hb. cbn in Hb. congruence.
  - intros i c' Hc Hi. unfold get_opt in Hc. cbn in Hc. apply lookup_insert_Some in Hc as [[_ <-]|[_ Hc]]; [|unfold get_opt in Hi; cbn in Hi; congruence].
    unfold typed, third_party, new_content; cbn. destruct (CompMeta.third_party_publishers _); by split_and!; try lia.
  - intros Hu. set (v := new_content _ _ _ _). assert (forall j c, get_opt d j = Some c -> Content.url c <> Content.url v) as Hv.
    { intros j c Hj E. apply (lookup_where_None _ _ _ _ Hn) in Hj. cbn in E. by rewrite E, String.eqb_refl in Hj. }
    intros i j c e Hi Hj E. unfold get_opt in Hi, Hj. cbn -[v] in Hi, Hj.
    apply lookup_insert_Some in Hi as [[<- <-]|[_ Hi]]; apply lookup_insert_Some in Hj as [[<- <-]|[_ Hj]]; [done| | |by eapply Hu].
    + by destruct (Hv _ _ Hj).
    + by destruct (Hv _ _ Hi).
Qed.

Lemma exist_same {A} (f : A -> string) l d u d' :
  for_each l (fun x => _ ← get_account (f x); mret tt) d = Ok (u, d') -> d' = d.
Proof.
  apply (for_each_inv (fun d' => d' = d)); [|done]. intros x e v e' _ -> H. step H. by apply st_ret_Ok in H as [_ ->].
Qed.

Section Pay.
Context {B : BoostMP}.

Lemma pay_authors_contents to_pay l t d t' d' : pay_authors to_pay l t d = Ok (t', d') -> contents d' = contents d.
Proof.
  revert t d. induction l as [|di l IH]; intros t d H; cbn [pay_authors] in H; [by apply st_ret_Ok in H as [_ ->]|].
  step H as t1 E1. apply IH in H as ->. unfold pay_author in E1. step E1 as y Ey. step E1 as z Ez. step E1 as t2 Et.
  step E1 as v Ev. step E1 as a Ea. step E1 as nv Env. step E1 as nm Enm. apply st_ret_Ok in E1 as [_ ->].
  apply (create_mbd_frame (fun d => contents d)) in Enm; [|done]. rewrite Enm.
  apply create_vesting_Ok in Env as (b & w & p & d1 & _ & _ & _ & _ & -> & Hq & _). by destruct Hq as [_ _ ->].
Qed.

Lemma side_evolves s a c : s = master \/ s = comp -> Content.disabled c = false -> evolves c (set_accumulated s a c).
Proof. intros [->| ->] Hd; (split; [by destruct c|]); (split; [by destruct c|congruence]). Qed.

Lemma pay_side_evolve s i p d u d' c : s = master \/ s = comp -> get_opt d i = Some c -> Content.disabled c = false ->
  pay_side s i p d = Ok (u, d') -> contents_evolve d d'.
Proof.
  intros Hs Hc Hd H. unfold pay_side in H. step H as c1 E1. rewrite Hc in E1. injection E1 as <-. destruct (_ =? 0)%nat.
  { apply modify_Ok in H as (c' & w & Hc' & Hw & ->). rewrite Hc in Hc'. injection Hc' as <-.
    apply bind_Ok in Hw as (a & _ & [= <-]). eapply evolve_set; [exact Hc|by apply side_evolves]. }
  step H as tp Etp. step H as tot Etot. apply pay_authors_contents in Etot. step H as g Eg. step H as tp2 Etp2. step H as c2 Ec2.
  apply evolve_same in Etot as Ev. eapply evolve_trans; [exact Ev|]. assert (get_opt x i = Some c) as Hx by (unfold get_opt in *; cbn in *; by rewrite Etot).
  destruct (negb _); [|apply st_ret_Ok in H as [_ ->]; by apply evolve_same].
  apply modify_Ok in H as (c' & w & Hc' & [= <-] & ->). rewrite Hx in Hc'. injection Hc' as <-. eapply evolve_set; [exact Hx|by apply side_evolves].
Qed.
End Pay.

Section Operations.
Context {B : BoostMP} {T : TextChecks} {A : Addresses}.

Definition validate_content (op : content_op) : result unit :=
  match op with
  | Publish o => content_validate o
  | Update o => content_update_validate o
  | Disable o => content_disable_validate o
  | Approve o => content_approve_validate o
  | Vote o => vote_validate o
  | Claim o => balance_claim_validate o
  end.
Definition apply_content (op : content_op) : st database unit :=
  match op with
  | Publish o => content_apply o
  | Update o => content_update_apply o
  | Disable o => content_disable_apply o
  | Approve o => content_approve_apply o
  | Vote o => vote_apply o
  | Claim o => balance_claim_apply o
  end.

Lemma publish_bounds o : content_validate o = Ok tt -> co_playing_reward o < 10000 /\ co_publishers_share o < 10000.
Proof.
  unfold content_validate. intros H. do 8 (apply bind_Ok in H as (? & _ & H)). apply bind_Ok in H as (? & H1 & H).
  apply fc_assert_Ok in H1, H. lia.
Qed.
Lemma update_bounds o : content_update_validate o = Ok tt -> cu_new_playing_reward o < 10000 /\ cu_new_publishers_share o < 10000.
Proof.
  unfold content_update_validate. intros H. do 6 (apply bind_Ok in H as (? & _ & H)). apply bind_Ok in H as (? & H1 & H).
  apply fc_assert_Ok in H1, H. lia.
Qed.

Lemma publish_evolves o d u d' : ids_below Content.t d -> 0 <= co_playing_reward o < 10000 -> 0 <= co_publishers_share o < 10000 ->
  content_apply o d = Ok (u, d') -> contents_evolve d d'.
Proof.
  intros Hb Hr Hp H. unfold content_apply, find_content in H. apply st_bind_Ok in H as (itr & d1 & Hi & H). apply find_where_Ok in Hi as [-> ->].
  step H as [] E1. step H as au Eau. step H as [] E2. step H as [] E3. apply exist_same in E3 as ->. step H as [] E4.
  assert (x = d) as -> by (destruct (co_distributions_comp o); [by apply exist_same in E4|by apply st_ret_Ok in E4 as [_ ->]]).
  step H as [] E5. apply exist_same in E5 as ->. step H as cmp E6.
  assert (x = d) as ->.
  { destruct (CompMeta.third_party_publishers _); [|by apply st_ret_Ok in E6 as [_ ->]].
    destruct (co_management_comp o), (co_management_threshold_comp o); try done. step E6 as [] E7. apply st_ret_Ok in E6 as [_ ->]. by apply exist_same in E7. }
  step H. step H as i Ei. apply st_ret_Ok in H as [_ ->]. apply create_Ok in Ei as (_ & _ & ->). apply evolve_create; [done..|].
  by destruct (lookup_where _ d).
Qed.

Lemma update_evolves o d u d' : 0 <= cu_new_playing_reward o < 10000 -> 0 <= cu_new_publishers_share o < 10000 ->
  content_update_apply o d = Ok (u, d') -> contents_evolve d d'.
Proof.
  intros Hr Hp H. unfold content_update_apply, get_content in H. step H as ic Ec. destruct ic as [i c]. cbn [fst snd] in *.
  apply lookup_where_Some in Ec as [Hc _]. step H as [] E1. apply negb_true_iff in E1. step H as [] E2.
  step H as [] E3. apply exist_same in E3 as ->. step H as [] E4. apply exist_same in E4 as ->. step H. step H as [] E5.
  apply modify_Ok in E5 as (c' & w & Hc' & [= <-] & ->). rewrite Hc in Hc'. injection Hc' as <-.
  set (w := edit _ o c) in H. assert (evolves c w) as Hw by (by apply edit_evolves).
  assert (contents_evolve d (set_obj d i w)) as Ev by (by eapply evolve_set). destruct (_ && _); [|by apply st_ret_Ok in H as [_ ->]].
  assert (Content.disabled w = false) as Hdw.
  { rewrite <-E1. unfold w, edit, edit_side. by repeat (case_match; cbn). }
  eapply evolve_trans; [exact Ev|]. assert (get_opt (set_obj d i w) i = Some w) as Hi by (by rewrite get_set_obj, decide_True).
  destruct (_ =? side_master); (eapply pay_side_evolve; [|exact Hi|exact Hdw|exact H]); auto.
Qed.

Lemma apply_evolves op d d' : ids_below Content.t d -> op_typed op -> validate_content op = Ok tt -> apply_content op d = Ok (tt, d') ->
  contents_evolve d d'.
Proof.
  intros Hb Ht Hv H. destruct op as [o|o|o|o|o|o]; cbn in *.
  - apply publish_bounds in Hv as []. eapply publish_evolves; [done| | |exact H]; lia.
  - apply update_bounds in Hv as []. eapply update_evolves; [| |exact H]; lia.
  - unfold content_disable_apply, get_content in H. step H as ic Ec. destruct ic as [i c]. cbn [fst snd] in *.
    apply lookup_where_Some in Ec as [Hc _]. step H as [] E1. apply modify_Ok in H as (c' & w & Hc' & [= <-] & ->).
    rewrite Hc in Hc'. injection Hc' as <-. eapply evolve_set; [exact Hc|]. split; [by destruct c|]. split; [by destruct c|].
    intros Hd. by rewrite Hd in E1.
  - unfold content_approve_apply, get_content in H. step H as ic Ec. step H as [] E1. step H as a Ea. step H as j Ej.
    apply st_ret_Ok in H as [_ ->]. apply create_Ok in Ej as (_ & _ & ->). by apply evolve_same.
  - unfold vote_apply in H. step H as v Ev. step H as [] E1. step H. step H as [] E2. step H as [] E3.
    apply modify_Ok in E3 as (a & w & Ha & [= <-] & ->). destruct (_ <? _)%nat; [|apply st_ret_Ok in H as [_ ->]; by apply evolve_same].
    unfold vote_content, get_content, find_vote in H. step H as ic Ec. step H as [] E4. step H as [] E5.
    assert (x = set_obj d v.1 (a <| Account.last_vote_time := head_block_time d |>)) as ->.
    { destruct (_ >? _); [by apply assert_st_Ok in E5 as [_ ->]|by apply st_ret_Ok in E5 as [_ ->]]. }
    apply st_bind_Ok in H as (o' & d1 & Ho & H). apply find_where_Ok in Ho as [-> ->].
    match type of H with context [lookup_where ?q ?e] => destruct (lookup_where q e) as [[j cv]|] end.
    + step H as [] E6. step H as [] E7. apply modify_Ok in H as (? & ? & _ & _ & ->). by apply evolve_same.
    + step H as [] E6. step H as j Ej. apply st_ret_Ok in H as [_ ->]. apply create_Ok in Ej as (_ & _ & ->). by apply evolve_same.
  - unfold balance_claim_apply in H. step H as b Eb. step H as g Eg. step H as [] E1. step H as [] E2. step H as l El. step H as [] E3.
    apply (adjust_balance_frame (fun d => contents d)) in H; [|by constructor]. apply evolve_same. rewrite H. destruct l.
    + step E3. by apply modify_Ok in E3 as (? & ? & _ & _ & ->).
    + by apply remove_Ok in E3 as ->.
Qed.

(** ** Funds *)

Lemma content_gap_0 d i (c w : Content.t) id : get_opt d i = Some c -> held_content w = held_content c ->
  gap id (set_obj d i w) = gap id d.
Proof. intros Hc Hw. rewrite (gap_set_content _ _ c), Hw by done. destruct (_ =? _); lia. Qed.

Lemma gap_create_content d c id : fresh Content.t d -> held_content c = 0 -> gap id (upd_tbl (fun t => next_object t c) d) = gap id d.
Proof.
  intros Hf Hc. unfold gap, held_btcm. fold held_content. set (d' := upd_tbl _ d). change (dgpo d') with (dgpo d).
  change (held_mbd d') with (held_mbd d). change (held_vests d') with (held_vests d). change (user_supply id d') with (user_supply id d).
  change (held_user id d') with (held_user id d).
  change (total (V:=ConvertRequest.t) ?f d') with (total (V:=ConvertRequest.t) f d).
  change (total (V:=LimitOrder.t) ?f d') with (total (V:=LimitOrder.t) f d).
  change (total (V:=Account.t) ?f d') with (total (V:=Account.t) f d).
  change (total (V:=ClaimBalance.t) ?f d') with (total (V:=ClaimBalance.t) f d).
  unfold d'. change (fun c : Content.t => _) with held_content. rewrite (total_create (V:=Content.t) held_content d c Hf), Hc.
  destruct (_ =? BTCM_SYMBOL); [lia|done].
Qed.

(** The claims of a state with one balance changed. *)
Lemma gap_claims d t id : gap id (d <| claim_balances := t |>) = gap id d -
  (if id =? BTCM_SYMBOL then map_sum (fun b => amount (ClaimBalance.balance b)) (indices t) -
     total (fun b => amount (ClaimBalance.balance b)) d else 0).
Proof.
  unfold gap, held_btcm. set (d' := d <| claim_balances := t |>). change (dgpo d') with (dgpo d).
  change (held_mbd d') with (held_mbd d). change (held_vests d') with (held_vests d). change (user_supply id d') with (user_supply id d).
  change (held_user id d') with (held_user id d).
  change (total (V:=ConvertRequest.t) ?f d') with (total (V:=ConvertRequest.t) f d).
  change (total (V:=LimitOrder.t) ?f d') with (total (V:=LimitOrder.t) f d).
  change (total (V:=Account.t) ?f d') with (total (V:=Account.t) f d).
  change (total (V:=Content.t) ?f d') with (total (V:=Content.t) f d).
  change (total (V:=ClaimBalance.t) ?f d') with (map_sum f (indices t)).
  destruct (_ =? BTCM_SYMBOL); [lia|]. destruct (_ =? XUSD_SYMBOL); [lia|]. destruct (_ =? VESTS_SYMBOL); lia.
Qed.
Lemma get_where_run {V} `{Stored V} (p : V -> bool) d :
  get_where p d = match lookup_where p d with Some kv => Ok (kv, d) | None => Throw assert_exception end.
Proof. unfold get_where, mbind, st_bind, get_st, lift, of_option. by destruct (lookup_where p d). Qed.

Lemma edit_held now o c : held_content (edit now o c) = held_content c.
Proof. unfold held_content, edit, edit_side. by repeat (case_match; cbn). Qed.

Lemma claim_gap o d u d' id : ids_below Balance.t d ->
  (forall i b, get_opt d i = Some b -> asset_id (ClaimBalance.balance b) = BTCM_SYMBOL) ->
  balance_claim_apply o d = Ok (u, d') -> gap id d' = gap id d.
Proof.
  intros Hb Hs H. unfold balance_claim_apply in H. step H as b Eb. specialize (Hs _ _ Eb). step H as g Eg. step H as [] E1.
  step H as [] E2. step H as l El.
  assert (asset_id (bc_total_claimed o) = BTCM_SYMBOL) as Ho.
  { unfold asset_ltb in El. apply bind_Ok in El as (v & Hv & _). apply fc_assert_Ok in Hv. lia. }
  apply st_bind_Ok in H as ([] & d1 & E3 & H). set (k := amount (bc_total_claimed o)).
  assert (gap id d1 = gap id d + (if id =? BTCM_SYMBOL then k else 0) /\ ids_below Balance.t d1) as [Eg1 Hb1].
  { destruct l.
    - step E3. apply modify_Ok in E3 as (b' & w & Hb' & Hw & ->). rewrite Eb in Hb'. injection Hb' as <-.
      apply bind_Ok in Hw as (y & Hy & [= <-]). apply AssetLemmas.asset_sub_Ok in Hy as [_ ->]. split; [|exact Hb].
      set (e := set_obj d _ _). change e with (d <| claim_balances := tbl (V:=ClaimBalance.t) e |>). rewrite gap_claims.
      change (map_sum _ _) with (total (V:=ClaimBalance.t) (fun b => amount (ClaimBalance.balance b)) e). unfold e.
      rewrite (total_set_obj _ _ _ _ _ Eb). cbn. fold k. destruct (_ =? _); lia.
    - apply remove_Ok in E3 as ->. split; [|exact Hb]. set (e := upd_tbl _ d).
      change e with (d <| claim_balances := tbl (V:=ClaimBalance.t) e |>). rewrite gap_claims.
      change (map_sum _ _) with (total (V:=ClaimBalance.t) (fun b => amount (ClaimBalance.balance b)) e). unfold e.
      rewrite (total_remove _ _ _ _ Eb). assert (amount (ClaimBalance.balance b) = k) as ->; [|destruct (_ =? _); lia].
      unfold asset_leb in E2. destruct (asset_eqb _ _) eqn:Ee; [|congruence]. unfold asset_eqb in Ee. unfold k. lia. }
  rewrite (gap_adjust_balance _ _ _ _ _ id (ids_below_fresh _ Hb1) ltac:(by rewrite Ho) H), Ho, Eg1. fold k.
  destruct (_ =? _); lia.
Qed.
Lemma update_gap {BOk : BoostMPOk} o d u d' id : priced d -> ids_below Balance.t d -> content_update_apply o d = Ok (u, d') -> gap id d' = gap id d.
Proof.
  intros Hp Hb H. unfold content_update_apply, get_content in H. step H as ic Ec. destruct ic as [i c]. cbn [fst snd] in *.
  step H as [] E1. step H as [] E2. step H as [] E3. apply exist_same in E3 as ->. step H as [] E4. apply exist_same in E4 as ->.
  step H. step H as [] E5. apply modify_Ok in E5 as (c' & w & Hc' & [= <-] & ->).
  set (e := set_obj d i _) in H. assert (gap id e = gap id d) as Eg by (apply (content_gap_0 d i c'); [done|apply edit_held]).
  assert (forall s, side_ok s -> pay_side s i (Asset 0 BTCM_SYMBOL) e = Ok (u, d') -> gap id d' = gap id d) as Hside.
  { intros s Hs Hpay. apply (pay_side_Ok s) in Hpay as [[_ Hg] _]; [|done|exact Hp|done]. rewrite (Hg Hb), Eg. change (amount (Asset 0 BTCM_SYMBOL)) with 0. destruct (id =? BTCM_SYMBOL); lia. }
  destruct (_ && _); [|by apply st_ret_Ok in H as [_ ->]].
  destruct (_ =? side_master); [by apply (Hside master master_ok)|by apply (Hside comp comp_ok)].
Qed.

Lemma vote_gap o d u d' id : vote_apply o d = Ok (u, d') -> gap id d' = gap id d.
Proof.
  intros H. unfold vote_apply in H. step H as v Ev. step H as [] E1. step H. step H as [] E2. step H as [] E3.
  apply modify_Ok in E3 as (a & w & Ha & [= <-] & ->). set (e := set_obj d _ _) in H.
  assert (gap id e = gap id d) as Eg.
  { unfold e. rewrite (gap_set_account _ _ a) by done. cbn. destruct (_ =? _); [lia|]. destruct (_ =? _); [lia|]. destruct (_ =? _); lia. }
  rewrite <-Eg. destruct (_ <? _)%nat; [|by apply st_ret_Ok in H as [_ ->]].
  unfold vote_content, get_content, find_vote in H. step H as ic Ec. step H as [] E4. step H as [] E5.
  assert (x = e) as ->.
  { destruct (_ >? _); [by apply assert_st_Ok in E5 as [_ ->]|by apply st_ret_Ok in E5 as [_ ->]]. }
  apply st_bind_Ok in H as (o' & d1 & Ho & H). apply find_where_Ok in Ho as [-> ->].
  match type of H with context [lookup_where ?q ?e] => destruct (lookup_where q e) as [[j cv]|] end.
  - step H as [] E6. step H as [] E7. by apply modify_Ok in H as (? & ? & _ & _ & ->).
  - step H as [] E6. step H as j Ej. apply st_ret_Ok in H as [_ ->]. by apply create_Ok in Ej as (_ & _ & ->).
Qed.

(** Publishing, editing, disabling, approving, voting and claiming move no funds from
    nowhere: what a change of the distribution pays out comes from the balance the
    content had accumulated, and a claim is paid by the balance it claims. *)
Lemma content_conserves {BOk : BoostMPOk} op d d' id : ids_below Content.t d -> ids_below Balance.t d -> priced d ->
  (forall i b, get_opt d i = Some b -> asset_id (ClaimBalance.balance b) = BTCM_SYMBOL) ->
  apply_content op d = Ok (tt, d') -> gap id d' = gap id d.
Proof.
  intros Hbc Hb Hp Hcl H. destruct op as [o|o|o|o|o|o]; cbn in H.
  - unfold content_apply, find_content in H. apply st_bind_Ok in H as (itr & d1 & Hi & H). apply find_where_Ok in Hi as [-> ->].
    step H as [] E1. step H as au Eau. step H as [] E2. step H as [] E3. apply exist_same in E3 as ->. step H as [] E4.
    assert (x = d) as -> by (destruct (co_distributions_comp o); [by apply exist_same in E4|by apply st_ret_Ok in E4 as [_ ->]]).
    step H as [] E5. apply exist_same in E5 as ->. step H as cmp E6.
    assert (x = d) as ->.
    { destruct (CompMeta.third_party_publishers _); [|by apply st_ret_Ok in E6 as [_ ->]].
      destruct (co_management_comp o), (co_management_threshold_comp o); try done. step E6 as [] E7. apply st_ret_Ok in E6 as [_ ->]. by apply exist_same in E7. }
    step H. step H as i Ei. apply st_ret_Ok in H as [_ ->]. apply create_Ok in Ei as (_ & _ & ->).
    apply gap_create_content; [by apply ids_below_fresh|done].
  - by eapply update_gap.
  - unfold content_disable_apply, get_content in H. step H as ic Ec. step H as [] E1.
    apply modify_Ok in H as (c & w & Hc & [= <-] & ->). by apply (content_gap_0 _ _ c).
  - unfold content_approve_apply, get_content in H. step H as ic Ec. step H as [] E1. step H as a Ea. step H as j Ej.
    apply st_ret_Ok in H as [_ ->]. by apply create_Ok in Ej as (_ & _ & ->).
  - by eapply vote_gap.
  - by eapply claim_gap.
Qed.

(** ** Votes *)

(** What a vote changes. *)
Definition vote_voted (o : vote_operation) (now i : Z) (a : Account.t) (j : Z) (d : database) : database :=
  let d := set_obj d i (a <| Account.last_vote_time := now |>) in
  match lookup_where (fun v => (ContentVote.content v =? j) && (ContentVote.voter v =? i)) d with
  | Some (k, v) => set_obj d k (v <| ContentVote.weight := vo_weight o |> <| ContentVote.last_update := now |>
                                  <| ContentVote.num_changes ::= fun n => to_signed 8 (n + 1) |>)
  | None => upd_tbl (fun t => next_object t (ContentVote.Make i j (vo_weight o) 0 false now)) d
  end.

(** When it is allowed to. *)
Definition vote_allowed (o : vote_operation) (i : Z) (a : Account.t) (j : Z) (c : Content.t) (d : database) : bool :=
  negb (Account.owner_challenged a || Account.active_challenged a) &&
  (head_block_time d - Account.last_vote_time a >=? BTCM_MIN_VOTE_INTERVAL_SEC) &&
  negb (Content.disabled c) && ((vo_weight o <=? 0) || Content.allow_votes c) &&
  match lookup_where (fun v => (ContentVote.content v =? j) && (ContentVote.voter v =? i)) d with
  | Some (_, v) => (ContentVote.num_changes v <? BTCM_MAX_VOTE_CHANGES) && negb (ContentVote.weight v =? vo_weight o)
  | None => negb (vo_weight o =? 0)
  end.

End Operations.

(** ** Contents on a chain *)

#[local] Existing Instance boost_reference.
#[local] Instance boost_ok : BoostMPOk.
Proof. apply AssetFacts.boost_ok. Qed.
#[local] Instance any_text : TextChecks := {| is_utf8 _ := true; json_is_valid _ := true |}.
#[local] Instance own_address : Addresses := {| addresses_of k := [k] |}.

(** The song has earned 500 BTCM that were not paid out, 9 BTCM wait to be claimed. *)
Definition published : database :=
  Sample.state <| contents := Table 1 {[0 := Sample.song <| Content.accumulated_balance_master := Asset 500 BTCM_SYMBOL |>]} |>
    <| claim_balances := Table 1 {[0 := ClaimBalance.Make 77 (Asset 9 BTCM_SYMBOL) 0]} |>.
Definition to_bob : content_update_operation :=
  ContentUpdateOp side_master "bmfs://song" None None None [Distribution.Make "bob" 10000] [] 0 2000 0.
Definition like : vote_operation := VoteOp "bob" "bmfs://song" 5000.

Lemma published_contents i c : get_opt published i = Some c -> i = 0 /\ c = Sample.song <| Content.accumulated_balance_master := Asset 500 BTCM_SYMBOL |>.
Proof. revert i c. by refine (Sample.table_all _ _ _ _ _); [vm_compute; reflexivity|repeat constructor]. Qed.


Lemma content_conserves_witness :
  gap BTCM_SYMBOL (Sample.after (apply_content (Update to_bob)) published) = gap BTCM_SYMBOL published /\
  amount (Account.balance (default default_account (get_opt (Sample.after (apply_content (Update to_bob)) published) 1))) = 510.
Proof.
  split; [|vm_compute; reflexivity]. apply (content_conserves (Update to_bob)).
  - by apply ids_below_check.
  - by apply ids_below_check.
  - by split; [split|].
  - refine (Sample.table_all _ _ _ _ _); [vm_compute; reflexivity|by repeat constructor].
  - apply Sample.after_run. vm_compute. reflexivity.
Defined.


(** ** What the code lets happen *)

(** Shares are summed in 32 bits, so that they validate when they add up to 10000
    modulo 2^32: alice gets two billion for a reward of 5000, and the balance of
    the content stays negative. *)
Definition wrapping_shares : list Distribution.t := [Distribution.Make "alice" 4294967295; Distribution.Make "alice" 10001].

Lemma shares_wrap : validate_distributions wrapping_shares = Ok tt /\
  let d := published <| contents := Table 1 {[0 := Sample.song <| Content.distributions_master := wrapping_shares |>]} |> in
  let d' := Sample.after (pay_to_content_master 0 (Asset 5000 BTCM_SYMBOL)) d in
  amount (Account.balance (default default_account (get_opt d' 0))) > 2000000000 /\
  amount (Content.accumulated_balance_master (default Sample.song (get_opt d' 0))) < 0.
Proof. vm_compute. done. Qed.

(** The publishers' share of a content without publishers can be set; what it keeps
    back then has no payees, and no later update can give it any. *)
Definition set_share : content_update_operation :=
  ContentUpdateOp side_master "bmfs://song" None None None [] [] 0 0 5000.

Lemma share_without_side : content_update_validate set_share = Ok tt /\
  let d := Sample.after (content_update_apply set_share) published in
  let d' := Sample.after (_ ← pay_to_content 0 (Asset 1000 BTCM_SYMBOL); mret tt) d in
  let song := default Sample.song (get_opt d' 0) in
  amount (Content.accumulated_balance_comp song) = 275 /\ Content.distributions_comp song = [] /\
  forall o, cu_side o <> side_master -> cu_url o = "bmfs://song" -> is_ok (content_update_apply o d') = false.
Proof.
  split; [vm_compute; reflexivity|]. cbv zeta. split; [vm_compute; reflexivity|]. split; [vm_compute; reflexivity|].
  intros o Hs Hu. unfold content_update_apply, get_content. unfold mbind at 1, st_bind at 1. rewrite get_where_run, Hu.
  match goal with |- context [lookup_where ?p ?e] => replace (lookup_where p e) with (Some (0, default Sample.song (get_opt e 0))) end.
  2: { symmetry. vm_compute. reflexivity. }
  set (c := default Sample.song _). assert (Content.disabled c = false /\ CompMeta.third_party_publishers (Content.comp_meta c) = false) as [Hd Ht].
  { by vm_compute. }
  cbn [fst snd]. rewrite Hd, Ht. apply Z.eqb_neq in Hs. by rewrite Hs.
Qed.

(** A claim of a negative amount is accepted: the account goes below zero and the
    balance to be claimed grows. *)
Lemma claim_negative :
  let o := BalanceClaimOp "bob" 0 77 (Asset (-1000) BTCM_SYMBOL) in
  balance_claim_validate o = Ok tt /\
  let d := Sample.after (balance_claim_apply o) published in
  amount (Account.balance (default default_account (get_opt d 1))) = -990 /\
  amount (ClaimBalance.balance (default (ClaimBalance.Make 0 (Asset 0 0) 0) (get_opt d 0))) = 1009.
Proof. vm_compute. done. Qed.
End ContentFacts.
