(* ===== verification/BlockDatabase.v ===== *)
(** * The block database

    Models block_database.cpp: every block at the end of the file [blocks], and in
    the file [index] one entry of fixed size for every block number, which says where
    the block is.  A file is the list of what it holds; a seek past its end leaves
    zeros.  [fc::raw] is the class [Packed].  A read past the end of a file fails with
    an [std::ios_base::failure]. *)

From S2P Require Import Prelude.
From S2P Require Import ForkDatabase.

Class Packed (B : Type) := {
  pack_to_vector : B -> list Byte.byte;
  unpack_from_vector : list Byte.byte -> result B
}.
Class PackedOk (B : Type) `{Packed B} : Prop := {
  unpack_pack : forall b : B, unpack_from_vector (pack_to_vector b) = Ok b;
  pack_size : forall b : B, 0 < Z.of_nat (length (pack_to_vector b)) < 2 ^ 32;
  unpack_empty : is_ok (unpack_from_vector (B:=B) []) = false
}.

Record index_entry := IndexEntry { block_pos : Z; block_size : Z; block_id_at : block_id }.
#[export] Instance eta_index_entry : Settable index_entry := fun e => IndexEntry (block_pos e) (block_size e) (block_id_at e).
Definition zero_entry : index_entry := IndexEntry 0 0 null_id.

Record block_database := BlockDb { block_num_to_pos : list index_entry; blocks : list Byte.byte }.
#[export] Instance eta_block_database : Settable block_database := fun s => BlockDb (block_num_to_pos s) (blocks s).

Module BlockDatabase.
Section BlockDatabase.
Context {B : Type} {Data : BlockData B} {Pack : Packed B}.

Definition empty : block_database := BlockDb [] [].

(** [seekp( sizeof( e ) * i ); write( e )] *)
Definition write_at (i : nat) (e : index_entry) (l : list index_entry) : list index_entry :=
  if (i <? length l)%nat then <[i := e]> l else l ++ replicate (i - length l) zero_entry ++ [e].
Definition entry_at (num : Z) (s : block_database) : option index_entry := block_num_to_pos s !! Z.to_nat num.

(** [seekg( pos ); read( size )] *)
Definition read_at (pos size : Z) (s : block_database) : result (list Byte.byte) :=
  if pos + size <=? Z.of_nat (length (blocks s)) then Ok (take (Z.to_nat size) (drop (Z.to_nat pos) (blocks s)))
  else Throw std_ios_failure.

Definition store (_id : block_id) (b : B) (s : block_database) : block_database :=
  let id := if bool_decide (_id = null_id) then block_id_of b else _id in
  let num := num_from_id id in
  let vec := pack_to_vector b in
  let e := IndexEntry (Z.of_nat (length (blocks s))) (u32 (Z.of_nat (length vec))) id in
  BlockDb (write_at (Z.to_nat num) e (block_num_to_pos s)) (blocks s ++ vec).

Definition remove (id : block_id) (s : block_database) : result block_database :=
  match entry_at (num_from_id id) s with
  | None => Throw key_not_found_exception
  | Some e =>
      Ok (if bool_decide (block_id_at e = id)
          then s <| block_num_to_pos ::= <[Z.to_nat (num_from_id id) := e <| block_size := 0 |>]> |> else s)
  end.

Definition contains (id : block_id) (s : block_database) : bool :=
  if bool_decide (id = null_id) then false
  else match entry_at (num_from_id id) s with
       | None => false
       | Some e => bool_decide (block_id_at e = id) && (block_size e >? 0)
       end.

Definition fetch_block_id (block_num : Z) (s : block_database) : result block_id :=
  if block_num =? 0 then Throw undefined_behaviour
  else match entry_at block_num s with
       | None => Throw key_not_found_exception
       | Some e => _ ← fc_assert (negb (bool_decide (block_id_at e = null_id))); Ok (block_id_at e)
       end.

(** The block of an entry, checked against the id of the entry. *)
Definition read_block (e : index_entry) (s : block_database) : result B :=
  data ← read_at (block_pos e) (block_size e) s;
  b ← unpack_from_vector data;
  _ ← fc_assert (bool_decide (block_id_of b = block_id_at e));
  Ok b.

(** Every exception means that there is no block. *)
Definition fetch_optional (id : block_id) (s : block_database) : option B :=
  match entry_at (num_from_id id) s with
  | None => None
  | Some e =>
      if negb (bool_decide (block_id_at e = id)) then None
      else match read_block e s with Ok b => Some b | Throw _ => None end
  end.
Definition fetch_by_number (block_num : Z) (s : block_database) : option B :=
  match entry_at block_num s with
  | None => None
  | Some e => match read_block e s with Ok b => Some b | Throw _ => None end
  end.

(** From the end of the index, here in reverse: an entry that names no complete
    block is cut off; what is left of the index is returned with the entry. *)
Fixpoint last_entry_loop (l : list index_entry) (s : block_database) : option index_entry * list index_entry :=
  match l with
  | [] => (None, [])
  | e :: l' =>
      if (block_size e >? 0) && (block_pos e + block_size e <=? Z.of_nat (length (blocks s)))
         && is_ok (read_block e s)
      then (Some e, l) else last_entry_loop l' s
  end.
Definition last_index_entry (s : block_database) : option index_entry * block_database :=
  let '(e, l) := last_entry_loop (rev (block_num_to_pos s)) s in (e, s <| block_num_to_pos := rev l |>).

Definition last (s : block_database) : option B * block_database :=
  let '(e, s) := last_index_entry s in
  (match e with Some e => fetch_by_number (num_from_id (block_id_at e)) s | None => None end, s).
Definition last_id (s : block_database) : option block_id * block_database :=
  let '(e, s) := last_index_entry s in (block_id_at <$> e, s).

End BlockDatabase.
End BlockDatabase.
