(* ===== verification/BlockDatabaseFacts.v ===== *)
(** * The block database stores blocks

    As long as blocks are stored under their ids, the two files together are a map
    from block numbers to blocks. *)

From S2P Require Import Prelude.
From S2P Require Import ForkDatabase.
From S2P Require Import BlockDatabase.

Module BlockDatabaseFacts.
Import BlockDatabase.

Section Facts.
Context {B : Type} {Data : BlockData B} {Pack : Packed B} {PackOk : PackedOk B}.

(** Every entry with a size describes a complete block of its number. *)
Definition entry_ok (s : block_database) (n : nat) (e : index_entry) : Prop :=
  0 <= block_pos e /\ 0 <= block_size e /\
  (0 < block_size e -> Z.to_nat (num_from_id (block_id_at e)) = n /\ is_ok (read_block (B:=B) e s) = true).
Definition wf (s : block_database) : Prop := forall n e, block_num_to_pos s !! n = Some e -> entry_ok s n e.

(** ** Reading *)

Lemma read_nothing e s : block_size e = 0 -> is_ok (read_block (B:=B) e s) = false.
Proof.
  intros He. unfold read_block, read_at. rewrite He. case_match; [|done]. cbn.
  change (Z.to_nat 0) with 0%nat. rewrite take_0. pose proof (unpack_empty (B:=B)) as Hu.
  by destruct (unpack_from_vector (B:=B) []) as [x|].
Qed.

Lemma read_at_app pos size s l data : 0 <= pos -> 0 <= size -> read_at pos size s = Ok data ->
  read_at pos size (s <| blocks ::= fun x => x ++ l |>) = Ok data.
Proof.
  unfold read_at. cbn. intros Hp Hz. destruct (pos + size <=? Z.of_nat (length (blocks s))) eqn:E; [|done]. intros [= <-].
  rewrite length_app, (proj2 (Z.leb_le _ _)) by lia. rewrite drop_app_le by lia. by rewrite take_app_le by (rewrite length_drop; lia).
Qed.
Lemma read_at_index pos size s f : read_at pos size (s <| block_num_to_pos ::= f |>) = read_at pos size s.
Proof. done. Qed.

Lemma read_block_app e s l b : 0 <= block_pos e -> 0 <= block_size e -> read_block e s = Ok b ->
  read_block e (s <| blocks ::= fun x => x ++ l |>) = Ok b.
Proof.
  unfold read_block. intros Hp Hz (data & Hd & H)%bind_Ok. by rewrite (read_at_app _ _ _ _ _ Hp Hz Hd).
Qed.
Lemma read_block_Ok e s (b : B) : read_block e s = Ok b -> block_id_of b = block_id_at e.
Proof.
  unfold read_block. intros (data & _ & H)%bind_Ok. apply bind_Ok in H as (x & _ & H).
  apply bind_Ok in H as (u & Hx%fc_assert_Ok & [= <-]). by apply bool_decide_eq_true in Hx.
Qed.

(** ** Writing *)

Lemma write_at_lookup i e l j : write_at i e l !! j =
  if decide (j = i) then Some e
  else if (j <? length l)%nat then l !! j else if (j <? i)%nat then Some zero_entry else None.
Proof.
  unfold write_at. destruct (i <? length l)%nat eqn:E; apply Nat.ltb_lt in E || apply Nat.ltb_ge in E.
  - destruct (decide (j = i)) as [->|Hj]; [by apply list_lookup_insert_eq|]. rewrite list_lookup_insert_ne by done.
    destruct (j <? length l)%nat eqn:E1; [done|]. apply Nat.ltb_ge in E1. destruct (j <? i)%nat eqn:E2; [apply Nat.ltb_lt in E2; lia|].
    by apply lookup_ge_None.
  - destruct (j <? length l)%nat eqn:E1; apply Nat.ltb_lt in E1 || apply Nat.ltb_ge in E1.
    + destruct (decide (j = i)) as [->|Hj]; [lia|]. by rewrite lookup_app_l.
    + rewrite lookup_app_r by done. destruct (decide (j = i)) as [->|Hj].
      * rewrite lookup_app_r by (rewrite length_replicate; lia). rewrite length_replicate.
        by replace (i - length l - (i - length l))%nat with 0%nat by lia.
      * destruct (j <? i)%nat eqn:E2; apply Nat.ltb_lt in E2 || apply Nat.ltb_ge in E2.
        -- rewrite lookup_app_l by (rewrite length_replicate; lia). apply lookup_replicate. split; [done|lia].
        -- apply lookup_ge_None. rewrite length_app, length_replicate. cbn. lia.
Qed.

Definition entry_of (b : B) (s : block_database) : index_entry :=
  IndexEntry (Z.of_nat (length (blocks s))) (u32 (Z.of_nat (length (pack_to_vector b)))) (block_id_of b).
Definition stored (b : B) (s : block_database) : block_database :=
  BlockDb (write_at (Z.to_nat (block_num b)) (entry_of b s) (block_num_to_pos s)) (blocks s ++ pack_to_vector b).
Lemma store_stored b s : store (block_id_of b) b s = stored b s.
Proof. unfold store. by case_bool_decide. Qed.

Lemma read_stored b s : read_block (entry_of b s) (stored b s) = Ok b.
Proof.
  pose proof (pack_size b). unfold read_block, read_at. cbn. rewrite length_app.
  assert (E : u32 (Z.of_nat (length (pack_to_vector b))) = Z.of_nat (length (pack_to_vector b))) by (apply wrap_small; lia).
  rewrite E, (proj2 (Z.leb_le _ _)) by lia. cbn. rewrite !Nat2Z.id, drop_app_length, take_ge by done. rewrite unpack_pack. cbn.
  by rewrite bool_decide_true.
Qed.
Lemma read_old e b s x : 0 <= block_pos e -> 0 <= block_size e -> read_block e s = Ok x -> read_block e (stored b s) = Ok x.
Proof. intros Hp Hz H. exact (read_block_app e s (pack_to_vector b) x Hp Hz H). Qed.

Lemma stored_size b s : 0 < block_size (entry_of b s).
Proof. cbn. pose proof (pack_size b). rewrite (wrap_small 32); lia. Qed.

Lemma wf_stored b s : wf s -> wf (stored b s).
Proof.
  intros Hs n e. cbn. rewrite write_at_lookup. destruct (decide _) as [->|Hn].
  - intros [= <-]. split_and!; [cbn; lia|pose proof (stored_size b s); lia|]. intros _. by rewrite read_stored.
  - case_match eqn:E1.
    + intros (Hp & Hz & Hr)%Hs. split_and!; [done..|]. intros Hz'. destruct (Hr Hz') as [Hn' Hok]. split; [done|].
      destruct (read_block e s) as [x|] eqn:E; [|done]. by rewrite (read_old _ _ _ x).
    + case_match; [|done]. intros [= <-]. by split_and!.
Qed.

(** ** Looking up *)

Definition found (n : Z) (s : block_database) : option (index_entry * B) :=
  e ← entry_at n s; match read_block e s with Ok b => Some (e, b) | Throw _ => None end.
Lemma by_number_found n s : fetch_by_number n s = snd <$> found n s.
Proof. unfold fetch_by_number, found. destruct (entry_at n s); [|done]. cbn. by destruct (read_block _ _). Qed.
Lemma optional_found id s : fetch_optional id s = x ← found (num_from_id id) s; if decide (block_id_at x.1 = id) then Some (x.2 : B) else None.
Proof.
  unfold fetch_optional, found. destruct (entry_at _ s) as [e|]; [|done]. cbn. case_bool_decide as H; cbn.
  - destruct (read_block e s); [|done]. cbn. by rewrite decide_True.
  - destruct (read_block e s); [|done]. cbn. by rewrite decide_False.
Qed.
Lemma found_id n s e b : found n s = Some (e, b) -> block_id_at e = block_id_of b.
Proof.
  unfold found. destruct (entry_at n s) as [e'|]; [|done]. cbn. destruct (read_block e' s) as [b'|] eqn:E; [|done].
  intros [= <- <-]. by apply read_block_Ok in E.
Qed.
Lemma found_size n s e b : wf s -> found n s = Some (e, b) -> 0 < block_size e.
Proof.
  intros Hs. unfold found. destruct (entry_at n s) as [e'|] eqn:E; [|done]. cbn. destruct (read_block e' s) as [b'|] eqn:Er; [|done].
  intros [= <- <-]. destruct (Hs _ _ E) as (_ & Hz & _). pose proof (read_nothing e' s) as Hn. rewrite Er in Hn. cbn in Hn.
  destruct (decide (block_size e' = 0)) as [H0|]; [by specialize (Hn H0)|lia].
Qed.
Lemma read_stored_old s e b x n : wf s -> block_num_to_pos s !! n = Some e ->
  read_block e (stored b s) = Ok x <-> read_block e s = Ok x.
Proof.
  intros Hs He. destruct (Hs _ _ He) as (Hp & Hz & Hr). destruct (decide (block_size e = 0)) as [H0|].
  - pose proof (read_nothing e s H0). pose proof (read_nothing e (stored b s) H0).
    destruct (read_block e s), (read_block e (stored b s)); done.
  - destruct (Hr ltac:(lia)) as [_ Hok]. destruct (read_block e s) as [y|] eqn:E; [|done].
    by rewrite (read_old _ _ _ y).
Qed.

Lemma found_stored b s n : wf s -> 0 <= n ->
  found n (stored b s) = if n =? block_num b then Some (entry_of b s, b) else found n s.
Proof.
  intros Hs Hn. unfold found, entry_at. cbn. rewrite write_at_lookup.
  assert (Hb : 0 <= block_num b) by (unfold block_num, u32; apply wrap_bounds; lia).
  destruct (n =? block_num b) eqn:E.
  - rewrite decide_True by lia. cbn. by rewrite read_stored.
  - rewrite decide_False by lia. case_match eqn:El.
    + destruct (block_num_to_pos s !! Z.to_nat n) as [e|] eqn:Ee; [|done]. cbn.
      pose proof (fun x => read_stored_old s e b x _ Hs Ee) as Hr.
      destruct (read_block e (stored b s)) as [x|] eqn:E1, (read_block e s) as [y|] eqn:E2; [|..|done].
      * destruct (Hr y) as [_ Hy]. specialize (Hy eq_refl). by simplify_eq.
      * by destruct (Hr x) as [Hx _]; specialize (Hx eq_refl).
      * by destruct (Hr y) as [_ Hy]; specialize (Hy eq_refl).
    + apply Nat.ltb_ge, lookup_ge_None in El. rewrite El. cbn. case_match; [|done]. cbn.
      pose proof (read_nothing zero_entry (stored b s) eq_refl). by destruct (read_block zero_entry (stored b s)).
Qed.

(** ** Removing *)

Lemma remove_found id s s' : remove id s = Ok s' -> wf s -> 0 <= num_from_id id ->
  wf s' /\ forall n, 0 <= n ->
    found n s' = if (n =? num_from_id id) && bool_decide (block_id_at <$> entry_at n s = Some id) then None else found n s.
Proof.
  unfold remove. intros H Hs Hid. destruct (entry_at (num_from_id id) s) as [e|] eqn:E; [|done]. injection H as <-.
  case_bool_decide as He.
  - split.
    + intros n x. cbn. destruct (decide (n = Z.to_nat (num_from_id id))) as [->|Hn].
      * intros Hx. rewrite list_lookup_insert_eq in Hx by (by eapply lookup_lt_Some). injection Hx as <-.
        destruct (Hs _ _ E) as (Hp & _ & _). split_and!; cbn; [done|lia|lia].
      * rewrite list_lookup_insert_ne by done. intros Hx. exact (Hs _ _ Hx).
    + intros n Hn. unfold found, entry_at in *. cbn. destruct (decide (n = num_from_id id)) as [->|Hne].
      * rewrite list_lookup_insert_eq by (by eapply lookup_lt_Some). rewrite E, Z.eqb_refl. cbn. rewrite bool_decide_true by (by rewrite He). cbn.
        match goal with |- context[read_block ?x ?y] => pose proof (read_nothing x y eq_refl); by destruct (read_block x y) end.
      * rewrite list_lookup_insert_ne by lia. rewrite (proj2 (Z.eqb_neq _ _)) by done. done.
  - split; [done|]. intros n Hn. destruct (n =? num_from_id id) eqn:En; [|done]. apply Z.eqb_eq in En as ->.
    rewrite E. cbn. by rewrite bool_decide_false by congruence.
Qed.

(** ** The last block *)

Definition good (s : block_database) (e : index_entry) : bool := is_ok (read_block (B:=B) e s).

Lemma last_loop_spec s idx : Forall (fun e => 0 <= block_size e) idx ->
  let '(e, l) := last_entry_loop (B:=B) (rev idx) s in
  exists bad, idx = rev l ++ bad /\ Forall (fun e => good s e = false) bad /\
    match e with Some e => good s e = true /\ exists l', rev l = l' ++ [e] | None => l = [] end.
Proof.
  induction idx as [|e idx IH] using rev_ind; intros Hz; [by exists []|]. apply Forall_app in Hz as [Hz [He _]%Forall_cons].
  rewrite rev_app_distr. cbn [rev app last_entry_loop]. fold (good s e). specialize (IH Hz).
  destruct ((block_size e >? 0) && (block_pos e + block_size e <=? Z.of_nat (length (blocks s))) && good s e) eqn:Eg.
  - exists []. rewrite app_nil_r. apply andb_true_iff in Eg as [_ Eg]. cbn. rewrite rev_involutive. by split_and!; [..|exists idx].
  - destruct (last_entry_loop (rev idx) s) as [x l]. destruct IH as (bad & E & Hbad & Hx). exists (bad ++ [e]).
    rewrite app_assoc, <- E. split_and!; [done| |done]. apply Forall_app. split; [done|]. apply Forall_singleton.
    destruct (block_size e >? 0) eqn:E1; [|apply read_nothing; lia]. cbn in Eg.
    destruct (block_pos e + block_size e <=? Z.of_nat (length (blocks s))) eqn:E2; [done|].
    unfold good, read_block, read_at. by rewrite E2.
Qed.

Lemma found_cut s n l bad : block_num_to_pos s = l ++ bad -> Forall (fun e => good s e = false) bad ->
  found n (s <| block_num_to_pos := l |>) = found n s.
Proof.
  intros E Hbad. unfold found, entry_at. cbn. rewrite E. destruct (decide (Z.to_nat n < length l)%nat).
  - by rewrite lookup_app_l.
  - rewrite (proj2 (lookup_ge_None l _)) by lia. rewrite lookup_app_r by lia. cbn.
    destruct (bad !! _) as [e|] eqn:Ee; [|done]. cbn. rewrite Forall_forall in Hbad.
    specialize (Hbad e (list_elem_of_lookup_2 _ _ _ Ee)). unfold good in Hbad. by destruct (read_block e s).
Qed.

(** C9 The two files of the block database are a map from numbers to blocks: a stored
    block is found under its number and its id, replaces the one of its number only,
    and is gone after its removal; [last] finds the block with the greatest number. *)
Theorem block_database_correct s : wf s ->
  (forall b : B, let s' := store (block_id_of b) b s in
     wf s' /\
     (forall n, 0 <= n -> fetch_by_number n s' = if n =? block_num b then Some b else fetch_by_number n s) /\
     (forall id, 0 <= num_from_id id -> fetch_optional id s' =
        if decide (id = block_id_of b) then Some b
        else if num_from_id id =? block_num b then None else fetch_optional id s)) /\
  (forall id s', 0 <= num_from_id id -> remove id s = Ok s' ->
     wf s' /\ fetch_optional (B:=B) id s' = None /\
     forall id', 0 <= num_from_id id' -> id' <> id -> fetch_optional (B:=B) id' s' = fetch_optional id' s) /\
  (let '(o, s') := last (B:=B) s in
   (forall n, fetch_by_number (B:=B) n s' = fetch_by_number n s) /\
   match o with
   | Some b => fetch_by_number (block_num b) s = Some b /\ forall n, block_num b < n -> fetch_by_number (B:=B) n s = None
   | None => forall n, fetch_by_number (B:=B) n s = None
   end).
Proof.
  intros Hs. split; [|split].
  - intros b. cbv zeta. rewrite store_stored. split; [by apply wf_stored|]. split.
    + intros n Hn. rewrite !by_number_found, found_stored by done. by case_match.
    + intros id Hid. rewrite !optional_found, found_stored by done.
      change (block_num b) with (num_from_id (block_id_of b)). case_match eqn:E; cbn.
      * destruct (decide (block_id_of b = id)) as [->|Hne]; [by rewrite decide_True|]. by rewrite decide_False by congruence.
      * rewrite decide_False; [done|]. intros ->. lia.
  - intros id s' Hid H. destruct (remove_found id s s' H Hs Hid) as [Hs' Hf]. split; [done|]. split.
    + rewrite optional_found, Hf by done. rewrite Z.eqb_refl. cbn. case_bool_decide as He; [done|].
      unfold found. destruct (entry_at (num_from_id id) s) as [e|] eqn:Ee; [|done]. cbn. destruct (read_block e s); [|done]. cbn.
      rewrite decide_False; [done|]. intros E. apply He. cbn. by rewrite E.
    + intros id' Hid' Hne. rewrite !optional_found, Hf by done. case_match eqn:E; [|done]. cbn.
      apply andb_true_iff in E as [_ E%bool_decide_eq_true]. unfold found. destruct (entry_at (num_from_id id') s) as [e|]; [|done].
      cbn in *. destruct (read_block e s); [|done]. cbn. rewrite decide_False; [done|]. congruence.
  - unfold last, last_index_entry. pose proof (last_loop_spec s (block_num_to_pos s)) as Hl.
    destruct (last_entry_loop (rev (block_num_to_pos s)) s) as [o l]. destruct Hl as (bad & E & Hbad & Ho).
    { apply Forall_lookup. intros n e He. apply (Hs n e He). }
    assert (Hf : forall n, found n (s <| block_num_to_pos := rev l |>) = found n s) by (intros n; by eapply found_cut).
    assert (Hbn : forall n, fetch_by_number (B:=B) n (s <| block_num_to_pos := rev l |>) = fetch_by_number n s) by (intros n; by rewrite !by_number_found, Hf).
    split; [exact Hbn|]. destruct o as [e|].
    + destruct Ho as [Hg (l' & El)]. rewrite Hbn.
      assert (He : block_num_to_pos s !! length l' = Some e).
      { rewrite E, El, <- app_assoc. by rewrite lookup_app_r, Nat.sub_diag. }
      destruct (Hs _ _ He) as (Hp & Hz & Hr). unfold good in Hg. destruct (read_block e s) as [b|] eqn:Er; [|done].
      destruct (decide (block_size e = 0)) as [H0|H0]; [pose proof (read_nothing e s H0) as Hn; by rewrite Er in Hn|].
      destruct (Hr ltac:(lia)) as [Hnum _]. apply read_block_Ok in Er as Eid.
      assert (Hb : fetch_by_number (num_from_id (block_id_at e)) s = Some b).
      { unfold fetch_by_number, entry_at. by rewrite Hnum, He, Er. }
      rewrite Hb. change (block_num b) with (num_from_id (block_id_of b)). rewrite Eid. split; [done|].
      intros n Hn. rewrite by_number_found, <- Hf. unfold found, entry_at. cbn. rewrite (proj2 (lookup_ge_None _ _)); [done|].
      rewrite El, length_app. cbn. assert (0 <= num_from_id (block_id_at e)); [|lia].
      rewrite <- Eid. unfold num_from_id, block_id_of. cbn. unfold block_num, u32. apply wrap_bounds. lia.
    + subst l. intros n. rewrite by_number_found, <- Hf. unfold found, entry_at. cbn. by rewrite lookup_nil.
Qed.
End Facts.

(** ** Two blocks of bytes *)

Record tiny := Tiny { t_previous : Byte.byte; t_digest : Byte.byte }.
Definition num_of (x : Byte.byte) : Z := Z.of_N (Byte.to_N x).
#[local] Instance tiny_data : BlockData tiny :=
  {| previous b := BlockId (num_of (t_previous b)) 0; digest b := num_of (t_digest b) |}.
#[local] Instance tiny_packed : Packed tiny := {|
  pack_to_vector b := [t_previous b; t_digest b];
  unpack_from_vector l := match l with [x; y] => Ok (Tiny x y) | _ => Throw std_exception end |}.
#[local] Instance tiny_ok : PackedOk tiny.
Proof. split; [by intros []|done|done]. Qed.

Definition b1 : tiny := Tiny Byte.x00 Byte.x61.
Definition b2 : tiny := Tiny Byte.x01 Byte.x62.
Definition b2' : tiny := Tiny Byte.x01 Byte.x63.

Lemma block_database_correct_witness :
  let s := store (block_id_of b2') b2' (store (block_id_of b2) b2 (store (block_id_of b1) b1 empty)) in
  fetch_by_number 2 s = Some b2' /\ fetch_optional (block_id_of b2) s = (None : option tiny) /\
  (last (B:=tiny) s).1 = Some b2'.
Proof.
  cbv zeta. assert (H0 : wf (B:=tiny) empty) by (intros n e; cbn; by rewrite lookup_nil).
  destruct (block_database_correct (B:=tiny) empty H0) as [H1 _]. destruct (H1 b1) as [W1 _].
  destruct (block_database_correct _ W1) as [H2 _]. destruct (H2 b2) as [W2 _].
  destruct (block_database_correct _ W2) as [H3 _]. destruct (H3 b2') as (_ & Hn & Hid).
  split; [apply Hn; done|]. split; [|vm_compute; reflexivity]. apply Hid. done.
Defined.
End BlockDatabaseFacts.
