(* ===== verification/Operations.v ===== *)
(** * Operations

    Models protocol/operations.hpp and operations.cpp: the tagged union of all
    operations, what [validate] asks of each ([operation_validate]), and the
    authorities each requires ([operation_get_required_authorities]); also
    protocol/proposal.cpp.  The validation of an operation whose component has a file
    of its own is in that file.  A proposed operation is wrapped in the code to break
    the circle of definitions; here the type is recursive. *)

From S2P Require Import Prelude.
From S2P Require Import SafeInt.
From S2P Require Import Uint128.
From S2P Require Import Asset.
From S2P Require Import UndoDatabase.
From S2P Require Import Authority.
From S2P Require Import State.
From S2P Require Import Balance.
From S2P Require Import AssetEval.
From S2P Require Import Votes.
From S2P Require Import Social.
From S2P Require Import Vesting.
From S2P Require Import Delegations.
From S2P Require Import Market.
From S2P Require Import Streaming.
From S2P Require Import Accounts.
From S2P Require Import Content.

Definition BTCM_MAX_MEMO_SIZE : nat := 2048.

Module Operations.

(** ** The operations no other file has *)

Record custom_operation := CustomOp { cu_required_auths : list string; cu_id : Z; cu_data : string }.
Record custom_json_operation := CustomJsonOp {
  cj_required_auths : list string;
  cj_required_basic_auths : list string;
  cj_id : string;
  cj_json : string
}.
Record escrow_transfer_operation := EscrowTransferOp {
  et_from : string;
  et_to : string;
  et_amount : asset;
  et_memo : string;
  et_escrow_id : Z;
  et_agent : string;
  et_fee : asset;
  et_json_meta : string;
  et_expiration : Z
}.
Record escrow_dispute_operation := EscrowDisputeOp { ed_from : string; ed_to : string; ed_escrow_id : Z; ed_who : string }.
Record escrow_release_operation := EscrowReleaseOp {
  er_from : string;
  er_escrow_id : Z;
  er_to : string;
  er_who : string;
  er_amount : asset
}.
Record proposal_update_operation := ProposalUpdateOp {
  pu_proposal : Z;
  active_approvals_to_add : list string;
  active_approvals_to_remove : list string;
  owner_approvals_to_add : list string;
  owner_approvals_to_remove : list string;
  key_approvals_to_add : list public_key;
  key_approvals_to_remove : list public_key
}.
Record proposal_delete_operation := ProposalDeleteOp { pd_type : Z; pd_proposal : Z; pd_vetoer : string }.

(** [authority_type] *)
Definition type_owner : Z := 0.
Definition type_active : Z := 1.
Definition type_basic : Z := 2.

(** Notices of what the chain did; they are no part of a transaction. *)
Inductive virtual_operation :=
  | fill_convert_request_operation (owner : string) (requestid : Z) (amount_in amount_out : asset)
  | playing_reward_operation (platform url : string) (mbd_payout vesting_payout : asset)
  | content_reward_operation (payee url : string) (mbd_payout vesting_payout : asset)
  | curate_reward_operation (curator url : string) (mbd_payout vesting_payout : asset)
  | liquidity_reward_operation (owner : string) (payout : asset)
  | interest_operation (owner : string) (interest : asset)
  | fill_vesting_withdraw_operation (from_account to_account : string) (withdrawn deposited : asset)
  | fill_order_operation (current_owner : string) (current_orderid : Z) (current_pays : asset)
      (open_owner : string) (open_orderid : Z) (open_pays : asset)
  | return_vesting_delegation_operation (account : string) (vesting_shares : asset).

(** [operation] *)
Inductive operation :=
  | vote (o : Contents.vote_operation)
  | content (o : Contents.content_operation)
  | content_update (o : Contents.content_update_operation)
  | content_approve (o : Contents.content_approve_operation)
  | content_disable (o : Contents.content_disable_operation)
  | transfer (o : Balances.transfer_operation)
  | transfer_to_vesting (o : transfer_to_vesting_operation)
  | withdraw_vesting (o : withdraw_vesting_operation)
  | limit_order_create (o : Market.limit_order_create_operation)
  | limit_order_create2 (o : Market.limit_order_create2_operation)
  | limit_order_cancel (o : Market.limit_order_cancel_operation)
  | feed_publish (o : Market.feed_publish_operation)
  | convert (o : Market.convert_operation)
  | account_create (o : Accounts.account_create_operation)
  | account_update (o : Accounts.account_update_operation)
  | witness_update (o : witness_update_operation)
  | account_witness_vote (o : account_witness_vote_operation)
  | account_witness_proxy (o : account_witness_proxy_operation)
  | streaming_platform_update (o : Streaming.streaming_platform_update_operation)
  | account_streaming_platform_vote (o : account_streaming_platform_vote_operation)
  | streaming_platform_report (o : Streaming.streaming_platform_report_operation)
  | asset_create (o : asset_create_operation)
  | asset_update (o : asset_update_operation)
  | asset_issue (o : asset_issue_operation)
  | asset_reserve (o : asset_reserve_operation)
  | custom (o : custom_operation)
  | custom_json (o : custom_json_operation)
  | set_withdraw_vesting_route (o : set_withdraw_vesting_route_operation)
  | challenge_authority (o : Accounts.challenge_authority_operation)
  | prove_authority (o : Accounts.prove_authority_operation)
  | request_account_recovery (o : Accounts.request_account_recovery_operation)
  | recover_account (o : Accounts.recover_account_operation)
  | change_recovery_account (o : Accounts.change_recovery_account_operation)
  | escrow_transfer (o : escrow_transfer_operation)
  | escrow_dispute (o : escrow_dispute_operation)
  | escrow_release (o : escrow_release_operation)
  | proposal_create (proposed_ops : list operation) (expiration_time : Z) (review_period_seconds : option Z)
  | proposal_update (o : proposal_update_operation)
  | proposal_delete (o : proposal_delete_operation)
  | virtual (o : virtual_operation)
  | friendship (o : friendship_operation)
  | unfriend (o : unfriend_operation)
  | balance_claim (o : Contents.balance_claim_operation)
  | account_create_with_delegation (o : Accounts.account_create_with_delegation_operation)
  | delegate_vesting_shares (o : delegate_vesting_shares_operation)
  | request_stream_reporting (o : Streaming.request_stream_reporting_operation)
  | cancel_stream_reporting (o : Streaming.cancel_stream_reporting_operation).

(** A property of an operation holds if it holds of the operations without others
    inside, and of a proposal whenever it holds of what is proposed. *)
Lemma operation_nested (P : operation -> Prop) :
  (forall ops e r, Forall P ops -> P (proposal_create ops e r)) ->
  (forall op, (forall ops e r, op <> proposal_create ops e r) -> P op) -> forall op, P op.
Proof.
  intros Hc Ho. fix IH 1. intros op. destruct op; try (apply Ho; congruence).
  apply Hc. induction proposed_ops as [|op ops IHl]; constructor; [apply IH|exact IHl].
Qed.

(** [is_market_operation], [is_proposal_operation] *)
Definition is_market_operation (op : operation) : bool :=
  match op with
  | limit_order_create _ | limit_order_cancel _ | transfer _ | transfer_to_vesting _ => true
  | _ => false
  end.
Definition is_proposal_operation (op : operation) : bool :=
  match op with proposal_create _ _ _ => true | _ => false end.

(** ** [validate] *)

Section Validate.
Context {B : BoostMP} {T : TextChecks}.
Import Accounts.

Definition valid_name (name : string) : result unit := fc_assert (Names.is_valid_account_name name).

Definition transfer_validate (o : Balances.transfer_operation) : result unit :=
  _ ← valid_name (Balances.from o);
  _ ← valid_name (Balances.to o);
  _ ← fc_assert (amount (Balances.amt o) >? 0);
  _ ← fc_assert (String.length (Balances.memo o) <? BTCM_MAX_MEMO_SIZE)%nat;
  fc_assert (is_utf8 (Balances.memo o)).

Definition transfer_to_vesting_validate (o : transfer_to_vesting_operation) : result unit :=
  _ ← valid_name (tv_from o);
  _ ← fc_assert (is_asset_type (tv_amount o) BTCM_SYMBOL);
  _ ← (if Streaming.is_empty (tv_to o) then Ok tt else valid_name (tv_to o));
  b ← AssetOps.asset_gtb (tv_amount o) (Asset 0 BTCM_SYMBOL);
  fc_assert b.

Definition withdraw_vesting_validate (o : withdraw_vesting_operation) : result unit :=
  _ ← valid_name (wd_account o);
  _ ← fc_assert (is_asset_type (wd_vesting_shares o) VESTS_SYMBOL);
  fc_assert (amount (wd_vesting_shares o) >=? 0).

Definition set_withdraw_vesting_route_validate (o : set_withdraw_vesting_route_operation) : result unit :=
  _ ← valid_name (sr_from_account o);
  _ ← valid_name (sr_to_account o);
  fc_assert ((0 <=? sr_percent o) && (sr_percent o <=? BTCM_100_PERCENT)).

(** [chain_properties::validate] *)
Definition chain_properties_validate (p : ChainProps.t) : result unit :=
  _ ← fc_assert (amount (ChainProps.account_creation_fee p) >=? BTCM_MIN_ACCOUNT_CREATION_FEE);
  _ ← fc_assert (amount (ChainProps.streaming_platform_update_fee p) >=? BTCM_MIN_STREAMING_PLATFORM_CREATION_FEE);
  _ ← fc_assert (ChainProps.maximum_block_size p >=? BTCM_MIN_BLOCK_SIZE_LIMIT);
  _ ← fc_assert (ChainProps.mbd_interest_rate p >=? 0);
  fc_assert (ChainProps.mbd_interest_rate p <=? BTCM_100_PERCENT).

Definition witness_update_validate (o : witness_update_operation) : result unit :=
  _ ← valid_name (wu_owner o);
  _ ← fc_assert (0 <? String.length (wu_url o))%nat;
  _ ← fc_assert (String.length (wu_url o) <=? BTCM_MAX_WITNESS_URL_LENGTH)%nat;
  _ ← fc_assert (is_utf8 (wu_url o));
  _ ← assert_geb (wu_fee o) (Asset 0 BTCM_SYMBOL);
  chain_properties_validate (wu_props o).

Definition account_witness_vote_validate (o : account_witness_vote_operation) : result unit :=
  _ ← valid_name (wv_account o); valid_name (wv_witness o).

Definition account_witness_proxy_validate (o : account_witness_proxy_operation) : result unit :=
  _ ← valid_name (wp_account o);
  _ ← (if Streaming.is_empty (wp_proxy o) then Ok tt else valid_name (wp_proxy o));
  fc_assert (negb (String.eqb (wp_proxy o) (wp_account o))).

Definition streaming_platform_update_validate (o : Streaming.streaming_platform_update_operation) : result unit :=
  _ ← valid_name (Streaming.su_owner o);
  _ ← fc_assert (0 <? String.length (Streaming.su_url o))%nat;
  _ ← assert_geb (Streaming.su_fee o) (Asset BTCM_MIN_STREAMING_PLATFORM_CREATION_FEE BTCM_SYMBOL);
  fc_assert (is_utf8 (Streaming.su_url o)).

Definition account_streaming_platform_vote_validate (o : account_streaming_platform_vote_operation) : result unit :=
  _ ← valid_name (pv_account o); valid_name (pv_streaming_platform o).

Definition custom_validate (o : custom_operation) : result unit :=
  fc_assert (negb (Verify.is_nil (cu_required_auths o))).
Definition custom_json_validate (o : custom_json_operation) : result unit :=
  _ ← fc_assert (negb (Verify.is_nil (cj_required_auths o) && Verify.is_nil (cj_required_basic_auths o)));
  _ ← fc_assert (String.length (cj_id o) <=? 32)%nat;
  _ ← fc_assert (is_utf8 (cj_json o));
  fc_assert (json_is_valid (cj_json o)).

Definition escrow_transfer_validate (o : escrow_transfer_operation) : result unit :=
  _ ← valid_name (et_from o);
  _ ← valid_name (et_to o);
  _ ← valid_name (et_agent o);
  _ ← fc_assert (amount (et_fee o) >=? 0);
  _ ← fc_assert (amount (et_amount o) >=? 0);
  _ ← fc_assert (negb (String.eqb (et_from o) (et_agent o)) && negb (String.eqb (et_to o) (et_agent o)));
  _ ← fc_assert (asset_id (et_fee o) =? asset_id (et_amount o));
  fc_assert (negb (asset_id (et_amount o) =? VESTS_SYMBOL)).
Definition escrow_dispute_validate (o : escrow_dispute_operation) : result unit :=
  _ ← valid_name (ed_from o);
  _ ← valid_name (ed_to o);
  _ ← valid_name (ed_who o);
  fc_assert (String.eqb (ed_who o) (ed_from o) || String.eqb (ed_who o) (ed_to o)).
Definition escrow_release_validate (o : escrow_release_operation) : result unit :=
  _ ← valid_name (er_from o);
  _ ← valid_name (er_to o);
  _ ← valid_name (er_who o);
  _ ← fc_assert (amount (er_amount o) >? 0);
  fc_assert (negb (asset_id (er_amount o) =? VESTS_SYMBOL)).

Definition friendship_validate (o : friendship_operation) : result unit := _ ← valid_name (fr_who o); valid_name (fr_whom o).
Definition unfriend_validate (o : unfriend_operation) : result unit := _ ← valid_name (un_who o); valid_name (un_whom o).

Definition delegate_vesting_shares_validate (o : delegate_vesting_shares_operation) : result unit :=
  _ ← valid_name (dv_delegator o);
  _ ← valid_name (dv_delegatee o);
  _ ← fc_assert (negb (String.eqb (dv_delegator o) (dv_delegatee o)));
  _ ← fc_assert (is_asset_type (dv_vesting_shares o) VESTS_SYMBOL);
  assert_geb (dv_vesting_shares o) (Asset 0 VESTS_SYMBOL).

(** No approval is added and removed at once. *)
Definition disjoint_approvals {K} (lt : K -> K -> bool) (to_add to_remove : list K) : result unit :=
  fc_assert (forallb (fun a => negb (Flat.mem lt a to_remove)) to_add).

Definition proposal_update_validate (o : proposal_update_operation) : result unit :=
  _ ← fc_assert (negb (Verify.is_nil (active_approvals_to_add o) && Verify.is_nil (active_approvals_to_remove o)
        && Verify.is_nil (owner_approvals_to_add o) && Verify.is_nil (owner_approvals_to_remove o)
        && Verify.is_nil (key_approvals_to_add o) && Verify.is_nil (key_approvals_to_remove o)));
  _ ← disjoint_approvals String.ltb (active_approvals_to_add o) (active_approvals_to_remove o);
  _ ← disjoint_approvals String.ltb (owner_approvals_to_add o) (owner_approvals_to_remove o);
  disjoint_approvals Z.ltb (key_approvals_to_add o) (key_approvals_to_remove o).

Definition proposal_delete_validate (o : proposal_delete_operation) : result unit :=
  _ ← fc_assert (negb (Streaming.is_empty (pd_vetoer o)));
  fc_assert ((pd_type o =? type_active) || (pd_type o =? type_owner) || (pd_type o =? type_basic)).

(** [operation_validate]: a virtual operation is never valid. *)
Fixpoint operation_validate (op : operation) : result unit :=
  match op with
  | vote o => Contents.vote_validate o
  | content o => Contents.content_validate o
  | content_update o => Contents.content_update_validate o
  | content_approve o => Contents.content_approve_validate o
  | content_disable o => Contents.content_disable_validate o
  | transfer o => transfer_validate o
  | transfer_to_vesting o => transfer_to_vesting_validate o
  | withdraw_vesting o => withdraw_vesting_validate o
  | limit_order_create o => Market.limit_order_create_validate o
  | limit_order_create2 o => Market.limit_order_create2_validate o
  | limit_order_cancel o => Market.limit_order_cancel_validate o
  | feed_publish o => Market.feed_publish_validate o
  | convert o => Market.convert_validate o
  | account_create o => account_create_validate o
  | account_update o => account_update_validate o
  | witness_update o => witness_update_validate o
  | account_witness_vote o => account_witness_vote_validate o
  | account_witness_proxy o => account_witness_proxy_validate o
  | streaming_platform_update o => streaming_platform_update_validate o
  | account_streaming_platform_vote o => account_streaming_platform_vote_validate o
  | streaming_platform_report o => Streaming.streaming_platform_report_validate o
  | asset_create o => AssetEval.create_validate o
  | asset_update o => AssetEval.update_validate o
  | asset_issue o => AssetEval.issue_validate o
  | asset_reserve o => AssetEval.reserve_validate o
  | custom o => custom_validate o
  | custom_json o => custom_json_validate o
  | set_withdraw_vesting_route o => set_withdraw_vesting_route_validate o
  | challenge_authority o => challenge_authority_validate o
  | prove_authority o => prove_authority_validate o
  | request_account_recovery o => request_account_recovery_validate o
  | recover_account o => recover_account_validate o
  | change_recovery_account o => change_recovery_account_validate o
  | escrow_transfer o => escrow_transfer_validate o
  | escrow_dispute o => escrow_dispute_validate o
  | escrow_release o => escrow_release_validate o
  | proposal_create proposed_ops _ _ =>
      _ ← fc_assert (negb (Verify.is_nil proposed_ops));
      foldM (fun _ op => operation_validate op) tt proposed_ops
  | proposal_update o => proposal_update_validate o
  | proposal_delete o => proposal_delete_validate o
  | virtual _ => Throw assert_exception
  | friendship o => friendship_validate o
  | unfriend o => unfriend_validate o
  | balance_claim o => Contents.balance_claim_validate o
  | account_create_with_delegation o => account_create_with_delegation_validate o
  | delegate_vesting_shares o => delegate_vesting_shares_validate o
  | request_stream_reporting o => Streaming.request_stream_reporting_validate o
  | cancel_stream_reporting o => Streaming.cancel_stream_reporting_validate o
  end.
End Validate.

(** ** The authorities required *)

Definition no_requirements : requirements := Requirements [] [] [] [] [] [].

Definition require_active (a : string) (r : requirements) : requirements := r <| required_active ::= Flat.insert String.ltb a |>.
Definition require_owner (a : string) (r : requirements) : requirements := r <| required_owner ::= Flat.insert String.ltb a |>.
Definition require_basic (a : string) (r : requirements) : requirements := r <| required_basic ::= Flat.insert String.ltb a |>.
Definition require_master_content (u : string) (r : requirements) : requirements :=
  r <| required_master_content ::= Flat.insert String.ltb u |>.
Definition require_comp_content (u : string) (r : requirements) : requirements :=
  r <| required_comp_content ::= Flat.insert String.ltb u |>.
Definition require_other (a : authority) (r : requirements) : requirements := r <| other ::= fun l => l ++ [a] |>.
Definition require_each (f : string -> requirements -> requirements) (l : list string) (r : requirements) : requirements :=
  foldl (fun r a => f a r) r l.

(** The keys whose approval an update changes, all of them. *)
Definition changed_keys (o : proposal_update_operation) : authority :=
  let add_keys := foldl (fun m k => Flat.set Z.ltb k 1 m) in
  let key_auths := add_keys (add_keys [] (key_approvals_to_add o)) (key_approvals_to_remove o) in
  Auth (u32 (Z.of_nat (length key_auths))) [] key_auths.

(** [operation_get_required_authorities] *)
Definition operation_get_required_authorities (op : operation) (r : requirements) : requirements :=
  match op with
  | vote o => require_basic (Contents.vo_voter o) r
  | content o => require_active (Contents.co_uploader o) r
  | content_update o =>
      let both := negb (Contents.cu_new_playing_reward o =? 0) || negb (Contents.cu_new_publishers_share o =? 0) in
      let r := if (Contents.cu_side o =? Contents.side_master) || both then require_master_content (Contents.cu_url o) r else r in
      if (Contents.cu_side o =? Contents.side_publisher) || both then require_comp_content (Contents.cu_url o) r else r
  | content_approve o => require_basic (Contents.ca_approver o) r
  | content_disable o => require_master_content (Contents.cd_url o) r
  | transfer o =>
      if asset_id (Balances.amt o) =? VESTS_SYMBOL then require_owner (Balances.from o) r
      else require_active (Balances.from o) r
  | transfer_to_vesting o => require_active (tv_from o) r
  | withdraw_vesting o => require_active (wd_account o) r
  | limit_order_create o => require_active (Market.lc_owner o) r
  | limit_order_create2 o => require_active (Market.l2_owner o) r
  | limit_order_cancel o => require_active (Market.lx_owner o) r
  | feed_publish o => require_active (Market.fp_publisher o) r
  | convert o => require_active (Market.cv_owner o) r
  | account_create o => require_active (Accounts.ac_creator o) r
  | account_update o =>
      if Accounts.is_given (Accounts.au_owner o) then require_owner (Accounts.au_account o) r
      else require_active (Accounts.au_account o) r
  | witness_update o => require_active (wu_owner o) r
  | account_witness_vote o => require_basic (wv_account o) r
  | account_witness_proxy o => require_basic (wp_account o) r
  | streaming_platform_update o => require_active (Streaming.su_owner o) r
  | account_streaming_platform_vote o => require_basic (pv_account o) r
  | streaming_platform_report o => require_active (Streaming.rp_streaming_platform o) r
  | asset_create o => require_active (create_issuer o) r
  | asset_update o => require_active (update_issuer o) r
  | asset_issue o => require_active (issue_issuer o) r
  | asset_reserve o => require_active (reserve_issuer o) r
  | custom o => require_each require_active (cu_required_auths o) r
  | custom_json o => require_each require_basic (cj_required_basic_auths o) (require_each require_active (cj_required_auths o) r)
  | set_withdraw_vesting_route o => require_active (sr_from_account o) r
  | challenge_authority o => require_active (Accounts.ch_challenger o) r
  | prove_authority o =>
      if Accounts.pa_require_owner o then require_owner (Accounts.pa_challenged o) r
      else require_active (Accounts.pa_challenged o) r
  | request_account_recovery o => require_active (Accounts.rr_recovery_account o) r
  | recover_account o =>
      require_other (Accounts.rc_recent_owner_authority o) (require_other (Accounts.rc_new_owner_authority o) r)
  | change_recovery_account o => require_owner (Accounts.cr_account_to_recover o) r
  | escrow_transfer o => require_active (et_from o) r
  | escrow_dispute o => require_active (ed_who o) r
  | escrow_release o => require_active (er_who o) r
  | proposal_create _ _ _ => r
  | proposal_update o =>
      let r := require_each require_active (active_approvals_to_add o) r in
      let r := require_each require_active (active_approvals_to_remove o) r in
      let r := require_each require_owner (owner_approvals_to_add o) r in
      let r := require_each require_owner (owner_approvals_to_remove o) r in
      let auth := changed_keys o in
      if weight_threshold auth >? 0 then require_other auth r else r
  | proposal_delete o =>
      if pd_type o =? type_active then require_active (pd_vetoer o) r
      else if pd_type o =? type_owner then require_owner (pd_vetoer o) r
      else if pd_type o =? type_basic then require_basic (pd_vetoer o) r else r
  | virtual _ => r
  | friendship o => require_basic (fr_who o) r
  | unfriend o => require_basic (un_who o) r
  | balance_claim o => require_other (Auth 100 [] [(Contents.bc_balance_owner_key o, 100)]) r
  | account_create_with_delegation o => require_active (Accounts.ad_creator o) r
  | delegate_vesting_shares o => require_active (dv_delegator o) r
  | request_stream_reporting o => require_active (Streaming.rs_requestor o) r
  | cancel_stream_reporting o => require_active (Streaming.cs_requestor o) r
  end.

(** [transaction::get_required_authorities] *)
Definition get_required_authorities (ops : list operation) (r : requirements) : requirements :=
  foldl (fun r op => operation_get_required_authorities op r) r ops.

End Operations.
