(* ===== verification/Proposals.v ===== *)
(** * Proposed transactions

    Models proposal_evaluator.cpp and proposal_object.cpp, [apply_operation],
    [push_proposal] and [clear_expired_proposals] of database.cpp, and the dispatch of
    an operation to its evaluator.  The state [chain] is the database of file [State]
    with the tables that hold operations: proposals and the transactions of the last
    hour, and the summaries of past blocks.  Where [push_proposal] fails, its undo
    session has restored the state (file [UndoDatabase]): a handler of the exception
    runs on the state before. *)

From S2P Require Import Prelude.
From S2P Require Import SafeInt.
From S2P Require Import Uint128.
From S2P Require Import Asset.
From S2P Require Import UndoDatabase.
From S2P Require Import Authority.
From S2P Require Import ForkDatabase.
From S2P Require Import State.
From S2P Require Import Balance.
From S2P Require Import AssetEval.
From S2P Require Import Votes.
From S2P Require Import Social.
From S2P Require Import Vesting.
From S2P Require Import Delegations.
From S2P Require Import Market.
From S2P Require Import Streaming.
From S2P Require Import Blocks.
From S2P Require Import Accounts.
From S2P Require Import Content.
From S2P Require Import Operations.

(** ** Transactions and the objects that hold them *)

Record transaction := Transaction {
  ref_block_num : Z;
  ref_block_prefix : Z;
  expiration : Z;
  operations : list Operations.operation
}.
#[export] Instance eta_transaction : Settable transaction := fun t =>
  Transaction (ref_block_num t) (ref_block_prefix t) (expiration t) (operations t).

Record signed_transaction := SignedTransaction { trx : transaction; signatures : list Z }.

(** [transaction_object] *)
Module TransactionObject.
Record t := Make { trx_object : signed_transaction; trx_id : Z }.
Definition get_expiration (o : t) : Z := expiration (trx (trx_object o)).
End TransactionObject.

(** [proposal_object] *)
Module Proposal.
Record t := Make {
  expiration_time : Z;
  review_period_time : option Z;
  proposed_transaction : transaction;
  required_active_approvals : list string;
  available_active_approvals : list string;
  required_owner_approvals : list string;
  available_owner_approvals : list string;
  required_basic_approvals : list string;
  available_basic_approvals : list string;
  required_master_content_approvals : list string;
  required_comp_content_approvals : list string;
  available_key_approvals : list public_key;
  can_veto : list string
}.
#[global] Instance eta : Settable t := fun p =>
  Make (expiration_time p) (review_period_time p) (proposed_transaction p)
    (required_active_approvals p) (available_active_approvals p) (required_owner_approvals p)
    (available_owner_approvals p) (required_basic_approvals p) (available_basic_approvals p)
    (required_master_content_approvals p) (required_comp_content_approvals p)
    (available_key_approvals p) (can_veto p).
End Proposal.

Record chain := Chain {
  db : database;
  proposals : table Proposal.t;
  transactions : table TransactionObject.t;
  block_summaries : gmap Z block_id
}.
#[export] Instance eta_chain : Settable chain := fun c =>
  Chain (db c) (proposals c) (transactions c) (block_summaries c).

(** Code that only concerns the database. *)
Definition on_db {A} (m : st database A) : st chain A := fun c =>
  match m (db c) with Ok (a, d) => Ok (a, c <| db := d |>) | Throw e => Throw e end.

(** [try { m } catch( const fc::exception& ) { h }] where an undo session restores
    the state of a failed [m]. *)
Definition try_st {S A} (m h : st S A) : st S A := fun s =>
  match m s with
  | Throw e => if is_fc_exception e then h s else Throw e
  | r => r
  end.

Module Proposals.
Import Operations.

Definition find_proposal (id : Z) (c : chain) : option Proposal.t := indices (proposals c) !! id.
Definition get_proposal (id : Z) : st chain Proposal.t :=
  c ← get_st; lift (of_option assert_exception (find_proposal id c)).
Definition set_proposal (id : Z) (p : Proposal.t) : st chain unit :=
  modify_st (fun c => c <| proposals ::= fun t => t <| indices ::= <[id := p]> |> |>).

(** Removing an object through a reference to one that is gone has no meaning. *)
Definition remove_proposal (id : Z) : st chain unit :=
  c ← get_st;
  match find_proposal id c with
  | Some _ => modify_st (fun c => c <| proposals ::= fun t => t <| indices ::= delete id |> |>)
  | None => throw undefined_behaviour
  end.

(** ** Who may approve *)

Definition account_authority (f : Account.t -> authority) (d : database) : authority_getter := fun name =>
  match lookup_where (fun a => String.eqb (Account.name a) name) d with
  | Some kv => Ok (Some (f kv.2))
  | None => Throw assert_exception
  end.
Definition content_authority (f : Content.t -> authority) (d : database) : authority_getter := fun url =>
  match lookup_where (fun c => String.eqb (Content.url c) url) d with
  | Some kv => Ok (Some (f kv.2))
  | None => Throw assert_exception
  end.

(** The authorities of the accounts and contents of the chain. *)
Definition authorities (d : database) : getters :=
  Getters (account_authority Account.active d) (account_authority Account.owner d) (account_authority Account.basic d)
    (content_authority Content.manage_master d) (content_authority Content.manage_comp d).

Definition authorize (d : database) (p : Proposal.t) : result unit :=
  Verify.verify_authority (get_required_authorities (operations (Proposal.proposed_transaction p)) no_requirements)
    (Proposal.available_key_approvals p) (authorities d) true BTCM_MAX_SIG_CHECK_DEPTH
    (Proposal.available_active_approvals p) (Proposal.available_owner_approvals p) (Proposal.available_basic_approvals p).

(** [proposal_object::is_authorized_to_execute] *)
Definition is_authorized_to_execute (d : database) (p : Proposal.t) : result bool :=
  match authorize d p with
  | Ok _ => Ok true
  | Throw e => if is_fc_exception e then Ok false else Throw e
  end.

(** ** [proposal_create] *)

(** [proposal_op_visitor]: one update in each list of proposed operations. *)
Fixpoint visit_updates (op : operation) : result unit :=
  match op with
  | proposal_create proposed_ops _ _ =>
      (fix loop (ops : list operation) (proposal_update_seen : bool) : result unit :=
         match ops with
         | [] => Ok tt
         | op :: ops =>
             _ ← visit_updates op;
             match op with
             | proposal_update _ => _ ← fc_assert (negb proposal_update_seen); loop ops true
             | _ => loop ops proposal_update_seen
             end
         end) proposed_ops false
  | _ => Ok tt
  end.

(** [hardfork_visitor_1479]: the greatest proposal an operation refers to, and how
    many references there are. *)
Definition see_proposal (id : Z) (v : Z * Z) : Z * Z :=
  (if (v.2 =? 0) || (id >? v.1) then id else v.1, u64 (v.2 + 1)).
Fixpoint visit_references (op : operation) (v : Z * Z) : Z * Z :=
  match op with
  | proposal_delete o => see_proposal (pd_proposal o) v
  | proposal_update o => see_proposal (pu_proposal o) v
  | proposal_create proposed_ops _ _ => foldl (fun v op => visit_references op v) v proposed_ops
  | _ => v
  end.

(** [authority_collector::collect], with [room] levels below. *)
Fixpoint collect (room : nat) (d : database) (auth : authority) (dest : list string) : result (list string) :=
  foldM (fun dest a =>
    parent ← account_authority Account.active d a.1;
    match parent with
    | None => Throw undefined_behaviour
    | Some parent =>
        let dest := if (0 <? length (key_auths parent))%nat then Flat.insert String.ltb a.1 dest else dest in
        match room with O => Ok dest | S room => collect room d parent dest end
    end) dest (account_auths auth).

(** The managers of the contents a proposal changes. *)
Definition collect_content (f : Content.t -> authority) (d : database) (urls dest : list string) : result (list string) :=
  foldM (fun dest url =>
    auth ← content_authority f d url;
    match auth with
    | None => Throw undefined_behaviour
    | Some auth => collect BTCM_MAX_SIG_CHECK_DEPTH d auth dest
    end) dest urls.

Definition erase_all (ids s : list string) : list string := foldl (fun s a => Flat.erase String.ltb a s) s ids.
Definition insert_all (ids s : list string) : list string := foldl (fun s a => Flat.insert String.ltb a s) s ids.

(** The object a [proposal_create] makes. *)
Definition new_proposal (d : database) (proposed : transaction) (expiration_time : Z) (review_period_seconds : option Z)
    : result Proposal.t :=
  let review := match review_period_seconds with Some s => Some (u32 (head_block_time d + s)) | None => None end in
  let req := get_required_authorities (operations proposed) no_requirements in
  let veto := insert_all (required_basic req) (insert_all (required_owner req) (insert_all (required_active req) [])) in
  let basic := erase_all (required_owner req) (erase_all (required_active req) (required_basic req)) in
  _ ← fc_assert (Verify.is_nil (other req));
  _ ← fc_assert (Verify.is_nil basic
        || (Verify.is_nil (required_active req) && Verify.is_nil (required_owner req)
            && Verify.is_nil (required_master_content req) && Verify.is_nil (required_comp_content req)
            && Verify.is_nil (other req)));
  active ← collect_content Content.manage_master d (required_master_content req) (required_active req);
  active ← collect_content Content.manage_comp d (required_comp_content req) active;
  Ok (Proposal.Make expiration_time review (proposed <| expiration := expiration_time |>)
        (erase_all (required_owner req) active) [] (required_owner req) [] basic []
        (required_master_content req) (required_comp_content req) [] veto).

Section Evaluate.
Context {B : BoostMP} {T : TextChecks} {A : Addresses}.

(** [transaction::validate] *)
Definition transaction_validate (t : transaction) : result unit :=
  _ ← fc_assert (negb (Verify.is_nil (operations t)));
  foldM (fun _ op => operation_validate op) tt (operations t).

Definition proposal_create_apply (proposed_ops : list operation) (expiration_time : Z) (review_period_seconds : option Z)
    : st chain unit :=
  let o := proposal_create proposed_ops expiration_time review_period_seconds in
  _ ← lift (visit_updates o);
  let '(max_update_instance, nested_update_count) := visit_references o (0, 0) in
  c ← get_st;
  let now := head_block_time (db c) in
  _ ← assert_st (expiration_time >? now);
  _ ← assert_st (expiration_time <=? u32 (now + Dgpo.maximum_proposal_lifetime (dgpo (db c))));
  _ ← assert_st (match review_period_seconds with Some s => s <? expiration_time - now | None => true end);
  _ ← assert_st (forallb (fun op => negb (is_proposal_operation op)) proposed_ops);
  let proposed := Transaction 0 0 0 proposed_ops in
  _ ← lift (transaction_validate proposed);
  let id := next_id (proposals c) in
  _ ← assert_st ((nested_update_count =? 0) || (id >? max_update_instance));
  p ← lift (new_proposal (db c) proposed expiration_time review_period_seconds);
  modify_st (fun c => c <| proposals ::= fun t => next_object t p |>).

(** ** [proposal_update] and [proposal_delete] *)

Definition all_in (ids s : list string) : bool := forallb (fun id => Flat.mem String.ltb id s) ids.

(** The approvals an update names are there to remove, or wanted and not there. *)
Definition check_update (now : Z) (o : proposal_update_operation) (p : Proposal.t) : result unit :=
  _ ← match Proposal.review_period_time p with
      | Some t =>
          if now <=? t then
            fc_assert (Verify.is_nil (active_approvals_to_add o) && Verify.is_nil (owner_approvals_to_add o))
          else Ok tt
      | None => Ok tt
      end;
  _ ← fc_assert (all_in (active_approvals_to_remove o) (Proposal.available_active_approvals p));
  _ ← fc_assert (all_in (owner_approvals_to_remove o) (Proposal.available_owner_approvals p));
  _ ← fc_assert (forallb (fun id =>
        negb (Flat.mem String.ltb id (Proposal.available_active_approvals p))
        && (Flat.mem String.ltb id (Proposal.required_active_approvals p)
            || Flat.mem String.ltb id (Proposal.required_basic_approvals p))) (active_approvals_to_add o));
  fc_assert (forallb (fun id =>
    negb (Flat.mem String.ltb id (Proposal.available_owner_approvals p))
    && (Flat.mem String.ltb id (Proposal.required_owner_approvals p)
        || Flat.mem String.ltb id (Proposal.required_active_approvals p)
        || Flat.mem String.ltb id (Proposal.required_basic_approvals p))) (owner_approvals_to_add o)).

Definition update_approvals (o : proposal_update_operation) (p : Proposal.t) : Proposal.t :=
  p <| Proposal.available_active_approvals ::= insert_all (active_approvals_to_add o) |>
    <| Proposal.available_owner_approvals ::= insert_all (owner_approvals_to_add o) |>
    <| Proposal.available_active_approvals ::= erase_all (active_approvals_to_remove o) |>
    <| Proposal.available_owner_approvals ::= erase_all (owner_approvals_to_remove o) |>
    <| Proposal.available_key_approvals ::= fun s => foldl (fun s k => Flat.insert Z.ltb k s) s (key_approvals_to_add o) |>
    <| Proposal.available_key_approvals ::= fun s => foldl (fun s k => Flat.erase Z.ltb k s) s (key_approvals_to_remove o) |>.

(** [push] is [push_proposal]; when it fails the proposal waits for its expiration. *)
Definition proposal_update_apply (push : Z -> st chain unit) (o : proposal_update_operation) : st chain unit :=
  let id := pu_proposal o in
  p ← get_proposal id;
  c ← get_st;
  _ ← lift (check_update (head_block_time (db c)) o p);
  let p := update_approvals o p in
  _ ← set_proposal id p;
  match Proposal.review_period_time p with
  | Some _ => mret tt
  | None =>
      authorized ← lift (is_authorized_to_execute (db c) p);
      if authorized : bool then try_st (push id) (mret tt) else mret tt
  end.

Definition proposal_delete_apply (o : proposal_delete_operation) : st chain unit :=
  p ← get_proposal (pd_proposal o);
  _ ← assert_st (Flat.mem String.ltb (pd_vetoer o) (Proposal.can_veto p));
  remove_proposal (pd_proposal o).

(** ** The other evaluators without a file *)

Definition custom_apply (o : custom_operation) : st database unit := mret tt.
Definition custom_json_apply (o : custom_json_operation) : st database unit :=
  _ ← (if (0 <? String.length (cj_json o))%nat then assert_st (json_is_valid (cj_json o)) else mret tt);
  for_each (cj_required_basic_auths o) (fun auth =>
    acnt ← get_account auth;
    assert_st (negb (Account.owner_challenged acnt.2 || Account.active_challenged acnt.2))).

(** Escrow is disabled: the evaluators begin with [FC_ASSERT( false, .. )]. *)
Definition escrow_transfer_apply (o : escrow_transfer_operation) : st database unit := assert_st false.
Definition escrow_dispute_apply (o : escrow_dispute_operation) : st database unit := assert_st false.
Definition escrow_release_apply (o : escrow_release_operation) : st database unit := assert_st false.

(** ** Applying operations *)

(** The registered evaluators ([initialize_evaluators]); a virtual operation has
    none, which is an exception of [apply_operation]. *)
Definition evaluate (push : Z -> st chain unit) (op : operation) : st chain unit :=
  match op with
  | vote o => on_db (Contents.vote_apply o)
  | content o => on_db (Contents.content_apply o)
  | content_update o => on_db (Contents.content_update_apply o)
  | content_approve o => on_db (Contents.content_approve_apply o)
  | content_disable o => on_db (Contents.content_disable_apply o)
  | transfer o => on_db (Balances.transfer_apply o)
  | transfer_to_vesting o => on_db (Vesting.transfer_to_vesting_apply o)
  | withdraw_vesting o => on_db (Vesting.withdraw_vesting_apply o)
  | limit_order_create o => on_db (Market.limit_order_create_apply o)
  | limit_order_create2 o => on_db (Market.limit_order_create2_apply o)
  | limit_order_cancel o => on_db (Market.limit_order_cancel_apply o)
  | feed_publish o => on_db (Market.feed_publish_apply o)
  | convert o => on_db (Market.convert_apply o)
  | account_create o => on_db (Accounts.account_create_apply o)
  | account_update o => on_db (Accounts.account_update_apply o)
  | witness_update o => on_db (Votes.witness_update_apply o)
  | account_witness_vote o => on_db (Votes.account_witness_vote_apply o)
  | account_witness_proxy o => on_db (Votes.account_witness_proxy_apply o)
  | streaming_platform_update o => on_db (Streaming.streaming_platform_update_apply o)
  | account_streaming_platform_vote o => on_db (Votes.account_streaming_platform_vote_apply o)
  | streaming_platform_report o => on_db (Streaming.streaming_platform_report_apply o)
  | asset_create o => on_db (AssetEval.create_apply o)
  | asset_update o => on_db (AssetEval.update_apply o)
  | asset_issue o => on_db (AssetEval.issue_apply o)
  | asset_reserve o => on_db (AssetEval.reserve_apply o)
  | custom o => on_db (custom_apply o)
  | custom_json o => on_db (custom_json_apply o)
  | set_withdraw_vesting_route o => on_db (Vesting.set_withdraw_vesting_route_apply o)
  | challenge_authority o => on_db (Accounts.challenge_authority_apply o)
  | prove_authority o => on_db (Accounts.prove_authority_apply o)
  | request_account_recovery o => on_db (Accounts.request_account_recovery_apply o)
  | recover_account o => on_db (Accounts.recover_account_apply o)
  | change_recovery_account o => on_db (Accounts.change_recovery_account_apply o)
  | escrow_transfer o => on_db (escrow_transfer_apply o)
  | escrow_dispute o => on_db (escrow_dispute_apply o)
  | escrow_release o => on_db (escrow_release_apply o)
  | proposal_create proposed_ops e r => proposal_create_apply proposed_ops e r
  | proposal_update o => proposal_update_apply push o
  | proposal_delete o => proposal_delete_apply o
  | virtual _ => throw assert_exception
  | friendship o => on_db (Social.friendship_apply o)
  | unfriend o => on_db (Social.unfriend_apply o)
  | balance_claim o => on_db (Contents.balance_claim_apply o)
  | account_create_with_delegation o => on_db (Accounts.account_create_with_delegation_apply o)
  | delegate_vesting_shares o => on_db (Delegations.delegate_vesting_shares_apply o)
  | request_stream_reporting o => on_db (Streaming.request_stream_reporting_apply o)
  | cancel_stream_reporting o => on_db (Streaming.cancel_stream_reporting_apply o)
  end.

(** [push_proposal] where [room] more may be nested in it: the guard asserts that
    its counter is below the limit. *)
Definition max_proposal_nesting : nat := BTCM_MAX_MINERS * 2.
Definition apply_with (push : Z -> st chain unit) (op : operation) : st chain unit := capture (evaluate push op).
Fixpoint push_nested (room : nat) (id : Z) : st chain unit :=
  match room with
  | O => throw assert_exception
  | S room =>
      capture (
        p ← get_proposal id;
        _ ← for_each (operations (Proposal.proposed_transaction p)) (apply_with (push_nested room));
        remove_proposal id)
  end.
Definition push_proposal (id : Z) : st chain unit := push_nested max_proposal_nesting id.

Definition apply_operation (op : operation) : st chain unit := apply_with push_proposal op.

(** ** [clear_expired_proposals] *)

(** The index [by_expiration]. *)
Definition by_expiration (x y : Z * Proposal.t) : Prop :=
  Proposal.expiration_time x.2 < Proposal.expiration_time y.2
  \/ (Proposal.expiration_time x.2 = Proposal.expiration_time y.2 /\ x.1 <= y.1).
#[export] Instance by_expiration_dec : RelDecision by_expiration.
Proof. unfold by_expiration. solve_decision. Defined.
Definition expiring (c : chain) : list (Z * Proposal.t) :=
  merge_sort by_expiration (map_to_list (indices (proposals c))).

(** One turn: [true] when the proposal was executed. *)
Definition try_expired (kv : Z * Proposal.t) : st chain bool :=
  try_st
    (c ← get_st;
     authorized ← lift (is_authorized_to_execute (db c) kv.2);
     if authorized : bool then _ ← push_proposal kv.1; mret true else mret false)
    (mret false).

Fixpoint clear_proposals_loop (fuel : nat) : st chain unit :=
  c ← get_st;
  match expiring c with
  | kv :: _ =>
      if Proposal.expiration_time kv.2 <=? head_block_time (db c) then
        match fuel with
        | O => throw undefined_behaviour
        | S fuel =>
            executed ← try_expired kv;
            _ ← (if executed : bool then mret tt else remove_proposal kv.1);
            clear_proposals_loop fuel
        end
      else mret tt
  | [] => mret tt
  end.

(** Each turn removes a proposal. *)
Definition clear_expired_proposals : st chain unit :=
  c ← get_st; clear_proposals_loop (length (expiring c)).

End Evaluate.

(** ** [required_approval_index] *)

Definition approvals_required (p : Proposal.t) : list string :=
  Proposal.required_active_approvals p ++ Proposal.required_owner_approvals p ++ Proposal.required_basic_approvals p.

Definition index_insert (id : Z) (idx : gmap string (gset Z)) (a : string) : gmap string (gset Z) :=
  <[a := {[ id ]} ∪ default ∅ (idx !! a)]> idx.
Definition object_inserted (id : Z) (p : Proposal.t) (idx : gmap string (gset Z)) : gmap string (gset Z) :=
  foldl (index_insert id) idx (approvals_required p).

Definition index_remove (id : Z) (idx : gmap string (gset Z)) (a : string) : gmap string (gset Z) :=
  match idx !! a with
  | Some s => let s := s ∖ {[ id ]} in if bool_decide (s = ∅) then delete a idx else <[a := s]> idx
  | None => idx
  end.
Definition object_removed (id : Z) (p : Proposal.t) (idx : gmap string (gset Z)) : gmap string (gset Z) :=
  foldl (index_remove id) idx (approvals_required p).

Definition index_lookup (a : string) (idx : gmap string (gset Z)) : gset Z := default ∅ (idx !! a).

End Proposals.
