(* ===== verification/Transactions.v ===== *)
(** * Transactions and blocks

    Models [_apply_transaction], [clear_expired_transactions],
    [create_block_summary], [apply_block] and [_apply_block] of database.cpp, and
    the rest of protocol/transaction.cpp and block.cpp: reference blocks, signature
    keys, the Merkle root of a block.  Serialized sizes, hashes and the recovery of
    a key from a signature belong to the crypto and serialization libraries: they
    are the operations of the class [Wire]. *)

From S2P Require Import Prelude.
From S2P Require Import SafeInt.
From S2P Require Import Uint128.
From S2P Require Import Asset.
From S2P Require Import UndoDatabase.
From S2P Require Import Authority.
From S2P Require Import ForkDatabase.
From S2P Require Import State.
From S2P Require Import Balance.
From S2P Require Import Vesting.
From S2P Require Import Delegations.
From S2P Require Import Market.
From S2P Require Import Rewards.
From S2P Require Import Blocks.
From S2P Require Import Accounts.
From S2P Require Import Content.
From S2P Require Import Operations.
From S2P Require Import Proposals.

Definition BTCM_MAX_TIME_UNTIL_EXPIRATION : Z := 60 * 60.

(** [block_header::transaction_merkle_root] and the transactions of a block. *)
Record full_block := FullBlock {
  header : signed_block;
  transaction_merkle_root : Z;
  block_transactions : list signed_transaction
}.
#[export] Instance full_block_data : BlockData full_block :=
  {| previous b := sb_previous (header b); digest b := sb_digest (header b) |}.

Class Wire := {
  transaction_id : transaction -> Z;
  sig_digest : transaction -> Z;
  (** [fc::ecc::public_key( sig, d )] *)
  recover_key : Z -> Z -> result public_key;
  (** [fc::raw::pack_size( trx )] *)
  trx_size : signed_transaction -> Z;
  merkle_digest : signed_transaction -> Z;
  (** [digest_type::hash] of a pair, [checksum_type::hash] *)
  hash_pair : Z -> Z -> Z;
  checksum : Z -> Z;
  (** [block_id._hash[ 1 ]] *)
  id_word : block_id -> Z
}.

Module Transactions.
Import Operations Proposals.

(** ** [skip_flags] *)

Definition skip_nothing : Z := 0.
Definition skip_witness_signature : Z := Z.shiftl 1 0.
Definition skip_transaction_signatures : Z := Z.shiftl 1 1.
Definition skip_transaction_dupe_check : Z := Z.shiftl 1 2.
Definition skip_fork_db : Z := Z.shiftl 1 3.
Definition skip_block_size_check : Z := Z.shiftl 1 4.
Definition skip_tapos_check : Z := Z.shiftl 1 5.
Definition skip_authority_check : Z := Z.shiftl 1 6.
Definition skip_merkle_check : Z := Z.shiftl 1 7.
Definition skip_undo_history_check : Z := Z.shiftl 1 8.
Definition skip_witness_schedule_check : Z := Z.shiftl 1 9.
Definition skip_validate : Z := Z.shiftl 1 10.
Definition skip_validate_invariants : Z := Z.shiftl 1 11.

Definition skips (skip flags : Z) : bool := negb (Z.land skip flags =? 0).

(** The checks left out below the last checkpoint. *)
Definition skip_checkpointed : Z :=
  foldl Z.lor 0 [skip_witness_signature; skip_transaction_signatures; skip_transaction_dupe_check; skip_fork_db;
    skip_block_size_check; skip_tapos_check; skip_authority_check; skip_merkle_check; skip_undo_history_check;
    skip_witness_schedule_check; skip_validate; skip_validate_invariants].

Section Transactions.
Context {B : BoostMP} {T : TextChecks} {A : Addresses} {W : Wire}.

(** ** protocol/transaction.cpp *)

Definition set_reference_block (reference_block : block_id) (t : transaction) : transaction :=
  t <| ref_block_num := u16 (id_num reference_block) |> <| ref_block_prefix := id_word reference_block |>.

(** [get_signature_keys] *)
Fixpoint signature_keys (sigs : list Z) (d : Z) (res : list public_key) : result (list public_key) :=
  match sigs with
  | [] => Ok res
  | sig :: sigs =>
      k ← recover_key sig d;
      if Flat.mem Z.ltb k res then Throw tx_duplicate_sig else signature_keys sigs d (Flat.insert Z.ltb k res)
  end.

(** [signed_transaction::verify_authority] with the getters of [_apply_transaction]. *)
Definition verify_transaction (d : database) (t : signed_transaction) : result unit :=
  sigs ← signature_keys (signatures t) (sig_digest (trx t)) [];
  Verify.verify_authority (get_required_authorities (operations (trx t)) no_requirements) sigs (authorities d)
    false BTCM_MAX_SIG_CHECK_DEPTH [] [] [].

(** ** [_apply_transaction] *)

Definition find_transaction (id : Z) (c : chain) : option (Z * TransactionObject.t) :=
  List.find (fun kv => TransactionObject.trx_id kv.2 =? id) (map_to_list (indices (transactions c))).
Definition is_known_transaction (id : Z) (c : chain) : bool :=
  match find_transaction id c with Some _ => true | None => false end.
Definition get_recent_transaction (id : Z) (c : chain) : result signed_transaction :=
  match find_transaction id c with
  | Some kv => Ok (TransactionObject.trx_object kv.2)
  | None => Throw assert_exception
  end.

(** The accounts a transaction uses the bandwidth of: one set takes the active,
    the owner and the basic authorities. *)
Definition charged_accounts (ops : list operation) : list string :=
  let r := get_required_authorities ops no_requirements in
  insert_all (required_basic r) (insert_all (required_owner r) (required_active r)).

Definition charge_bandwidth (t : signed_transaction) (auth : string) : st database unit :=
  acnt ← get_account auth;
  _ ← Balances.update_account_bandwidth acnt.1 (u32 (trx_size t));
  if existsb is_market_operation (operations (trx t)) then
    acnt ← get_account auth;
    Balances.update_account_market_bandwidth acnt.1 (u32 (trx_size t))
  else mret tt.

(** Reference block and expiration; there is nothing to refer to on block 1. *)
Definition check_times (skip : Z) (t : transaction) : st chain unit :=
  c ← get_st;
  if head_block_num (db c) >? 0 then
    _ ← (if skips skip skip_tapos_check then mret tt
         else assert_st (ref_block_prefix t =? id_word (default null_id (block_summaries c !! ref_block_num t))));
    let now := head_block_time (db c) in
    _ ← assert_st (expiration t <=? now + BTCM_MAX_TIME_UNTIL_EXPIRATION);
    _ ← assert_st (now <? expiration t);
    assert_st (now <=? expiration t)
  else mret tt.

(** The transactions index has unique ids. *)
Definition remember (t : signed_transaction) : st chain unit :=
  c ← get_st;
  _ ← assert_st (negb (is_known_transaction (transaction_id (trx t)) c));
  modify_st (fun c => c <| transactions ::= fun tb => next_object tb (TransactionObject.Make t (transaction_id (trx t))) |>).

Definition _apply_transaction (skip : Z) (t : signed_transaction) : st chain unit := capture (
  _ ← (if skips skip skip_validate then mret tt else lift (transaction_validate (trx t)));
  c ← get_st;
  _ ← assert_st (skips skip skip_transaction_dupe_check || negb (is_known_transaction (transaction_id (trx t)) c));
  _ ← (if skips skip (Z.lor skip_transaction_signatures skip_authority_check) then mret tt
       else lift (verify_transaction (db c) t));
  _ ← on_db (for_each (charged_accounts (operations (trx t))) (charge_bandwidth t));
  _ ← check_times skip (trx t);
  _ ← (if skips skip skip_transaction_dupe_check then mret tt else remember t);
  for_each (operations (trx t)) apply_operation).

(** ** Old transactions *)

(** The index [by_expiration]. *)
Definition by_expiration (x y : Z * TransactionObject.t) : Prop :=
  TransactionObject.get_expiration x.2 < TransactionObject.get_expiration y.2
  \/ (TransactionObject.get_expiration x.2 = TransactionObject.get_expiration y.2 /\ x.1 <= y.1).
#[export] Instance by_expiration_dec : RelDecision by_expiration.
Proof. unfold by_expiration. solve_decision. Defined.
Definition dedupe_index (c : chain) : list (Z * TransactionObject.t) :=
  merge_sort by_expiration (map_to_list (indices (transactions c))).

Fixpoint clear_transactions_loop (fuel : nat) : st chain unit :=
  c ← get_st;
  match dedupe_index c with
  | kv :: _ =>
      if head_block_time (db c) >? TransactionObject.get_expiration kv.2 then
        match fuel with
        | O => throw undefined_behaviour
        | S fuel =>
            _ ← modify_st (fun c => c <| transactions ::= fun t => t <| indices ::= delete kv.1 |> |>);
            clear_transactions_loop fuel
        end
      else mret tt
  | [] => mret tt
  end.

(** Each turn removes a transaction. *)
Definition clear_expired_transactions : st chain unit :=
  c ← get_st; clear_transactions_loop (length (dedupe_index c)).

Definition create_block_summary (b : full_block) : st chain unit :=
  modify_st (fun c => c <| block_summaries ::= <[Z.land (block_num b) 0xffff := block_id_of b]> |>).

(** ** The Merkle root *)

(** One level: the hashes in pairs, an odd one left over kept. *)
Fixpoint hash_level (ids : list Z) : list Z :=
  match ids with
  | x :: y :: ids => hash_pair x y :: hash_level ids
  | ids => ids
  end.
Fixpoint merkle_loop (fuel : nat) (ids : list Z) : option Z :=
  match ids with
  | [] => None
  | [x] => Some x
  | ids => match fuel with O => None | S fuel => merkle_loop fuel (hash_level ids) end
  end.

(** [calculate_merkle_root]; a level is shorter than the one before it.
    [checksum_type()] is zero. *)
Definition calculate_merkle_root (l : list signed_transaction) : result Z :=
  match l with
  | [] => Ok 0
  | _ => match merkle_loop (length l) (merkle_digest <$> l) with
         | Some x => Ok (checksum x)
         | None => Throw undefined_behaviour
         end
  end.

(** ** [_apply_block] *)

(** Up to [update_global_dynamic_data]: the witness of the block, and the length of
    the chain that can still be undone, which the undo and the fork database are
    told. *)
Definition start_block (skip : Z) (b : full_block) : st chain (Z * Z) :=
  root ← lift (calculate_merkle_root (block_transactions b));
  _ ← assert_st (skips skip skip_merkle_check || (transaction_merkle_root b =? root));
  signing_witness ← on_db (Blocks.validate_block_header (skips skip skip_witness_signature)
                             (skips skip skip_witness_schedule_check) (header b));
  c ← get_st;
  _ ← assert_st (sb_size (header b) <=? Dgpo.maximum_block_size (dgpo (db c)));
  _ ← on_db (modify_dgpo (fun p => Ok (p <| Dgpo.current_witness := sb_witness (header b) |>)));
  _ ← on_db (Blocks.process_header_extensions (header b));
  w ← on_db (get_witness (sb_witness (header b)));
  c ← get_st;
  _ ← assert_st (Witness.running_version w.2 >=? Hardforks.current_hardfork_version (hardforks (db c)));
  _ ← for_each (block_transactions b) (_apply_transaction skip);
  undo_size ← on_db (Blocks.update_global_dynamic_data (skips skip skip_undo_history_check) (header b));
  mret (signing_witness.1, undo_size).

(** The rest. *)
Definition finish_block (b : full_block) (signing_witness : Z) : st chain unit :=
  _ ← on_db (Blocks.update_signing_witness signing_witness (header b));
  _ ← on_db Blocks.update_last_irreversible_block;
  _ ← create_block_summary b;
  _ ← clear_expired_transactions;
  _ ← clear_expired_proposals;
  _ ← on_db Market.clear_expired_orders;
  _ ← on_db Delegations.clear_expired_delegations;
  _ ← on_db Blocks.update_witness_schedule;
  _ ← on_db Blocks.update_median_feed;
  _ ← on_db Blocks.update_virtual_supply;
  _ ← on_db Rewards.pay_block;
  _ ← on_db Vesting.process_vesting_withdrawals;
  _ ← on_db Blocks.update_virtual_supply;
  _ ← on_db Accounts.account_recovery_processing;
  on_db Blocks.process_hardforks.

Definition _apply_block (skip : Z) (b : full_block) : st chain unit := capture (
  r ← start_block skip b;
  finish_block b r.1).

(** What [apply_block] checks and skips on account of the checkpoints, which are in
    the order of the block numbers. *)
Definition checkpoint_flags (checkpoints : list (Z * block_id)) (skip : Z) (b : full_block) : result Z :=
  match last checkpoints with
  | Some (num, id) =>
      if bool_decide (id = null_id) then Ok skip
      else
        _ ← match Flat.find Z.ltb (block_num b) checkpoints with
            | Some id => fc_assert (bool_decide (block_id_of b = id))
            | None => Ok tt
            end;
        Ok (if num >=? block_num b then skip_checkpointed else skip)
  | None => Ok skip
  end.
Definition apply_block (checkpoints : list (Z * block_id)) (skip : Z) (b : full_block) : st chain unit :=
  skip ← lift (checkpoint_flags checkpoints skip b); _apply_block skip b.

End Transactions.
End Transactions.
