(* ===== verification/Frames.v ===== *)
(** * Frames: what a run leaves alone

    [keeps R m]: whatever a run of [m] that returns does, the states before and
    after are related by [R].  For a reflexive and transitive [R] this is decided by
    taking the code apart, statement by statement ([keeps_tac]), down to the updates
    of single tables.  The relation used for all evaluators is [steady]: the clock of
    the chain stands still and the state stays [sound]. *)

From S2P Require Import Prelude.
From S2P Require Import SafeInt.
From S2P Require Import Uint128.
From S2P Require Import Asset.
From S2P Require Import AssetFacts.
From S2P Require Import UndoDatabase.
From S2P Require Import Authority.
From S2P Require Import ForkDatabase.
From S2P Require Import State.
From S2P Require Import Balance.
From S2P Require Import BalanceFacts.

Definition keeps {S A} (R : S -> S -> Prop) (m : st S A) : Prop := forall s a s', m s = Ok (a, s') -> R s s'.

Create HintDb keeps.

Section Keeps.
Context {S : Type} (R : S -> S -> Prop) `{!PreOrder R}.

Lemma keeps_ret {A} (a : A) : keeps R (mret a).
Proof. by intros s b s' [_ ->]%st_ret_Ok. Qed.
Lemma keeps_lift {A} (r : result A) : keeps R (lift r).
Proof. by intros s b s' [_ ->]%lift_Ok. Qed.
Lemma keeps_get_st : keeps R (get_st (S:=S)).
Proof. by intros s b s' [= <- <-]. Qed.
Lemma keeps_gets {A} (f : S -> A) : keeps R (gets f).
Proof. by intros s b s' [_ ->]%gets_Ok. Qed.
Lemma keeps_throw {A} e : keeps R (throw (S:=S) (A:=A) e).
Proof. by intros s b s' H. Qed.
Lemma keeps_assert b : keeps R (assert_st (S:=S) b).
Proof. by intros s c s' [_ ->]%assert_st_Ok. Qed.
Lemma keeps_seq {A B} (m : st S A) (f : A -> st S B) : keeps R m -> (forall a, keeps R (f a)) -> keeps R (m ≫= f).
Proof. intros Hm Hf s b s' (a & s1 & H1 & H2)%st_bind_Ok. etransitivity; [by eapply Hm|by eapply Hf]. Qed.
Lemma keeps_when b (m : st S unit) : keeps R m -> keeps R (when b m).
Proof. intros Hm. destruct b; [exact Hm|apply keeps_ret]. Qed.
Lemma capture_Ok {A} (m : st S A) s a s' : capture m s = Ok (a, s') -> m s = Ok (a, s').
Proof. unfold capture. by destruct (m s) as [[? ?]|]. Qed.
Lemma keeps_capture {A} (m : st S A) : keeps R m -> keeps R (capture m).
Proof. intros Hm s a s' H%capture_Ok. by eapply Hm. Qed.
Lemma keeps_loop {A} (l : list A) (f : A -> st S unit) : (forall x, keeps R (f x)) -> keeps R (for_each l f).
Proof. intros Hf. induction l as [|x l IH]; [apply keeps_ret|]. apply keeps_seq; [apply Hf|intros; exact IH]. Qed.
Lemma keeps_loop_in {A} (l : list A) (f : A -> st S unit) : (forall x, x ∈ l -> keeps R (f x)) -> keeps R (for_each l f).
Proof.
  induction l as [|x l IH]; intros Hf; [apply keeps_ret|].
  apply keeps_seq; [apply Hf; set_solver|intros; apply IH]. intros y Hy. apply Hf. set_solver.
Qed.
End Keeps.
#[export] Hint Resolve keeps_ret keeps_lift keeps_get_st keeps_gets keeps_throw keeps_assert : keeps.

(** Looking something up changes nothing. *)
Section Lookups.
Context (R : database -> database -> Prop) `{!PreOrder R}.
Lemma keeps_get {V} `{StoredOk V} i : keeps R (get (V:=V) i).
Proof. by intros s b s' [_ ->]%get_Ok. Qed.
Lemma keeps_get_where {V} `{StoredOk V} p : keeps R (get_where (V:=V) p).
Proof. by intros s b s' [_ ->]%get_where_Ok. Qed.
Lemma keeps_find_where {V} `{StoredOk V} p : keeps R (find_where (V:=V) p).
Proof. by intros s b s' [_ ->]%find_where_Ok. Qed.
Lemma keeps_assert_asset r : keeps R (assert_asset r).
Proof. by intros s b s' [_ ->]%AssetLemmas.assert_asset_Ok. Qed.
End Lookups.
#[export] Hint Resolve keeps_get keeps_get_where keeps_find_where keeps_assert_asset : keeps.

Ltac head_of t := lazymatch t with ?f _ => head_of f | _ => t end.
Ltac unfold_head t := let h := head_of t in progress unfold h.

(** Taking code apart; a procedure with a lemma in the database is not opened. *)
Ltac keeps_step :=
  match goal with
  | |- forall _, _ => intro
  | |- keeps _ _ => solve [eauto 3 with keeps typeclass_instances]
  | |- keeps _ (_ ≫= _) => apply keeps_seq; [typeclasses eauto| |intro; cbv beta]
  | |- keeps _ (for_each _ _) => apply keeps_loop; [typeclasses eauto|intro; cbv beta]
  | |- keeps _ (capture _) => apply keeps_capture
  | |- keeps _ (when _ _) => apply keeps_when; [typeclasses eauto|]
  | |- keeps _ (let '_ := ?x in _) => destruct x
  | |- keeps _ (match ?x with _ => _ end) => destruct x
  | |- keeps _ (let _ := _ in _) => cbv zeta
  | |- keeps _ ?m => unfold_head m; cbv beta zeta
  end.
Ltac keeps_tac := repeat keeps_step.

(** ** The frame of the evaluators *)

Definition ids_ok {V} (t : table V) : Prop := forall i, is_Some (indices t !! i) -> i < next_id t.

Lemma ids_ok_insert {V} (t : table V) i v : is_Some (indices t !! i) -> ids_ok t -> ids_ok (t <| indices ::= <[i := v]> |>).
Proof.
  intros Hi Ht j. cbn. destruct (decide (j = i)) as [->|Hj]; [auto|]. rewrite lookup_insert_ne by done. apply Ht.
Qed.
Lemma ids_ok_next {V} (t : table V) v : ids_ok t -> ids_ok (next_object t v).
Proof.
  intros Ht j. cbn. destruct (decide (j = next_id t)) as [->|Hj]; [lia|]. rewrite lookup_insert_ne by done.
  intros Hj'%Ht. lia.
Qed.
Lemma ids_ok_delete {V} (t : table V) i : ids_ok t -> ids_ok (t <| indices ::= delete i |>).
Proof. intros Ht j. cbn. intros [v [_ Hv]%lookup_delete_Some]. apply Ht. by exists v. Qed.
Lemma ids_ok_check {V} (t : table V) :
  forallb (fun kv => kv.1 <? next_id t) (map_to_list (indices t)) = true -> ids_ok t.
Proof.
  intros Hc i [v Hv]. rewrite forallb_forall in Hc. apply Z.ltb_lt, (Hc (i, v)).
  by apply list_elem_of_In, elem_of_map_to_list.
Qed.

Module Steady.

(** The instance numbers of all tables are below the next one, XUSD is counted in
    XUSD and genesis balances are in BTCM. *)
Record sound (d : database) : Prop := {
  ids_accounts : ids_ok (accounts d);
  ids_account_balances : ids_ok (account_balances d);
  ids_delegations : ids_ok (delegations d);
  ids_expirations : ids_ok (expirations d);
  ids_owner_histories : ids_ok (owner_histories d);
  ids_recovery_requests : ids_ok (recovery_requests d);
  ids_change_recoveries : ids_ok (change_recoveries d);
  ids_witnesses : ids_ok (witnesses d);
  ids_witness_votes : ids_ok (witness_votes d);
  ids_convert_requests : ids_ok (convert_requests d);
  ids_limit_orders : ids_ok (limit_orders d);
  ids_routes : ids_ok (routes d);
  ids_platforms : ids_ok (platforms d);
  ids_report_requests : ids_ok (report_requests d);
  ids_platform_votes : ids_ok (platform_votes d);
  ids_reports : ids_ok (reports d);
  ids_platform_users : ids_ok (platform_users d);
  ids_contents : ids_ok (contents d);
  ids_content_approvals : ids_ok (content_approvals d);
  ids_content_votes : ids_ok (content_votes d);
  ids_assets : ids_ok (assets d);
  ids_claim_balances : ids_ok (claim_balances d);
  mbd_symbol : asset_id (Dgpo.current_mbd_supply (dgpo d)) = XUSD_SYMBOL;
  claim_symbol : forall i b, indices (claim_balances d) !! i = Some b -> asset_id (ClaimBalance.balance b) = BTCM_SYMBOL
}.

Definition clock (d : database) : Z * Z * block_id :=
  (Dgpo.time (dgpo d), Dgpo.head_block_number (dgpo d), Dgpo.head_block_id (dgpo d)).

Record steady (d d' : database) : Prop := {
  steady_clock : clock d' = clock d;
  steady_sound : sound d -> sound d'
}.
#[export] Instance steady_preorder : PreOrder steady.
Proof.
  split; [by split|]. intros d1 d2 d3 [C1 S1] [C2 S2]. split; [congruence|auto].
Qed.

(** The tables a run may change freely. *)
Class Framed (V : Type) `{Stored V} : Prop :=
  framed : forall f d, (ids_ok (tbl (V:=V) d) -> ids_ok (f (tbl d))) -> steady d (upd_tbl f d).
#[export] Hint Extern 0 (Framed _) =>
  (let Hf := fresh in intros ? ? Hf; split; [reflexivity|intros []; split; try assumption; apply Hf; assumption]) : typeclass_instances.

Section Updates.
Context {V : Type} {St : Stored V} {Ok_ : StoredOk V} {Fr : Framed V}.

Lemma keeps_modify i f : keeps steady (modify (V:=V) i f).
Proof.
  intros d a d' H. apply modify_Ok in H as (v & w & Hv & _ & ->). apply framed. apply ids_ok_insert. by exists v.
Qed.
Lemma keeps_modify_pure i f : keeps steady (modify_pure (V:=V) i f).
Proof. apply keeps_modify. Qed.
Lemma keeps_create v : keeps steady (create (V:=V) v).
Proof. intros d a d' (_ & _ & ->)%create_Ok. apply framed, ids_ok_next. Qed.
Lemma keeps_remove i : keeps steady (remove (V:=V) i).
Proof. intros d a d' ->%remove_Ok. apply framed, ids_ok_delete. Qed.
End Updates.

(** An update of the globals that leaves the clock and the kind of XUSD alone. *)
Definition same_clock (p p' : Dgpo.t) : Prop :=
  Dgpo.time p' = Dgpo.time p /\ Dgpo.head_block_number p' = Dgpo.head_block_number p /\
  Dgpo.head_block_id p' = Dgpo.head_block_id p /\
  asset_id (Dgpo.current_mbd_supply p') = asset_id (Dgpo.current_mbd_supply p).

Lemma keeps_dgpo f : (forall p p', f p = Ok p' -> same_clock p p') -> keeps steady (modify_dgpo f).
Proof.
  intros Hf d a d' (p & (E1 & E2 & E3 & E4)%Hf & ->)%modify_dgpo_Ok. split; [unfold clock; cbn; congruence|].
  intros []. by split; cbn; congruence || assumption.
Qed.

(** The update read statement by statement. *)
Ltac read_update H :=
  repeat (cbv beta zeta in H; match type of H with
  | _ ≫= _ = Ok _ => let x := fresh "x" in let E := fresh "E" in apply bind_Ok in H as (x & E & H)
  | Ok _ = Ok _ => injection H as H; subst
  | Throw _ = Ok _ => discriminate H
  | (match ?x with _ => _ end) = Ok _ => destruct x
  | ?t = Ok _ => unfold_head_in t H
  end)
with unfold_head_in t H := let h := head_of t in progress unfold h in H.
Ltac solve_clock :=
  let p := fresh "p" in let p' := fresh "p'" in let Hp := fresh "Hp" in
  intros p p' Hp; read_update Hp; asset_inv; split_and!; reflexivity || (cbn; congruence).
End Steady.
#[export] Hint Resolve Steady.keeps_modify Steady.keeps_modify_pure Steady.keeps_create Steady.keeps_remove : keeps.
