(* ===== verification/SteadyFacts.v ===== *)
(** * Every evaluator is steady

    No evaluator moves the clock of the chain, and each keeps the state sound. *)

From S2P Require Import Prelude.
From S2P Require Import SafeInt.
From S2P Require Import Uint128.
From S2P Require Import Asset.
From S2P Require Import AssetFacts.
From S2P Require Import UndoDatabase.
From S2P Require Import Authority.
From S2P Require Import State.
From S2P Require Import Balance.
From S2P Require Import BalanceFacts.
From S2P Require Import AssetEval.
From S2P Require Import Votes.
From S2P Require Import Social.
From S2P Require Import Vesting.
From S2P Require Import Delegations.
From S2P Require Import Market.
From S2P Require Import Streaming.
From S2P Require Import Rewards.
From S2P Require Import Blocks.
From S2P Require Import Accounts.
From S2P Require Import Content.
From S2P Require Import Operations.
From S2P Require Import Proposals.
From S2P Require Import Frames.

Module SteadyFacts.
Import Steady.

#[export] Hint Extern 1 (keeps steady (modify_dgpo _)) => (apply keeps_dgpo; solve_clock) : keeps.

Section Steady.
Context {B : BoostMP} {T : TextChecks} {A : Addresses}.

Lemma balance_steady a x : keeps steady (Balances.adjust_balance a x).
Proof. keeps_tac. Qed.
Lemma supply_steady x v : keeps steady (Balances.adjust_supply x v).
Proof. keeps_tac. Qed.
#[local] Hint Resolve balance_steady supply_steady : keeps.
Lemma fee_steady a x : keeps steady (Balances.pay_fee a x).
Proof. keeps_tac. Qed.
Lemma mbd_steady a x : keeps steady (Balances.create_mbd a x).
Proof. keeps_tac. Qed.
Lemma bandwidth_steady a n : keeps steady (Balances.update_account_bandwidth a n).
Proof. keeps_tac. Qed.
Lemma market_bandwidth_steady a n : keeps steady (Balances.update_account_market_bandwidth a n).
Proof. keeps_tac. Qed.
#[local] Hint Resolve fee_steady mbd_steady bandwidth_steady market_bandwidth_steady : keeps.
Lemma transfer_steady o : keeps steady (Balances.transfer_apply o).
Proof. keeps_tac. Qed.

(** User-issued assets *)
Lemma create_steady o : keeps steady (AssetEval.create_apply o).
Proof. keeps_tac. Qed.
Lemma issue_steady o : keeps steady (AssetEval.issue_apply o).
Proof. keeps_tac. Qed.
Lemma reserve_steady o : keeps steady (AssetEval.reserve_apply o).
Proof. keeps_tac. Qed.
Lemma update_steady o : keeps steady (AssetEval.update_apply o).
Proof. keeps_tac. Qed.

(** Votes *)
Lemma deltas_steady room a l : keeps steady (Votes.adjust_proxied_deltas room a l).
Proof. revert a l. induction room as [|room IH]; intros a l; cbn [Votes.adjust_proxied_deltas]; keeps_tac. Qed.
Lemma delta_steady room a x : keeps steady (Votes.adjust_proxied_delta room a x).
Proof. revert a x. induction room as [|room IH]; intros a x; cbn [Votes.adjust_proxied_delta]; keeps_tac. Qed.
Lemma proxy_chain_steady fuel s a : keeps steady (Votes.check_proxy_chain fuel s a).
Proof. revert s a. induction fuel as [|fuel IH]; intros s a; cbn [Votes.check_proxy_chain]; keeps_tac. Qed.
#[local] Hint Resolve deltas_steady delta_steady proxy_chain_steady : keeps.
Lemma proxied_steady a x : keeps steady (Votes.adjust_proxied_witness_votes a x).
Proof. apply delta_steady. Qed.
Lemma proxied_array_steady a l : keeps steady (Votes.adjust_proxied_witness_votes_array a l).
Proof. apply deltas_steady. Qed.
#[local] Hint Resolve proxied_steady proxied_array_steady : keeps.
Lemma witness_update_steady o : keeps steady (Votes.witness_update_apply o).
Proof. keeps_tac. Qed.
Lemma proxy_steady o : keeps steady (Votes.account_witness_proxy_apply o).
Proof. keeps_tac. Qed.
Lemma witness_vote_steady o : keeps steady (Votes.account_witness_vote_apply o).
Proof. keeps_tac. Qed.
Lemma platform_vote_steady o : keeps steady (Votes.account_streaming_platform_vote_apply o).
Proof. keeps_tac. Qed.

(** Friends and scores *)
Lemma payees_steady acc l : keeps steady (Social.add_payees acc l).
Proof. revert acc. induction l as [|x l IH]; intros acc; cbn [Social.add_payees]; keeps_tac. Qed.
#[local] Hint Resolve payees_steady : keeps.
Lemma score_steady a x : keeps steady (Social.recursive_recalculate_score a x).
Proof. keeps_tac. Qed.
Lemma recalculate_steady a : keeps steady (Social.recalculate_score a).
Proof. keeps_tac. Qed.
#[local] Hint Resolve score_steady recalculate_steady : keeps.
Lemma friendship_steady o : keeps steady (Social.friendship_apply o).
Proof. keeps_tac. Qed.
Lemma unfriend_steady o : keeps steady (Social.unfriend_apply o).
Proof. keeps_tac. Qed.

(** Vesting *)
Lemma vesting_steady a x : keeps steady (Vesting.create_vesting a x).
Proof. keeps_tac. Qed.
#[local] Hint Resolve vesting_steady : keeps.
Lemma to_vesting_steady o : keeps steady (Vesting.transfer_to_vesting_apply o).
Proof. keeps_tac. Qed.
Lemma withdraw_steady o : keeps steady (Vesting.withdraw_vesting_apply o).
Proof. keeps_tac. Qed.
Lemma route_steady o : keeps steady (Vesting.set_withdraw_vesting_route_apply o).
Proof. keeps_tac. Qed.
Lemma routes_steady f s l : (forall s r, keeps steady (f s r)) -> keeps steady (Vesting.over_routes f s l).
Proof. intros Hf. revert s. induction l as [|r l IH]; intros s; cbn [Vesting.over_routes]; keeps_tac. Qed.

(** Delegations *)
Lemma delegate_steady o : keeps steady (Delegations.delegate_vesting_shares_apply o).
Proof. keeps_tac. Qed.

(** The market *)
Lemma fill_steady i p r : keeps steady (Market.fill_order i p r).
Proof. keeps_tac. Qed.
#[local] Hint Resolve fill_steady : keeps.
Lemma match_steady n l : keeps steady (Market.match_loop n l).
Proof. induction l as [|o l IH]; cbn [Market.match_loop]; keeps_tac. Qed.
#[local] Hint Resolve match_steady : keeps.
Lemma order_create_steady o : keeps steady (Market.limit_order_create_apply o).
Proof. keeps_tac. Qed.
Lemma order_create2_steady o : keeps steady (Market.limit_order_create2_apply o).
Proof. keeps_tac. Qed.
Lemma order_cancel_steady o : keeps steady (Market.limit_order_cancel_apply o).
Proof. keeps_tac. Qed.
Lemma feed_steady o : keeps steady (Market.feed_publish_apply o).
Proof. keeps_tac. Qed.
Lemma convert_steady o : keeps steady (Market.convert_apply o).
Proof. keeps_tac. Qed.

(** Streaming platforms *)
Lemma platform_update_steady o : keeps steady (Streaming.streaming_platform_update_apply o).
Proof. keeps_tac. Qed.
Lemma request_steady o : keeps steady (Streaming.request_stream_reporting_apply o).
Proof. keeps_tac. Qed.
Lemma cancel_steady o : keeps steady (Streaming.cancel_stream_reporting_apply o).
Proof. keeps_tac. Qed.
Lemma report_steady o : keeps steady (Streaming.streaming_platform_report_apply o).
Proof. keeps_tac. Qed.

(** Accounts *)
Lemma account_create_steady o : keeps steady (Accounts.account_create_apply o).
Proof. keeps_tac. Qed.
Lemma account_delegate_steady o : keeps steady (Accounts.account_create_with_delegation_apply o).
Proof. keeps_tac. Qed.
Lemma account_update_steady o : keeps steady (Accounts.account_update_apply o).
Proof. keeps_tac. Qed.
Lemma challenge_steady o : keeps steady (Accounts.challenge_authority_apply o).
Proof. keeps_tac. Qed.
Lemma prove_steady o : keeps steady (Accounts.prove_authority_apply o).
Proof. keeps_tac. Qed.
Lemma recovery_request_steady o : keeps steady (Accounts.request_account_recovery_apply o).
Proof. keeps_tac. Qed.
Lemma recover_steady o : keeps steady (Accounts.recover_account_apply o).
Proof. keeps_tac. Qed.
Lemma change_recovery_steady o : keeps steady (Accounts.change_recovery_account_apply o).
Proof. keeps_tac. Qed.

(** Contents *)
Lemma authors_steady x l t : keeps steady (Rewards.pay_authors x l t).
Proof. revert t. induction l as [|d l IH]; intros t; cbn [Rewards.pay_authors]; keeps_tac. Qed.
#[local] Hint Resolve authors_steady : keeps.
Lemma content_steady o : keeps steady (Contents.content_apply o).
Proof. keeps_tac. Qed.
Lemma content_update_steady o : keeps steady (Contents.content_update_apply o).
Proof. keeps_tac. Qed.
Lemma content_disable_steady o : keeps steady (Contents.content_disable_apply o).
Proof. keeps_tac. Qed.
Lemma content_approve_steady o : keeps steady (Contents.content_approve_apply o).
Proof. keeps_tac. Qed.
Lemma content_vote_steady o : keeps steady (Contents.vote_apply o).
Proof. keeps_tac. Qed.

(** What is left of a claim keeps its asset. *)
Lemma claim_modify_steady i x t :
  keeps steady (modify (V:=ClaimBalance.t) i (fun b => y ← AssetOps.asset_sub (ClaimBalance.balance b) x; Ok (b <| ClaimBalance.balance := y |> <| ClaimBalance.last_claim_date := t |>))).
Proof.
  intros d a d' (b & w & Hb & Hw & ->)%modify_Ok. apply bind_Ok in Hw as (y & [Hi ->]%AssetLemmas.asset_sub_Ok & [= <-]).
  split; [done|]. intros []. split; try assumption.
  - apply ids_ok_insert; [by exists b|done].
  - intros j c. cbn. destruct (decide (j = i)) as [->|Hj]; [|rewrite lookup_insert_ne by done; apply claim_symbol0].
    rewrite lookup_insert_eq. intros [= <-]. cbn. by apply (claim_symbol0 i).
Qed.
Lemma claim_remove_steady i : keeps steady (remove (V:=ClaimBalance.t) i).
Proof.
  intros d a d' ->%remove_Ok. split; [done|]. intros []. split; try assumption.
  - by apply ids_ok_delete.
  - intros j c. cbn. intros [_ Hj]%lookup_delete_Some. by apply (claim_symbol0 j).
Qed.
#[local] Hint Resolve claim_modify_steady claim_remove_steady : keeps.
Lemma claim_steady o : keeps steady (Contents.balance_claim_apply o).
Proof. keeps_tac. Qed.

Lemma custom_json_steady o : keeps steady (Proposals.custom_json_apply o).
Proof. keeps_tac. Qed.

(** ** Operations on the chain *)

(** The clock, and what only whole transactions and blocks change. *)
Record chain_steady (c c' : chain) : Prop := {
  chain_db : steady (db c) (db c');
  chain_transactions : transactions c' = transactions c;
  chain_summaries : block_summaries c' = block_summaries c
}.
#[export] Instance chain_steady_preorder : PreOrder chain_steady.
Proof. split; [by split|]. intros c1 c2 c3 [S1 T1 B1] [S2 T2 B2]. split; [by etransitivity|congruence..]. Qed.

Lemma on_db_steady {X} (m : st database X) : keeps steady m -> keeps chain_steady (on_db m).
Proof.
  intros Hm c a c' H. unfold on_db in H. destruct (m (db c)) as [[x d]|] eqn:E; [|done]. injection H as <- <-.
  split; [by eapply Hm|done..].
Qed.
Lemma try_steady {X} (m h : st chain X) : keeps chain_steady m -> keeps chain_steady h -> keeps chain_steady (try_st m h).
Proof.
  intros Hm Hh c a c' H. unfold try_st in H. destruct (m c) as [[x d]|e] eqn:E; [|destruct (is_fc_exception e); [by eapply Hh|done]].
  injection H as <- <-. by eapply Hm.
Qed.
Lemma proposals_steady f : keeps chain_steady (modify_st (fun c => c <| proposals ::= f |>)).
Proof. by intros c a c' ->%modify_st_Ok. Qed.
#[local] Hint Resolve proposals_steady : keeps.

Lemma remove_proposal_steady i : keeps chain_steady (Proposals.remove_proposal i).
Proof. keeps_tac. Qed.
Lemma proposal_create_steady ops e r : keeps chain_steady (Proposals.proposal_create_apply ops e r).
Proof. keeps_tac. Qed.
Lemma proposal_delete_steady o : keeps chain_steady (Proposals.proposal_delete_apply o).
Proof. keeps_tac. Qed.
Lemma proposal_update_steady push o : (forall i, keeps chain_steady (push i)) -> keeps chain_steady (Proposals.proposal_update_apply push o).
Proof. intros Hp. unfold Proposals.proposal_update_apply. keeps_tac. apply try_steady; keeps_tac. Qed.

(** One evaluator for each kind of operation. *)
Lemma evaluate_steady push op : (forall i, keeps chain_steady (push i)) -> keeps chain_steady (Proposals.evaluate push op).
Proof.
  intros Hp. destruct op; cbn [Proposals.evaluate].
  - apply on_db_steady, content_vote_steady.
  - apply on_db_steady, content_steady.
  - apply on_db_steady, content_update_steady.
  - apply on_db_steady, content_approve_steady.
  - apply on_db_steady, content_disable_steady.
  - apply on_db_steady, transfer_steady.
  - apply on_db_steady, to_vesting_steady.
  - apply on_db_steady, withdraw_steady.
  - apply on_db_steady, order_create_steady.
  - apply on_db_steady, order_create2_steady.
  - apply on_db_steady, order_cancel_steady.
  - apply on_db_steady, feed_steady.
  - apply on_db_steady, convert_steady.
  - apply on_db_steady, account_create_steady.
  - apply on_db_steady, account_update_steady.
  - apply on_db_steady, witness_update_steady.
  - apply on_db_steady, witness_vote_steady.
  - apply on_db_steady, proxy_steady.
  - apply on_db_steady, platform_update_steady.
  - apply on_db_steady, platform_vote_steady.
  - apply on_db_steady, report_steady.
  - apply on_db_steady, create_steady.
  - apply on_db_steady, update_steady.
  - apply on_db_steady, issue_steady.
  - apply on_db_steady, reserve_steady.
  - apply on_db_steady; keeps_tac.
  - apply on_db_steady, custom_json_steady.
  - apply on_db_steady, route_steady.
  - apply on_db_steady, challenge_steady.
  - apply on_db_steady, prove_steady.
  - apply on_db_steady, recovery_request_steady.
  - apply on_db_steady, recover_steady.
  - apply on_db_steady, change_recovery_steady.
  - apply on_db_steady; keeps_tac.
  - apply on_db_steady; keeps_tac.
  - apply on_db_steady; keeps_tac.
  - apply proposal_create_steady.
  - by apply proposal_update_steady.
  - apply proposal_delete_steady.
  - apply keeps_throw.
  - apply on_db_steady, friendship_steady.
  - apply on_db_steady, unfriend_steady.
  - apply on_db_steady, claim_steady.
  - apply on_db_steady, account_delegate_steady.
  - apply on_db_steady, delegate_steady.
  - apply on_db_steady, request_steady.
  - apply on_db_steady, cancel_steady.
Qed.
Lemma push_steady room i : keeps chain_steady (Proposals.push_nested room i).
Proof.
  revert i. induction room as [|room IH]; intros i; cbn [Proposals.push_nested]; [keeps_tac|].
  apply keeps_capture. apply keeps_seq; [typeclasses eauto|keeps_tac|intros p]. apply keeps_seq; [typeclasses eauto| |intros; apply remove_proposal_steady].
  apply keeps_loop; [typeclasses eauto|]. intros op. by apply keeps_capture, evaluate_steady.
Qed.
Lemma operation_steady op : keeps chain_steady (Proposals.apply_operation op).
Proof. apply keeps_capture, evaluate_steady. intros i. apply push_steady. Qed.
Lemma try_expired_steady kv : keeps chain_steady (Proposals.try_expired kv).
Proof.
  unfold Proposals.try_expired. apply try_steady; [|keeps_tac]. keeps_tac. apply push_steady.
Qed.
End Steady.
End SteadyFacts.
