(* ===== verification/BlockSteady.v ===== *)
(** * The end of a block is steady

    Once [update_global_dynamic_data] has moved the clock, nothing else that a block
    does at its end moves it again, and the state stays sound. *)

From S2P Require Import Prelude.
From S2P Require Import SafeInt.
From S2P Require Import Uint128.
From S2P Require Import Asset.
From S2P Require Import AssetFacts.
From S2P Require Import UndoDatabase.
From S2P Require Import Authority.
From S2P Require Import State.
From S2P Require Import Balance.
From S2P Require Import BalanceFacts.
From S2P Require Import Votes.
From S2P Require Import Social.
From S2P Require Import Vesting.
From S2P Require Import Delegations.
From S2P Require Import Market.
From S2P Require Import Streaming.
From S2P Require Import Rewards.
From S2P Require Import Blocks.
From S2P Require Import Accounts.
From S2P Require Import Frames.
From S2P Require Import SteadyFacts.

Module BlockSteady.
Import Steady SteadyFacts.
Section BlockSteady.
Context {B : BoostMP}.

#[local] Hint Resolve balance_steady supply_steady fee_steady mbd_steady proxied_steady proxied_array_steady
  score_steady vesting_steady authors_steady : keeps.

(** ** Vesting withdrawals *)

Lemma deposit_vests_steady w s r : keeps steady (Vesting.deposit_vests w s r).
Proof. keeps_tac. Qed.
Lemma deposit_btcm_steady w s r : keeps steady (Vesting.deposit_btcm w s r).
Proof. keeps_tac. Qed.
Lemma withdrawal_steady a : keeps steady (Vesting.process_withdrawal a).
Proof.
  pose proof (fun w s l => routes_steady (Vesting.deposit_vests w) s l (deposit_vests_steady w)).
  pose proof (fun w s l => routes_steady (Vesting.deposit_btcm w) s l (deposit_btcm_steady w)).
  keeps_tac.
Qed.
#[local] Hint Resolve withdrawal_steady : keeps.
Lemma withdrawals_steady fuel c : keeps steady (Vesting.withdraw_loop fuel c).
Proof. revert c. induction fuel as [|fuel IH]; intros c; destruct c as [i|]; cbn [Vesting.withdraw_loop]; keeps_tac. Qed.

(** ** Delegations, orders, recovery *)

Lemma delegations_steady fuel now : keeps steady (Delegations.clear_loop fuel now).
Proof. induction fuel as [|fuel IH]; cbn [Delegations.clear_loop]; keeps_tac. Qed.
Lemma orders_steady fuel now : keeps steady (Market.clear_orders_loop fuel now).
Proof. induction fuel as [|fuel IH]; cbn [Market.clear_orders_loop]; keeps_tac. Qed.
Lemma expire_steady {V} `{Stored V} le `{!RelDecision le} due act fuel :
  (forall row, keeps steady (act row)) -> keeps steady (Accounts.expire_loop (V:=V) le due act fuel).
Proof. intros Ha. induction fuel as [|fuel IH]; cbn [Accounts.expire_loop]; keeps_tac. Qed.
Lemma recovery_steady : keeps steady Accounts.account_recovery_processing.
Proof.
  unfold Accounts.account_recovery_processing, Accounts.expire_all.
  repeat (apply keeps_seq; [typeclasses eauto| |intro]).
  all: first [apply expire_steady; intro; keeps_tac|keeps_tac].
Qed.

(** ** The schedule and the feeds *)

Lemma keeps_schedule f : keeps steady (Blocks.modify_schedule f).
Proof. intros d a d' (d1 & d2 & [= <- <-] & (s & d3 & [_ ->]%lift_Ok & ->%modify_st_Ok)%st_bind_Ok)%st_bind_Ok. split; [done|by intros []]. Qed.
Lemma keeps_history f : keeps steady (Blocks.modify_feed_history f).
Proof. intros d a d' (d1 & d2 & [= <- <-] & (s & d3 & [_ ->]%lift_Ok & ->%modify_st_Ok)%st_bind_Ok)%st_bind_Ok. split; [done|by intros []]. Qed.
Lemma keeps_hardforks f : keeps steady (Blocks.modify_hardforks f).
Proof. intros d a d' (d1 & d2 & [= <- <-] & (s & d3 & [_ ->]%lift_Ok & ->%modify_st_Ok)%st_bind_Ok)%st_bind_Ok. split; [done|by intros []]. Qed.
#[local] Hint Resolve keeps_schedule keeps_history keeps_hardforks : keeps.

Lemma witnesses_steady l : keeps steady (Blocks.get_witnesses l).
Proof. induction l as [|n l IH]; cbn [Blocks.get_witnesses]; keeps_tac. Qed.
#[local] Hint Resolve witnesses_steady : keeps.
Lemma advance_steady l t : keeps steady (Blocks.advance_witnesses l t).
Proof. induction l as [|n l IH]; cbn [Blocks.advance_witnesses]; keeps_tac. Qed.
#[local] Hint Resolve advance_steady : keeps.
Lemma median_props_steady : keeps steady Blocks.update_median_witness_props.
Proof. keeps_tac. Qed.
#[local] Hint Resolve median_props_steady : keeps.
Lemma schedule_steady : keeps steady Blocks.update_witness_schedule.
Proof. keeps_tac. Qed.
Lemma feeds_steady : keeps steady Blocks.update_median_feed.
Proof. keeps_tac. Qed.
Lemma virtual_supply_steady : keeps steady Blocks.update_virtual_supply.
Proof. keeps_tac. Qed.
Lemma hardfork_steady fuel : keeps steady (Blocks.hardfork_loop fuel).
Proof. induction fuel as [|fuel IH]; cbn [Blocks.hardfork_loop]; keeps_tac. Qed.
Lemma hardforks_steady : keeps steady Blocks.process_hardforks.
Proof. apply hardfork_steady. Qed.
Lemma extensions_steady b : keeps steady (Blocks.process_header_extensions b).
Proof. keeps_tac. Qed.
Lemma signing_steady w b : keeps steady (Blocks.update_signing_witness w b).
Proof. keeps_tac. Qed.
Lemma irreversible_steady : keeps steady Blocks.update_last_irreversible_block.
Proof.
  unfold Blocks.update_last_irreversible_block. apply keeps_seq; [typeclasses eauto|keeps_tac|intros d]. case_match; [|keeps_tac].
  apply keeps_dgpo. intros p p' [= <-]. by case_match.
Qed.
Lemma miss_steady b i : keeps steady (Blocks.miss_slot b i).
Proof. keeps_tac. Qed.

(** ** The rewards *)

Lemma times_steady f l c : (forall x c, keeps steady (f x c)) -> keeps steady (Rewards.over_times f l c).
Proof. intros Hf. revert c. induction l as [|x l IH]; intros c; cbn [Rewards.over_times]; keeps_tac. Qed.
Lemma count_account_steady s x c : keeps steady (Rewards.count_account s x c).
Proof. keeps_tac. Qed.
Lemma count_user_steady s x c : keeps steady (Rewards.count_user s x c).
Proof. keeps_tac. Qed.
Lemma count_platform_steady h g : keeps steady (Rewards.count_platform h g).
Proof.
  pose proof (fun l c => times_steady _ l c (count_account_steady h.1)).
  pose proof (fun l c => times_steady _ l c (count_user_steady h.1)). keeps_tac.
Qed.
#[local] Hint Resolve count_platform_steady : keeps.
Lemma platforms_steady l g : keeps steady (Rewards.count_platforms l g).
Proof. revert g. induction l as [|h l IH]; intros g; cbn [Rewards.count_platforms]; keeps_tac. Qed.
#[local] Hint Resolve platforms_steady : keeps.
Lemma statistics_steady l : keeps steady (Rewards.adjust_statistics l).
Proof. keeps_tac. Qed.
#[local] Hint Resolve statistics_steady : keeps.
Lemma pay_side_steady s c x : keeps steady (Rewards.pay_side s c x).
Proof. keeps_tac. Qed.
#[local] Hint Resolve pay_side_steady : keeps.
Lemma cash_steady x i acc : keeps steady (Rewards.cash_report x i acc).
Proof. keeps_tac. Qed.
#[local] Hint Resolve cash_steady : keeps.
Lemma cashouts_steady fuel t x acc : keeps steady (Rewards.cashout_loop fuel t x acc).
Proof. revert acc. induction fuel as [|fuel IH]; intros acc; cbn [Rewards.cashout_loop]; keeps_tac. Qed.
#[local] Hint Resolve cashouts_steady : keeps.
Lemma conversions_steady fuel now m n : keeps steady (Rewards.conversion_loop fuel now m n).
Proof. revert n. induction fuel as [|fuel IH]; intros n; cbn [Rewards.conversion_loop]; keeps_tac. Qed.
#[local] Hint Resolve conversions_steady : keeps.
Lemma pay_block_steady : keeps steady Rewards.pay_block.
Proof. keeps_tac. Qed.

End BlockSteady.
End BlockSteady.
