(* ===== verification/TransactionFacts.v ===== *)
(** * No transaction is applied twice

    The table of recent transactions refuses a transaction it knows, and forgets
    one only when its expiration lies before the head block, where the check of the
    expiration refuses it.  Over a run of blocks this makes the applied transactions
    distinct. *)

From S2P Require Import Prelude.
From S2P Require Import Uint128.
From S2P Require Import UndoDatabase.
From S2P Require Import Authority.
From S2P Require Import Asset.
From S2P Require Import ForkDatabase.
From S2P Require Import State.
From S2P Require Import Sample.
From S2P Require Import Balance.
From S2P Require Import Vesting.
From S2P Require Import Delegations.
From S2P Require Import Market.
From S2P Require Import Rewards.
From S2P Require Import Blocks.
From S2P Require Import Accounts.
From S2P Require Import Content.
From S2P Require Import Operations.
From S2P Require Import Proposals.
From S2P Require Import Transactions.
From S2P Require Import Frames.
From S2P Require Import SteadyFacts.
From S2P Require Import BlockSteady.

Module TransactionFacts.
Import Steady SteadyFacts BlockSteady Transactions.

(** [t] is in the table. *)
Definition stored (t : transaction) (c : chain) : Prop :=
  exists i o, indices (transactions c) !! i = Some o /\ trx (TransactionObject.trx_object o) = t.

Section TransactionFacts.
Context {B : BoostMP} {T : TextChecks} {A : Addresses} {W : Wire}.

Lemma reads_only {S X} (m : st S X) s x s' : m s = Ok (x, s') -> keeps eq m -> s' = s.
Proof. intros H Hm. symmetry. by eapply Hm. Qed.

(** ** What is remembered of the past *)

Record remembers (past : list transaction) (c : chain) : Prop := {
  r_ids : ids_ok (transactions c);
  r_keys : forall i o, indices (transactions c) !! i = Some o ->
    TransactionObject.trx_id o = transaction_id (trx (TransactionObject.trx_object o));
  r_past : Forall (fun t => stored t c \/ (0 < head_block_num (db c) /\ expiration t < head_block_time (db c))) past;
  r_nodup : NoDup past
}.

(** Time goes on, and only what expired is forgotten. *)
Record later (c c' : chain) : Prop := {
  l_ids : ids_ok (transactions c) -> ids_ok (transactions c');
  l_time : head_block_time (db c) <= head_block_time (db c');
  l_num : 0 < head_block_num (db c) -> 0 < head_block_num (db c');
  l_old : forall i o, indices (transactions c') !! i = Some o -> indices (transactions c) !! i = Some o;
  l_kept : forall i o, indices (transactions c) !! i = Some o ->
    indices (transactions c') !! i = Some o \/ TransactionObject.get_expiration o < head_block_time (db c')
}.
#[export] Instance later_preorder : PreOrder later.
Proof.
  split; [intros c; split; auto; lia|]. intros c1 c2 c3 [I1 T1 N1 O1 K1] [I2 T2 N2 O2 K2]. split; [auto|lia|auto|auto|].
  intros i o Hi. destruct (K1 i o Hi) as [Hi'|Hx]; [by apply K2|right; lia].
Qed.

Lemma steady_clocks d d' : steady d d' -> head_block_time d' = head_block_time d /\ head_block_num d' = head_block_num d.
Proof. intros [[=] _]. done. Qed.
Lemma chain_steady_later c c' : chain_steady c c' -> later c c'.
Proof. intros [[Ht Hn]%steady_clocks E _]. split; rewrite ?E, ?Ht, ?Hn; auto. lia. Qed.
Lemma keeps_later {X} (m : st chain X) : keeps chain_steady m -> keeps later m.
Proof. intros Hm c a c' H. by eapply chain_steady_later, Hm. Qed.

Lemma remembers_later past c c' : later c c' -> 0 < head_block_num (db c') -> remembers past c -> remembers past c'.
Proof.
  intros [Hi Ht _ Ho Hk] Hn [Ri Rk Rp Rn]. split; [auto|by intros i o Hx%Ho; eapply Rk| |done].
  eapply Forall_impl; [exact Rp|]. intros t [(i & o & Hx & Ho')|[_ Hx]]; [|right; lia].
  destruct (Hk i o Hx) as [Hx'|Hx']; [left; by exists i, o|right; split; [done|]].
  unfold TransactionObject.get_expiration in Hx'. by rewrite Ho' in Hx'.
Qed.
Lemma remembers_steady past c c' : chain_steady c c' -> remembers past c -> remembers past c'.
Proof.
  intros [[Ht Hn]%steady_clocks E _] [Ri Rk Rp Rn]. split; rewrite ?E; auto.
  unfold stored. rewrite E, Ht, Hn. exact Rp.
Qed.

(** ** One transaction *)

Lemma known_stored t c : remembers [] c -> stored t c -> is_known_transaction (transaction_id t) c = true.
Proof.
  intros Hr (i & o & Hi & Ho). unfold is_known_transaction, find_transaction. case_match eqn:E; [done|].
  assert (Hin : In (i, o) (map_to_list (indices (transactions c)))) by by apply list_elem_of_In, elem_of_map_to_list.
  apply (List.find_none _ _ E) in Hin. cbn in Hin. rewrite (r_keys _ _ Hr i o Hi), Ho in Hin. lia.
Qed.

Lemma keeps_remember t c c' past :
  remember t c = Ok (tt, c') -> remembers past c -> ~ In (trx t) past -> remembers (past ++ [trx t]) c' /\ db c' = db c.
Proof.
  intros (c1 & c2 & [= <- <-] & (u & c3 & [_ ->]%assert_st_Ok & ->%modify_st_Ok)%st_bind_Ok)%st_bind_Ok [Ri Rk Rp Rn] Hin.
  split; [|done]. split; cbn.
  - by apply ids_ok_next.
  - intros i o. destruct (decide (i = next_id (transactions c))) as [->|Hi].
    + rewrite lookup_insert_eq. by intros [= <-].
    + rewrite lookup_insert_ne by done. apply Rk.
  - apply Forall_app; split.
    + eapply Forall_impl; [exact Rp|]. intros u' [(i & o & Hi & Ho)|Hx]; [left|by right].
      exists i, o. split; [|done]. cbn. rewrite lookup_insert_ne; [done|]. intros E.
      assert (i < next_id (transactions c)) by (apply Ri; by exists o). lia.
    + apply Forall_singleton. left. exists (next_id (transactions c)), (TransactionObject.Make t (transaction_id (trx t))).
      cbn. by rewrite lookup_insert_eq.
  - apply NoDup_app. split_and!; [done| |apply NoDup_singleton].
    intros x Hx ->%list_elem_of_singleton. by apply Hin, list_elem_of_In.
Qed.

Lemma check_times_new skip t c c' past :
  check_times skip t c = Ok (tt, c') -> remembers past c -> ~ stored t c -> ~ In t past /\ c' = c.
Proof.
  intros H Hr Hs. apply st_bind_Ok in H as (c1 & c2 & [= <- <-] & H).
  assert (Hx : c' = c /\ (0 < head_block_num (db c) -> head_block_time (db c) < expiration t)).
  { destruct (head_block_num (db c) >? 0) eqn:E; [|apply st_ret_Ok in H as [_ ->]; split; [done|lia]].
    apply st_bind_Ok in H as (u & c2 & H1 & H). apply reads_only in H1 as ->; [|keeps_tac].
    apply st_bind_Ok in H as (u2 & c3 & [_ ->]%assert_st_Ok & H).
    apply st_bind_Ok in H as (u3 & c4 & [Hlt ->]%assert_st_Ok & [_ ->]%assert_st_Ok). split; [done|lia]. }
  destruct Hx as [-> Hx]. split; [|done]. intros Hin.
  destruct (proj1 (List.Forall_forall _ _) (r_past _ _ Hr) t Hin) as [Hst|[? ?]]; [done|]. specialize (Hx ltac:(done)). lia.
Qed.

Lemma charge_steady t a : keeps steady (charge_bandwidth t a).
Proof.
  pose proof bandwidth_steady. pose proof market_bandwidth_steady. unfold charge_bandwidth.
  apply keeps_seq; [typeclasses eauto|keeps_tac|intros x].
  apply keeps_seq; [typeclasses eauto|apply bandwidth_steady|intros _]. case_match; [|keeps_tac].
  apply keeps_seq; [typeclasses eauto|keeps_tac|intros y]. apply market_bandwidth_steady.
Qed.

(** An applied transaction is none of the past ones, and is remembered with them. *)
Lemma transaction_remembered skip t c c' past :
  skips skip skip_transaction_dupe_check = false ->
  _apply_transaction skip t c = Ok (tt, c') -> remembers past c ->
  remembers (past ++ [trx t]) c' /\ steady (db c) (db c').
Proof.
  intros Hskip H Hr. unfold _apply_transaction in H. apply capture_Ok in H. rewrite Hskip in H. cbn [orb] in H.
  apply st_bind_Ok in H as (u1 & c1 & H1 & H). apply reads_only in H1 as ->; [|keeps_tac].
  apply st_bind_Ok in H as (c1 & c2 & [= <- <-] & H).
  apply st_bind_Ok in H as (u2 & c2 & [Hknown ->]%assert_st_Ok & H).
  apply st_bind_Ok in H as (u3 & c3 & H3 & H). apply reads_only in H3 as ->; [|keeps_tac].
  apply st_bind_Ok in H as (u4 & c4 & H4 & H).
  assert (S4 : chain_steady c c4).
  { eapply on_db_steady; [|exact H4]. apply keeps_loop; [typeclasses eauto|apply charge_steady]. }
  pose proof (remembers_steady _ _ _ S4 Hr) as Hr4. apply st_bind_Ok in H as ([] & c5 & H5 & H).
  assert (Hns : ~ stored (trx t) c4).
  { intros Hst. assert (Hst' : stored (trx t) c) by (unfold stored in *; by rewrite <- (chain_transactions _ _ S4)).
    rewrite known_stored in Hknown; [done| |done]. destruct Hr. split; auto using NoDup_nil_2. }
  destruct (check_times_new _ _ _ _ _ H5 Hr4 Hns) as [Hnew ->].
  apply st_bind_Ok in H as ([] & c6 & H6 & H). destruct (keeps_remember _ _ _ _ H6 Hr4 Hnew) as [Hr6 Hd].
  assert (S7 : chain_steady c6 c').
  { refine (_ : (fun c c' => chain_steady c c') c6 c'). eapply keeps_loop; [typeclasses eauto| |exact H].
    intros op. apply operation_steady. }
  split; [by eapply remembers_steady|]. etransitivity; [apply S4|]. rewrite <- Hd. apply S7.
Qed.

Lemma transactions_remembered skip l c c' past :
  skips skip skip_transaction_dupe_check = false ->
  for_each l (_apply_transaction skip) c = Ok (tt, c') -> remembers past c ->
  remembers (past ++ (trx <$> l)) c' /\ steady (db c) (db c').
Proof.
  intros Hskip. revert c past. induction l as [|t l IH]; intros c past H Hr.
  { injection H as <-. rewrite app_nil_r. split; [done|reflexivity]. }
  apply st_bind_Ok in H as ([] & c1 & H1 & H). destruct (transaction_remembered _ _ _ _ _ Hskip H1 Hr) as [Hr1 S1].
  destruct (IH _ _ H Hr1) as [Hr2 S2]. rewrite <- app_assoc in Hr2. split; [done|by etransitivity].
Qed.

(** ** Forgetting *)

Lemma dedupe_lookup c i o : (i, o) ∈ dedupe_index c -> indices (transactions c) !! i = Some o.
Proof. unfold dedupe_index. rewrite merge_sort_Permutation. by rewrite elem_of_map_to_list. Qed.

Lemma clear_step c i o :
  (i, o) ∈ dedupe_index c -> TransactionObject.get_expiration o < head_block_time (db c) ->
  later c (c <| transactions ::= fun t => t <| indices ::= delete i |> |>).
Proof.
  intros Hi%dedupe_lookup Ho. split; cbn; [apply ids_ok_delete|lia|done|by intros j x [_ Hj]%lookup_delete_Some|].
  intros j x Hj. destruct (decide (j = i)) as [->|Hn]; [|left; by apply lookup_delete_Some].
  rewrite Hi in Hj. injection Hj as <-. by right.
Qed.
Lemma clear_transactions_later fuel : keeps later (clear_transactions_loop fuel).
Proof.
  induction fuel as [|fuel IH]; intros c a c' H; cbn [clear_transactions_loop] in H;
    apply st_bind_Ok in H as (c1 & c2 & [= <- <-] & H);
    (destruct (dedupe_index c) as [|[i o] l] eqn:E; [apply st_ret_Ok in H as [_ ->]; reflexivity|]);
    (case_match eqn:Ex; [|apply st_ret_Ok in H as [_ ->]; reflexivity]); [done|].
  apply st_bind_Ok in H as (u & c3 & ->%modify_st_Ok & H).
  etransitivity; [eapply clear_step; [rewrite E; by left|cbn in Ex; lia]|by eapply IH].
Qed.

(** ** Blocks *)

Lemma expired_proposals_steady : keeps chain_steady Proposals.clear_expired_proposals.
Proof.
  apply keeps_seq; [typeclasses eauto|keeps_tac|intros c]. generalize (length (Proposals.expiring c)) as fuel.
  intros fuel. induction fuel as [|fuel IH]; cbn [Proposals.clear_proposals_loop]; [keeps_tac|].
  apply keeps_seq; [typeclasses eauto|keeps_tac|intros c']. case_match; [keeps_tac|]. case_match; [|keeps_tac].
  apply keeps_seq; [typeclasses eauto|apply try_expired_steady|intros x].
  apply keeps_seq; [typeclasses eauto| |intros _; exact IH]. case_match; [keeps_tac|apply remove_proposal_steady].
Qed.

Lemma header_validated s1 s2 b d w d' :
  Blocks.validate_block_header s1 s2 b d = Ok (w, d') -> d' = d /\ head_block_time d < sb_timestamp b /\ Dgpo.head_block_id (dgpo d) = sb_previous b.
Proof.
  intros H. assert (d' = d) as -> by (apply reads_only in H; [done|keeps_tac]). split; [done|].
  apply st_bind_Ok in H as (d1 & d2 & [= <- <-] & H). apply st_bind_Ok in H as (u & d3 & [Hid%bool_decide_eq_true ->]%assert_st_Ok & H).
  apply st_bind_Ok in H as (u2 & d3 & [Hlt ->]%assert_st_Ok & _). split; [lia|done].
Qed.

Lemma taken_clock b n p : Dgpo.time (Blocks.take_block b n p) = sb_timestamp b /\
  Dgpo.head_block_number (Blocks.take_block b n p) = block_num b /\ Dgpo.head_block_id (Blocks.take_block b n p) = block_id_of b.
Proof.
  unfold Blocks.take_block, Blocks.adjust_reserve_ratio, Blocks.fill_slots. cbv zeta.
  repeat case_match; done.
Qed.
Lemma update_clock s b d u d' :
  Blocks.update_global_dynamic_data s b d = Ok (u, d') ->
  head_block_time d' = sb_timestamp b /\ head_block_num d' = block_num b /\ Dgpo.head_block_id (dgpo d') = block_id_of b.
Proof.
  intros H. apply st_bind_Ok in H as (d1 & d2 & [= <- <-] & H). apply st_bind_Ok in H as (n & d2 & _ & H).
  apply st_bind_Ok in H as ([] & d3 & (p & [= <-] & ->)%modify_dgpo_Ok & H).
  apply st_bind_Ok in H as (d4 & d5 & [= <- <-] & H). apply st_bind_Ok in H as ([] & d5 & H1 & [_ ->]%st_ret_Ok).
  apply reads_only in H1 as ->; [|keeps_tac]. apply (taken_clock b n).
Qed.

Lemma on_db_Ok {X} (m : st database X) c x c' : on_db m c = Ok (x, c') -> exists d, m (db c) = Ok (x, d) /\ c' = c <| db := d |>.
Proof. unfold on_db. destruct (m (db c)) as [[y d]|] eqn:E; [|done]. intros [= <- <-]. by exists d. Qed.

(** What follows the update of the globals is steady but for what it does to the
    block summaries and the old transactions. *)
Lemma finish_keeps (R : chain -> chain -> Prop) `{!PreOrder R} b w : (forall c c', chain_steady c c' -> R c c') ->
  keeps R (create_block_summary b) -> keeps R clear_expired_transactions -> keeps R (finish_block b w).
Proof.
  intros HR Hs Hc. assert (Hd : forall m : st database unit, keeps steady m -> keeps R (on_db m)).
  { intros m Hm c a c' H. by eapply HR, on_db_steady. }
  unfold finish_block. repeat (apply keeps_seq; [typeclasses eauto| |intros _]); try assumption.
  - apply Hd, signing_steady.
  - apply Hd, irreversible_steady.
  - intros c a c' H. by eapply HR, expired_proposals_steady.
  - apply Hd. apply keeps_seq; [typeclasses eauto|keeps_tac|intros d]. apply orders_steady.
  - apply Hd. apply keeps_seq; [typeclasses eauto|keeps_tac|intros d]. apply delegations_steady.
  - apply Hd, schedule_steady.
  - apply Hd, feeds_steady.
  - apply Hd, virtual_supply_steady.
  - apply Hd, pay_block_steady.
  - apply Hd. apply keeps_seq; [typeclasses eauto|keeps_tac|intros d]. apply withdrawals_steady.
  - apply Hd, virtual_supply_steady.
  - apply Hd, recovery_steady.
  - apply Hd, hardforks_steady.
Qed.
Lemma finish_later b w : keeps later (finish_block b w).
Proof.
  apply finish_keeps; [typeclasses eauto|apply chain_steady_later| |].
  - intros c a c' ->%modify_st_Ok. split; cbn; auto; lia.
  - apply keeps_seq; [typeclasses eauto|keeps_tac|intros c]. apply clear_transactions_later.
Qed.

(** Blocks after the first have a head to go on from. *)
Definition same_clock_of (c c' : chain) : Prop := clock (db c') = clock (db c).
#[export] Instance same_clock_preorder : PreOrder same_clock_of.
Proof. split; [done|]. intros c1 c2 c3. unfold same_clock_of. congruence. Qed.
Lemma clear_transactions_clock fuel : keeps same_clock_of (clear_transactions_loop fuel).
Proof.
  induction fuel as [|fuel IH]; cbn [clear_transactions_loop]; (apply keeps_seq; [typeclasses eauto|keeps_tac|intros c]);
    (case_match; [keeps_tac|]); (case_match; [|keeps_tac]); [keeps_tac|].
  apply keeps_seq; [typeclasses eauto|by intros c1 a c2 ->%modify_st_Ok|intros _; exact IH].
Qed.
Lemma finish_clock b w : keeps same_clock_of (finish_block b w).
Proof.
  apply finish_keeps; [typeclasses eauto|by intros c c' [[] _ _]|by intros c a c' ->%modify_st_Ok|].
  apply keeps_seq; [typeclasses eauto|keeps_tac|intros c]. apply clear_transactions_clock.
Qed.

(** A block up to the update of the globals: its header is looked at and its
    extensions are processed, then the transactions are applied. *)
Lemma start_parts skip b c r c' : start_block skip b c = Ok (r, c') ->
  head_block_time (db c) < sb_timestamp (header b) /\ Dgpo.head_block_id (dgpo (db c)) = sb_previous (header b) /\
  exists c1 c2 d, chain_steady c c1 /\ for_each (block_transactions b) (_apply_transaction skip) c1 = Ok (tt, c2) /\
    c' = c2 <| db := d |> /\ head_block_time d = sb_timestamp (header b) /\ head_block_num d = block_num (header b) /\
    Dgpo.head_block_id (dgpo d) = block_id_of (header b).
Proof.
  intros H. unfold start_block in H.
  apply st_bind_Ok in H as (root & c1 & [_ ->]%lift_Ok & H). apply st_bind_Ok in H as (u1 & c1 & [_ ->]%assert_st_Ok & H).
  apply st_bind_Ok in H as (w & c1 & (d1 & (-> & Ht & Hid)%header_validated & ->)%on_db_Ok & H).
  replace (c <| db := db c |>) with c in H by by destruct c. split; [done|]. split; [done|].
  apply st_bind_Ok in H as (c1 & c2 & [= <- <-] & H). apply st_bind_Ok in H as (u2 & c2 & [_ ->]%assert_st_Ok & H).
  apply st_bind_Ok in H as (u3 & c3 & H3 & H).
  assert (S3 : chain_steady c c3) by (eapply on_db_steady; [|exact H3]; keeps_tac).
  apply st_bind_Ok in H as (u4 & c4 & H4 & H).
  assert (S4 : chain_steady c3 c4) by (eapply on_db_steady; [|exact H4]; apply extensions_steady).
  apply st_bind_Ok in H as (w4 & c5 & H5 & H). assert (S5 : chain_steady c4 c5) by (eapply on_db_steady; [|exact H5]; keeps_tac).
  apply st_bind_Ok in H as (c6 & c7 & [= <- <-] & H). apply st_bind_Ok in H as (u6 & c7 & [_ ->]%assert_st_Ok & H).
  apply st_bind_Ok in H as ([] & c7 & H7 & H).
  apply st_bind_Ok in H as (u8 & c8 & (d8 & (Ht8 & Hn8 & Hi8)%update_clock & ->)%on_db_Ok & [_ ->]%st_ret_Ok).
  exists c5, c7, d8. split_and!; [|done..]. etransitivity; [exact S3|by etransitivity].
Qed.

Lemma block_remembered skip b c c' past :
  skips skip skip_transaction_dupe_check = false -> 0 < block_num b ->
  _apply_block skip b c = Ok (tt, c') -> remembers past c ->
  remembers (past ++ (trx <$> block_transactions b)) c'.
Proof.
  intros Hskip Hb (r & c0 & H & Hf)%capture_Ok%st_bind_Ok Hr.
  apply start_parts in H as (Ht & _ & c1 & c2 & d & S & Htx & -> & Ht8 & Hn8 & _).
  destruct (transactions_remembered _ _ _ _ _ Hskip Htx (remembers_steady _ _ _ S Hr)) as [Hr7 S7].
  assert (L : later c2 (c2 <| db := d |>)).
  { destruct (steady_clocks _ _ S7) as [E7 _]. destruct (steady_clocks _ _ (chain_db _ _ S)) as [E5 _].
    change (0 < block_num (header b)) in Hb.
    split; [done|change (head_block_time (db c2) <= head_block_time d); lia|intros _; change (0 < head_block_num d); lia|auto|auto]. }
  assert (N : 0 < head_block_num d) by (rewrite Hn8; exact Hb).
  apply finish_later in Hf. eapply remembers_later; [exact Hf|by apply (l_num _ _ Hf)|].
  by apply (remembers_later _ c2).
Qed.

Lemma transaction_clock skip t : keeps same_clock_of (_apply_transaction skip t).
Proof.
  assert (Hd : forall m : st chain unit, keeps chain_steady m -> keeps same_clock_of m) by (intros m Hm c a c' H; by apply (Hm c a c' H)).
  apply keeps_capture. repeat (apply keeps_seq; [typeclasses eauto| |intro]); try (keeps_tac; fail).
  - apply Hd, on_db_steady. apply keeps_loop; [typeclasses eauto|apply charge_steady].
  - destruct (skips skip skip_transaction_dupe_check); [keeps_tac|].
    apply keeps_seq; [typeclasses eauto|keeps_tac|intros c]. apply keeps_seq; [typeclasses eauto|keeps_tac|intros _].
    by intros c1 x1 c2 ->%modify_st_Ok.
  - apply keeps_loop; [typeclasses eauto|intros op]. apply Hd, operation_steady.
Qed.

(** A block goes on from the head and becomes the head. *)
Lemma block_head skip b c c' : _apply_block skip b c = Ok (tt, c') ->
  previous b = Dgpo.head_block_id (dgpo (db c)) /\ Dgpo.head_block_id (dgpo (db c')) = block_id_of b.
Proof.
  intros (r & c0 & H & Hf)%capture_Ok%st_bind_Ok. apply start_parts in H as (_ & Hp & c1 & c2 & d & _ & _ & -> & _ & _ & Hi).
  split; [done|]. apply finish_clock in Hf. unfold same_clock_of, clock in Hf. injection Hf as _ _ Hf. rewrite Hf. exact Hi.
Qed.

(** Blocks one after the other, each with its flags. *)
Definition apply_blocks (l : list (Z * full_block)) : st chain unit :=
  for_each l (fun x => _apply_block x.1 x.2).
Definition applied (l : list (Z * full_block)) : list transaction :=
  concat ((fun x => trx <$> block_transactions x.2) <$> l).

Lemma blocks_remembered l c c' past :
  Forall (fun x => skips x.1 skip_transaction_dupe_check = false /\ 0 < block_num x.2) l ->
  apply_blocks l c = Ok (tt, c') -> remembers past c -> remembers (past ++ applied l) c'.
Proof.
  intros Hl. revert c past. induction Hl as [|[skip b] l [Hs Hb] Hl IH]; intros c past H Hr.
  { injection H as <-. by rewrite app_nil_r. }
  apply st_bind_Ok in H as ([] & c1 & H1 & H).
  unfold applied. cbn. rewrite app_assoc. apply (IH c1); [exact H|]. by eapply block_remembered.
Qed.

(** C10 In every run of blocks from a state without recent transactions, none of them
    applied below a checkpoint, no transaction is applied twice, even with other
    signatures; and each one stays known until its expiration lies before the head
    block, from where on the check of the expiration refuses it. *)
Theorem no_replay l c c' :
  indices (transactions c) = ∅ ->
  Forall (fun x => skips x.1 skip_transaction_dupe_check = false /\ 0 < block_num x.2) l ->
  apply_blocks l c = Ok (tt, c') ->
  NoDup (applied l) /\
  Forall (fun t => is_known_transaction (transaction_id t) c' = true \/
                   (0 < head_block_num (db c') /\ expiration t < head_block_time (db c'))) (applied l).
Proof.
  intros Hc Hl H. assert (Hr : remembers [] c).
  { split; [intros i Hi|intros i o Hi|by constructor|constructor]; rewrite Hc in Hi; [by destruct Hi as [? ?]|done]. }
  pose proof (blocks_remembered _ _ _ _ Hl H Hr) as Hr'. cbn in Hr'. split; [apply (r_nodup _ _ Hr')|].
  eapply Forall_impl; [exact (r_past _ _ Hr')|]. intros t [Hs|Hx]; [left|by right].
  apply known_stored; [|done]. destruct Hr'. split; auto using NoDup_nil_2.
Qed.
End TransactionFacts.

(** ** Two blocks *)

#[local] Existing Instance boost_reference.
#[local] Instance any_text : TextChecks := {| is_utf8 _ := true; json_is_valid _ := true |}.
#[local] Instance own_address : Addresses := {| addresses_of k := [k] |}.
#[local] Instance some_wire : Wire :=
  {| transaction_id t := expiration t; sig_digest t := expiration t; recover_key s _ := Ok s; trx_size _ := 100;
     merkle_digest t := expiration (trx t); hash_pair x y := x + y; checksum x := x; id_word i := 0 |}.

Definition start : chain :=
  Chain (Sample.state <| dgpo ::= (fun p => p <| Dgpo.head_block_id := BlockId 1000 9 |> <| Dgpo.maximum_block_size := 131072 |>
      <| Dgpo.max_virtual_bandwidth := 26000000000000000 |>) |>)
    Sample.no_objects Sample.no_objects ∅.
Definition pay (exp : Z) : signed_transaction :=
  SignedTransaction (Transaction 0 0 exp [Operations.transfer (Balances.Transfer "alice" "bob" (Asset 10 BTCM_SYMBOL) "")]) [].
(** Every check is left out but the one for duplicates. *)
Definition flags : Z := Z.lxor skip_checkpointed skip_transaction_dupe_check.
Definition block (prev : block_id) (time d : Z) (l : list signed_transaction) : full_block :=
  FullBlock (SignedBlock prev time "alice" [] d 5 200) 0 l.
Definition two_blocks : list (Z * full_block) :=
  [(flags, block (BlockId 1000 9) (BTCM_GENESIS_TIME + 3) 10 [pay (BTCM_GENESIS_TIME + 60); pay (BTCM_GENESIS_TIME + 61)]);
   (flags, block (BlockId 1001 10) (BTCM_GENESIS_TIME + 6) 11 [pay (BTCM_GENESIS_TIME + 62)])].

Lemma no_replay_witness :
  is_ok (apply_blocks two_blocks start) = true /\ length (applied two_blocks) = 3%nat /\ NoDup (applied two_blocks) /\
  is_ok (apply_blocks (two_blocks ++ [(flags, block (BlockId 1002 11) (BTCM_GENESIS_TIME + 9) 12 [pay (BTCM_GENESIS_TIME + 60)])]) start) = false.
Proof.
  split; [vm_compute; reflexivity|]. split; [reflexivity|]. split; [|vm_compute; reflexivity].
  destruct (apply_blocks two_blocks start) as [[[] c']|e] eqn:E; [|exfalso; by vm_compute in E].
  destruct (no_replay two_blocks start c' eq_refl) as [H _]; [|exact E|exact H].
  repeat (apply Forall_cons_2; [by split; vm_compute|]). apply Forall_nil_2.
Defined.
End TransactionFacts.
