(* ===== verification/ProposalFacts.v ===== *)
(** * Proposed transactions

    A proposal refers only to older ones and proposes no proposal.  So the run of a
    proposal cannot reach the proposal itself: it is there to be removed when its
    operations are done, the nesting goes down the numbers, and the processing of
    expired proposals ends. *)

From S2P Require Import Prelude.
From S2P Require Import Uint128.
From S2P Require Import Asset.
From S2P Require Import UndoDatabase.
From S2P Require Import Authority.
From S2P Require Import AuthorityFacts.
From S2P Require Import ForkDatabase.
From S2P Require Import State.
From S2P Require Import Sample.
From S2P Require Import Balance.
From S2P Require Import Blocks.
From S2P Require Import Content.
From S2P Require Import Operations.
From S2P Require Import Proposals.
From S2P Require Import Frames.

Module ProposalFacts.
Import Operations Proposals FlatFacts.

(** ** References to older proposals *)

Definition op_below (n : Z) (op : operation) : Prop :=
  match op with
  | proposal_create _ _ _ => False
  | proposal_update o => pu_proposal o < n
  | proposal_delete o => pd_proposal o < n
  | _ => True
  end.
Definition operations_of (p : Proposal.t) : list operation := operations (Proposal.proposed_transaction p).

(** Every proposal refers to older ones only. *)
Definition ordered (c : chain) : Prop :=
  forall i p, find_proposal i c = Some p -> i < next_id (proposals c) /\ Forall (op_below i) (operations_of p).

(** What no update changes in a proposal. *)
Definition same_terms (p q : Proposal.t) : Prop :=
  Proposal.proposed_transaction q = Proposal.proposed_transaction p /\
  Proposal.expiration_time q = Proposal.expiration_time p /\
  Proposal.review_period_time q = Proposal.review_period_time p /\
  approvals_required q = approvals_required p /\ Proposal.can_veto q = Proposal.can_veto p.
#[export] Instance same_terms_preorder : PreOrder same_terms.
Proof. split; [done|]. intros p q r (?&?&?&?&?) (?&?&?&?&?). split_and!; congruence. Qed.

(** No proposal from [b] on is touched, those below only get approvals or go. *)
Record within (b : Z) (c c' : chain) : Prop := {
  w_next : next_id (proposals c') = next_id (proposals c);
  w_same : forall i, b <= i -> find_proposal i c' = find_proposal i c;
  w_terms : forall i q, find_proposal i c' = Some q -> exists p, find_proposal i c = Some p /\ same_terms p q
}.
#[export] Instance within_preorder b : PreOrder (within b).
Proof.
  split; [intros c; split; [done..|intros i q Hq; by exists q]|].
  intros c1 c2 c3 [N1 S1 T1] [N2 S2 T2]. split; [congruence|intros i Hi; by rewrite S2, S1|].
  intros i r (q & Hq & Hqr)%T2. destruct (T1 i q Hq) as (p & Hp & Hpq). exists p. split; [done|by etransitivity].
Qed.
Lemma within_mono b b' c c' : b <= b' -> within b c c' -> within b' c c'.
Proof. intros Hb [N S T]. split; [done|intros i Hi; apply S; lia|done]. Qed.
Lemma within_ordered b c c' : within b c c' -> ordered c -> ordered c'.
Proof.
  intros [N _ T] Ho i q (p & Hp & Ht & _)%T. destruct (Ho i p Hp) as [Hi Hf]. unfold operations_of in *.
  by rewrite N, Ht.
Qed.

(** A run from an ordered state stays within its bound. *)
Definition runs (b : Z) (c c' : chain) : Prop := ordered c -> within b c c'.
#[export] Instance runs_preorder b : PreOrder (runs b).
Proof.
  split; [intros c _; reflexivity|]. intros c1 c2 c3 H1 H2 Ho. etransitivity; [by apply H1|].
  apply H2. by eapply within_ordered; [apply H1|].
Qed.
Lemma runs_mono b b' {X} (m : st chain X) : b <= b' -> keeps (runs b) m -> keeps (runs b') m.
Proof. intros Hb Hm c a c' H Ho. eapply within_mono; [exact Hb|by eapply Hm]. Qed.

Lemma same_proposals b c c' : proposals c' = proposals c -> within b c c'.
Proof.
  intros E. split; unfold find_proposal; rewrite ?E; [done..|]. intros i q Hq. by exists q.
Qed.
Lemma on_db_runs b {X} (m : st database X) : keeps (runs b) (on_db m).
Proof. intros c a c' H _. unfold on_db in H. destruct (m (db c)) as [[x d]|]; [|done]. injection H as <- <-. by apply same_proposals. Qed.
Lemma try_runs b {X} (m h : st chain X) : keeps (runs b) m -> keeps (runs b) h -> keeps (runs b) (try_st m h).
Proof.
  intros Hm Hh c a c' H. unfold try_st in H. destruct (m c) as [[x d]|e] eqn:E; [|destruct (is_fc_exception e); [by eapply Hh|done]].
  injection H as <- <-. by eapply Hm.
Qed.

(** ** Single steps *)

Lemma get_proposal_Ok i c p c' : get_proposal i c = Ok (p, c') -> find_proposal i c = Some p /\ c' = c.
Proof. intros (c1 & c2 & [= <- <-] & [Hp%of_option_Ok ->]%lift_Ok)%st_bind_Ok. done. Qed.

Lemma remove_proposal_Ok i c u c' : remove_proposal i c = Ok (u, c') ->
  c' = c <| proposals ::= fun t => t <| indices ::= delete i |> |> /\ is_Some (find_proposal i c).
Proof.
  intros (c1 & c2 & [= <- <-] & H)%st_bind_Ok. destruct (find_proposal i c) as [p|] eqn:E; [|done].
  apply modify_st_Ok in H as ->. split; [done|by exists p].
Qed.
Lemma removed_lookup i j c : find_proposal j (c <| proposals ::= fun t => t <| indices ::= delete i |> |>) =
  if decide (j = i) then None else find_proposal j c.
Proof.
  unfold find_proposal. cbn. destruct (decide (j = i)) as [->|Hn]; [apply lookup_delete_eq|by apply lookup_delete_ne].
Qed.
Lemma remove_runs i b : i < b -> keeps (runs b) (remove_proposal i).
Proof.
  intros Hi c u c' [-> _]%remove_proposal_Ok _. split; [done| |].
  - intros j Hj. rewrite removed_lookup. case_decide; [lia|done].
  - intros j q. rewrite removed_lookup. case_decide; [done|]. intros Hq. by exists q.
Qed.

Lemma set_within i p q c b : i < b -> find_proposal i c = Some p -> same_terms p q ->
  within b c (c <| proposals ::= fun t => t <| indices ::= <[i := q]> |> |>).
Proof.
  intros Hi Hp Hs. split; [done| |]; unfold find_proposal in *; cbn.
  - intros j Hj. apply lookup_insert_ne. lia.
  - intros j r. destruct (decide (j = i)) as [->|Hn].
    + rewrite lookup_insert_eq. intros [= <-]. by exists p.
    + rewrite lookup_insert_ne by done. intros Hr. by exists r.
Qed.
Lemma update_terms o p : same_terms p (update_approvals o p).
Proof. by destruct p. Qed.
Lemma update_operations o p : operations_of (update_approvals o p) = operations_of p.
Proof. by destruct p. Qed.

(** ** Runs of operations *)

Section Runs.
Context {B : BoostMP} {T : TextChecks} {A : Addresses}.

Lemma update_runs push o b : pu_proposal o < b -> keeps (runs b) (push (pu_proposal o)) ->
  keeps (runs b) (proposal_update_apply push o).
Proof.
  intros Hb Hpush c a c' H. apply st_bind_Ok in H as (p & c1 & [Hp ->]%get_proposal_Ok & H).
  apply st_bind_Ok in H as (c1 & c2 & [= <- <-] & H). apply st_bind_Ok in H as (u & c2 & [_ ->]%lift_Ok & H).
  apply st_bind_Ok in H as (u2 & c2 & ->%modify_st_Ok & H).
  transitivity (c <| proposals ::= fun t => t <| indices ::= <[pu_proposal o := update_approvals o p]> |> |>).
  { intros _. apply (set_within _ p); [done..|apply update_terms]. }
  refine ((_ : keeps (runs b) _) _ _ _ H). cbv zeta.
  case_match; [keeps_tac|]. apply keeps_seq; [typeclasses eauto|keeps_tac|intros x].
  destruct x; [|keeps_tac]. apply try_runs; [done|keeps_tac].
Qed.

Lemma evaluate_runs push op b : op_below b op -> (forall i, i < b -> keeps (runs b) (push i)) -> keeps (runs b) (evaluate push op).
Proof.
  intros Hop Hp. destruct op; cbn [evaluate op_below] in *; try apply on_db_runs; try done.
  - apply update_runs; auto.
  - apply keeps_seq; [typeclasses eauto| |intros p].
    { apply keeps_seq; [typeclasses eauto|keeps_tac|intros c]. keeps_tac. }
    apply keeps_seq; [typeclasses eauto|keeps_tac|intros u]. by apply remove_runs.
Qed.

Lemma operations_run push l b : Forall (op_below b) l -> (forall i, i < b -> keeps (runs b) (push i)) ->
  keeps (runs b) (for_each l (apply_with push)).
Proof.
  intros Hl Hp. induction Hl as [|op l Hop Hl IH]; [apply keeps_ret; typeclasses eauto|].
  apply keeps_seq; [typeclasses eauto|by apply keeps_capture, evaluate_runs|intros _; exact IH].
Qed.

Lemma push_runs room : forall i b, i < b -> keeps (runs b) (push_nested room i).
Proof.
  induction room as [|room IH]; intros i b Hi c a c' H; cbn [push_nested] in H; [done|]. apply capture_Ok in H.
  apply st_bind_Ok in H as (p & c1 & [Hp ->]%get_proposal_Ok & H).
  apply st_bind_Ok in H as (u & c1 & H1 & H2). intros Ho.
  destruct (Ho i p Hp) as [_ Hops].
  assert (Hl : runs i c c1) by (eapply operations_run; [exact Hops|intros j Hj; by apply IH|exact H1]).
  assert (Hw : within b c c1) by (eapply within_mono; [|by apply Hl]; lia). etransitivity; [exact Hw|].
  eapply remove_runs; [exact Hi|exact H2|]. by eapply within_ordered.
Qed.

(** While its operations run a proposal is not touched, so its removal never fails. *)
Lemma execution_equation room i c p : ordered c -> find_proposal i c = Some p ->
  push_nested (S room) i c =
    match for_each (operations_of p) (apply_with (push_nested room)) c with
    | Ok (_, c1) => Ok (tt, c1 <| proposals ::= fun t => t <| indices ::= delete i |> |>)
    | Throw e => Throw (rethrown e)
    end.
Proof.
  intros Ho Hp. unfold operations_of. cbn [push_nested]. unfold capture at 1, get_proposal, remove_proposal.
  unfold mbind at 1, st_bind at 1. unfold mbind at 1, st_bind at 1. cbn. rewrite Hp. cbn.
  unfold mbind at 1, st_bind at 1. destruct (for_each _ _ c) as [[[] c1]|e] eqn:E; [|done].
  assert (Hw : within i c c1).
  { refine (operations_run _ _ i _ _ _ _ _ E Ho); [by destruct (Ho i p Hp)|]. intros j Hj. by apply push_runs. }
  unfold mbind, st_bind. cbn. by rewrite (w_same _ _ _ Hw i), Hp by lia.
Qed.

(** ** New proposals *)

Definition refers_to (op : operation) : list Z :=
  match op with proposal_update o => [pu_proposal o] | proposal_delete o => [pd_proposal o] | _ => [] end.

Lemma visit_flat op v : is_proposal_operation op = false ->
  visit_references op v = foldl (fun v i => see_proposal i v) v (refers_to op).
Proof. by destruct op. Qed.

Lemma see_all l : forall v, 0 <= v.2 -> v.2 + Z.of_nat (length l) < 2 ^ 64 ->
  let w := foldl (fun v i => see_proposal i v) v l in
  w.2 = v.2 + Z.of_nat (length l) /\ (v.2 <> 0 -> v.1 <= w.1) /\ forall i, i ∈ l -> i <= w.1.
Proof.
  induction l as [|i l IH]; intros [m n] Hn Hl; cbn [snd fst length] in *.
  - cbn. split_and!; [lia|lia|by intros i Hi%elem_of_nil].
  - cbn [foldl]. assert (E : u64 (n + 1) = n + 1) by (apply wrap_small; lia).
    destruct (IH (see_proposal i (m, n))) as (H1 & H2 & H3); [unfold see_proposal; cbn; lia|unfold see_proposal; cbn [snd fst]; lia|].
    revert H1 H2 H3. set (w := foldl _ _ _). unfold see_proposal. cbn [fst snd]. rewrite E. intros H1 H2 H3.
    specialize (H2 ltac:(lia)). assert (Hi : i <= w.1 /\ (n <> 0 -> m <= w.1)).
    { destruct (n =? 0) eqn:E0; cbn in H2; [lia|]. destruct (i >? m) eqn:E1; lia. }
    split_and!; [lia|apply Hi|]. intros j [->|Hj]%elem_of_cons; [apply Hi|auto].
Qed.

Lemma visit_list l : forall v, Forall (fun op => is_proposal_operation op = false) l ->
  foldl (fun v op => visit_references op v) v l = foldl (fun v i => see_proposal i v) v (l ≫= refers_to).
Proof.
  induction l as [|op l IH]; intros v Hl; [done|]. apply Forall_cons in Hl as [Hop Hl]. cbn [foldl].
  rewrite bind_cons, foldl_app, (visit_flat op) by done. by apply IH.
Qed.
Lemma refers_length l : (length (l ≫= refers_to) <= length l)%nat.
Proof. induction l as [|op l IH]; [done|]. rewrite bind_cons, length_app. destruct op; cbn; lia. Qed.

Lemma references_below l n v : Forall (fun op => is_proposal_operation op = false) l -> Z.of_nat (length l) < 2 ^ 64 ->
  v = foldl (fun v op => visit_references op v) (0, 0) l -> (v.2 =? 0) || (n >? v.1) = true -> Forall (op_below n) l.
Proof.
  intros Hl Hlen -> Hv. rewrite visit_list in Hv by done. pose proof (refers_length l) as Hr.
  destruct (see_all (l ≫= refers_to) (0, 0)) as (H2 & _ & H3); [cbn; lia|cbn; lia|]. cbn in H2.
  assert (Hall : forall j, j ∈ l ≫= refers_to -> j < n).
  { intros j Hj. pose proof (H3 j Hj). rewrite H2 in Hv. assert (length (l ≫= refers_to) <> 0%nat).
    { intros E%length_zero_iff_nil. rewrite E in Hj. by apply elem_of_nil in Hj. }
    apply orb_true_iff in Hv as [Hv|Hv]; lia. }
  apply Forall_forall. intros op Hop. rewrite Forall_forall in Hl. specialize (Hl op Hop).
  destruct op; cbn; try done; apply Hall, list_elem_of_bind; eexists; (split; [|exact Hop]); by left.
Qed.

(** A list of operations that fits into memory. *)
Definition small (op : operation) : Prop :=
  match op with proposal_create l _ _ => Z.of_nat (length l) < 2 ^ 64 | _ => True end.

Lemma new_proposal_operations d t e r p : new_proposal d t e r = Ok p ->
  operations_of p = operations t /\ Proposal.expiration_time p = e.
Proof.
  unfold new_proposal. cbv zeta. intros (u & _ & H)%bind_Ok. apply bind_Ok in H as (u2 & _ & H).
  apply bind_Ok in H as (a & _ & H). apply bind_Ok in H as (a2 & _ & [= <-]). by destruct t.
Qed.

Lemma create_effect l e r c u c' : proposal_create_apply l e r c = Ok (u, c') ->
  exists p, new_proposal (db c) (Transaction 0 0 0 l) e r = Ok p /\ c' = c <| proposals ::= fun t => next_object t p |> /\
    head_block_time (db c) < e /\ Forall (fun op => is_proposal_operation op = false) l /\
    let v := foldl (fun v op => visit_references op v) (0, 0) l in (v.2 =? 0) || (next_id (proposals c) >? v.1) = true.
Proof.
  intros H. unfold proposal_create_apply in H. cbv zeta in H. apply st_bind_Ok in H as (u1 & c1 & [_ ->]%lift_Ok & H).
  destruct (visit_references (proposal_create l e r) (0, 0)) as [m n] eqn:Ev.
  change (foldl (fun v op => visit_references op v) (0, 0) l = (m, n)) in Ev.
  apply st_bind_Ok in H as (c1 & c2 & [= <- <-] & H). apply st_bind_Ok in H as (u2 & c2 & [He ->]%assert_st_Ok & H).
  apply st_bind_Ok in H as (u3 & c2 & [_ ->]%assert_st_Ok & H). apply st_bind_Ok in H as (u4 & c2 & [_ ->]%assert_st_Ok & H).
  apply st_bind_Ok in H as (u5 & c2 & [Hn ->]%assert_st_Ok & H). apply st_bind_Ok in H as (u6 & c2 & [_ ->]%lift_Ok & H).
  apply st_bind_Ok in H as (u7 & c2 & [Hm ->]%assert_st_Ok & H).
  apply st_bind_Ok in H as (p & c2 & [Hp ->]%lift_Ok & ->%modify_st_Ok). exists p. split_and!; [done|done|lia| |].
  - apply Forall_forall. intros op Hop%list_elem_of_In. rewrite forallb_forall in Hn. by apply negb_true_iff, Hn.
  - cbv zeta. rewrite Ev. exact Hm.
Qed.

Lemma create_ordered l e r c u c' : proposal_create_apply l e r c = Ok (u, c') -> Z.of_nat (length l) < 2 ^ 64 ->
  ordered c -> ordered c'.
Proof.
  intros (p & [Hp _]%new_proposal_operations & -> & _ & Hops & Hv)%create_effect Hlen Ho i q. unfold find_proposal. cbn.
  destruct (decide (i = next_id (proposals c))) as [->|Hi].
  - rewrite lookup_insert_eq. intros [= <-]. rewrite Hp. split; [lia|]. by eapply references_below.
  - rewrite lookup_insert_ne by done. intros Hq. destruct (Ho i q Hq). split; [lia|done].
Qed.

(** Operations at the top, which may refer to any proposal. *)
Lemma operation_ordered op c u c' : small op -> apply_operation op c = Ok (u, c') -> ordered c -> ordered c'.
Proof.
  intros Hs H%capture_Ok Ho. assert (Hd : (exists l e r, op = proposal_create l e r) \/ exists b, op_below b op).
  { destruct op; try (right; by exists 0); [left; eauto|right; exists (pu_proposal o + 1); cbn; lia|right; exists (pd_proposal o + 1); cbn; lia]. }
  destruct Hd as [(l & e & r & ->)|[b Hb]]; [by eapply create_ordered|].
  eapply within_ordered; [|exact Ho]. eapply evaluate_runs; [exact Hb|intros i Hi; by apply push_runs|exact H|exact Ho].
Qed.

(** ** Expired proposals *)

Definition due (c : chain) (kv : Z * Proposal.t) : Prop := Proposal.expiration_time kv.2 <= head_block_time (db c).

(** One turn of the loop, and the loop without fuel: a derivation is a finite run. *)
Definition turn (kv : Z * Proposal.t) : st chain unit :=
  executed ← try_expired kv; if executed : bool then mret tt else remove_proposal kv.1.
Inductive clears : chain -> result (unit * chain) -> Prop :=
  | clears_none c : expiring c = [] -> clears c (Ok (tt, c))
  | clears_early c kv l : expiring c = kv :: l -> ~ due c kv -> clears c (Ok (tt, c))
  | clears_turn c kv l c1 r : expiring c = kv :: l -> due c kv -> turn kv c = Ok (tt, c1) -> clears c1 r -> clears c r
  | clears_throw c kv l e : expiring c = kv :: l -> due c kv -> turn kv c = Throw e -> clears c (Throw e).

Lemma expiring_lookup c i p : (i, p) ∈ expiring c <-> find_proposal i c = Some p.
Proof. unfold expiring. rewrite merge_sort_Permutation. by rewrite elem_of_map_to_list. Qed.
Lemma expiring_length c : length (expiring c) = size (indices (proposals c)).
Proof. unfold expiring. by rewrite merge_sort_Permutation, length_map_to_list. Qed.

Lemma push_all_runs i b : i < b -> keeps (runs b) (push_proposal i).
Proof. apply push_runs. Qed.

Lemma push_effect i p c : ordered c -> find_proposal i c = Some p ->
  match push_proposal i c with
  | Ok (_, c1) => find_proposal i c1 = None /\ within (next_id (proposals c)) c c1
  | Throw _ => True
  end.
Proof.
  intros Ho Hp. destruct (Ho i p Hp) as [Hb _]. destruct (push_proposal i c) as [[[] c1]|e] eqn:E; [|done].
  split; [|by eapply (push_all_runs i _ Hb)]. unfold push_proposal in E. change max_proposal_nesting with (S 41) in E.
  rewrite (execution_equation _ _ _ _ Ho Hp) in E. destruct (for_each _ _ c) as [[[] c2]|e]; [|done]. injection E as <-.
  by rewrite removed_lookup, decide_True.
Qed.

(** What a turn comes to: the proposal is gone, no other is new. *)
Lemma turn_effect kv c : ordered c -> find_proposal kv.1 c = Some kv.2 ->
  match turn kv c with
  | Ok (_, c1) => find_proposal kv.1 c1 = None /\ within (next_id (proposals c)) c c1
  | Throw e => is_fc_exception e = false
  end.
Proof.
  intros Ho Hp. destruct (Ho _ _ Hp) as [Hb _].
  assert (Hrem : match remove_proposal kv.1 c with Ok (_, c1) => find_proposal kv.1 c1 = None /\ within (next_id (proposals c)) c c1 | Throw _ => False end).
  { pose proof (remove_runs kv.1 _ Hb c) as Hr. unfold remove_proposal, mbind, st_bind in *. cbn in *. rewrite Hp in *. cbn in *.
    split; [change (find_proposal kv.1 (c <| proposals ::= fun t => t <| indices ::= delete kv.1 |> |>) = None); by rewrite removed_lookup, decide_True|].
    by eapply Hr. }
  pose proof (push_effect kv.1 kv.2 c Ho Hp) as Hpush. unfold turn, try_expired. revert Hpush. generalize (push_proposal kv.1).
  intros push Hpush. unfold try_st, mbind, st_bind. cbn.
  destruct (is_authorized_to_execute (db c) kv.2) as [[]|e]; cbn.
  - destruct (push c) as [[[] c1]|e]; cbn; [done|]. destruct (is_fc_exception e) eqn:Ee; cbn; [|done].
    by destruct (remove_proposal kv.1 c) as [[[] c1]|].
  - by destruct (remove_proposal kv.1 c) as [[[] c1]|].
  - destruct (is_fc_exception e) eqn:Ee; cbn; [|done]. by destruct (remove_proposal kv.1 c) as [[[] c1]|].
Qed.

Lemma gone_smaller i b c c1 : is_Some (find_proposal i c) -> find_proposal i c1 = None -> within b c c1 ->
  (length (expiring c1) < length (expiring c))%nat.
Proof.
  intros Hi Hi1 Hw. rewrite !expiring_length, <- !size_dom. apply subset_size. split.
  - intros j [q Hq]%elem_of_dom. destruct (w_terms _ _ _ Hw j q Hq) as (p & Hp & _). apply elem_of_dom. by exists p.
  - intros Hs. unfold find_proposal in Hi. apply elem_of_dom in Hi. apply Hs, elem_of_dom in Hi as [q Hq]. unfold find_proposal in Hi1. congruence.
Qed.

#[local] Instance by_expiration_trans : Transitive by_expiration.
Proof. intros x y z. unfold by_expiration. lia. Qed.
#[local] Instance by_expiration_total : Total by_expiration.
Proof. intros x y. unfold by_expiration. lia. Qed.
Lemma expiring_first c kv l i p : expiring c = kv :: l -> find_proposal i c = Some p ->
  Proposal.expiration_time kv.2 <= Proposal.expiration_time p.
Proof.
  intros E Hi. apply expiring_lookup in Hi. pose proof (StronglySorted_merge_sort by_expiration (map_to_list (indices (proposals c)))) as Hs.
  fold (expiring c) in Hs. rewrite E in Hs, Hi. apply StronglySorted_cons in Hs as [Hs _].
  apply elem_of_cons in Hi as [<-|Hi]; [done|]. rewrite Forall_forall in Hs. specialize (Hs _ Hi).
  unfold by_expiration in Hs. cbn in Hs. lia.
Qed.

Definition cleared (c : chain) (r : result (unit * chain)) : Prop :=
  match r with
  | Ok (_, c') => ordered c' /\ within (next_id (proposals c)) c c' /\
      forall i p, find_proposal i c' = Some p -> head_block_time (db c') < Proposal.expiration_time p
  | Throw e => is_fc_exception e = false
  end.
Lemma cleared_after c c1 r : within (next_id (proposals c)) c c1 -> cleared c1 r -> cleared c r.
Proof.
  intros Hw. destruct r as [[u c']|e]; [|done]. intros (Ho & Hw' & Hn). split_and!; [done| |done].
  etransitivity; [exact Hw|]. eapply within_mono; [|exact Hw']. by rewrite (w_next _ _ _ Hw).
Qed.

Lemma cleared_now c : ordered c -> (forall i p, find_proposal i c = Some p -> head_block_time (db c) < Proposal.expiration_time p) ->
  cleared c (Ok (tt, c)).
Proof. intros Ho Hn. split_and!; [done|reflexivity|done]. Qed.
Lemma cleared_empty c : ordered c -> expiring c = [] -> cleared c (Ok (tt, c)).
Proof. intros Ho E. apply cleared_now; [done|]. intros i p Hi%expiring_lookup. rewrite E in Hi. by apply elem_of_nil in Hi. Qed.

Lemma loop_equation fuel c : clear_proposals_loop (S fuel) c =
  match expiring c with
  | [] => Ok (tt, c)
  | kv :: _ =>
      if Proposal.expiration_time kv.2 <=? head_block_time (db c)
      then match turn kv c with Ok (_, c1) => clear_proposals_loop fuel c1 | Throw e => Throw e end else Ok (tt, c)
  end.
Proof.
  cbn [clear_proposals_loop]. unfold turn, mbind, st_bind. cbn [get_st]. destruct (expiring c) as [|kv l]; [done|].
  case_match; [|done]. by destruct (try_expired kv c) as [[[] c1]|e].
Qed.

Lemma clear_loop fuel : forall c, ordered c -> (length (expiring c) <= fuel)%nat ->
  clears c (clear_proposals_loop fuel c) /\ cleared c (clear_proposals_loop fuel c).
Proof.
  induction fuel as [|fuel IH]; intros c Ho Hf.
  { assert (E : expiring c = []) by (destruct (expiring c); [done|cbn in Hf; lia]). cbn. unfold mbind, st_bind. cbn. rewrite E.
    split; [by apply clears_none|by apply cleared_empty]. }
  rewrite !loop_equation. destruct (expiring c) as [|kv l] eqn:E.
  { split; [by apply clears_none|by apply cleared_empty]. }
  destruct (Proposal.expiration_time kv.2 <=? head_block_time (db c)) eqn:Ex.
  2:{ split; [eapply clears_early; [exact E|unfold due; lia]|]. apply cleared_now; [done|].
      intros i p Hi. pose proof (expiring_first _ _ _ _ _ E Hi). lia. }
  assert (Hk : find_proposal kv.1 c = Some kv.2) by (apply expiring_lookup; rewrite E; destruct kv; by left).
  pose proof (turn_effect kv c Ho Hk) as He. destruct (turn kv c) as [[[] c1]|e] eqn:Et.
  - destruct He as [Hgone Hw]. destruct (IH c1) as [Hc Hd].
    + by eapply within_ordered.
    + assert (length (expiring c1) < length (expiring c))%nat; [|rewrite E in *; cbn in *; lia].
      eapply gone_smaller; [by exists kv.2|exact Hgone|exact Hw].
    + split; [eapply clears_turn; [exact E|unfold due; lia|exact Et|exact Hc]|]. by eapply cleared_after.
  - split; [eapply clears_throw; [exact E|unfold due; lia|exact Et]|exact He].
Qed.

(** ** The properties *)

(** C11 Proposals only refer to older ones: every operation keeps it so, and so does
    the execution of a proposal.  So an executed proposal is still there, untouched,
    when its operations are done and it is removed; proposals as new as it are not
    touched at all. *)
Theorem proposals_refer_back c : ordered c ->
  (forall op u c', small op -> apply_operation op c = Ok (u, c') -> ordered c') /\
  (forall i p, find_proposal i c = Some p ->
     push_proposal i c =
       match for_each (operations_of p) (apply_with (push_nested (Nat.pred max_proposal_nesting))) c with
       | Ok (_, c1) => Ok (tt, c1 <| proposals ::= fun t => t <| indices ::= delete i |> |>)
       | Throw e => Throw (rethrown e)
       end /\
     forall u c', push_proposal i c = Ok (u, c') -> ordered c' /\ find_proposal i c' = None /\
       forall j, i < j -> find_proposal j c' = find_proposal j c).
Proof.
  intros Ho. split; [intros op u c' Hs H; by eapply operation_ordered|]. intros i p Hp.
  split; [exact (execution_equation 41 i c p Ho Hp)|]. intros u c' H.
  pose proof (push_effect i p c Ho Hp) as He. rewrite H in He. destruct He as [Hi Hw].
  split; [by eapply within_ordered|]. split; [done|]. intros j Hj.
  apply (w_same (i + 1) c c'); [|lia]. by eapply (push_all_runs i (i + 1)); [lia|exact H|].
Qed.

Lemma check_update_throws now o p e : check_update now o p = Throw e -> e = assert_exception.
Proof.
  assert (Hf : forall b e, fc_assert b = Throw e -> e = assert_exception) by (by intros [] e' [= <-]).
  assert (Hb : forall (m k : result unit), (forall e, m = Throw e -> e = assert_exception) ->
    (forall e, k = Throw e -> e = assert_exception) -> forall e, (_ ← m; k) = Throw e -> e = assert_exception).
  { intros [x|x] k H1 H2 e'; cbn; [apply H2|apply H1]. }
  revert e. unfold check_update. repeat apply Hb; try apply Hf. case_match; [case_match; [apply Hf|done]|done].
Qed.

(** C12 An update is refused exactly when the proposal is not there or
    [check_update] fails.  Otherwise the approvals named are added and removed, and a
    proposal without review that is now authorised is executed; when the execution
    fails the update of the approvals stays. *)
Theorem proposal_update_exact o c : ordered c ->
  let id := pu_proposal o in
  let run := proposal_update_apply push_proposal o c in
  match find_proposal id c with
  | None => run = Throw assert_exception
  | Some p =>
      match check_update (head_block_time (db c)) o p with
      | Throw _ => run = Throw assert_exception
      | Ok _ =>
          let q := update_approvals o p in
          let c1 := c <| proposals ::= fun t => t <| indices ::= <[id := q]> |> |> in
          (forall a, a ∈ Proposal.available_active_approvals q <->
             a ∉ active_approvals_to_remove o /\ (a ∈ active_approvals_to_add o \/ a ∈ Proposal.available_active_approvals p)) /\
          (forall a, a ∈ Proposal.available_owner_approvals q <->
             a ∉ owner_approvals_to_remove o /\ (a ∈ owner_approvals_to_add o \/ a ∈ Proposal.available_owner_approvals p)) /\
          match Proposal.review_period_time p, is_authorized_to_execute (db c) q with
          | Some _, _ | None, Ok false => run = Ok (tt, c1)
          | None, Throw e => run = Throw e
          | None, Ok true =>
              run = match for_each (operations_of p) (apply_with (push_nested (Nat.pred max_proposal_nesting))) c1 with
                    | Ok (_, c2) => Ok (tt, c2 <| proposals ::= fun t => t <| indices ::= delete id |> |>)
                    | Throw e => if is_fc_exception (rethrown e) then Ok (tt, c1) else Throw (rethrown e)
                    end
          end
      end
  end.
Proof.
  intros Ho. cbv zeta. unfold proposal_update_apply, get_proposal, set_proposal, mbind, st_bind, lift, modify_st, get_st. cbv beta iota zeta.
  destruct (find_proposal (pu_proposal o) c) as [p|] eqn:Hp; cbn [of_option]; [|done]. cbv beta iota.
  destruct (check_update (head_block_time (db c)) o p) as [u|e] eqn:Hc; [|by apply check_update_throws in Hc as ->]. cbv beta iota.
  split; [|split].
  - intros a. destruct p. cbn. unfold erase_all, insert_all. rewrite (foldl_erase_spec String.ltb), (foldl_insert_spec String.ltb). done.
  - intros a. destruct p. cbn. unfold erase_all, insert_all. rewrite (foldl_erase_spec String.ltb), (foldl_insert_spec String.ltb). done.
  - replace (Proposal.review_period_time (update_approvals o p)) with (Proposal.review_period_time p) by by destruct p.
    destruct (Proposal.review_period_time p); [done|]. cbv beta iota.
    set (c1 := c <| proposals ::= _ |>). destruct (is_authorized_to_execute (db c) (update_approvals o p)) as [[]|e]; [|done..].
    unfold try_st, push_proposal. change max_proposal_nesting with (S 41).
    assert (Hw : within (pu_proposal o + 1) c c1) by (apply (set_within _ p); [lia|done|apply update_terms]).
    rewrite (execution_equation 41 _ c1 (update_approvals o p)).
    + rewrite update_operations. cbn [Nat.pred]. by destruct (for_each _ _ c1) as [[[] c2]|e].
    + by eapply within_ordered.
    + unfold find_proposal, c1. cbn. apply lookup_insert_eq.
Qed.

(** C13 The processing of expired proposals ends - [clears] is the loop of the code,
    run to its end - and leaves no proposal whose expiration is reached; it adds none,
    keeps the terms of those that stay, and stops by nothing that is an fc exception. *)
Theorem expired_proposals_cleared c : ordered c ->
  clears c (clear_expired_proposals c) /\
  match clear_expired_proposals c with
  | Ok (_, c') => ordered c' /\ within (next_id (proposals c)) c c' /\
      forall i p, find_proposal i c' = Some p -> head_block_time (db c') < Proposal.expiration_time p
  | Throw e => is_fc_exception e = false
  end.
Proof. intros Ho. by apply clear_loop. Qed.
End Runs.

(** ** The index of required approvals *)

Lemma inserted_lookup id l idx a : index_lookup a (foldl (index_insert id) idx l) =
  if decide (a ∈ l) then {[ id ]} ∪ index_lookup a idx else index_lookup a idx.
Proof.
  revert idx. induction l as [|b l IH]; intros idx; [done|]. cbn [foldl]. rewrite IH.
  assert (E : index_lookup a (index_insert id idx b) = if decide (a = b) then {[ id ]} ∪ index_lookup a idx else index_lookup a idx).
  { unfold index_lookup, index_insert. destruct (decide (a = b)) as [->|Hab]; [by rewrite lookup_insert_eq|by rewrite lookup_insert_ne by done]. }
  rewrite E. repeat case_decide; set_solver.
Qed.
Lemma removed_index_lookup id l idx a : index_lookup a (foldl (index_remove id) idx l) =
  if decide (a ∈ l) then index_lookup a idx ∖ {[ id ]} else index_lookup a idx.
Proof.
  revert idx. induction l as [|b l IH]; intros idx; [done|]. cbn [foldl]. rewrite IH.
  assert (E : index_lookup a (index_remove id idx b) = if decide (a = b) then index_lookup a idx ∖ {[ id ]} else index_lookup a idx).
  { unfold index_lookup, index_remove. destruct (idx !! b) as [s|] eqn:Eb.
    - case_bool_decide as Hs; (destruct (decide (a = b)) as [->|Hab]; [rewrite Eb|]); cbn.
      + rewrite lookup_delete_eq. cbn. by rewrite Hs.
      + by rewrite lookup_delete_ne.
      + by rewrite lookup_insert_eq.
      + by rewrite lookup_insert_ne.
    - destruct (decide (a = b)) as [->|Hab]; [rewrite Eb; cbn|done]. set_solver. }
  rewrite E. repeat case_decide; set_solver.
Qed.

(** The proposals that the index lists for an account are those that require it. *)
Definition indexed (idx : gmap string (gset Z)) (m : gmap Z Proposal.t) : Prop :=
  forall a i, i ∈ index_lookup a idx <-> exists p, m !! i = Some p /\ a ∈ approvals_required p.

(** The index of required approvals lists for every account exactly the proposals
    that require its approval, whatever proposals come, go and are updated. *)
Lemma required_index_exact idx m i p : indexed idx m ->
  (m !! i = None -> indexed (object_inserted i p idx) (<[i := p]> m)) /\
  (m !! i = Some p -> indexed (object_removed i p idx) (delete i m)) /\
  (forall o, m !! i = Some p -> indexed idx (<[i := update_approvals o p]> m)).
Proof.
  intros Hx. split_and!.
  - intros Hi a j. unfold object_inserted. rewrite inserted_lookup, lookup_insert. specialize (Hx a j).
    repeat case_decide; simplify_eq; set_solver.
  - intros Hi a j. unfold object_removed. rewrite removed_index_lookup, lookup_delete. specialize (Hx a j).
    repeat case_decide; simplify_eq; set_solver.
  - intros o Hi a j. rewrite lookup_insert. rewrite (Hx a j). destruct (decide (i = j)) as [<-|Hj]; [|done].
    assert (E : approvals_required (update_approvals o p) = approvals_required p) by by destruct p.
    split; [intros (q & Hq & Ha)|intros (q & Hq & Ha)]; simplify_eq; eexists; split; try done; by rewrite ?E in *.
Qed.

(** ** Proposals of alice and bob *)

#[local] Existing Instance boost_reference.
#[local] Instance all_text : TextChecks := {| is_utf8 _ := true; json_is_valid _ := true |}.
#[local] Instance key_address : Addresses := {| addresses_of k := [k] |}.

Definition give (from to : string) (x : Z) : operation := transfer (Balances.Transfer from to (Asset x BTCM_SYMBOL) "").
Definition proposed (from : string) (approvals : list string) (ops : list operation) : Proposal.t :=
  Proposal.Make BTCM_GENESIS_TIME None (Transaction 0 0 BTCM_GENESIS_TIME ops) [from] approvals [] [] [] [] [] [] [] [from].
(** Two that are due, of which alice approved hers, and one that agrees to the first. *)
Definition agree (id : Z) (a : string) : proposal_update_operation := ProposalUpdateOp id [a] [] [] [] [] [].
Definition three : chain :=
  Chain Sample.state
    (Table 3 {[0 := proposed "alice" ["alice"] [give "alice" "bob" 10];
               1 := proposed "bob" [] [give "bob" "alice" 1];
               2 := proposed "bob" [] [proposal_update (agree 1 "bob")] <| Proposal.expiration_time := BTCM_GENESIS_TIME + 60 |>]})
    Sample.no_objects ∅.

Lemma three_ordered : ordered three.
Proof.
  intros i p Hp. unfold find_proposal in Hp. cbn in Hp.
  repeat (apply lookup_insert_Some in Hp as [[<- <-]|[_ Hp]]; [split; [done|repeat constructor]|]).
  by rewrite lookup_singleton_Some in Hp; destruct Hp as [<- <-]; split; [|repeat constructor].
Qed.

Definition next_of (m : st chain unit) (c : chain) : chain := match m c with Ok (_, c') => c' | Throw _ => c end.
Lemma next_run m c : is_ok (m c) = true -> m c = Ok (tt, next_of m c).
Proof. unfold next_of. by destruct (m c) as [[[] c']|]. Qed.

Lemma proposals_refer_back_witness :
  let c' := next_of (apply_operation (proposal_create [proposal_update (agree 2 "bob")] (BTCM_GENESIS_TIME + 60) None)) three in
  is_Some (find_proposal 3 c') /\ ordered c' /\ find_proposal 0 (next_of (push_proposal 0) three) = None.
Proof.
  cbv zeta. split; [vm_compute; by eexists|]. destruct (proposals_refer_back three three_ordered) as [H1 H2]. split.
  - eapply H1; [|apply next_run; vm_compute; reflexivity]. cbn. lia.
  - destruct (H2 0 (proposed "alice" ["alice"] [give "alice" "bob" 10]) eq_refl) as [_ H].
    eapply H, next_run. vm_compute. reflexivity.
Defined.

(** Bob's approval executes his proposal. *)
Lemma proposal_update_exact_witness :
  is_ok (proposal_update_apply push_proposal (agree 1 "bob") three) = true /\
  find_proposal 1 (next_of (proposal_update_apply push_proposal (agree 1 "bob")) three) = None /\
  proposal_update_apply push_proposal (agree 1 "alice") three = Throw assert_exception.
Proof.
  split; [vm_compute; reflexivity|]. split; [vm_compute; reflexivity|].
  pose proof (proposal_update_exact (agree 1 "alice") three three_ordered) as H. exact H.
Defined.

Lemma expired_proposals_cleared_witness :
  let c' := next_of clear_expired_proposals three in
  is_ok (clear_expired_proposals three) = true /\ (map_to_list (indices (proposals c'))).*1 = [2] /\
  forall i p, find_proposal i c' = Some p -> BTCM_GENESIS_TIME < Proposal.expiration_time p.
Proof.
  cbv zeta. split; [vm_compute; reflexivity|]. split; [vm_compute; reflexivity|].
  destruct (expired_proposals_cleared three three_ordered) as [_ H].
  rewrite (next_run clear_expired_proposals three) in H by (vm_compute; reflexivity). destruct H as (_ & _ & H). exact H.
Defined.

Lemma required_index_exact_witness :
  let p := proposed "alice" [] [] in
  index_lookup "alice" (object_inserted 4 p ∅) = {[4]} /\ indexed (object_removed 4 p (object_inserted 4 p ∅)) (delete 4 {[4 := p]}).
Proof.
  cbv zeta. split; [vm_compute; reflexivity|]. assert (H0 : indexed ∅ ∅).
  { intros a i. unfold index_lookup. rewrite lookup_empty. cbn. split; [set_solver|intros (q & Hq & _)]. by rewrite lookup_empty in Hq. }
  destruct (required_index_exact ∅ ∅ 4 (proposed "alice" [] []) H0) as [H1 _].
  destruct (required_index_exact _ _ 4 (proposed "alice" [] []) (H1 eq_refl)) as (_ & H2 & _). by apply H2.
Defined.
End ProposalFacts.
