(* ===== verification/ConservationFacts.v ===== *)
(** * No operation creates or destroys units

    The gap of an asset, its recorded supply less all its holdings, is the same after
    every operation, transaction and proposal that [admissible] allows, in every sound
    state.  What is not admissible is the issue and the reservation of core assets by
    the operations of user-issued ones, which does move the gap. *)

From S2P Require Import Prelude.
From S2P Require Import SafeInt.
From S2P Require Import Uint128.
From S2P Require Import Asset.
From S2P Require Import AssetFacts.
From S2P Require Import UndoDatabase.
From S2P Require Import Authority.
From S2P Require Import ForkDatabase.
From S2P Require Import State.
From S2P Require Import Sample.
From S2P Require Import Balance.
From S2P Require Import BalanceFacts.
From S2P Require Import AssetEval.
From S2P Require Import AssetEvalFacts.
From S2P Require Import Votes.
From S2P Require Import Social.
From S2P Require Import Vesting.
From S2P Require Import VestingFacts.
From S2P Require Import Delegations.
From S2P Require Import Market.
From S2P Require Import MarketFacts.
From S2P Require Import Streaming.
From S2P Require Import Rewards.
From S2P Require Import RewardFacts.
From S2P Require Import Blocks.
From S2P Require Import Accounts.
From S2P Require Import CreationFacts.
From S2P Require Import Content.
From S2P Require Import ContentFacts.
From S2P Require Import Operations.
From S2P Require Import Proposals.
From S2P Require Import Transactions.
From S2P Require Import Frames.
From S2P Require Import SteadyFacts.
From S2P Require Import BlockSteady.

Module Conserved.
Import Steady Supply RewardFacts ContentFacts AssetEvalFacts.

(** ** The frame *)

Record conserves (d d' : database) : Prop := {
  conserves_steady : steady d d';
  conserves_gap : sound d -> forall id, gap id d' = gap id d
}.
#[export] Instance conserves_preorder : PreOrder conserves.
Proof.
  split; [by split|]. intros d1 d2 d3 [S1 G1] [S2 G2]. split; [by etransitivity|].
  intros Hd id. rewrite G2, G1 by (done || by apply S1). done.
Qed.

(** What is known of a run in a sound state. *)
Lemma conserves_run {A} (m : st database A) : keeps steady m ->
  (forall d a d' id, sound d -> m d = Ok (a, d') -> gap id d' = gap id d) -> keeps conserves m.
Proof. intros Hs Hg d a d' H. split; [by eapply Hs|]. intros Hd id. by eapply Hg. Qed.

(** Every gap moves by [g]. *)
Record shifts (g : Z -> Z) (d d' : database) : Prop := {
  shifts_steady : steady d d';
  shifts_gap : sound d -> forall id, gap id d' = gap id d + g id
}.
Lemma shifts_trans g h d1 d2 d3 : shifts g d1 d2 -> shifts h d2 d3 -> shifts (fun id => g id + h id) d1 d3.
Proof.
  intros [S1 G1] [S2 G2]. split; [by etransitivity|]. intros Hd id. rewrite G2, G1 by (done || by apply S1). lia.
Qed.
Lemma conserves_shifts d d' : conserves d d' -> shifts (fun _ => 0) d d'.
Proof. intros [S G]. split; [done|]. intros Hd id. rewrite G by done. lia. Qed.
Lemma shifts_conserves g d d' : shifts g d d' -> (forall id, g id = 0) -> conserves d d'.
Proof. intros [S G] Hg. split; [done|]. intros Hd id. rewrite G, Hg by done. lia. Qed.
Lemma shifts_ext g h d d' : shifts g d d' -> (forall id, h id = g id) -> shifts h d d'.
Proof. intros [S G] Hg. split; [done|]. intros Hd id. by rewrite G, Hg. Qed.
Lemma shifts_run {A} (m : st database A) g d a d' : keeps steady m -> m d = Ok (a, d') ->
  (sound d -> forall id, gap id d' = gap id d + g id) -> shifts g d d'.
Proof. intros Hs H Hg. split; [by eapply Hs|done]. Qed.

(** The tables that hold nothing. *)
Class Fundless (V : Type) `{Stored V} : Prop :=
  fundless : forall f d id, gap id (upd_tbl f d) = gap id d.
#[export] Hint Extern 0 (Fundless _) => (intros ? ? ?; reflexivity) : typeclass_instances.

Section Updates.
Context {V : Type} {St : Stored V} {Ok_ : StoredOk V} {Fr : Framed V} {Fu : Fundless V}.

Lemma conserves_modify i f : keeps conserves (modify (V:=V) i f).
Proof. apply conserves_run; [apply keeps_modify|]. intros d a d' id _ (v & w & _ & _ & ->)%modify_Ok. apply fundless. Qed.
Lemma conserves_modify_pure i f : keeps conserves (modify_pure (V:=V) i f).
Proof. apply conserves_modify. Qed.
Lemma conserves_create v : keeps conserves (create (V:=V) v).
Proof. apply conserves_run; [apply keeps_create|]. intros d a d' id _ (_ & _ & ->)%create_Ok. apply fundless. Qed.
Lemma conserves_remove i : keeps conserves (remove (V:=V) i).
Proof. apply conserves_run; [apply keeps_remove|]. intros d a d' id _ ->%remove_Ok. apply fundless. Qed.
End Updates.

(** What an account holds. *)
Definition funds (a : Account.t) : Z * Z * Z :=
  (amount (Account.balance a), amount (Account.mbd_balance a), amount (Account.vesting_shares a)).
Lemma conserves_account i f : (forall a w, f a = Ok w -> funds w = funds a) -> keeps conserves (modify (V:=Account.t) i f).
Proof.
  intros Hf. apply conserves_run; [apply keeps_modify|]. intros d u d' id _ (a & w & Ha & [= E1 E2 E3]%Hf & ->)%modify_Ok.
  rewrite (gap_set_account _ _ a) by done. rewrite E1, E2, E3. repeat case_match; lia.
Qed.

(** What the globals record. *)
Definition recorded (p : Dgpo.t) : Z * Z * Z * Z :=
  (amount (Dgpo.current_supply p), amount (Dgpo.current_mbd_supply p), amount (Dgpo.total_vesting_shares p),
   amount (Dgpo.total_vesting_fund_btcm p)).
Lemma conserves_globals f : (forall p p', f p = Ok p' -> same_clock p p' /\ recorded p' = recorded p) -> keeps conserves (modify_dgpo f).
Proof.
  intros Hf. apply conserves_run; [apply keeps_dgpo; intros p p' []%Hf; done|].
  intros d u d' id _ (p & [_ [= E1 E2 E3 E4]]%Hf & ->)%modify_dgpo_Ok. rewrite gap_set_dgpo, E1, E2, E3, E4.
  repeat case_match; lia.
Qed.

Lemma conserves_content i f : (forall c w, f c = Ok w -> held_content w = held_content c) -> keeps conserves (modify (V:=Content.t) i f).
Proof.
  intros Hf. apply conserves_run; [apply keeps_modify|]. intros d u d' id _ (c & w & Hc & Hw%Hf & ->)%modify_Ok.
  by apply (content_gap_0 d i c).
Qed.
Lemma conserves_new_content c : held_content c = 0 -> keeps conserves (create (V:=Content.t) c).
Proof.
  intros Hc. apply conserves_run; [apply keeps_create|]. intros d u d' id Hd (_ & _ & ->)%create_Ok.
  apply gap_create_content; [|done]. apply ids_below_fresh, Hd.
Qed.

Lemma gap_same_asset d i (a w : AssetObject.t) id : get_opt d i = Some a ->
  AssetObject.current_supply w = AssetObject.current_supply a -> gap id (set_obj d i w) = gap id d.
Proof.
  intros Ha Hw. unfold gap. change (held_user id (set_obj d i w)) with (held_user id d).
  repeat (destruct (_ =? _); [reflexivity|]). f_equal. unfold user_supply. rewrite get_set_obj.
  destruct (decide (id = i)) as [->|]; [|done]. by rewrite Ha.
Qed.
Lemma conserves_asset i f : (forall a w, f a = Ok w -> AssetObject.current_supply w = AssetObject.current_supply a) ->
  keeps conserves (modify (V:=AssetObject.t) i f).
Proof.
  intros Hf. apply conserves_run; [apply keeps_modify|]. intros d u d' id _ (a & w & Ha & Hw%Hf & ->)%modify_Ok.
  by apply (gap_same_asset d i a).
Qed.
Lemma conserves_new_asset a : AssetObject.current_supply a = 0 -> keeps conserves (create (V:=AssetObject.t) a).
Proof.
  intros Ha. apply conserves_run; [apply keeps_create|]. intros d u d' id Hd (_ & _ & ->)%create_Ok.
  apply gap_create_asset; [|done]. apply ids_below_fresh, Hd.
Qed.

(** Parts that balance each other only together are not in the frame. *)
Ltac solve_funds :=
  let x := fresh "x" in let y := fresh "y" in let H := fresh "H" in
  intros x y H; read_update H; asset_inv; first [reflexivity|cbn; congruence|repeat case_match; reflexivity].
Ltac solve_globals :=
  let p := fresh "p" in let p' := fresh "p'" in let Hp := fresh "Hp" in
  intros p p' Hp; read_update Hp; asset_inv; (split; [split_and!|]); first [reflexivity|cbn; congruence].
End Conserved.
#[export] Hint Resolve Conserved.conserves_modify Conserved.conserves_modify_pure Conserved.conserves_create
  Conserved.conserves_remove : keeps.

Module ConservationFacts.
Import AssetOps Accounts Market Steady Supply Conserved SteadyFacts BlockSteady MarketFacts RewardFacts ContentFacts.

#[local] Hint Extern 1 (keeps conserves (modify (V:=Account.t) _ _)) => (apply conserves_account; solve_funds) : keeps.
#[local] Hint Extern 1 (keeps conserves (modify_pure (V:=Account.t) _ _)) => (apply conserves_account; solve_funds) : keeps.
#[local] Hint Extern 1 (keeps conserves (modify_dgpo _)) => (apply conserves_globals; solve_globals) : keeps.
#[local] Hint Extern 1 (keeps conserves (modify_pure (V:=AssetObject.t) _ _)) => (apply conserves_asset; solve_funds) : keeps.
#[local] Hint Extern 1 (keeps conserves (modify (V:=Content.t) _ _)) => (apply conserves_content; solve_funds) : keeps.
#[local] Hint Extern 1 (keeps conserves (modify_pure (V:=Content.t) _ _)) => (apply conserves_content; solve_funds) : keeps.
#[local] Hint Extern 1 (keeps conserves (create (V:=Content.t) _)) => (apply conserves_new_content; reflexivity) : keeps.

Section Evaluators.
Context {B : BoostMP} {T : TextChecks} {A : Addresses}.

(** ** Operations that move no funds *)

Lemma fold_conserves {X} i (f : Account.t -> X -> result Account.t) l :
  (forall a x w, f a x = Ok w -> funds w = funds a) -> keeps conserves (modify (V:=Account.t) i (fun a => foldM f a l)).
Proof.
  intros Hf. apply conserves_account. induction l as [|x l IH]; intros a w H; cbn in H; [by injection H as ->|].
  apply bind_Ok in H as (a1 & H1%Hf & H%IH). congruence.
Qed.
#[local] Hint Extern 0 (keeps conserves (modify (V:=Account.t) _ (fun a => foldM _ a _))) =>
  (apply fold_conserves; let H := fresh in intros ? ? ? H; by read_update H; asset_inv) : keeps.
Lemma deltas_conserves room a l : keeps conserves (Votes.adjust_proxied_deltas room a l).
Proof. revert a l. induction room as [|room IH]; intros a l; cbn [Votes.adjust_proxied_deltas]; keeps_tac. Qed.
Lemma delta_conserves room a x : keeps conserves (Votes.adjust_proxied_delta room a x).
Proof. revert a x. induction room as [|room IH]; intros a x; cbn [Votes.adjust_proxied_delta]; keeps_tac. Qed.
Lemma proxy_chain_conserves fuel s a : keeps conserves (Votes.check_proxy_chain fuel s a).
Proof. revert s a. induction fuel as [|fuel IH]; intros s a; cbn [Votes.check_proxy_chain]; keeps_tac. Qed.
#[local] Hint Resolve deltas_conserves delta_conserves proxy_chain_conserves : keeps.
Lemma proxied_conserves a x : keeps conserves (Votes.adjust_proxied_witness_votes a x).
Proof. apply delta_conserves. Qed.
Lemma proxied_array_conserves a l : keeps conserves (Votes.adjust_proxied_witness_votes_array a l).
Proof. apply deltas_conserves. Qed.
#[local] Hint Resolve proxied_conserves proxied_array_conserves : keeps.
Lemma proxy_conserves o : keeps conserves (Votes.account_witness_proxy_apply o).
Proof. keeps_tac. Qed.
Lemma witness_vote_conserves o : keeps conserves (Votes.account_witness_vote_apply o).
Proof. keeps_tac. Qed.
Lemma platform_vote_conserves o : keeps conserves (Votes.account_streaming_platform_vote_apply o).
Proof. keeps_tac. Qed.

Lemma payees_conserves acc l : keeps conserves (Social.add_payees acc l).
Proof. revert acc. induction l as [|x l IH]; intros acc; cbn [Social.add_payees]; keeps_tac. Qed.
#[local] Hint Resolve payees_conserves : keeps.
Lemma score_conserves a x : keeps conserves (Social.recursive_recalculate_score a x).
Proof. keeps_tac. Qed.
Lemma recalculate_conserves a : keeps conserves (Social.recalculate_score a).
Proof. keeps_tac. Qed.
#[local] Hint Resolve score_conserves recalculate_conserves : keeps.
Lemma friendship_conserves o : keeps conserves (Social.friendship_apply o).
Proof. keeps_tac. Qed.
Lemma unfriend_conserves o : keeps conserves (Social.unfriend_apply o).
Proof. keeps_tac. Qed.

Lemma withdraw_conserves o : keeps conserves (Vesting.withdraw_vesting_apply o).
Proof. keeps_tac. Qed.
Lemma route_conserves o : keeps conserves (Vesting.set_withdraw_vesting_route_apply o).
Proof. keeps_tac. Qed.
Lemma keeps_at i f (a : Account.t) d u d' : get_opt d i = Some a -> (forall w, f a = Ok w -> funds w = funds a) ->
  modify i f d = Ok (u, d') -> conserves d d'.
Proof.
  intros Ha Hf H. split; [by eapply (keeps_modify (V:=Account.t))|]. intros _ id. apply modify_Ok in H as (b & w & Hb & Hw & ->).
  rewrite Ha in Hb. injection Hb as <-. apply Hf in Hw as [= E1 E2 E3]. rewrite (gap_set_account _ _ a) by done.
  rewrite E1, E2, E3. repeat case_match; lia.
Qed.
Lemma redelegate_funds old new a r : Delegations.redelegate_all old new a = Ok r -> funds r.1 = funds a.
Proof.
  unfold Delegations.redelegate_all. generalize (Delegations.redelegations_of a) as l, (@nil (Z * Z)) as m. intros l. revert a.
  induction l as [|x l IH]; intros a m H; cbn [foldM] in H; [by injection H as <-|].
  apply bind_Ok in H as ([b m'] & H1 & H%IH). rewrite H. cbn [fst]. unfold Delegations.redelegate_one in H1.
  read_update H1; done || by (injection H1 as <-).
Qed.
Lemma redelegations_conserves i old new : keeps conserves (Delegations.update_redelegations i old new).
Proof.
  intros d u d' H. unfold Delegations.update_redelegations in H. step H as a Ha. destruct (_ && _); [|by apply st_ret_Ok in H as [_ ->]].
  step H as r Hr. apply redelegate_funds in Hr. step H as [] E1. transitivity x.
  - apply (keeps_at i (fun _ => Ok r.1) a d tt x Ha); [|exact E1]. by intros w [= <-].
  - revert H. apply keeps_loop; [typeclasses eauto|]. keeps_tac.
Qed.
#[local] Hint Resolve redelegations_conserves : keeps.
Lemma delegate_conserves o : keeps conserves (Delegations.delegate_vesting_shares_apply o).
Proof. keeps_tac. Qed.

Lemma request_conserves o : keeps conserves (Streaming.request_stream_reporting_apply o).
Proof. keeps_tac. Qed.
Lemma cancel_report_conserves o : keeps conserves (Streaming.cancel_stream_reporting_apply o).
Proof. keeps_tac. Qed.
Lemma report_conserves o : keeps conserves (Streaming.streaming_platform_report_apply o).
Proof. keeps_tac. Qed.

Lemma update_account_conserves i now o : keeps conserves (modify_pure i (Accounts.update_account now o)).
Proof.
  apply conserves_account. intros a w [= <-]. unfold Accounts.update_account.
  by destruct (au_active o), (au_basic o), (negb _), (_ && _), (0 <? _)%nat.
Qed.
#[local] Hint Resolve update_account_conserves : keeps.
Lemma account_update_conserves o : keeps conserves (Accounts.account_update_apply o).
Proof. keeps_tac. Qed.
Lemma prove_conserves o : keeps conserves (Accounts.prove_authority_apply o).
Proof. keeps_tac. Qed.
Lemma recovery_request_conserves o : keeps conserves (Accounts.request_account_recovery_apply o).
Proof. keeps_tac. Qed.
Lemma recover_conserves o : keeps conserves (Accounts.recover_account_apply o).
Proof. keeps_tac. Qed.
Lemma change_recovery_conserves o : keeps conserves (Accounts.change_recovery_account_apply o).
Proof. keeps_tac. Qed.
Lemma custom_json_conserves o : keeps conserves (Proposals.custom_json_apply o).
Proof. keeps_tac. Qed.
Lemma feed_conserves o : keeps conserves (Market.feed_publish_apply o).
Proof. keeps_tac. Qed.
Lemma asset_update_conserves o : keeps conserves (AssetEval.update_apply o).
Proof. keeps_tac. Qed.
Lemma bandwidth_conserves a n : keeps conserves (Balances.update_account_bandwidth a n).
Proof. keeps_tac. Qed.
Lemma market_bandwidth_conserves a n : keeps conserves (Balances.update_account_market_bandwidth a n).
Proof. keeps_tac. Qed.
Lemma witness_update_conserves o : keeps conserves (Votes.witness_update_apply o).
Proof. keeps_tac. Qed.

(** ** Payments *)

(** What holders of [s] get, the gap loses. *)
Definition given_out (s x id : Z) : Z := if id =? s then - x else 0.

Lemma sound_balances d : sound d -> fresh Balance.t d.
Proof. intros Hd. apply ids_below_fresh, Hd. Qed.

Lemma balance_shifts a x d u d' : asset_id x <> VESTS_SYMBOL -> Balances.adjust_balance a x d = Ok (u, d') ->
  shifts (given_out (asset_id x) (amount x)) d d'.
Proof.
  intros Hv H. eapply shifts_run; [apply balance_steady|exact H|]. intros Hd%sound_balances id.
  rewrite (gap_adjust_balance _ _ _ _ _ id Hd Hv H). unfold given_out. destruct (_ =? _); lia.
Qed.
Lemma vesting_shifts a x d n d' : Vesting.create_vesting a x d = Ok (n, d') ->
  shifts (given_out BTCM_SYMBOL (amount x)) d d'.
Proof.
  intros H. eapply shifts_run; [apply vesting_steady|exact H|]. intros _ id.
  rewrite (VestingFacts.create_vesting_gap _ _ _ _ _ id H). unfold given_out. destruct (_ =? _); lia.
Qed.
Lemma mbd_shifts a x d r d' : asset_id x = BTCM_SYMBOL -> Balances.create_mbd a x d = Ok (r, d') ->
  shifts (given_out BTCM_SYMBOL (amount x)) d d'.
Proof.
  intros Hx H. eapply shifts_run; [apply mbd_steady|exact H|]. intros Hd%sound_balances id.
  rewrite (gap_create_mbd _ _ _ _ _ id Hd Hx H). unfold given_out. destruct (_ =? _); lia.
Qed.

(** A payment of one account to another. *)
Lemma payment_conserves a b x y d u d1 v d2 : asset_id x <> VESTS_SYMBOL -> asset_id y = asset_id x -> amount y = - amount x ->
  Balances.adjust_balance a y d = Ok (u, d1) -> Balances.adjust_balance b x d1 = Ok (v, d2) -> conserves d d2.
Proof.
  intros Hv E1 E2 H1%balance_shifts H2%balance_shifts; [|done|congruence].
  eapply shifts_conserves; [by eapply shifts_trans|]. intros id. unfold given_out. rewrite E1, E2. destruct (_ =? _); lia.
Qed.

Lemma fee_conserves a fee : keeps conserves (Balances.pay_fee a fee).
Proof.
  apply conserves_run; [apply fee_steady|]. intros d u d' id Hd H.
  destruct (Z.eqb_spec (amount fee) 0) as [E|E].
  { unfold Balances.pay_fee in H. step H as [] E1. rewrite E in H. by apply st_ret_Ok in H as [_ ->]. }
  apply (gap_pay_fee a fee d u); [by apply sound_balances| |done].
  unfold Balances.pay_fee in H. step H as [] E1. apply Z.eqb_neq in E. rewrite E in H. step H as n En. step H as [] E2. step H as m Em.
  apply AssetLemmas.asset_neg_Ok in Em as ->. destruct (adjust_supply_symbol _ _ _ _ _ H) as [E'|E']; cbn in E'; by rewrite E'.
Qed.
#[local] Hint Resolve fee_conserves : keeps.
Lemma platform_update_conserves o : keeps conserves (Streaming.streaming_platform_update_apply o).
Proof. keeps_tac. Qed.

Lemma transfer_conserving o : keeps conserves (Balances.transfer_apply o).
Proof.
  intros d u d' H. destruct u. destruct (transfer_run o d d' H) as (f & fa & t & ta & d1 & b & d2 & Hf & _ & Hv & Hd1 & _ & _ & H1 & H2).
  transitivity d1; [|eapply payment_conserves; [exact Hv| | |exact H1|exact H2]; done].
  destruct Hd1 as [->| ->]; [reflexivity|]. split; [|intros _ id; apply gap_answered].
  split; [unfold answered; by destruct (get_opt d f)|]. intros Hd. unfold answered. destruct (get_opt d f) as [a|] eqn:Ea; [|done].
  apply (framed (V:=Account.t) _ d); [|done]. apply ids_ok_insert. by exists a.
Qed.

Lemma to_vesting_conserves o : asset_id (Vesting.tv_amount o) = BTCM_SYMBOL -> keeps conserves (Vesting.transfer_to_vesting_apply o).
Proof.
  intros Ho. apply conserves_run; [apply to_vesting_steady|]. intros d [] d' id _ H. by apply (VestingFacts.transfer_to_vesting_gap o).
Qed.

Lemma challenge_conserves o : keeps conserves (Accounts.challenge_authority_apply o).
Proof.
  intros d u d' H. unfold challenge_authority_apply in H. step H as cd E1. step H as cr E2. destruct (ch_require_owner o); [done|].
  step H as [] E3. step H as [] E4. step H. step H as [] E5. step H as n En. injection En as <-. step H as [] E6.
  step H as to E7. step H as v E8. apply balance_shifts in E6; [|done]. apply vesting_shifts in E8.
  transitivity x0; [|revert H; apply conserves_account; intros a w [= <-]; done].
  eapply shifts_conserves; [by eapply shifts_trans|]. intros id. unfold given_out. cbn. destruct (_ =? _); lia.
Qed.

(** ** The market *)

Lemma sound_books d : sound d -> books d.
Proof. intros Hd. split; apply Hd. Qed.
Lemma conserved_run {X} (m : st database X) : keeps steady m -> (forall d a d', m d = Ok (a, d') -> conserved d d') -> keeps conserves m.
Proof. intros Hs Hc. apply conserves_run; [done|]. intros d a d' id Hd%sound_books H%Hc. by apply H. Qed.

Lemma order_create_conserves o : limit_order_create_validate o = Ok tt -> keeps conserves (Market.limit_order_create_apply o).
Proof.
  intros _. apply conserved_run; [apply order_create_steady|]. intros d a d' H. eapply sell_conserved; [|exact H].
  intros p Hp. unfold Market.get_price in Hp. by apply make_price_base in Hp as ->.
Qed.
Lemma order_create2_conserves o : limit_order_create2_validate o = Ok tt -> keeps conserves (Market.limit_order_create2_apply o).
Proof.
  intros Hv. apply conserved_run; [apply order_create2_steady|]. intros d a d' H. eapply sell_conserved; [|exact H].
  intros p [= <-]. unfold limit_order_create2_validate in Hv. apply bind_Ok in Hv as (_ & _ & Hv).
  apply bind_Ok in Hv as ([] & Hi%fc_assert_Ok & _). by apply Z.eqb_eq in Hi.
Qed.
Lemma order_cancel_conserves o : keeps conserves (Market.limit_order_cancel_apply o).
Proof.
  apply conserved_run; [apply order_cancel_steady|]. intros d a d' H.
  unfold limit_order_cancel_apply, get_limit_order in H. step H as [i x] E. by eapply cancel_conserved.
Qed.
Lemma convert_conserves o : convert_validate o = Ok tt -> keeps conserves (Market.convert_apply o).
Proof.
  intros Hv. apply conserves_run; [apply convert_steady|]. intros d a d' id Hd H.
  eapply (convert_conserved o); [|apply Hd|exact H|by apply sound_books].
  unfold convert_validate in Hv. apply bind_Ok in Hv as (_ & _ & Hv). apply bind_Ok in Hv as ([] & E%fc_assert_Ok & _). by apply Z.eqb_eq in E.
Qed.
Lemma expire_orders_conserves : keeps conserves Market.clear_expired_orders.
Proof.
  apply conserved_run; [unfold Market.clear_expired_orders; apply keeps_seq; [typeclasses eauto|keeps_tac|intros d; apply orders_steady]|].
  intros d a d' H. unfold clear_expired_orders in H. step H. by eapply clear_loop_conserved.
Qed.

(** ** User-issued assets *)

Definition core_asset (id : Z) : bool := (id =? BTCM_SYMBOL) || (id =? VESTS_SYMBOL) || (id =? XUSD_SYMBOL).

(** The object of a core asset does not say how much of it there is. *)
Lemma gap_core d i (w : AssetObject.t) id : core_asset id = true -> gap id (set_obj d i w) = gap id d.
Proof.
  unfold gap, core_asset. change (held_user id (set_obj d i w)) with (held_user id d).
  destruct (id =? BTCM_SYMBOL); [done|]. destruct (id =? XUSD_SYMBOL); [done|]. by destruct (id =? VESTS_SYMBOL).
Qed.

Lemma gap_supply d i (a w : AssetObject.t) id : core_asset i = false -> get_opt d i = Some a ->
  gap id (set_obj d i w) = gap id d + (if id =? i then AssetObject.current_supply w - AssetObject.current_supply a else 0).
Proof.
  intros Hi Ha. unfold core_asset in Hi. destruct (core_asset id) eqn:E; unfold core_asset in E.
  - rewrite (proj2 (Z.eqb_neq id i)) by lia. rewrite gap_core by done. lia.
  - apply AssetEvalFacts.gap_set_asset; [done|lia..].
Qed.

Lemma asset_create_conserves o : keeps conserves (AssetEval.create_apply o).
Proof.
  apply conserves_run; [apply create_steady|]. intros d u d' id Hd H. apply (AssetEvalFacts.create_gap o d u); [apply Hd|apply Hd| |done].
  unfold AssetEval.create_apply, AssetEval.find_symbol in H. step H as itr Hi. step H as [] E1. step H as iss Eis. step H as [] E2.
  apply AssetLemmas.asset_geb_Ok in E2 as [E2 _]. cbn in E2. by rewrite E2.
Qed.

Lemma supply_shift a x f k d u d1 v d2 : core_asset (asset_id x) = false -> Balances.adjust_balance a x d = Ok (u, d1) ->
  modify (V:=AssetObject.t) (asset_id x) f d1 = Ok (v, d2) -> k = amount x ->
  (forall b w, f b = Ok w -> AssetObject.current_supply w = AssetObject.current_supply b + k) -> conserves d d2.
Proof.
  intros Hx H1 H2 -> Hf. apply balance_shifts in H1; [|unfold core_asset in Hx; lia].
  eapply shifts_conserves; [eapply shifts_trans; [exact H1|]|].
  - eapply (shifts_run _ (fun id => if id =? asset_id x then amount x else 0)); [apply (keeps_modify (V:=AssetObject.t))|exact H2|].
    intros _ id. apply modify_Ok in H2 as (b & w & Hb & Hw%Hf & ->). rewrite (gap_supply _ _ b) by done. rewrite Hw. destruct (_ =? _); lia.
  - intros id. unfold given_out. destruct (_ =? _); lia.
Qed.
Lemma issue_conserves o : core_asset (asset_id (AssetEval.asset_to_issue o)) = false -> keeps conserves (AssetEval.issue_apply o).
Proof.
  intros Hx d u d' H. unfold AssetEval.issue_apply in H. step H as a Ha. step H as iss Eis. step H as [] E1. step H as ta Et. step H as s Es.
  step H as [] E2. step H as [] E3. eapply supply_shift; [exact Hx|exact E3|exact H|done|].
  intros b w Hw. apply bind_Ok in Hw as (y & ->%Safe.add_Ok & [= <-]). done.
Qed.
Lemma reserve_conserves o : core_asset (asset_id (AssetEval.amount_to_reserve o)) = false -> keeps conserves (AssetEval.reserve_apply o).
Proof.
  intros Hx d u d' H. unfold AssetEval.reserve_apply in H. step H as a Ha. step H as p Ep. step H as n En.
  apply AssetLemmas.asset_neg_Ok in En as ->. step H as [] E3. eapply supply_shift; [|exact E3|exact H|done|]; [exact Hx|].
  intros b w Hw. apply bind_Ok in Hw as (y & ->%Safe.sub_Ok & [= <-]). cbn. lia.
Qed.

(** Reserving BTCM burns units that the recorded supply goes on to count. *)
Lemma reserve_core_gap o d u d' : sound d -> asset_id (AssetEval.amount_to_reserve o) = BTCM_SYMBOL ->
  AssetEval.reserve_apply o d = Ok (u, d') -> gap BTCM_SYMBOL d' = gap BTCM_SYMBOL d + amount (AssetEval.amount_to_reserve o).
Proof.
  intros Hd Hx H. unfold AssetEval.reserve_apply in H. step H as a Ha. step H as p Ep. step H as n En.
  apply AssetLemmas.asset_neg_Ok in En as ->. step H as [] E3. apply balance_shifts in E3 as [_ G]; [|cbn; by rewrite Hx].
  apply modify_Ok in H as (b & w & _ & _ & ->). rewrite gap_core, G by done. unfold given_out. cbn. rewrite Hx. cbn. lia.
Qed.

(** ** Accounts *)

Lemma account_create_conserves o : account_create_validate o = Ok tt -> keeps conserves (Accounts.account_create_apply o).
Proof.
  intros Hv. apply conserves_run; [apply account_create_steady|]. intros d [] d' id Hd H.
  apply (CreationFacts.account_create_gap o); [apply Hd|done..].
Qed.
Lemma account_delegate_conserves o : account_create_with_delegation_validate o = Ok tt ->
  keeps conserves (Accounts.account_create_with_delegation_apply o).
Proof.
  intros Hv. apply conserves_run; [apply account_delegate_steady|]. intros d [] d' id Hd H.
  apply (CreationFacts.account_delegate_gap o); [apply Hd|done..].
Qed.

(** ** Contents and claims *)

Lemma author_shifts x di t d t' d' : asset_id x = BTCM_SYMBOL -> Rewards.pay_author x di t d = Ok (t', d') ->
  asset_id t' = asset_id t /\ shifts (given_out BTCM_SYMBOL (amount t' - amount t)) d d'.
Proof.
  intros Hx H. unfold Rewards.pay_author in H. step H as y Ey. step H as z Ez. step H as t1 Et. step H as vb Evb. step H as au Eau.
  step H as nv Env. step H as nm Enm. apply st_ret_Ok in H as [-> ->].
  apply AssetLemmas.asset_add_Ok in Et as [_ ->]. apply AssetLemmas.asset_sub_Ok in Evb as [_ ->]. cbn [amount asset_id] in *. split; [done|].
  apply vesting_shifts in Env. apply mbd_shifts in Enm; [|done]. eapply shifts_ext; [by eapply shifts_trans|].
  intros id. unfold given_out. cbn. destruct (_ =? _); lia.
Qed.
Lemma authors_shifts x l t d t' d' : asset_id x = BTCM_SYMBOL -> Rewards.pay_authors x l t d = Ok (t', d') ->
  asset_id t' = asset_id t /\ shifts (given_out BTCM_SYMBOL (amount t' - amount t)) d d'.
Proof.
  intros Hx. revert t d. induction l as [|di l IH]; intros t d H; cbn [Rewards.pay_authors] in H.
  { apply st_ret_Ok in H as [-> ->]. split; [done|]. eapply shifts_ext; [by apply conserves_shifts|].
    intros id. unfold given_out. destruct (_ =? _); lia. }
  step H as t1 E1. apply author_shifts in E1 as [I1 S1]; [|done]. apply IH in H as [I2 S2]. split; [congruence|].
  eapply shifts_ext; [by eapply shifts_trans|]. intros id. unfold given_out. destruct (_ =? _); lia.
Qed.

Lemma authors_contents x l t d t' d' : Rewards.pay_authors x l t d = Ok (t', d') -> contents d' = contents d.
Proof.
  revert t d. induction l as [|di l IH]; intros t d H; cbn [Rewards.pay_authors] in H; [by apply st_ret_Ok in H as [_ ->]|].
  step H as t1 E1. apply IH in H as ->. unfold Rewards.pay_author in E1.
  step E1 as y Ey. step E1 as z Ez. step E1 as t2 Et. step E1 as vb Evb. step E1 as au Eau. step E1 as nv Env. step E1 as nm Enm.
  apply st_ret_Ok in E1 as [_ ->]. apply (create_mbd_frame (fun d => contents d)) in Enm as ->; [|done].
  apply create_vesting_Ok in Env as (a & w & p & d1 & _ & _ & _ & _ & -> & Hq & _). by destruct Hq as [_ _ ->].
Qed.

(** What a content had accumulated is paid out or kept. *)
Lemma side_conserves s i : side_ok s -> keeps conserves (Rewards.pay_side s i (Asset 0 BTCM_SYMBOL)).
Proof.
  intros Hs d u d' H. unfold Rewards.pay_side in H. step H as c Ec. destruct (_ =? 0)%nat.
  { revert H. apply conserves_content. intros c0 w Hw. apply bind_Ok in Hw as (a & [_ ->]%AssetLemmas.asset_add_Ok & [= <-]).
    rewrite set_held by done. cbn. lia. }
  step H as tp Etp. apply AssetLemmas.asset_add_Ok in Etp as [Ei ->]. step H as tot Etot. cbn [amount asset_id] in *.
  assert (contents x = contents d) as EC by (eapply authors_contents; exact Etot).
  apply authors_shifts in Etot as [It St]; [|done]. cbn [amount asset_id] in *. step H as bb Ebb. step H as tp' Etp'.
  apply AssetLemmas.asset_sub_Ok in Etp' as [_ ->]. cbn [amount asset_id] in *. step H as c2 Ec2.
  assert (c2 = c) as -> by (unfold get_opt, tbl in Ec, Ec2; cbn in Ec, Ec2; rewrite EC in Ec2; congruence).
  set (a := Asset _ BTCM_SYMBOL) in H.
  assert (shifts (given_out BTCM_SYMBOL (amount a - amount (Rewards.accumulated s c))) x d') as Sc.
  { destruct (asset_eqb (Rewards.accumulated s c) a) eqn:Ee; cbn [negb] in H.
    - apply st_ret_Ok in H as [_ ->]. eapply shifts_ext; [by apply conserves_shifts|]. intros id.
      unfold asset_eqb in Ee. unfold given_out. destruct (_ =? BTCM_SYMBOL); lia.
    - eapply shifts_run; [apply (keeps_modify (V:=Content.t))|exact H|]. intros _ id.
      apply modify_Ok in H as (c' & w & Hc' & [= <-] & ->). rewrite Ec2 in Hc'. injection Hc' as <-.
      rewrite (gap_set_content _ _ c) by done. rewrite set_held by done. unfold given_out. destruct (_ =? _); lia. }
  eapply shifts_conserves; [by eapply shifts_trans|]. intros id. unfold given_out, a. cbn. destruct (_ =? _); lia.
Qed.

Lemma content_update_conserves o : keeps conserves (Contents.content_update_apply o).
Proof.
  unfold Contents.content_update_apply.
  pose proof (fun i => side_conserves Rewards.master i master_ok). pose proof (fun i => side_conserves Rewards.comp i comp_ok).
  assert (forall i now, keeps conserves (modify_pure (V:=Content.t) i (Contents.edit now o))).
  { intros i now. apply conserves_content. intros c w [= <-]. apply edit_held. }
  keeps_tac.
Qed.
Lemma content_conserving o : keeps conserves (Contents.content_apply o).
Proof. keeps_tac. Qed.
Lemma content_disable_conserves o : keeps conserves (Contents.content_disable_apply o).
Proof. keeps_tac. Qed.
Lemma content_approve_conserves o : keeps conserves (Contents.content_approve_apply o).
Proof. keeps_tac. Qed.
Lemma content_vote_conserves o : keeps conserves (Contents.vote_apply o).
Proof. keeps_tac. Qed.
Lemma claim_conserves o : keeps conserves (Contents.balance_claim_apply o).
Proof.
  apply conserves_run; [apply claim_steady|]. intros d u d' id Hd H. eapply (claim_gap o); [apply Hd|apply Hd|exact H].
Qed.
End Evaluators.
End ConservationFacts.
