(* ===== verification/ChainConservation.v ===== *)
(** * Transactions and blocks conserve every asset

    Transactions, with the proposals they execute, and the expiry of proposals leave
    the gap of every asset as it is; a block moves it at most where it pays rewards and
    withdrawals, and how is shown in [FundsFacts] and [VestingFacts]. *)

From S2P Require Import Prelude.
From S2P Require Import SafeInt.
From S2P Require Import Uint128.
From S2P Require Import Asset.
From S2P Require Import AssetFacts.
From S2P Require Import UndoDatabase.
From S2P Require Import Authority.
From S2P Require Import ForkDatabase.
From S2P Require Import State.
From S2P Require Import Sample.
From S2P Require Import Balance.
From S2P Require Import BalanceFacts.
From S2P Require Import AssetEval.
From S2P Require Import Votes.
From S2P Require Import Social.
From S2P Require Import Vesting.
From S2P Require Import VestingFacts.
From S2P Require Import Delegations.
From S2P Require Import Market.
From S2P Require Import Streaming.
From S2P Require Import Rewards.
From S2P Require Import RewardFacts.
From S2P Require Import CashoutFacts.
From S2P Require Import FundsFacts.
From S2P Require Import Blocks.
From S2P Require Import Accounts.
From S2P Require Import Content.
From S2P Require Import Operations.
From S2P Require Import Proposals.
From S2P Require Import Transactions.
From S2P Require Import Frames.
From S2P Require Import SteadyFacts.
From S2P Require Import BlockSteady.
From S2P Require Import ConservationFacts.
From S2P Require Import TransactionFacts.

Module ChainConservation.
Import Steady Supply Conserved SteadyFacts BlockSteady ConservationFacts CashoutFacts FundsFacts TransactionFacts Operations Proposals Transactions.

(** Issuing or reserving a core asset changes the supply recorded with the asset object,
    which is not the one that counts. *)
Fixpoint mints_core (op : operation) : bool :=
  match op with
  | asset_issue o => ConservationFacts.core_asset (asset_id (AssetEval.asset_to_issue o))
  | asset_reserve o => ConservationFacts.core_asset (asset_id (AssetEval.amount_to_reserve o))
  | proposal_create proposed_ops _ _ => existsb mints_core proposed_ops
  | _ => false
  end.

Section Chain.
Context {B : BoostMP} {T : TextChecks} {A : Addresses} {W : Wire}.

Definition admissible (op : operation) : Prop := operation_validate op = Ok tt /\ mints_core op = false.
Definition admissible_all (ops : list operation) : Prop := forall op, op ∈ ops -> admissible op.

(** What is proposed is admissible. *)
Definition proposals_admissible (c : chain) : Prop :=
  forall i p, indices (proposals c) !! i = Some p -> admissible_all (operations (Proposal.proposed_transaction p)).

Definition balanced (c : chain) : Prop := sound (db c) /\ proposals_admissible c.
Record settles (c c' : chain) : Prop := {
  settles_steady : steady (db c) (db c');
  settles_rest : balanced c -> proposals_admissible c' /\ forall id, gap id (db c') = gap id (db c)
}.
#[export] Instance settles_preorder : PreOrder settles.
Proof.
  split; [by split; [|intros []]|]. intros c1 c2 c3 [S1 R1] [S2 R2]. split; [by etransitivity|]. intros Hb.
  destruct (R1 Hb) as [P1 G1]. destruct R2 as [P2 G2]; [split; [apply S1, Hb|done]|]. split; [done|]. intros id. by rewrite G2.
Qed.

Lemma on_db_settles {X} (m : st database X) : keeps conserves m -> keeps settles (on_db m).
Proof.
  intros Hm c x c' H. unfold on_db in H. destruct (m (db c)) as [[y d]|] eqn:E; [|done]. injection H as <- <-.
  apply Hm in E as [S G]. split; [done|]. intros [Hs Hp]. split; [done|]. by apply G.
Qed.
Lemma try_settles {X} (m h : st chain X) : keeps settles m -> keeps settles h -> keeps settles (try_st m h).
Proof.
  intros Hm Hh c x c' H. unfold try_st in H. destruct (m c) as [[y d]|e] eqn:E; [|destruct (is_fc_exception e); [by eapply Hh|done]].
  injection H as <- <-. by eapply Hm.
Qed.

(** An update of the proposals that proposes nothing new. *)
Lemma proposals_settle f c : (proposals_admissible c -> proposals_admissible (c <| proposals ::= f |>)) -> settles c (c <| proposals ::= f |>).
Proof. intros Hf. split; [done|]. intros [_ Hp]. by split; [apply Hf|]. Qed.

Lemma remove_proposal_settles i : keeps settles (remove_proposal i).
Proof.
  intros c [] c' H. unfold remove_proposal in H. step H. destruct (find_proposal i c); [|done]. apply modify_st_Ok in H as ->.
  apply proposals_settle. intros Hp j p. cbn. intros [_ Hj]%lookup_delete_Some. by eapply Hp.
Qed.
Lemma proposal_create_settles ops e r : admissible (proposal_create ops e r) -> keeps settles (proposal_create_apply ops e r).
Proof.
  intros [Hv Hm] c [] c' H. unfold proposal_create_apply in H. step H as [] E1. destruct (visit_references _ _) as [mx n].
  step H. do 6 step H. step H as p Ep. apply modify_st_Ok in H as ->.
  apply proposals_settle. intros Hp j q. cbn. destruct (decide (j = next_id (proposals c))) as [->|Hj]; [|rewrite lookup_insert_ne by done; by apply Hp].
  rewrite lookup_insert_eq. intros [= <-]. unfold new_proposal in Ep.
  do 2 apply bind_Ok in Ep as (? & _ & Ep). apply bind_Ok in Ep as (? & _ & Ep). apply bind_Ok in Ep as (? & _ & [= <-]). cbn.
  intros op Hop. split.
  - cbn in Hv. apply bind_Ok in Hv as (? & _ & Hv). revert Hv Hop. clear. induction ops as [|x ops IH]; intros Hv Hop; [by apply elem_of_nil in Hop|].
    cbn in Hv. apply bind_Ok in Hv as ([] & Hx & Hv). apply elem_of_cons in Hop as [->|Hop]; auto.
  - cbn in Hm. destruct (mints_core op) eqn:Eop; [|done]. rewrite <-Hm. symmetry. apply existsb_exists. exists op. split; [by apply list_elem_of_In|done].
Qed.
Lemma proposal_delete_settles o : keeps settles (proposal_delete_apply o).
Proof. pose proof remove_proposal_settles. keeps_tac. Qed.
Lemma proposal_update_settles push o : (forall i, keeps settles (push i)) -> keeps settles (proposal_update_apply push o).
Proof.
  intros Hpush c [] c' H. unfold proposal_update_apply in H. apply st_bind_Ok in H as (p & c1 & Hp & H).
  assert (find_proposal (pu_proposal o) c = Some p /\ c1 = c) as [Hf ->].
  { unfold get_proposal in Hp. step Hp. apply lift_Ok in Hp as [Hp ->]. split; [|done]. by destruct (find_proposal _ _); [injection Hp as ->|]. }
  step H. step H as [] E1. apply st_bind_Ok in H as ([] & c1 & Hs & H). transitivity c1.
  - apply modify_st_Ok in Hs as ->. apply proposals_settle. intros Hadm j q. cbn.
    destruct (decide (j = pu_proposal o)) as [->|Hj]; [|rewrite lookup_insert_ne by done; by apply Hadm].
    rewrite lookup_insert_eq. intros [= <-]. apply (Hadm _ _ Hf).
  - destruct (Proposal.review_period_time _); [by apply st_ret_Ok in H as [_ ->]|]. step H as b Eb.
    destruct b; [|by apply st_ret_Ok in H as [_ ->]]. revert H. apply try_settles; [done|keeps_tac].
Qed.

(** ** Operations *)

(** Every evaluator settles. *)
Lemma evaluate_settles push op : (forall i, keeps settles (push i)) -> admissible op -> keeps settles (evaluate push op).
Proof.
  intros Hp Hop. pose proof Hop as [Hv Hm]. destruct op; cbn [evaluate]; cbn in Hv, Hm.
  - apply on_db_settles, content_vote_conserves.
  - apply on_db_settles, content_conserving.
  - apply on_db_settles, content_update_conserves.
  - apply on_db_settles, content_approve_conserves.
  - apply on_db_settles, content_disable_conserves.
  - apply on_db_settles, transfer_conserving.
  - apply on_db_settles, to_vesting_conserves. unfold transfer_to_vesting_validate in Hv.
    apply bind_Ok in Hv as (_ & _ & Hv). apply bind_Ok in Hv as ([] & E%fc_assert_Ok & _). by apply Z.eqb_eq in E.
  - apply on_db_settles, withdraw_conserves.
  - by apply on_db_settles, order_create_conserves.
  - by apply on_db_settles, order_create2_conserves.
  - apply on_db_settles, order_cancel_conserves.
  - apply on_db_settles, feed_conserves.
  - by apply on_db_settles, convert_conserves.
  - by apply on_db_settles, account_create_conserves.
  - apply on_db_settles, account_update_conserves.
  - apply on_db_settles, witness_update_conserves.
  - apply on_db_settles, witness_vote_conserves.
  - apply on_db_settles, proxy_conserves.
  - apply on_db_settles, platform_update_conserves.
  - apply on_db_settles, platform_vote_conserves.
  - apply on_db_settles, report_conserves.
  - apply on_db_settles, asset_create_conserves.
  - apply on_db_settles, asset_update_conserves.
  - by apply on_db_settles, issue_conserves.
  - by apply on_db_settles, reserve_conserves.
  - apply on_db_settles; keeps_tac.
  - apply on_db_settles, custom_json_conserves.
  - apply on_db_settles, route_conserves.
  - apply on_db_settles, challenge_conserves.
  - apply on_db_settles, prove_conserves.
  - apply on_db_settles, recovery_request_conserves.
  - apply on_db_settles, recover_conserves.
  - apply on_db_settles, change_recovery_conserves.
  - apply on_db_settles; keeps_tac.
  - apply on_db_settles; keeps_tac.
  - apply on_db_settles; keeps_tac.
  - by apply proposal_create_settles.
  - by apply proposal_update_settles.
  - apply proposal_delete_settles.
  - apply keeps_throw; typeclasses eauto.
  - apply on_db_settles, friendship_conserves.
  - apply on_db_settles, unfriend_conserves.
  - apply on_db_settles, claim_conserves.
  - by apply on_db_settles, account_delegate_conserves.
  - apply on_db_settles, delegate_conserves.
  - apply on_db_settles, request_conserves.
  - apply on_db_settles, cancel_report_conserves.
Qed.

Lemma push_settles room i : keeps settles (push_nested room i).
Proof.
  revert i. induction room as [|room IH]; intros i c [] c' H; [done|]. pose proof (push_steady (S room) i c tt c' H) as [S _ _].
  cbn [push_nested] in H. apply capture_Ok in H. apply st_bind_Ok in H as (p & c1 & Hp & H).
  assert (find_proposal i c = Some p /\ c1 = c) as [Hf ->].
  { unfold get_proposal in Hp. step Hp. apply lift_Ok in Hp as [Hp ->]. split; [|done]. by destruct (find_proposal _ _); [injection Hp as ->|]. }
  split; [done|]. intros Hb. apply st_bind_Ok in H as ([] & c1 & H1 & H). apply remove_proposal_settles in H.
  apply (keeps_loop_in settles) in H1; [|intros op Hop; apply keeps_capture, evaluate_settles; [apply IH|by apply (proj2 Hb i p)]].
  destruct (transitivity H1 H) as [_ R]. by apply R.
Qed.
Lemma operation_settles op : admissible op -> keeps settles (apply_operation op).
Proof. intros Hop. apply keeps_capture, evaluate_settles; [intros i; apply push_settles|done]. Qed.

(** ** Transactions *)

Lemma bandwidth_settles t l : keeps settles (on_db (for_each l (charge_bandwidth t))).
Proof. apply on_db_settles. pose proof bandwidth_conserves. pose proof market_bandwidth_conserves. keeps_tac. Qed.
Lemma transactions_settle f : keeps settles (modify_st (fun c => c <| transactions ::= f |>)).
Proof. intros c u c' ->%modify_st_Ok. split; [done|]. by intros [_ Hp]. Qed.

Lemma transaction_settles skip t : (forall op, op ∈ operations (trx t) -> mints_core op = false) ->
  (skips skip skip_validate = false \/ transaction_validate (trx t) = Ok tt) -> keeps settles (_apply_transaction skip t).
Proof.
  intros Hm Hv c [] c' H. unfold _apply_transaction in H. apply capture_Ok in H. apply st_bind_Ok in H as ([] & c1 & H1 & H).
  assert (transaction_validate (trx t) = Ok tt /\ c1 = c) as [Hval ->].
  { destruct Hv as [Hv|Hv]; [rewrite Hv in H1; by apply lift_Ok in H1|].
    destruct (skips _ _); [by apply st_ret_Ok in H1 as [_ ->]|by apply lift_Ok in H1 as [_ ->]]. }
  revert H. apply keeps_seq; [typeclasses eauto|keeps_tac|intros e]. apply keeps_seq; [typeclasses eauto|keeps_tac|intros _].
  apply keeps_seq; [typeclasses eauto|destruct (skips _ _); keeps_tac|intros _].
  apply keeps_seq; [typeclasses eauto|apply bandwidth_settles|intros _].
  apply keeps_seq; [typeclasses eauto|keeps_tac|intros _].
  apply keeps_seq; [typeclasses eauto|pose proof transactions_settle; keeps_tac|intros _].
  apply keeps_loop_in; [typeclasses eauto|]. intros op Hop. apply operation_settles. split; [|by apply Hm].
  unfold transaction_validate in Hval. apply bind_Ok in Hval as (_ & _ & Hval). revert Hval Hop. clear.
  induction (operations (trx t)) as [|x ops IH]; intros Hval Hop; [by apply elem_of_nil in Hop|].
  cbn in Hval. apply bind_Ok in Hval as ([] & Hx & Hval). apply elem_of_cons in Hop as [->|Hop]; auto.
Qed.

(** One transaction that creates no core asset out of nothing. *)
Definition transacts (c c' : chain) : Prop := exists skip t,
  (forall op, op ∈ operations (trx t) -> mints_core op = false) /\
  (skips skip skip_validate = false \/ transaction_validate (trx t) = Ok tt) /\ _apply_transaction skip t c = Ok (tt, c').

(** ** The expiry of proposals *)

Lemma try_expired_settles kv : keeps settles (try_expired kv).
Proof. pose proof push_settles. unfold try_expired. apply try_settles; keeps_tac. Qed.
Lemma expired_proposals_settle : keeps settles clear_expired_proposals.
Proof.
  unfold clear_expired_proposals. apply keeps_seq; [typeclasses eauto|keeps_tac|intros c0]. generalize (length (expiring c0)) as fuel.
  pose proof try_expired_settles. pose proof remove_proposal_settles.
  induction fuel as [|fuel IH]; cbn [clear_proposals_loop]; keeps_tac.
Qed.

(** ** Blocks *)

(** The clock may move. *)
Definition kept (d d' : database) : Prop := sound d -> sound d' /\ forall id, gap id d' = gap id d.
#[export] Instance kept_preorder : PreOrder kept.
Proof.
  split; [by intros d Hd|]. intros d1 d2 d3 H1 H2 [Hd G1]%H1. destruct (H2 Hd) as [Hd' G2]. split; [done|]. intros id. by rewrite G2.
Qed.
Lemma conserves_kept d d' : conserves d d' -> kept d d'.
Proof. intros [S G] Hd. split; [by apply S|by apply G]. Qed.
Lemma keeps_kept {X} (m : st database X) : keeps conserves m -> keeps kept m.
Proof. intros Hm d x d' H. by eapply conserves_kept, Hm. Qed.

Definition settled (c c' : chain) : Prop := balanced c -> balanced c' /\ forall id, gap id (db c') = gap id (db c).
#[export] Instance settled_preorder : PreOrder settled.
Proof.
  split; [by intros c Hc|]. intros c1 c2 c3 H1 H2 [Hc G1]%H1. destruct (H2 Hc) as [Hc' G2]. split; [done|]. intros id. by rewrite G2.
Qed.
Lemma settles_settled {X} (m : st chain X) : keeps settles m -> keeps settled m.
Proof. intros Hm c x c' [S R]%Hm Hb. destruct (R Hb) as [P G]. split; [|done]. split; [apply S, Hb|done]. Qed.
Lemma transacts_settled c c' : transacts c c' -> settled c c'.
Proof. intros (skip & t & Hm & Hv & H). by apply (settles_settled _ (transaction_settles skip t Hm Hv)) in H. Qed.
Lemma on_db_settled {X} (m : st database X) : keeps kept m -> keeps settled (on_db m).
Proof.
  intros Hm c x c' (d & H%Hm & ->)%on_db_Ok [Hs Hp]. destruct (H Hs) as [Hs' G]. by split.
Qed.

Lemma taken_money b n p : recorded (Blocks.take_block b n p) = recorded p /\
  asset_id (Dgpo.current_mbd_supply (Blocks.take_block b n p)) = asset_id (Dgpo.current_mbd_supply p).
Proof.
  assert (forall q, recorded (Blocks.adjust_reserve_ratio q) = recorded q /\
    Dgpo.current_mbd_supply (Blocks.adjust_reserve_ratio q) = Dgpo.current_mbd_supply q) as Hr.
  { intros q. unfold Blocks.adjust_reserve_ratio. by repeat case_match. }
  assert (recorded (Blocks.fill_slots n p) = recorded p /\ Dgpo.current_mbd_supply (Blocks.fill_slots n p) = Dgpo.current_mbd_supply p) as [H1 H2].
  { assert (forall f q, recorded (Blocks.fill_slot f q) = recorded q /\ Dgpo.current_mbd_supply (Blocks.fill_slot f q) = Dgpo.current_mbd_supply q) as Hf
      by (intros f []; split; reflexivity).
    unfold Blocks.fill_slots. induction n as [|n [IH1 IH2]]; [apply Hf|]. cbn [Nat.iter nat_rect].
    destruct (Hf false (Nat.iter n (Blocks.fill_slot false) (Blocks.fill_slot true p))) as [E1 E2]. split; [by rewrite <-IH1|by rewrite <-IH2]. }
  unfold Blocks.take_block. cbv zeta. revert H1 H2. generalize (Blocks.fill_slots n p) as q. intros q H1 H2.
  match goal with |- context [Blocks.adjust_reserve_ratio ?r] => destruct (Hr r) as [H3 H4]; revert H3 H4; generalize (Blocks.adjust_reserve_ratio r) as q' end.
  intros q' H3 H4. destruct q, q'. unfold recorded in *. cbn in *. split; congruence.
Qed.
Lemma global_data_kept s b : keeps kept (Blocks.update_global_dynamic_data s b).
Proof.
  assert (forall b i, keeps kept (Blocks.miss_slot b i)) by (intros; apply keeps_kept; keeps_tac).
  assert (forall n, keeps kept (modify_dgpo (fun p => Ok (Blocks.take_block b n p)))).
  { intros n d u d' (p & [= <-] & ->)%modify_dgpo_Ok Hd. destruct (taken_money b n (dgpo d)) as [Er Em]. revert Er Em.
    generalize (Blocks.take_block b n (dgpo d)) as q. intros q [= E1 E2 E3 E4] Em. split.
    - destruct Hd; split; try assumption. etransitivity; [exact Em|assumption].
    - intros id. rewrite gap_set_dgpo, E1, E2, E3, E4. repeat case_match; lia. }
  keeps_tac.
Qed.

(** The transactions of a block are validated, and mint no core asset. *)
Definition block_admissible (skip : Z) (b : full_block) : Prop :=
  forall t, t ∈ block_transactions b -> (forall op, op ∈ operations (trx t) -> mints_core op = false) /\
    (skips skip skip_validate = false \/ transaction_validate (trx t) = Ok tt).

#[local] Hint Extern 1 (keeps conserves (modify_dgpo _)) => (apply conserves_globals; solve_globals) : keeps.

Lemma start_settled skip b : block_admissible skip b -> keeps settled (start_block skip b).
Proof.
  intros Hb. unfold start_block. repeat (apply keeps_seq; [typeclasses eauto| |intro]).
  all: try (apply on_db_settled, keeps_kept; keeps_tac; fail). all: try (keeps_tac; fail).
  - apply keeps_loop_in; [typeclasses eauto|]. intros t Ht. destruct (Hb t Ht). by apply settles_settled, transaction_settles.
  - apply on_db_settled, global_data_kept.
Qed.

(** *** The end of a block *)

#[local] Hint Extern 1 (keeps conserves (modify (V:=Account.t) _ _)) => (apply conserves_account; solve_funds) : keeps.
#[local] Hint Extern 1 (keeps conserves (modify_pure (V:=Account.t) _ _)) => (apply conserves_account; solve_funds) : keeps.

Lemma schedule_row_conserves f : keeps conserves (Blocks.modify_schedule f).
Proof.
  apply conserves_run; [apply keeps_schedule|].
  by intros d a d' id _ (d1 & d2 & [= <- <-] & (s & d3 & [_ ->]%lift_Ok & ->%modify_st_Ok)%st_bind_Ok)%st_bind_Ok.
Qed.
Lemma history_row_conserves f : keeps conserves (Blocks.modify_feed_history f).
Proof.
  apply conserves_run; [apply keeps_history|].
  by intros d a d' id _ (d1 & d2 & [= <- <-] & (s & d3 & [_ ->]%lift_Ok & ->%modify_st_Ok)%st_bind_Ok)%st_bind_Ok.
Qed.
Lemma hardforks_row_conserves f : keeps conserves (Blocks.modify_hardforks f).
Proof.
  apply conserves_run; [apply keeps_hardforks|].
  by intros d a d' id _ (d1 & d2 & [= <- <-] & (s & d3 & [_ ->]%lift_Ok & ->%modify_st_Ok)%st_bind_Ok)%st_bind_Ok.
Qed.
#[local] Hint Resolve schedule_row_conserves history_row_conserves hardforks_row_conserves redelegations_conserves : keeps.

Lemma delegations_conserve : keeps conserves Delegations.clear_expired_delegations.
Proof.
  unfold Delegations.clear_expired_delegations. apply keeps_seq; [typeclasses eauto|keeps_tac|intros d].
  match goal with |- keeps _ (Delegations.clear_loop ?n _) => generalize n as fuel end. induction fuel as [|fuel IH]; cbn [Delegations.clear_loop]; keeps_tac.
Qed.
Lemma expire_conserves {V} `{Stored V} le `{!RelDecision le} due act fuel :
  (forall row, keeps conserves (act row)) -> keeps conserves (Accounts.expire_loop (V:=V) le due act fuel).
Proof. intros Ha. induction fuel as [|fuel IH]; cbn [Accounts.expire_loop]; keeps_tac. Qed.
Lemma recovery_conserves : keeps conserves Accounts.account_recovery_processing.
Proof.
  unfold Accounts.account_recovery_processing, Accounts.expire_all.
  repeat (apply keeps_seq; [typeclasses eauto| |intro]).
  all: first [apply expire_conserves; intro; keeps_tac|keeps_tac].
Qed.
Lemma witnesses_conserve l : keeps conserves (Blocks.get_witnesses l).
Proof. induction l as [|n l IH]; cbn [Blocks.get_witnesses]; keeps_tac. Qed.
#[local] Hint Resolve witnesses_conserve : keeps.
Lemma advance_conserves l t : keeps conserves (Blocks.advance_witnesses l t).
Proof. induction l as [|n l IH]; cbn [Blocks.advance_witnesses]; keeps_tac. Qed.
#[local] Hint Resolve advance_conserves : keeps.
Lemma median_props_conserve : keeps conserves Blocks.update_median_witness_props.
Proof. keeps_tac. Qed.
#[local] Hint Resolve median_props_conserve : keeps.
Lemma schedule_conserves : keeps conserves Blocks.update_witness_schedule.
Proof. keeps_tac. Qed.
Lemma feeds_conserve : keeps conserves Blocks.update_median_feed.
Proof. keeps_tac. Qed.
Lemma virtual_supply_conserves : keeps conserves Blocks.update_virtual_supply.
Proof. keeps_tac. Qed.
Lemma hardforks_conserve : keeps conserves Blocks.process_hardforks.
Proof.
  unfold Blocks.process_hardforks. generalize (Z.to_nat Blocks.BTCM_NUM_HARDFORKS) as fuel.
  induction fuel as [|fuel IH]; cbn [Blocks.hardfork_loop]; keeps_tac.
Qed.
Lemma irreversible_conserves : keeps conserves Blocks.update_last_irreversible_block.
Proof.
  unfold Blocks.update_last_irreversible_block. apply keeps_seq; [typeclasses eauto|keeps_tac|intros d]. case_match; [|keeps_tac].
  apply conserves_globals. intros p p' [= <-]. by case_match.
Qed.
Lemma old_transactions_settle : keeps settles clear_expired_transactions.
Proof.
  unfold clear_expired_transactions. apply keeps_seq; [typeclasses eauto|keeps_tac|intros c0]. generalize (length (dedupe_index c0)) as fuel.
  pose proof transactions_settle. induction fuel as [|fuel IH]; cbn [clear_transactions_loop]; keeps_tac.
Qed.
Lemma summary_settles b : keeps settles (create_block_summary b).
Proof. intros c u c' ->%modify_st_Ok. split; [done|]. by intros [_ Hp]. Qed.

Lemma on_db_conserves {X} (m : st database X) : keeps conserves m -> keeps settled (on_db m).
Proof. intros Hm. by apply settles_settled, on_db_settles. Qed.
Lemma db_steady (m : st database unit) c c' : keeps steady m -> on_db m c = Ok (tt, c') -> balanced c ->
  m (db c) = Ok (tt, db c') /\ balanced c'.
Proof. intros Hm (d & H & ->)%on_db_Ok [Hs Hp]. split; [done|]. split; [|exact Hp]. by apply (Hm _ _ _ H). Qed.

(** The next statement of a block. *)
Ltac settle_next H L :=
  let S := fresh "S" in apply st_bind_Ok in H as ([] & ? & S & H); apply L in S.

Lemma finish_phases b w c c' : finish_block b w c = Ok (tt, c') -> balanced c -> exists c1 c2 c3,
  balanced c1 /\ (forall id, gap id (db c1) = gap id (db c)) /\
  Rewards.pay_block (db c1) = Ok (tt, db c2) /\ Vesting.process_vesting_withdrawals (db c2) = Ok (tt, db c3) /\
  balanced c' /\ (forall id, gap id (db c') = gap id (db c3)).
Proof.
  intros H Hc. unfold finish_block in H.
  settle_next H (on_db_conserves (Blocks.update_signing_witness w (header b)) ltac:(keeps_tac)).
  settle_next H (on_db_conserves _ irreversible_conserves). settle_next H (settles_settled _ (summary_settles b)).
  settle_next H (settles_settled _ old_transactions_settle). settle_next H (settles_settled _ expired_proposals_settle).
  settle_next H (on_db_conserves _ expire_orders_conserves). settle_next H (on_db_conserves _ delegations_conserve).
  settle_next H (on_db_conserves _ schedule_conserves). settle_next H (on_db_conserves _ feeds_conserve).
  settle_next H (on_db_conserves _ virtual_supply_conserves).
  match type of S8 with settled _ ?c1 => assert (S9 : settled c c1) by (do 9 (etransitivity; [eassumption|]); eassumption); destruct (S9 Hc) as [Hc1 G1]; exists c1 end.
  apply st_bind_Ok in H as ([] & c2 & H2 & H). apply db_steady in H2 as [H2 Hc2]; [|apply pay_block_steady|done].
  apply st_bind_Ok in H as ([] & c3 & H3 & H).
  apply db_steady in H3 as [H3 Hc3]; [|apply keeps_seq; [typeclasses eauto|keeps_tac|intros d; apply withdrawals_steady]|done].
  settle_next H (on_db_conserves _ virtual_supply_conserves). settle_next H (on_db_conserves _ recovery_conserves).
  apply (on_db_conserves _ hardforks_conserve) in H.
  assert (S12 : settled c3 c') by (do 2 (etransitivity; [eassumption|]); eassumption). destruct (S12 Hc3) as [Hc' G3].
  exists c2, c3. by split_and!.
Qed.

(** ** Properties *)

(** C4 Nothing is created and nothing lost: whatever a transaction does, with all the
    operations of its kinds and the proposals it executes, the gap between the recorded
    supply and the holdings of each asset is the same before and after, and so it is
    when expired proposals are processed; the state stays sound for the next one.  The
    only operations left out are the issue and the reservation of core assets, of which
    the second burns BTCM that the recorded supply goes on to count. *)
Theorem transactions_conserve c : balanced c ->
  (forall skip t c', (forall op, op ∈ operations (trx t) -> mints_core op = false) ->
     (skips skip skip_validate = false \/ transaction_validate (trx t) = Ok tt) ->
     _apply_transaction skip t c = Ok (tt, c') ->
     balanced c' /\ forall id, gap id (db c') = gap id (db c)) /\
  (forall c', clear_expired_proposals c = Ok (tt, c') -> balanced c' /\ forall id, gap id (db c') = gap id (db c)) /\
  (forall o c', asset_id (AssetEval.amount_to_reserve o) = BTCM_SYMBOL -> apply_operation (asset_reserve o) c = Ok (tt, c') ->
     gap BTCM_SYMBOL (db c') = gap BTCM_SYMBOL (db c) + amount (AssetEval.amount_to_reserve o)).
Proof.
  intros Hc. split_and!.
  - intros skip t c' Hm Hv H. by apply (settles_settled _ (transaction_settles skip t Hm Hv)) in H; apply H.
  - intros c' H. by apply (settles_settled _ expired_proposals_settle) in H; apply H.
  - intros o c' Ho (d & H & ->)%capture_Ok%on_db_Ok. eapply reserve_core_gap; [apply Hc|done|exact H].
Qed.

End Chain.

(** ** A payment, and a block with it *)

#[local] Existing Instance boost_reference.
#[local] Instance boost_ok : BoostMPOk.
Proof. apply AssetFacts.boost_ok. Qed.
#[local] Instance any_text : TextChecks := {| is_utf8 _ := true; json_is_valid _ := true |}.
#[local] Instance own_address : Addresses := {| addresses_of k := [k] |}.
#[local] Instance some_wire : Wire :=
  {| transaction_id t := expiration t; sig_digest t := expiration t; recover_key s _ := Ok s; trx_size _ := 100;
     merkle_digest t := expiration (trx t); hash_pair x y := x + y; checksum x := x; id_word i := 0 |}.

Lemma start_balanced : balanced start.
Proof.
  split; [|by intros i p Hp]. split.
  all: try (apply ids_ok_check; vm_compute; reflexivity).
  - reflexivity.
  - intros i b H%elem_of_map_to_list. vm_compute in H. set_solver.
Qed.

Lemma transactions_conserve_witness : exists c',
  _apply_transaction flags (pay (BTCM_GENESIS_TIME + 60)) start = Ok (tt, c') /\
  forall id, gap id (db c') = gap id (db start).
Proof.
  destruct (_apply_transaction flags (pay (BTCM_GENESIS_TIME + 60)) start) as [[[] c']|e] eqn:E; [|exfalso; by vm_compute in E].
  exists c'. split; [done|]. destruct (transactions_conserve start start_balanced) as [H _].
  apply (H flags (pay (BTCM_GENESIS_TIME + 60)) c'); [|right; by vm_compute|exact E].
  intros op Hop. apply list_elem_of_singleton in Hop as ->. reflexivity.
Defined.

End ChainConservation.
