(* ===== verification/Node.v ===== *)
(** * The node: forks, pending transactions, production of blocks

    Models what database.cpp and db_with.hpp do around [_apply_block]: pushing a block
    and switching forks, popping, pushing transactions and keeping them pending,
    producing a block, and rebuilding the state from stored blocks.  The undo database
    is given by what file [UndoFacts] proves of it: a stack of earlier states, of which
    a session adds one.  An exception leaves the node as it is at that moment, so the
    code is of type [stx]; where a step on the chain fails, the session around it
    restores the chain, so what the step had done is not kept.  [push_proposal] may
    raise the limit of the stack by the depth of nested proposals until the next
    block, which only keeps older states longer and is left out. *)

From S2P Require Import Prelude.
From S2P Require Import UndoDatabase.
From S2P Require Import Authority.
From S2P Require Import ForkDatabase.
From S2P Require Import BlockDatabase.
From S2P Require Import Uint128.
From S2P Require Import State.
From S2P Require Import Blocks.
From S2P Require Import Content.
From S2P Require Import Accounts.
From S2P Require Import Operations.
From S2P Require Import Proposals.
From S2P Require Import Transactions.

Definition BTCM_BLOCKCHAIN_VERSION : Z := Z.lor (Z.lor (Z.shiftl 0 24) (Z.shiftl 0 16)) 1.
Definition BTCM_BLOCKCHAIN_HARDFORK_VERSION : Z := Z.land BTCM_BLOCKCHAIN_VERSION 0xFFFF0000.
Definition BTCM_MAX_TRANSACTION_SIZE : Z := 1024 * 64.
Definition BTCM_MAX_BLOCK_SIZE : Z := BTCM_MAX_TRANSACTION_SIZE * BTCM_BLOCK_INTERVAL * 2000.

(** Keys and serialization of a new block: [seal] computes the id, the signature and
    the size of a block; without a key it is not signed. *)
Class Producer := {
  get_public_key : Z -> public_key;
  pending_size : full_block -> Z;
  seal : option Z -> full_block -> full_block
}.

(** The members of [database] besides the objects of the chain. *)
Record node := Node {
  state : chain;
  undo_stack : list chain;
  max_undo : Z;
  pending_session : bool;
  pending_tx : list signed_transaction;
  popped_tx : list signed_transaction;
  fork_db : fork_database full_block;
  block_db : block_database;
  checkpoints : list (Z * block_id)
}.
#[export] Instance eta_node : Settable node := fun n =>
  Node (state n) (undo_stack n) (max_undo n) (pending_session n) (pending_tx n) (popped_tx n) (fork_db n)
    (block_db n) (checkpoints n).

Module Node.
Import Transactions.

Section Node.
Context {B : BoostMP} {T : TextChecks} {A : Addresses} {W : Wire} {Pk : Packed full_block} {Pr : Producer}.

Definition chain_head (c : chain) : block_id := Dgpo.head_block_id (dgpo (db c)).
Definition head_block_id (n : node) : block_id := chain_head (state n).

Definition on_chain {X} (m : st chain X) : stx node X := fun n =>
  match m (state n) with
  | Ok (x, c) => (Ok x, n <| state := c |>)
  | Throw e => (Throw e, n)
  end.
Definition on_forks {X} (m : st (fork_database full_block) X) : stx node X := fun n =>
  match m (fork_db n) with
  | Ok (x, f) => (Ok x, n <| fork_db := f |>)
  | Throw e => (Throw e, n)
  end.
Definition capturex {X} (m : stx node X) : stx node X := fun n =>
  match m n with (Throw e, n) => (Throw (rethrown e), n) | r => r end.

(** ** Sessions *)

(** States beyond the limit are dropped before a new one is added. *)
Definition start_undo_session : stx node unit :=
  modx (fun n => n <| undo_stack := state n :: take (Z.to_nat (max_undo n)) (undo_stack n) |>).
Definition restore (n : node) : node :=
  match undo_stack n with
  | c :: l => n <| state := c |> <| undo_stack := l |>
  | [] => n
  end.
(** The latest state but one is what the merged session started from. *)
Definition merge : stx node unit :=
  n ← getx id;
  _ ← assertx (2 <=? Z.of_nat (length (undo_stack n)));
  modx (fun n => n <| undo_stack ::= tail |>).

(** A session that is committed or merged at the end of [m]; its destructor undoes it
    when an exception leaves. *)
Definition in_session {X} (m : stx node X) : stx node X := fun n =>
  let n := snd (start_undo_session n) in
  match m n with
  | (Throw e, n) => (Throw e, restore n)
  | r => r
  end.

Definition reset_pending_session : stx node unit :=
  modx (fun n => if pending_session n then restore n <| pending_session := false |> else n).
Definition clear_pending : stx node unit :=
  n ← getx id;
  _ ← liftx (if (length (pending_tx n) =? 0)%nat || pending_session n then Ok tt else Throw undefined_behaviour);
  _ ← modx (fun n => n <| pending_tx := [] |>);
  reset_pending_session.

(** ** Transactions *)

Definition _push_transaction (skip : Z) (t : signed_transaction) : stx node unit :=
  n ← getx id;
  _ ← (if pending_session n then mret tt
       else _ ← start_undo_session; modx (fun n => n <| pending_session := true |>));
  in_session (
    _ ← on_chain (_apply_transaction skip t);
    _ ← modx (fun n => n <| pending_tx ::= fun l => l ++ [t] |>);
    merge).
Definition push_transaction (skip : Z) (t : signed_transaction) : stx node unit := capturex (
  n ← getx id;
  _ ← assertx (trx_size t <=? u32 (Dgpo.maximum_block_size (dgpo (db (state n))) - 256));
  _push_transaction skip t).
(** Its session is undone at the end. *)
Definition validate_transaction (skip : Z) (t : signed_transaction) : stx node unit := fun n =>
  let (r, n) := in_session (on_chain (_apply_transaction skip t)) n in
  match r with Ok _ => (r, restore n) | Throw _ => (r, n) end.

(** [pending_transactions_restorer]: an exception that is none of fc's ends the
    program in a destructor. *)
Definition repush (skip : Z) (t : signed_transaction) : stx node unit :=
  n ← getx id;
  if is_known_transaction (transaction_id (trx t)) (state n) then mret tt
  else fun n =>
    match _push_transaction skip t n with
    | (Throw e, n) => if is_fc_exception e then (Ok tt, n) else (Throw undefined_behaviour, n)
    | r => r
    end.
Definition restore_pending (skip : Z) (pending : list signed_transaction) : stx node unit :=
  n ← getx id;
  _ ← for_eachx (popped_tx n) (repush skip);
  _ ← modx (fun n => n <| popped_tx := [] |>);
  for_eachx pending (repush skip).
Definition without_pending_transactions {X} (skip : Z) (callback : stx node X) : stx node X := fun n =>
  let pending := pending_tx n in
  match clear_pending (n <| pending_tx := [] |>) with
  | (Throw e, n) => (Throw e, n)
  | (Ok _, n) =>
      let (r, n) := callback n in
      match restore_pending skip pending n with
      | (Throw e, n) => (Throw e, n)
      | (Ok _, n) => (r, n)
      end
  end.

(** ** Blocks *)

Definition is_known_block (n : node) (id : block_id) : bool :=
  ForkDatabase.is_known_block (fork_db n) id || BlockDatabase.contains id (block_db n).
Definition get_block_id_for_num (n : node) (block_num : Z) : result block_id :=
  BlockDatabase.fetch_block_id block_num (block_db n).
Definition item_block (n : node) (p : nat) : option full_block := data <$> heap (fork_db n) !! p.
Definition fetch_block_by_id (n : node) (id : block_id) : option full_block :=
  match ForkDatabase.fetch_block (fork_db n) id with
  | Some p => item_block n p
  | None => BlockDatabase.fetch_optional id (block_db n)
  end.
Definition fetch_block_by_number (n : node) (num : Z) : option full_block :=
  match ForkDatabase.fetch_block_by_number (fork_db n) num with
  | [p] => item_block n p
  | _ => BlockDatabase.fetch_by_number num (block_db n)
  end.

(** Both branches are no longer than the heap of the fork database. *)
Definition fetch_branches (n : node) (first second : block_id) : result (list nat * list nat) :=
  default (Throw undefined_behaviour)
    (ForkDatabase.fetch_branch_from (S (length (heap (fork_db n)))) (fork_db n) first second).

Definition get_block_ids_on_fork (head_of_fork : block_id) (n : node) : result (list block_id) :=
  branches ← fetch_branches n (head_block_id n) head_of_fork;
  match last branches.1, last branches.2 with
  | Some p, Some q =>
      let previous p := ForkDatabase.data_previous (fork_db n) p in
      _ ← (if bool_decide (previous p = previous q) then Ok tt else Throw undefined_behaviour);
      Ok ((ForkDatabase.id_at (heap (fork_db n)) <$> branches.2) ++ [previous p])
  | _, _ => Throw undefined_behaviour
  end.

(** [apply_block]; the undo and the fork database learn how much can be undone as
    soon as it is known, whatever happens to the rest of the block. *)
Definition apply_block (b : full_block) (skip : Z) : stx node unit :=
  n ← getx id;
  skip ← liftx (checkpoint_flags (checkpoints n) skip b);
  capturex (
    r ← on_chain (start_block skip b);
    _ ← modx (fun n => n <| max_undo := r.2 |>);
    _ ← on_forks (ForkDatabase.set_max_size r.2);
    on_chain (finish_block b r.1)).

Definition store_block (b : full_block) : stx node unit :=
  modx (fun n => n <| block_db ::= BlockDatabase.store (block_id_of b) b |>).

(** A block in a session of its own. *)
Definition commit_block (skip : Z) (b : full_block) : stx node unit :=
  in_session (_ ← apply_block b skip; store_block b).

(** [pop_undo]: there is no session active but that of the pending transactions, which
    is reset before. *)
Definition pop_undo : stx node unit :=
  n ← getx id;
  _ ← assertx (negb (pending_session n));
  _ ← assertx (negb (length (undo_stack n) =? 0)%nat);
  modx restore.

Definition pop_block : stx node unit := capturex (
  _ ← reset_pending_session;
  n ← getx id;
  head_block ← liftx (of_option pop_empty_chain (fetch_block_by_id n (head_block_id n)));
  _ ← on_forks ForkDatabase.pop_block;
  _ ← pop_undo;
  modx (fun n => n <| popped_tx ::= fun l => block_transactions head_block ++ l |>)).

(** ** [_push_block] *)

(** [while( head_block_id() != id ) pop_block();]: a block popped is a state less. *)
Fixpoint pop_until (fuel : nat) (id : block_id) : stx node unit :=
  n ← getx (fun n => n);
  if bool_decide (head_block_id n = id) then mret tt
  else
    _ ← pop_block;
    match fuel with
    | O => throwx undefined_behaviour
    | S fuel => pop_until fuel id
    end.
Definition pop_to (id : block_id) : stx node unit :=
  n ← getx (fun n => n); pop_until (length (undo_stack n)) id.

Definition commit_item (skip : Z) (p : nat) : stx node unit :=
  n ← getx id;
  b ← liftx (of_option undefined_behaviour (item_block n p));
  commit_block skip b.

(** The way back: [bad] from the block that failed on, in the order of the chain;
    [good] is the branch to restore, its tip first. *)
Definition switch_back (skip : Z) (bad good : list nat) (base : block_id) : stx node unit :=
  _ ← for_eachx bad (fun p => modx (fun n => n <| fork_db ::= fun f => match ForkDatabase.remove (ForkDatabase.id_at (heap f) p) f with Ok (_, f) => f | Throw _ => f end |>));
  _ ← liftx (match good with [] => Throw undefined_behaviour | _ => Ok tt end);
  _ ← (match good with p :: _ => on_forks (ForkDatabase.set_head p) | [] => mret tt end);
  _ ← pop_to base;
  for_eachx (rev good) (commit_item skip).

(** [l] is the rest of the new branch, in the order of the chain. *)
Fixpoint push_branch (skip : Z) (l good : list nat) (base : block_id) : stx node unit :=
  match l with
  | [] => mret tt
  | p :: l' => fun n =>
      match commit_item skip p n with
      | (Ok _, n) => push_branch skip l' good base n
      | (Throw e, n) =>
          if is_fc_exception e then (_ ← switch_back skip l good base; throwx e) n
          else (Throw e, n)
      end
  end.

Definition switch_forks (skip : Z) (new_head : block_id) : stx node unit :=
  n ← getx id;
  branches ← liftx (fetch_branches n new_head (head_block_id n));
  base ← liftx (of_option undefined_behaviour (ForkDatabase.data_previous (fork_db n) <$> last branches.2));
  _ ← pop_to base;
  push_branch skip (rev branches.1) branches.2 base.

(** A block on top of the head. *)
Definition push_direct (skip : Z) (new_block : full_block) : stx node unit := fun n =>
  match commit_block skip new_block n with
  | (Throw e, n) =>
      if is_fc_exception e then (_ ← on_forks (ForkDatabase.remove (block_id_of new_block)); throwx e) n
      else (Throw e, n)
  | r => r
  end.

Definition _push_block (skip : Z) (new_block : full_block) : stx node bool :=
  if skips skip skip_fork_db then _ ← push_direct skip new_block; mret false
  else
    head ← on_forks (ForkDatabase.push_block new_block);
    n ← getx id;
    p ← liftx (of_option undefined_behaviour head);
    new_head ← liftx (of_option undefined_behaviour (item_block n p));
    if negb (bool_decide (previous new_head = head_block_id n)) then
      if block_num new_head >? head_block_num (db (state n))
      then _ ← switch_forks skip (block_id_of new_head); mret true
      else mret false
    else _ ← push_direct skip new_block; mret false.

Definition push_block (skip : Z) (new_block : full_block) : stx node bool :=
  without_pending_transactions skip (capturex (_push_block skip new_block)).

(** ** [generate_block] *)

Definition pending_extensions (n : node) (witness : Witness.t) : result (list block_header_extension) :=
  let hfp := hardforks (db (state n)) in
  let version := if Witness.running_version witness =? BTCM_BLOCKCHAIN_VERSION then []
                 else [version_extension BTCM_BLOCKCHAIN_VERSION] in
  let vote i := v ← Blocks.nth_of Blocks.hardfork_versions i; t ← Blocks.nth_of Blocks.hardfork_times i; Ok (v, t) in
  hf ← (if Hardforks.current_hardfork_version hfp <? BTCM_BLOCKCHAIN_HARDFORK_VERSION then
          v ← vote (Hardforks.last_hardfork hfp + 1);
          Ok (if negb (Witness.hardfork_version_vote witness =? v.1) || negb (Witness.hardfork_time_vote witness =? v.2)
              then [hardfork_extension v.1 v.2] else [])
        else if (Hardforks.current_hardfork_version hfp =? BTCM_BLOCKCHAIN_HARDFORK_VERSION)
                && (Witness.hardfork_version_vote witness >? BTCM_BLOCKCHAIN_HARDFORK_VERSION) then
          v ← vote (Hardforks.last_hardfork hfp); Ok [hardfork_extension v.1 v.2]
        else Ok []);
  Ok (version ++ hf).

(** The pending transactions that are not expired, fit and apply. *)
Fixpoint collect_pending (skip when maximum_block_size : Z) (l : list signed_transaction) (total_block_size : Z)
    : stx node (list signed_transaction) :=
  match l with
  | [] => mret []
  | t :: l =>
      if expiration (trx t) <? when then collect_pending skip when maximum_block_size l total_block_size
      else if u64 (total_block_size + trx_size t) >=? maximum_block_size
      then collect_pending skip when maximum_block_size l total_block_size
      else fun n =>
        match in_session (_ ← on_chain (_apply_transaction skip t); merge) n with
        | (Ok _, n) => (r ← collect_pending skip when maximum_block_size l (u64 (total_block_size + trx_size t)); mret (t :: r)) n
        | (Throw e, n) =>
            if is_fc_exception e then collect_pending skip when maximum_block_size l total_block_size n else (Throw e, n)
        end
  end.

Definition _generate_block (skip when : Z) (witness_owner : string) (block_signing_private_key : Z) : stx node full_block :=
  n ← getx id;
  let slot_num := Blocks.get_slot_at_time when (db (state n)) in
  _ ← assertx (slot_num >? 0);
  scheduled_witness ← liftx (Blocks.get_scheduled_witness slot_num (db (state n)));
  _ ← assertx (String.eqb scheduled_witness witness_owner);
  witness ← on_chain (on_db (get_witness witness_owner));
  _ ← (if skips skip skip_witness_signature then mret tt
       else assertx (Witness.signing_key witness.2 =? get_public_key block_signing_private_key));
  extensions ← liftx (pending_extensions n witness.2);
  let pending_block l root := FullBlock (SignedBlock (head_block_id n) when witness_owner extensions 0 null_key 0) root l in
  let maximum_block_size := Dgpo.maximum_block_size (dgpo (db (state n))) in
  _ ← reset_pending_session;
  _ ← start_undo_session;
  _ ← modx (fun n => n <| pending_session := true |>);
  transactions ← collect_pending skip when maximum_block_size (pending_tx n) (u64 (pending_size (pending_block [] 0) + 4));
  _ ← reset_pending_session;
  root ← liftx (calculate_merkle_root transactions);
  let b := seal (if skips skip skip_witness_signature then None else Some block_signing_private_key)
             (pending_block transactions root) in
  _ ← (if skips skip skip_block_size_check then mret tt else assertx (sb_size (header b) <=? BTCM_MAX_BLOCK_SIZE));
  _ ← push_block skip b;
  mret b.
Definition generate_block (skip when : Z) (witness_owner : string) (key : Z) : stx node full_block :=
  capturex (_generate_block skip when witness_owner key).

(** ** Checkpoints *)

Definition add_checkpoints (checkpts : list (Z * block_id)) : stx node unit :=
  for_eachx checkpts (fun i => modx (fun n => n <| checkpoints ::= Flat.set Z.ltb i.1 i.2 |>)).
Definition before_last_checkpoint (n : node) : bool :=
  match last (checkpoints n) with Some (num, _) => num >=? head_block_num (db (state n)) | None => false end.

(** ** Rebuilding the state *)

(** Each turn removes a block; an entry without a block is cut off. *)
Fixpoint cutoff_loop (fuel : nat) (until : Z) (blocks : block_database) : result block_database :=
  let (last_id, blocks) := BlockDatabase.last_id (B:=full_block) blocks in
  match last_id with
  | Some id =>
      if num_from_id id >? until then
        match fuel with
        | O => Throw undefined_behaviour
        | S fuel => blocks ← BlockDatabase.remove id blocks; cutoff_loop fuel until blocks
        end
      else Ok blocks
  | None => Ok blocks
  end.
Definition cutoff_blocks (until : Z) (blocks : block_database) : result block_database :=
  cutoff_loop (length (block_num_to_pos blocks)) until blocks.

(** [i] is the number of the next block, [count] how many there are up to the last. *)
Fixpoint reindex_range (count : nat) (i : Z) (push_or_apply : full_block -> stx node unit) : stx node Z :=
  match count with
  | O => mret i
  | S count =>
      n ← getx id;
      match BlockDatabase.fetch_by_number i (block_db n) with
      | None =>
          blocks ← liftx (cutoff_blocks i (block_db n));
          _ ← modx (fun n => n <| block_db := blocks |>); mret i
      | Some b => _ ← push_or_apply b; reindex_range count (i + 1) push_or_apply
      end
  end.

Definition skip_reindexing : Z :=
  foldl Z.lor 0 [skip_witness_signature; skip_transaction_signatures; skip_transaction_dupe_check; skip_tapos_check;
    skip_witness_schedule_check; skip_authority_check; skip_validate; skip_validate_invariants].

(** While the undo database is disabled blocks are applied without sessions. *)
Definition count_of (first last : Z) : nat := Z.to_nat (last - first + 1).
Definition reindex : stx node unit := capturex (
  n ← getx id;
  let (last_block, blocks) := BlockDatabase.last (B:=full_block) (block_db n) in
  _ ← modx (fun n => n <| block_db := blocks |>);
  match last_block with
  | None => mret tt
  | Some last_block =>
      if block_num last_block <=? head_block_num (db (state n)) then mret tt
      else
        let in_file := block_num last_block in
        let first := head_block_num (db (state n)) + 1 in
        let apply b := apply_block b skip_reindexing in
        let until k first := if (in_file >? k) && (first <? in_file - k)
                             then reindex_range (count_of first (in_file - k)) first apply else mret first in
        first ← until (2 * BTCM_MAX_UNDO_HISTORY) first;
        first ← until BTCM_MAX_UNDO_HISTORY first;
        n ← getx (fun n => n);
        _ ← (if first >? 1 then
               b ← liftx (of_option undefined_behaviour (BlockDatabase.fetch_by_number (first - 1) (block_db n)));
               on_forks (ForkDatabase.start_block b)
             else mret tt);
        _ ← reindex_range (count_of first in_file) first (fun b => _ ← push_block skip_nothing b; mret tt);
        mret tt
  end).

(** The part of [close] that goes back to the last irreversible block. *)
Fixpoint rewind_loop (fuel : nat) (cutoff : Z) : stx node unit :=
  n ← getx id;
  if head_block_num (db (state n)) >? cutoff then
    _ ← pop_block;
    _ ← on_forks (ForkDatabase.remove (head_block_id n));
    match fuel with
    | O => throwx undefined_behaviour
    | S fuel => rewind_loop fuel cutoff
    end
  else mret tt.
Definition rewind : stx node unit :=
  _ ← try_catch (
    n ← getx id;
    let cutoff := Dgpo.last_irreversible_block_num (dgpo (db (state n))) in
    _ ← clear_pending;
    n ← getx (fun n => n);
    rewind_loop (length (undo_stack n)) cutoff) (fun _ => mret tt);
  clear_pending.

End Node.
End Node.
