(* ===== verification/Genesis.v ===== *)
(** * The first state of a chain

    Models genesis_state.hpp and [init_genesis] of database.cpp: the accounts,
    witnesses and assets the chain is born with, and what is imported from a genesis
    file.  The undo database is off meanwhile.  Reading keys and addresses from text
    belongs to the crypto library. *)

From S2P Require Import Prelude.
From S2P Require Import SafeInt.
From S2P Require Import Uint128.
From S2P Require Import Asset.
From S2P Require Import UndoDatabase.
From S2P Require Import Authority.
From S2P Require Import ForkDatabase.
From S2P Require Import State.
From S2P Require Import Balance.
From S2P Require Import AssetEval.
From S2P Require Import Accounts.
From S2P Require Import Content.
From S2P Require Import Operations.
From S2P Require Import Proposals.
From S2P Require Import Node.

Definition BTCM_INIT_MINER_NAME : string := "initminer".
Definition BTCM_NUM_INIT_MINERS : nat := 3.
Definition BTCM_MINER_ACCOUNT : string := "miners".
Definition BTCM_NULL_ACCOUNT : string := "null".
Definition BTCM_ASSET_PRECISION : Z := 6.
(** [charge_market_fee | transfer_restricted | disable_confidential] *)
Definition UIA_ASSET_ISSUER_PERMISSION_MASK : Z := Z.lor (Z.lor 0x01 0x08) 0x40.
Definition disable_confidential : Z := 0x40.

(** [BTCM_INIT_PUBLIC_KEY], and [address( string )], which checks what it reads. *)
Class GenesisText := { init_public_key : public_key; address_of : string -> result Z }.

(** ** genesis_state.hpp *)

Module InitialAccount.
Record t := Make { name : string; owner_key : public_key; active_key : public_key }.
End InitialAccount.
Module InitialAsset.
Record t := Make { symbol : string; issuer_name : string; description : string; precision : Z; max_supply : Z }.
End InitialAsset.
Module InitialBalance.
Record t := Make { owner : string; asset_symbol : string; amount : Z }.
End InitialBalance.
Module InitialVesting.
Record t := Make {
  owner : Z;
  asset_symbol : string;
  amount : Z;
  begin_timestamp : Z;
  vesting_duration_seconds : Z;
  begin_balance : Z
}.
End InitialVesting.

(** [initial_witness_type]s, times and the maximal supply are read and not used. *)
Record genesis_state := GenesisState {
  init_supply : Z;
  initial_accounts : list InitialAccount.t;
  initial_assets : list InitialAsset.t;
  initial_balances : list InitialBalance.t;
  initial_vesting_balances : list InitialVesting.t
}.

Definition no_rows {V} : table V := Table 0 ∅.
(** The tables before anything is created; the singletons are made by [init_genesis]. *)
Definition empty_database : database :=
  Database default_dgpo default_schedule default_feed_history default_hardforks
    no_rows no_rows no_rows no_rows no_rows no_rows no_rows no_rows no_rows no_rows no_rows no_rows no_rows no_rows
    no_rows no_rows no_rows no_rows no_rows no_rows no_rows no_rows.
Definition empty_chain : chain := Chain empty_database no_rows no_rows ∅.

Module Genesis.
Import AssetOps Balances Accounts Operations Proposals.

Section Genesis.
Context {B : BoostMP} {T : TextChecks} {A : Addresses} {G : GenesisText}.

(** ** What every chain is born with *)

(** An account nobody has a key of. *)
Definition keyless_account (name : string) (threshold : Z) : Account.t :=
  default_account <| Account.name := name |> <| Account.owner := Auth threshold [] [] |>
    <| Account.active := Auth threshold [] [] |>.

(** [BTCM_INIT_MINER_NAME + ( i ? fc::to_string( i ) : std::string() )] *)
Definition init_miner (i : nat) : string :=
  match i with
  | O => BTCM_INIT_MINER_NAME
  | _ => BTCM_INIT_MINER_NAME ++ String (Ascii.ascii_of_nat (48 + i)) ""
  end%string.

Definition miner_account (supply : Z) (i : nat) : Account.t :=
  let owner := Names.add_key init_public_key 1 (Auth 1 [] []) in
  default_account <| Account.name := init_miner i |> <| Account.owner := owner |> <| Account.active := owner |>
    <| Account.basic := owner |> <| Account.memo_key := init_public_key |>
    <| Account.balance := Asset (if (i =? 0)%nat then supply else 0) BTCM_SYMBOL |>.

Definition create_miner (supply : Z) (i : nat) : st database unit :=
  _ ← create (miner_account supply i);
  _ ← create (default_witness <| Witness.owner := init_miner i |> <| Witness.signing_key := init_public_key |>);
  mret tt.

Definition initial_globals (supply : Z) : Dgpo.t :=
  default_dgpo <| Dgpo.current_witness := BTCM_INIT_MINER_NAME |> <| Dgpo.time := BTCM_GENESIS_TIME |>
    <| Dgpo.recent_slots_filled := Uint128.max_value |> <| Dgpo.participation_count := 128 |>
    <| Dgpo.current_supply := Asset supply BTCM_SYMBOL |> <| Dgpo.virtual_supply := Asset supply BTCM_SYMBOL |>
    <| Dgpo.maximum_block_size := BTCM_MAX_BLOCK_SIZE |>.

(** [asset_options] as its constructor leaves it, but for the description. *)
Definition core_options (description : string) : AssetOptions.t :=
  AssetOptions.Make BTCM_MAX_SHARE_SUPPLY 0 BTCM_MAX_SHARE_SUPPLY UIA_ASSET_ISSUER_PERMISSION_MASK 0 description.
Definition core_asset (symbol description : string) : AssetObject.t :=
  AssetObject.Make 0 symbol BTCM_ASSET_PRECISION 0 (core_options description).

Definition create_core (supply : Z) : st database unit :=
  _ ← create (keyless_account BTCM_MINER_ACCOUNT 1);
  _ ← create (keyless_account BTCM_NULL_ACCOUNT 1);
  _ ← create (keyless_account BTCM_TEMP_ACCOUNT 0);
  _ ← for_each (seq 0 BTCM_NUM_INIT_MINERS) (create_miner supply);
  _ ← modify_st (fun d => d <| dgpo := initial_globals supply |>);
  _ ← create (core_asset "BTCM" "BTCM Core asset");
  _ ← create (core_asset "VEST" "BTCM Power asset");
  _ ← create (core_asset "XUSD" "BTCM backed dollars");
  _ ← modify_st (fun d => d <| feed_history := default_feed_history |>);
  _ ← modify_st (fun d => d <| hardforks :=
        default_hardforks <| Hardforks.processed_hardforks ::= fun l => l ++ [BTCM_GENESIS_TIME] |> |>);
  modify_st (fun d => d <| schedule := default_schedule <| Schedule.current_shuffled_witnesses :=
    BTCM_INIT_MINER_NAME :: (init_miner <$> seq 0 BTCM_NUM_INIT_MINERS) |> |>).

(** ** Imports *)

Definition one_key (k : public_key) : authority := Names.add_key k 1 (Auth 1 [] []).

Definition import_account (account : InitialAccount.t) : st chain unit :=
  let owner := one_key (InitialAccount.owner_key account) in
  let '(active, memo_key) :=
    if InitialAccount.active_key account =? null_key then (owner, InitialAccount.owner_key account)
    else (one_key (InitialAccount.active_key account), InitialAccount.active_key account) in
  apply_operation (account_create (AccountCreateOp (Asset 0 BTCM_SYMBOL) BTCM_TEMP_ACCOUNT
    (InitialAccount.name account) owner active active memo_key "")).

(** The precision stays as the constructor of [asset_object] leaves it. *)
Definition import_asset (a : InitialAsset.t) : st database unit :=
  issuer ← get_account (InitialAsset.issuer_name a);
  _ ← create (AssetObject.Make 0 (InitialAsset.symbol a) 6 issuer.1
    (core_options (InitialAsset.description a) <| AssetOptions.max_supply := InitialAsset.max_supply a |>
      <| AssetOptions.flags := disable_confidential |>
      <| AssetOptions.issuer_permissions := UIA_ASSET_ISSUER_PERMISSION_MASK |>));
  mret tt.

(** [catch( const fc::assert_exception& )]: what can throw it has changed nothing. *)
Definition or_assert {A} (m h : st database A) : st database A := fun d =>
  match m d with Throw assert_exception => h d | r => r end.

(** Every balance is in BTCM, whatever symbol it names. *)
Definition import_balance (btcm_asset : Z) (handout : InitialBalance.t) : st database unit :=
  let amount := Asset (InitialBalance.amount handout) BTCM_SYMBOL in
  _ ← or_assert
        (owner ← get_account (InitialBalance.owner handout); adjust_balance owner.1 amount)
        (a ← lift (address_of (InitialBalance.owner handout));
         _ ← create (ClaimBalance.Make a amount 0); mret tt);
  _ ← modify_dgpo (fun p =>
        s ← asset_add (Dgpo.current_supply p) amount;
        Ok (p <| Dgpo.current_supply := s |> <| Dgpo.virtual_supply := s |>));
  modify btcm_asset (fun a : AssetObject.t =>
    s ← Safe.add (AssetObject.current_supply a) (InitialBalance.amount handout);
    Ok (a <| AssetObject.current_supply := s |>)).

Definition import_vesting (vest : InitialVesting.t) : st database unit :=
  let new_vesting := Asset (InitialVesting.amount vest) VESTS_SYMBOL in
  _ ← modify (InitialVesting.owner vest) (fun to : Account.t =>
        v ← asset_add (Account.vesting_shares to) new_vesting; Ok (to <| Account.vesting_shares := v |>));
  modify_dgpo (fun p =>
    v ← asset_add (Dgpo.total_vesting_shares p) new_vesting; Ok (p <| Dgpo.total_vesting_shares := v |>)).

(** Object 0 of the assets is BTCM. *)
Definition init_genesis (g : genesis_state) : st chain unit := capture (
  _ ← on_db (create_core (init_supply g));
  _ ← for_each (initial_accounts g) import_account;
  _ ← on_db (for_each (initial_assets g) import_asset);
  _ ← on_db (for_each (initial_balances g) (import_balance 0));
  on_db (for_each (initial_vesting_balances g) import_vesting)).
End Genesis.
End Genesis.
