(* ===== verification/GenesisFacts.v ===== *)
(** * The first state is balanced

    Whatever a genesis file imports, the chain starts with every recorded supply equal
    to what the accounts hold, at the genesis time and before the first block. *)

From S2P Require Import Prelude.
From S2P Require Import SafeInt.
From S2P Require Import Uint128.
From S2P Require Import Asset.
From S2P Require Import AssetFacts.
From S2P Require Import UndoDatabase.
From S2P Require Import Authority.
From S2P Require Import ForkDatabase.
From S2P Require Import State.
From S2P Require Import Balance.
From S2P Require Import BalanceFacts.
From S2P Require Import AssetEval.
From S2P Require Import AssetEvalFacts.
From S2P Require Import Vesting.
From S2P Require Import Market.
From S2P Require Import MarketFacts.
From S2P Require Import Accounts.
From S2P Require Import CreationFacts.
From S2P Require Import Content.
From S2P Require Import ContentFacts.
From S2P Require Import Operations.
From S2P Require Import Proposals.
From S2P Require Import Transactions.
From S2P Require Import Frames.
From S2P Require Import SteadyFacts.
From S2P Require Import BlockSteady.
From S2P Require Import TransactionFacts.
From S2P Require Import ConservationFacts.
From S2P Require Import ChainConservation.
From S2P Require Import Node.
From S2P Require Import Genesis.

Module GenesisFacts.
Import AssetOps Balances TransactionFacts ContentFacts Steady Supply Conserved SteadyFacts BlockSteady ConservationFacts ChainConservation Operations Proposals Transactions Genesis.

Section Born.
Context {B : BoostMP} {T : TextChecks} {A : Addresses} {G : GenesisText}.

(** ** What every chain is born with *)

Lemma new_account_shifts (w : Account.t) d i d' : create w d = Ok (i, d') ->
  amount (Account.mbd_balance w) = 0 -> amount (Account.vesting_shares w) = 0 ->
  shifts (given_out BTCM_SYMBOL (amount (Account.balance w))) d d'.
Proof.
  intros H Em Ev. eapply shifts_run; [apply (keeps_create (V:=Account.t))|exact H|]. intros Hd id. apply create_Ok in H as (_ & _ & ->).
  assert (fresh Account.t d) as Hf by (apply ids_below_fresh, Hd). set (d' := upd_tbl _ d).
  unfold gap, held_btcm, held_mbd, held_vests, given_out. change (dgpo d') with (dgpo d).
  change (user_supply id d') with (user_supply id d). change (held_user id d') with (held_user id d).
  change (total (V:=ConvertRequest.t) ?f d') with (total (V:=ConvertRequest.t) f d).
  change (total (V:=LimitOrder.t) ?f d') with (total (V:=LimitOrder.t) f d).
  change (total (V:=ClaimBalance.t) ?f d') with (total (V:=ClaimBalance.t) f d).
  change (total (V:=Content.t) ?f d') with (total (V:=Content.t) f d).
  unfold d'. rewrite !(total_create (V:=Account.t) _ d w Hf), Em, Ev. repeat destruct (_ =? _); lia.
Qed.

Lemma keyless_conserves n k : keeps conserves (create (keyless_account n k)).
Proof.
  intros d i d' H%new_account_shifts; [|done..]. eapply shifts_conserves; [exact H|].
  intros id. unfold given_out. by destruct (_ =? _).
Qed.
Lemma miner_shifts supply i d u d' : create_miner supply i d = Ok (u, d') ->
  shifts (given_out BTCM_SYMBOL (if (i =? 0)%nat then supply else 0)) d d'.
Proof.
  intros H. unfold create_miner in H. step H as n En. apply new_account_shifts in En; [|done..]. step H as k Ek. apply st_ret_Ok in H as [_ ->].
  apply (conserves_create (V:=Witness.t)) in Ek. eapply shifts_ext; [eapply shifts_trans; [exact En|by apply conserves_shifts]|].
  intros id. cbn [miner_account Account.balance amount]. unfold given_out. destruct (_ =? BTCM_SYMBOL); cbn; lia.
Qed.
Lemma core_asset_conserves s x : keeps conserves (create (core_asset s x)).
Proof. by apply conserves_new_asset. Qed.

(** A database in which nothing is missing and no block has been applied. *)
Record born (d : database) : Prop := {
  born_sound : sound d;
  born_clock : clock d = (BTCM_GENESIS_TIME, 0, null_id);
  born_gap : forall id, gap id d = 0
}.

Lemma empty_sound : sound empty_database.
Proof. split; try done; intros i [x Hx]; done. Qed.
Lemma empty_gap id : gap id empty_database = 0.
Proof. unfold gap, user_supply, held_user. repeat destruct (_ =? _); done. Qed.

(** The clock and the supply are set after the first accounts. *)
Lemma globals_born supply d : shifts (given_out BTCM_SYMBOL supply) empty_database d -> dgpo d = default_dgpo ->
  born (d <| dgpo := initial_globals supply |>).
Proof.
  intros [S Gp] Hg. apply steady_sound in S; [|apply empty_sound]. split; [|done|].
  - destruct S. by split.
  - intros id. rewrite gap_set_dgpo, Gp, empty_gap, Hg by apply empty_sound. unfold given_out. cbn. repeat destruct (_ =? _); lia.
Qed.
Lemma conserves_born d d' : conserves d d' -> born d -> born d'.
Proof.
  intros [[C S] Gp] [Hs Hc Hg]. split; [by apply S|congruence|]. intros id. by rewrite Gp.
Qed.

(** Rows of a table without funds do not touch the globals. *)
Lemma create_globals {V} {St : Stored V} (Hv : forall f d, dgpo (upd_tbl (V:=V) f d) = dgpo d) (v : V) : keeps (fun d d' => dgpo d' = dgpo d) (create v).
Proof. intros d i d' (_ & _ & ->)%create_Ok. apply Hv. Qed.
Lemma miner_globals supply i : keeps (fun d d' => dgpo d' = dgpo d) (create_miner supply i).
Proof.
  intros d u d' H. unfold create_miner in H. step H as n En. step H as k Ek. apply st_ret_Ok in H as [_ ->].
  apply create_globals in En as <-; [|done]. by apply create_globals in Ek.
Qed.
Lemma miners_shifts supply l d u d' : (forall i, i ∈ l -> i <> O) -> for_each l (create_miner supply) d = Ok (u, d') -> conserves d d'.
Proof.
  intros Hl. apply (keeps_loop_in conserves). intros i Hi d1 v d2 H%miner_shifts.
  eapply shifts_conserves; [exact H|]. intros id. rewrite (proj2 (Nat.eqb_neq i 0)) by by apply Hl. unfold given_out. by destruct (_ =? _).
Qed.

#[local] Instance same_globals : PreOrder (fun d d' : database => dgpo d' = dgpo d).
Proof. split; [done|]. intros d1 d2 d3. congruence. Qed.

(** The accounts: the first of the miners has it all. *)
Definition create_accounts (supply : Z) : st database unit :=
  _ ← create (keyless_account BTCM_MINER_ACCOUNT 1);
  _ ← create (keyless_account BTCM_NULL_ACCOUNT 1);
  _ ← create (keyless_account BTCM_TEMP_ACCOUNT 0);
  for_each (seq 0 BTCM_NUM_INIT_MINERS) (create_miner supply).
Lemma accounts_shift supply d u d' : create_accounts supply d = Ok (u, d') ->
  shifts (given_out BTCM_SYMBOL supply) d d' /\ dgpo d' = dgpo d.
Proof.
  intros H. unfold create_accounts in H. step H as i1 E1. step H as i2 E2. step H as i3 E3. split.
  - apply keyless_conserves in E1, E2, E3. cbn [BTCM_NUM_INIT_MINERS seq for_each] in H. step H as [] F.
    apply miner_shifts in F. assert (conserves x2 d') as C.
    { apply (miners_shifts supply [1%nat; 2%nat] x2 u d'); [|exact H]. set_solver. }
    eapply shifts_ext; [eapply shifts_trans; [|eapply shifts_trans; [exact F|apply conserves_shifts, C]]|].
    + apply conserves_shifts. etransitivity; [exact E1|]. etransitivity; [exact E2|exact E3].
    + intros id. cbn. lia.
  - apply create_globals in E1 as <-, E2 as <-, E3 as <-; [|done..].
    revert H. apply (keeps_loop (fun d d' => dgpo d' = dgpo d)). intros i. apply miner_globals.
Qed.

Lemma create_core_born supply u d : create_core supply empty_database = Ok (u, d) -> born d.
Proof.
  intros H. unfold create_core in H. step H as i1 E1. step H as i2 E2. step H as i3 E3. step H as [] E4.
  assert (create_accounts supply empty_database = Ok (tt, x2)) as [S Hd]%accounts_shift.
  { unfold create_accounts, mbind, st_bind. by rewrite E1, E2, E3. }
  step H as [] E5. apply modify_st_Ok in E5 as ->. pose proof (globals_born supply x2 S Hd) as Hb.
  step H as i6 E6. apply core_asset_conserves in E6. step H as i7 E7. apply core_asset_conserves in E7.
  step H as i8 E8. apply core_asset_conserves in E8. apply (conserves_born _ x5) in Hb; [|by etransitivity; [exact E6|etransitivity]].
  step H as [] E9. apply modify_st_Ok in E9 as ->. step H as [] E10. apply modify_st_Ok in E10 as ->. apply modify_st_Ok in H as ->.
  clear -Hb. destruct Hb as [[] Hc Hg]. split; [by split|exact Hc|exact Hg].
Qed.

(** ** Imports *)

(** Imports propose nothing and keep what is born. *)
Definition untouched (c c' : chain) : Prop := proposals c' = proposals c /\ (born (db c) -> born (db c')).
#[local] Instance untouched_preorder : PreOrder untouched.
Proof. split; [by split|]. intros c1 c2 c3 [P1 B1] [P2 B2]. split; [congruence|auto]. Qed.
Lemma on_db_untouched {X} (m : st database X) : keeps conserves m -> keeps untouched (on_db m).
Proof. intros Hm c x c' (d & H%Hm & ->)%on_db_Ok. split; [done|]. cbn. by apply conserves_born. Qed.

Lemma import_account_untouched a : keeps untouched (import_account a).
Proof.
  intros c [] c' H. unfold import_account in H. destruct (if _ =? _ then _ else _) as [active memo_key].
  apply capture_Ok in H. cbn [evaluate] in H. revert H. apply on_db_untouched. intros d [] d' H.
  split; [by eapply account_create_steady|]. intros Hd id.
  eapply (CreationFacts.account_create_gap_fee _ d); [apply Hd| | |exact H]; done.
Qed.

Lemma import_asset_conserves a : keeps conserves (import_asset a).
Proof.
  intros d u d' H. unfold import_asset in H. step H as iss Eis. step H as n En. apply st_ret_Ok in H as [_ ->].
  revert En. by apply conserves_new_asset.
Qed.

(** The object of a core asset counts for none. *)
Lemma core_object_conserves i f : ConservationFacts.core_asset i = true -> keeps conserves (modify (V:=AssetObject.t) i f).
Proof.
  intros Hi. apply conserves_run; [apply keeps_modify|]. intros d u d' id _ (a & w & Ha & _ & ->)%modify_Ok.
  destruct (ConservationFacts.core_asset id) eqn:E; [by apply gap_core|]. unfold gap, ConservationFacts.core_asset in *.
  change (held_user id (set_obj d i w)) with (held_user id d).
  repeat (destruct (_ =? _); [reflexivity|]). f_equal. unfold user_supply. rewrite get_set_obj. destruct (decide (id = i)) as [->|]; [|done].
  congruence.
Qed.

Lemma claim_shifts a x n d i d' : asset_id x = BTCM_SYMBOL -> create (ClaimBalance.Make a x n) d = Ok (i, d') ->
  shifts (given_out BTCM_SYMBOL (amount x)) d d'.
Proof.
  intros Hx (_ & _ & ->)%create_Ok. split; [split; [done|]|].
  - intros []. split; try done; [by apply ids_ok_next|]. intros j b. cbn. intros [[<- <-]|[_ Hb]]%lookup_insert_Some; [exact Hx|by eapply claim_symbol0].
  - intros Hd id. change (upd_tbl _ d) with (d <| claim_balances ::= fun t => next_object t (ClaimBalance.Make a x n) |>).
    etransitivity; [apply gap_claims|].
    pose proof (total_create (V:=ClaimBalance.t) (fun b => amount (ClaimBalance.balance b)) d (ClaimBalance.Make a x n)
      (ids_below_fresh _ (ids_claim_balances _ Hd))) as Ht.
    unfold total in Ht |- *. cbn in Ht |- *. rewrite Ht. unfold given_out. destruct (_ =? _); lia.
Qed.

Lemma supply_shifts x d u d' : asset_id x = BTCM_SYMBOL ->
  modify_dgpo (fun p => s ← asset_add (Dgpo.current_supply p) x;
     Ok (p <| Dgpo.current_supply := s |> <| Dgpo.virtual_supply := s |>)) d = Ok (u, d') ->
  shifts (fun id => if id =? BTCM_SYMBOL then amount x else 0) d d'.
Proof.
  intros Hx H. eapply shifts_run; [|exact H|].
  - apply keeps_dgpo. solve_clock.
  - intros _ id. apply modify_dgpo_Ok in H as (p & Hp & ->). apply bind_Ok in Hp as (s & [_ ->]%AssetLemmas.asset_add_Ok & [= <-]).
    rewrite gap_set_dgpo. cbn. repeat destruct (_ =? _); lia.
Qed.

Lemma or_assert_Ok {X} (m h : st database X) d r : or_assert m h d = Ok r -> m d = Ok r \/ h d = Ok r.
Proof. unfold or_assert. destruct (m d) as [|[]]; auto. Qed.
Lemma import_balance_conserves h : keeps conserves (import_balance 0 h).
Proof.
  intros d u d' H. unfold import_balance in H. step H as [] E1. step H as [] E2. apply (core_object_conserves 0) in H; [|done].
  apply supply_shifts in E2; [|done]. transitivity x0; [|exact H].
  assert (shifts (given_out BTCM_SYMBOL (InitialBalance.amount h)) d x) as S.
  { apply or_assert_Ok in E1 as [E|E]; [step E as o Eo; by apply balance_shifts in E|].
    step E as a Ea. step E as n En. apply st_ret_Ok in E as [_ ->]. by apply claim_shifts in En. }
  eapply shifts_conserves; [by eapply shifts_trans|]. intros id. unfold given_out. cbn. destruct (_ =? _); lia.
Qed.

Lemma import_vesting_conserves v : keeps conserves (import_vesting v).
Proof.
  apply conserves_run.
  - unfold import_vesting. apply keeps_seq; [typeclasses eauto|apply (keeps_modify (V:=Account.t))|intros _]. apply keeps_dgpo. solve_clock.
  - intros d u d' id _ H. unfold import_vesting in H. step H as [] E1. apply modify_Ok in E1 as (a & w & Ha & Hw & ->).
    apply bind_Ok in Hw as (s & [_ ->]%AssetLemmas.asset_add_Ok & [= <-]).
    apply modify_dgpo_Ok in H as (p & Hp & ->). apply bind_Ok in Hp as (t & [_ ->]%AssetLemmas.asset_add_Ok & [= <-]).
    rewrite gap_set_dgpo, (gap_set_account _ _ a) by done. cbn. repeat destruct (_ =? _); lia.
Qed.

End Born.

(** ** A genesis file, and a transaction after it *)

#[local] Existing Instance boost_reference.
#[local] Instance any_text : TextChecks := {| is_utf8 _ := true; json_is_valid _ := true |}.
#[local] Instance own_address : Addresses := {| addresses_of k := [k] |}.
#[local] Instance some_text : GenesisText := {| init_public_key := 1; address_of s := if String.eqb s "BTCMaddress" then Ok 77 else Throw assert_exception |}.
#[local] Instance some_wire : Wire :=
  {| transaction_id t := expiration t; sig_digest t := expiration t; recover_key s _ := Ok s; trx_size _ := 100;
     merkle_digest t := expiration (trx t); hash_pair x y := x + y; checksum x := x; id_word i := 0 |}.

Definition small_genesis : genesis_state := GenesisState 1000
  [InitialAccount.Make "alice" 11 0; InitialAccount.Make "bob" 12 13]
  [InitialAsset.Make "COIN" "bob" "a coin" 4 5000]
  [InitialBalance.Make "alice" "COIN" 400; InitialBalance.Make "BTCMaddress" "BTCM" 50]
  [InitialVesting.Make 6 "VEST" 0 0 0 0].
(** The coins go to bob's account, the address gets a claim; only BTCM is handed out. *)
Definition first_chain : chain := match init_genesis small_genesis empty_chain with Ok (_, c) => c | Throw _ => empty_chain end.
Definition second_chain : chain :=
  match _apply_transaction flags (pay (BTCM_GENESIS_TIME + 60)) first_chain with Ok (_, c) => c | Throw _ => empty_chain end.

(** Alice and bob are accounts 6 and 7; what is handed out as COIN is BTCM. *)
Example genesis_file_read :
  map (fun kv => (kv.1, Account.name kv.2, amount (Account.balance kv.2))) (map_to_list (indices (accounts (db second_chain)))) =
    [(7, "bob", 10); (5, "initminer2", 0); (3, "initminer", 1000); (6, "alice", 390); (4, "initminer1", 0); (2, "temp", 0);
     (1, "null", 0); (0, "miners", 0)]%string /\
  map (fun kv => (ClaimBalance.owner kv.2, ClaimBalance.balance kv.2)) (map_to_list (indices (claim_balances (db second_chain)))) =
    [(77, Asset 50 BTCM_SYMBOL)] /\
  map (fun kv => (kv.1, AssetObject.symbol_string kv.2, AssetObject.precision kv.2, AssetObject.current_supply kv.2))
    (map_to_list (indices (assets (db second_chain)))) =
    [(3, "COIN", 6, 0); (2, "XUSD", 6, 0); (1, "VEST", 6, 0); (0, "BTCM", 6, 450)]%string /\
  amount (Dgpo.current_supply (dgpo (db second_chain))) = 1450.
Proof. vm_compute. done. Qed.

End GenesisFacts.
