(* ===== verification/NodeFacts.v ===== *)
(** * What a node keeps

    Pending transactions run on top of the state of the head block and never change
    it; a block that fails leaves that state as it was; a block that is taken moves it
    by exactly what [apply_block] does. *)

From S2P Require Import Prelude.
From S2P Require Import UndoDatabase.
From S2P Require Import Authority.
From S2P Require Import ForkDatabase.
From S2P Require Import BlockDatabase.
From S2P Require Import Uint128.
From S2P Require Import State.
From S2P Require Import Sample.
From S2P Require Import Blocks.
From S2P Require Import Content.
From S2P Require Import Accounts.
From S2P Require Import Operations.
From S2P Require Import Proposals.
From S2P Require Import Transactions.
From S2P Require Import Frames.
From S2P Require Import TransactionFacts.
From S2P Require Import Node.

Module NodeFacts.
Import Transactions Node.

(** The state of the head block, and the states before it. *)
Definition base (n : node) : chain :=
  if pending_session n then match undo_stack n with c :: _ => c | [] => state n end else state n.
Definition history (n : node) : list chain := if pending_session n then tail (undo_stack n) else undo_stack n.

Section Facts.
Context {B : BoostMP} {T : TextChecks} {A : Addresses} {W : Wire} {Pk : Packed full_block} {Pr : Producer}.

(** [l] applied one after the other, each with some flags. *)
Inductive replays : list signed_transaction -> chain -> chain -> Prop :=
  | replays_none c : replays [] c c
  | replays_one l t skip c c1 c2 : replays l c c1 -> _apply_transaction skip t c1 = Ok (tt, c2) -> replays (l ++ [t]) c c2.

Record node_ok (n : node) : Prop := {
  ok_stack : pending_session n = true -> undo_stack n <> [];
  ok_none : pending_session n = false -> pending_tx n = [];
  ok_replay : replays (pending_tx n) (base n) (state n);
  ok_limit : 1 <= max_undo n
}.

(** What transactions do not touch. *)
Record calm (n n' : node) : Prop := {
  calm_base : base n' = base n;
  calm_history : history n' `prefix_of` history n;
  calm_forks : fork_db n' = fork_db n;
  calm_blocks : block_db n' = block_db n;
  calm_checkpoints : checkpoints n' = checkpoints n;
  calm_limit : max_undo n' = max_undo n
}.
#[export] Instance calm_preorder : PreOrder calm.
Proof. split; [by split|]. intros n1 n2 n3 [] []. split; [congruence|by etransitivity|congruence..]. Qed.

Lemma take_prefix {X} k (l : list X) : take k l `prefix_of` l.
Proof. exists (drop k l). by rewrite take_drop. Qed.

(** ** Transactions *)

(** A pending session that is there, on [c]. *)
Lemma session_transaction skip t n c l : pending_session n = true -> undo_stack n = c :: l -> 1 <= max_undo n ->
  in_session (_ ← on_chain (_apply_transaction skip t); _ ← modx (fun n => n <| pending_tx ::= fun l => l ++ [t] |>); merge) n =
    match _apply_transaction skip t (state n) with
    | Ok (_, c') => (Ok tt, n <| state := c' |> <| pending_tx ::= fun l => l ++ [t] |> <| undo_stack := c :: take (Z.to_nat (max_undo n - 1)) l |>)
    | Throw e => (Throw e, n <| undo_stack := c :: take (Z.to_nat (max_undo n - 1)) l |>)
    end.
Proof.
  intros Hp Hs Hm. assert (E : take (Z.to_nat (max_undo n)) (c :: l) = c :: take (Z.to_nat (max_undo n - 1)) l).
  { replace (Z.to_nat (max_undo n)) with (S (Z.to_nat (max_undo n - 1))) by lia. done. }
  unfold in_session, start_undo_session, modx. cbn [snd]. rewrite Hs, E. unfold mbind, stx_bind, on_chain, merge. cbn.
  destruct (_apply_transaction skip t (state n)) as [[[] c']|e]; cbn.
  - unfold mbind, stx_bind. cbn. rewrite (proj2 (Z.leb_le _ _)) by lia. cbn. by destruct n.
  - by destruct n.
Qed.

Lemma push_transaction_spec skip t n : node_ok n ->
  let '(r, n') := _push_transaction skip t n in
  node_ok n' /\ calm n n' /\ popped_tx n' = popped_tx n /\
  match r with
  | Ok _ => _apply_transaction skip t (state n) = Ok (tt, state n') /\ pending_tx n' = pending_tx n ++ [t]
  | Throw e => _apply_transaction skip t (state n) = Throw e /\ state n' = state n /\ pending_tx n' = pending_tx n
  end.
Proof.
  intros [Hst Hno Hre Hli]. unfold _push_transaction.
  set (n1 := if pending_session n then n else n <| undo_stack := state n :: take (Z.to_nat (max_undo n)) (undo_stack n) |> <| pending_session := true |>).
  assert (Hn1 : pending_session n1 = true /\ state n1 = state n /\ max_undo n1 = max_undo n /\ pending_tx n1 = pending_tx n /\
    popped_tx n1 = popped_tx n /\ fork_db n1 = fork_db n /\ block_db n1 = block_db n /\ checkpoints n1 = checkpoints n /\
    exists l, undo_stack n1 = base n :: l /\ l `prefix_of` history n).
  { unfold n1, base, history. destruct (pending_session n) eqn:Hp; cbn.
    - split_and!; try done. destruct (undo_stack n) as [|c l]; [by destruct (Hst eq_refl)|]. by exists l.
    - split_and!; try done. eexists. split; [done|]. apply take_prefix. }
  assert (Hrun : forall m : stx node unit, (n ← getx id; _ ← (if pending_session n then mret tt
       else _ ← start_undo_session; modx (fun n => n <| pending_session := true |>)); m) n = m n1).
  { intros m. unfold n1, mbind, stx_bind, getx, id. cbn. by destruct (pending_session n). }
  rewrite Hrun. destruct Hn1 as (Hp & Es & Em & Et & Eo & Ef & Eb & Ec & l & Eu & Hl). clearbody n1. clear Hrun.
  rewrite (session_transaction skip t n1 (base n) l Hp Eu) by lia. rewrite Es.
  assert (Hk : take (Z.to_nat (max_undo n1 - 1)) l `prefix_of` history n) by (etransitivity; [apply take_prefix|done]).
  destruct (_apply_transaction skip t (state n)) as [[[] c']|e] eqn:E.
  - split_and!; cbn; try done; try congruence.
    + split; unfold base; cbn; rewrite ?Hp; try done; [|by rewrite Em]. rewrite Et. by eapply replays_one.
    + split; unfold base, history; cbn; rewrite ?Hp; done.
  - split_and!; cbn; try done; try congruence.
    + split; unfold base; cbn; rewrite ?Hp; try done; [|by rewrite Em]. by rewrite Et, Es.
    + split; unfold base, history; cbn; rewrite ?Hp; done.
Qed.

(** Transactions that come back to be pending, some of which may no longer apply. *)
Lemma repush_spec skip t n : node_ok n ->
  let '(r, n') := repush skip t n in
  node_ok n' /\ calm n n' /\ popped_tx n' = popped_tx n /\ (pending_tx n' = pending_tx n \/ pending_tx n' = pending_tx n ++ [t]) /\
  forall e, r = Throw e -> e = undefined_behaviour.
Proof.
  intros Hok. unfold repush, mbind, stx_bind, getx, id. destruct (is_known_transaction _ _).
  { cbn. split_and!; [done|reflexivity|done|by left|by intros e [=]]. }
  pose proof (push_transaction_spec skip t n Hok) as H. destruct (_push_transaction skip t n) as [[[]|e] n'].
  - destruct H as (H1 & H2 & H3 & _ & H4). split_and!; [done|done|done|by right|by intros e [=]].
  - destruct H as (H1 & H2 & H3 & _ & _ & H4). destruct (is_fc_exception e); (split_and!; [done|done|done|by left|]); congruence.
Qed.

Lemma repush_all skip l : forall n, node_ok n ->
  let '(r, n') := for_eachx l (repush skip) n in
  node_ok n' /\ calm n n' /\ popped_tx n' = popped_tx n /\
  (exists k, pending_tx n' = pending_tx n ++ k /\ k `sublist_of` l) /\ forall e, r = Throw e -> e = undefined_behaviour.
Proof.
  induction l as [|t l IH]; intros n Hok; cbn [for_eachx].
  { cbn. split_and!; [done|reflexivity|done| |by intros e [=]]. exists []. by rewrite app_nil_r. }
  unfold mbind, stx_bind. pose proof (repush_spec skip t n Hok) as H. destruct (repush skip t n) as [[[]|e] n1].
  - destruct H as (Hok1 & Hc1 & Hp1 & Ht1 & _). specialize (IH n1 Hok1). destruct (for_eachx l (repush skip) n1) as [r n2].
    destruct IH as (Hok2 & Hc2 & Hp2 & (k & Hk & Hs) & Hr). split_and!; [done|by etransitivity|congruence| |done].
    destruct Ht1 as [E|E]; [exists k|exists (t :: k)]; rewrite Hk, E, <- ?app_assoc; (split; [done|]); by constructor.
  - destruct H as (Hok1 & Hc1 & Hp1 & Ht1 & Hr). split_and!; [done|done|done| |done].
    destruct Ht1 as [E|E]; [exists []|exists [t]]; (split; [by rewrite E, ?app_nil_r|]); [apply sublist_nil_l|]. apply sublist_skip, sublist_nil_l.
Qed.

Lemma restore_pending_spec skip l n : node_ok n ->
  let '(r, n') := restore_pending skip l n in
  node_ok n' /\ calm n n' /\ (forall e, r = Throw e -> e = undefined_behaviour) /\
  (r = Ok tt -> popped_tx n' = [] /\ exists k, pending_tx n' = pending_tx n ++ k /\ k `sublist_of` popped_tx n ++ l).
Proof.
  intros Hok. unfold restore_pending. unfold mbind at 1, stx_bind at 1, getx, id.
  pose proof (repush_all skip (popped_tx n) n Hok) as H. unfold mbind at 1, stx_bind at 1.
  destruct (for_eachx (popped_tx n) (repush skip) n) as [[[]|e] n1].
  2:{ destruct H as (H1 & H2 & _ & _ & Hr). split_and!; [done|done|done|by intros [=]]. }
  destruct H as (Hok1 & Hc1 & Hp1 & (k & Hk & Hs) & _). unfold mbind, stx_bind, modx.
  set (n2 := n1 <| popped_tx := [] |>). assert (Hok2 : node_ok n2) by (destruct Hok1; by split).
  assert (Hc2 : calm n n2) by (destruct Hc1; by split).
  pose proof (repush_all skip l n2 Hok2) as H. destruct (for_eachx l (repush skip) n2) as [r n3].
  destruct H as (Hok3 & Hc3 & Hp3 & (k' & Hk' & Hs') & Hr). split_and!; [done|by etransitivity|done|].
  intros _. split; [by rewrite Hp3|]. exists (k ++ k'). split; [|by apply sublist_app].
  rewrite Hk'. change (pending_tx n2) with (pending_tx n1). by rewrite Hk, app_assoc.
Qed.

(** ** Blocks *)

Lemma set_max_size_total k (f : fork_database full_block) : exists f', ForkDatabase.set_max_size k f = Ok (tt, f') /\
  heap f' = heap f /\ ForkDatabase.head f' = ForkDatabase.head f.
Proof.
  unfold ForkDatabase.set_max_size, mbind, st_bind, modify_st, get_st. cbn.
  destruct (ForkDatabase.head f) eqn:E; cbn; (eexists; split; [reflexivity|split; [reflexivity|exact E]]).
Qed.

(** With the check of the undo history the limit of the undo stack is positive. *)
Lemma start_block_limit skip b c r c' : skips skip skip_undo_history_check = false ->
  start_block skip b c = Ok (r, c') -> 1 <= r.2.
Proof.
  intros Hs H. unfold start_block in H. rewrite Hs in H.
  repeat (lazymatch type of H with (on_db (Blocks.update_global_dynamic_data _ _) ≫= _) _ = _ => fail | _ => apply st_bind_Ok in H as (? & ? & _ & H) end).
  apply st_bind_Ok in H as (u & c1 & (d & Hu & _)%TransactionFacts.on_db_Ok & [-> _]%st_ret_Ok). cbn.
  apply st_bind_Ok in Hu as (? & ? & _ & Hu). apply st_bind_Ok in Hu as (? & ? & _ & Hu).
  apply st_bind_Ok in Hu as (? & ? & _ & Hu). apply st_bind_Ok in Hu as (d1 & ? & _ & Hu).
  set (rev := u32 (head_block_num d1 - _)) in Hu. apply st_bind_Ok in Hu as (? & ? & H1 & [-> _]%st_ret_Ok).
  assert (0 <= rev) by (apply wrap_bounds; lia). destruct (rev <? BTCM_MAX_UNDO_HISTORY) eqn:E; [|done].
  unfold BTCM_MAX_UNDO_HISTORY in E. unfold u32. rewrite Z.mod_small; lia.
Qed.

(** The check of the undo history is made for the block. *)
Definition history_checked (cps : list (Z * block_id)) (skip : Z) (b : full_block) : Prop :=
  forall s, checkpoint_flags cps skip b = Ok s -> skips s skip_undo_history_check = false.

(** What blocks do not touch. *)
Record same_frame (n n' : node) : Prop := {
  sf_session : pending_session n' = pending_session n;
  sf_pending : pending_tx n' = pending_tx n;
  sf_popped : popped_tx n' = popped_tx n;
  sf_checkpoints : checkpoints n' = checkpoints n;
  sf_heap : heap (fork_db n') = heap (fork_db n);
  sf_head : ForkDatabase.head (fork_db n') = ForkDatabase.head (fork_db n)
}.
#[export] Instance same_frame_preorder : PreOrder same_frame.
Proof. split; [by split|]. intros n1 n2 n3 [] []. split; congruence. Qed.

Lemma apply_block_spec b skip n :
  let '(r, n') := apply_block b skip n in
  same_frame n n' /\ block_db n' = block_db n /\ undo_stack n' = undo_stack n /\
  (max_undo n' = max_undo n \/ exists s c c' u, checkpoint_flags (checkpoints n) skip b = Ok s /\
     start_block s b c = Ok (u, c') /\ max_undo n' = u.2) /\
  match r with
  | Ok _ => Transactions.apply_block (checkpoints n) skip b (state n) = Ok (tt, state n')
  | Throw e => Transactions.apply_block (checkpoints n) skip b (state n) = Throw e
  end.
Proof.
  unfold apply_block, Transactions.apply_block, _apply_block. unfold mbind at 1, stx_bind at 1, getx, id.
  unfold mbind at 1, stx_bind at 1, liftx. unfold mbind at 1 2, st_bind at 1 2, lift.
  destruct (checkpoint_flags (checkpoints n) skip b) as [s|e] eqn:Es; [|by split_and!; [..|left|]].
  unfold capturex, capture, mbind, stx_bind, st_bind, on_chain. cbn.
  destruct (start_block s b (state n)) as [[r c]|e] eqn:E1; cbn; [|by split_and!; [..|left|]].
  unfold on_forks. cbn. destruct (set_max_size_total r.2 (fork_db n)) as (f & Ef & Eh & Ed). rewrite Ef. cbn.
  destruct (finish_block b r.1 c) as [[[] c']|e] eqn:E2; cbn; (split_and!; [by split|done|done| |done]); right; by exists s, (state n), c, r.
Qed.

Lemma commit_block_spec skip b n :
  let '(r, n') := commit_block skip b n in
  same_frame n n' /\
  (max_undo n' = max_undo n \/ exists s c c' u, checkpoint_flags (checkpoints n) skip b = Ok s /\
     start_block s b c = Ok (u, c') /\ max_undo n' = u.2) /\
  match r with
  | Ok _ => Transactions.apply_block (checkpoints n) skip b (state n) = Ok (tt, state n') /\
      undo_stack n' = state n :: take (Z.to_nat (max_undo n)) (undo_stack n) /\
      block_db n' = BlockDatabase.store (block_id_of b) b (block_db n)
  | Throw e => Transactions.apply_block (checkpoints n) skip b (state n) = Throw e /\ state n' = state n /\
      undo_stack n' = take (Z.to_nat (max_undo n)) (undo_stack n) /\ block_db n' = block_db n
  end.
Proof.
  unfold commit_block, in_session, start_undo_session, modx. cbn [snd].
  set (n1 := n <| undo_stack := state n :: take (Z.to_nat (max_undo n)) (undo_stack n) |>).
  pose proof (apply_block_spec b skip n1) as H. unfold mbind, stx_bind. destruct (apply_block b skip n1) as [[[]|e] n2]; cbn.
  - destruct H as ([] & Hb & Hu & Hm & Hr). split_and!; [by split|exact Hm|exact Hr|exact Hu|]. by rewrite Hb.
  - destruct H as ([] & Hb & Hu & Hm & Hr). unfold restore. rewrite Hu. cbn. split_and!; [by split|exact Hm|done..].
Qed.

Lemma commit_limit skip b n r n' : commit_block skip b n = (r, n') -> history_checked (checkpoints n) skip b ->
  1 <= max_undo n -> 1 <= max_undo n'.
Proof.
  intros E Hh Hm. pose proof (commit_block_spec skip b n) as H. rewrite E in H.
  destruct H as (_ & [->|(s & c & c' & u & Hs & Hu & ->)] & _); [done|]. eapply start_block_limit; [by apply Hh|done].
Qed.

(** ** Pushing a block *)

(** The node without what is pending. *)
Definition cleared (n : node) : node :=
  n <| state := base n |> <| undo_stack := history n |> <| pending_session := false |> <| pending_tx := [] |>.
Lemma clear_pending_spec n : node_ok n -> clear_pending (n <| pending_tx := [] |>) = (Ok tt, cleared n).
Proof.
  intros [Hst Hno Hre Hli]. unfold clear_pending, reset_pending_session, restore, mbind, stx_bind, modx, cleared, base, history.
  cbn. destruct n as [c u m p tx po f bl cp]; cbn in *. destruct p; [|by rewrite Hno].
  destruct u as [|c' l]; [by destruct (Hst eq_refl)|]. done.
Qed.
Lemma cleared_ok n : node_ok n -> node_ok (cleared n) /\ base (cleared n) = base n /\ history (cleared n) = history n.
Proof. intros [Hst Hno Hre Hli]. split; [|done]. split; cbn; try done. apply replays_none. Qed.

(** What happens in between, then the transactions come back. *)
Lemma without_pending_spec {X} skip (m : stx node X) n r n' :
  node_ok n -> without_pending_transactions skip m n = (r, n') -> r <> Throw undefined_behaviour ->
  exists r1 n1, m (cleared n) = (r1, n1) /\
    (node_ok n1 -> r1 = r /\ node_ok n' /\ calm n1 n' /\ popped_tx n' = [] /\
       exists k, pending_tx n' = pending_tx n1 ++ k /\ k `sublist_of` popped_tx n1 ++ pending_tx n).
Proof.
  intros Hok H Hr. unfold without_pending_transactions in H. rewrite (clear_pending_spec n Hok) in H.
  destruct (m (cleared n)) as [r1 n1] eqn:Em. exists r1, n1. split; [done|]. intros Hok1.
  pose proof (restore_pending_spec skip (pending_tx n) n1 Hok1) as Hs.
  destruct (restore_pending skip (pending_tx n) n1) as [[[]|e] n2] eqn:Er; injection H as <- <-.
  - destruct Hs as (H1 & H2 & _ & H3). destruct (H3 eq_refl). done.
  - destruct Hs as (_ & _ & He & _). by rewrite (He e eq_refl) in Hr.
Qed.

(** The block goes on top of the head: it is pushed without the fork database, or
    what the fork database has as its head then does. *)
Definition extends_head (skip : Z) (b : full_block) (n : node) : Prop :=
  skips skip skip_fork_db = true \/
  exists p f nh, ForkDatabase.push_block b (fork_db n) = Ok (Some p, f) /\ data <$> heap f !! p = Some nh /\
    previous nh = chain_head (base n).

Lemma direct_spec skip b n :
  let '(r, n') := push_direct skip b n in
  match r with
  | Ok _ => commit_block skip b n = (Ok tt, n')
  | Throw e => exists n1, commit_block skip b n = (Throw e, n1) /\
      n' = if is_fc_exception e then n1 <| fork_db ::= fun f => f <| index ::= List.filter (fun p => negb (bool_decide (ForkDatabase.id_at (heap f) p = block_id_of b))) |> |> else n1
  end.
Proof.
  unfold push_direct. destruct (commit_block skip b n) as [[[]|e] n1]; [done|]. destruct (is_fc_exception e) eqn:E; cbn.
  - eexists. split; [reflexivity|]. by rewrite E.
  - exists n1. by rewrite E.
Qed.

Lemma push_extends skip b n : extends_head skip b n -> pending_session n = false ->
  exists f, _push_block skip b n = (_ ← push_direct skip b; mret false) (n <| fork_db := f |>) /\
    (skips skip skip_fork_db = true -> f = fork_db n).
Proof.
  intros He Hp. unfold _push_block. destruct (skips skip skip_fork_db) eqn:Es.
  { exists (fork_db n). split; [|done]. by destruct n. }
  destruct He as [|(p & f & nh & Hpush & Hnh & Hprev)]; [congruence|]. exists f. split; [|done].
  unfold mbind at 1, stx_bind at 1, on_forks. rewrite Hpush. unfold mbind at 1, stx_bind at 1, getx, id.
  unfold mbind at 1, stx_bind at 1, liftx. cbn [of_option]. unfold mbind at 1, stx_bind at 1, item_block. cbn [fork_db].
  replace (data <$> heap (fork_db (n <| fork_db := f |>)) !! p) with (Some nh) by (symmetry; exact Hnh). cbn [of_option].
  rewrite bool_decide_true; [done|]. rewrite Hprev. unfold base. by rewrite Hp.
Qed.


Lemma commit_ok skip b n r n' : commit_block skip b n = (r, n') -> history_checked (checkpoints n) skip b ->
  node_ok n -> pending_session n = false ->
  node_ok n' /\ pending_session n' = false /\ pending_tx n' = [] /\ popped_tx n' = popped_tx n.
Proof.
  intros E Hh Hok Hp. pose proof (commit_limit _ _ _ _ _ E Hh (ok_limit _ Hok)) as Hl.
  pose proof (commit_block_spec skip b n) as H. rewrite E in H. destruct H as ([] & _ & _).
  pose proof (ok_none _ Hok Hp) as Ht. split_and!; [|congruence..]. split; try congruence.
  rewrite sf_pending0, Ht. unfold base. rewrite sf_session0, Hp. apply replays_none.
Qed.


(** ** Switching forks *)

(** What popping and pushing blocks leave alone. *)
Record same_shell (n n' : node) : Prop := {
  ss_session : pending_session n' = pending_session n;
  ss_pending : pending_tx n' = pending_tx n;
  ss_checkpoints : checkpoints n' = checkpoints n;
  ss_heap : heap (fork_db n') = heap (fork_db n)
}.
#[export] Instance same_shell_preorder : PreOrder same_shell.
Proof. split; [by split|]. intros n1 n2 n3 [] []. split; congruence. Qed.
Lemma frame_shell n n' : same_frame n n' -> same_shell n n'.
Proof. intros []. by split. Qed.

Lemma fork_pop_heap (f f' : fork_database full_block) u : ForkDatabase.pop_block f = Ok (u, f') -> heap f' = heap f.
Proof.
  intros (s1 & s2 & [= <- <-] & H)%st_bind_Ok. apply st_bind_Ok in H as (p & s2 & [_ ->]%lift_Ok & H).
  apply st_bind_Ok in H as (i & s2 & (h & s3 & [_ ->]%gets_Ok & [_ ->]%lift_Ok)%st_bind_Ok & H).
  apply st_bind_Ok in H as (q & s2 & [_ ->]%lift_Ok & ->%modify_st_Ok). done.
Qed.

Lemma pop_block_spec n u n' : pending_session n = false -> pop_block n = (Ok u, n') ->
  same_shell n n' /\ exists l, undo_stack n = state n' :: undo_stack n' /\ popped_tx n' = l ++ popped_tx n.
Proof.
  intros Hp H. unfold pop_block, capturex, reset_pending_session, mbind, stx_bind, modx, getx, id, liftx, on_forks, pop_undo, assertx in H.
  cbn in H. rewrite Hp in H. cbn in H. destruct (fetch_block_by_id n (head_block_id n)) as [hb|]; cbn in H; [|done].
  destruct (ForkDatabase.pop_block (fork_db n)) as [[[] f]|e] eqn:Ef; cbn in H; [|done].
  unfold mbind, stx_bind in H. cbn in H. rewrite Hp in H. cbn in H. unfold restore in H. cbn in H.
  destruct (undo_stack n) as [|c l] eqn:Eu; cbn in H; [done|]. rewrite Eu in H. injection H as <- <-. apply fork_pop_heap in Ef.
  split; [by split|]. by exists (block_transactions hb).
Qed.

(** Popping goes back to the latest state whose head is [id]. *)
Lemma pop_until_spec fuel id : forall n u n', pending_session n = false -> pop_until fuel id n = (Ok u, n') ->
  same_shell n n' /\ exists later, state n :: undo_stack n = later ++ state n' :: undo_stack n' /\
    head_block_id n' = id /\ Forall (fun c => chain_head c <> id) later.
Proof.
  induction fuel as [|fuel IH]; intros n u n' Hp H; cbn [pop_until] in H; unfold mbind at 1, stx_bind at 1, getx in H.
  - case_bool_decide as Eh; [injection H as <- <-; split; [reflexivity|by exists []]|].
    unfold mbind, stx_bind, throwx in H. by destruct (pop_block n) as [[|] ?].
  - case_bool_decide as Eh; [injection H as <- <-; split; [reflexivity|by exists []]|].
    unfold mbind, stx_bind in H. destruct (pop_block n) as [[[]|e] n1] eqn:E1; [|done].
    destruct (pop_block_spec _ _ _ Hp E1) as (Hs1 & l & Hu & _). destruct (IH n1 u n') as (Hs & later & Hl & Hh & Hn); [|exact H|].
    { by rewrite (ss_session _ _ Hs1). }
    split; [by etransitivity|]. exists (state n :: later). split; [|by split; [|constructor]]. by rewrite Hu, Hl.
Qed.
Lemma pop_to_spec id n u n' : pending_session n = false -> pop_to id n = (Ok u, n') ->
  same_shell n n' /\ exists later, state n :: undo_stack n = later ++ state n' :: undo_stack n' /\
    head_block_id n' = id /\ Forall (fun c => chain_head c <> id) later.
Proof. apply pop_until_spec. Qed.

(** The blocks of a branch, and their application one after the other. *)
Definition branch_blocks (h : list (fork_item full_block)) (l : list nat) : option (list full_block) := mapM (fun p => data <$> h !! p) l.
Definition apply_all (cps : list (Z * block_id)) (skip : Z) (l : list full_block) : st chain unit :=
  for_each l (Transactions.apply_block cps skip).

Lemma commit_item_spec skip p n u n' : commit_item skip p n = (Ok u, n') ->
  same_shell n n' /\ exists b, data <$> heap (fork_db n) !! p = Some b /\
    Transactions.apply_block (checkpoints n) skip b (state n) = Ok (tt, state n').
Proof.
  intros H. unfold commit_item, mbind, stx_bind, getx, liftx, id, item_block in H.
  destruct (data <$> heap (fork_db n) !! p) as [b|]; cbn in H; [|done]. pose proof (commit_block_spec skip b n) as Hc. rewrite H in Hc.
  destruct Hc as (Hf & _ & Ha & _). split; [by apply frame_shell|]. by exists b.
Qed.

Lemma commit_items skip l : forall n u n', for_eachx l (commit_item skip) n = (Ok u, n') ->
  same_shell n n' /\ exists bs, branch_blocks (heap (fork_db n)) l = Some bs /\ apply_all (checkpoints n) skip bs (state n) = Ok (tt, state n').
Proof.
  induction l as [|p l IH]; intros n u n' H; cbn [for_eachx] in H.
  { injection H as <- <-. split; [reflexivity|]. by exists []. }
  unfold mbind, stx_bind in H. destruct (commit_item skip p n) as [[[]|e] n1] eqn:E1; [|done].
  destruct (commit_item_spec _ _ _ _ _ E1) as (Hs1 & b & Hb & Ha). destruct (IH _ _ _ H) as (Hs & bs & Hbs & Hall).
  split; [by etransitivity|]. exists (b :: bs). rewrite (ss_heap _ _ Hs1) in Hbs. rewrite (ss_checkpoints _ _ Hs1) in Hall.
  split; [unfold branch_blocks; cbn; unfold branch_blocks in Hbs; by rewrite Hb; cbn; rewrite Hbs|].
  unfold apply_all. cbn. unfold mbind, st_bind. by rewrite Ha.
Qed.

Lemma push_branch_Ok skip l good base : forall n u n', push_branch skip l good base n = (Ok u, n') -> for_eachx l (commit_item skip) n = (Ok u, n').
Proof.
  induction l as [|p l IH]; intros n u n' H; cbn [push_branch] in H; [done|]. cbn [for_eachx]. unfold mbind at 1, stx_bind at 1.
  destruct (commit_item skip p n) as [[[]|e] n1]; [by apply IH|]. destruct (is_fc_exception e); [|done].
  unfold mbind, stx_bind in H. by destruct (switch_back _ _ _ _ _) as [[|] ?].
Qed.

Lemma applied_head cps skip b c c' : Transactions.apply_block cps skip b c = Ok (tt, c') ->
  previous b = chain_head c /\ chain_head c' = block_id_of b.
Proof. intros (s & c1 & [_ ->]%lift_Ok & H)%st_bind_Ok. by eapply TransactionFacts.block_head. Qed.

(** The states of pushed blocks come on top of the stack; their heads have greater numbers. *)
Lemma commit_items_stack skip l : forall n u n' m, for_eachx l (commit_item skip) n = (Ok u, n') ->
  id_num (chain_head (state n)) = m -> 0 <= m -> m + Z.of_nat (length l) < 2 ^ 32 ->
  exists mid, (state n' :: undo_stack n') `prefix_of` mid ++ state n :: undo_stack n /\ Forall (fun c => m < id_num (chain_head c)) mid.
Proof.
  induction l as [|p l IH]; intros n u n' m H Hm H0 Hlen; cbn [for_eachx length] in *.
  { injection H as <- <-. by exists []. }
  unfold mbind, stx_bind in H. destruct (commit_item skip p n) as [[[]|e] n1] eqn:E1; [|done].
  unfold commit_item, mbind, stx_bind, getx, liftx, id in E1. destruct (item_block n p) as [b|]; cbn in E1; [|done].
  pose proof (commit_block_spec skip b n) as Hc. rewrite E1 in Hc. destruct Hc as (_ & _ & Ha & Hu & _).
  apply applied_head in Ha as [Hprev Hhead].
  assert (E : id_num (chain_head (state n1)) = m + 1).
  { rewrite Hhead. unfold block_id_of, block_num, num_from_id. cbn [id_num]. rewrite Hprev, Hm. apply wrap_small. lia. }
  destruct (IH n1 u n' (m + 1) H E) as (mid & Hpre & Hmid); [lia|lia|]. exists (mid ++ [state n1]). split.
  - etransitivity; [exact Hpre|]. rewrite Hu, <- app_assoc. cbn. apply prefix_app, prefix_cons, prefix_cons, take_prefix.
  - apply Forall_app. split; [|constructor; [lia|constructor]]. eapply Forall_impl; [exact Hmid|]. cbn. intros. lia.
Qed.

Lemma first_with {X} (P : X -> Prop) (later mid rest l : list X) s c :
  (later ++ s :: rest) `prefix_of` mid ++ c :: l -> P s -> P c -> Forall (fun x => ~ P x) later -> Forall (fun x => ~ P x) mid -> s = c.
Proof.
  revert mid. induction later as [|x later IH]; intros [|y mid] Hp Hs Hc Hl Hm; cbn in Hp.
  - by apply prefix_cons_inv_1 in Hp.
  - apply prefix_cons_inv_1 in Hp as ->. by apply Forall_cons in Hm as [Hm _].
  - apply prefix_cons_inv_1 in Hp as ->. by apply Forall_cons in Hl as [Hl _].
  - apply prefix_cons_inv_2 in Hp. apply Forall_cons in Hl as [_ Hl]. apply Forall_cons in Hm as [_ Hm]. by apply (IH mid).
Qed.

Lemma remove_forks bad : forall n, exists n', for_eachx bad (fun p => modx (fun n => n <| fork_db ::= fun f => match ForkDatabase.remove (ForkDatabase.id_at (heap f) p) f with Ok (_, f) => f | Throw _ => f end |>)) n = (Ok tt, n') /\
  same_shell n n' /\ state n' = state n /\ undo_stack n' = undo_stack n.
Proof.
  induction bad as [|p bad IH]; intros n; [exists n; by split_and!|]. cbn [for_eachx]. unfold mbind, stx_bind, modx at 1. cbn.
  match goal with |- exists n', for_eachx _ _ ?x = _ /\ _ => destruct (IH x) as (n' & E & [] & Hs & Hu) end.
  exists n'. split; [exact E|]. split_and!; [by split|done..].
Qed.

Lemma switch_back_spec skip bad good base n u n' : pending_session n = false -> switch_back skip bad good base n = (Ok u, n') ->
  exists later c earlier bs, state n :: undo_stack n = later ++ c :: earlier /\ chain_head c = base /\
    Forall (fun c => chain_head c <> base) later /\ branch_blocks (heap (fork_db n)) (rev good) = Some bs /\
    apply_all (checkpoints n) skip bs c = Ok (tt, state n').
Proof.
  intros Hp H. unfold switch_back in H. unfold mbind at 1, stx_bind at 1 in H.
  destruct (remove_forks bad n) as (n1 & E1 & [Es1 Et1 Ec1 Eh1] & Est1 & Eu1). rewrite E1 in H.
  destruct good as [|g good]; [by unfold mbind, stx_bind, liftx in H|].
  unfold mbind at 1, stx_bind at 1, liftx in H. unfold mbind at 1, stx_bind at 1, on_forks, ForkDatabase.set_head, modify_st in H.
  cbn [fst snd] in H. set (n2 := n1 <| fork_db := _ |>) in H. unfold mbind at 1, stx_bind at 1 in H.
  destruct (pop_to base n2) as [[[]|e] n3] eqn:Ep; [|done].
  destruct (pop_to_spec base n2 tt n3) as ([Es3 Et3 Ec3 Eh3] & later & Hl & Hh & Hn); [by unfold n2; cbn; rewrite Es1|done|].
  destruct (commit_items _ _ _ _ _ H) as (_ & bs & Hbs & Ha). exists later, (state n3), (undo_stack n3), bs.
  unfold n2 in Hl. cbn in Hl. rewrite Est1, Eu1 in Hl. split_and!; [done|done|done| |].
  - rewrite Eh3 in Hbs. unfold n2 in Hbs. cbn in Hbs. by rewrite Eh1 in Hbs.
  - rewrite Ec3 in Ha. unfold n2 in Ha. cbn in Ha. by rewrite Ec1 in Ha.
Qed.

Lemma push_branch_fails skip done_ p rest good base n n2 e n3 : for_eachx done_ (commit_item skip) n = (Ok tt, n2) ->
  commit_item skip p n2 = (Throw e, n3) -> is_fc_exception e = true ->
  push_branch skip (done_ ++ p :: rest) good base n = (_ ← switch_back skip (p :: rest) good base; throwx e) n3.
Proof.
  revert n. induction done_ as [|q l IH]; intros n H Hp He; cbn [app push_branch for_eachx] in *.
  { injection H as ->. by rewrite Hp, He. }
  unfold mbind, stx_bind in H. destruct (commit_item skip q n) as [[[]|e1] n1]; [|done]. by apply IH.
Qed.

Lemma failed_item skip p n e n' : commit_item skip p n = (Throw e, n') ->
  same_shell n n' /\ state n' = state n /\ undo_stack n' `prefix_of` undo_stack n.
Proof.
  intros H. unfold commit_item, mbind, stx_bind, getx, liftx, id in H.
  destruct (item_block n p) as [b|]; cbn in H; [|injection H as <- <-; by split_and!].
  pose proof (commit_block_spec skip b n) as Hc. rewrite H in Hc. destruct Hc as (Hf & _ & _ & Hs & Hu & _).
  split_and!; [by apply frame_shell|done|]. rewrite Hu. apply take_prefix.
Qed.

(** C8 A switch of forks goes back to the latest state from which the branches part,
    whatever lies between, and when it succeeds the chain is that state with the blocks
    of the new branch applied.  When a block of the new branch fails and the way back
    is completed, the chain is the same state with the blocks of the old branch
    applied: where these gave the state before, it is there again. *)
Theorem fork_switch_exact skip new_head n new_branch old_branch base :
  pending_session n = false ->
  fetch_branches n new_head (head_block_id n) = Ok (new_branch, old_branch) ->
  ForkDatabase.data_previous (fork_db n) <$> last old_branch = Some base ->
  0 <= id_num base -> id_num base + Z.of_nat (length new_branch) < 2 ^ 32 ->
  (forall n', switch_forks skip new_head n = (Ok tt, n') ->
     exists later c earlier bs, state n :: undo_stack n = later ++ c :: earlier /\ chain_head c = base /\
       Forall (fun c => chain_head c <> base) later /\ branch_blocks (heap (fork_db n)) (rev new_branch) = Some bs /\
       apply_all (checkpoints n) skip bs c = Ok (tt, state n')) /\
  (forall n1 done_ p rest n2 e n3 n4,
     pop_to base n = (Ok tt, n1) -> rev new_branch = done_ ++ p :: rest ->
     for_eachx done_ (commit_item skip) n1 = (Ok tt, n2) -> commit_item skip p n2 = (Throw e, n3) -> is_fc_exception e = true ->
     switch_back skip (p :: rest) old_branch base n3 = (Ok tt, n4) ->
     switch_forks skip new_head n = (Throw e, n4) /\
     exists later c earlier bs, state n :: undo_stack n = later ++ c :: earlier /\ chain_head c = base /\
       branch_blocks (heap (fork_db n)) (rev old_branch) = Some bs /\
       apply_all (checkpoints n) skip bs c = Ok (tt, state n4) /\
       (apply_all (checkpoints n) skip bs c = Ok (tt, state n) -> state n4 = state n)).
Proof.
  intros Hp Hb Hbase H0 Hlen.
  assert (Hrun : switch_forks skip new_head n = (_ ← pop_to base; push_branch skip (rev new_branch) old_branch base) n).
  { unfold switch_forks, mbind, stx_bind, getx, liftx, id. rewrite Hb. cbn [fst snd]. by rewrite Hbase. }
  rewrite Hrun. clear Hrun Hb Hbase. split.
  - intros n' H. unfold mbind, stx_bind in H. destruct (pop_to base n) as [[[]|e] n1] eqn:Ep; [|done].
    destruct (pop_to_spec base n tt n1 Hp Ep) as ([Es Et Ec Eh] & later & Hl & Hh & Hn).
    apply push_branch_Ok in H. destruct (commit_items _ _ _ _ _ H) as (_ & bs & Hbs & Ha).
    rewrite Eh in Hbs. rewrite Ec in Ha. by exists later, (state n1), (undo_stack n1), bs.
  - intros n1 done_ p rest n2 e n3 n4 Ep Er Hd Hf He Hback. split.
    { unfold mbind at 1, stx_bind at 1. rewrite Ep, Er. rewrite (push_branch_fails _ _ _ _ _ _ _ _ _ _ Hd Hf He).
      unfold mbind, stx_bind. by rewrite Hback. }
    destruct (pop_to_spec base n tt n1 Hp Ep) as ([Es Et Ec Eh] & later & Hl & Hh & Hn).
    destruct (commit_items _ _ _ _ _ Hd) as ([Es2 Et2 Ec2 Eh2] & _ & _ & _).
    destruct (failed_item _ _ _ _ _ Hf) as ([Es3 Et3 Ec3 Eh3] & Hs3 & Hu3).
    destruct (switch_back_spec skip (p :: rest) old_branch base n3 tt n4) as (later' & c & earlier' & bs & Hl' & Hc & Hn' & Hbs & Ha); [congruence|done|].
    assert (length done_ + S (length rest) = length new_branch)%nat as Hlen' by (rewrite <- (length_rev new_branch), Er, length_app; done).
    unfold head_block_id in Hh.
    destruct (commit_items_stack skip done_ n1 tt n2 (id_num base) Hd) as (mid & Hpre & Hmid); [by rewrite Hh|done|lia|].
    assert (E : c = state n1).
    { apply (first_with (fun c => chain_head c = base) later' mid earlier' (undo_stack n1)); [|done..|].
      - rewrite <- Hl', Hs3. etransitivity; [|exact Hpre]. by apply prefix_cons.
      - eapply Forall_impl; [exact Hmid|]. cbn. intros x Hx E. rewrite E in Hx. lia. }
    subst c. exists later, (state n1), (undo_stack n1), bs. rewrite Eh3, Eh2, Eh in Hbs. rewrite Ec3, Ec2, Ec in Ha.
    split_and!; [done|done|done|done|]. congruence.
Qed.
End Facts.

(** ** A node with two forks *)

#[local] Existing Instance boost_reference.
#[local] Existing Instance TransactionFacts.any_text.
#[local] Existing Instance TransactionFacts.own_address.
#[local] Existing Instance TransactionFacts.some_wire.
(** Blocks are read from the fork database only. *)
#[local] Instance no_pack : Packed full_block := {| pack_to_vector b := []; unpack_from_vector l := Throw std_exception |}.

Definition light : Z := foldl Z.lxor skip_checkpointed [skip_transaction_dupe_check; skip_fork_db; skip_undo_history_check].
Definition blk (prev : block_id) (dt d : Z) (l : list signed_transaction) : full_block := TransactionFacts.block prev (BTCM_GENESIS_TIME + dt) d l.
Definition block_a : full_block := blk (BlockId 1000 9) 3 10 [TransactionFacts.pay (BTCM_GENESIS_TIME + 60)].
Definition block_b : full_block := blk (BlockId 1000 9) 3 20 [].
Definition block_b2 : full_block := blk (BlockId 1001 20) 6 21 [].
(** Its time is not after that of its parent. *)
Definition block_bad : full_block := blk (BlockId 1001 20) 2 22 [].

Definition forks_at_start : fork_database full_block :=
  match ForkDatabase.start_block (blk (BlockId 999 0) 0 9 []) ForkDatabase.empty with Ok (_, f) => f | Throw _ => ForkDatabase.empty end.
Definition at_start : node := Node TransactionFacts.start [] 10 false [] [] forks_at_start BlockDatabase.empty [].
Definition with_a : node := snd (push_block light block_a at_start).
Definition with_fork : node := snd (push_block light block_b with_a).
Definition switched : node := snd (push_block light block_b2 with_fork).

Lemma ran {X} (m : stx node X) n x : fst (m n) = Ok x -> m n = (Ok x, snd (m n)).
Proof. by destruct (m n) as [[|] ?]; intros [= ->]. Qed.
Lemma at_start_ok : node_ok at_start.
Proof. split; try done. apply replays_none. Qed.


(** The node when it finds that the other branch is longer. *)
Definition at_switch (b : full_block) : node := snd (on_forks (ForkDatabase.push_block b) (cleared with_fork)).

Lemma fork_switch_exact_witness :
  exists n', switch_forks light (block_id_of block_b2) (at_switch block_b2) = (Ok tt, n') /\ head_block_id n' = BlockId 1002 21 /\
    exists later c earlier bs, state (at_switch block_b2) :: undo_stack (at_switch block_b2) = later ++ c :: earlier /\
      chain_head c = BlockId 1000 9 /\ apply_all [] light bs c = Ok (tt, state n').
Proof.
  assert (H1 : pending_session (at_switch block_b2) = false) by (vm_compute; reflexivity).
  assert (H2 : fetch_branches (at_switch block_b2) (block_id_of block_b2) (head_block_id (at_switch block_b2)) = Ok ([3; 2]%nat, [1]%nat))
    by (vm_compute; reflexivity).
  assert (H3 : ForkDatabase.data_previous (fork_db (at_switch block_b2)) <$> last [1%nat] = Some (BlockId 1000 9)) by (vm_compute; reflexivity).
  destruct (fork_switch_exact light (block_id_of block_b2) (at_switch block_b2) _ _ _ H1 H2 H3 ltac:(done) ltac:(done)) as [H _].
  assert (E0 : fst (switch_forks light (block_id_of block_b2) (at_switch block_b2)) = Ok tt) by (vm_compute; reflexivity).
  pose proof (ran _ _ _ E0) as E. exists (snd (switch_forks light (block_id_of block_b2) (at_switch block_b2))). split; [exact E|].
  split; [vm_compute; reflexivity|]. destruct (H _ E) as (later & c & earlier & bs & Hl & Hc & _ & _ & Ha). exists later, c, earlier, bs.
  split; [exact Hl|]. split; [exact Hc|exact Ha].
Defined.

(** A failed switch: the old branch is back. *)
Lemma switch_and_back : let (r, n) := push_block light block_bad with_fork in
  r = Throw assert_exception /\ head_block_id n = BlockId 1001 10.
Proof. vm_compute. split; reflexivity. Qed.

(** After a switch the fork database keeps as its head the block to which popping the
    old branch has moved it, below the head of the chain; popping the blocks again
    then fails while there are states to go back to. *)
Lemma fork_head_lags :
  head_block_id switched = BlockId 1002 21 /\
  ForkDatabase.id_at (heap (fork_db switched)) <$> ForkDatabase.head (fork_db switched) = Some (BlockId 1001 20) /\
  let (r, n) := pop_block switched in
  r = Ok tt /\ length (undo_stack n) = 1%nat /\ fst (pop_block n) = Throw assert_exception.
Proof. vm_compute. repeat split. Qed.

(** A block that fails on top of the head is removed from the index of the fork
    database but remains its head.  A block of another branch, which would have been
    kept, is then applied on top of the head, fails and is removed, and its successors
    do not link. *)
Lemma failed_block_shadows_forks :
  let failed := snd (push_block light (blk (BlockId 1001 10) 2 30 []) with_a) in
  head_block_id failed = BlockId 1001 10 /\
  fst (push_block light block_b with_a) = Ok false /\ fst (push_block light block_b failed) = Throw assert_exception /\
  fst (push_block light block_b2 (snd (push_block light block_b with_a))) = Ok true /\
  fst (push_block light block_b2 (snd (push_block light block_b failed))) = Throw unlinkable_block_exception.
Proof. vm_compute. repeat split. Qed.
End NodeFacts.
