(* ===== verification/Secondary.v ===== *)
(** * Secondary indexes

    Models [secondary_index] and [primary_index] of db/index.hpp, with the indexes of
    the chain that list accounts by the keys and accounts that have authority over them
    (base_objects.cpp) and contents by genre and category (btcm_objects.cpp).  A
    [std::set] of integers is a sorted list where the code walks two of them together,
    a [gset] elsewhere. *)

From S2P Require Import Prelude.
From S2P Require Import UndoDatabase.
From S2P Require Import Authority.
From S2P Require Import State.

(** ** The interface *)

(** [class secondary_index]: what [primary_index] calls with an object and its id. *)
Class secondary_index (V I : Type) := {
  object_inserted : Z -> V -> I -> I;
  object_removed : Z -> V -> I -> I;
  about_to_modify : Z -> V -> I -> result I;
  object_modified : Z -> V -> I -> result I
}.

(** [map[ k ].insert( x )] and [map[ k ].erase( x )] *)
Definition list_under {K X} `{Countable K} `{Countable X} (x : X) (m : gmap K (gset X)) (k : K) : gmap K (gset X) :=
  <[k := {[x]} ∪ default ∅ (m !! k)]> m.
Definition unlist_under {K X} `{Countable K} `{Countable X} (x : X) (m : gmap K (gset X)) (k : K) : gmap K (gset X) :=
  <[k := default ∅ (m !! k) ∖ {[x]}]> m.

(** ** [account_member_index] *)

Module AccountMembers.

Record t := Make {
  account_to_account_memberships : gmap string (gset string);
  account_to_key_memberships : gmap public_key (gset string);
  before_account_members : gset string;
  before_key_members : gset public_key
}.
#[export] Instance eta : Settable t := fun r =>
  Make (account_to_account_memberships r) (account_to_key_memberships r) (before_account_members r) (before_key_members r).
Definition empty : t := Make ∅ ∅ ∅ ∅.

Definition insert_firsts {K} `{Countable K} (auths : list (K * Z)) (r : gset K) : gset K :=
  foldl (fun r auth => {[auth.1]} ∪ r) r auths.
Definition get_account_members (a : Account.t) : gset string :=
  insert_firsts (account_auths (Account.basic a))
    (insert_firsts (account_auths (Account.active a)) (insert_firsts (account_auths (Account.owner a)) ∅)).
Definition get_key_members (a : Account.t) : gset public_key :=
  {[Account.memo_key a]} ∪ insert_firsts (key_auths (Account.basic a))
    (insert_firsts (key_auths (Account.active a)) (insert_firsts (key_auths (Account.owner a)) ∅)).

#[export] Instance account_member_index : secondary_index Account.t t := {|
  object_inserted _ a i :=
    i <| account_to_account_memberships ::= fun m => foldl (list_under (Account.name a)) m (elements (get_account_members a)) |>
      <| account_to_key_memberships ::= fun m => foldl (list_under (Account.name a)) m (elements (get_key_members a)) |>;
  object_removed _ a i :=
    i <| account_to_key_memberships ::= fun m => foldl (unlist_under (Account.name a)) m (elements (get_key_members a)) |>
      <| account_to_account_memberships ::= fun m => foldl (unlist_under (Account.name a)) m (elements (get_account_members a)) |>;
  about_to_modify _ a i :=
    Ok (i <| before_key_members := get_key_members a |> <| before_account_members := get_account_members a |>);
  object_modified _ a i :=
    let after_account_members := get_account_members a in
    let after_key_members := get_key_members a in
    Ok (i <| account_to_account_memberships ::= fun m =>
               foldl (list_under (Account.name a))
                 (foldl (unlist_under (Account.name a)) m (elements (before_account_members i ∖ after_account_members)))
                 (elements (after_account_members ∖ before_account_members i)) |>
          <| account_to_key_memberships ::= fun m =>
               foldl (list_under (Account.name a))
                 (foldl (unlist_under (Account.name a)) m (elements (before_key_members i ∖ after_key_members)))
                 (elements (after_key_members ∖ before_key_members i)) |>)
|}.
End AccountMembers.
#[export] Existing Instances AccountMembers.eta AccountMembers.account_member_index.

(** ** [content_by_genre_index] *)

Module ContentByGenre.

Record t := Make { in_progress : gmap Z (list Z); content_by_genre : gmap Z (gset Z) }.
#[export] Instance eta : Settable t := fun r => Make (in_progress r) (content_by_genre r).
Definition empty : t := Make ∅ ∅.

Definition insert_opt (o : option Z) (s : list Z) : list Z :=
  match o with Some x => Flat.insert Z.ltb x s | None => s end.
Definition get_genres (c : Content.t) : list Z :=
  let result := Flat.insert Z.ltb (AlbumMeta.genre_1 (Content.album_meta c)) [] in
  let result := insert_opt (AlbumMeta.genre_2 (Content.album_meta c)) result in
  let result := Flat.insert Z.ltb (TrackMeta.genre_1 (Content.track_meta c)) result in
  insert_opt (TrackMeta.genre_2 (Content.track_meta c)) result.

(** [while( right != s2.end() && *right < left ) right++;] *)
Fixpoint skip_below (l : Z) (right : list Z) : list Z :=
  match right with
  | r :: right' => if r <? l then skip_below l right' else right
  | [] => []
  end.
Fixpoint intersect_loop (s1 right result : list Z) : list Z :=
  match s1 with
  | [] => result
  | l :: s1 =>
      match skip_below l right with
      | [] => result
      | r :: rest => intersect_loop s1 (r :: rest) (if l =? r then Flat.insert Z.ltb l result else result)
      end
  end.
Definition intersect (s1 s2 : list Z) : list Z := intersect_loop s1 s2 [].
Fixpoint subtract_loop (s1 right result : list Z) : list Z :=
  match s1 with
  | [] => result
  | l :: s1 =>
      let right := skip_below l right in
      let absent := match right with [] => true | r :: _ => l <? r end in
      subtract_loop s1 right (if absent then Flat.insert Z.ltb l result else result)
  end.
Definition subtract (s1 s2 : list Z) : list Z := subtract_loop s1 s2 [].

Definition add_content (genres : list Z) (id : Z) (i : t) : t :=
  i <| content_by_genre ::= fun m => foldl (list_under id) m genres |>.
Definition remove_from_genre (id : Z) (m : gmap Z (gset Z)) (genre : Z) : gmap Z (gset Z) :=
  match m !! genre with Some s => <[genre := s ∖ {[id]}]> m | None => m end.
Definition remove_content (genres : list Z) (id : Z) (i : t) : t :=
  i <| content_by_genre ::= fun m => foldl (remove_from_genre id) m genres |>.
Definition find_by_genre (genre : Z) (i : t) : gset Z := default ∅ (content_by_genre i !! genre).

#[export] Instance content_by_genre_index : secondary_index Content.t t := {|
  object_inserted id c i := add_content (get_genres c) id i;
  object_removed id c i := remove_content (get_genres c) id i;
  about_to_modify id c i :=
    _ ← fc_assert (bool_decide (in_progress i !! id = None));
    Ok (i <| in_progress ::= <[id := get_genres c]> |>);
  object_modified id c i :=
    prev_genres ← of_option assert_exception (in_progress i !! id);
    let new_genres := get_genres c in
    let common := intersect prev_genres new_genres in
    let i := remove_content (subtract prev_genres common) id i in
    let i := add_content (subtract new_genres common) id i in
    Ok (i <| in_progress ::= delete id |>)
|}.
End ContentByGenre.
#[export] Existing Instances ContentByGenre.eta ContentByGenre.content_by_genre_index.

(** ** [content_by_category_index] *)

Module ContentByCategory.

Record t := Make { in_progress : gmap Z (option string); content_by_category : gmap string (gset Z) }.
#[export] Instance eta : Settable t := fun r => Make (in_progress r) (content_by_category r).
Definition empty : t := Make ∅ ∅.

Definition add_content (category : option string) (id : Z) (i : t) : t :=
  match category with
  | None => i
  | Some category => i <| content_by_category ::= fun m => list_under id m category |>
  end.
Definition remove_content (category : option string) (cid : Z) (i : t) : t :=
  match category with
  | None => i
  | Some category =>
      match content_by_category i !! category with
      | None => i
      | Some s =>
          if bool_decide (cid ∈ s) then
            let s := s ∖ {[cid]} in
            i <| content_by_category ::= if bool_decide (s = ∅) then delete category else <[category := s]> |>
          else i
      end
  end.
Definition find_by_category (category : string) (i : t) : gset Z := default ∅ (content_by_category i !! category).

#[export] Instance content_by_category_index : secondary_index Content.t t := {|
  object_inserted id c i := add_content (AlbumMeta.album_type (Content.album_meta c)) id i;
  object_removed id c i := remove_content (AlbumMeta.album_type (Content.album_meta c)) id i;
  about_to_modify id c i :=
    _ ← fc_assert (bool_decide (in_progress i !! id = None));
    Ok (i <| in_progress ::= <[id := AlbumMeta.album_type (Content.album_meta c)]> |>);
  object_modified id c i :=
    prev_category ← of_option assert_exception (in_progress i !! id);
    let new_category := AlbumMeta.album_type (Content.album_meta c) in
    let i := if bool_decide (new_category = prev_category) then i
             else add_content new_category id (remove_content prev_category id i) in
    Ok (i <| in_progress ::= delete id |>)
|}.
End ContentByCategory.
#[export] Existing Instances ContentByCategory.eta ContentByCategory.content_by_category_index.

(** ** [primary_index] *)

Module PrimaryIndex.
Section Primary.
Context {V I : Type} {St : Stored V} {Sec : secondary_index V I}.

(** The objects and the secondary index of a table. *)
Record t := Make { rows : table V; sindex : I }.
#[local] Instance eta : Settable t := fun r => Make (rows r) (sindex r).
#[export] Existing Instance eta.

Definition unique_ok (id : Z) (v : V) (s : t) : bool :=
  bool_decide (map_Forall (fun j w => j = id \/ conflict v w = false) (indices (rows s))).
Definition get_row (id : Z) : stx t V := fun s => (of_option assert_exception (indices (rows s) !! id), s).
Definition set_row (id : Z) (o : option V) (s : t) : t := s <| rows ::= fun r => r <| indices ::= partial_alter (fun _ => o) id |> |>.
Definition upd_sindex (f : I -> result I) : stx t unit := fun s =>
  match f (sindex s) with Ok i => (Ok tt, s <| sindex := i |>) | Throw e => (Throw e, s) end.

(** [generic_index::insert], which [primary_index] does not override. *)
Definition insert (id : Z) (v : V) : stx t unit :=
  s ← getx (fun s => s);
  _ ← assertx (bool_decide (indices (rows s) !! id = None) && unique_ok id v s);
  modx (set_row id (Some v)).
Definition load (id : Z) (v : V) : stx t unit :=
  _ ← insert id v; upd_sindex (fun i => Ok (object_inserted id v i)).
Definition create (constructor : Z -> result V) : stx t Z :=
  s ← getx (fun s => s);
  let id := next_id (rows s) in
  v ← liftx (constructor id);
  _ ← insert id v;
  _ ← modx (fun s => s <| rows ::= fun r => r <| next_id := id + 1 |> |>);
  _ ← upd_sindex (fun i => Ok (object_inserted id v i));
  mret id.
Definition remove (id : Z) : stx t unit :=
  v ← get_row id;
  _ ← upd_sindex (fun i => Ok (object_removed id v i));
  modx (set_row id None).
(** [generic_index::modify]: the lambda may throw and leave what it has changed so far;
    an object that violates a unique key is erased. *)
Definition modify (id : Z) (m : V -> V * option exn) : stx t unit :=
  v ← get_row id;
  _ ← upd_sindex (about_to_modify id v);
  let '(w, exc) := m v in
  s ← getx (fun s => s);
  let ok := unique_ok id w s in
  _ ← modx (set_row id (if ok then Some w else None));
  _ ← match exc with Some e => throwx e | None => assertx ok end;
  upd_sindex (object_modified id w).
End Primary.
Arguments t : clear implicits.
End PrimaryIndex.
