(* ===== verification/SecondaryFacts.v ===== *)
(** * The secondary indexes list what they should

    The interface of an index has laws ([IndexLaws]); a table that calls an index with
    these laws as [primary_index] does keeps it exact.  The three indexes of the chain
    have the laws. *)

From S2P Require Import Prelude.
From S2P Require Import UndoDatabase.
From S2P Require Import Authority.
From S2P Require Import AuthorityFacts.
From S2P Require Import State.
From S2P Require Import Sample.
From S2P Require Import Secondary.

Module SecondaryFacts.
Import AuthorityFacts.FlatFacts.

(** ** Lists under keys *)

Section Listed.
Context {K X : Type} `{Countable K} `{Countable X}.
Implicit Types (m : gmap K (gset X)) (k : K) (x y : X) (ks : list K).

Definition listed m k : gset X := default ∅ (m !! k).

Lemma listed_insert m k s k' : listed (<[k := s]> m) k' = if decide (k = k') then s else listed m k'.
Proof. unfold listed. case_decide as E; [subst; by rewrite lookup_insert_eq|by rewrite lookup_insert_ne]. Qed.
Lemma listed_delete m k k' : listed (delete k m) k' = if decide (k = k') then ∅ else listed m k'.
Proof. unfold listed. case_decide as E; [subst; by rewrite lookup_delete_eq|by rewrite lookup_delete_ne]. Qed.

Lemma list_all x y ks m k : y ∈ listed (foldl (list_under x) m ks) k <-> (y = x /\ k ∈ ks) \/ y ∈ listed m k.
Proof.
  revert m. induction ks as [|k' ks IH]; intros m; cbn [foldl]; [set_solver|]. rewrite IH. unfold list_under at 1.
  rewrite listed_insert. fold (listed m k'). case_decide as E; [subst|]; set_solver.
Qed.
Lemma unlist_all x y ks m k : y ∈ listed (foldl (unlist_under x) m ks) k <-> ~ (y = x /\ k ∈ ks) /\ y ∈ listed m k.
Proof.
  revert m. induction ks as [|k' ks IH]; intros m; cbn [foldl]; [set_solver|]. rewrite IH. unfold unlist_under at 1.
  rewrite listed_insert. fold (listed m k'). case_decide as E; [subst|]; set_solver.
Qed.
End Listed.

(** ** The laws of an index *)

Section Laws.
Context {V I : Type} {St : Stored V} {Sec : secondary_index V I}.

Definition unique (m : gmap Z V) : Prop :=
  forall i j v w, i <> j -> m !! i = Some v -> m !! j = Some w -> conflict v w = false.

(** [exact m i]: the index [i] lists what the objects [m] ask for; [same v w]: what a
    modification must not change. *)
Class IndexLaws := {
  exact : gmap Z V -> I -> Prop;
  same : V -> V -> Prop;
  exact_inserted : forall m i id v, exact m i -> m !! id = None -> unique (<[id := v]> m) ->
    exact (<[id := v]> m) (object_inserted id v i);
  exact_removed : forall m i id v, exact m i -> m !! id = Some v -> unique m -> exact (delete id m) (object_removed id v i);
  exact_modified : forall m i id v w, exact m i -> m !! id = Some v -> unique m -> same v w ->
    exists i1 i2, about_to_modify id v i = Ok i1 /\ object_modified id w i1 = Ok i2 /\ exact (<[id := w]> m) i2
}.
End Laws.
Arguments IndexLaws : clear implicits.
Arguments IndexLaws V I {St Sec}.

(** ** A table with an index *)

Section Table.
Context {V I : Type} {St : Stored V} {Sec : secondary_index V I} {La : IndexLaws V I}.
Implicit Types (s : PrimaryIndex.t V I) (id : Z) (v w : V).
Import PrimaryIndex.
Context (conflict_sym : forall v w, conflict v w = conflict w v).

(** One call that returns; a modification keeps what the index relies on. *)
Inductive call s : PrimaryIndex.t V I -> Prop :=
  | call_create f id s' : create f s = (Ok id, s') -> call s s'
  | call_remove id s' : remove id s = (Ok tt, s') -> call s s'
  | call_modify id m s' : (forall v, indices (rows s) !! id = Some v -> same v (m v).1) -> modify id m s = (Ok tt, s') -> call s s'.

Record good s : Prop := {
  good_fresh : forall id, is_Some (indices (rows s) !! id) -> id < next_id (rows s);
  good_unique : unique (indices (rows s));
  good_exact : exact (indices (rows s)) (sindex s)
}.

Lemma row_unique_spec id v s : unique_ok id v s = true <-> forall j w, indices (rows s) !! j = Some w -> j = id \/ conflict v w = false.
Proof. unfold unique_ok. apply bool_decide_eq_true. Qed.
Lemma unique_set id v s : unique (indices (rows s)) -> unique_ok id v s = true -> unique (<[id := v]> (indices (rows s))).
Proof.
  intros Hu Hv i j a b Hn [[<- <-]|[Hi Ha]]%lookup_insert_Some [[<- <-]|[Hj Hb]]%lookup_insert_Some; [done|..|by eapply (Hu i j)].
  - rewrite row_unique_spec in Hv. by destruct (Hv _ _ Hb); [congruence|].
  - rewrite row_unique_spec in Hv. rewrite conflict_sym. by destruct (Hv _ _ Ha); [congruence|].
Qed.

Lemma create_good f id s s' : good s -> create f s = (Ok id, s') -> good s'.
Proof.
  intros [Hf Hu He] Hr. unfold create, getx, mbind, stx_bind, liftx in Hr. destruct (f _) as [v|e] eqn:Ef; [|done].
  unfold insert, mbind, stx_bind, getx, assertx in Hr. destruct (bool_decide _) eqn:Eb; [|done].
  destruct (unique_ok _ v s) eqn:Eu; [|done]. cbn in Hr. injection Hr as <- <-.
  apply bool_decide_eq_true in Eb. pose proof (unique_set _ _ _ Hu Eu) as Hu'. split; cbn.
  - intros id [w [[<- <-]|[_ Hw]]%lookup_insert_Some]; [lia|]. specialize (Hf id (ex_intro _ w Hw)). lia.
  - exact Hu'.
  - by apply exact_inserted.
Qed.

Lemma unique_delete id (m : gmap Z V) : unique m -> unique (delete id m).
Proof. intros Hu i j v w Hn [_ Hi]%lookup_delete_Some [_ Hj]%lookup_delete_Some. by eapply Hu. Qed.

Lemma remove_good id s s' : good s -> remove id s = (Ok tt, s') -> good s'.
Proof.
  intros [Hf Hu He] Hr. unfold remove, get_row, mbind, stx_bind, upd_sindex in Hr.
  destruct (indices (rows s) !! id) as [v|] eqn:Ev; [|done]. cbn in Hr. injection Hr as <-. split; cbn.
  - intros j [w [_ Hw]%lookup_delete_Some]. apply Hf. by exists w.
  - by apply unique_delete.
  - by apply exact_removed.
Qed.

(** A modification whose lambda returns is refused only for a unique key. *)
Lemma modify_outcome id m s v : good s -> indices (rows s) !! id = Some v -> same v (m v).1 -> (m v).2 = None ->
  unique_ok id (m v).1 s = true -> exists s', modify id m s = (Ok tt, s') /\ good s'.
Proof.
  intros [Hf Hu He] Hv Hs Hm Hk. destruct (exact_modified _ _ _ _ _ He Hv Hu Hs) as (i1 & i2 & E1 & E2 & Hi).
  unfold modify, get_row, mbind, stx_bind, upd_sindex, getx, modx, assertx. rewrite Hv. cbn [of_option]. rewrite E1.
  destruct (m v) as [w exc] eqn:Ew. cbn [fst snd] in *. subst exc. unfold unique_ok in *. cbn [rows]. cbn. rewrite Hk. cbn. rewrite E2.
  eexists. split; [done|]. split; cbn.
  - intros j [x [[<- <-]|[_ Hx]]%lookup_insert_Some]; apply Hf; eauto.
  - by apply unique_set.
  - exact Hi.
Qed.
Lemma modify_good id m s s' : good s -> (forall v, indices (rows s) !! id = Some v -> same v (m v).1) -> modify id m s = (Ok tt, s') -> good s'.
Proof.
  intros Hg Hs Hr. destruct (indices (rows s) !! id) as [v|] eqn:Ev.
  2: { unfold modify, get_row, mbind, stx_bind in Hr. rewrite Ev in Hr. done. }
  specialize (Hs v eq_refl). destruct Hg as [Hf Hu He]. destruct (exact_modified _ _ _ _ _ He Ev Hu Hs) as (i1 & i2 & E1 & E2 & Hi).
  pose proof Hr as Hr'. unfold modify, get_row, mbind, stx_bind, upd_sindex, getx, modx, assertx in Hr'. rewrite Ev in Hr'. cbn [of_option] in Hr'. rewrite E1 in Hr'.
  destruct (m v) as [w exc] eqn:Ew. destruct exc; [done|]. unfold unique_ok in Hr'. cbn in Hr'.
  destruct (unique_ok id w s) eqn:Ek; [|unfold unique_ok in Ek; by rewrite Ek in Hr'].
  destruct (modify_outcome id m s v) as (s1 & E & Hg); [by split|done|by rewrite Ew..|]. congruence.
Qed.

Lemma call_good s s' : good s -> call s s' -> good s'.
Proof. intros Hg []; [by eapply create_good|by eapply remove_good|by eapply modify_good]. Qed.
Lemma calls_good s s' : good s -> rtc call s s' -> good s'.
Proof. intros Hg. induction 1 as [|s1 s2 s3 H _ IH]; [done|]. by eapply IH, call_good. Qed.
End Table.

(** ** Lists of the objects with a key *)

Section Lists.
Context {V K X : Type} `{Countable K} `{Countable X} (nm : Z -> V -> X) (f : V -> K -> Prop).
Implicit Types (m : gmap Z V) (idx : gmap K (gset X)).

Definition lists_of m idx : Prop := forall k x, x ∈ listed idx k <-> exists id v, m !! id = Some v /\ nm id v = x /\ f v k.
Definition distinct m : Prop := forall i j v w, m !! i = Some v -> m !! j = Some w -> nm i v = nm j w -> i = j.

Lemma lists_inserted m idx idx' id v : lists_of m idx -> m !! id = None ->
  (forall k x, x ∈ listed idx' k <-> (x = nm id v /\ f v k) \/ x ∈ listed idx k) -> lists_of (<[id := v]> m) idx'.
Proof.
  intros Hl Hn Hi k x. rewrite Hi, (Hl k x). split.
  - intros [[-> Hf]|(j & w & Hj & Hx & Hf)]; [exists id, v; by rewrite lookup_insert_eq|].
    exists j, w. by rewrite lookup_insert_ne by (intros ->; congruence).
  - intros (j & w & [[<- <-]|[_ Hj]]%lookup_insert_Some & <- & Hf); [by left|]. right. eauto.
Qed.
Lemma lists_removed m idx idx' id v : lists_of m idx -> m !! id = Some v -> distinct m ->
  (forall k x, x ∈ listed idx' k <-> ~ (x = nm id v /\ f v k) /\ x ∈ listed idx k) -> lists_of (delete id m) idx'.
Proof.
  intros Hl Hv Hd Hi k x. rewrite Hi, (Hl k x). split.
  - intros [Hn (j & w & Hj & <- & Hf)]. exists j, w. rewrite lookup_delete_ne; [done|]. intros ->. apply Hn. by simplify_eq.
  - intros (j & w & [Hn Hj]%lookup_delete_Some & <- & Hf). split; [|eauto]. intros [E _]. by destruct Hn; eapply Hd.
Qed.
Lemma lists_modified m idx idx' id v w : lists_of m idx -> m !! id = Some v -> distinct m -> nm id w = nm id v ->
  (forall k x, x ∈ listed idx' k <-> (x = nm id v /\ f w k) \/ (x <> nm id v /\ x ∈ listed idx k)) -> lists_of (<[id := w]> m) idx'.
Proof.
  intros Hl Hv Hd Hw Hi k x. rewrite Hi, (Hl k x). split.
  - intros [[-> Hf]|[Hn (j & u & Hj & <- & Hf)]]; [exists id, w; by rewrite lookup_insert_eq|].
    exists j, u. rewrite lookup_insert_ne; [done|]. intros ->. apply Hn. by simplify_eq.
  - intros (j & u & [[<- <-]|[Hn Hj]]%lookup_insert_Some & <- & Hf); [by left|]. right. split; [|eauto]. intros E. by destruct Hn; eapply Hd.
Qed.

(** What an object is listed under is what it asks for. *)
Lemma own_keys m idx id v k : lists_of m idx -> m !! id = Some v -> distinct m -> (nm id v ∈ listed idx k <-> f v k).
Proof.
  intros Hl Hv Hd. rewrite (Hl k (nm id v)). split; [|by exists id, v].
  intros (j & w & Hw & E & Hf). assert (j = id) as -> by by eapply Hd. by simplify_eq.
Qed.
(** An update from the difference of the keys before and after. *)
Lemma lists_relisted m idx idx' id v w (before after : K -> Prop) : lists_of m idx -> m !! id = Some v -> distinct m -> nm id w = nm id v ->
  (forall k, Decision (before k)) -> (forall k, Decision (after k)) -> (forall k, before k <-> f v k) -> (forall k, after k <-> f w k) ->
  (forall k x, x ∈ listed idx' k <-> (x = nm id v /\ after k /\ ~ before k) \/
     (~ (x = nm id v /\ before k /\ ~ after k) /\ x ∈ listed idx k)) -> lists_of (<[id := w]> m) idx'.
Proof.
  intros Hl Hv Hd Hw D1 D2 Hb Ha Hi. eapply (lists_modified m idx idx' id v w); [done..|]. intros k x. rewrite Hi, <-Ha.
  pose proof (own_keys m idx id v k Hl Hv Hd) as Ho. rewrite <-Hb in Ho.
  destruct (decide (x = nm id v)) as [->|], (decide (before k)), (decide (after k)); tauto.
Qed.
End Lists.

(** ** Accounts *)

Import AccountMembers.

Lemma firsts_spec {K} `{Countable K} (auths : list (K * Z)) r k : k ∈ insert_firsts auths r <-> k ∈ auths.*1 \/ k ∈ r.
Proof. unfold insert_firsts. revert r. induction auths as [|x l IH]; intros r; cbn [foldl]; [set_solver|]. rewrite IH. set_solver. Qed.

(** The accounts and the keys an account gives authority to. *)
Definition gives_account (a : Account.t) (k : string) : Prop :=
  k ∈ (account_auths (Account.owner a) ++ account_auths (Account.active a) ++ account_auths (Account.basic a)).*1.
Definition gives_key (a : Account.t) (k : public_key) : Prop :=
  k = Account.memo_key a \/ k ∈ (key_auths (Account.owner a) ++ key_auths (Account.active a) ++ key_auths (Account.basic a)).*1.

Lemma account_members_spec a k : k ∈ get_account_members a <-> gives_account a k.
Proof. unfold get_account_members, gives_account. rewrite !firsts_spec, !fmap_app. set_solver. Qed.
Lemma key_members_spec a k : k ∈ get_key_members a <-> gives_key a k.
Proof. unfold get_key_members, gives_key. rewrite elem_of_union, !firsts_spec, !fmap_app. set_solver. Qed.

Definition named (_ : Z) (a : Account.t) : string := Account.name a.
Lemma names_distinct (m : gmap Z Account.t) : unique m -> distinct named m.
Proof.
  intros Hu i j v w Hv Hw E. destruct (decide (i = j)) as [|Hn]; [done|]. specialize (Hu _ _ _ _ Hn Hv Hw). cbn in Hu.
  unfold named in E. rewrite E, String.eqb_refl in Hu. done.
Qed.

#[export] Instance account_laws : IndexLaws Account.t AccountMembers.t.
Proof.
  refine {| exact m i := lists_of named gives_account m (account_to_account_memberships i) /\
                         lists_of named gives_key m (account_to_key_memberships i);
            same v w := Account.name w = Account.name v |}.
  - intros m i id v [H1 H2] Hn _. split; (eapply lists_inserted; [done..|]); intros k x; cbn; rewrite list_all, elem_of_elements.
    + by rewrite account_members_spec.
    + by rewrite key_members_spec.
  - intros m i id v [H1 H2] Hv Hu%names_distinct. split; (eapply lists_removed; [done..|]); intros k x; cbn; rewrite unlist_all, elem_of_elements.
    + by rewrite account_members_spec.
    + by rewrite key_members_spec.
  - intros m i id v w [H1 H2] Hv Hu%names_distinct Hs. do 2 eexists. split; [done|]. split; [done|].
    split.
    + eapply (lists_relisted _ _ _ _ _ id v w (.∈ get_account_members v) (.∈ get_account_members w)); try done; try typeclasses eauto.
      * apply account_members_spec.
      * apply account_members_spec.
      * intros k x. cbn. rewrite list_all, unlist_all, !elem_of_elements, !elem_of_difference. unfold named. by rewrite Hs.
    + eapply (lists_relisted _ _ _ _ _ id v w (.∈ get_key_members v) (.∈ get_key_members w)); try done; try typeclasses eauto.
      * apply key_members_spec.
      * apply key_members_spec.
      * intros k x. cbn. rewrite list_all, unlist_all, !elem_of_elements, !elem_of_difference. unfold named. by rewrite Hs.
Defined.

(** ** Genres *)

Module Genres.
Import ContentByGenre SignaturesFacts.
Notation sorted := (StronglySorted Z.lt).

Lemma skip_spec x l : sorted l -> sorted (skip_below x l) /\ (forall y, y ∈ skip_below x l -> x <= y) /\
  (forall y, x <= y -> (y ∈ skip_below x l <-> y ∈ l)).
Proof.
  induction 1 as [|r l Hs IH Hr]; cbn; [split_and!; [constructor|set_solver|done]|].
  rewrite Forall_forall in Hr. destruct (Z.ltb_spec r x).
  - destruct IH as (H1 & H2 & H3). split_and!; [done..|]. intros y Hy. rewrite (H3 y Hy), elem_of_cons. split; [auto|]. intros [->|]; [lia|done].
  - split_and!; [by constructor; try apply Forall_forall| |done]. intros y [->|Hy]%elem_of_cons; [lia|]. specialize (Hr y Hy). lia.
Qed.

Lemma subtract_loop_spec s1 right res : sorted s1 -> sorted right ->
  forall x, x ∈ subtract_loop s1 right res <-> x ∈ res \/ (x ∈ s1 /\ x ∉ right).
Proof.
  intros Hs. revert right res. induction Hs as [|l s1 Hs IH Hl]; intros right res Hr x; cbn; [set_solver|].
  rewrite Forall_forall in Hl. destruct (skip_spec l right Hr) as (H1 & H2 & H3). rewrite IH by done.
  assert ((match skip_below l right with [] => true | r :: _ => l <? r end = true) <-> l ∉ right) as Hin.
  { rewrite <-(H3 l) by lia. destruct (skip_below l right) as [|r rest]; [set_solver|].
    rewrite Z.ltb_lt, elem_of_cons. apply StronglySorted_inv in H1 as [_ H1]. rewrite Forall_forall in H1. split.
    - intros Hlr [->|Hx]; [lia|]. specialize (H1 l Hx). lia.
    - intros Hn. specialize (H2 r (list_elem_of_here _ _)). assert (l <> r) by (intros ->; auto). lia. }
  assert (forall y, y ∈ s1 -> (y ∈ skip_below l right <-> y ∈ right)) as Hrest by (intros y Hy; apply H3; specialize (Hl y Hy); lia).
  destruct (match skip_below l right with [] => true | r :: _ => l <? r end) eqn:E.
  - rewrite (insert_spec Z.ltb), elem_of_cons. apply proj1 in Hin. specialize (Hin eq_refl). naive_solver.
  - rewrite elem_of_cons. assert (l ∈ right) by (destruct (decide (l ∈ right)); [done|by apply Hin in n]). naive_solver.
Qed.
Lemma subtract_spec s1 s2 x : sorted s1 -> sorted s2 -> x ∈ subtract s1 s2 <-> x ∈ s1 /\ x ∉ s2.
Proof. intros H1 H2. unfold subtract. rewrite subtract_loop_spec by done. set_solver. Qed.

Lemma intersect_loop_spec s1 right res : sorted s1 -> sorted right -> sorted res ->
  sorted (intersect_loop s1 right res) /\ forall x, x ∈ intersect_loop s1 right res <-> x ∈ res \/ (x ∈ s1 /\ x ∈ right).
Proof.
  intros Hs. revert right res. induction Hs as [|l s1 Hs IH Hl]; intros right res Hr Hres; cbn; [split; [done|set_solver]|].
  rewrite Forall_forall in Hl. destruct (skip_spec l right Hr) as (H1 & H2 & H3).
  assert (forall y, y ∈ l :: s1 -> (y ∈ skip_below l right <-> y ∈ right)) as Hrest.
  { intros y [->|Hy]%elem_of_cons; apply H3; [lia|]. specialize (Hl y Hy). lia. }
  destruct (skip_below l right) as [|r rest] eqn:E.
  - split; [done|]. intros x. split; [auto|]. intros [|[Hx Hx']]; [done|]. apply Hrest in Hx'; [|done]. by apply elem_of_nil in Hx'.
  - specialize (IH (r :: rest) (if l =? r then Flat.insert Z.ltb l res else res) H1) as [I1 I2].
    { destruct (l =? r); [by apply flat_insert_sorted|done]. }
    split; [done|]. intros x. rewrite I2. clear I1 I2. destruct (Z.eqb_spec l r) as [->|Hn].
    + rewrite (insert_spec Z.ltb), !elem_of_cons. pose proof (Hrest x) as Hx. rewrite !elem_of_cons in Hx.
      pose proof (Hrest r) as Hx'. rewrite !elem_of_cons in Hx'. naive_solver.
    + assert (l ∉ right) as Hl'.
      { rewrite <-(Hrest l) by set_solver. rewrite elem_of_cons. intros [->|Hx]; [done|].
        apply StronglySorted_inv in H1 as [_ H1]. rewrite Forall_forall in H1. specialize (H1 l Hx). specialize (H2 r (list_elem_of_here _ _)). lia. }
      pose proof (Hrest x) as Hx. rewrite !elem_of_cons in Hx |- *. naive_solver.
Qed.
Lemma intersect_spec s1 s2 : sorted s1 -> sorted s2 -> sorted (intersect s1 s2) /\ forall x, x ∈ intersect s1 s2 <-> x ∈ s1 /\ x ∈ s2.
Proof. intros H1 H2. destruct (intersect_loop_spec s1 s2 [] H1 H2) as [H3 H4]; [constructor|]. split; [done|]. intros x. unfold intersect. rewrite H4. set_solver. Qed.

(** The genres a content names. *)
Definition has_genre (c : Content.t) (g : Z) : Prop :=
  g = AlbumMeta.genre_1 (Content.album_meta c) \/ AlbumMeta.genre_2 (Content.album_meta c) = Some g \/
  g = TrackMeta.genre_1 (Content.track_meta c) \/ TrackMeta.genre_2 (Content.track_meta c) = Some g.

Lemma insert_opt_spec o s x : x ∈ insert_opt o s <-> o = Some x \/ x ∈ s.
Proof. destruct o as [y|]; cbn; [rewrite (insert_spec Z.ltb)|]; naive_solver. Qed.
Lemma insert_opt_sorted o s : sorted s -> sorted (insert_opt o s).
Proof. intros Hs. destruct o; [by apply flat_insert_sorted|done]. Qed.
Lemma genres_spec c : sorted (get_genres c) /\ forall g, g ∈ get_genres c <-> has_genre c g.
Proof.
  split; [apply insert_opt_sorted, flat_insert_sorted, insert_opt_sorted, flat_insert_sorted; constructor|].
  intros g. unfold get_genres, has_genre. rewrite insert_opt_spec, (insert_spec Z.ltb), insert_opt_spec, (insert_spec Z.ltb). set_solver.
Qed.

Lemma removed_all x y ks (m : gmap Z (gset Z)) k : y ∈ listed (foldl (remove_from_genre x) m ks) k <-> ~ (y = x /\ k ∈ ks) /\ y ∈ listed m k.
Proof.
  revert m. induction ks as [|k' ks IH]; intros m; cbn [foldl]; [set_solver|]. rewrite IH. unfold remove_from_genre at 1.
  destruct (m !! k') as [s|] eqn:E.
  - rewrite listed_insert. case_decide as Ek; [subst k'; unfold listed; rewrite E; cbn|]; set_solver.
  - destruct (decide (k = k')) as [->|]; [|set_solver]. assert (listed m k' = ∅) as -> by (unfold listed; by rewrite E). set_solver.
Qed.
End Genres.
Import Genres.

Definition numbered (id : Z) (_ : Content.t) : Z := id.
Lemma numbers_distinct (m : gmap Z Content.t) : distinct numbered m.
Proof. by intros i j v w _ _ E. Qed.

#[export] Instance genre_laws : IndexLaws Content.t ContentByGenre.t.
Proof.
  refine {| exact m i := ContentByGenre.in_progress i = ∅ /\ lists_of numbered has_genre m (ContentByGenre.content_by_genre i);
            same v w := True |}.
  - intros m i id v [H0 H1] Hn _. split; [done|]. eapply lists_inserted; [done..|]. intros k x. cbn. rewrite list_all.
    by rewrite (proj2 (genres_spec v)).
  - intros m i id v [H0 H1] Hv _. split; [done|]. eapply lists_removed; [done|done|apply numbers_distinct|]. intros k x. cbn. rewrite removed_all.
    by rewrite (proj2 (genres_spec v)).
  - intros m i id v w [H0 H1] Hv _ _. destruct (genres_spec v) as [Sv Gv], (genres_spec w) as [Sw Gw].
    destruct (intersect_spec _ _ Sv Sw) as [Sc Gc]. cbn. rewrite H0, lookup_empty, bool_decide_true by done. cbn.
    do 2 eexists. split; [done|]. cbn. rewrite lookup_insert_eq. cbn. split; [done|]. cbn. split; [by rewrite H0, delete_insert_id|].
    eapply (lists_relisted _ _ _ _ _ id v w (.∈ ContentByGenre.get_genres v) (.∈ ContentByGenre.get_genres w));
      try done; try typeclasses eauto; [apply numbers_distinct|].
    intros k x. rewrite list_all, removed_all, !subtract_spec, Gc by done. unfold numbered. 
    destruct (decide (k ∈ ContentByGenre.get_genres v)), (decide (k ∈ ContentByGenre.get_genres w)); tauto.
Defined.

(** ** Categories *)

Definition in_category (c : Content.t) (k : string) : Prop := AlbumMeta.album_type (Content.album_meta c) = Some k.

Module Categories.
Import ContentByCategory.
Lemma added c id i x k : x ∈ listed (content_by_category (add_content c id i)) k <-> (x = id /\ c = Some k) \/ x ∈ listed (content_by_category i) k.
Proof.
  destruct c as [c|]; cbn; [|naive_solver]. unfold list_under. rewrite listed_insert. fold (listed (content_by_category i) c).
  case_decide as E; [subst|]; set_solver.
Qed.
Lemma removed c id i x k : x ∈ listed (content_by_category (remove_content c id i)) k <-> ~ (x = id /\ c = Some k) /\ x ∈ listed (content_by_category i) k.
Proof.
  destruct c as [c|]; cbn; [|naive_solver]. destruct (content_by_category i !! c) as [s|] eqn:E.
  2: { assert (listed (content_by_category i) c = ∅) as H by (unfold listed; by rewrite E). destruct (decide (k = c)) as [->|]; [rewrite H|]; set_solver. }
  assert (listed (content_by_category i) c = s) as H by (unfold listed; by rewrite E).
  destruct (bool_decide_reflect (id ∈ s)); [|destruct (decide (k = c)) as [->|]; [rewrite H|]; naive_solver]. cbn.
  destruct (bool_decide_reflect (s ∖ {[id]} = ∅)).
  - rewrite listed_delete. case_decide as Ek; [subst k; rewrite H|]; set_solver.
  - rewrite listed_insert. case_decide as Ek; [subst k; rewrite H|]; set_solver.
Qed.
Lemma add_progress c id i : in_progress (add_content c id i) = in_progress i.
Proof. by destruct c. Qed.
Lemma remove_progress c id i : in_progress (remove_content c id i) = in_progress i.
Proof. destruct c as [c|]; [cbn|done]. by repeat case_match. Qed.
End Categories.

#[export] Instance category_laws : IndexLaws Content.t ContentByCategory.t.
Proof.
  refine {| exact m i := ContentByCategory.in_progress i = ∅ /\ lists_of numbered in_category m (ContentByCategory.content_by_category i);
            same v w := True |}.
  - intros m i id v [H0 H1] Hn _. cbn. split; [by rewrite Categories.add_progress|]. eapply lists_inserted; [done..|].
    intros k x. apply Categories.added.
  - intros m i id v [H0 H1] Hv _. cbn. split; [by rewrite Categories.remove_progress|]. eapply lists_removed; [done|done|apply numbers_distinct|].
    intros k x. apply Categories.removed.
  - intros m i id v w [H0 H1] Hv _ _. cbn. rewrite H0, lookup_empty, bool_decide_true by done. cbn.
    do 2 eexists. split; [done|]. cbn. rewrite lookup_insert_eq. cbn. split; [done|]. cbn. split.
    + case_bool_decide; [|rewrite Categories.add_progress, Categories.remove_progress]; cbn; by rewrite H0, delete_insert_id.
    + eapply (lists_modified _ _ _ _ _ id v w); [exact H1|exact Hv|apply numbers_distinct|done|]. intros k x.
      pose proof (own_keys _ _ _ _ id v k H1 Hv (numbers_distinct m)) as Ho. unfold numbered, in_category in *.
      case_bool_decide as E; cbn; [|rewrite Categories.added, Categories.removed; cbn].
      * rewrite E. destruct (decide (x = id)) as [->|]; tauto.
      * destruct (decide (x = id)) as [->|]; naive_solver.
Defined.

(** ** Properties *)

Definition empty_table {V I} (i : I) : PrimaryIndex.t V I := PrimaryIndex.Make (Table 0 ∅) i.
Lemma empty_good {V I} `{La : IndexLaws V I} (i : I) : exact ∅ i -> good (empty_table i).
Proof. intros Hi. split; [by intros id [v Hv]|by intros j k v w _ Hv|exact Hi]. Qed.

Lemma nothing_listed {V K X} `{Countable K} `{Countable X} (nm : Z -> V -> X) (f : V -> K -> Prop) : lists_of nm f ∅ ∅.
Proof. intros k x. split; [by intros Hx%elem_of_empty|by intros (id & v & Hv & _)]. Qed.

(** C40 Whatever objects are created, modified and removed, each index lists under a key
    exactly the objects that have it: the accounts whose owner, active or basic
    authority names an account or key, or whose memo key it is, the contents of a genre
    on either of their sides, the contents of a category; and an index refuses no
    modification that returns. *)
Theorem secondary_indexes_exact :
  (forall s, rtc call (empty_table AccountMembers.empty) s -> forall n,
     (forall k, n ∈ listed (account_to_account_memberships (PrimaryIndex.sindex s)) k <->
        exists id a, indices (PrimaryIndex.rows s) !! id = Some a /\ Account.name a = n /\ gives_account a k) /\
     (forall k, n ∈ listed (account_to_key_memberships (PrimaryIndex.sindex s)) k <->
        exists id a, indices (PrimaryIndex.rows s) !! id = Some a /\ Account.name a = n /\ gives_key a k)) /\
  (forall s, rtc call (empty_table ContentByGenre.empty) s ->
     (forall g id, id ∈ ContentByGenre.find_by_genre g (PrimaryIndex.sindex s) <->
        exists c, indices (PrimaryIndex.rows s) !! id = Some c /\ has_genre c g) /\
     forall id c m, indices (PrimaryIndex.rows s) !! id = Some c -> (m c).2 = None -> PrimaryIndex.unique_ok id (m c).1 s = true ->
       exists s', PrimaryIndex.modify id m s = (Ok tt, s')) /\
  (forall s, rtc call (empty_table ContentByCategory.empty) s ->
     (forall k id, id ∈ ContentByCategory.find_by_category k (PrimaryIndex.sindex s) <->
        exists c, indices (PrimaryIndex.rows s) !! id = Some c /\ in_category c k) /\
     forall id c m, indices (PrimaryIndex.rows s) !! id = Some c -> (m c).2 = None -> PrimaryIndex.unique_ok id (m c).1 s = true ->
       exists s', PrimaryIndex.modify id m s = (Ok tt, s')).
Proof.
  assert (forall v w : Account.t, conflict v w = conflict w v) as Ca by (intros; apply String.eqb_sym).
  assert (forall v w : Content.t, conflict v w = conflict w v) as Cc by (intros; apply String.eqb_sym).
  split_and!.
  - intros s Hr n. apply (calls_good Ca) in Hr as [_ _ [H1 H2]]; [|apply empty_good; split; apply nothing_listed].
    split; intros k; [apply H1|apply H2].
  - intros s Hr. apply (calls_good Cc) in Hr as Hg; [|apply empty_good; split; [done|apply nothing_listed]]. split.
    + intros g id. destruct Hg as [_ _ [_ H]]. etransitivity; [apply (H g id)|]. unfold numbered. naive_solver.
    + intros id c m Hv Hm Hk. destruct (modify_outcome Cc id m s c Hg Hv I Hm Hk) as (s' & E & _). by exists s'.
  - intros s Hr. apply (calls_good Cc) in Hr as Hg; [|apply empty_good; split; [done|apply nothing_listed]]. split.
    + intros g id. destruct Hg as [_ _ [_ H]]. etransitivity; [apply (H g id)|]. unfold numbered. naive_solver.
    + intros id c m Hv Hm Hk. destruct (modify_outcome Cc id m s c Hg Hv I Hm Hk) as (s' & E & _). by exists s'.
Qed.

(** ** A content that changes its genre *)

Definition genres_of_song (g1 : Z) (g2 : option Z) (c : Content.t) : Content.t :=
  c <| Content.album_meta ::= fun m => m <| AlbumMeta.genre_1 := g1 |> <| AlbumMeta.genre_2 := g2 |> |>
    <| Content.track_meta ::= fun m => m <| TrackMeta.genre_1 := g1 |> |>.
Notation genre_table := (PrimaryIndex.t Content.t ContentByGenre.t).
Definition filed : genre_table :=
  (PrimaryIndex.create (fun _ => Ok (genres_of_song 3 (Some 5) Sample.song)) (empty_table ContentByGenre.empty)).2.
Definition refiled : genre_table := (PrimaryIndex.modify 0 (fun c => (genres_of_song 5 (Some 8) c, None)) filed).2.

Lemma secondary_indexes_exact_witness : rtc call (empty_table ContentByGenre.empty) refiled /\
  (0 ∈ ContentByGenre.find_by_genre 5 (PrimaryIndex.sindex refiled) <->
     exists c, indices (PrimaryIndex.rows refiled) !! 0 = Some c /\ has_genre c 5) /\
  map (fun g => elements (ContentByGenre.find_by_genre g (PrimaryIndex.sindex refiled))) [3; 5; 8] = [[]; [0]; [0]].
Proof.
  assert (rtc call (empty_table ContentByGenre.empty) refiled) as Hr.
  { eapply rtc_l; [|apply rtc_once].
    - apply (call_create _ (fun _ => Ok (genres_of_song 3 (Some 5) Sample.song)) 0 filed). vm_compute. reflexivity.
    - apply (call_modify _ 0 (fun c => (genres_of_song 5 (Some 8) c, None))); [by intros v _|vm_compute; reflexivity]. }
  split; [exact Hr|]. split; [|vm_compute; reflexivity].
  destruct secondary_indexes_exact as (_ & H & _). apply (H refiled Hr).
Defined.

(** ** What exceptions and undoing do to the indexes *)

(** The undo database brings a removed object back with [insert], which tells the index
    nothing. *)
Example restored_not_listed :
  let s := (PrimaryIndex.insert 0 (genres_of_song 3 None Sample.song) (PrimaryIndex.remove 0 filed).2).2 in
  is_Some (indices (PrimaryIndex.rows s) !! 0) /\ elements (ContentByGenre.find_by_genre 3 (PrimaryIndex.sindex s)) = [].
Proof. vm_compute. split; [by eexists|reflexivity]. Qed.

(** A lambda that throws leaves the content in progress: no later modification of it
    succeeds, that of the undo database, which restores what it was, included. *)
Example thrown_stays_in_progress :
  let s := (PrimaryIndex.modify 0 (fun c => (c, Some assert_exception)) filed).2 in
  (PrimaryIndex.modify 0 (fun c => (genres_of_song 3 (Some 5) Sample.song, None)) s).1 = Throw assert_exception.
Proof. vm_compute. reflexivity. Qed.
End SecondaryFacts.
